(* ===== verification/_CoqProject ===== *)
-Q . S2P
Prelude.v
GoSort.v
Float64.v
Errors.v
RolloutBehavior.v
RolloutBehaviorFacts.v
RolloutStore.v
RolloutStoreFacts.v
RolloutTargets.v
RolloutTargetsFacts.v
RolloutEngine.v
RolloutControl.v
RolloutAssign.v
RolloutEvolve.v
RolloutHistory.v
RolloutLineage.v
RolloutProgressFacts.v
RolloutSafety.v
RolloutSelectFacts.v
RolloutRecordFacts.v
RolloutAssignFacts.v
RolloutExamples.v
CurtailmentModes.v
CurtailmentSelector.v
CurtailmentPreview.v
CurtailmentFacts.v
CurtailmentPlanFacts.v
GoTime.v
CommandFilter.v
ScheduleCron.v
ScheduleStore.v
ScheduleService.v
ScheduleProcessor.v
ScheduleFleetFacts.v
ScheduleStoreFacts.v
SchedulePriorityFacts.v
ScheduleInvariant.v
ScheduleProcessorFacts.v
ScheduleRetryFacts.v
ScheduleExamples.v
GoBase64.v
AuthzPermissions.v
AuthzStore.v
AuthzService.v
AuthService.v
AuthzResolverFacts.v
AuthRequests.v
AuthEffects.v
AuthFrame.v
AuthInvariant.v
AuthzReconcileFacts.v
AuthSafety.v
AuthRecovery.v
AuthAttempts.v
AuthTokenFacts.v
AuthExamples.v
ChannelStore.v
ChannelService.v
ChannelFacts.v
ChannelEdits.v
ChannelSafety.v
ChannelMembership.v
ChannelPreview.v
ChannelListing.v
ChannelListingFacts.v
ChannelExamples.v
CurtailmentEvents.v
CurtailmentDecisions.v
CurtailmentReconciler.v
CurtailmentPasses.v
CurtailmentTrace.v
CurtailmentKeeps.v
CurtailmentDispatch.v
CurtailmentSafety.v
CurtailmentPassSafety.v
CurtailmentPacing.v
CurtailmentRestoration.v
CurtailmentLiveness.v
CurtailmentService.v
CurtailmentExamples.v
