(* ===== verification/Prelude.v ===== *)
(** * Verification of the Proto Fleet server

    Proto Fleet manages fleets of bitcoin miners. Its Go server keeps sites,
    miners, schedules, curtailment events, users and firmware in PostgreSQL and acts
    on miners through a command service. This development models four parts of it and
    proves what makes them safe to run against a fleet:

    - the firmware release channels and rollouts
      ([src/server/internal/domain/rollout], with the statements it runs from
      [src/server/sqlc/queries/release_channel*.sql] and the triggers of
      [src/server/migrations/000148_release_channels.up.sql]);
    - power curtailment ([src/server/internal/domain/curtailment]): the selection of
      miners (modes, selector.go and the preview pipeline of service.go), and the events
      with the reconciler that carries them out (reconciler/, with the statements of
      [src/server/internal/domain/stores/sqlstores/curtailment.go]);
    - the schedules ([src/server/internal/domain/schedule]) and the preflight filters
      of commands ([src/server/internal/domain/command]);
    - users, roles and permissions ([src/server/internal/domain/authz],
      [src/server/internal/domain/auth], [src/server/internal/domain/session] and the
      gates of [src/server/internal/handlers/middleware/permission.go]).

    ** The program

    A release channel has a scope (sites, buildings, racks, groups, miners) and a
    behaviour (all at once, batched, pilot first, or delegated to a controller).
    Assigning firmware to a (manufacturer, model) pair of a channel starts a
    rollout: its members are ordered, split in batches and snapshotted with their
    health. An enforcement loop then prepares every active rollout (membership,
    provenance, convergence), sends updates within the channel's offline budget
    through the command service, and moves the rollout through its stages (batch,
    review or wait, rest) until every target is settled. Operators and controllers
    continue, pause, resume, cancel, advance, skip, complete and retry under a
    revision that the database advances once per transaction.

    Channels are created, edited and deleted under the rule that an edit may not put a
    miner in two channels of the same specificity; a miner belongs to the channel that
    names it most specifically, and to none while two tie. A preview answers what saving
    would, and listings page by keyset cursors.

    A curtailment request names a scope (the organization, sites, buildings, racks,
    groups or miners) and a mode. Its preview validates the request, resolves the
    scope to a filter, reads the candidates with the miners of active events and in
    cooldown, skips those that may not be curtailed with a reason each, ranks the
    rest by efficiency and lets the mode take a prefix (FIXED_KW) or all of them
    (FULL_FLEET); an all-paired policy owns every paired miner instead.

    A curtailment event has a target row per miner. At every tick the reconciler makes a
    pass over each event that is not over: it claims targets in their rows and sends
    Curtail to batches of them, confirms them by telemetry, watches the confirmed ones
    for drift, admits new members of a closed loop, turns facility fans off when nobody
    needs air, and after a stop opens the air again and restores miners batch by batch,
    each within its retry budget, until the event completes. Meanwhile operators,
    automations and other replicas write the same rows: every write names the states it
    expects, and the event is looked at again before a command.

    A schedule has an action, targets (miners, racks, groups), a priority and either one
    start time or a recurrence. The service stores it with the next run it computes; a
    processor keeps a timer job per schedule, claims the row when a job fires, expands
    the targets, sends the command in the schedule's name and puts the row back, and a
    periodic check ends the windows that are over. Before a command is sent, filters
    take out devices held by a running schedule of a higher priority, by an active
    curtailment or, for firmware, by a release channel.

    A user belongs to one organization and holds roles there, for the organization or at
    a site; a role is a set of permission keys of a fixed catalog, and an assignment at a
    site narrows the organization's grant at that site. Requests resolve the effective
    permissions of the caller and pass a gate; managing users and roles asks that the
    caller holds what it gives and covers whom it manages, and keeps one super
    administrator. A boot reconciliation writes the catalog and the built-in roles.
    Logins compare the password outside a transaction, throttled per user, and open the
    session in one that checks that the password was not changed.

    ** The files

    - [Prelude]: scope, tactics, hint database, machine integers, results and the
      state-and-error monad [M]; record update; times. [GoSort], [Float64]: Go's
      stable sort and IEEE 754 arithmetic. [Errors]: [fleeterror].
    - [RolloutBehavior]: behavior.go (scope, thresholds, behaviour, validation, pair
      keys). [RolloutBehaviorFacts]: its theorems.
    - [RolloutStore]: the tables as a record [DB] (a [gmap] of headers, the target
      rows, deployments, channels, assignments, reservations, events) and one
      function per SQL statement, with the revision triggers; the tables of other
      components are a [World] the engine reads. [RolloutStoreFacts]: frames.
    - [RolloutTargets]: the pure decisions of rollout.go, enforce.go and
      delegated.go (phase, order, batches, stage clock, evidence, offline budget,
      selection). [RolloutTargetsFacts]: their theorems.
    - [RolloutEngine]: lock, events, creation, membership, provenance, convergence
      and dispatch (rollout.go, enforce.go, events.go), as operations [Op] over [DB]
      that return, return an error, panic or diverge. The class [Env] holds what the
      engine calls and does not own: the clock, the random source, the files and
      command services and the membership queries.
    - [RolloutControl]: progress of a stage, enforcement of one rollout, views, and
      the operator's and controller's actions (rollout.go, delegated.go, enforce.go).
    - [RolloutAssign]: assignment, preview, rollback, retry, the enforcement tick and
      the device pages (service.go, enforce.go, terminal_provenance.go).
    - [RolloutEvolve]: the relation every transaction satisfies, proved statement by
      statement. [RolloutHistory]: requests, histories and their invariants.
      [RolloutLineage]: the requests that start, supersede or retry rollouts, the
      index of active rollouts, and rollback.
      [RolloutProgressFacts]: the abstract stage machine and its refinement, the
      review gate, pauses. [RolloutSafety]: revisions, cancellation, dispatch.
      [RolloutSelectFacts]: selection and the controller's advance.
      [RolloutRecordFacts]: convergence, provenance, events, counts.
      [RolloutAssignFacts]: creation, preview, pages.
    - [RolloutExamples]: a concrete fleet and command service on which the theorems
      with hypotheses are applied.
    - [GoBase64]: the raw URL alphabet of encoding/base64. [ChannelStore]: the channel
      tables, the fleet they read and one function per statement. [ChannelService]:
      creation, update, deletion, preview and summaries of channels (service.go).
      [ChannelListing]: cursors and listings. [ChannelFacts], [ChannelEdits]: matches,
      conflicts and the effect of each request. [ChannelSafety], [ChannelMembership],
      [ChannelPreview], [ChannelListingFacts]: the theorems. [ChannelExamples]: their
      witnesses.
    - [CurtailmentModes]: the modes (modes/*.go). [CurtailmentSelector]: the
      pre-filter, the plan, the all-paired policy and the target rows (selector.go,
      service.go). [CurtailmentPreview]: scopes, validation, batch sizes and [Preview]
      (service.go) over the class [CurtailmentStore], what the store's queries
      returned. [CurtailmentFacts]: the passes of the pipeline as filters, orders and
      counts. [CurtailmentPlanFacts]: the theorems on plans and scopes.
      [CurtailmentExamples]: a concrete store, events and scripts for the witnesses.
    - [CurtailmentEvents]: events and targets ([models.go]), the two tables as a record
      [CurtailDB] and one function per statement or transaction (stop, recurtail, patches
      and claims of targets, readiness, confirmations, fans, administrator actions).
      [CurtailmentDecisions]: the pure decisions of the reconciler (telemetry, retry
      budget, batch sizes and intervals, fan delays, scopes, outcomes).
      [CurtailmentReconciler], [CurtailmentPasses]: its operations and passes, in a monad
      over the tables, the copies in memory (cells shared by slices), a clock, a trace of
      what it did and a script ([RTurn]) of what others do and calls answer.
    - [CurtailmentTrace]: when a command of a trace is justified. [CurtailmentKeeps],
      [CurtailmentDispatch], [CurtailmentSafety], [CurtailmentPassSafety]: every command
      of a pass is. [CurtailmentPacing]: the pace of restores. [CurtailmentRestoration],
      [CurtailmentLiveness]: what targets have left to be restored, and that a stopped
      event ends. [CurtailmentService]: the operators' requests (service.go: Stop,
      Recurtail, Update, AdminTerminate, ForceRelease) and histories of them.
    - [GoTime]: Go's calendar, time.Date, the layouts and decimal integers in use.
      [CommandFilter]: the chain of preflight filters. [ScheduleCron]: cron.go, over the
      class [Calendar] of time zones and cron expressions. [ScheduleStore]: the schedule
      tables and statements. [ScheduleService]: service.go. [ScheduleProcessor]:
      processor.go, whose calls may fail and between which others move, both by a script
      ([Turns]); also the device tables, the expansion of targets and the overlap query.
    - [ScheduleFleetFacts], [ScheduleStoreFacts], [SchedulePriorityFacts],
      [ScheduleInvariant], [ScheduleProcessorFacts], [ScheduleRetryFacts]: their theorems
      (those of the filters and of cron are in [CommandFilter] and [ScheduleCron]). [ScheduleExamples]: calendars, tables and scripts for the witnesses.
    - [AuthzPermissions]: catalog.go, builtin.go, effective.go, site_scope.go and the
      gates, with the theorems on subsumption and site scopes. [AuthzStore]: the tables as a record [AuthDB] and one function per statement,
      with the constraints it can violate; the database's [LOWER] is the class
      [Collation]. [AuthzService]: resolver.go, roleid.go, service.go, reconcile.go.
      [AuthService]: users, passwords, throttling, sessions and break glass, over the
      class [AuthEnv] (bcrypt, open repair tickets); login and the verification and change
      of passwords.
    - [AuthzResolverFacts]: the narrowing rule on the tables and the resolver. [AuthRequests], [AuthEffects],
      [AuthFrame]: requests and histories, what each success writes, what credential
      operations keep. [AuthInvariant], [AuthzReconcileFacts], [AuthSafety],
      [AuthRecovery], [AuthAttempts], [AuthTokenFacts]: the theorems. [AuthExamples]: two organizations built by the operations.

    ** What the theorems show

    - Dispatch: an update goes only to a target that may receive it, within the
      offline budget and the attempt limit ([dispatch_is_safe]); a paused rollout is
      inert; a controller's advance is all or nothing.
    - Stages: one progress transaction is the unique move of an abstract machine
      ([progress_refines_stage_machine]); a review gate is left without an operator
      only on recovery within every limit; the gate evaluation never panics; the
      stage clock counts active time only.
    - History: whatever is requested, at most one rollout of a pair is active and
      finished rollouts keep their headers; targets and events are kept; a transaction
      advances a changed rollout's revision exactly once; a stale revision changes
      nothing; canceling settles every target; a rollback assigns what was replaced.
    - Records: provenance and convergence are exact, events lose no identifier, the
      phase counts partition the targets, the pages are the devices.
    - Creation: a rollout starts with its members in order; the preview announces its
      batches unless int32 arithmetic wraps; orders, validation, scopes and pair keys
      are canonical.
    - Channels: no history of edits adds a conflict of channels; a saved channel covers
      exactly the miners of its scope; membership is the most specific unique match;
      deleting is exact; a preview agrees with saving; following the cursors lists every
      member once.
    - Curtailment: a preview reads exactly the requested scope and accounts for every
      miner of it; a fixed-kW plan takes only miners that may be curtailed, the least
      efficient first, and the shortest prefix that reaches the target; a rejection
      counts every exclusion; the all-paired policy and the full-fleet admission miss
      no miner.
    - Curtailment events: whatever others do and whichever calls fail, a pass commands
      only miners it has claimed, for an event it has just seen unchanged, and turns fans
      off only when every miner is confirmed at rest ([pass_commands_are_justified]);
      restores go out one bounded batch at a time ([restore_batches_are_paced]); after a
      stop, left alone, the reconciler ends the event whatever commands and telemetry
      answer ([stopped_event_is_restored]). Along any history of requests and statements a
      miner has one live target at most and an event that is over stays as it ended
      ([curtailment_tables_stay_sound]).
    - Commands and schedules: the filters protect the devices others hold; the SQL of
      the overlap query agrees with the expansion in Go; the next run is the first due
      time; stored schedules read back; a reorder accepts exactly the complete orders;
      the tables stay well formed and stopped schedules are left alone along any history
      of the service and the processor; an execution sends at most one command, after a
      claim; a one-time schedule whose execution fails is armed again.
    - Access: what the resolver computes is the narrowing rule on the rows; subsumption
      and site scopes, which work on key sets, compare exactly what users may do; no
      request gives anybody what its caller lacks or reaches another organization; the
      tables stay well formed along any history; the boot reconciliation converges.
    - Credentials: the one super administrator survives any history and a break-glass
      reset then succeeds; a session is opened only for the password the user has at
      that moment; attempts are bounded; role identifiers have one spelling.

    ** Fuel and bounds

    Four loops take fuel: [batch_loop], [event_batches], [trim_left] and the page walk
    of the pages theorem, each as much as the list is long; every iteration consumes at
    least one element, so the fuel suffices (the batch, event and page theorems prove
    it). Following keyset cursors takes one page more than there are rows, which the
    termination theorem of the listings shows to be enough. The batching loop
    of the source does not end for a batch size below one: there the model is
    [Diverged], and validation excludes it. Integers are [Z] with [int32] and [int64]
    wrap-around where the source computes at that width; times are nanoseconds.
    Priorities of schedules are int32: their theorems assume fewer than 2^31 schedules
    ([room_for_priority]). Row identifiers of users and roles are unbounded. A stopped
    event needs at most one tick more than its targets times one plus twice the retry
    budget: each tick uses up a dispatch or an attempt of some target ([left_of]); the
    theorem assumes a retry budget below 2^31 - 1 and ticks at least a timeout and a
    batch interval apart.

    ** Not modelled

    Lock waits and isolation below serializable: a transaction is one atomic step, and
    histories interleave whole transactions (with arbitrary changes of the other tables
    for rollouts, with scripted moves and failures between the calls of the schedule
    processor). Other database failures, messages of errors, logs, the activity log,
    cursor encodings, goroutines, tickers and cookies. The time zone database, the cron
    library, bcrypt and the collation of the database are classes with no assumption but
    those a theorem names. Of the curtailment events: Start and its insertion of an
    event, the automation tables (whether an automation still demands an event is an
    argument of the stop), the loop of the confirmation pulse, deadlines of contexts,
    metrics and alerts. The theorem that a stopped event ends excludes fans, whose ON
    command may fail for ever, and topology scopes, whose miners may stay out of reach.
    Also not modelled of the parts above: the listings of rollouts and events. The other
    domains of the server (command queue, fleet nodes, high availability, telemetry and
    the rest) are outside. The next parts to model are, in this order, the start of
    curtailment events and their automations, the command queue and network scanning. *)

(** ** The prelude *)

From stdpp Require Export base tactics strings gmap list sets sorting.
From Stdlib Require Export ZArith Lia.

Declare Scope go_scope.
Delimit Scope go_scope with go.
#[global] Open Scope go_scope.
#[global] Open Scope Z_scope.

(** ** Boolean equality of comparable Go values *)

Notation "x == y" := (bool_decide (x = y))
  (at level 70, no associativity) : go_scope.
Notation "x != y" := (negb (bool_decide (x = y)))
  (at level 70, no associativity) : go_scope.

(** The hint database of the development: facts that close the routine side
    conditions (list membership, bounds, monad inversions). *)
Create HintDb fleet.

(** [crush_bools] splits every boolean connective and every decided equality
    of the context into the propositions they decide. *)
Ltac crush_bools :=
  repeat match goal with
  | H : andb _ _ = true |- _ => apply andb_prop in H; destruct H
  | H : orb _ _ = false |- _ => apply orb_false_elim in H; destruct H
  | H : negb _ = true |- _ => apply negb_true_iff in H
  | H : negb _ = false |- _ => apply negb_false_iff in H
  | H : bool_decide _ = true |- _ => apply bool_decide_eq_true in H
  | H : bool_decide _ = false |- _ => apply bool_decide_eq_false in H
  | H : (_ <? _)%Z = true |- _ => apply Z.ltb_lt in H
  | H : (_ <? _)%Z = false |- _ => apply Z.ltb_ge in H
  | H : (_ <=? _)%Z = true |- _ => apply Z.leb_le in H
  | H : (_ <=? _)%Z = false |- _ => apply Z.leb_gt in H
  | H : (_ =? _)%Z = true |- _ => apply Z.eqb_eq in H
  | H : (_ =? _)%Z = false |- _ => apply Z.eqb_neq in H
  end.

(** [case_if] destructs the condition of the first [if] of the goal and keeps
    its equation, split into propositions. *)
Ltac case_if :=
  match goal with
  | |- context [if ?b then _ else _] =>
      let E := fresh "E" in destruct b eqn:E; crush_bools
  end.

(** ** Machine integers *)

(** [wrap w z] is the value of [z] in a [w]-bit two's complement integer. *)
Definition wrap (w z : Z) : Z := (z + 2 ^ (w - 1)) mod 2 ^ w - 2 ^ (w - 1).

Definition int32 (z : Z) : Z := wrap 32 z.
Definition int64 (z : Z) : Z := wrap 64 z.

Definition fits32 (z : Z) : Prop := - 2 ^ 31 <= z < 2 ^ 31.
Definition fits64 (z : Z) : Prop := - 2 ^ 63 <= z < 2 ^ 63.

Lemma int32_id z : fits32 z → int32 z = z.
Proof.
  unfold fits32, int32, wrap; intros H. change (2 ^ (32 - 1)) with (2 ^ 31).
  rewrite Z.mod_small; lia.
Qed.

Lemma int64_id z : fits64 z → int64 z = z.
Proof.
  unfold fits64, int64, wrap; intros H. change (2 ^ (64 - 1)) with (2 ^ 63).
  rewrite Z.mod_small; lia.
Qed.

Lemma int32_fits z : fits32 (int32 z).
Proof.
  unfold fits32, int32, wrap. change (2 ^ (32 - 1)) with (2 ^ 31).
  pose proof (Z.mod_pos_bound (z + 2 ^ 31) (2 ^ 32) ltac:(lia)). lia.
Qed.

Lemma int32_add_l a b : int32 (int32 a + b) = int32 (a + b).
Proof.
  unfold int32, wrap. f_equal.
  replace ((a + 2 ^ (32 - 1)) mod 2 ^ 32 - 2 ^ (32 - 1) + b + 2 ^ (32 - 1))
    with ((a + 2 ^ (32 - 1)) mod 2 ^ 32 + b) by lia.
  rewrite Zplus_mod_idemp_l. f_equal. lia.
Qed.

(** ** Times and durations

    A [time.Time] is its count of nanoseconds; a [time.Duration] is an int64
    count of nanoseconds, and [Time.Sub] saturates at its two ends. *)

Definition Second : Z := 1000000000.
Definition Minute : Z := 60 * Second.
Definition Microsecond : Z := 1000.
Definition minDuration : Z := - 2 ^ 63.
Definition maxDuration : Z := 2 ^ 63 - 1.

Definition time_Sub (t u : Z) : Z := Z.max minDuration (Z.min maxDuration (t - u)).

Lemma time_Sub_exact t u : fits64 (t - u) → time_Sub t u = t - u.
Proof. unfold fits64, time_Sub, minDuration, maxDuration; lia. Qed.

(** ** Results: a value or an error *)

Inductive result (E A : Type) : Type :=
| Ok (a : A)
| Err (e : E).
Arguments Ok {E A} a.
Arguments Err {E A} e.

#[export] Instance result_ret E : MRet (result E) := λ A a, Ok a.
#[export] Instance result_bind E : MBind (result E) := λ A B f m,
  match m with Ok a => f a | Err e => Err e end.

Definition is_ok {E A} (r : result E A) : bool :=
  match r with Ok _ => true | Err _ => false end.

(** A stateful computation that may fail. The state survives a failure; the
    transaction combinator below is what undoes it. *)
Definition M (S E A : Type) : Type := S → result E A * S.

#[export] Instance M_ret S E : MRet (M S E) := λ A a s, (Ok a, s).
#[export] Instance M_bind S E : MBind (M S E) := λ A B f m s,
  match m s with
  | (Ok a, s') => f a s'
  | (Err e, s') => (Err e, s')
  end.

Definition fail {S E A} (e : E) : M S E A := λ s, (Err e, s).
Definition gets {S E A} (f : S → A) : M S E A := λ s, (Ok (f s), s).
Definition modify {S E} (f : S → S) : M S E unit := λ s, (Ok tt, f s).
Definition when {S E} (b : bool) (m : M S E unit) : M S E unit :=
  if b then m else mret tt.
Definition lift {S E A} (r : result E A) : M S E A := λ s, (r, s).

(** [RunInTx body]: the body's effects are kept when it returns, undone when
    it fails. *)
Definition RunInTx {S E A} (body : M S E A) : M S E A := λ s,
  match body s with
  | (Ok a, s') => (Ok a, s')
  | (Err e, _) => (Err e, s)
  end.

Lemma RunInTx_err {S E A} (body : M S E A) s e s' :
  RunInTx body s = (Err e, s') → s' = s.
Proof. unfold RunInTx. destruct (body s) as [[a|e'] s'']; congruence. Qed.

Lemma RunInTx_ok {S E A} (body : M S E A) s a s' :
  RunInTx body s = (Ok a, s') ↔ body s = (Ok a, s').
Proof. unfold RunInTx. destruct (body s) as [[b|e] s'']; split; congruence. Qed.

Lemma M_bind_ok {S E A B} (m : M S E A) (f : A → M S E B) s b s' :
  (m ≫= f) s = (Ok b, s') ↔ ∃ a s1, m s = (Ok a, s1) ∧ f a s1 = (Ok b, s').
Proof.
  unfold mbind, M_bind. destruct (m s) as [[a|e] s1]; naive_solver.
Qed.

Lemma M_ret_ok {S E A} (a b : A) (s s' : S) :
  (mret a : M S E A) s = (Ok b, s') ↔ a = b ∧ s' = s.
Proof. unfold mret, M_ret. naive_solver. Qed.

(** ** Lists filtered and searched by boolean predicates *)

Lemma existsb_elem {A} (p : A → bool) (l : list A) : existsb p l = true ↔ ∃ x, x ∈ l ∧ p x = true.
Proof. rewrite existsb_exists. setoid_rewrite list_elem_of_In. done. Qed.

Lemma elem_of_List_filter {A} (p : A → bool) (l : list A) x : x ∈ List.filter p l ↔ x ∈ l ∧ p x = true.
Proof. rewrite !list_elem_of_In. apply filter_In. Qed.

Lemma forallb_elem {A} (p : A → bool) (l : list A) : forallb p l = true ↔ ∀ x, x ∈ l → p x = true.
Proof. rewrite forallb_forall. by setoid_rewrite <- list_elem_of_In. Qed.

(** ** Field updates

    [r <| f := v |>] is the record [r] with field [f] replaced. A record type
    takes part by an [Eta] instance that rebuilds a value from its fields; the
    updater of a field is found by rewriting that field in the rebuilt value. *)

Class Eta (R : Type) : Type := eta : R → R.

Ltac build_updater field :=
  lazymatch type of field with
  | ?R → ?E =>
    let inst := constr:(_ : Eta R) in
    let inst := eval hnf in inst in
    exact (λ (f : E) (r : R), ltac:(
      let body := eval cbv beta in (inst r) in
      match body with
      | context C [field r] => let t := context C [f] in exact t
      end))
  end.

Class Setter {R E : Type} (field : R → E) : Type := setter : E → R → R.
#[export] Hint Extern 1 (@Setter ?R ?E ?field) => build_updater field : typeclass_instances.

Definition set_field {R E : Type} (field : R → E) `{!Setter field} (v : E) (r : R) : R :=
  setter v r.
Arguments set_field {R E} field {_} v r /.
Arguments setter {R E field _} /.

Notation "r <| f := v |>" := (set_field f v r)
  (at level 1, left associativity, f at level 0, v at level 200) : go_scope.
