(* ===== verification/GoSort.v ===== *)
(** * Go's stable sort

    [sort.SliceStable] of the Go standard library. Its result on a strict weak
    order is determined (sorted, and equal keys in input order), so the model
    is the insertion sort the library itself runs on blocks of twenty
    elements: each element moves left while it is less than its neighbour.
    [slices.Sort] on int64 and on strings is the same function at those
    orders. *)


From Stdlib Require Import Sorting.Sorted.
From S2P Require Import Prelude.

Section StableSort.
Context {A : Type} (less : A → A → bool).

(** The sorted prefix is kept reversed, so that the insertion point is
    reached from the right end, as [insertionSort_func] does. *)
Fixpoint insert_left (x : A) (prefix : list A) : list A :=
  match prefix with
  | [] => [x]
  | y :: rest => if less x y then y :: insert_left x rest else x :: prefix
  end.

Definition stable_sort (l : list A) : list A :=
  rev (fold_left (λ prefix x, insert_left x prefix) l []).

Lemma insert_left_perm x prefix : insert_left x prefix ≡ₚ x :: prefix.
Proof.
  induction prefix as [|y rest IH]; simpl; [done|].
  destruct (less x y); [|done]. rewrite IH. apply Permutation_swap.
Qed.

Lemma fold_insert_perm l prefix :
  fold_left (λ prefix x, insert_left x prefix) l prefix ≡ₚ l ++ prefix.
Proof.
  revert prefix. induction l as [|x l IH]; intros prefix; simpl; [done|].
  rewrite IH, insert_left_perm. symmetry. apply Permutation_middle.
Qed.

Lemma stable_sort_perm l : stable_sort l ≡ₚ l.
Proof.
  unfold stable_sort. rewrite <- Permutation_rev, fold_insert_perm.
  by rewrite app_nil_r.
Qed.

Lemma stable_sort_length l : length (stable_sort l) = length l.
Proof. by rewrite stable_sort_perm. Qed.

Lemma stable_sort_elem x l : x ∈ stable_sort l ↔ x ∈ l.
Proof. by rewrite stable_sort_perm. Qed.

(** A strict weak order on the elements that satisfy [P]: asymmetric, with a
    transitive complement. *)
Context (P : A → Prop).

Definition strict_weak_on : Prop :=
  (∀ x y, P x → P y → less x y = true → less y x = false) ∧
  (∀ x y z, P x → P y → P z →
    less y x = false → less z y = false → less z x = false).

Hypothesis swo : strict_weak_on.

(** [not_after x y]: [x] may stand before [y]. *)
Definition not_after (x y : A) : Prop := less y x = false.

Lemma insert_left_sorted x prefix :
  P x → Forall P prefix →
  StronglySorted (flip not_after) prefix →
  StronglySorted (flip not_after) (insert_left x prefix).
Proof.
  destruct swo as [asym trans]. intros Px HP.
  induction prefix as [|y rest IH]; simpl; intros Hs.
  - by repeat constructor.
  - inversion Hs as [|? ? Hrest Hall]; subst.
    inversion HP as [|? ? Py HP']; subst.
    destruct (less x y) eqn:E.
    + constructor; [by apply IH|].
      rewrite insert_left_perm.
      constructor; [|done]. red; red. by apply asym.
    + constructor; [done|]. constructor; [done|].
      rewrite Forall_forall in Hall, HP' |- *. intros z Hz.
      red; red. apply (trans z y x); auto.
      by apply (Hall z).
Qed.

Lemma fold_insert_sorted l prefix :
  Forall P l → Forall P prefix →
  StronglySorted (flip not_after) prefix →
  StronglySorted (flip not_after)
    (fold_left (λ prefix x, insert_left x prefix) l prefix).
Proof.
  revert prefix. induction l as [|x l IH]; intros prefix Hl Hp Hs; simpl; [done|].
  inversion Hl; subst. apply IH; auto using insert_left_sorted.
  rewrite insert_left_perm. by constructor.
Qed.

Lemma StronglySorted_snoc (R : A → A → Prop) l x :
  StronglySorted R l → Forall (λ y, R y x) l → StronglySorted R (l ++ [x]).
Proof.
  induction 1 as [|y l Hs IH Hall]; simpl; intros HF.
  - by repeat constructor.
  - inversion HF; subst. constructor; [by apply IH|].
    apply Forall_app; auto.
Qed.

Lemma StronglySorted_rev (R : A → A → Prop) l :
  StronglySorted (flip R) l → StronglySorted R (rev l).
Proof.
  induction 1 as [|y l Hs IH Hall]; simpl; [constructor|].
  apply StronglySorted_snoc; [done|].
  by rewrite <- Permutation_rev.
Qed.

(** The output is ordered: no element is followed by one that is less. *)
Lemma stable_sort_sorted l :
  Forall P l → StronglySorted not_after (stable_sort l).
Proof.
  intros HP. apply StronglySorted_rev.
  apply fold_insert_sorted; [done|constructor|constructor].
Qed.

(** Elements that are pairwise incomparable keep their input order. *)
Lemma insert_left_stable (Q : A → bool) x prefix :
  (∀ y, y ∈ prefix → Q x = true → Q y = true → less x y = false) →
  List.filter Q (insert_left x prefix) = List.filter Q (x :: prefix).
Proof.
  induction prefix as [|y rest IH]; intros HQ; simpl; [done|].
  destruct (less x y) eqn:E; [|done]. simpl.
  rewrite IH by (intros; apply HQ; set_solver). simpl.
  destruct (Q x) eqn:Qx, (Q y) eqn:Qy; try done.
  exfalso. specialize (HQ y ltac:(left) eq_refl Qy). congruence.
Qed.

Lemma filter_rev (Q : A → bool) l : List.filter Q (rev l) = rev (List.filter Q l).
Proof.
  induction l as [|x l IH]; simpl; [done|].
  rewrite List.filter_app, IH. simpl. by destruct (Q x); simpl; rewrite ?app_nil_r.
Qed.

Lemma stable_sort_stable (Q : A → bool) l :
  (∀ x y, x ∈ l → y ∈ l → Q x = true → Q y = true → less x y = false) →
  List.filter Q (stable_sort l) = List.filter Q l.
Proof.
  intros HQ. unfold stable_sort. rewrite filter_rev.
  enough (∀ l' prefix, (∀ x y, x ∈ l' ++ prefix → y ∈ l' ++ prefix →
            Q x = true → Q y = true → less x y = false) →
    List.filter Q (fold_left (λ prefix x, insert_left x prefix) l' prefix)
    = rev (List.filter Q l') ++ List.filter Q prefix) as Hgen.
  { rewrite Hgen by (rewrite app_nil_r; done). simpl.
    by rewrite app_nil_r, rev_involutive. }
  clear l HQ. induction l' as [|x l' IH]; intros prefix HQ; simpl; [done|].
  rewrite IH.
  - rewrite insert_left_stable by (intros; apply HQ; set_solver). simpl.
    destruct (Q x); simpl; by rewrite <- ?app_assoc.
  - intros a b Ha Hb. apply HQ.
    + revert Ha. rewrite insert_left_perm. set_solver.
    + revert Hb. rewrite insert_left_perm. set_solver.
Qed.
End StableSort.

(** The lexicographic composition of two strict weak orders is one. *)
Section Lexicographic.
Context {A : Type} (less1 less2 : A → A → bool) (P : A → Prop).

Definition less_lex (a b : A) : bool :=
  less1 a b || (negb (less1 b a) && less2 a b).

Lemma strict_weak_lex :
  strict_weak_on less1 P → strict_weak_on less2 P → strict_weak_on less_lex P.
Proof.
  intros [asym1 trans1] [asym2 trans2]. unfold less_lex. split.
  - intros a b Pa Pb. destruct (less1 a b) eqn:E; simpl.
    + by rewrite (asym1 a b) by done.
    + destruct (less1 b a) eqn:E'; simpl; [done|]. by apply asym2.
  - intros a b c Pa Pb Pc Hba Hcb.
    apply orb_false_elim in Hba as [Hba Hba2], Hcb as [Hcb Hcb2].
    rewrite (trans1 a b c) by done. simpl.
    destruct (less1 a c) eqn:Hac; [done|]. simpl.
    rewrite (trans1 b c a) in Hba2 by done. rewrite (trans1 c a b) in Hcb2 by done.
    by apply (trans2 a b c).
Qed.
End Lexicographic.

(** A strict weak order pulled back along a function. *)
Lemma strict_weak_pull {A B : Type} (f : A → B) (less : B → B → bool) (P : B → Prop) :
  strict_weak_on less P → strict_weak_on (λ a b, less (f a) (f b)) (λ a, P (f a)).
Proof. intros [asym trans]. split; intros; eauto. Qed.

Lemma strict_weak_weaken {A : Type} (less : A → A → bool) (P Q : A → Prop) :
  (∀ a, Q a → P a) → strict_weak_on less P → strict_weak_on less Q.
Proof. intros HQP [asym trans]. split; intros; eauto. Qed.

Lemma strict_weak_ext {A : Type} (less less' : A → A → bool) (P : A → Prop) :
  (∀ a b, P a → P b → less' a b = less a b) → strict_weak_on less P → strict_weak_on less' P.
Proof.
  intros Hext [asym trans]. split.
  - intros x y Px Py. rewrite !Hext by done. by apply asym.
  - intros x y z Px Py Pz. rewrite !Hext by done. by apply trans.
Qed.
