(* ===== verification/Float64.v ===== *)
(** * Go's float64

    IEEE 754 binary64 arithmetic with rounding to nearest even, as the
    executable specification of Rocq's floats ([spec_float] at precision 53 and
    maximal exponent 1024), with the comparisons Go compiles to them (every
    comparison with a NaN is false, except [!=]). The order lemmas say on which
    values the comparisons are orders: all but NaN. *)

From Stdlib Require Import SpecFloat.
From S2P Require Import Prelude.

Definition float64 : Type := spec_float.

Module F64.
Definition prec : Z := 53.
Definition emax : Z := 1024.

Definition add (x y : float64) : float64 := SFadd prec emax x y.
Definition sub (x y : float64) : float64 := SFsub prec emax x y.
Definition mul (x y : float64) : float64 := SFmul prec emax x y.
Definition div (x y : float64) : float64 := SFdiv prec emax x y.
Definition opp (x : float64) : float64 := SFopp x.

(** Conversion of an integer, [float64(n)]. *)
Definition of_Z (z : Z) : float64 := binary_normalize prec emax z 0 false.
Definition zero : float64 := of_Z 0.

Definition lt (x y : float64) : bool := SFltb x y.
Definition le (x y : float64) : bool := SFleb x y.
Definition gt (x y : float64) : bool := SFltb y x.
Definition ge (x y : float64) : bool := SFleb y x.
Definition eq (x y : float64) : bool := SFeqb x y.
Definition ne (x y : float64) : bool := negb (SFeqb x y).

Definition is_nan (x : float64) : bool :=
  match x with S754_nan => true | _ => false end.
Definition is_inf (x : float64) : bool :=
  match x with S754_infinity _ => true | _ => false end.
Definition is_finite (x : float64) : bool := negb (is_nan x) && negb (is_inf x).

(** [math.Ceil] of a value followed by the conversion to an integer, for the
    finite values the code applies it to. *)
Definition ceil_Z (x : float64) : Z :=
  match x with
  | S754_finite s m e =>
      let n := if s then Z.neg m else Z.pos m in
      if 0 <=? e then n * 2 ^ e else - ((- n) / 2 ^ (- e))
  | _ => 0
  end.
End F64.

(** A float64 other than NaN, as a triple ordered lexicographically: the class
    (negative infinity to positive infinity), then the signed exponent, then
    the signed mantissa. *)
Definition f64_key (x : float64) : Z * Z * Z :=
  match x with
  | S754_infinity true => (-2, 0, 0)
  | S754_finite true m e => (-1, - e, - Z.pos m)
  | S754_zero _ => (0, 0, 0)
  | S754_finite false m e => (1, e, Z.pos m)
  | S754_infinity false => (2, 0, 0)
  | S754_nan => (3, 0, 0)
  end.

Definition key_lt (a b : Z * Z * Z) : Prop :=
  let '(a1, a2, a3) := a in let '(b1, b2, b3) := b in
  a1 < b1 ∨ (a1 = b1 ∧ (a2 < b2 ∨ (a2 = b2 ∧ a3 < b3))).

Lemma SFcompare_finite_pos m1 e1 m2 e2 :
  SFcompare (S754_finite false m1 e1) (S754_finite false m2 e2)
  = Some (match e1 ?= e2 with Eq => Z.pos m1 ?= Z.pos m2 | c => c end).
Proof. simpl. by destruct (e1 ?= e2)%Z. Qed.

Lemma SFcompare_finite_neg m1 e1 m2 e2 :
  SFcompare (S754_finite true m1 e1) (S754_finite true m2 e2)
  = Some (match e1 ?= e2 with
          | Eq => CompOpp (Z.pos m1 ?= Z.pos m2) | c => CompOpp c end).
Proof. simpl. by destruct (e1 ?= e2)%Z. Qed.

Lemma f64_lt_key x y :
  F64.is_nan x = false → F64.is_nan y = false →
  F64.lt x y = true ↔ key_lt (f64_key x) (f64_key y).
Proof.
  unfold F64.lt, SFltb.
  destruct x as [[]|[]| |[] m1 e1], y as [[]|[]| |[] m2 e2]; simpl F64.is_nan;
    try done; intros _ _;
    rewrite ?SFcompare_finite_pos, ?SFcompare_finite_neg;
    simpl f64_key; unfold key_lt;
    try (simpl; split; [intros; first [done|lia]|intros; first [done|lia]]).
  - destruct (Z.compare_spec e1 e2); simpl; try (split; [done || lia|done || lia]).
    destruct (Pos.compare_spec m1 m2); simpl; split; try done; lia.
  - destruct (Z.compare_spec e1 e2); simpl; try (split; [done || lia|done || lia]).
    destruct (Pos.compare_spec m1 m2); simpl; split; try done; lia.
Qed.

Lemma f64_lt_false_key x y :
  F64.is_nan x = false → F64.is_nan y = false →
  F64.lt x y = false ↔ ¬ key_lt (f64_key x) (f64_key y).
Proof.
  intros Hx Hy. rewrite <- f64_lt_key by done. by destruct (F64.lt x y).
Qed.

Lemma key_lt_asym a b : key_lt a b → ¬ key_lt b a.
Proof. destruct a as [[??]?], b as [[??]?]; simpl. lia. Qed.

Lemma key_lt_negtrans a b c : ¬ key_lt b a → ¬ key_lt c b → ¬ key_lt c a.
Proof. destruct a as [[??]?], b as [[??]?], c as [[??]?]; simpl. lia. Qed.

Lemma key_lt_trans a b c : key_lt a b → key_lt b c → key_lt a c.
Proof. destruct a as [[??]?], b as [[??]?], c as [[??]?]; simpl. lia. Qed.

Section Order.
Context (x y z : float64).
Hypotheses (Hx : F64.is_nan x = false) (Hy : F64.is_nan y = false)
  (Hz : F64.is_nan z = false).

Lemma f64_lt_asym : F64.lt x y = true → F64.lt y x = false.
Proof. rewrite f64_lt_key, f64_lt_false_key by done. apply key_lt_asym. Qed.

Lemma f64_lt_negtrans :
  F64.lt y x = false → F64.lt z y = false → F64.lt z x = false.
Proof. rewrite !f64_lt_false_key by done. apply key_lt_negtrans. Qed.

Lemma f64_lt_trans : F64.lt x y = true → F64.lt y z = true → F64.lt x z = true.
Proof. rewrite !f64_lt_key by done. apply key_lt_trans. Qed.

(** Off NaN, [>=] is the complement of [<]. *)
Lemma f64_le_negb_lt : F64.le x y = negb (F64.lt y x).
Proof.
  unfold F64.le, F64.lt, SFleb, SFltb.
  destruct x as [[]|[]| |[] m1 e1], y as [[]|[]| |[] m2 e2]; try done;
    rewrite ?SFcompare_finite_pos, ?SFcompare_finite_neg; try done.
  all: rewrite (Z.compare_antisym e1 e2), (Z.compare_antisym (Z.pos m1)).
  all: destruct (e1 ?= e2); simpl; try done; by destruct (m1 ?= m2)%positive.
Qed.
End Order.

(** Every comparison with a NaN is false. *)
Lemma f64_nan_lt x y : F64.lt x y = true → F64.is_nan x = false ∧ F64.is_nan y = false.
Proof. unfold F64.lt, SFltb. destruct x as [[]|[]| |[]], y as [[]|[]| |[]]; done. Qed.

Lemma f64_nan_le x y : F64.le x y = true → F64.is_nan x = false ∧ F64.is_nan y = false.
Proof. unfold F64.le, SFleb. destruct x as [[]|[]| |[]], y as [[]|[]| |[]]; done. Qed.

(** Two values neither of which is less are equal in Go's sense. *)
Lemma f64_eq_iff x y :
  F64.is_nan x = false → F64.is_nan y = false →
  F64.eq x y = true ↔ F64.lt x y = false ∧ F64.lt y x = false.
Proof.
  intros Hx Hy. rewrite !f64_lt_false_key by done.
  unfold F64.eq, SFeqb.
  destruct x as [[]|[]| |[] m1 e1], y as [[]|[]| |[] m2 e2]; try done;
    rewrite ?SFcompare_finite_pos, ?SFcompare_finite_neg; simpl;
    try (split; [intros; first [done|lia]|intros; first [done|lia]]).
  all: destruct (Z.compare_spec e1 e2); simpl; try (split; [done || lia|done || lia]).
  all: destruct (Pos.compare_spec m1 m2); simpl; split; try done; lia.
Qed.

Example f64_sum : F64.add (F64.of_Z 3000) (F64.of_Z 250) = F64.of_Z 3250.
Proof. reflexivity. Qed.
Example f64_half : F64.ceil_Z (F64.div (F64.of_Z 5) (F64.of_Z 2)) = 3.
Proof. reflexivity. Qed.
