(* ===== verification/Errors.v ===== *)
(** * Fleet errors

    The domain error of the server ([internal/domain/fleeterror]) as a value:
    the RPC code it maps to and, for rollout failures, the machine-readable
    cause it wraps ([rollout.ErrorInfo]). The rendered message and the stack
    trace are not modelled. *)

From S2P Require Import Prelude.

(** connect.Code *)
Inductive Code :=
| CodeCanceled | CodeUnknown | CodeInvalidArgument | CodeDeadlineExceeded
| CodeNotFound | CodeAlreadyExists | CodePermissionDenied | CodeResourceExhausted
| CodeFailedPrecondition | CodeAborted | CodeOutOfRange | CodeUnimplemented
| CodeInternal | CodeUnavailable | CodeDataLoss | CodeUnauthenticated.

#[export] Instance Code_eq_dec : EqDecision Code.
Proof. solve_decision. Defined.

(** The machine-readable cause of a rollout failure. *)
Record ErrorInfo := {
  Reason : string;
  CurrentRevision : Z;
  ErrDeviceIdentifiers : list string
}.

#[export] Instance ErrorInfo_eq_dec : EqDecision ErrorInfo.
Proof. solve_decision. Defined.

Record FleetError := { GRPCCode : Code; cause : option ErrorInfo }.

#[export] Instance FleetError_eq_dec : EqDecision FleetError.
Proof. solve_decision. Defined.

Definition NewPlainError (c : Code) : FleetError := {| GRPCCode := c; cause := None |}.
Definition NewInternalError : FleetError := NewPlainError CodeInternal.
Definition NewInvalidArgumentError : FleetError := NewPlainError CodeInvalidArgument.
Definition NewNotFoundError : FleetError := NewPlainError CodeNotFound.
Definition NewFailedPreconditionError : FleetError := NewPlainError CodeFailedPrecondition.
Definition NewForbiddenError : FleetError := NewPlainError CodePermissionDenied.
Definition NewUnauthenticatedError : FleetError := NewPlainError CodeUnauthenticated.
Definition NewResourceExhaustedError : FleetError := NewPlainError CodeResourceExhausted.

(** isExpectedCode: codes that describe the caller's mistake, for which no
    stack trace is captured. *)
Definition isExpectedCode (c : Code) : bool :=
  match c with
  | CodeCanceled | CodeInvalidArgument | CodeNotFound | CodeAlreadyExists
  | CodePermissionDenied | CodeResourceExhausted | CodeFailedPrecondition
  | CodeAborted | CodeOutOfRange | CodeUnauthenticated | CodeUnimplemented => true
  | CodeUnknown | CodeDeadlineExceeded | CodeInternal | CodeUnavailable
  | CodeDataLoss => false
  end.
