(* ===== verification/RolloutBehavior.v ===== *)
(** * Release-channel scope, pacing behaviour and pair keys

    [internal/domain/rollout/behavior.go]: the selectors a channel applies to
    and their stored form, the pacing configuration of an update with its
    validation, and the canonical (manufacturer, model) key. *)

From S2P Require Import Prelude GoSort Float64 Errors.
#[local] Open Scope string_scope.
#[local] Open Scope list_scope.
#[local] Open Scope Z_scope.
#[local] Open Scope go_scope.

Definition MethodAllAtOnce := "all_at_once".
Definition MethodBatched := "batched".
Definition MethodPilotThenContinue := "pilot_then_continue".
Definition MethodDelegated := "delegated".
Definition OrderLeastEfficientFirst := "least_efficient_first".
Definition OrderRandom := "random".
Definition TargetTypeSite := "site".
Definition TargetTypeBuilding := "building".
Definition TargetTypeRack := "rack".
Definition TargetTypeGroup := "group".
Definition TargetTypeMiner := "miner".

(** ** Scope *)

Record Scope := {
  SiteIDs : list Z;
  BuildingIDs : list Z;
  RackIDs : list Z;
  GroupIDs : list Z;
  DeviceIdentifiers : list string
}.

Definition empty_scope : Scope :=
  {| SiteIDs := []; BuildingIDs := []; RackIDs := []; GroupIDs := [];
     DeviceIdentifiers := [] |}.

#[export] Instance eta_Scope : Eta Scope := λ s,
  {| SiteIDs := SiteIDs s; BuildingIDs := BuildingIDs s; RackIDs := RackIDs s;
     GroupIDs := GroupIDs s; DeviceIdentifiers := DeviceIdentifiers s |}.

Definition IsEmpty (s : Scope) : bool :=
  Z.of_nat (length (SiteIDs s)) + Z.of_nat (length (BuildingIDs s))
    + Z.of_nat (length (RackIDs s)) + Z.of_nat (length (GroupIDs s))
    + Z.of_nat (length (DeviceIdentifiers s)) == 0.

(** The deduplication loop of [uniqueNonEmpty] and [uniquePositive]: [keep] is
    the negation of the value test, [seen] the values already appended. *)
Fixpoint unique_loop {A} `{EqDecision A} (keep : A → bool) (seen : list A)
    (values : list A) : list A :=
  match values with
  | [] => []
  | v :: rest =>
      if negb (keep v) || bool_decide (v ∈ seen) then unique_loop keep seen rest
      else v :: unique_loop keep (v :: seen) rest
  end.

Definition uniqueNonEmpty (values : list string) : list string :=
  stable_sort String.ltb (unique_loop (λ v, v != "") [] values).

Definition uniquePositive (ids : list Z) : list Z :=
  stable_sort Z.ltb (unique_loop (λ id, 0 <? id) [] ids).

Definition normalize (s : Scope) : Scope :=
  {| SiteIDs := uniquePositive (SiteIDs s);
     BuildingIDs := uniquePositive (BuildingIDs s);
     RackIDs := uniquePositive (RackIDs s);
     GroupIDs := uniquePositive (GroupIDs s);
     DeviceIdentifiers := uniqueNonEmpty (DeviceIdentifiers s) |}.

(** [targets] returns two parallel slices; here, the list of their pairs. *)
Definition targets (s : Scope) : list (string * Z) :=
  map (pair TargetTypeSite) (SiteIDs s)
  ++ map (pair TargetTypeBuilding) (BuildingIDs s)
  ++ map (pair TargetTypeRack) (RackIDs s)
  ++ map (pair TargetTypeGroup) (GroupIDs s).

Record TargetRow := { TargetType : string; TargetID : Z; RowDeviceIdentifier : string }.

Definition scope_add (s : Scope) (t : TargetRow) : Scope :=
  if TargetType t == TargetTypeSite then s <| SiteIDs := SiteIDs s ++ [TargetID t] |>
  else if TargetType t == TargetTypeBuilding then
    s <| BuildingIDs := BuildingIDs s ++ [TargetID t] |>
  else if TargetType t == TargetTypeRack then s <| RackIDs := RackIDs s ++ [TargetID t] |>
  else if TargetType t == TargetTypeGroup then s <| GroupIDs := GroupIDs s ++ [TargetID t] |>
  else if TargetType t == TargetTypeMiner then
    if RowDeviceIdentifier t != "" then
      s <| DeviceIdentifiers := DeviceIdentifiers s ++ [RowDeviceIdentifier t] |>
    else s
  else s.

Definition scopeFromTargets (rows : list TargetRow) : Scope :=
  fold_left scope_add rows empty_scope.

(** ** Thresholds and behaviour *)

Record Thresholds := {
  MaxHashrateDropPercent : option float64;
  MaxEfficiencyIncreasePercent : option float64;
  MaxTempIncreaseC : option float64;
  MaxNewErrors : option Z;
  MinSampleCoveragePercent : option float64
}.

Definition no_thresholds : Thresholds :=
  {| MaxHashrateDropPercent := None; MaxEfficiencyIncreasePercent := None;
     MaxTempIncreaseC := None; MaxNewErrors := None; MinSampleCoveragePercent := None |}.

Definition coverage (t : Thresholds) : float64 :=
  match MinSampleCoveragePercent t with
  | None => F64.of_Z 1
  | Some p => F64.div p (F64.of_Z 100)
  end.

Definition is_set {A} (o : option A) : bool :=
  match o with Some _ => true | None => false end.

Definition hasSampledLimit (t : Thresholds) : bool :=
  is_set (MaxHashrateDropPercent t) || is_set (MaxEfficiencyIncreasePercent t)
  || is_set (MaxTempIncreaseC t).

(** [t == (Thresholds{})]: every pointer field is nil. *)
Definition thresholds_zero (t : Thresholds) : bool :=
  negb (is_set (MaxHashrateDropPercent t) || is_set (MaxEfficiencyIncreasePercent t)
    || is_set (MaxTempIncreaseC t) || is_set (MaxNewErrors t)
    || is_set (MinSampleCoveragePercent t)).

Record Behavior := {
  Method : string;
  Order : string;
  BatchSize : Z;
  PilotSize : Z;
  WaitBetweenBatchesSeconds : Z;
  ReviewAfterEachBatch : bool;
  AutoContinue : bool;
  StabilizationSeconds : Z;
  BThresholds : Thresholds;
  MaxConcurrentOffline : Z;
  ControllerTimeoutSeconds : Z
}.

#[export] Instance eta_Behavior : Eta Behavior := λ b,
  {| Method := Method b; Order := Order b; BatchSize := BatchSize b;
     PilotSize := PilotSize b;
     WaitBetweenBatchesSeconds := WaitBetweenBatchesSeconds b;
     ReviewAfterEachBatch := ReviewAfterEachBatch b; AutoContinue := AutoContinue b;
     StabilizationSeconds := StabilizationSeconds b; BThresholds := BThresholds b;
     MaxConcurrentOffline := MaxConcurrentOffline b;
     ControllerTimeoutSeconds := ControllerTimeoutSeconds b |}.

Definition allAtOnce : Behavior :=
  {| Method := MethodAllAtOnce; Order := OrderLeastEfficientFirst; BatchSize := 0;
     PilotSize := 0; WaitBetweenBatchesSeconds := 0; ReviewAfterEachBatch := false;
     AutoContinue := false; StabilizationSeconds := 0; BThresholds := no_thresholds;
     MaxConcurrentOffline := 0; ControllerTimeoutSeconds := 0 |}.

Definition gatesAfterBatch (b : Behavior) : bool :=
  (Method b == MethodPilotThenContinue) || ReviewAfterEachBatch b.

(** The steps of [validate], in order: defaults, the order check, the
    method-specific normalization, the gate normalization, the bounds. *)
Definition validate_defaults (b : Behavior) : Behavior :=
  let b := if Method b == "" then b <| Method := MethodAllAtOnce |> else b in
  if Order b == "" then b <| Order := OrderLeastEfficientFirst |> else b.

Definition validate_method (b : Behavior) : result FleetError Behavior :=
  if Method b == MethodAllAtOnce then
    Ok (b <| BatchSize := 0 |> <| PilotSize := 0 |> <| WaitBetweenBatchesSeconds := 0 |>
          <| ReviewAfterEachBatch := false |> <| AutoContinue := false |>
          <| StabilizationSeconds := 0 |> <| BThresholds := no_thresholds |>)
  else if Method b == MethodBatched then
    if BatchSize b <? 1 then Err NewInvalidArgumentError
    else
      let b := b <| PilotSize := 0 |> in
      Ok (if ReviewAfterEachBatch b then b <| WaitBetweenBatchesSeconds := 0 |> else b)
  else if Method b == MethodPilotThenContinue then
    if PilotSize b <? 1 then Err NewInvalidArgumentError
    else Ok (b <| BatchSize := 0 |> <| WaitBetweenBatchesSeconds := 0 |>
               <| ReviewAfterEachBatch := true |>)
  else if Method b == MethodDelegated then
    if (BatchSize b != 0) || (PilotSize b != 0) || (WaitBetweenBatchesSeconds b != 0)
       || ReviewAfterEachBatch b || AutoContinue b || (StabilizationSeconds b != 0)
       || negb (thresholds_zero (BThresholds b))
    then Err NewInvalidArgumentError
    else Ok b
  else Err NewInvalidArgumentError.

Definition validate_gate (b : Behavior) : Behavior :=
  let b := if Method b != MethodDelegated then b <| ControllerTimeoutSeconds := 0 |> else b in
  if negb (gatesAfterBatch b) then
    b <| AutoContinue := false |> <| StabilizationSeconds := 0 |>
      <| BThresholds := no_thresholds |>
  else b.

(** The limits that must not hold of a set threshold, in the order they are
    checked. *)
Definition thresholds_invalid (t : Thresholds) : bool :=
  match MaxHashrateDropPercent t with
  | Some p => F64.lt p F64.zero || F64.gt p (F64.of_Z 100)
  | None => false
  end
  || match MaxEfficiencyIncreasePercent t with
     | Some p => F64.lt p F64.zero | None => false end
  || match MaxTempIncreaseC t with
     | Some p => F64.lt p F64.zero | None => false end
  || match MaxNewErrors t with Some n => n <? 0 | None => false end
  || match MinSampleCoveragePercent t with
     | Some p => F64.le p F64.zero || F64.gt p (F64.of_Z 100) || negb (hasSampledLimit t)
     | None => false
     end.

Definition durations_invalid (b : Behavior) : bool :=
  (WaitBetweenBatchesSeconds b <? 0) || (StabilizationSeconds b <? 0)
  || (MaxConcurrentOffline b <? 0) || (ControllerTimeoutSeconds b <? 0).

Definition order_known (o : string) : bool :=
  (o == OrderLeastEfficientFirst) || (o == OrderRandom).

Definition validate (b : Behavior) : result FleetError Behavior :=
  let b := validate_defaults b in
  if negb (order_known (Order b)) then Err NewInvalidArgumentError
  else
    b ← validate_method b;
    let b := validate_gate b in
    if durations_invalid b then Err NewInvalidArgumentError
    else if thresholds_invalid (BThresholds b) then Err NewInvalidArgumentError
    else Ok b.

(** ** Stored forms of a behaviour *)

(** A [release_channel] row. *)
Record ReleaseChannel := {
  rc_ID : Z;
  rc_OrgID : Z;
  rc_Name : string;
  rc_Method : string;
  rc_OrderBy : string;
  rc_BatchSize : Z;
  rc_PilotSize : Z;
  rc_WaitBetweenBatchesSeconds : Z;
  rc_ReviewAfterEachBatch : bool;
  rc_AutoContinue : bool;
  rc_StabilizationSeconds : Z;
  rc_MaxHashrateDropPercent : option float64;
  rc_MaxEfficiencyIncreasePercent : option float64;
  rc_MaxTempIncreaseC : option float64;
  rc_MaxNewErrors : option Z;
  rc_MinSampleCoveragePercent : option float64;
  rc_MaxConcurrentOffline : Z;
  rc_ControllerTimeoutSeconds : Z
}.

Definition behaviorFromChannel (c : ReleaseChannel) : Behavior :=
  {| Method := rc_Method c; Order := rc_OrderBy c; BatchSize := rc_BatchSize c;
     PilotSize := rc_PilotSize c;
     WaitBetweenBatchesSeconds := rc_WaitBetweenBatchesSeconds c;
     ReviewAfterEachBatch := rc_ReviewAfterEachBatch c;
     AutoContinue := rc_AutoContinue c;
     StabilizationSeconds := rc_StabilizationSeconds c;
     MaxConcurrentOffline := rc_MaxConcurrentOffline c;
     ControllerTimeoutSeconds := rc_ControllerTimeoutSeconds c;
     BThresholds := {|
       MaxHashrateDropPercent := rc_MaxHashrateDropPercent c;
       MaxEfficiencyIncreasePercent := rc_MaxEfficiencyIncreasePercent c;
       MaxTempIncreaseC := rc_MaxTempIncreaseC c;
       MaxNewErrors := rc_MaxNewErrors c;
       MinSampleCoveragePercent := rc_MinSampleCoveragePercent c |} |}.

(** dbtypes.RolloutBehaviorSnapshot *)
Record BehaviorSnapshot := {
  bs_Method : string;
  bs_OrderBy : string;
  bs_BatchSize : Z;
  bs_PilotSize : Z;
  bs_WaitBetweenBatchesSeconds : Z;
  bs_ReviewAfterEachBatch : bool;
  bs_AutoContinue : bool;
  bs_StabilizationSeconds : Z;
  bs_MaxHashrateDropPercent : option float64;
  bs_MaxEfficiencyIncreasePercent : option float64;
  bs_MaxTempIncreaseC : option float64;
  bs_MaxNewErrors : option Z;
  bs_MinSampleCoveragePercent : option float64;
  bs_MaxConcurrentOffline : Z;
  bs_ControllerTimeoutSeconds : Z
}.

(** [behaviorFromRollout], on the snapshot the rollout row carries. *)
Definition behaviorFromSnapshot (b : BehaviorSnapshot) : Behavior :=
  {| Method := bs_Method b; Order := bs_OrderBy b; BatchSize := bs_BatchSize b;
     PilotSize := bs_PilotSize b;
     WaitBetweenBatchesSeconds := bs_WaitBetweenBatchesSeconds b;
     ReviewAfterEachBatch := bs_ReviewAfterEachBatch b;
     AutoContinue := bs_AutoContinue b;
     StabilizationSeconds := bs_StabilizationSeconds b;
     MaxConcurrentOffline := bs_MaxConcurrentOffline b;
     ControllerTimeoutSeconds := bs_ControllerTimeoutSeconds b;
     BThresholds := {|
       MaxHashrateDropPercent := bs_MaxHashrateDropPercent b;
       MaxEfficiencyIncreasePercent := bs_MaxEfficiencyIncreasePercent b;
       MaxTempIncreaseC := bs_MaxTempIncreaseC b;
       MaxNewErrors := bs_MaxNewErrors b;
       MinSampleCoveragePercent := bs_MinSampleCoveragePercent b |} |}.

Definition snapshot (b : Behavior) : BehaviorSnapshot :=
  {| bs_Method := Method b; bs_OrderBy := Order b; bs_BatchSize := BatchSize b;
     bs_PilotSize := PilotSize b;
     bs_WaitBetweenBatchesSeconds := WaitBetweenBatchesSeconds b;
     bs_ReviewAfterEachBatch := ReviewAfterEachBatch b;
     bs_AutoContinue := AutoContinue b;
     bs_StabilizationSeconds := StabilizationSeconds b;
     bs_MaxHashrateDropPercent := MaxHashrateDropPercent (BThresholds b);
     bs_MaxEfficiencyIncreasePercent := MaxEfficiencyIncreasePercent (BThresholds b);
     bs_MaxTempIncreaseC := MaxTempIncreaseC (BThresholds b);
     bs_MaxNewErrors := MaxNewErrors (BThresholds b);
     bs_MinSampleCoveragePercent := MinSampleCoveragePercent (BThresholds b);
     bs_MaxConcurrentOffline := MaxConcurrentOffline b;
     bs_ControllerTimeoutSeconds := ControllerTimeoutSeconds b |}.

(** ** Pair keys

    Strings are byte sequences, as in Go; [bytes] lists a string's bytes. *)

Definition bytes (s : string) : list Z :=
  map (λ c, Z.of_nat (Ascii.nat_of_ascii c)) (String.list_ascii_of_string s).

Definition string_of_bytes (l : list Z) : string :=
  String.string_of_list_ascii (map (λ z, Ascii.ascii_of_nat (Z.to_nat z)) l).

(** The UTF-8 encodings of the code points [unicode.IsSpace] accepts. *)
Definition space_encodings : list (list Z) :=
  map (λ c, [c]) [9; 10; 11; 12; 13; 32]
  ++ [[194; 133]; [194; 160]; [225; 154; 128]]
  ++ map (λ c, [226; 128; c]) [128; 129; 130; 131; 132; 133; 134; 135; 136; 137; 138; 168; 169; 175]
  ++ [[226; 129; 159]; [227; 128; 128]].

Fixpoint strip_prefix (p l : list Z) : option (list Z) :=
  match p, l with
  | [], _ => Some l
  | x :: p', y :: l' => if x =? y then strip_prefix p' l' else None
  | _ :: _, [] => None
  end.

Fixpoint strip_any (encs : list (list Z)) (l : list Z) : option (list Z) :=
  match encs with
  | [] => None
  | p :: encs' => match strip_prefix p l with Some r => Some r | None => strip_any encs' l end
  end.

(** One space is at least one byte, so the length of the input is enough fuel. *)
Fixpoint trim_left (fuel : nat) (encs : list (list Z)) (l : list Z) : list Z :=
  match fuel with
  | O => l
  | S fuel => match strip_any encs l with Some r => trim_left fuel encs r | None => l end
  end.

(** strings.TrimSpace *)
Definition TrimSpace (s : string) : string :=
  let l := bytes s in
  let l := trim_left (length l) space_encodings l in
  let l := rev (trim_left (length l) (map (@rev Z) space_encodings) (rev l)) in
  string_of_bytes l.

Record PairKey := { Manufacturer : string; Model : string }.

#[export] Instance PairKey_eq_dec : EqDecision PairKey.
Proof. solve_decision. Defined.

(** Byte [i] of [n] may stand in a key: printable, or a space inside. *)
Definition key_byte_ok (n i c : Z) : bool :=
  negb ((c <? 33) || (126 <? c)) || ((c =? 32) && (0 <? i) && (i <? n - 1)).

Fixpoint key_bytes_ok (n i : Z) (l : list Z) : bool :=
  match l with
  | [] => true
  | c :: rest => key_byte_ok n i c && key_bytes_ok n (i + 1) rest
  end.

(** The check of one component of the key; both must pass, so the order in
    which Go visits them does not matter. *)
Definition key_component_ok (v : string) : bool :=
  (v != "") && key_bytes_ok (Z.of_nat (length (bytes v))) 0 (bytes v).

Definition normalizePairKey (manufacturer model : string) : result FleetError PairKey :=
  let k := {| Manufacturer := TrimSpace manufacturer; Model := TrimSpace model |} in
  if key_component_ok (Manufacturer k) && key_component_ok (Model k)
  then Ok k else Err NewInvalidArgumentError.

Definition fold_byte (c : Z) : Z :=
  if (65 <=? c) && (c <=? 90) then (c + 97 - 65) mod 256 else c.

Definition fold (v : string) : string := string_of_bytes (map fold_byte (bytes v)).

Definition matchesObserved (k : PairKey) (manufacturer model : string) : bool :=
  (fold (TrimSpace manufacturer) == fold (Manufacturer k))
  && (fold (TrimSpace model) == fold (Model k)).

Definition folded (k : PairKey) : PairKey :=
  {| Manufacturer := fold (Manufacturer k); Model := fold (Model k) |}.

(** ** Text *)

Definition between (lo hi b : Z) : bool := (lo <=? b) && (b <=? hi).
Definition continuation (b : Z) : bool := between 128 191 b.

(** utf8.ValidString: the ranges of the second byte depend on the first one, so
    that surrogates, overlong forms and values past U+10FFFF are refused. *)
Fixpoint utf8_valid_bytes (l : list Z) : bool :=
  match l with
  | [] => true
  | b0 :: l1 =>
    if b0 <? 128 then utf8_valid_bytes l1
    else match l1 with
    | [] => false
    | b1 :: l2 =>
      if between 194 223 b0 then continuation b1 && utf8_valid_bytes l2
      else match l2 with
      | [] => false
      | b2 :: l3 =>
        if between 224 239 b0 then
          (if b0 =? 224 then between 160 191 b1 else if b0 =? 237 then between 128 159 b1
           else continuation b1) && continuation b2 && utf8_valid_bytes l3
        else match l3 with
        | [] => false
        | b3 :: l4 =>
          if between 240 244 b0 then
            (if b0 =? 240 then between 144 191 b1 else if b0 =? 244 then between 128 143 b1
             else continuation b1) && continuation b2 && continuation b3 && utf8_valid_bytes l4
          else false
        end
      end
    end
  end.

Definition utf8_valid (s : string) : bool := utf8_valid_bytes (bytes s).

Example trim_ex : TrimSpace "  Proto Rig	 " = "Proto Rig".
Proof. reflexivity. Qed.
Example key_ex : normalizePairKey " Bitmain " "S19 XP" =
  Ok {| Manufacturer := "Bitmain"; Model := "S19 XP" |}.
Proof. reflexivity. Qed.
Example fold_ex : fold "S19 XP" = "s19 xp".
Proof. reflexivity. Qed.
Example utf8_ex : utf8_valid "miner-°" = true.
Proof. reflexivity. Qed.
