(* ===== verification/RolloutBehaviorFacts.v ===== *)
(** * Facts about scopes, behaviours and pair keys

    Normalization of a scope is canonical (sorted, duplicate-free, the same
    positive or non-empty selectors) and survives storage in any row order;
    validation of a behaviour is a projection onto its normal forms; a
    normalized pair key is a fixed point of normalization. *)

From Stdlib Require Import Sorting.Sorted.
From S2P Require Import Prelude GoSort Float64 Errors RolloutBehavior.
#[local] Open Scope string_scope.
#[local] Open Scope list_scope.
#[local] Open Scope Z_scope.
#[local] Open Scope go_scope.

(** ** Orders on int64 and on strings *)

Lemma Zltb_swo : strict_weak_on Z.ltb (λ _, True).
Proof. split; intros; crush_bools; first [apply Z.ltb_ge|idtac]; lia. Qed.

Lemma ascii_compare_lt_trans a b c :
  Ascii.compare a b = Lt → Ascii.compare b c = Lt → Ascii.compare a c = Lt.
Proof. unfold Ascii.compare. rewrite !N.compare_lt_iff. lia. Qed.

Lemma ascii_compare_refl a : Ascii.compare a a = Eq.
Proof. apply N.compare_refl. Qed.

Lemma string_compare_lt_trans s1 s2 s3 :
  String.compare s1 s2 = Lt → String.compare s2 s3 = Lt → String.compare s1 s3 = Lt.
Proof.
  revert s2 s3. induction s1 as [|a s1 IH]; intros [|b s2] [|c s3]; simpl; try done.
  destruct (Ascii.compare a b) eqn:Eab, (Ascii.compare b c) eqn:Ebc; try done;
    try (apply Ascii.compare_eq_iff in Eab as ->);
    try (apply Ascii.compare_eq_iff in Ebc as ->);
    rewrite ?ascii_compare_refl, ?Eab, ?Ebc; eauto.
  by rewrite (ascii_compare_lt_trans _ _ _ Eab Ebc).
Qed.

Lemma string_compare_refl s : String.compare s s = Eq.
Proof. induction s as [|a s IH]; simpl; [done|]. by rewrite ascii_compare_refl. Qed.

Lemma string_ltb_swo : strict_weak_on String.ltb (λ _, True).
Proof.
  unfold String.ltb. split.
  - intros x y _ _. rewrite (String.compare_antisym y x). by destruct (String.compare x y).
  - intros x y z _ _ _.
    destruct (String.compare z x) eqn:Ezx; try done. intros Hyx Hzy.
    destruct (String.compare y x) eqn:Eyx; try done.
    + apply String.compare_eq_iff in Eyx as ->. by rewrite Ezx in Hzy.
    + rewrite String.compare_antisym in Eyx.
      destruct (String.compare x y) eqn:Exy; try done.
      by rewrite (string_compare_lt_trans _ _ _ Ezx Exy) in Hzy.
Qed.

(** Values neither of which is less are equal, in both orders. *)
Lemma Zltb_total x y : Z.ltb x y = false → Z.ltb y x = false → x = y.
Proof. intros; crush_bools; lia. Qed.

Lemma string_ltb_total x y : String.ltb x y = false → String.ltb y x = false → x = y.
Proof.
  unfold String.ltb. rewrite (String.compare_antisym y x).
  destruct (String.compare x y) eqn:E; try done. intros _ _.
  by apply String.compare_eq_iff.
Qed.

(** ** Deduplication *)

Section Unique.
Context {A : Type} `{EqDecision A} (keep : A → bool).

Lemma unique_loop_elem seen values x :
  x ∈ unique_loop keep seen values ↔ x ∈ values ∧ keep x = true ∧ x ∉ seen.
Proof.
  revert seen. induction values as [|v rest IH]; intros seen; simpl.
  { rewrite elem_of_nil. naive_solver. }
  destruct (keep v) eqn:Kv; simpl; [case_bool_decide as Hs|];
    rewrite ?elem_of_cons, IH, ?elem_of_cons;
    destruct (decide (x = v)) as [->|]; intuition congruence.
Qed.

Lemma unique_loop_NoDup seen values : NoDup (unique_loop keep seen values).
Proof.
  revert seen. induction values as [|v rest IH]; intros seen; simpl; [constructor|].
  destruct (negb (keep v) || bool_decide (v ∈ seen)); [done|].
  constructor; [|done]. rewrite unique_loop_elem, elem_of_cons. naive_solver.
Qed.

(** Sorting the deduplicated values gives a list that depends only on which
    values are kept. *)
Context (less : A → A → bool).
Hypotheses (swo : strict_weak_on less (λ _, True))
  (total : ∀ x y, less x y = false → less y x = false → x = y).

Definition sorted_unique (values : list A) : list A :=
  stable_sort less (unique_loop keep [] values).

Lemma sorted_unique_elem values x :
  x ∈ sorted_unique values ↔ x ∈ values ∧ keep x = true.
Proof. unfold sorted_unique. rewrite stable_sort_elem, unique_loop_elem, elem_of_nil. naive_solver. Qed.

Lemma sorted_unique_NoDup values : NoDup (sorted_unique values).
Proof. unfold sorted_unique. rewrite stable_sort_perm. apply unique_loop_NoDup. Qed.

Lemma sorted_unique_sorted values :
  StronglySorted (not_after less) (sorted_unique values).
Proof. eapply stable_sort_sorted; [done|]. by apply Forall_true. Qed.

Lemma sorted_unique_ext l1 l2 :
  (∀ x, keep x = true → x ∈ l1 ↔ x ∈ l2) → sorted_unique l1 = sorted_unique l2.
Proof.
  intros Hext.
  assert (AntiSymm (=) (not_after less)) by (intros x y; unfold not_after; auto).
  apply (StronglySorted_unique (not_after less)); auto using sorted_unique_sorted.
  apply NoDup_Permutation; auto using sorted_unique_NoDup.
  intros x. rewrite !sorted_unique_elem. naive_solver.
Qed.

Lemma sorted_unique_idemp values :
  sorted_unique (sorted_unique values) = sorted_unique values.
Proof. apply sorted_unique_ext. intros x Kx. rewrite sorted_unique_elem. naive_solver. Qed.
End Unique.

Lemma uniquePositive_ext l1 l2 :
  (∀ x, 0 < x → x ∈ l1 ↔ x ∈ l2) → uniquePositive l1 = uniquePositive l2.
Proof.
  intros H. apply (sorted_unique_ext (λ id, 0 <? id) Z.ltb Zltb_swo Zltb_total).
  intros x Hx. apply H. by crush_bools.
Qed.

Lemma uniqueNonEmpty_ext l1 l2 :
  (∀ x, x ≠ "" → x ∈ l1 ↔ x ∈ l2) → uniqueNonEmpty l1 = uniqueNonEmpty l2.
Proof.
  intros H.
  apply (sorted_unique_ext (λ v, v != "") String.ltb string_ltb_swo string_ltb_total).
  intros x Hx. apply H. by crush_bools.
Qed.

(** Sorting distinct identifiers gives an ascending list. *)
Lemma sort_ids_strict l : NoDup l → StronglySorted Z.lt (stable_sort Z.ltb l).
Proof.
  intros Hn. pose proof (stable_sort_sorted Z.ltb (λ _, True) Zltb_swo l ltac:(by apply Forall_true)) as Hs.
  rewrite <- (stable_sort_perm Z.ltb l) in Hn. revert Hn.
  induction Hs as [|x l' Hs IH Hall]; intros Hn; constructor; apply NoDup_cons in Hn as [Hx Hn].
  - by apply IH.
  - rewrite Forall_forall in Hall |- *. intros y Hy. specialize (Hall y Hy). unfold not_after in Hall.
    crush_bools. assert (x ≠ y) by (intros ->; done). lia.
Qed.

(** What a normalized selector list is: the positive selectors of the input,
    each once, ascending. *)
Lemma uniquePositive_spec ids :
  StronglySorted Z.lt (uniquePositive ids)
  ∧ ∀ x, x ∈ uniquePositive ids ↔ x ∈ ids ∧ 0 < x.
Proof.
  split.
  - apply sort_ids_strict, unique_loop_NoDup.
  - intros x. change (uniquePositive ids) with (sorted_unique (λ id, 0 <? id) Z.ltb ids).
    rewrite sorted_unique_elem. split; intros [? H]; split; try done; [by crush_bools|].
    by apply Z.ltb_lt.
Qed.

(** ** Scopes survive storage *)

(** The rows [replaceTargets] stores: placement selectors by type and id,
    miners by identifier. *)
Definition scope_rows (s : Scope) : list TargetRow :=
  map (λ '(ty, id), {| TargetType := ty; TargetID := id; RowDeviceIdentifier := "" |}) (targets s)
  ++ map (λ d, {| TargetType := TargetTypeMiner; TargetID := 0; RowDeviceIdentifier := d |})
       (DeviceIdentifiers s).

(** The selectors of one kind among stored rows. *)
Definition rows_of (ty : string) (rows : list TargetRow) : list Z :=
  TargetID <$> List.filter (λ r, TargetType r == ty) rows.

Definition rows_miners (rows : list TargetRow) : list string :=
  RowDeviceIdentifier <$>
    List.filter (λ r, (TargetType r == TargetTypeMiner) && (RowDeviceIdentifier r != "")) rows.

Lemma fold_scope_add rows s :
  fold_left scope_add rows s =
  {| SiteIDs := SiteIDs s ++ rows_of TargetTypeSite rows;
     BuildingIDs := BuildingIDs s ++ rows_of TargetTypeBuilding rows;
     RackIDs := RackIDs s ++ rows_of TargetTypeRack rows;
     GroupIDs := GroupIDs s ++ rows_of TargetTypeGroup rows;
     DeviceIdentifiers := DeviceIdentifiers s ++ rows_miners rows |}.
Proof.
  revert s. induction rows as [|r rows IH]; intros s; simpl.
  { destruct s; unfold rows_of, rows_miners; simpl. by rewrite !app_nil_r. }
  rewrite IH. unfold rows_of, rows_miners, scope_add. simpl.
  destruct r as [ty id d]; simpl.
  repeat (case_bool_decide; subst; simpl; try done);
    repeat (case_bool_decide; subst; simpl; try done);
    rewrite <- ?app_assoc; try done; by destruct s.
Qed.

Lemma scopeFromTargets_eq rows :
  scopeFromTargets rows =
  {| SiteIDs := rows_of TargetTypeSite rows; BuildingIDs := rows_of TargetTypeBuilding rows;
     RackIDs := rows_of TargetTypeRack rows; GroupIDs := rows_of TargetTypeGroup rows;
     DeviceIdentifiers := rows_miners rows |}.
Proof. unfold scopeFromTargets. by rewrite fold_scope_add. Qed.

Lemma rows_of_elem ty rows x :
  x ∈ rows_of ty rows ↔ ∃ d, {| TargetType := ty; TargetID := x; RowDeviceIdentifier := d |} ∈ rows.
Proof.
  unfold rows_of. rewrite list_elem_of_fmap. split.
  - intros ([ty' id d] & -> & Hin). apply list_elem_of_In, filter_In in Hin as [Hin Hty].
    crush_bools. simpl in *; subst. exists d. by apply list_elem_of_In.
  - intros (d & Hin). eexists; split; [|apply list_elem_of_In, filter_In; split;
      [by apply list_elem_of_In|]]; simpl; [done|by rewrite bool_decide_true].
Qed.

Lemma rows_miners_elem rows x :
  x ≠ "" → x ∈ rows_miners rows ↔
  ∃ id, {| TargetType := TargetTypeMiner; TargetID := id; RowDeviceIdentifier := x |} ∈ rows.
Proof.
  intros Hx. unfold rows_miners. rewrite list_elem_of_fmap. split.
  - intros ([ty' id d] & -> & Hin). apply list_elem_of_In, filter_In in Hin as [Hin Hty].
    crush_bools. simpl in *; subst. exists id. by apply list_elem_of_In.
  - intros (d & Hin). eexists; split; [|apply list_elem_of_In, filter_In; split;
      [by apply list_elem_of_In|]]; simpl; [done|].
    by apply negb_true_iff, bool_decide_eq_false.
Qed.

Lemma scope_rows_elem s ty id d :
  {| TargetType := ty; TargetID := id; RowDeviceIdentifier := d |} ∈ scope_rows s ↔
    (d = "" ∧ (ty, id) ∈ targets s)
    ∨ (ty = TargetTypeMiner ∧ id = 0 ∧ d ∈ DeviceIdentifiers s).
Proof.
  unfold scope_rows. rewrite elem_of_app, !list_elem_of_fmap. split.
  - intros [([ty' id'] & E & Hin)|(d' & E & Hin)]; injection E; intros; subst; auto.
  - intros [[-> Hin]|(-> & -> & Hin)]; [left; by exists (ty, id)|right; eauto].
Qed.

Lemma targets_elem s ty id :
  (ty, id) ∈ targets s ↔
    (ty = TargetTypeSite ∧ id ∈ SiteIDs s) ∨ (ty = TargetTypeBuilding ∧ id ∈ BuildingIDs s)
    ∨ (ty = TargetTypeRack ∧ id ∈ RackIDs s) ∨ (ty = TargetTypeGroup ∧ id ∈ GroupIDs s).
Proof.
  unfold targets. rewrite !elem_of_app, !list_elem_of_fmap. naive_solver.
Qed.

(** A channel's scope saved as target rows reads back, in whatever order the database returns
    the rows, as the scope that was saved up to normalization. *)
Theorem scope_storage_roundtrip s rows :
  rows ≡ₚ scope_rows s → normalize (scopeFromTargets rows) = normalize s.
Proof.
  intros Hp. rewrite scopeFromTargets_eq. unfold normalize; simpl. f_equal.
  1-4: apply uniquePositive_ext; intros x _; rewrite rows_of_elem; split;
    [intros [d Hd]; rewrite Hp in Hd; apply scope_rows_elem in Hd;
     setoid_rewrite targets_elem in Hd; naive_solver
    |intros Hx; exists ""; rewrite Hp; apply scope_rows_elem; left; split; [done|];
     apply targets_elem; naive_solver].
  apply uniqueNonEmpty_ext. intros x Hx. rewrite rows_miners_elem by done. split.
  - intros [id Hd]. rewrite Hp in Hd. apply scope_rows_elem in Hd. naive_solver.
  - intros Hin. exists 0. rewrite Hp. apply scope_rows_elem. naive_solver.
Qed.

(** ** Validation is a projection onto valid behaviours *)

(** What a validated behaviour guarantees to the engine. *)
Definition behavior_valid (b : Behavior) : Prop :=
  order_known (Order b) = true
  ∧ (Method b = MethodAllAtOnce ∨ (Method b = MethodBatched ∧ 1 <= BatchSize b)
     ∨ (Method b = MethodPilotThenContinue ∧ 1 <= PilotSize b ∧ ReviewAfterEachBatch b = true)
     ∨ Method b = MethodDelegated)
  ∧ (gatesAfterBatch b = false → AutoContinue b = false ∧ StabilizationSeconds b = 0
                                ∧ BThresholds b = no_thresholds)
  ∧ (gatesAfterBatch b = true → WaitBetweenBatchesSeconds b = 0)
  ∧ (Method b ≠ MethodDelegated → ControllerTimeoutSeconds b = 0)
  ∧ durations_invalid b = false ∧ thresholds_invalid (BThresholds b) = false.

Ltac split_ifs_in H :=
  repeat match type of H with
  | context [if ?b then _ else _] => let E := fresh "E" in destruct b eqn:E; simpl in H; try done
  end.

Lemma validate_ok_inv b b' :
  validate b = Ok b' →
  ∃ b1, order_known (Order (validate_defaults b)) = true
    ∧ validate_method (validate_defaults b) = Ok b1 ∧ b' = validate_gate b1
    ∧ durations_invalid b' = false ∧ thresholds_invalid (BThresholds b') = false.
Proof.
  unfold validate. intros H. destruct (order_known _) eqn:Eo; [|done]. simpl in H.
  destruct (validate_method _) as [b1|e] eqn:Em; [|done]. simpl in H.
  destruct (durations_invalid (validate_gate b1)) eqn:Ed; [done|].
  destruct (thresholds_invalid (BThresholds (validate_gate b1))) eqn:Et; [done|].
  injection H as <-. eauto 10.
Qed.

Lemma validate_defaults_nonempty b :
  Method (validate_defaults b) ≠ "" ∧ Order (validate_defaults b) ≠ "".
Proof.
  unfold validate_defaults. destruct b; simpl.
  repeat (case_bool_decide; simpl; try done); naive_solver.
Qed.

Lemma validate_defaults_id b : Method b ≠ "" → Order b ≠ "" → validate_defaults b = b.
Proof.
  intros Hm Ho. unfold validate_defaults. rewrite (bool_decide_false _ Hm). cbv zeta.
  by rewrite (bool_decide_false _ Ho).
Qed.

(** The method step and the gate step keep the method and the order. *)
Lemma validate_method_keeps b b1 :
  validate_method b = Ok b1 → Method b1 = Method b ∧ Order b1 = Order b.
Proof.
  unfold validate_method. intros H.
  split_ifs_in H; injection H as <-; done.
Qed.

Lemma validate_gate_keeps b : Method (validate_gate b) = Method b ∧ Order (validate_gate b) = Order b.
Proof. unfold validate_gate. repeat (case_if; simpl); done. Qed.

(** After the method step a gated behaviour has no wait and a valid size. *)
Lemma validate_method_sound b b1 :
  validate_method b = Ok b1 →
  (Method b1 = MethodAllAtOnce ∧ ReviewAfterEachBatch b1 = false
     ∨ (Method b1 = MethodBatched ∧ 1 <= BatchSize b1)
     ∨ (Method b1 = MethodPilotThenContinue ∧ 1 <= PilotSize b1 ∧ ReviewAfterEachBatch b1 = true)
     ∨ Method b1 = MethodDelegated ∧ ReviewAfterEachBatch b1 = false)
  ∧ (gatesAfterBatch b1 = true → WaitBetweenBatchesSeconds b1 = 0).
Proof.
  unfold validate_method, gatesAfterBatch. intros H.
  case_bool_decide as Hm; [injection H as <-; simpl; rewrite Hm; naive_solver|].
  case_bool_decide as Hb.
  { destruct (BatchSize b <? 1) eqn:E; [done|]. injection H as <-. crush_bools.
    destruct (ReviewAfterEachBatch b) eqn:Er; simpl; rewrite ?Hb, ?Er; naive_solver. }
  case_bool_decide as Hp.
  { destruct (PilotSize b <? 1) eqn:E; [done|]. injection H as <-. crush_bools.
    simpl. rewrite Hp. naive_solver. }
  case_bool_decide as Hd; [|done].
  destruct (_ || _) eqn:E in H; [done|]. injection H as <-. crush_bools.
  rewrite Hd. naive_solver.
Qed.

Lemma validate_gate_sound b :
  (gatesAfterBatch (validate_gate b) = false → AutoContinue (validate_gate b) = false
     ∧ StabilizationSeconds (validate_gate b) = 0 ∧ BThresholds (validate_gate b) = no_thresholds)
  ∧ gatesAfterBatch (validate_gate b) = gatesAfterBatch b
  ∧ (Method b ≠ MethodDelegated → ControllerTimeoutSeconds (validate_gate b) = 0)
  ∧ WaitBetweenBatchesSeconds (validate_gate b) = WaitBetweenBatchesSeconds b
  ∧ BatchSize (validate_gate b) = BatchSize b ∧ PilotSize (validate_gate b) = PilotSize b
  ∧ ReviewAfterEachBatch (validate_gate b) = ReviewAfterEachBatch b.
Proof.
  unfold validate_gate.
  destruct (Method b != MethodDelegated) eqn:Em; simpl;
    match goal with |- context [if negb ?g then _ else _] => destruct g eqn:Eg end; simpl;
    crush_bools; unfold gatesAfterBatch in *; simpl in *; rewrite ?Eg; naive_solver.
Qed.

Lemma validate_gate_idemp b : validate_gate (validate_gate b) = validate_gate b.
Proof.
  unfold validate_gate, gatesAfterBatch. destruct b as [m ? ? ? ? r]; simpl.
  destruct (bool_decide (m = MethodDelegated)) eqn:Ed,
    (bool_decide (m = MethodPilotThenContinue)) eqn:Ep, r;
    do 4 (simpl; rewrite ?Ed, ?Ep); done.
Qed.

Lemma validate_method_gate_fix b b1 :
  validate_method b = Ok b1 → validate_method (validate_gate b1) = Ok (validate_gate b1).
Proof.
  intros H. destruct (validate_method_keeps _ _ H) as [Hk _].
  pose proof (validate_gate_keeps b1) as [Hg _].
  pose proof (validate_gate_sound b1) as (Hng & Hgg & _ & Hw & Hbs & Hps & Hr).
  unfold validate_method. rewrite Hg, Hk, Hbs, Hps, Hr.
  unfold validate_method in H.
  case_bool_decide as Hm.
  { injection H as <-. unfold validate_gate, gatesAfterBatch; simpl.
    rewrite Hm; simpl. done. }
  case_bool_decide as Hb.
  { destruct (BatchSize b <? 1) eqn:E; [done|]. injection H as <-. clear -Hb E.
    unfold validate_gate, gatesAfterBatch.
    destruct (ReviewAfterEachBatch b) eqn:Er; simpl; rewrite ?Hb, ?Er, ?E; simpl; rewrite ?Er; done. }
  case_bool_decide as Hp.
  { destruct (PilotSize b <? 1) eqn:E; [done|]. injection H as <-. clear -Hp E.
    unfold validate_gate, gatesAfterBatch; simpl. rewrite Hp, ?E; simpl. done. }
  case_bool_decide as Hd; [|done].
  destruct (_ || _) eqn:E in H; [done|]. injection H as <-. crush_bools.
  assert (gatesAfterBatch b = false) as Eg.
  { unfold gatesAfterBatch. rewrite Hd. simpl. done. }
  rewrite Hgg in Hng. destruct (Hng Eg) as (-> & -> & ->). rewrite Hw.
  repeat match goal with H : _ = 0 |- _ => rewrite H | H : _ = false |- _ => rewrite H end.
  done.
Qed.

(** A behaviour that passes validation is well formed (known order, sizes at least one where
    the method uses them, gate settings only behind a gate, durations and thresholds in range),
    and is its own normal form. *)
Theorem validate_sound b b' :
  validate b = Ok b' → behavior_valid b' ∧ validate b' = Ok b'.
Proof.
  intros H. destruct (validate_ok_inv _ _ H) as (b1 & Ho & Hm & -> & Hd & Ht).
  destruct (validate_method_keeps _ _ Hm) as [Km Ko].
  destruct (validate_gate_keeps b1) as [Gm Go].
  destruct (validate_defaults_nonempty b) as [Nm No].
  destruct (validate_method_sound _ _ Hm) as [Sm Sw].
  destruct (validate_gate_sound b1) as (Gn & Gg & Gc & Gw & Gb & Gp & Gr).
  split.
  - unfold behavior_valid. rewrite Gg in Gn. rewrite Gm, Go, Gg, Gw, Gb, Gp, Gr, Ko.
    split_and!; try done. clear -Sm. tauto.
  - rewrite <- Km, <- Gm in Nm. rewrite <- Ko, <- Go in No, Ho.
    unfold validate. rewrite (validate_defaults_id _ Nm No). rewrite Ho.
    rewrite (validate_method_gate_fix _ _ Hm). cbn [negb mbind result_bind].
    by rewrite validate_gate_idemp, Hd, Ht.
Qed.

(** ** Pair keys *)

Lemma string_of_bytes_bytes s : string_of_bytes (bytes s) = s.
Proof.
  unfold string_of_bytes, bytes. rewrite map_map.
  rewrite (map_ext _ (λ c, c)), map_id, String.string_of_list_ascii_of_string; [done|].
  intros c. by rewrite Nat2Z.id, Ascii.ascii_nat_embedding.
Qed.

(** No space begins, or reversed ends, with a printable ASCII byte. *)
Definition printable (c : Z) : bool := (33 <=? c) && (c <=? 126).

Definition unprintable_heads (encs : list (list Z)) : bool :=
  forallb (λ p, match p with h :: _ => negb (printable h) | [] => false end) encs.

Lemma strip_any_printable encs c l :
  unprintable_heads encs = true → printable c = true → strip_any encs (c :: l) = None.
Proof.
  induction encs as [|p encs IH]; simpl; intros Hu Hc; [done|].
  apply andb_prop in Hu as [Hp Hu]. destruct p as [|h p]; simpl; [done|].
  destruct (h =? c) eqn:E; [|by apply IH]. apply Z.eqb_eq in E as ->. by rewrite Hc in Hp.
Qed.

Lemma trim_left_printable n encs c l :
  unprintable_heads encs = true → printable c = true → trim_left n encs (c :: l) = c :: l.
Proof. intros. destruct n; simpl; [done|]. by rewrite strip_any_printable. Qed.

Lemma key_byte_ok_edge n i c :
  key_byte_ok n i c = true → i <= 0 ∨ n - 1 <= i → printable c = true.
Proof.
  unfold key_byte_ok, printable. intros H Hi. apply orb_prop in H as [H|H]; crush_bools.
  - apply andb_true_intro; split; apply Z.leb_le; lia.
  - lia.
Qed.

Lemma key_bytes_ok_last n i l c :
  key_bytes_ok n i (l ++ [c]) = true → n - 1 <= i + Z.of_nat (length l) → printable c = true.
Proof.
  revert i. induction l as [|x l IH]; intros i; simpl.
  - rewrite andb_true_r. intros H Hi. apply (key_byte_ok_edge n i); [done|lia].
  - intros H Hi. apply andb_prop in H as [_ H]. apply (IH (i + 1)); [done|lia].
Qed.

Lemma TrimSpace_key v : key_component_ok v = true → TrimSpace v = v.
Proof.
  unfold key_component_ok, TrimSpace. intros H. apply andb_prop in H as [_ H].
  enough (∀ l, key_bytes_ok (Z.of_nat (length l)) 0 l = true →
    trim_left (length l) space_encodings l = l
    ∧ trim_left (length l) (map (@rev Z) space_encodings) (rev l) = rev l) as Hl.
  { destruct (Hl _ H) as [H1 H2]. by rewrite H1, H2, rev_involutive, string_of_bytes_bytes. }
  clear. intros l Hl. split.
  - destruct l as [|c l]; [done|]. apply trim_left_printable; [done|].
    apply andb_prop in Hl as [Hc _]. by apply (key_byte_ok_edge _ _ _ Hc); left.
  - destruct (rev l) as [|c r] eqn:E; [by destruct (length l)|].
    apply trim_left_printable; [done|].
    assert (l = rev r ++ [c]) as -> by (rewrite <- (rev_involutive l), E; done).
    apply (key_bytes_ok_last _ _ _ _ Hl). rewrite length_app. simpl. lia.
Qed.

(** A normalized (manufacturer, model) key is its own normal form and matches the identity it
    was normalized from. *)
Theorem normalizePairKey_fixpoint manufacturer model k :
  normalizePairKey manufacturer model = Ok k →
  normalizePairKey (Manufacturer k) (Model k) = Ok k
  ∧ matchesObserved k manufacturer model = true.
Proof.
  unfold normalizePairKey. simpl. intros H.
  destruct (key_component_ok _) eqn:Em in H; [|done].
  destruct (key_component_ok _) eqn:Eo in H; [|done]. injection H as <-. split.
  - simpl. rewrite (TrimSpace_key _ Em), (TrimSpace_key _ Eo). by rewrite Em, Eo.
  - unfold matchesObserved; simpl. by rewrite !bool_decide_true.
Qed.
