(* ===== verification/RolloutStore.v ===== *)
(** * The rollout tables and their statements

    The rows the rollout engine reads and writes
    ([server/migrations/000148_release_channels.up.sql]) and the statements of
    [server/sqlc/queries/release_channel*.sql], with the triggers that own a
    rollout's revision. Columns that come from other tables (device status,
    telemetry, the command queue, channel membership) are a [World]: what those
    tables say of a device, of a command and of a device within a rollout.

    [db_nextval] is the rollout id sequence,
    [db_clock] is the database clock ([clock_timestamp()], [now()]) and
    [db_txid] the id of the transaction that runs the statement. *)

From S2P Require Import Prelude GoSort Float64 Errors RolloutBehavior.
#[local] Open Scope string_scope.
#[local] Open Scope list_scope.
#[local] Open Scope Z_scope.
#[local] Open Scope go_scope.

Definition StatusActive := "active".
Definition StatusCompleted := "completed".
Definition StatusCompletedWithFailures := "completed_with_failures".
Definition StatusCanceled := "canceled".
Definition CancelReasonCanceledRemaining := "canceled_remaining".
Definition StageBatch := "batch".
Definition StageAwaitingReview := "awaiting_review".
Definition StageWaiting := "waiting".
Definition StageRest := "rest".
Definition HaltReasonFailed := "failed".
Definition HaltReasonCanceled := "canceled".
Definition HaltReasonSkipped := "skipped".
Definition ActorTypeUser := "user".
Definition ActorTypeSystem := "system".

Record Actor := { ActorType : string; ActorID : Z; ActorName : string; OwnerUserID : Z }.

Definition SystemActor : Actor :=
  {| ActorType := ActorTypeSystem; ActorID := 0; ActorName := ""; OwnerUserID := 0 |}.

Definition ownerUserID (a : Actor) : Z :=
  if ActorType a == ActorTypeUser then ActorID a else OwnerUserID a.

(** The audit columns of an actor: its type, id and name. *)
Definition audit (a : Actor) : Actor :=
  {| ActorType := ActorType a; ActorID := ActorID a; ActorName := ActorName a; OwnerUserID := 0 |}.

(** A [firmware_rollout] row. *)
Record FirmwareRollout := {
  fr_ID : Z;
  fr_OrgID : Z;
  fr_ChannelID : Z;
  fr_Manufacturer : string;
  fr_Model : string;
  fr_FirmwareChecksum : string;
  fr_FirmwareVersion : string;
  fr_PreviousFirmwareChecksum : string;
  fr_PreviousFirmwareVersion : string;
  fr_AssignmentGeneration : Z;
  fr_Status : string;
  fr_CancelReason : string;
  fr_Stage : string;
  fr_BehaviorSnapshot : BehaviorSnapshot;
  fr_BatchCount : Z;
  fr_CurrentBatch : Z;
  fr_StageChangedAt : Z;
  fr_StagePausedMicroseconds : Z;
  fr_PausedAt : option Z;
  fr_Revision : Z;
  fr_RevisionTxid : Z;
  fr_UpdatedAt : Z;
  fr_StartedBy : Actor;
  fr_LastActionBy : Actor;
  fr_CreatedAt : Z;
  fr_FinishedAt : option Z;
  fr_ControllerWaitingSince : option Z
}.

#[export] Instance eta_FirmwareRollout : Eta FirmwareRollout := λ r,
  {| fr_ID := fr_ID r; fr_OrgID := fr_OrgID r; fr_ChannelID := fr_ChannelID r;
     fr_Manufacturer := fr_Manufacturer r; fr_Model := fr_Model r;
     fr_FirmwareChecksum := fr_FirmwareChecksum r;
     fr_FirmwareVersion := fr_FirmwareVersion r;
     fr_PreviousFirmwareChecksum := fr_PreviousFirmwareChecksum r;
     fr_PreviousFirmwareVersion := fr_PreviousFirmwareVersion r;
     fr_AssignmentGeneration := fr_AssignmentGeneration r;
     fr_Status := fr_Status r; fr_CancelReason := fr_CancelReason r;
     fr_Stage := fr_Stage r; fr_BehaviorSnapshot := fr_BehaviorSnapshot r;
     fr_BatchCount := fr_BatchCount r; fr_CurrentBatch := fr_CurrentBatch r;
     fr_StageChangedAt := fr_StageChangedAt r;
     fr_StagePausedMicroseconds := fr_StagePausedMicroseconds r;
     fr_PausedAt := fr_PausedAt r; fr_Revision := fr_Revision r;
     fr_RevisionTxid := fr_RevisionTxid r; fr_UpdatedAt := fr_UpdatedAt r;
     fr_StartedBy := fr_StartedBy r; fr_LastActionBy := fr_LastActionBy r;
     fr_CreatedAt := fr_CreatedAt r; fr_FinishedAt := fr_FinishedAt r;
     fr_ControllerWaitingSince := fr_ControllerWaitingSince r |}.

(** A [firmware_rollout_device] row. *)
Record DeviceRow := {
  dr_RolloutID : Z;
  dr_DeviceID : Z;
  dr_BatchIndex : option Z;
  dr_Position : option Z;
  dr_Attempts : Z;
  dr_FirstSentAt : option Z;
  dr_LastSentAt : option Z;
  dr_LastDispatchedAt : option Z;
  dr_LastDispatchedBatchUuid : option string;
  dr_VerifiedAt : option Z;
  dr_HaltedAt : option Z;
  dr_HaltReason : string;
  dr_LastError : string;
  dr_SkipNote : string;
  dr_ExcludedAt : option Z;
  dr_BaselineStatus : option string;
  dr_BaselineHashRateHs : option float64;
  dr_BaselinePowerW : option float64;
  dr_BaselineEfficiencyJh : option float64;
  dr_BaselineTempC : option float64;
  dr_BaselineOpenErrors : option Z;
  dr_BaselineAt : option Z
}.

#[export] Instance eta_DeviceRow : Eta DeviceRow := λ d,
  {| dr_RolloutID := dr_RolloutID d; dr_DeviceID := dr_DeviceID d;
     dr_BatchIndex := dr_BatchIndex d; dr_Position := dr_Position d;
     dr_Attempts := dr_Attempts d; dr_FirstSentAt := dr_FirstSentAt d;
     dr_LastSentAt := dr_LastSentAt d; dr_LastDispatchedAt := dr_LastDispatchedAt d;
     dr_LastDispatchedBatchUuid := dr_LastDispatchedBatchUuid d;
     dr_VerifiedAt := dr_VerifiedAt d; dr_HaltedAt := dr_HaltedAt d;
     dr_HaltReason := dr_HaltReason d; dr_LastError := dr_LastError d;
     dr_SkipNote := dr_SkipNote d; dr_ExcludedAt := dr_ExcludedAt d;
     dr_BaselineStatus := dr_BaselineStatus d;
     dr_BaselineHashRateHs := dr_BaselineHashRateHs d;
     dr_BaselinePowerW := dr_BaselinePowerW d;
     dr_BaselineEfficiencyJh := dr_BaselineEfficiencyJh d;
     dr_BaselineTempC := dr_BaselineTempC d;
     dr_BaselineOpenErrors := dr_BaselineOpenErrors d;
     dr_BaselineAt := dr_BaselineAt d |}.

(** What the other tables say of a device within a rollout. *)
Record Observation := {
  ob_DeviceIdentifier : string;
  ob_FirmwareVersion : string;
  ob_IpAddress : string;
  ob_LastDispatchSucceeded : bool;
  ob_Status : string;
  ob_HashRateHs : option float64;
  ob_PowerW : option float64;
  ob_EfficiencyJh : option float64;
  ob_TempC : option float64;
  ob_OpenErrors : Z;
  ob_ErrorsSinceBaseline : Z;
  ob_PendingFirmwareChecksums : list string;
  ob_PendingLegacyFirmwareFileIds : list string;
  ob_IsChannelMember : bool;
  ob_InScope : option bool
}.

(** A [device_firmware_deployment] row: managed-deployment provenance. *)
Record Deployment := {
  dep_FirmwareChecksum : string;
  dep_FirmwareVersion : string;
  dep_RolloutID : option Z;
  dep_DeployedAt : Z
}.

(** A [firmware_rollout_event] row, without its sequence id and time. *)
Record RolloutEvent := {
  ev_RolloutID : Z;
  ev_ChannelID : Z;
  ev_Type : string;
  ev_Actor : Actor;
  ev_Revision : Z;
  ev_Note : string;
  ev_DeviceIdentifiers : list string
}.

(** A [release_channel_firmware] row: the assignment of a pair. *)
Record ReleaseChannelFirmware := {
  as_ChannelID : Z;
  as_Manufacturer : string;
  as_Model : string;
  as_FirmwareChecksum : string;
  as_FirmwareVersion : string;
  as_TargetManufacturer : string;
  as_TargetModel : string;
  as_AssignmentGeneration : Z;
  as_AssignedBy : Z;
  as_PreviousFirmwareChecksum : string;
  as_PreviousFirmwareVersion : string
}.

Record Reservation := {
  rs_ChannelID : Z;
  rs_DeviceID : Z;
  rs_BatchUuid : string;
  rs_ObservedOffline : bool
}.

(** The tables the rollout engine only reads: [w_observe rollout device] is the
    live half of a target row, [w_live] and [w_offline] a device's presence and
    reachability, [w_member channel device] the membership view, [w_pending
    device batch] an outstanding FirmwareUpdate, [w_completions rollout] when
    each target's latest dispatched command finished. *)
Record World := {
  w_observe : Z → Z → Observation;
  w_live : Z → bool;
  w_offline : Z → bool;
  w_member : Z → Z → bool;
  w_pending : Z → string → bool;
  w_completions : Z → list (Z * Z)
}.

Record DB := {
  db_rollouts : gmap Z FirmwareRollout;
  db_devices : list DeviceRow;
  db_world : World;
  db_deployments : gmap Z Deployment;
  db_channels : gmap Z ReleaseChannel;
  db_assignments : list ReleaseChannelFirmware;
  db_reservations : list Reservation;
  db_events : list RolloutEvent;
  db_nextval : Z;
  db_txid : Z;
  db_clock : Z
}.

#[export] Instance eta_DB : Eta DB := λ d,
  {| db_rollouts := db_rollouts d; db_devices := db_devices d; db_world := db_world d;
     db_deployments := db_deployments d; db_channels := db_channels d;
     db_assignments := db_assignments d; db_reservations := db_reservations d;
     db_events := db_events d; db_nextval := db_nextval d; db_txid := db_txid d; db_clock := db_clock d |}.

Definition db_observe (db : DB) : Z → Z → Observation := w_observe (db_world db).

(** ** Revision triggers *)

(** [firmware_rollout_bump_revision], BEFORE UPDATE: one bump per transaction. *)
Definition bump_revision (db : DB) (r : FirmwareRollout) : FirmwareRollout :=
  let r := if fr_RevisionTxid r != db_txid db then
             r <| fr_Revision := fr_Revision r + 1 |> <| fr_RevisionTxid := db_txid db |>
           else r in
  r <| fr_UpdatedAt := Z.max (fr_UpdatedAt r) (db_clock db) |>.

(** An UPDATE of one header row, with its trigger; no row, no effect. *)
Definition update_rollout (id : Z) (f : FirmwareRollout → FirmwareRollout) (db : DB) : DB :=
  match db_rollouts db !! id with
  | Some r => db <| db_rollouts := <[id := bump_revision db (f r)]> (db_rollouts db) |>
  | None => db
  end.

(** [firmware_rollout_touch_from_rows], AFTER the statement, on the rollouts
    its rows reference. *)
Definition touch_rollout (db : DB) (id : Z) : DB :=
  match db_rollouts db !! id with
  | Some r => if fr_RevisionTxid r != db_txid db then update_rollout id (λ r, r) db else db
  | None => db
  end.

(** An UPDATE of the target rows of rollout [rid] whose device is in [ids] and
    which satisfy [guard]. *)
Definition row_selected (rid : Z) (ids : list Z) (guard : DeviceRow → bool) (d : DeviceRow) : bool :=
  (dr_RolloutID d =? rid) && bool_decide (dr_DeviceID d ∈ ids) && guard d.

Definition update_devices (rid : Z) (ids : list Z) (guard : DeviceRow → bool)
    (f : DeviceRow → DeviceRow) (db : DB) : DB :=
  let sel := row_selected rid ids guard in
  let db' := db <| db_devices := map (λ d, if sel d then f d else d) (db_devices db) |> in
  if existsb sel (db_devices db) then touch_rollout db' rid else db'.

(** ** Header statements *)

Definition GREATEST (l : list (option Z)) (last : Z) : Z :=
  fold_right (λ o m, match o with Some t => Z.max t m | None => m end) last l.

(** [:execrows]: how many rows the guarded UPDATE matched. *)
Definition exec_rollout (id : Z) (guard : FirmwareRollout → bool)
    (f : FirmwareRollout → FirmwareRollout) (db : DB) : Z * DB :=
  match db_rollouts db !! id with
  | Some r => if guard r then (1, update_rollout id f db) else (0, db)
  | None => (0, db)
  end.

Definition PauseFirmwareRollout (id : Z) (actor : Actor) (db : DB) : Z * DB :=
  exec_rollout id (λ r, (fr_Status r == StatusActive) && bool_decide (fr_PausedAt r = None))
    (λ r, r <| fr_PausedAt := Some (GREATEST [Some (fr_CreatedAt r); Some (fr_StageChangedAt r)] (db_clock db)) |>
            <| fr_LastActionBy := audit actor |>) db.

(** Resume charges the pause to [stage_paused_microseconds]. Times are in
    nanoseconds, the column in microseconds. *)
Definition ResumeFirmwareRollout (id : Z) (actor : Actor) (db : DB) : Z * DB :=
  exec_rollout id (λ r, (fr_Status r == StatusActive) && negb (bool_decide (fr_PausedAt r = None)))
    (λ r, r <| fr_PausedAt := None |>
            <| fr_StagePausedMicroseconds := fr_StagePausedMicroseconds r
                 + Z.max (db_clock db - default 0 (fr_PausedAt r)) 0 / Microsecond |>
            <| fr_LastActionBy := audit actor |>) db.

Definition finish_row (db : DB) (status : string) (r : FirmwareRollout) : FirmwareRollout :=
  r <| fr_Status := status |>
    <| fr_FinishedAt := Some (GREATEST [Some (fr_CreatedAt r); Some (fr_StageChangedAt r); fr_PausedAt r] (db_clock db)) |>
    <| fr_PausedAt := None |>.

Definition CancelFirmwareRollout (id : Z) (actor : Actor) (db : DB) : Z * DB :=
  exec_rollout id (λ r, fr_Status r == StatusActive)
    (λ r, (finish_row db StatusCanceled r) <| fr_CancelReason := CancelReasonCanceledRemaining |>
            <| fr_LastActionBy := audit actor |>) db.

Definition FinishFirmwareRollout (id : Z) (status : string) (db : DB) : Z * DB :=
  exec_rollout id (λ r, (fr_Status r == StatusActive) && bool_decide (fr_PausedAt r = None))
    (finish_row db status) db.

Definition CompleteDelegatedFirmwareRollout (id : Z) (status : string) (actor : Actor) (db : DB) : DB :=
  snd (exec_rollout id (λ r, fr_Status r == StatusActive)
    (λ r, (finish_row db status r) <| fr_ControllerWaitingSince := None |>
            <| fr_LastActionBy := audit actor |>) db).

(** Returns the new stage time, or no row. *)
Definition AdvanceFirmwareRolloutStage (id : Z) (from stage : string) (batch : Z)
    (expected_changed expected_paused : Z) (actor : option Actor) (db : DB) : option Z * DB :=
  let guard r := (fr_Status r == StatusActive) && (fr_Stage r == from)
    && bool_decide (fr_PausedAt r = None) && (fr_StageChangedAt r =? expected_changed)
    && (fr_StagePausedMicroseconds r =? expected_paused) in
  match db_rollouts db !! id with
  | Some r =>
      if guard r then
        let changed := Z.max (fr_StageChangedAt r) (db_clock db) in
        (Some changed,
         update_rollout id (λ r, r <| fr_Stage := stage |> <| fr_CurrentBatch := batch |>
           <| fr_StageChangedAt := changed |> <| fr_StagePausedMicroseconds := 0 |>
           <| fr_LastActionBy := default (fr_LastActionBy r) (audit <$> actor) |>) db)
      else (None, db)
  | None => (None, db)
  end.

Definition RecordFirmwareRolloutAction (id : Z) (actor : Actor) (db : DB) : DB :=
  update_rollout id (λ r, r <| fr_LastActionBy := audit actor |>) db.

Definition SetFirmwareRolloutControllerWait (id : Z) (waiting : option Z) (db : DB) : DB :=
  snd (exec_rollout id (λ r, negb (bool_decide (fr_ControllerWaitingSince r = waiting)))
    (λ r, r <| fr_ControllerWaitingSince := waiting |>) db).

(** ** Target statements *)

Definition HaltFirmwareRolloutDevices (rid : Z) (ids : list Z) (reason last_error : string) (db : DB) : DB :=
  update_devices rid ids (λ d, bool_decide (dr_HaltedAt d = None))
    (λ d, d <| dr_HaltedAt := Some (db_clock db) |> <| dr_HaltReason := reason |>
            <| dr_LastError := last_error |> <| dr_SkipNote := "" |>) db.

Definition SkipFirmwareRolloutDevices (rid : Z) (ids : list Z) (note : string) (db : DB) : DB :=
  update_devices rid ids
    (λ d, (dr_Attempts d =? 0) && bool_decide (dr_HaltedAt d = None)
          && bool_decide (dr_VerifiedAt d = None) && bool_decide (dr_ExcludedAt d = None))
    (λ d, d <| dr_HaltedAt := Some (db_clock db) |> <| dr_HaltReason := HaltReasonSkipped |>
            <| dr_SkipNote := note |>) db.

Definition MarkFirmwareRolloutDevicesVerified (rid : Z) (ids : list Z) (db : DB) : DB :=
  update_devices rid ids (λ d, bool_decide (dr_VerifiedAt d = None))
    (λ d, d <| dr_VerifiedAt := Some (db_clock db) |>) db.

Definition UnverifyFirmwareRolloutDevices (rid : Z) (ids : list Z) (db : DB) : DB :=
  update_devices rid ids (λ d, negb (bool_decide (dr_VerifiedAt d = None)))
    (λ d, d <| dr_VerifiedAt := None |>) db.

Definition ExcludeFirmwareRolloutDevices (rid : Z) (ids : list Z) (db : DB) : DB :=
  update_devices rid ids (λ d, bool_decide (dr_ExcludedAt d = None))
    (λ d, d <| dr_ExcludedAt := Some (db_clock db) |>) db.

Definition ReincludeFirmwareRolloutDevices (rid : Z) (ids : list Z) (db : DB) : DB :=
  update_devices rid ids (λ d, negb (bool_decide (dr_ExcludedAt d = None)))
    (λ d, d <| dr_ExcludedAt := None |> <| dr_VerifiedAt := None |>) db.

(** Every attempted target advances its retry pacing; only the dispatched ones
    may authorize a later provenance write. A dispatched device also gets a
    reservation, unless the batch has no id. *)
Definition mark_sent_row (db : DB) (dispatched : list Z) (batch_uuid : string) (d : DeviceRow) : DeviceRow :=
  let sent_at := GREATEST [dr_LastSentAt d; dr_LastDispatchedAt d] (db_clock db) in
  let hit := bool_decide (dr_DeviceID d ∈ dispatched) in
  d <| dr_Attempts := dr_Attempts d + 1 |>
    <| dr_FirstSentAt := Some (default sent_at (dr_FirstSentAt d)) |>
    <| dr_LastSentAt := Some sent_at |>
    <| dr_LastDispatchedAt := if hit then Some sent_at else dr_LastDispatchedAt d |>
    <| dr_LastDispatchedBatchUuid :=
         if hit then (if batch_uuid == "" then None else Some batch_uuid)
         else dr_LastDispatchedBatchUuid d |>.

Definition reserve_rows (channel : Z) (dispatched : list Z) (batch_uuid : string)
    (rows : list Reservation) : list Reservation :=
  fold_left (λ rows id,
    if existsb (λ r, (rs_ChannelID r =? channel) && (rs_DeviceID r =? id)
                     && (rs_BatchUuid r == batch_uuid)) rows then rows
    else rows ++ [{| rs_ChannelID := channel; rs_DeviceID := id;
                     rs_BatchUuid := batch_uuid; rs_ObservedOffline := false |}])
    dispatched rows.

Definition MarkFirmwareRolloutDevicesSent (rid : Z) (ids dispatched : list Z)
    (batch_uuid : string) (db : DB) : DB :=
  let db' := update_devices rid ids (λ _, true) (mark_sent_row db dispatched batch_uuid) db in
  match db_rollouts db !! rid with
  | Some r =>
      if batch_uuid != "" then
        db' <| db_reservations := reserve_rows (fr_ChannelID r) dispatched batch_uuid (db_reservations db) |>
      else db'
  | None => db'
  end.

(** ** Reservations and the offline budget *)

(** A dispatched device seen offline turns its reservation into an offline
    slot; [None] is every channel. *)
Definition ObserveFirmwareRolloutReservationsOffline (channel : option Z) (db : DB) : DB :=
  let hit r := match channel with Some c => rs_ChannelID r =? c | None => true end
    && w_live (db_world db) (rs_DeviceID r) && negb (rs_ObservedOffline r)
    && w_offline (db_world db) (rs_DeviceID r) in
  db <| db_reservations := map (λ r,
    if hit r then {| rs_ChannelID := rs_ChannelID r; rs_DeviceID := rs_DeviceID r;
                     rs_BatchUuid := rs_BatchUuid r; rs_ObservedOffline := true |}
    else r) (db_reservations db) |>.

(** A reservation ends with its device, when its command ended and the device is
    back, or after an observed offline cycle. *)
Definition DeleteReleasedFirmwareRolloutReservations (db : DB) : DB :=
  let w := db_world db in
  let released r := let id := rs_DeviceID r in
    negb (w_live w id) || (negb (w_pending w id (rs_BatchUuid r)) && negb (w_offline w id))
    || (rs_ObservedOffline r && negb (w_offline w id)) in
  db <| db_reservations := List.filter (λ r, negb (released r)) (db_reservations db) |>.

(** UNION: offline members that were targeted, and unresolved reservations,
    each device once. *)
Definition target_slot (db : DB) (channel : Z) (d : DeviceRow) : bool :=
  let w := db_world db in let id := dr_DeviceID d in
  match db_rollouts db !! dr_RolloutID d with
  | Some r => (fr_ChannelID r =? channel) && w_live w id && w_member w channel id && w_offline w id
  | None => false
  end.

Definition reservation_slot (db : DB) (channel : Z) (r : Reservation) : bool :=
  let w := db_world db in let id := rs_DeviceID r in
  (rs_ChannelID r =? channel) && w_live w id
  && (w_offline w id || (negb (rs_ObservedOffline r) && w_pending w id (rs_BatchUuid r))).

Definition ListFirmwareRolloutOfflineSlots (channel : Z) (db : DB) : list Z :=
  remove_dups
    (map dr_DeviceID (List.filter (target_slot db channel) (db_devices db))
     ++ map rs_DeviceID (List.filter (reservation_slot db channel) (db_reservations db))).

(** ** Assignments *)

Definition release_channel_pair_key (s : string) : string := fold (TrimSpace s).

Definition same_pair (m1 k1 m2 k2 : string) : bool :=
  (release_channel_pair_key m1 == release_channel_pair_key m2)
  && (release_channel_pair_key k1 == release_channel_pair_key k2).

Definition is_assignment (channel : Z) (manufacturer model : string) (a : ReleaseChannelFirmware) : bool :=
  (as_ChannelID a =? channel) && same_pair (as_Manufacturer a) (as_Model a) manufacturer model.

Definition GetReleaseChannelFirmware (channel : Z) (manufacturer model : string) (db : DB)
    : option ReleaseChannelFirmware :=
  List.find (is_assignment channel manufacturer model) (db_assignments db).

#[export] Instance eta_ReleaseChannelFirmware : Eta ReleaseChannelFirmware := λ a,
  {| as_ChannelID := as_ChannelID a; as_Manufacturer := as_Manufacturer a; as_Model := as_Model a;
     as_FirmwareChecksum := as_FirmwareChecksum a; as_FirmwareVersion := as_FirmwareVersion a;
     as_TargetManufacturer := as_TargetManufacturer a; as_TargetModel := as_TargetModel a;
     as_AssignmentGeneration := as_AssignmentGeneration a; as_AssignedBy := as_AssignedBy a;
     as_PreviousFirmwareChecksum := as_PreviousFirmwareChecksum a;
     as_PreviousFirmwareVersion := as_PreviousFirmwareVersion a |}.

(** Assigns an artifact and advances the pair's generation; the replaced
    artifact becomes the lineage. Returns the stored row. *)
Definition UpsertReleaseChannelFirmware (new : ReleaseChannelFirmware) (db : DB)
    : ReleaseChannelFirmware * DB :=
  let hit := is_assignment (as_ChannelID new) (as_Manufacturer new) (as_Model new) in
  let replace a := a <| as_PreviousFirmwareChecksum := as_FirmwareChecksum a |>
    <| as_PreviousFirmwareVersion := as_FirmwareVersion a |>
    <| as_FirmwareChecksum := as_FirmwareChecksum new |>
    <| as_FirmwareVersion := as_FirmwareVersion new |>
    <| as_TargetManufacturer := as_TargetManufacturer new |>
    <| as_TargetModel := as_TargetModel new |>
    <| as_AssignmentGeneration := as_AssignmentGeneration a + 1 |>
    <| as_AssignedBy := as_AssignedBy new |> in
  match List.find hit (db_assignments db) with
  | Some a => (replace a, db <| db_assignments :=
                 map (λ a, if hit a then replace a else a) (db_assignments db) |>)
  | None =>
      let a := new <| as_AssignmentGeneration := 1 |> <| as_PreviousFirmwareChecksum := "" |>
                   <| as_PreviousFirmwareVersion := "" |> in
      (a, db <| db_assignments := db_assignments db ++ [a] |>)
  end.

Definition ClearReleaseChannelFirmware (channel : Z) (manufacturer model : string) (owner : Z)
    (db : DB) : DB :=
  let hit a := is_assignment channel manufacturer model a && (as_FirmwareChecksum a != "") in
  db <| db_assignments := map (λ a, if hit a then
      a <| as_FirmwareChecksum := "" |> <| as_FirmwareVersion := "" |>
        <| as_PreviousFirmwareChecksum := "" |> <| as_PreviousFirmwareVersion := "" |>
        <| as_TargetManufacturer := "" |> <| as_TargetModel := "" |>
        <| as_AssignmentGeneration := as_AssignmentGeneration a + 1 |>
        <| as_AssignedBy := owner |> else a) (db_assignments db) |>.

(** The pair's active rollout, at most one. *)
Definition GetActiveFirmwareRolloutForPair (channel : Z) (manufacturer model : string) (db : DB)
    : option FirmwareRollout :=
  List.find (λ r, (fr_ChannelID r =? channel)
    && same_pair (fr_Manufacturer r) (fr_Model r) manufacturer model
    && (fr_Status r == StatusActive)) (map snd (map_to_list (db_rollouts db))).

Definition CancelActiveFirmwareRollout (channel : Z) (manufacturer model cancel_reason : string)
    (actor : Actor) (db : DB) : DB :=
  match GetActiveFirmwareRolloutForPair channel manufacturer model db with
  | Some r => update_rollout (fr_ID r) (λ r, (finish_row db StatusCanceled r)
                <| fr_CancelReason := cancel_reason |> <| fr_LastActionBy := audit actor |>) db
  | None => db
  end.

(** ** Events *)

Definition CreateFirmwareRolloutEvent (rid : Z) (type : string) (actor : Actor) (note : string)
    (identifiers : list string) (db : DB) : DB :=
  match db_rollouts db !! rid with
  | Some r => db <| db_events := db_events db ++
      [{| ev_RolloutID := rid; ev_ChannelID := fr_ChannelID r; ev_Type := type; ev_Actor := audit actor;
          ev_Revision := fr_Revision r; ev_Note := note; ev_DeviceIdentifiers := identifiers |}] |>
  | None => db
  end.

(** ** Insertion of targets *)

Definition has_device (rows : list DeviceRow) (rid id : Z) : bool :=
  existsb (λ d, (dr_RolloutID d =? rid) && (dr_DeviceID d =? id)) rows.

(** A row as the column defaults make it. *)
Definition new_device_row (rid id : Z) : DeviceRow :=
  {| dr_RolloutID := rid; dr_DeviceID := id; dr_BatchIndex := None; dr_Position := None;
     dr_Attempts := 0; dr_FirstSentAt := None; dr_LastSentAt := None;
     dr_LastDispatchedAt := None; dr_LastDispatchedBatchUuid := None;
     dr_VerifiedAt := None; dr_HaltedAt := None; dr_HaltReason := ""; dr_LastError := "";
     dr_SkipNote := ""; dr_ExcludedAt := None; dr_BaselineStatus := None;
     dr_BaselineHashRateHs := None; dr_BaselinePowerW := None;
     dr_BaselineEfficiencyJh := None; dr_BaselineTempC := None;
     dr_BaselineOpenErrors := None; dr_BaselineAt := None |}.

(** INSERT ... ON CONFLICT (rollout_id, device_id) DO NOTHING. *)
Definition insert_devices (rid : Z) (new : list DeviceRow) (db : DB) : DB :=
  let add rows d := if has_device rows rid (dr_DeviceID d) then rows else rows ++ [d] in
  let rows := fold_left add new (db_devices db) in
  let db' := db <| db_devices := rows |> in
  if (length (db_devices db) <? length rows)%nat then touch_rollout db' rid else db'.

(** The baseline is the device's observed health at the statement; [position]
    is the offset plus the one-based index of the device in the array. *)
Definition snapshot_row (db : DB) (rid : Z) (batch : option Z) (position id : Z) : DeviceRow :=
  let o := db_observe db rid id in
  (new_device_row rid id)
    <| dr_BatchIndex := batch |> <| dr_Position := Some position |>
    <| dr_BaselineStatus := if ob_Status o == "" then None else Some (ob_Status o) |>
    <| dr_BaselineHashRateHs := ob_HashRateHs o |> <| dr_BaselinePowerW := ob_PowerW o |>
    <| dr_BaselineEfficiencyJh := ob_EfficiencyJh o |> <| dr_BaselineTempC := ob_TempC o |>
    <| dr_BaselineOpenErrors := Some (ob_OpenErrors o) |>
    <| dr_BaselineAt := Some (db_clock db) |>.

Definition SnapshotFirmwareRolloutDevices (rid : Z) (ids : list Z) (batch : option Z)
    (offset : Z) (db : DB) : DB :=
  insert_devices rid
    (imap (λ i id, snapshot_row db rid batch (offset + Z.of_nat i + 1) id) ids) db.

Definition AppendFirmwareRolloutDevices (rid : Z) (ids : list Z) (db : DB) : DB :=
  insert_devices rid (map (new_device_row rid) ids) db.

(** ** Retries *)

(** The device's row in the latest earlier rollout of the same assignment
    generation, when that rollout halted it. *)
Definition is_prior (db : DB) (r : FirmwareRollout) (id : Z) (d : DeviceRow) : bool :=
  (dr_DeviceID d =? id) &&
  match db_rollouts db !! dr_RolloutID d with
  | Some p => (fr_ID p <? fr_ID r) && (fr_ChannelID p =? fr_ChannelID r)
      && same_pair (fr_Manufacturer p) (fr_Model p) (fr_Manufacturer r) (fr_Model r)
      && (fr_AssignmentGeneration p =? fr_AssignmentGeneration r)
  | None => false
  end.

Definition later_row (best : option DeviceRow) (d : DeviceRow) : option DeviceRow :=
  match best with
  | Some b => if dr_RolloutID b <? dr_RolloutID d then Some d else best
  | None => Some d
  end.

Definition prior_row (db : DB) (r : FirmwareRollout) (id : Z) : option DeviceRow :=
  match fold_left later_row (List.filter (is_prior db r id) (db_devices db)) None with
  | Some d => if bool_decide (dr_HaltedAt d = None) then None else Some d
  | None => None
  end.

Definition copy_baseline (p : option DeviceRow) (d : DeviceRow) : DeviceRow :=
  d <| dr_BaselineStatus := p ≫= dr_BaselineStatus |>
    <| dr_BaselineHashRateHs := p ≫= dr_BaselineHashRateHs |>
    <| dr_BaselinePowerW := p ≫= dr_BaselinePowerW |>
    <| dr_BaselineEfficiencyJh := p ≫= dr_BaselineEfficiencyJh |>
    <| dr_BaselineTempC := p ≫= dr_BaselineTempC |>
    <| dr_BaselineOpenErrors := p ≫= dr_BaselineOpenErrors |>
    <| dr_BaselineAt := p ≫= dr_BaselineAt |>.

Definition requeue_guard (d : DeviceRow) : bool :=
  negb (bool_decide (dr_HaltedAt d = None)) && bool_decide (dr_ExcludedAt d = None).

Definition requeue_row (d : DeviceRow) : DeviceRow :=
  d <| dr_HaltedAt := None |> <| dr_HaltReason := "" |> <| dr_LastError := "" |>
    <| dr_SkipNote := "" |> <| dr_Attempts := 0 |> <| dr_FirstSentAt := None |>
    <| dr_LastSentAt := None |> <| dr_LastDispatchedAt := None |>
    <| dr_LastDispatchedBatchUuid := None |> <| dr_VerifiedAt := None |>.

(** Held miners are reset in place, others join unbatched with their original
    baseline. Both parts read the rows as they were. *)
Definition RequeueFirmwareRolloutDevices (rid : Z) (ids : list Z) (db : DB) : list Z * DB :=
  match db_rollouts db !! rid with
  | None => ([], db)
  | Some r =>
      let reset := map dr_DeviceID
        (List.filter (row_selected rid ids requeue_guard) (db_devices db)) in
      let added := List.filter (λ id, negb (has_device (db_devices db) rid id)) ids in
      let rows := map (λ id, copy_baseline (prior_row db r id) (new_device_row rid id)) added in
      (reset ++ added,
       insert_devices rid rows (update_devices rid ids requeue_guard requeue_row db))
  end.

(** A new rollout's targets take the baseline of the attempt they retry. *)
Definition PreserveFirmwareRolloutRetryBaselines (rid : Z) (db : DB) : DB :=
  match db_rollouts db !! rid with
  | None => db
  | Some r =>
      let prior d := prior_row db r (dr_DeviceID d) in
      update_devices rid (map dr_DeviceID (db_devices db)) (λ d, is_set (prior d))
        (λ d, copy_baseline (prior d) d) db
  end.

(** The row the sequence, the parameters and the column defaults make; the
    INSERT trigger stamps the creating transaction. *)
Definition CreateFirmwareRollout (org channel : Z) (manufacturer model checksum version
    prev_checksum prev_version : string) (generation : Z) (stage : string)
    (snap : BehaviorSnapshot) (batch_count : Z) (actor : Actor) (db : DB)
    : FirmwareRollout * DB :=
  let r := {|
    fr_ID := db_nextval db; fr_OrgID := org; fr_ChannelID := channel;
    fr_Manufacturer := manufacturer; fr_Model := model; fr_FirmwareChecksum := checksum;
    fr_FirmwareVersion := version; fr_PreviousFirmwareChecksum := prev_checksum;
    fr_PreviousFirmwareVersion := prev_version; fr_AssignmentGeneration := generation;
    fr_Status := StatusActive; fr_CancelReason := ""; fr_Stage := stage;
    fr_BehaviorSnapshot := snap; fr_BatchCount := batch_count; fr_CurrentBatch := 0;
    fr_StageChangedAt := db_clock db; fr_StagePausedMicroseconds := 0; fr_PausedAt := None;
    fr_Revision := 1; fr_RevisionTxid := db_txid db; fr_UpdatedAt := db_clock db;
    fr_StartedBy := audit actor; fr_LastActionBy := audit actor; fr_CreatedAt := db_clock db;
    fr_FinishedAt := None; fr_ControllerWaitingSince := None |} in
  (r, db <| db_rollouts := <[db_nextval db := r]> (db_rollouts db) |>
         <| db_nextval := db_nextval db + 1 |>).

(** ** Provenance *)

(** One aligned observation: the device, whether a row was seen, and its time
    and checksum. *)
Record DeployObservation := {
  do_DeviceID : Z; do_Present : bool; do_DeployedAt : Z; do_Checksum : string
}.

(** A compare-and-set per device: the write happens only when the row still is
    what was observed. Touched rollouts are collected for the triggers. *)
Definition record_deployment_one (rid : Z) (checksum version : string) (clock : Z)
    (acc : gmap Z Deployment * list Z) (o : DeployObservation) : gmap Z Deployment * list Z :=
  let '(deps, touched) := acc in
  match deps !! do_DeviceID o with
  | Some dep =>
      if do_Present o && (dep_DeployedAt dep =? do_DeployedAt o)
         && (dep_FirmwareChecksum dep == do_Checksum o) then
        (<[do_DeviceID o := {| dep_FirmwareChecksum := checksum; dep_FirmwareVersion := version;
             dep_RolloutID := Some rid;
             dep_DeployedAt := Z.max clock (dep_DeployedAt dep + Microsecond) |}]> deps,
         touched ++ rid :: option_list (dep_RolloutID dep))
      else acc
  | None =>
      if do_Present o then acc
      else (<[do_DeviceID o := {| dep_FirmwareChecksum := checksum;
               dep_FirmwareVersion := version; dep_RolloutID := Some rid;
               dep_DeployedAt := clock |}]> deps, touched ++ [rid])
  end.

Definition RecordFirmwareDeployment (rid : Z) (checksum version : string)
    (obs : list DeployObservation) (db : DB) : DB :=
  let '(deps, touched) :=
    fold_left (record_deployment_one rid checksum version (db_clock db)) obs (db_deployments db, []) in
  fold_left touch_rollout touched (db <| db_deployments := deps |>).

(** ** The target query *)

(** One miner of a rollout: its row, what the other tables say of it, its
    provenance, and the derived [foreignCommand]. *)
Record target := {
  t_row : DeviceRow;
  t_obs : Observation;
  t_dep : option Deployment;
  foreignCommand : bool
}.

Definition LastDeployedFirmwareChecksum (t : target) : string :=
  from_option dep_FirmwareChecksum "" (t_dep t).
Definition LastDeployedFirmwareVersion (t : target) : string :=
  from_option dep_FirmwareVersion "" (t_dep t).
Definition LastDeployedAt (t : target) : option Z := dep_DeployedAt <$> t_dep t.

(** ORDER BY position NULLS LAST, device_identifier. *)
Definition target_less (a b : target) : bool :=
  match dr_Position (t_row a), dr_Position (t_row b) with
  | Some p, Some q => (p <? q) || ((p =? q)
      && String.ltb (ob_DeviceIdentifier (t_obs a)) (ob_DeviceIdentifier (t_obs b)))
  | Some _, None => true
  | None, Some _ => false
  | None, None => String.ltb (ob_DeviceIdentifier (t_obs a)) (ob_DeviceIdentifier (t_obs b))
  end.

(** The rows of [ListFirmwareRolloutDevices] with the [foreignCommand] loop of
    [listTargets]: a pending command for another checksum, or a legacy one for
    a file that does not carry the rollout's checksum ([own]). *)
Definition is_foreign (own : list string) (checksum : string) (o : Observation) : bool :=
  existsb (λ c, c != checksum) (ob_PendingFirmwareChecksums o)
  || existsb (λ id, negb (bool_decide (id ∈ own))) (ob_PendingLegacyFirmwareFileIds o).

Definition target_of (own : list string) (db : DB) (r : FirmwareRollout) (d : DeviceRow) : target :=
  let o := db_observe db (fr_ID r) (dr_DeviceID d) in
  {| t_row := d; t_obs := o; t_dep := db_deployments db !! dr_DeviceID d;
     foreignCommand := is_foreign own (fr_FirmwareChecksum r) o |}.

Definition rollout_rows (db : DB) (rid : Z) : list DeviceRow :=
  List.filter (λ d, dr_RolloutID d =? rid) (db_devices db).

Definition list_targets (own : list string) (db : DB) (r : FirmwareRollout) : list target :=
  stable_sort target_less (map (target_of own db r) (rollout_rows db (fr_ID r))).
