(* ===== verification/RolloutStoreFacts.v ===== *)
(** * Facts about the rollout statements

    What a header update keeps, what a guarded update of targets does to each
    row, and that a statement on one rollout leaves the others alone. *)

From S2P Require Import Prelude GoSort Float64 Errors RolloutBehavior RolloutStore.
#[local] Open Scope string_scope.
#[local] Open Scope list_scope.
#[local] Open Scope Z_scope.
#[local] Open Scope go_scope.

Create Rewrite HintDb rollout.

(** ** The revision trigger changes only the revision columns *)

Section Bump.
Context (db : DB) (r : FirmwareRollout).

Ltac bump := unfold bump_revision; case_if; reflexivity.

Lemma bump_ID : fr_ID (bump_revision db r) = fr_ID r. Proof. bump. Qed.
Lemma bump_OrgID : fr_OrgID (bump_revision db r) = fr_OrgID r. Proof. bump. Qed.
Lemma bump_ChannelID : fr_ChannelID (bump_revision db r) = fr_ChannelID r. Proof. bump. Qed.
Lemma bump_Checksum : fr_FirmwareChecksum (bump_revision db r) = fr_FirmwareChecksum r.
Proof. bump. Qed.
Lemma bump_Version : fr_FirmwareVersion (bump_revision db r) = fr_FirmwareVersion r.
Proof. bump. Qed.
Lemma bump_Status : fr_Status (bump_revision db r) = fr_Status r. Proof. bump. Qed.
Lemma bump_Stage : fr_Stage (bump_revision db r) = fr_Stage r. Proof. bump. Qed.
Lemma bump_BatchCount : fr_BatchCount (bump_revision db r) = fr_BatchCount r. Proof. bump. Qed.
Lemma bump_CurrentBatch : fr_CurrentBatch (bump_revision db r) = fr_CurrentBatch r.
Proof. bump. Qed.
Lemma bump_StageChangedAt : fr_StageChangedAt (bump_revision db r) = fr_StageChangedAt r.
Proof. bump. Qed.
Lemma bump_StagePaused :
  fr_StagePausedMicroseconds (bump_revision db r) = fr_StagePausedMicroseconds r.
Proof. bump. Qed.
Lemma bump_PausedAt : fr_PausedAt (bump_revision db r) = fr_PausedAt r. Proof. bump. Qed.
Lemma bump_Snapshot : fr_BehaviorSnapshot (bump_revision db r) = fr_BehaviorSnapshot r.
Proof. bump. Qed.
Lemma bump_CreatedAt : fr_CreatedAt (bump_revision db r) = fr_CreatedAt r. Proof. bump. Qed.
Lemma bump_FinishedAt : fr_FinishedAt (bump_revision db r) = fr_FinishedAt r. Proof. bump. Qed.
Lemma bump_CancelReason : fr_CancelReason (bump_revision db r) = fr_CancelReason r.
Proof. bump. Qed.
Lemma bump_Waiting :
  fr_ControllerWaitingSince (bump_revision db r) = fr_ControllerWaitingSince r.
Proof. bump. Qed.
Lemma bump_LastActionBy : fr_LastActionBy (bump_revision db r) = fr_LastActionBy r.
Proof. bump. Qed.

(** One bump per transaction, at most. *)
Lemma bump_Revision :
  fr_Revision (bump_revision db r)
  = if fr_RevisionTxid r == db_txid db then fr_Revision r else fr_Revision r + 1.
Proof. unfold bump_revision. case_bool_decide; simpl; [done|done]. Qed.
Lemma bump_RevisionTxid : fr_RevisionTxid (bump_revision db r) = db_txid db.
Proof. unfold bump_revision. case_bool_decide; simpl; [done|done]. Qed.
End Bump.

#[export] Hint Rewrite bump_ID bump_OrgID bump_ChannelID bump_Checksum bump_Version bump_Status
  bump_Stage bump_BatchCount bump_CurrentBatch bump_StageChangedAt bump_StagePaused bump_PausedAt
  bump_Snapshot bump_CreatedAt bump_FinishedAt bump_CancelReason bump_Waiting bump_LastActionBy
  : rollout.

(** ** Header updates *)

Lemma update_rollout_lookup id f db r :
  db_rollouts db !! id = Some r →
  update_rollout id f db
  = db <| db_rollouts := <[id := bump_revision db (f r)]> (db_rollouts db) |>.
Proof. intros H. unfold update_rollout. by rewrite H. Qed.

Lemma exec_rollout_hit id guard f db r :
  db_rollouts db !! id = Some r → guard r = true →
  exec_rollout id guard f db
  = (1, db <| db_rollouts := <[id := bump_revision db (f r)]> (db_rollouts db) |>).
Proof.
  intros H G. unfold exec_rollout. rewrite H, G. by rewrite (update_rollout_lookup _ _ _ _ H).
Qed.

Lemma exec_rollout_miss id guard f db r :
  db_rollouts db !! id = Some r → guard r = false → exec_rollout id guard f db = (0, db).
Proof. intros H G. unfold exec_rollout. by rewrite H, G. Qed.

(** A touch is a header update that changes nothing but the revision. *)
Lemma touch_rollout_frame db id :
  db_devices (touch_rollout db id) = db_devices db
  ∧ db_world (touch_rollout db id) = db_world db
  ∧ db_deployments (touch_rollout db id) = db_deployments db
  ∧ db_channels (touch_rollout db id) = db_channels db
  ∧ db_assignments (touch_rollout db id) = db_assignments db
  ∧ db_reservations (touch_rollout db id) = db_reservations db
  ∧ db_events (touch_rollout db id) = db_events db
  ∧ db_txid (touch_rollout db id) = db_txid db
  ∧ db_clock (touch_rollout db id) = db_clock db
  ∧ db_nextval (touch_rollout db id) = db_nextval db.
Proof.
  unfold touch_rollout. destruct (db_rollouts db !! id) as [r|] eqn:E; [|done].
  case_if; [|done]. by rewrite (update_rollout_lookup _ _ _ _ E).
Qed.

(** Two headers that differ in their revision columns only. *)
Definition same_header (r r' : FirmwareRollout) : Prop :=
  ∃ rev tx up, r' = r <| fr_Revision := rev |> <| fr_RevisionTxid := tx |> <| fr_UpdatedAt := up |>.

Lemma same_header_refl r : same_header r r.
Proof. exists (fr_Revision r), (fr_RevisionTxid r), (fr_UpdatedAt r). by destruct r. Qed.

Lemma same_header_trans r1 r2 r3 : same_header r1 r2 → same_header r2 r3 → same_header r1 r3.
Proof. intros (a & b & c & ->) (d & e & f & ->). exists d, e, f. done. Qed.

Lemma same_header_bump db r : same_header r (bump_revision db r).
Proof.
  exists (fr_Revision (bump_revision db r)), (fr_RevisionTxid (bump_revision db r)),
    (fr_UpdatedAt (bump_revision db r)).
  unfold bump_revision. case_if; by destruct r.
Qed.

Lemma touch_rollout_header db id j r :
  db_rollouts db !! j = Some r →
  ∃ r', db_rollouts (touch_rollout db id) !! j = Some r' ∧ same_header r r'.
Proof.
  intros Hj. unfold touch_rollout. destruct (db_rollouts db !! id) as [ri|] eqn:E.
  - case_if; [|eauto using same_header_refl]. rewrite (update_rollout_lookup _ _ _ _ E). simpl.
    destruct (decide (id = j)) as [->|Hne].
    + rewrite lookup_insert_eq. simplify_eq. eauto using same_header_bump.
    + rewrite lookup_insert_ne by done. eauto using same_header_refl.
  - eauto using same_header_refl.
Qed.

Lemma touch_rollout_none db id j :
  db_rollouts db !! j = None → db_rollouts (touch_rollout db id) !! j = None.
Proof.
  intros Hj. unfold touch_rollout. destruct (db_rollouts db !! id) as [ri|] eqn:E; [|done].
  case_if; [|done]. rewrite (update_rollout_lookup _ _ _ _ E). simpl.
  destruct (decide (id = j)) as [->|Hne]; [congruence|]. by rewrite lookup_insert_ne.
Qed.

(** ** Target updates *)

Lemma update_devices_rows rid ids guard f db :
  db_devices (update_devices rid ids guard f db)
  = map (λ d, if row_selected rid ids guard d then f d else d) (db_devices db).
Proof.
  unfold update_devices. case_if; [|done]. by rewrite (proj1 (touch_rollout_frame _ _)).
Qed.

Lemma update_devices_frame rid ids guard f db :
  let db' := update_devices rid ids guard f db in
  db_world db' = db_world db ∧ db_deployments db' = db_deployments db
  ∧ db_channels db' = db_channels db ∧ db_assignments db' = db_assignments db
  ∧ db_reservations db' = db_reservations db ∧ db_events db' = db_events db
  ∧ db_txid db' = db_txid db ∧ db_clock db' = db_clock db.
Proof.
  simpl. unfold update_devices. case_if; [|done].
  pose proof (touch_rollout_frame (db <| db_devices := map (λ d, if row_selected rid ids guard d
    then f d else d) (db_devices db) |>) rid) as (_ & H). simpl in H. naive_solver.
Qed.

Lemma update_devices_header rid ids guard f db j r :
  db_rollouts db !! j = Some r →
  ∃ r', db_rollouts (update_devices rid ids guard f db) !! j = Some r' ∧ same_header r r'.
Proof.
  intros Hj. unfold update_devices. case_if; [|eauto using same_header_refl].
  by apply touch_rollout_header.
Qed.

(** Membership of a row after the update. *)
Lemma update_devices_elem rid ids guard f db d' :
  d' ∈ db_devices (update_devices rid ids guard f db) ↔
  ∃ d, d ∈ db_devices db ∧ d' = (if row_selected rid ids guard d then f d else d).
Proof.
  rewrite update_devices_rows. rewrite list_elem_of_fmap. naive_solver.
Qed.
