(* ===== verification/RolloutTargets.v ===== *)
(** * Decisions of the rollout engine

    The pure part of [internal/domain/rollout]: the state of one target and its
    phase, the scopes of a stage, the order and the batches of a new rollout,
    the stage clock, the evidence that gates an automatic advance, the offline
    budget and the selection of queued targets. *)

From S2P Require Import Prelude GoSort Float64 Errors RolloutBehavior RolloutStore.
#[local] Open Scope string_scope.
#[local] Open Scope list_scope.
#[local] Open Scope Z_scope.
#[local] Open Scope go_scope.

Definition MaxAttempts : Z := 3.
Definition resendInterval : Z := 10 * Minute.

Definition StateInProgress := "in_progress".
Definition StateStabilizingTelemetry := "stabilizing_telemetry".
Definition StatePausedAtPilotGate := "paused_at_pilot_gate".
Definition StatePausedAtBatchReview := "paused_at_batch_review".
Definition StatePaused := "paused".
Definition StateCompleted := "completed".
Definition StateCompletedWithFailures := "completed_with_failures".
Definition StateCanceled := "canceled".
Definition StateWaitingForController := "waiting_for_controller".

Definition PhaseQueued := "queued".
Definition PhaseInProgress := "in_progress".
Definition PhaseRetrying := "retrying".
Definition PhaseDone := "done".
Definition PhaseFailed := "failed".
Definition PhaseExcluded := "excluded".
Definition PhaseSkipped := "skipped".

(** ** One target *)

Definition deviceStatusActive := "ACTIVE".

Definition online (t : target) : bool :=
  let s := ob_Status (t_obs t) in
  negb ((s == "") || (s == "OFFLINE") || (s == "UNKNOWN") || (s == "UPDATING")).

Definition hashing (t : target) : bool := ob_Status (t_obs t) == deviceStatusActive.

Definition baselineHashing (t : target) : bool :=
  match dr_BaselineStatus (t_row t) with Some s => s == deviceStatusActive | None => false end.

Definition inBatch (index : Z) (t : target) : bool :=
  match dr_BatchIndex (t_row t) with Some i => i =? index | None => false end.

Definition excluded (t : target) : bool := is_set (dr_ExcludedAt (t_row t)).
Definition halted (t : target) : bool := is_set (dr_HaltedAt (t_row t)).
Definition failed (t : target) : bool := halted t && (dr_HaltReason (t_row t) == HaltReasonFailed).
Definition skipped (t : target) : bool := halted t && (dr_HaltReason (t_row t) == HaltReasonSkipped).

Definition reportsTarget (r : FirmwareRollout) (t : target) : bool :=
  ob_FirmwareVersion (t_obs t) == fr_FirmwareVersion r.

Definition meetsConvergence (r : FirmwareRollout) (t : target) : bool :=
  reportsTarget r t && (LastDeployedFirmwareChecksum t == fr_FirmwareChecksum r)
  && negb (foreignCommand t) && online t
  && (hashing t || (is_set (dr_BaselineAt (t_row t)) && negb (baselineHashing t))).

Definition verified (t : target) : bool := is_set (dr_VerifiedAt (t_row t)).
Definition settled (t : target) : bool := verified t || halted t.

Record persistedPhase := {
  pp_Excluded : bool; pp_Halted : bool; pp_Verified : bool;
  pp_HaltReason : string; pp_Attempts : Z
}.

Definition persistedDevicePhase (status : string) (p : persistedPhase) : string :=
  if pp_Excluded p then PhaseExcluded
  else if pp_Halted p && (pp_HaltReason p == HaltReasonSkipped) then PhaseSkipped
  else if pp_Verified p then PhaseDone
  else if (pp_HaltReason p == HaltReasonFailed) && (pp_Halted p || (status != StatusActive))
  then PhaseFailed
  else if (pp_HaltReason p == HaltReasonCanceled) && (status != StatusActive) then
    if pp_Attempts p =? 0 then PhaseQueued else PhaseInProgress
  else if 2 <=? pp_Attempts p then PhaseRetrying
  else if pp_Attempts p =? 1 then PhaseInProgress
  else PhaseQueued.

Definition phase (r : FirmwareRollout) (t : target) : string :=
  persistedDevicePhase (fr_Status r)
    {| pp_Excluded := excluded t; pp_Halted := halted t; pp_Verified := verified t;
       pp_HaltReason := dr_HaltReason (t_row t); pp_Attempts := dr_Attempts (t_row t) |}.

(** ** Views *)

Record Metric := { Baseline : option float64; Current : option float64 }.
Record Aggregate := { AMetric : Metric; SampledDevices : Z }.

Definition metricFrom (baseline current : option float64) : Metric :=
  {| Baseline := baseline; Current := current |}.

Record RolloutDevice := {
  rd_DeviceID : Z;
  rd_DeviceIdentifier : string;
  rd_IPAddress : string;
  rd_FirmwareVersion : string;
  rd_Phase : string;
  rd_Batch : Z;
  rd_Status : string;
  rd_Online : bool;
  rd_Hashing : bool;
  rd_HasBaseline : bool;
  rd_BaselineHashing : bool;
  rd_HashRateHs : Metric;
  rd_PowerW : Metric;
  rd_EfficiencyJh : Metric;
  rd_TempC : Metric;
  rd_OpenErrors : Z;
  rd_BaselineOpenErrors : Z;
  rd_Attempts : Z;
  rd_LastSentAt : option Z;
  rd_LastError : string;
  rd_SkipNote : string;
  rd_LastDeployedFirmwareChecksum : string
}.

Definition view (r : FirmwareRollout) (t : target) : RolloutDevice :=
  let d := t_row t in let o := t_obs t in
  {| rd_DeviceID := dr_DeviceID d; rd_DeviceIdentifier := ob_DeviceIdentifier o;
     rd_IPAddress := ob_IpAddress o; rd_FirmwareVersion := ob_FirmwareVersion o;
     rd_Phase := phase r t;
     rd_Batch := match dr_BatchIndex d with Some i => int32 (i + 1) | None => 0 end;
     rd_Status := ob_Status o; rd_Online := online t; rd_Hashing := hashing t;
     rd_HasBaseline := is_set (dr_BaselineAt d); rd_BaselineHashing := baselineHashing t;
     rd_HashRateHs := metricFrom (dr_BaselineHashRateHs d) (ob_HashRateHs o);
     rd_PowerW := metricFrom (dr_BaselinePowerW d) (ob_PowerW o);
     rd_EfficiencyJh := metricFrom (dr_BaselineEfficiencyJh d) (ob_EfficiencyJh o);
     rd_TempC := metricFrom (dr_BaselineTempC d) (ob_TempC o);
     rd_OpenErrors := ob_OpenErrors o;
     rd_BaselineOpenErrors := default 0 (dr_BaselineOpenErrors d);
     rd_Attempts := dr_Attempts d; rd_LastSentAt := dr_LastSentAt d;
     rd_LastError := dr_LastError d; rd_SkipNote := dr_SkipNote d;
     rd_LastDeployedFirmwareChecksum := LastDeployedFirmwareChecksum t |}.

Record DeviceCounts := {
  Queued : Z; InProgress : Z; Retrying : Z; Done : Z; Failed : Z; Excluded : Z; Skipped : Z
}.

#[export] Instance eta_DeviceCounts : Eta DeviceCounts := λ c,
  {| Queued := Queued c; InProgress := InProgress c; Retrying := Retrying c; Done := Done c;
     Failed := Failed c; Excluded := Excluded c; Skipped := Skipped c |}.

Definition no_counts : DeviceCounts :=
  {| Queued := 0; InProgress := 0; Retrying := 0; Done := 0; Failed := 0; Excluded := 0;
     Skipped := 0 |}.

Definition count_phase (c : DeviceCounts) (d : RolloutDevice) : DeviceCounts :=
  let p := rd_Phase d in
  if p == PhaseQueued then c <| Queued := int32 (Queued c + 1) |>
  else if p == PhaseInProgress then c <| InProgress := int32 (InProgress c + 1) |>
  else if p == PhaseRetrying then c <| Retrying := int32 (Retrying c + 1) |>
  else if p == PhaseDone then c <| Done := int32 (Done c + 1) |>
  else if p == PhaseFailed then c <| Failed := int32 (Failed c + 1) |>
  else if p == PhaseExcluded then c <| Excluded := int32 (Excluded c + 1) |>
  else if p == PhaseSkipped then c <| Skipped := int32 (Skipped c + 1) |>
  else c.

Definition countPhases (devices : list RolloutDevice) : DeviceCounts :=
  fold_left count_phase devices no_counts.

(** ** Scopes of a stage *)

Definition activeTargets (targets : list target) : list target :=
  List.filter (λ t, negb (excluded t)) targets.

Definition evidenceScope (r : FirmwareRollout) (targets : list target) : list target :=
  List.filter (λ t,
    ((fr_Stage r == StageRest) && negb (is_set (dr_BatchIndex (t_row t))))
    || ((fr_Stage r != StageRest) && inBatch (fr_CurrentBatch r) t)) targets.

Definition reviewScope (r : FirmwareRollout) (targets : list target) : list target :=
  if fr_Stage r == StageRest then activeTargets targets
  else activeTargets (evidenceScope r targets).

Definition allSettled (scope : list target) : bool := forallb settled scope.

Definition countFailed (scope : list target) : Z :=
  fold_left (λ n t, if failed t then n + 1 else n) scope 0.

Definition anyFailed (scope : list target) : bool := 0 <? countFailed scope.

Definition hasUpdatesInFlight (r : FirmwareRollout) (targets : list target) : bool :=
  existsb (λ t, (phase r t == PhaseInProgress) || (phase r t == PhaseRetrying)) targets.

(** ** Order and batches of a new rollout *)

Record MemberRow := { mr_DeviceID : Z; mr_DeviceIdentifier : string; mr_EfficiencyJh : option float64 }.

Definition member_less (a b : MemberRow) : bool :=
  match mr_EfficiencyJh a, mr_EfficiencyJh b with
  | Some _, None => true
  | None, Some _ => false
  | Some x, Some y =>
      if F64.ne x y then F64.gt x y
      else String.ltb (mr_DeviceIdentifier a) (mr_DeviceIdentifier b)
  | None, None => String.ltb (mr_DeviceIdentifier a) (mr_DeviceIdentifier b)
  end.

(** The callback of a shuffle: exchange two positions. *)
Definition swap_positions {A} (l : list A) (ij : nat * nat) : list A :=
  match l !! ij.1, l !! ij.2 with
  | Some x, Some y => <[ij.1 := y]> (<[ij.2 := x]> l)
  | _, _ => l
  end.

(** [shuffle n] is the sequence of exchanges the service's shuffle makes. *)
Definition orderMembers (shuffle : nat → list (nat * nat)) (rows : list MemberRow)
    (order : string) : list Z :=
  let sorted :=
    if order == OrderRandom then fold_left swap_positions (shuffle (length rows)) rows
    else stable_sort member_less rows in
  map mr_DeviceID sorted.

(** The batching loop: [None] when it does not return within the fuel. *)
Fixpoint batch_loop (fuel : nat) (size start : nat) (ordered : list Z) : option (list (list Z)) :=
  if (start <? length ordered)%nat then
    match fuel with
    | O => None
    | S fuel =>
        rest ← batch_loop fuel size (start + size) ordered;
        Some (take (Nat.min (start + size) (length ordered) - start) (drop start ordered) :: rest)
    end
  else Some [].

Definition split_batches (b : Behavior) (ordered : list Z) : option (list (list Z) * list Z) :=
  if Method b == MethodPilotThenContinue then
    let n := Nat.min (Z.to_nat (PilotSize b)) (length ordered) in
    Some ([take n ordered], drop n ordered)
  else if Method b == MethodBatched then
    batches ← batch_loop (length ordered) (Z.to_nat (BatchSize b)) 0 ordered;
    Some (batches, [])
  else Some ([], ordered).

(** ** The stage clock *)

Definition stageElapsed (now : Z) (r : FirmwareRollout) : Z :=
  let until := default now (fr_PausedAt r) in
  let elapsed := time_Sub until (fr_StageChangedAt r) in
  if (elapsed <=? 0) || (elapsed ÷ Microsecond <? fr_StagePausedMicroseconds r) then 0
  else elapsed - int64 (fr_StagePausedMicroseconds r * Microsecond).

(** ** Evidence *)

(** The hold reasons, one constructor per message; the numbers are the
    arguments of its format string. *)
Inductive HoldReason :=
| HoldNone
| HoldPaused
| HoldWaiting
| HoldManualReview
| HoldFailed (n : Z)
| HoldNotVerified (n total : Z)
| HoldOffline (n : Z)
| HoldNotHashing (n : Z)
| HoldCoverage (metric : string) (sampled verified : Z)
| HoldHashrateUndefined
| HoldHashrateDown (change limit : float64)
| HoldEfficiencyUndefined
| HoldEfficiencyWorse (change limit : float64)
| HoldTemperatureUp (change limit : float64)
| HoldNewErrors (n limit : Z)
| HoldStabilizing
| HoldArtifactMissing
| HoldOfflineCapacity (slots limit : Z).

Definition is_stabilizing (h : HoldReason) : bool :=
  match h with HoldStabilizing => true | _ => false end.

Record metricAggregate := { ma_baseline : float64; ma_current : float64; ma_n : Z }.

Definition ma_empty : metricAggregate :=
  {| ma_baseline := F64.zero; ma_current := F64.zero; ma_n := 0 |}.

Definition ma_add (a : metricAggregate) (baseline current : option float64) : metricAggregate :=
  match baseline, current with
  | Some b, Some c => {| ma_baseline := F64.add (ma_baseline a) b;
                         ma_current := F64.add (ma_current a) c; ma_n := ma_n a + 1 |}
  | _, _ => a
  end.

Definition no_aggregate : Aggregate :=
  {| AMetric := {| Baseline := None; Current := None |}; SampledDevices := 0 |}.

Definition ma_sum (a : metricAggregate) : Aggregate :=
  if ma_n a =? 0 then no_aggregate
  else {| AMetric := {| Baseline := Some (ma_baseline a); Current := Some (ma_current a) |};
          SampledDevices := int32 (ma_n a) |}.

Definition ma_mean (a : metricAggregate) : Aggregate :=
  if ma_n a =? 0 then no_aggregate
  else {| AMetric := {| Baseline := Some (F64.div (ma_baseline a) (F64.of_Z (ma_n a)));
                        Current := Some (F64.div (ma_current a) (F64.of_Z (ma_n a))) |};
          SampledDevices := int32 (ma_n a) |}.

Definition percentChange (m : Metric) : option float64 :=
  match Baseline m, Current m with
  | Some b, Some c =>
      if F64.eq b F64.zero then None
      else Some (F64.mul (F64.div (F64.sub c b) b) (F64.of_Z 100))
  | _, _ => None
  end.

Record Evidence := {
  DevicesTotal : Z;
  Verified : Z;
  Online : Z;
  Hashing : Z;
  BaselineHashing : Z;
  EvFailed : Z;
  EvExcluded : Z;
  EvSkipped : Z;
  HashrateChangePercent : option float64;
  EfficiencyChangePercent : option float64;
  TemperatureChangeC : option float64;
  NewErrors : Z;
  ReadyToAdvance : bool;
  EvHoldReason : HoldReason;
  StabilizationRemainingSeconds : Z;
  EvHashRateHs : Aggregate;
  EvPowerW : Aggregate;
  EvEfficiencyJh : Aggregate;
  EvTempC : Aggregate
}.

#[export] Instance eta_Evidence : Eta Evidence := λ e,
  {| DevicesTotal := DevicesTotal e; Verified := Verified e; Online := Online e;
     Hashing := Hashing e; BaselineHashing := BaselineHashing e; EvFailed := EvFailed e;
     EvExcluded := EvExcluded e; EvSkipped := EvSkipped e;
     HashrateChangePercent := HashrateChangePercent e;
     EfficiencyChangePercent := EfficiencyChangePercent e;
     TemperatureChangeC := TemperatureChangeC e; NewErrors := NewErrors e;
     ReadyToAdvance := ReadyToAdvance e; EvHoldReason := EvHoldReason e;
     StabilizationRemainingSeconds := StabilizationRemainingSeconds e;
     EvHashRateHs := EvHashRateHs e; EvPowerW := EvPowerW e;
     EvEfficiencyJh := EvEfficiencyJh e; EvTempC := EvTempC e |}.

(** The variables of the evaluation loop. *)
Record Tally := {
  ty_Verified : Z; ty_Online : Z; ty_Hashing : Z; ty_BaselineHashing : Z;
  ty_Failed : Z; ty_Excluded : Z; ty_Skipped : Z; ty_NewErrors : Z;
  ty_offline : Z; ty_notHashing : Z;
  ty_hash : metricAggregate; ty_power : metricAggregate;
  ty_efficiency : metricAggregate; ty_temp : metricAggregate
}.

#[export] Instance eta_Tally : Eta Tally := λ a,
  {| ty_Verified := ty_Verified a; ty_Online := ty_Online a; ty_Hashing := ty_Hashing a;
     ty_BaselineHashing := ty_BaselineHashing a; ty_Failed := ty_Failed a;
     ty_Excluded := ty_Excluded a; ty_Skipped := ty_Skipped a; ty_NewErrors := ty_NewErrors a;
     ty_offline := ty_offline a; ty_notHashing := ty_notHashing a; ty_hash := ty_hash a;
     ty_power := ty_power a; ty_efficiency := ty_efficiency a; ty_temp := ty_temp a |}.

Definition empty_tally : Tally :=
  {| ty_Verified := 0; ty_Online := 0; ty_Hashing := 0; ty_BaselineHashing := 0;
     ty_Failed := 0; ty_Excluded := 0; ty_Skipped := 0; ty_NewErrors := 0;
     ty_offline := 0; ty_notHashing := 0; ty_hash := ma_empty; ty_power := ma_empty;
     ty_efficiency := ma_empty; ty_temp := ma_empty |}.

Definition incr_if (b : bool) (n : Z) : Z := if b then int32 (n + 1) else n.

(** [offline] and [notHashing] are Go ints, the other counters int32. *)
Definition tally_verified (a : Tally) (t : target) : Tally :=
  let d := t_row t in let o := t_obs t in
  let off := negb (online t) in
  let idle := online t && negb (hashing t)
              && (negb (is_set (dr_BaselineAt d)) || baselineHashing t) in
  a <| ty_offline := if off then ty_offline a + 1 else ty_offline a |>
    <| ty_notHashing := if idle then ty_notHashing a + 1 else ty_notHashing a |>
    <| ty_Verified := int32 (ty_Verified a + 1) |>
    <| ty_hash := ma_add (ty_hash a) (dr_BaselineHashRateHs d) (ob_HashRateHs o) |>
    <| ty_power := ma_add (ty_power a) (dr_BaselinePowerW d) (ob_PowerW o) |>
    <| ty_efficiency := ma_add (ty_efficiency a) (dr_BaselineEfficiencyJh d) (ob_EfficiencyJh o) |>
    <| ty_temp := ma_add (ty_temp a) (dr_BaselineTempC d) (ob_TempC o) |>.

Definition tally_target (a : Tally) (t : target) : Tally :=
  if excluded t then a <| ty_Excluded := int32 (ty_Excluded a + 1) |>
  else if skipped t then a <| ty_Skipped := int32 (ty_Skipped a + 1) |>
  else
    let a := if verified t then tally_verified a t else a in
    a <| ty_Failed := incr_if (failed t) (ty_Failed a) |>
      <| ty_Online := incr_if (online t) (ty_Online a) |>
      <| ty_Hashing := incr_if (hashing t) (ty_Hashing a) |>
      <| ty_BaselineHashing := incr_if (baselineHashing t) (ty_BaselineHashing a) |>
      <| ty_NewErrors := int32 (ty_NewErrors a + ob_ErrorsSinceBaseline (t_obs t)) |>.

Definition tally (scope : list target) : Tally := fold_left tally_target scope empty_tally.

(** The evidence before the gate is judged. *)
Definition measured (scope : list target) : Evidence :=
  let a := tally scope in
  let h := ma_sum (ty_hash a) in let p := ma_sum (ty_power a) in
  let e := ma_mean (ty_efficiency a) in let c := ma_mean (ty_temp a) in
  {| DevicesTotal := int32 (Z.of_nat (length scope)); Verified := ty_Verified a;
     Online := ty_Online a; Hashing := ty_Hashing a; BaselineHashing := ty_BaselineHashing a;
     EvFailed := ty_Failed a; EvExcluded := ty_Excluded a; EvSkipped := ty_Skipped a;
     HashrateChangePercent := percentChange (AMetric h);
     EfficiencyChangePercent := percentChange (AMetric e);
     TemperatureChangeC :=
       match Baseline (AMetric c), Current (AMetric c) with
       | Some b, Some v => Some (F64.sub v b) | _, _ => None end;
     NewErrors := ty_NewErrors a; ReadyToAdvance := false; EvHoldReason := HoldNone;
     StabilizationRemainingSeconds := 0; EvHashRateHs := h; EvPowerW := p;
     EvEfficiencyJh := e; EvTempC := c |}.

Definition covered (th : Thresholds) (ev : Evidence) (a : Aggregate) : bool :=
  (0 <? SampledDevices a)
  && F64.ge (F64.of_Z (SampledDevices a)) (F64.mul (coverage th) (F64.of_Z (Verified ev))).

(** time.Duration.Seconds *)
Definition duration_Seconds (d : Z) : float64 :=
  F64.add (F64.of_Z (d ÷ Second)) (F64.div (F64.of_Z (Z.rem d Second)) (F64.of_Z Second)).

(** The last branch of the gate: stabilization, then readiness. *)
Definition judge_stabilization (now : Z) (r : FirmwareRollout) (ev : Evidence) : Evidence :=
  let stab := bs_StabilizationSeconds (fr_BehaviorSnapshot r) in
  let remaining := stab * Second - stageElapsed now r in
  if (0 <? stab) && (0 <? remaining) then
    ev <| StabilizationRemainingSeconds := int32 (F64.ceil_Z (duration_Seconds remaining)) |>
       <| EvHoldReason := HoldStabilizing |>
  else ev <| ReadyToAdvance := true |>.

(** The threshold cases of the gate, in order, each passing to the next one.
    [None] is a nil dereference. *)
Definition hold (ev : Evidence) (h : HoldReason) : Evidence := ev <| EvHoldReason := h |>.

Definition judge_errors (now : Z) (r : FirmwareRollout) (th : Thresholds) (ev : Evidence)
    : option Evidence :=
  match MaxNewErrors th with
  | Some lim => if lim <? NewErrors ev then Some (hold ev (HoldNewErrors (NewErrors ev) lim))
                else Some (judge_stabilization now r ev)
  | None => Some (judge_stabilization now r ev)
  end.

Definition judge_temperature (now : Z) (r : FirmwareRollout) (th : Thresholds) (ev : Evidence)
    : option Evidence :=
  match MaxTempIncreaseC th with
  | Some lim =>
      if negb (covered th ev (EvTempC ev)) then
        Some (hold ev (HoldCoverage "temperature" (SampledDevices (EvTempC ev)) (Verified ev)))
      else c ← TemperatureChangeC ev;
           if F64.gt c lim then Some (hold ev (HoldTemperatureUp c lim))
           else judge_errors now r th ev
  | None => judge_errors now r th ev
  end.

Definition judge_efficiency (now : Z) (r : FirmwareRollout) (th : Thresholds) (ev : Evidence)
    : option Evidence :=
  match MaxEfficiencyIncreasePercent th with
  | Some lim =>
      if negb (covered th ev (EvEfficiencyJh ev)) then
        Some (hold ev (HoldCoverage "efficiency" (SampledDevices (EvEfficiencyJh ev)) (Verified ev)))
      else if negb (is_set (EfficiencyChangePercent ev)) then Some (hold ev HoldEfficiencyUndefined)
      else c ← EfficiencyChangePercent ev;
           if F64.gt c lim then Some (hold ev (HoldEfficiencyWorse c lim))
           else judge_temperature now r th ev
  | None => judge_temperature now r th ev
  end.

Definition judge_hashrate (now : Z) (r : FirmwareRollout) (th : Thresholds) (ev : Evidence)
    : option Evidence :=
  match MaxHashrateDropPercent th with
  | Some lim =>
      if negb (covered th ev (EvHashRateHs ev)) then
        Some (hold ev (HoldCoverage "hashrate" (SampledDevices (EvHashRateHs ev)) (Verified ev)))
      else if negb (is_set (HashrateChangePercent ev)) then Some (hold ev HoldHashrateUndefined)
      else c ← HashrateChangePercent ev;
           if F64.lt c (F64.opp lim) then Some (hold ev (HoldHashrateDown (F64.opp c) lim))
           else judge_efficiency now r th ev
  | None => judge_efficiency now r th ev
  end.

Definition judge_thresholds (now : Z) (r : FirmwareRollout) (ev : Evidence) : option Evidence :=
  judge_hashrate now r (BThresholds (behaviorFromSnapshot (fr_BehaviorSnapshot r))) ev.

(** [evaluate]: the summary of a scope and whether the rollout may continue on
    its own. *)
Definition evaluate (now : Z) (r : FirmwareRollout) (scope : list target) : option Evidence :=
  let ev := measured scope in
  let a := tally scope in
  let hold h := Some (hold ev h) in
  if fr_Status r != StatusActive then Some ev
  else if is_set (fr_PausedAt r) then hold HoldPaused
  else if fr_Stage r == StageBatch then hold HoldNone
  else if fr_Stage r == StageWaiting then hold HoldWaiting
  else if fr_Stage r == StageRest then hold HoldNone
  else if negb (bs_AutoContinue (fr_BehaviorSnapshot r)) then hold HoldManualReview
  else if 0 <? EvFailed ev then hold (HoldFailed (EvFailed ev))
  else if int32 (Verified ev + EvExcluded ev + EvSkipped ev) <? DevicesTotal ev then
    hold (HoldNotVerified (int32 (DevicesTotal ev - Verified ev - EvExcluded ev - EvSkipped ev))
                          (DevicesTotal ev))
  else if 0 <? ty_offline a then hold (HoldOffline (ty_offline a))
  else if 0 <? ty_notHashing a then hold (HoldNotHashing (ty_notHashing a))
  else judge_thresholds now r ev.

(** ** Offline budget *)

(** nil is unlimited; [held] is the set of devices that hold a slot. *)
Record offlineBudget := { bg_limit : Z; bg_held : gset Z }.

Definition room (b : option offlineBudget) : Z :=
  match b with
  | None => -1
  | Some b => if bg_limit b <=? 0 then -1
              else Z.max (bg_limit b - Z.of_nat (size (bg_held b))) 0
  end.

Definition reserve (b : option offlineBudget) (id : Z) : option offlineBudget :=
  match b with
  | None => None
  | Some b => Some {| bg_limit := bg_limit b; bg_held := {[id]} ∪ bg_held b |}
  end.

(** The budget [refreshOfflineBudget] builds from the slots it read. *)
Definition budget_of_slots (limit : Z) (slots : list Z) : option offlineBudget :=
  if limit <=? 0 then None
  else fold_left reserve slots (Some {| bg_limit := limit; bg_held := ∅ |}).

(** ** Dispatch classification *)

Record Classified := { toHalt : list Z; incompatible : list Z; due : list Z }.

Definition in_scope (t : target) : bool := default false (ob_InScope (t_obs t)).

Definition has_pending (t : target) : bool :=
  negb (Nat.eqb (length (ob_PendingFirmwareChecksums (t_obs t))) 0)
  || negb (Nat.eqb (length (ob_PendingLegacyFirmwareFileIds (t_obs t))) 0).

Definition sentRecently (now : Z) (t : target) : bool :=
  match dr_LastSentAt (t_row t) with
  | Some s => negb (s <? now - resendInterval)
  | None => false
  end.

Definition classify_target (now : Z) (c : Classified) (t : target) : Classified :=
  let id := dr_DeviceID (t_row t) in
  if settled t then c
  else if has_pending t then c
  else if sentRecently now t then c
  else if negb (in_scope t) then
    {| toHalt := toHalt c; incompatible := incompatible c ++ [id]; due := due c |}
  else if MaxAttempts <=? dr_Attempts (t_row t) then
    {| toHalt := toHalt c ++ [id]; incompatible := incompatible c; due := due c |}
  else {| toHalt := toHalt c; incompatible := incompatible c; due := due c ++ [id] |}.

Definition classify (now : Z) (scope : list target) : Classified :=
  fold_left (classify_target now) scope {| toHalt := []; incompatible := []; due := [] |}.

(** The due targets the budget admits. *)
Definition within_room (b : option offlineBudget) (due : list Z) : list Z :=
  if (0 <=? room b) && (room b <? Z.of_nat (length due)) then take (Z.to_nat (room b)) due
  else due.

(** ** Selection of queued targets *)

Record DeviceSelection := { SelIdentifiers : list string; SelCount : Z }.

Definition ReasonDeviceNotQueued := "device_not_queued".

Definition reason (c : Code) (info : ErrorInfo) : FleetError :=
  {| GRPCCode := c; cause := Some info |}.

Definition selectable (r : FirmwareRollout) (t : target) : bool :=
  (phase r t == PhaseQueued) && ob_IsChannelMember (t_obs t).

Definition select_step (r : FirmwareRollout) (count : Z) (acc : list target * gset string)
    (t : target) : list target * gset string :=
  let '(selected, named) := acc in
  let id := ob_DeviceIdentifier (t_obs t) in
  if 0 <? count then
    if selectable r t && (Z.of_nat (length selected) <? count) then (selected ++ [t], named)
    else (selected, named)
  else if bool_decide (id ∈ named) && selectable r t then (selected ++ [t], named ∖ {[id]})
  else (selected, named).

Definition selectQueued (r : FirmwareRollout) (targets : list target) (sel : DeviceSelection)
    : result FleetError (list target) :=
  let named : gset string := list_to_set (SelIdentifiers sel) in
  let '(selected, named) := fold_left (select_step r (SelCount sel)) targets ([], named) in
  if negb (Nat.eqb (size named) 0) then
    Err (reason CodeFailedPrecondition
      {| Reason := ReasonDeviceNotQueued; CurrentRevision := 0;
         ErrDeviceIdentifiers := List.filter (λ id, bool_decide (id ∈ named)) (SelIdentifiers sel) |})
  else Ok selected.

(** ** The operator-facing state *)

Definition deriveState (r : FirmwareRollout) (ev : option Evidence) : string :=
  if fr_Status r == StatusCompleted then StateCompleted
  else if fr_Status r == StatusCompletedWithFailures then StateCompletedWithFailures
  else if fr_Status r == StatusCanceled then StateCanceled
  else if is_set (fr_PausedAt r) then StatePaused
  else if fr_Stage r == StageAwaitingReview then
    if bs_AutoContinue (fr_BehaviorSnapshot r)
       && match ev with Some e => is_stabilizing (EvHoldReason e) | None => false end
    then StateStabilizingTelemetry
    else if (bs_Method (fr_BehaviorSnapshot r) == MethodPilotThenContinue)
            && (fr_CurrentBatch r =? 0)
    then StatePausedAtPilotGate
    else StatePausedAtBatchReview
  else StateInProgress.
