(* ===== verification/RolloutTargetsFacts.v ===== *)
(** * Facts about the decisions of the rollout engine *)

From Stdlib Require Import Sorting.Sorted.
From S2P Require Import Prelude GoSort Float64 Errors RolloutBehavior RolloutBehaviorFacts.
From S2P Require Import RolloutStore RolloutStoreFacts RolloutTargets.
#[local] Open Scope string_scope.
#[local] Open Scope list_scope.
#[local] Open Scope Z_scope.
#[local] Open Scope go_scope.

(** ** Order of a new rollout *)

(** Efficiencies compare: a sample before none, the larger first. *)
Definition eff_less (a b : option float64) : bool :=
  match a, b with
  | Some _, None => true
  | Some x, Some y => F64.gt x y
  | None, _ => false
  end.

Definition eff_known (o : option float64) : Prop :=
  match o with Some x => F64.is_nan x = false | None => True end.

Lemma eff_less_swo : strict_weak_on eff_less eff_known.
Proof.
  split.
  - intros [x|] [y|] Hx Hy; simpl; try done. by apply f64_lt_asym.
  - intros [x|] [y|] [z|] Hx Hy Hz; simpl; try done.
    unfold F64.gt. fold (F64.lt y z) (F64.lt x y) (F64.lt x z). intros H1 H2.
    by apply (f64_lt_negtrans z y x).
Qed.

Definition member_sampled (m : MemberRow) : Prop := eff_known (mr_EfficiencyJh m).

Lemma member_less_lex a b :
  member_sampled a → member_sampled b →
  member_less a b =
  less_lex (λ a b, eff_less (mr_EfficiencyJh a) (mr_EfficiencyJh b))
    (λ a b, String.ltb (mr_DeviceIdentifier a) (mr_DeviceIdentifier b)) a b.
Proof.
  unfold member_less, less_lex, member_sampled, eff_less.
  destruct (mr_EfficiencyJh a) as [x|], (mr_EfficiencyJh b) as [y|]; simpl; try done.
  intros Hx Hy. unfold F64.ne, F64.gt. fold (F64.eq x y) (F64.lt x y) (F64.lt y x).
  destruct (F64.eq x y) eqn:E.
  - apply f64_eq_iff in E as [-> ->]; done.
  - destruct (F64.lt y x) eqn:Eyx; simpl; [done|].
    destruct (F64.lt x y) eqn:Exy; simpl; [done|].
    exfalso. assert (F64.eq x y = true) by (apply f64_eq_iff; done). congruence.
Qed.

Lemma member_less_swo : strict_weak_on member_less member_sampled.
Proof.
  eapply strict_weak_ext; [apply member_less_lex|]. apply strict_weak_lex.
  - apply (strict_weak_pull mr_EfficiencyJh eff_less eff_known eff_less_swo).
  - eapply strict_weak_weaken; [|apply (strict_weak_pull mr_DeviceIdentifier _ _ string_ltb_swo)].
    done.
Qed.

(** [a] may precede [b] in a least-efficient-first rollout. *)
Definition worst_first (a b : MemberRow) : Prop :=
  match mr_EfficiencyJh a, mr_EfficiencyJh b with
  | Some x, Some y =>
      F64.lt x y = false
      ∧ (F64.eq x y = true → String.ltb (mr_DeviceIdentifier b) (mr_DeviceIdentifier a) = false)
  | Some _, None => True
  | None, Some _ => False
  | None, None => String.ltb (mr_DeviceIdentifier b) (mr_DeviceIdentifier a) = false
  end.

Lemma not_after_worst_first a b :
  member_sampled a → member_sampled b → not_after member_less a b → worst_first a b.
Proof.
  unfold not_after, member_less, worst_first, member_sampled.
  destruct (mr_EfficiencyJh a) as [x|], (mr_EfficiencyJh b) as [y|]; simpl; try done.
  intros Hx Hy. unfold F64.ne, F64.gt. fold (F64.eq y x) (F64.lt x y).
  destruct (F64.eq y x) eqn:E; simpl.
  - apply f64_eq_iff in E as [? ?]; done.
  - intros Hlt. split; [done|]. intros Heq. apply f64_eq_iff in Heq as [? ?]; [|done..].
    exfalso. assert (F64.eq y x = true) by (apply f64_eq_iff; done). congruence.
Qed.

Lemma StronglySorted_impl_on {A} (P : A → Prop) (R1 R2 : A → A → Prop) l :
  (∀ x y, P x → P y → R1 x y → R2 x y) → Forall P l →
  StronglySorted R1 l → StronglySorted R2 l.
Proof.
  intros HR HP Hs. induction Hs as [|x l Hs IH Hall]; [constructor|].
  inversion HP; subst. constructor; [by apply IH|].
  rewrite Forall_forall in Hall |- *. rewrite Forall_forall in H2. eauto.
Qed.

Lemma swap_positions_perm {A} (l : list A) ij : swap_positions l ij ≡ₚ l.
Proof.
  unfold swap_positions. destruct ij as [i j]; simpl.
  destruct (l !! i) as [x|] eqn:Ei; [|done]. destruct (l !! j) as [y|] eqn:Ej; [|done].
  by apply Permutation_insert_swap.
Qed.

Lemma fold_swap_perm {A} (swaps : list (nat * nat)) (l : list A) :
  fold_left swap_positions swaps l ≡ₚ l.
Proof.
  revert l. induction swaps as [|ij swaps IH]; intros l; simpl; [done|].
  by rewrite IH, swap_positions_perm.
Qed.

(** Whatever the order, the rollout works through exactly its members. *)
Lemma orderMembers_perm shuffle rows order :
  orderMembers shuffle rows order ≡ₚ map mr_DeviceID rows.
Proof.
  unfold orderMembers. apply fmap_Permutation.
  case_if; [apply fold_swap_perm|apply stable_sort_perm].
Qed.

(** Unless the order is random, a rollout works through a permutation of its members that is
    sorted least efficient first, ties by identifier, miners without a sample last. *)
Theorem orderMembers_worst_first shuffle rows order :
  order ≠ OrderRandom → Forall member_sampled rows →
  ∃ sorted, orderMembers shuffle rows order = map mr_DeviceID sorted
    ∧ sorted ≡ₚ rows ∧ StronglySorted worst_first sorted.
Proof.
  intros Ho Hs. exists (stable_sort member_less rows). split_and!.
  - unfold orderMembers. by rewrite bool_decide_false.
  - apply stable_sort_perm.
  - apply (StronglySorted_impl_on member_sampled (not_after member_less)).
    + apply not_after_worst_first.
    + by rewrite stable_sort_perm.
    + eapply stable_sort_sorted; [apply member_less_swo|done].
Qed.

(** ** Batches *)

Lemma batch_loop_spec fuel size start ordered :
  (1 <= size)%nat → (length ordered <= start + fuel)%nat →
  ∃ batches, batch_loop fuel size start ordered = Some batches
    ∧ concat batches = drop start ordered
    ∧ Forall (λ b, 1 <= length b <= size)%nat batches
    ∧ ∀ i b, batches !! i = Some b → b = take size (drop (start + i * size) ordered).
Proof.
  intros Hsize. revert start. induction fuel as [|fuel IH]; intros start Hf; simpl.
  - destruct (start <? length ordered)%nat eqn:E; [apply Nat.ltb_lt in E; lia|].
    exists []. split_and!; [done|by rewrite drop_ge by lia|constructor|done].
  - destruct (start <? length ordered)%nat eqn:E.
    + apply Nat.ltb_lt in E. destruct (IH (start + size)%nat) as (bs & -> & Hc & Hl & Hi); [lia|].
      set (b := take _ _).
      assert (b = take size (drop start ordered)) as Hb.
      { unfold b. destruct (decide (start + size <= length ordered)%nat).
        - f_equal. lia.
        - rewrite !take_ge; rewrite ?length_drop; [done|lia..]. }
      exists (b :: bs). split_and!; [done| | |].
      * simpl. rewrite Hc, Hb, <- drop_drop. apply take_drop.
      * constructor; [|done]. rewrite Hb, length_take, length_drop. lia.
      * intros [|i] b'; simpl.
        -- intros [= <-]. by rewrite Nat.add_0_r.
        -- intros Hb'. rewrite (Hi i b' Hb'). do 2 f_equal. lia.
    + apply Nat.ltb_ge in E. exists [].
      split_and!; [done|by rewrite drop_ge by lia|constructor|done].
Qed.

(** The size of a stage's batches under a behaviour. *)
Definition batch_limit (b : Behavior) : Z :=
  if Method b == MethodPilotThenContinue then PilotSize b else BatchSize b.

(** Under a valid behaviour the batching loop returns, and its batches with the
    rest are the members in order. *)
Lemma split_batches_spec b ordered :
  behavior_valid b → ordered ≠ [] →
  ∃ batches rest, split_batches b ordered = Some (batches, rest)
    ∧ concat batches ++ rest = ordered
    ∧ Forall (λ l, l ≠ [] ∧ Z.of_nat (length l) <= batch_limit b) batches
    ∧ (Method b = MethodBatched → rest = [] ∧
         ∀ i l, batches !! i = Some l →
           l = take (Z.to_nat (BatchSize b)) (drop (i * Z.to_nat (BatchSize b)) ordered))
    ∧ (Method b = MethodAllAtOnce ∨ Method b = MethodDelegated ↔ batches = []).
Proof.
  intros (_ & Hm & _) Hne. unfold split_batches, batch_limit.
  assert (0 < length ordered)%nat by (destruct ordered; [done|simpl; lia]).
  destruct Hm as [Hm|[[Hm Hs]|[(Hm & Hs & _)|Hm]]]; rewrite Hm; simpl.
  - exists [], ordered. naive_solver.
  - destruct (batch_loop_spec (length ordered) (Z.to_nat (BatchSize b)) 0 ordered)
      as (bs & -> & Hc & Hl & Hi); [lia..|]. simpl.
    exists bs, []. split_and!; [done|by rewrite app_nil_r| |naive_solver|].
    + eapply Forall_impl; [done|]. intros l Hb. cbv beta in Hb |- *.
      destruct Hb as [Hb1 Hb2]. split; [intros ->; simpl in Hb1; lia|lia].
    + split; [naive_solver|]. intros ->. by destruct ordered.
  - eexists _, _. split_and!; [done|simpl; rewrite app_nil_r; apply take_drop| |done|naive_solver].
    repeat constructor.
    + destruct ordered; [done|]. destruct (Z.to_nat (PilotSize b)) eqn:E; [lia|]. by simpl.
    + rewrite length_take. lia.
  - exists [], ordered. naive_solver.
Qed.

(** ** The stage clock *)

(** The exact clock: no saturation or wrap occurs while the stage is younger
    than the range of a Duration. *)
Lemma stageElapsed_exact now r :
  let until := default now (fr_PausedAt r) in
  0 <= fr_StagePausedMicroseconds r →
  until - fr_StageChangedAt r < 2 ^ 63 →
  fr_StagePausedMicroseconds r * Microsecond <= until - fr_StageChangedAt r →
  stageElapsed now r
  = until - fr_StageChangedAt r - fr_StagePausedMicroseconds r * Microsecond.
Proof.
  unfold stageElapsed, Microsecond. simpl. set (u := default now _). intros Hp Hf Hle.
  rewrite time_Sub_exact by (unfold fits64; lia).
  destruct (Z.leb_spec (u - fr_StageChangedAt r) 0); simpl; [lia|].
  rewrite Z.quot_div_nonneg by lia.
  destruct (Z.ltb_spec ((u - fr_StageChangedAt r) / 1000) (fr_StagePausedMicroseconds r)) as [H'|H'].
  - apply (Z.mul_lt_mono_pos_l 1000) in H'; [|lia].
    pose proof (Z.mul_succ_div_gt (u - fr_StageChangedAt r) 1000 ltac:(lia)). lia.
  - rewrite int64_id by (unfold fits64; lia). done.
Qed.

(** Elapsed time is never negative, whatever the clocks did. *)
Lemma stageElapsed_nonneg now r : 0 <= fr_StagePausedMicroseconds r → 0 <= stageElapsed now r.
Proof.
  unfold stageElapsed, Microsecond. intros Hp.
  set (e := time_Sub _ _). assert (e <= maxDuration) by (unfold e, time_Sub, minDuration, maxDuration; lia).
  destruct (Z.leb_spec e 0); simpl; [lia|]. rewrite Z.quot_div_nonneg by lia.
  destruct (Z.ltb_spec (e / 1000) (fr_StagePausedMicroseconds r)) as [|Hle]; [lia|].
  assert (fr_StagePausedMicroseconds r * 1000 <= e).
  { pose proof (Z.mul_div_le e 1000 ltac:(lia)). lia. }
  unfold maxDuration in *. rewrite int64_id by (unfold fits64; lia). lia.
Qed.

(** Pausing a rollout freezes its stage clock and resuming it continues from where the pause
    found it: stage timers count active time only. *)
Theorem stage_clock_excludes_pause db id r actor actor' q now :
  db_rollouts db !! id = Some r → fr_Status r = StatusActive → fr_PausedAt r = None →
  0 <= fr_StagePausedMicroseconds r →
  fr_StagePausedMicroseconds r * Microsecond <= db_clock db - fr_StageChangedAt r →
  fr_CreatedAt r <= db_clock db →
  (q - db_clock db) mod Microsecond = 0 → db_clock db <= q <= now →
  now - fr_StageChangedAt r < 2 ^ 63 →
  ∃ db1 r1 db2 r2,
    PauseFirmwareRollout id actor db = (1, db1)
    ∧ ResumeFirmwareRollout id actor' (db1 <| db_clock := q |>) = (1, db2)
    ∧ db_rollouts db1 !! id = Some r1 ∧ db_rollouts db2 !! id = Some r2
    ∧ stageElapsed now r1 = stageElapsed (db_clock db) r
    ∧ stageElapsed now r2 = stageElapsed (db_clock db) r + (now - q).
Proof.
  intros Hr Hs Hp Hn Hle Hc Hq Hnow Hfit. unfold PauseFirmwareRollout, ResumeFirmwareRollout.
  rewrite (exec_rollout_hit _ _ _ _ _ Hr) by (by rewrite Hs, Hp).
  set (r1 := bump_revision db _).
  exists (db <| db_rollouts := <[id := r1]> (db_rollouts db) |>), r1.
  assert (fr_PausedAt r1 = Some (db_clock db)) as Hp1.
  { unfold r1. autorewrite with rollout. simpl. f_equal. unfold Microsecond in *. lia. }
  assert (fr_Status r1 = StatusActive ∧ fr_StageChangedAt r1 = fr_StageChangedAt r
    ∧ fr_StagePausedMicroseconds r1 = fr_StagePausedMicroseconds r) as (Hs1 & Hc1 & Hm1).
  { unfold r1. autorewrite with rollout. simpl. done. }
  clearbody r1.
  erewrite exec_rollout_hit; [|simpl; by rewrite lookup_insert_eq|by rewrite Hs1, Hp1].
  set (r2 := bump_revision _ _). eexists _, r2.
  assert (fr_PausedAt r2 = None ∧ fr_StageChangedAt r2 = fr_StageChangedAt r
    ∧ fr_StagePausedMicroseconds r2
      = fr_StagePausedMicroseconds r + (q - db_clock db) / Microsecond) as (Hp2 & Hc2 & Hm2).
  { unfold r2. autorewrite with rollout. simpl. rewrite Hp1, Hc1, Hm1. simpl.
    rewrite Z.max_l by lia. done. }
  clearbody r2. split_and!; [done..|simpl; by rewrite lookup_insert_eq
    |simpl; by rewrite lookup_insert_eq| |].
  - rewrite (stageElapsed_exact now r1), (stageElapsed_exact (db_clock db) r);
      rewrite ?Hp, ?Hp1, ?Hc1, ?Hm1; simpl; lia.
  - apply Z.div_exact in Hq; [|done]. unfold Microsecond in *.
    rewrite (stageElapsed_exact now r2), (stageElapsed_exact (db_clock db) r);
      rewrite ?Hp, ?Hp2, ?Hc2, ?Hm2; simpl; unfold Microsecond; lia.
Qed.

(** * The review gate is sound and total

    [evaluate] never dereferences a missing sample, and it lets a rollout
    continue on its own only when every miner under review is excluded,
    skipped, or verified, back online and hashing as before, no limit is
    exceeded and the stabilization time has passed. *)

(** ** Counting *)

Definition count {A} (p : A → bool) (l : list A) : Z := Z.of_nat (length (List.filter p l)).

Lemma count_nil {A} (p : A → bool) : count p [] = 0.
Proof. done. Qed.

Lemma count_snoc {A} (p : A → bool) l x :
  count p (l ++ [x]) = count p l + (if p x then 1 else 0).
Proof.
  unfold count. rewrite List.filter_app, length_app. simpl. destruct (p x); simpl; lia.
Qed.

Lemma count_bounds {A} (p : A → bool) l : 0 <= count p l <= Z.of_nat (length l).
Proof. unfold count. pose proof (filter_length_le p l). lia. Qed.

Lemma count_zero {A} (p : A → bool) l : count p l <= 0 → ∀ x, x ∈ l → p x = false.
Proof.
  unfold count. intros H x Hx. destruct (p x) eqn:E; [|done].
  assert (In x (List.filter p l)) as Hin by (apply filter_In; by rewrite <- list_elem_of_In).
  destruct (List.filter p l); [done|]. simpl in H. lia.
Qed.

Lemma count_full {A} (p : A → bool) l : Z.of_nat (length l) <= count p l → ∀ x, x ∈ l → p x = true.
Proof.
  induction l as [|y l IH]; intros H x Hx; [by apply elem_of_nil in Hx|].
  unfold count in *. simpl in H. pose proof (filter_length_le p l) as Hle.
  destruct (p y) eqn:E; simpl in H; [|lia].
  apply elem_of_cons in Hx as [->|Hx]; [done|]. apply IH; [lia|done].
Qed.

(** ** What the loop counts *)

Definition neutral (t : target) : bool := excluded t || skipped t.
Definition counted (p : target → bool) (t : target) : bool := negb (neutral t) && p t.

(** A verified miner that must still recover hashing. *)
Definition idle (t : target) : bool :=
  online t && negb (hashing t) && (negb (is_set (dr_BaselineAt (t_row t))) || baselineHashing t).

Definition tally_ok (a : Tally) (scope : list target) : Prop :=
  ty_Excluded a = count excluded scope
  ∧ ty_Skipped a = count (λ t, negb (excluded t) && skipped t) scope
  ∧ ty_Verified a = count (counted verified) scope
  ∧ ty_Failed a = count (counted failed) scope
  ∧ ty_offline a = count (counted (λ t, verified t && negb (online t))) scope
  ∧ ty_notHashing a = count (counted (λ t, verified t && idle t)) scope.

Lemma tally_target_fields a t :
  let b := tally_target a t in
  ty_Excluded b = (if excluded t then int32 (ty_Excluded a + 1) else ty_Excluded a)
  ∧ ty_Skipped b = (if negb (excluded t) && skipped t then int32 (ty_Skipped a + 1) else ty_Skipped a)
  ∧ ty_Verified b = (if counted verified t then int32 (ty_Verified a + 1) else ty_Verified a)
  ∧ ty_Failed b = (if counted failed t then int32 (ty_Failed a + 1) else ty_Failed a)
  ∧ ty_offline b = (if counted (λ t, verified t && negb (online t)) t then ty_offline a + 1 else ty_offline a)
  ∧ ty_notHashing b = (if counted (λ t, verified t && idle t) t then ty_notHashing a + 1 else ty_notHashing a).
Proof.
  unfold tally_target, counted, neutral, idle, incr_if.
  destruct (excluded t); simpl; [done|]. destruct (skipped t); simpl; [done|].
  unfold tally_verified. destruct (verified t); simpl; done.
Qed.

Lemma tally_snoc scope t : tally (scope ++ [t]) = tally_target (tally scope) t.
Proof. unfold tally. by rewrite fold_left_app. Qed.

Lemma tally_spec scope : Z.of_nat (length scope) < 2 ^ 31 → tally_ok (tally scope) scope.
Proof.
  induction scope as [|t scope IH] using rev_ind; intros Hlen.
  { unfold tally_ok. by rewrite !count_nil. }
  rewrite length_app in Hlen. simpl in Hlen. destruct IH as (H1 & H2 & H3 & H4 & H5 & H6); [lia|].
  rewrite tally_snoc. pose proof (tally_target_fields (tally scope) t) as (T1 & T2 & T3 & T4 & T5 & T6).
  assert (∀ p : target → bool, int32 (count p scope + 1) = count p scope + 1) as Hw.
  { intros p. apply int32_id. unfold fits32. pose proof (count_bounds p scope). lia. }
  unfold tally_ok. rewrite T1, T2, T3, T4, T5, T6, H1, H2, H3, H4, H5, H6, !count_snoc, !Hw.
  split_and!; match goal with |- (if ?b then _ else _) = _ => destruct b end; lia.
Qed.

(** The three neutral or done classes are disjoint, so their counts add up to
    the members of their union. *)
Lemma count_classes scope :
  count excluded scope + count (λ t, negb (excluded t) && skipped t) scope
    + count (counted verified) scope
  = count (λ t, neutral t || verified t) scope.
Proof.
  induction scope as [|t scope IH] using rev_ind; [done|]. rewrite !count_snoc.
  unfold counted, neutral in *. destruct (excluded t), (skipped t), (verified t); simpl; lia.
Qed.

(** ** Samples behind a covered aggregate *)

Lemma covered_temperature th scope :
  covered th (measured scope) (EvTempC (measured scope)) = true →
  TemperatureChangeC (measured scope) ≠ None.
Proof.
  unfold covered, measured. simpl. unfold ma_mean. destruct (ma_n _ =? 0); simpl; [done|].
  done.
Qed.

(** The gate never dereferences a missing sample. *)
Lemma judge_thresholds_total now r scope :
  judge_thresholds now r (measured scope) ≠ None.
Proof.
  unfold judge_thresholds. set (th := BThresholds _).
  assert (judge_errors now r th (measured scope) ≠ None) as He.
  { unfold judge_errors. destruct (MaxNewErrors th); [by case_if|done]. }
  assert (judge_temperature now r th (measured scope) ≠ None) as Ht.
  { unfold judge_temperature. destruct (MaxTempIncreaseC th); [|done]. case_if; [done|].
    destruct (TemperatureChangeC _) eqn:Et; [simpl; by case_if|].
    by destruct (covered_temperature th scope E). }
  assert (judge_efficiency now r th (measured scope) ≠ None) as Hf.
  { unfold judge_efficiency. destruct (MaxEfficiencyIncreasePercent th); [|done].
    case_if; [done|]. destruct (EfficiencyChangePercent _); simpl; [by case_if|done]. }
  unfold judge_hashrate. destruct (MaxHashrateDropPercent th); [|done].
  case_if; [done|]. destruct (HashrateChangePercent _); simpl; [by case_if|done].
Qed.

(** The gate evaluation never dereferences a missing sample: it returns evidence for every
    rollout and scope. *)
Theorem evaluate_total now r scope : ∃ ev, evaluate now r scope = Some ev.
Proof.
  enough (evaluate now r scope ≠ None) as H.
  { destruct (evaluate now r scope); [eauto|done]. }
  unfold evaluate. repeat (case_if; [done|]). apply judge_thresholds_total.
Qed.

(** ** What a ready gate guarantees *)

(** A limit is respected: it is unset, or its metric was sampled on enough
    verified miners and the change it bounds is within it. *)
Definition within_limits (th : Thresholds) (ev : Evidence) : Prop :=
  (∀ lim, MaxHashrateDropPercent th = Some lim →
     covered th ev (EvHashRateHs ev) = true ∧
     ∃ c, HashrateChangePercent ev = Some c ∧ F64.lt c (F64.opp lim) = false)
  ∧ (∀ lim, MaxEfficiencyIncreasePercent th = Some lim →
     covered th ev (EvEfficiencyJh ev) = true ∧
     ∃ c, EfficiencyChangePercent ev = Some c ∧ F64.gt c lim = false)
  ∧ (∀ lim, MaxTempIncreaseC th = Some lim →
     covered th ev (EvTempC ev) = true ∧
     ∃ c, TemperatureChangeC ev = Some c ∧ F64.gt c lim = false)
  ∧ (∀ lim, MaxNewErrors th = Some lim → NewErrors ev <= lim).

Definition stabilized (now : Z) (r : FirmwareRollout) : Prop :=
  let stab := bs_StabilizationSeconds (fr_BehaviorSnapshot r) in
  stab <= 0 ∨ stab * Second <= stageElapsed now r.

Lemma judge_stabilization_ready now r ev :
  ReadyToAdvance (judge_stabilization now r ev) = true → ReadyToAdvance ev = false →
  stabilized now r.
Proof.
  unfold judge_stabilization, stabilized. destruct (_ && _) eqn:E; simpl; [congruence|].
  intros _ _. apply andb_false_iff in E as [E|E]; crush_bools; [by left|right; lia].
Qed.

Lemma judge_errors_ready now r th ev ev' :
  judge_errors now r th ev = Some ev' → ReadyToAdvance ev = false → ReadyToAdvance ev' = true →
  stabilized now r ∧ (∀ lim, MaxNewErrors th = Some lim → NewErrors ev <= lim).
Proof.
  unfold judge_errors. intros H Hev Hr.
  destruct (MaxNewErrors th); [destruct (_ <? _) eqn:E; crush_bools|];
    simplify_eq/=; [congruence| |];
    (split; [by apply (judge_stabilization_ready now r ev)|]); intros; simplify_eq; lia.
Qed.

Lemma judge_temperature_ready now r th ev ev' :
  judge_temperature now r th ev = Some ev' → ReadyToAdvance ev = false → ReadyToAdvance ev' = true →
  judge_errors now r th ev = Some ev'
  ∧ (∀ lim, MaxTempIncreaseC th = Some lim → covered th ev (EvTempC ev) = true ∧
     ∃ c, TemperatureChangeC ev = Some c ∧ F64.gt c lim = false).
Proof.
  unfold judge_temperature. intros H Hev Hr. destruct (MaxTempIncreaseC th); [|by split].
  destruct (covered _ _ _) eqn:Ec; simpl in H; [|simplify_eq/=; congruence].
  destruct (TemperatureChangeC ev) eqn:Et; simpl in H; [|done].
  destruct (F64.gt _ _) eqn:Eg; simplify_eq/=; [congruence|].
  split; [done|]. intros; simplify_eq; eauto.
Qed.

Lemma judge_efficiency_ready now r th ev ev' :
  judge_efficiency now r th ev = Some ev' → ReadyToAdvance ev = false → ReadyToAdvance ev' = true →
  judge_temperature now r th ev = Some ev'
  ∧ (∀ lim, MaxEfficiencyIncreasePercent th = Some lim → covered th ev (EvEfficiencyJh ev) = true ∧
     ∃ c, EfficiencyChangePercent ev = Some c ∧ F64.gt c lim = false).
Proof.
  unfold judge_efficiency. intros H Hev Hr.
  destruct (MaxEfficiencyIncreasePercent th); [|by split].
  destruct (covered _ _ _) eqn:Ec; simpl in H; [|simplify_eq/=; congruence].
  destruct (EfficiencyChangePercent ev) eqn:Et; simpl in H; [|simplify_eq/=; congruence].
  destruct (F64.gt _ _) eqn:Eg; simplify_eq/=; [congruence|].
  split; [done|]. intros; simplify_eq; eauto.
Qed.

Lemma judge_thresholds_ready now r ev ev' :
  judge_thresholds now r ev = Some ev' → ReadyToAdvance ev = false → ReadyToAdvance ev' = true →
  within_limits (BThresholds (behaviorFromSnapshot (fr_BehaviorSnapshot r))) ev ∧ stabilized now r.
Proof.
  unfold judge_thresholds, within_limits, judge_hashrate. set (th := BThresholds _).
  intros H Hev Hr.
  enough (judge_efficiency now r th ev = Some ev'
    ∧ (∀ lim, MaxHashrateDropPercent th = Some lim → covered th ev (EvHashRateHs ev) = true ∧
       ∃ c, HashrateChangePercent ev = Some c ∧ F64.lt c (F64.opp lim) = false)) as [He Hh].
  { apply judge_efficiency_ready in He as [Ht He]; [|done..].
    apply judge_temperature_ready in Ht as [Hn Ht]; [|done..].
    apply judge_errors_ready in Hn as [Hs Hn]; [|done..]. done. }
  destruct (MaxHashrateDropPercent th); [|by split].
  destruct (covered _ _ _) eqn:Ec; simpl in H; [|simplify_eq/=; congruence].
  destruct (HashrateChangePercent ev) eqn:Et; simpl in H; [|simplify_eq/=; congruence].
  destruct (F64.lt _ _) eqn:Eg; simplify_eq/=; [congruence|].
  split; [done|]. intros; simplify_eq; eauto.
Qed.

(** A miner that may be left behind by an automatic advance. *)
Definition recovered (t : target) : Prop :=
  verified t = true ∧ failed t = false ∧ online t = true
  ∧ (hashing t = true ∨ dr_BaselineAt (t_row t) ≠ None ∧ baselineHashing t = false).

Lemma evaluate_ready now r scope ev :
  Z.of_nat (length scope) < 2 ^ 31 →
  evaluate now r scope = Some ev → ReadyToAdvance ev = true →
  fr_Status r = StatusActive ∧ fr_PausedAt r = None
  ∧ bs_AutoContinue (fr_BehaviorSnapshot r) = true
  ∧ (∀ t, t ∈ scope → excluded t = false → skipped t = false → recovered t)
  ∧ within_limits (BThresholds (behaviorFromSnapshot (fr_BehaviorSnapshot r))) (measured scope)
  ∧ stabilized now r.
Proof.
  intros Hlen Hev Hr. unfold evaluate in Hev.
  destruct (tally_spec scope Hlen) as (T1 & T2 & T3 & T4 & T5 & T6).
  pose proof (count_classes scope) as Hcls.
  pose proof (count_bounds (λ t, neutral t || verified t) scope) as Hb.
  repeat match type of Hev with
  | (if ?b then _ else _) = _ =>
      let E := fresh "E" in destruct b eqn:E; [simplify_eq/=; congruence|]; crush_bools
  end.
  destruct (judge_thresholds_ready now r (measured scope) ev Hev eq_refl Hr) as [Hlim Hst].
  simpl in *. rewrite T1, T2, T3 in *.
  rewrite !int32_id in * by (unfold fits32; lia).
  assert (∀ t, t ∈ scope → neutral t || verified t = true) as Hall by (apply count_full; lia).
  split_and!; [done|by destruct (fr_PausedAt r)|done| |done|done].
  intros t Ht Hx Hs. specialize (Hall t Ht). unfold neutral in Hall. rewrite Hx, Hs in Hall. simpl in Hall.
  pose proof (count_zero (counted failed) scope ltac:(lia) t Ht) as Hf.
  pose proof (count_zero (counted (λ t, verified t && negb (online t))) scope ltac:(lia) t Ht) as Ho.
  pose proof (count_zero (counted (λ t, verified t && idle t)) scope ltac:(lia) t Ht) as Hi.
  unfold counted, neutral, idle in *. rewrite Hx, Hs, Hall in *. simpl in *.
  apply negb_false_iff in Ho. rewrite Ho in Hi. unfold recovered. split_and!; [done..|].
  destruct (hashing t); [by left|right]. simpl in Hi.
  apply orb_false_iff in Hi as [Hb1 ->]. destruct (dr_BaselineAt (t_row t)); done.
Qed.
