(* ===== verification/RolloutEngine.v ===== *)
(** * The rollout engine

    The stateful half of [internal/domain/rollout]: locking and the revision
    rule, events, creation of a rollout, membership, provenance and convergence,
    dispatch and the progress of a stage. An operation is a computation over the
    tables that returns a value or stops with a fault; a transaction that stops
    leaves the tables as they were.

    The services the engine only calls (the command service, the firmware files
    service, the clock, the random source) and the queries over tables it never
    writes are the fields of [Env]. *)

From S2P Require Import Prelude GoSort Float64 Errors RolloutBehavior RolloutStore RolloutTargets.
#[local] Open Scope string_scope.
#[local] Open Scope list_scope.
#[local] Open Scope Z_scope.
#[local] Open Scope go_scope.

Definition CancelReasonSuperseded := "superseded".
Definition CancelReasonRolledBack := "rolled_back".
Definition CancelReasonCleared := "cleared".
Definition ReasonStaleRevision := "stale_revision".
Definition ReasonStaleGeneration := "stale_generation".
Definition ReasonNotActive := "not_active".
Definition ReasonNotAtGate := "not_at_gate".
Definition ReasonNotDelegated := "not_delegated".
Definition ReasonPaused := "paused".
Definition ReasonOfflineBudgetFull := "offline_budget_full".
Definition ReasonArtifactMissing := "artifact_missing".
Definition ReasonRolloutActive := "rollout_active".
Definition ReasonUpdatesInFlight := "updates_in_flight".
Definition ReasonDeviceNotDispatchable := "device_not_dispatchable".

Definition EventRolloutStarted := "rollout_started".
Definition EventRolloutReviewReady := "rollout_review_ready".
Definition EventRolloutContinued := "rollout_continued".
Definition EventRolloutPaused := "rollout_paused".
Definition EventRolloutResumed := "rollout_resumed".
Definition EventRolloutCanceled := "rollout_canceled".
Definition EventRolloutCompleted := "rollout_completed".
Definition EventRolloutCompletedWithFailures := "rollout_completed_with_failures".
Definition EventRolloutRetried := "rollout_retried".
Definition EventRolloutAdvanced := "rollout_advanced".
Definition EventRolloutDevicesSkipped := "rollout_devices_skipped".
Definition EventRolloutDeviceFailed := "rollout_device_failed".
Definition EventRolloutControllerTimedOut := "rollout_controller_timed_out".

(** ** Operations *)

(** How an operation that does not return a value ends: with an error, with a
    panic, or never. *)
Inductive Fault := Returned (e : FleetError) | Panicked | Diverged.

Notation Op := (M DB Fault).

Definition throw {A} (e : FleetError) : Op A := fail (Returned e).
Definition precondition {A} (why : string) : Op A :=
  throw (reason CodeFailedPrecondition
    {| Reason := why; CurrentRevision := 0; ErrDeviceIdentifiers := [] |}).
Definition precondition_on {A} (why : string) (ids : list string) : Op A :=
  throw (reason CodeFailedPrecondition
    {| Reason := why; CurrentRevision := 0; ErrDeviceIdentifiers := ids |}).

Definition liftR {A} (r : result FleetError A) : Op A :=
  match r with Ok a => mret a | Err e => throw e end.

(** A statement that returns a value. *)
Definition query {A} (f : DB → A * DB) : Op A := λ db, let '(a, db') := f db in (Ok a, db').

(** A transaction runs under an id of its own. *)
Definition Tx {A} (body : Op A) : Op A :=
  RunInTx (modify (λ db, db <| db_txid := db_txid db + 1 |>);; body).

(** An operation whose error is logged and dropped. *)
Definition try {A} (m : Op A) : Op (option A) := λ db,
  match m db with (Ok a, db') => (Ok (Some a), db') | (Err _, db') => (Ok None, db') end.

(** ** The services the engine calls *)

Record MismatchedParams := {
  mp_OrgID : Z; mp_ChannelID : Z; mp_Manufacturer : string; mp_Model : string;
  mp_FirmwareVersion : string; mp_FirmwareChecksum : string;
  mp_AssignedFileIds : list string; mp_AssignmentGeneration : Z; mp_RolloutID : Z
}.

(** What the engine asks of the command service: the devices, the artifact and
    the metadata of the assignment, on behalf of its owner. *)
Record FirmwareCommand := {
  fc_OwnerUserID : Z; fc_OrgID : Z; fc_Identifiers : list string; fc_Checksum : string;
  fc_TargetManufacturer : string; fc_TargetModel : string; fc_FirmwareVersion : string
}.

Record CommandResult := { BatchIdentifier : string; DispatchedDeviceIdentifiers : list string }.

(** An uploaded firmware payload and the metadata of its sidecar. *)
Record FirmwareArtifact := {
  fa_FileID : string; fa_Checksum : string; fa_TargetManufacturer : string;
  fa_TargetModel : string; fa_FirmwareVersion : string
}.

Class Env := {
  now : Z;
  shuffle : nat → list (nat * nat);
  FirmwareFileIDsByChecksum : string → list string;
  FindFirmwareFileIDByChecksum : string → option string;
  FindCachedFirmwareFileIDByChecksum : string → option string;
  PinFirmwareArtifact : string → bool;
  ResolveFirmwareArtifact : string → result FleetError FirmwareArtifact;
  FirmwareUpdateArtifact : FirmwareCommand → DB → result FleetError CommandResult * World;
  ListReleaseChannelMismatchedMembers : MismatchedParams → DB → list MemberRow;
  ListReleaseChannelSuppressedMembers : Z → Z → string → string → Z → DB → list MemberRow;
  CountReleaseChannelFirmwarePreviewMembers : MismatchedParams → DB → Z * Z;
  ListReleaseChannelFirmwareNeedingRollout : DB → list (Z * ReleaseChannelFirmware);
  ListTerminalFirmwareRolloutsNeedingProvenance : DB → list FirmwareRollout
}.

Section Engine.
Context `{Env}.

(** ** Lookups *)

Definition rolloutLookupError : FleetError := NewNotFoundError.
Definition channelLookupError : FleetError := NewNotFoundError.

Definition GetFirmwareRollout (org rid : Z) : Op FirmwareRollout := λ db,
  match db_rollouts db !! rid with
  | Some r => if fr_OrgID r =? org then (Ok r, db) else (Err (Returned rolloutLookupError), db)
  | None => (Err (Returned rolloutLookupError), db)
  end.

Definition GetReleaseChannel (org cid : Z) : Op ReleaseChannel := λ db,
  match db_channels db !! cid with
  | Some c => if rc_OrgID c =? org then (Ok c, db) else (Err (Returned channelLookupError), db)
  | None => (Err (Returned channelLookupError), db)
  end.

(** [lockRollout]: the row and its channel's name, under the revision rule. *)
Definition lockRollout (org rid expectedRevision : Z) : Op (FirmwareRollout * string) :=
  row ← GetFirmwareRollout org rid;
  if negb (expectedRevision =? 0) && negb (fr_Revision row =? expectedRevision) then
    throw (reason CodeFailedPrecondition {| Reason := ReasonStaleRevision;
             CurrentRevision := fr_Revision row; ErrDeviceIdentifiers := [] |})
  else
    channel ← GetReleaseChannel org (fr_ChannelID row);
    mret (row, rc_Name channel).

Definition listTargets (r : FirmwareRollout) : Op (list target) :=
  gets (λ db, list_targets (FirmwareFileIDsByChecksum (fr_FirmwareChecksum r)) db r).

(** ** Events *)

Record Extra := { x_actor : option Actor; x_note : string; x_identifiers : list string }.

Definition no_extra : Extra := {| x_actor := None; x_note := ""; x_identifiers := [] |}.
Definition extra_ids (ids : list string) : Extra :=
  {| x_actor := None; x_note := ""; x_identifiers := ids |}.

(** The batches of the event loop, at most a thousand identifiers each. The
    fuel is the number of identifiers. *)
Fixpoint event_batches (fuel : nat) (identifiers : list string) : list (list string) :=
  let size := Nat.min (length identifiers) 1000 in
  take size identifiers ::
  (if Nat.eqb size (length identifiers) then []
   else match fuel with
        | O => []
        | S fuel => event_batches fuel (drop size identifiers)
        end).

Definition persistRolloutEvent (r : FirmwareRollout) (eventType : string) (system : bool)
    (x : Extra) : Op unit :=
  current ← GetFirmwareRollout (fr_OrgID r) (fr_ID r);
  let actor := if system then SystemActor else default (fr_LastActionBy current) (x_actor x) in
  modify (λ db, fold_left (λ db batch,
      CreateFirmwareRolloutEvent (fr_ID r) eventType actor (x_note x) batch db)
    (event_batches (length (x_identifiers x)) (x_identifiers x)) db).

(** The activity log, when there is one, receives a copy outside the tables. *)
Definition logRolloutEvent (r : FirmwareRollout) (eventType : string) (system : bool)
    (x : Extra) : Op unit :=
  persistRolloutEvent r eventType system x.

Definition setControllerWait (rid : Z) (waiting : option Z) : Op unit :=
  modify (SetFirmwareRolloutControllerWait rid waiting).

Record Mutation := { MActor : Actor; ExpectedRevision : Z; Note : string }.

Definition mextra (m : Mutation) (ids : list string) : Extra :=
  {| x_actor := Some (MActor m); x_note := Note m; x_identifiers := ids |}.

(** ** Stage changes *)

Definition transition (r : FirmwareRollout) (from to : string) : Op FirmwareRollout :=
  changed ← query (AdvanceFirmwareRolloutStage (fr_ID r) from to (fr_CurrentBatch r)
    (fr_StageChangedAt r) (fr_StagePausedMicroseconds r) None);
  match changed with
  | None => precondition ReasonNotAtGate
  | Some at_ => mret (r <| fr_Stage := to |> <| fr_StageChangedAt := at_ |>
                        <| fr_StagePausedMicroseconds := 0 |>)
  end.

Definition advance (row : FirmwareRollout) (from : string) (m : option Mutation)
    : Op FirmwareRollout :=
  if is_set (fr_PausedAt row) then precondition ReasonPaused
  else
    let next := int32 (fr_CurrentBatch row + 1) in
    let '(stage, batch) := if next <? fr_BatchCount row then (StageBatch, next)
                           else (StageRest, fr_CurrentBatch row) in
    changed ← query (AdvanceFirmwareRolloutStage (fr_ID row) from stage batch
      (fr_StageChangedAt row) (fr_StagePausedMicroseconds row) (MActor <$> m));
    match changed with
    | None => precondition ReasonNotAtGate
    | Some at_ => mret (row <| fr_Stage := stage |> <| fr_CurrentBatch := batch |>
                          <| fr_StageChangedAt := at_ |> <| fr_StagePausedMicroseconds := 0 |>)
    end.

(** ** Creation *)

Record rolloutSpec := {
  sp_OrgID : Z; sp_ChannelID : Z; sp_Pair : PairKey;
  sp_FirmwareChecksum : string; sp_FirmwareVersion : string;
  sp_PreviousFirmwareChecksum : string; sp_PreviousFirmwareVersion : string;
  sp_AssignmentGeneration : Z; sp_Actor : Actor; sp_Behavior : Behavior;
  sp_Members : option (list MemberRow)
}.

Definition mismatchedParams (spec : rolloutSpec) (rid : Z) : MismatchedParams :=
  {| mp_OrgID := sp_OrgID spec; mp_ChannelID := sp_ChannelID spec;
     mp_Manufacturer := Manufacturer (sp_Pair spec); mp_Model := Model (sp_Pair spec);
     mp_FirmwareVersion := sp_FirmwareVersion spec;
     mp_FirmwareChecksum := sp_FirmwareChecksum spec;
     mp_AssignedFileIds := FirmwareFileIDsByChecksum (sp_FirmwareChecksum spec);
     mp_AssignmentGeneration := sp_AssignmentGeneration spec; mp_RolloutID := rid |}.

(** The snapshot loop over the batches, then the rest: positions run on. *)
Fixpoint snapshot_batches (rid : Z) (index : Z) (offset : Z) (batches : list (list Z)) (db : DB)
    : Z * DB :=
  match batches with
  | [] => (offset, db)
  | batch :: rest =>
      snapshot_batches rid (index + 1) (offset + Z.of_nat (length batch)) rest
        (SnapshotFirmwareRolloutDevices rid batch (Some (int32 index)) (int32 offset) db)
  end.

Definition startRollout (spec : rolloutSpec) : Op (option FirmwareRollout) :=
  rows ← match sp_Members spec with
         | Some rows => mret rows
         | None => gets (ListReleaseChannelMismatchedMembers (mismatchedParams spec 0))
         end;
  match rows with
  | [] => mret None
  | _ =>
    let ordered := orderMembers shuffle rows (Order (sp_Behavior spec)) in
    channel ← GetReleaseChannel (sp_OrgID spec) (sp_ChannelID spec);
    let b := (sp_Behavior spec) <| MaxConcurrentOffline := rc_MaxConcurrentOffline channel |> in
    match split_batches b ordered with
    | None => fail Diverged
    | Some (batches, rest) =>
        let stage := if (0 <? length batches)%nat then StageBatch else StageRest in
        r ← query (CreateFirmwareRollout (sp_OrgID spec) (sp_ChannelID spec)
              (Manufacturer (sp_Pair spec)) (Model (sp_Pair spec)) (sp_FirmwareChecksum spec)
              (sp_FirmwareVersion spec) (sp_PreviousFirmwareChecksum spec)
              (sp_PreviousFirmwareVersion spec) (sp_AssignmentGeneration spec) stage
              (snapshot b) (int32 (Z.of_nat (length batches))) (sp_Actor spec));
        offset ← query (snapshot_batches (fr_ID r) 0 0 batches);
        when (0 <? length rest)%nat
          (modify (SnapshotFirmwareRolloutDevices (fr_ID r) rest None (int32 offset)));;
        when (Method b == MethodDelegated) (setControllerWait (fr_ID r) (Some now));;
        mret (Some r)
    end
  end.

(** ** Membership *)

Definition excludeDepartedTargets (r : FirmwareRollout) (targets : list target) : Op (list target) :=
  let leavers := map (λ t, dr_DeviceID (t_row t))
    (List.filter (λ t, negb (ob_IsChannelMember (t_obs t)) && negb (excluded t)) targets) in
  match leavers with
  | [] => mret targets
  | _ => modify (ExcludeFirmwareRolloutDevices (fr_ID r) leavers);; listTargets r
  end.

Definition rollout_spec_of (r : FirmwareRollout) : rolloutSpec :=
  {| sp_OrgID := fr_OrgID r; sp_ChannelID := fr_ChannelID r;
     sp_Pair := {| Manufacturer := fr_Manufacturer r; Model := fr_Model r |};
     sp_FirmwareChecksum := fr_FirmwareChecksum r; sp_FirmwareVersion := fr_FirmwareVersion r;
     sp_PreviousFirmwareChecksum := ""; sp_PreviousFirmwareVersion := "";
     sp_AssignmentGeneration := fr_AssignmentGeneration r; sp_Actor := SystemActor;
     sp_Behavior := allAtOnce; sp_Members := None |}.

Definition syncMembership (r : FirmwareRollout) : Op (list target) :=
  targets ← listTargets r;
  targets ← excludeDepartedTargets r targets;
  if bs_Method (fr_BehaviorSnapshot r) == MethodDelegated then mret targets
  else
    let returners := map (λ t, dr_DeviceID (t_row t))
      (List.filter (λ t, ob_IsChannelMember (t_obs t) && excluded t) targets) in
    when (0 <? length returners)%nat
      (modify (ReincludeFirmwareRolloutDevices (fr_ID r) returners));;
    joiners ← gets (ListReleaseChannelMismatchedMembers
                      (mismatchedParams (rollout_spec_of r) (fr_ID r)));
    when (0 <? length joiners)%nat
      (modify (AppendFirmwareRolloutDevices (fr_ID r) (map mr_DeviceID joiners)));;
    if (0 <? length returners)%nat || (0 <? length joiners)%nat then listTargets r
    else mret targets.

(** ** Provenance *)

(** May this target's report be recorded as the rollout's deployment? *)
Definition deployable (r : FirmwareRollout) (terminal : bool) (t : target) : bool :=
  let known := is_set (LastDeployedAt t) && (LastDeployedFirmwareChecksum t != "")
               && (LastDeployedFirmwareVersion t != "") in
  (terminal || (negb (excluded t) && negb (halted t)))
  && is_set (dr_LastDispatchedAt (t_row t)) && reportsTarget r t && negb (foreignCommand t)
  && (ob_LastDispatchSucceeded (t_obs t)
      || (negb terminal && in_scope t && known
          && (LastDeployedFirmwareVersion t != fr_FirmwareVersion r)))
  && (negb (is_set (LastDeployedAt t)) || (LastDeployedFirmwareChecksum t == "")
      || negb (default 0 (dr_LastDispatchedAt (t_row t)) <? default 0 (LastDeployedAt t)))
  && (LastDeployedFirmwareChecksum t != fr_FirmwareChecksum r).

Definition observed_deployment (t : target) : DeployObservation :=
  {| do_DeviceID := dr_DeviceID (t_row t); do_Present := is_set (LastDeployedAt t);
     do_DeployedAt := default 0 (LastDeployedAt t);
     do_Checksum := LastDeployedFirmwareChecksum t |}.

Definition recordDeploymentProvenance (r : FirmwareRollout) (targets : list target)
    (terminal : bool) : Op (list target) :=
  let deployed := map observed_deployment (List.filter (deployable r terminal) targets) in
  match deployed with
  | [] => mret targets
  | _ => modify (RecordFirmwareDeployment (fr_ID r) (fr_FirmwareChecksum r)
                   (fr_FirmwareVersion r) deployed);; listTargets r
  end.

Definition recordProvenance (r : FirmwareRollout) (targets : list target) : Op (list target) :=
  recordDeploymentProvenance r targets false.
Definition recordTerminalProvenance (r : FirmwareRollout) (targets : list target) : Op (list target) :=
  recordDeploymentProvenance r targets true.

Definition reconcileTerminalProvenance (r : FirmwareRollout) : Op unit :=
  targets ← listTargets r;
  recordTerminalProvenance r targets;; mret tt.

(** ** Convergence *)

(** Targets convergence does not look at. *)
Definition convergence_exempt (r : FirmwareRollout) (t : target) : bool :=
  excluded t || halted t
  || ((bs_Method (fr_BehaviorSnapshot r) == MethodDelegated)
      && ((dr_Attempts (t_row t) =? 0) || is_set (dr_VerifiedAt (t_row t)))).

Definition drifted (r : FirmwareRollout) (t : target) : bool :=
  negb (convergence_exempt r t) && is_set (dr_VerifiedAt (t_row t))
  && (negb (reportsTarget r t) || (LastDeployedFirmwareChecksum t != fr_FirmwareChecksum r)
      || foreignCommand t).

Definition converged (r : FirmwareRollout) (t : target) : bool :=
  negb (convergence_exempt r t) && negb (is_set (dr_VerifiedAt (t_row t))) && meetsConvergence r t.

Definition recordConvergence (r : FirmwareRollout) (targets : list target) : Op (list target) :=
  let ids p := map (λ t, dr_DeviceID (t_row t)) (List.filter p targets) in
  let verified := ids (converged r) in
  let drifted := ids (drifted r) in
  when (0 <? length drifted)%nat (modify (UnverifyFirmwareRolloutDevices (fr_ID r) drifted));;
  when (0 <? length verified)%nat (modify (MarkFirmwareRolloutDevicesVerified (fr_ID r) verified));;
  if Nat.eqb (length drifted + length verified) 0 then mret targets else listTargets r.

(** [prepareRollout]: [None] for a rollout that is no longer active. *)
Definition prepareRollout (r : FirmwareRollout) : Op (option (list target)) := Tx (
  _ ← GetReleaseChannel (fr_OrgID r) (fr_ChannelID r);
  '(current, _) ← lockRollout (fr_OrgID r) (fr_ID r) 0;
  if fr_Status current != StatusActive then mret None
  else
    targets ← syncMembership current;
    targets ← recordProvenance current targets;
    targets ← recordConvergence current targets;
    when ((bs_Method (fr_BehaviorSnapshot current) == MethodDelegated)
          && negb (is_set (fr_PausedAt current))
          && negb (is_set (fr_ControllerWaitingSince current))
          && negb (hasUpdatesInFlight current targets))
      (setControllerWait (fr_ID current) (Some now));;
    mret (Some targets)).

(** ** Dispatch *)

Definition refreshOfflineBudget (channel limit : Z) : Op (option offlineBudget) :=
  modify (ObserveFirmwareRolloutReservationsOffline (Some channel));;
  if limit <=? 0 then mret None
  else
    slots ← gets (ListFirmwareRolloutOfflineSlots channel);
    mret (budget_of_slots limit slots).

Definition is_due (r : FirmwareRollout) (t : target) : bool :=
  negb (settled t || has_pending t || sentRecently now t || negb (in_scope t)
        || (MaxAttempts <=? dr_Attempts (t_row t))).

Definition dispatchHoldReason (r : FirmwareRollout) (targets : list target)
    (firmwareAvailable : bool) : Op HoldReason :=
  if (fr_Status r != StatusActive) || is_set (fr_PausedAt r)
     || ((fr_Stage r != StageBatch) && (fr_Stage r != StageRest)) then mret HoldNone
  else if negb (existsb (is_due r) (reviewScope r targets)) then mret HoldNone
  else if negb firmwareAvailable then mret HoldArtifactMissing
  else
    channel ← GetReleaseChannel (fr_OrgID r) (fr_ChannelID r);
    let limit := rc_MaxConcurrentOffline channel in
    if limit <=? 0 then mret HoldNone
    else
      slots ← gets (ListFirmwareRolloutOfflineSlots (fr_ChannelID r));
      let n := Z.of_nat (length slots) in
      mret (if limit <=? n then HoldOfflineCapacity n limit else HoldNone).

(** The identifiers of a scope by device; a missing key reads as "". *)
Definition identifiers_by_id (scope : list target) : gmap Z string :=
  fold_left (λ m t, <[dr_DeviceID (t_row t) := ob_DeviceIdentifier (t_obs t)]> m) scope ∅.

Definition by_id (m : gmap Z string) (id : Z) : string := default "" (m !! id).

Definition IncompatibleError := "Reported manufacturer or model changed before the update verified; no further update was sent. Review this miner's identity and firmware compatibility before retrying.".
Definition ExhaustedError (version : string) : string :=
  ("Did not report " ++ version ++ " after 3 update attempts")%string.

(** Halting the incompatible and the exhausted targets, with their event. *)
Definition dispatch_halts (r : FirmwareRollout) (scope : list target) (c : Classified) : Op unit :=
  when (0 <? length (incompatible c))%nat
    (modify (HaltFirmwareRolloutDevices (fr_ID r) (incompatible c) HaltReasonFailed IncompatibleError));;
  when (0 <? length (toHalt c))%nat
    (modify (HaltFirmwareRolloutDevices (fr_ID r) (toHalt c) HaltReasonFailed
               (ExhaustedError (fr_FirmwareVersion r))));;
  when (0 <? length (toHalt c) + length (incompatible c))%nat
    (let failed := map (λ t, ob_DeviceIdentifier (t_obs t))
       (List.filter (λ t, bool_decide (dr_DeviceID (t_row t) ∈ toHalt c ++ incompatible c)) scope) in
     _ ← GetReleaseChannel (fr_OrgID r) (fr_ChannelID r);
     logRolloutEvent r EventRolloutDeviceFailed true (extra_ids failed)).

(** Queue the update of the devices [due] and save the dispatch evidence. *)
Definition dispatch_due (r : FirmwareRollout) (scope : list target)
    (assignment : ReleaseChannelFirmware) (due : list Z) : Op (list string) :=
  let byID := identifiers_by_id scope in
  let cmd := {| fc_OwnerUserID := as_AssignedBy assignment; fc_OrgID := fr_OrgID r;
       fc_Identifiers := map (by_id byID) due; fc_Checksum := fr_FirmwareChecksum r;
       fc_TargetManufacturer := as_TargetManufacturer assignment;
       fc_TargetModel := as_TargetModel assignment;
       fc_FirmwareVersion := as_FirmwareVersion assignment |} in
  sent ← query (λ db, let '(res, w) := FirmwareUpdateArtifact cmd db in
                      (res, db <| db_world := w |>));
  match sent with
  | Err _ => throw NewInternalError
  | Ok res =>
      let hit id := bool_decide (by_id byID id ∈ DispatchedDeviceIdentifiers res) in
      let dispatched := List.filter hit due in
      let marked := if bs_Method (fr_BehaviorSnapshot r) == MethodDelegated then dispatched
                    else due in
      modify (MarkFirmwareRolloutDevicesSent (fr_ID r) marked dispatched (BatchIdentifier res));;
      mret (map (by_id byID) dispatched)
  end.

Definition dispatchLockedBatch (r : FirmwareRollout) (scope : list target)
    (budget : option offlineBudget) : Op (Z * list string * option offlineBudget) :=
  let c := classify now scope in
  let halted := Z.of_nat (length (toHalt c) + length (incompatible c)) in
  dispatch_halts r scope c;;
  let due := within_room budget (due c) in
  if (length due =? 0)%nat then mret (halted, [], budget)
  else if negb (is_set (FindFirmwareFileIDByChecksum (fr_FirmwareChecksum r))) then
    mret (halted, [], budget)
  else
    assignment ← gets (GetReleaseChannelFirmware (fr_ChannelID r) (fr_Manufacturer r) (fr_Model r));
    match assignment with
    | None => throw NewInternalError
    | Some a =>
        if negb (as_AssignmentGeneration a =? fr_AssignmentGeneration r)
           || (as_FirmwareChecksum a != fr_FirmwareChecksum r)
           || (as_FirmwareVersion a != fr_FirmwareVersion r) then mret (halted, [], budget)
        else
          sent ← dispatch_due r scope a due;
          mret (halted, sent, fold_left reserve due budget)
    end.

Definition dispatchLockedUpdates (r : FirmwareRollout) (scope : list target)
    (budget : option offlineBudget) : Op Z :=
  '(halted, _, _) ← dispatchLockedBatch r scope budget; mret halted.

Definition dispatchUpdates (r : FirmwareRollout) : Op Z := Tx (
  channel ← GetReleaseChannel (fr_OrgID r) (fr_ChannelID r);
  budget ← refreshOfflineBudget (fr_ChannelID r) (rc_MaxConcurrentOffline channel);
  '(current, _) ← lockRollout (fr_OrgID r) (fr_ID r) 0;
  if (fr_Status current != StatusActive) || is_set (fr_PausedAt current)
     || (bs_Method (fr_BehaviorSnapshot current) == MethodDelegated)
     || (fr_Stage current != fr_Stage r) || negb (fr_CurrentBatch current =? fr_CurrentBatch r)
     || negb (fr_StageChangedAt current =? fr_StageChangedAt r)
     || ((fr_Stage current != StageBatch) && (fr_Stage current != StageRest)) then mret 0
  else
    targets ← listTargets current;
    targets ← excludeDepartedTargets current targets;
    dispatchLockedUpdates current (reviewScope current targets) budget).

End Engine.
