(* ===== verification/RolloutControl.v ===== *)
(** * Progress of a rollout and the operator's controls

    The enforcement loop's per-rollout step (settlement, review gate, waits,
    completion), the controls an operator or a controller has over an active
    rollout, and the view each of them returns. *)

From S2P Require Import Prelude GoSort Float64 Errors RolloutBehavior RolloutStore RolloutTargets.
From S2P Require Import RolloutEngine.
#[local] Open Scope string_scope.
#[local] Open Scope list_scope.
#[local] Open Scope Z_scope.
#[local] Open Scope go_scope.

Section Control.
Context `{Env}.

(** ** Progress *)

Definition stage_moved (r observed : FirmwareRollout) : bool :=
  (fr_Stage r != fr_Stage observed) || negb (fr_CurrentBatch r =? fr_CurrentBatch observed)
  || negb (fr_StageChangedAt r =? fr_StageChangedAt observed)
  || negb (fr_StagePausedMicroseconds r =? fr_StagePausedMicroseconds observed).

(** The review gate: an automatic continue needs ready evidence. *)
Definition progress_review (r : FirmwareRollout) (scope : list target) : Op unit :=
  if negb (bs_AutoContinue (fr_BehaviorSnapshot r)) then mret tt
  else match evaluate now r scope with
  | None => fail Panicked
  | Some ev =>
      if negb (ReadyToAdvance ev) then mret tt
      else r ← advance r StageAwaitingReview None;
           logRolloutEvent r EventRolloutContinued true no_extra
  end.

Definition progress_finish (r : FirmwareRollout) (scope : list target) : Op unit :=
  let '(status, event) := if anyFailed scope
    then (StatusCompletedWithFailures, EventRolloutCompletedWithFailures)
    else (StatusCompleted, EventRolloutCompleted) in
  n ← query (FinishFirmwareRollout (fr_ID r) status);
  when (0 <? n) (logRolloutEvent (r <| fr_Status := status |>) event true no_extra).

(** What a settled scope lets the stage do. *)
Definition progress_settled (r : FirmwareRollout) (scope : list target) : Op unit :=
  let behavior := behaviorFromSnapshot (fr_BehaviorSnapshot r) in
  if fr_Stage r == StageBatch then
    if gatesAfterBatch behavior then
      r ← transition r StageBatch StageAwaitingReview;
      logRolloutEvent r EventRolloutReviewReady true no_extra
    else if 0 <? WaitBetweenBatchesSeconds behavior then
      transition r StageBatch StageWaiting;; mret tt
    else advance r StageBatch None;; mret tt
  else if fr_Stage r == StageAwaitingReview then progress_review r scope
  else if fr_Stage r == StageWaiting then
    if stageElapsed now r <? WaitBetweenBatchesSeconds behavior * Second then mret tt
    else advance r StageWaiting None;; mret tt
  else progress_finish r scope.

(** Returns a batch reopened by drift, for another dispatch. *)
Definition advanceRolloutProgress (observed : FirmwareRollout) : Op (option FirmwareRollout) := Tx (
  '(r, _) ← lockRollout (fr_OrgID observed) (fr_ID observed) 0;
  if (fr_Status r != StatusActive) || is_set (fr_PausedAt r) then mret None
  else if stage_moved r observed then precondition ReasonNotAtGate
  else
    targets ← listTargets r;
    let scope := reviewScope r targets in
    if negb (allSettled scope) then
      if (fr_Stage r == StageAwaitingReview) || (fr_Stage r == StageWaiting) then
        r ← transition r (fr_Stage r) StageBatch; mret (Some r)
      else mret None
    else progress_settled r scope;; mret None).

(** ** Delegated rollouts *)

Definition completeDelegated (r : FirmwareRollout) (targets : list target) (m : Mutation) : Op unit :=
  let '(status, event) := if anyFailed (activeTargets targets)
    then (StatusCompletedWithFailures, EventRolloutCompletedWithFailures)
    else (StatusCompleted, EventRolloutCompleted) in
  modify (CompleteDelegatedFirmwareRollout (fr_ID r) status (MActor m));;
  logRolloutEvent (r <| fr_Status := status |>) event (ActorType (MActor m) == ActorTypeSystem)
    (mextra m []).

(** When the controller's attempt on a target ended: at its dispatch, or later
    at the completion of its command. *)
Definition attempt_ended (completions : list (Z * Z)) (t : target) (sent : Z) : Z :=
  match (list_to_map (rev completions) : gmap Z Z) !! dr_DeviceID (t_row t) with
  | Some finished => if sent <? finished then finished else sent
  | None => sent
  end.

Definition attempt_failed (completions : list (Z * Z)) (t : target) : bool :=
  match dr_LastSentAt (t_row t) with
  | Some sent =>
      negb (settled t || (dr_Attempts (t_row t) =? 0) || has_pending t)
      && negb (time_Sub now (attempt_ended completions t sent) <? resendInterval)
  | None => false
  end.

Definition DelegatedError (version : string) : string :=
  ("Did not verify " ++ version ++ " after the controller's update attempt; retry to queue another attempt.")%string.

Definition enforceDelegated (observed : FirmwareRollout) : Op unit := Tx (
  '(r, _) ← lockRollout (fr_OrgID observed) (fr_ID observed) 0;
  if (fr_Status r != StatusActive) || is_set (fr_PausedAt r) then mret tt
  else
    targets ← listTargets r;
    completions ← gets (λ db, w_completions (db_world db) (fr_ID r));
    let failing := List.filter (attempt_failed completions) (activeTargets targets) in
    targets ← match failing with
      | [] => mret targets
      | _ =>
          modify (HaltFirmwareRolloutDevices (fr_ID r) (map (λ t, dr_DeviceID (t_row t)) failing)
                    HaltReasonFailed (DelegatedError (fr_FirmwareVersion r)));;
          logRolloutEvent r EventRolloutDeviceFailed true
            (extra_ids (map (λ t, ob_DeviceIdentifier (t_obs t)) failing));;
          listTargets r
      end;
    if allSettled (activeTargets targets) then
      completeDelegated r targets {| MActor := SystemActor; ExpectedRevision := 0; Note := "" |}
    else if hasUpdatesInFlight r targets then setControllerWait (fr_ID r) None
    else match fr_ControllerWaitingSince r with
    | None => setControllerWait (fr_ID r) (Some now)
    | Some since =>
        let timeout := bs_ControllerTimeoutSeconds (fr_BehaviorSnapshot r) * Second in
        if (timeout <=? 0) || (time_Sub now since <? timeout) then mret tt
        else
          _ ← query (PauseFirmwareRollout (fr_ID r) SystemActor);
          logRolloutEvent r EventRolloutControllerTimedOut true no_extra
    end).

(** ** One enforcement step *)

Definition enforceRollout (r : FirmwareRollout) (targets : list target) : Op unit :=
  if is_set (fr_PausedAt r) then mret tt
  else if bs_Method (fr_BehaviorSnapshot r) == MethodDelegated then enforceDelegated r
  else
    go ← (if ((fr_Stage r == StageBatch) || (fr_Stage r == StageRest))
             && negb (allSettled (reviewScope r targets))
          then halted ← dispatchUpdates r; mret (negb (halted =? 0))
          else mret true);
    if negb go then mret tt
    else
      reopened ← advanceRolloutProgress r;
      match reopened with
      | None => mret tt
      | Some r' =>
          halted ← dispatchUpdates r';
          if halted =? 0 then mret tt
          else advanceRolloutProgress r';; mret tt
      end.

(** ** Views *)

Record Rollout := {
  ro_Header : FirmwareRollout; ro_ChannelName : string; ro_FirmwareFileID : string;
  ro_State : string; ro_Behavior : Behavior; ro_Devices : list RolloutDevice;
  ro_DeviceCounts : DeviceCounts; ro_CurrentBatchCounts : DeviceCounts;
  ro_Evidence : option Evidence
}.

Definition view_state (r : FirmwareRollout) (counts : DeviceCounts) (ev : option Evidence) : string :=
  if (fr_Status r == StatusActive) && negb (is_set (fr_PausedAt r))
     && (bs_Method (fr_BehaviorSnapshot r) == MethodDelegated)
     && (InProgress counts =? 0) && (Retrying counts =? 0)
  then StateWaitingForController else deriveState r ev.

Definition rolloutView (r : FirmwareRollout) (channelName firmwareFileID : string) : Op Rollout :=
  targets ← listTargets r;
  let devices := map (view r) targets in
  let counts := countPhases devices in
  let batch_counts :=
    if fr_Stage r != StageRest then
      countPhases (List.filter (λ d, rd_Batch d =? int32 (fr_CurrentBatch r + 1)) devices)
    else no_counts in
  ev ← (if fr_Status r == StatusActive then
          match evaluate now r (evidenceScope r targets) with
          | None => fail Panicked
          | Some e =>
              if negb (is_set (fr_PausedAt r))
                 && ((fr_Stage r == StageBatch) || (fr_Stage r == StageRest)) then
                h ← dispatchHoldReason r targets (firmwareFileID != "");
                mret (Some (e <| EvHoldReason := h |>))
              else mret (Some e)
          end
        else mret None);
  mret {| ro_Header := r; ro_ChannelName := channelName; ro_FirmwareFileID := firmwareFileID;
          ro_State := view_state r counts ev;
          ro_Behavior := behaviorFromSnapshot (fr_BehaviorSnapshot r); ro_Devices := devices;
          ro_DeviceCounts := counts; ro_CurrentBatchCounts := batch_counts; ro_Evidence := ev |}.

(** A row and its channel's name, or no row. *)
Definition GetFirmwareRolloutWithChannel (org rid : Z) (db : DB) : option (FirmwareRollout * string) :=
  r ← db_rollouts db !! rid;
  if fr_OrgID r =? org then
    c ← db_channels db !! fr_ChannelID r; Some (r, rc_Name c)
  else None.

Definition file_of (r : FirmwareRollout) : string :=
  default "" (FindCachedFirmwareFileIDByChecksum (fr_FirmwareChecksum r)).

Definition refreshView (org rid : Z) : Op Rollout :=
  row ← gets (GetFirmwareRolloutWithChannel org rid);
  match row with
  | None => throw NewInternalError
  | Some (r, name) => rolloutView r name (file_of r)
  end.

Definition GetRollout (org rid : Z) : Op Rollout :=
  row ← gets (GetFirmwareRolloutWithChannel org rid);
  match row with
  | None => throw rolloutLookupError
  | Some (r, name) => rolloutView r name (file_of r)
  end.

(** ** Controls *)

Definition mutateActive (org rid : Z) (m : Mutation)
    (change : FirmwareRollout → Op unit) : Op Rollout := Tx (
  '(row, _) ← lockRollout org rid (ExpectedRevision m);
  if fr_Status row != StatusActive then precondition ReasonNotActive
  else change row;; refreshView org rid).

Definition ContinueRollout (org rid : Z) (m : Mutation) : Op Rollout :=
  mutateActive org rid m (λ row,
    if fr_Stage row != StageAwaitingReview then precondition ReasonNotAtGate
    else row ← advance row StageAwaitingReview (Some m);
         logRolloutEvent row EventRolloutContinued false (mextra m [])).

Definition PauseRollout (org rid : Z) (m : Mutation) : Op Rollout :=
  mutateActive org rid m (λ row,
    n ← query (PauseFirmwareRollout rid (MActor m));
    if n =? 0 then precondition ReasonPaused
    else logRolloutEvent (row <| fr_PausedAt := Some now |>) EventRolloutPaused false (mextra m [])).

Definition ResumeRollout (org rid : Z) (m : Mutation) : Op Rollout :=
  mutateActive org rid m (λ row,
    n ← query (ResumeFirmwareRollout rid (MActor m));
    if n =? 0 then throw NewFailedPreconditionError
    else
      let row := row <| fr_PausedAt := None |> in
      (if bs_Method (fr_BehaviorSnapshot row) == MethodDelegated then
         targets ← listTargets row;
         setControllerWait (fr_ID row) (if hasUpdatesInFlight row targets then None else Some now)
       else mret tt);;
      logRolloutEvent row EventRolloutResumed false (mextra m [])).

Definition CancelError := "Update canceled by operator".

(** The change of [CancelRollout]; the channel summary it also returns is a
    read and is not modelled. *)
Definition cancel_change (rid : Z) (m : Mutation) (row : FirmwareRollout) : Op unit :=
  n ← query (CancelFirmwareRollout rid (MActor m));
  if n =? 0 then precondition ReasonNotActive
  else
    let row := row <| fr_Status := StatusCanceled |>
                   <| fr_CancelReason := CancelReasonCanceledRemaining |>
                   <| fr_FinishedAt := Some now |> in
    targets ← listTargets row;
    let remaining := map (λ t, dr_DeviceID (t_row t))
      (List.filter (λ t, negb (halted t) && negb (verified t)) targets) in
    when (0 <? length remaining)%nat
      (modify (HaltFirmwareRolloutDevices rid remaining HaltReasonCanceled CancelError));;
    logRolloutEvent row EventRolloutCanceled false (mextra m []).

Definition CancelRollout (org rid : Z) (m : Mutation) : Op Rollout :=
  mutateActive org rid m (cancel_change rid m).

(** ** Controller actions *)

Definition MaxSelection : Z := 1000.

(** utf8.RuneCountInString of a valid string: its bytes that do not continue a
    rune. [utf8_valid] decides utf8.ValidString. *)
Definition rune_count (s : string) : Z :=
  Z.of_nat (length (List.filter (λ b, negb ((128 <=? b) && (b <? 192))) (bytes s))).

Definition text_ok (limit : Z) (s : string) : bool :=
  utf8_valid s && (rune_count s <=? limit) && negb (existsb (λ b, b =? 0) (bytes s)).

Fixpoint identifiers_ok (seen : gset string) (ids : list string) : bool :=
  match ids with
  | [] => true
  | id :: ids => (id != "") && text_ok 255 id && negb (bool_decide (id ∈ seen))
                 && identifiers_ok ({[id]} ∪ seen) ids
  end.

Definition validateIdentifiers (ids : list string) : result FleetError unit :=
  let n := Z.of_nat (length ids) in
  if (n =? 0) || (MaxSelection <? n) then Err NewInvalidArgumentError
  else if identifiers_ok ∅ ids then Ok tt else Err NewInvalidArgumentError.

Definition validateMutation (m : Mutation) : result FleetError unit :=
  if (ExpectedRevision m <? 0) || negb (text_ok 1024 (Note m)) then Err NewInvalidArgumentError
  else Ok tt.

Definition requireDelegated (r : FirmwareRollout) : Op unit :=
  if fr_Status r != StatusActive then precondition ReasonNotActive
  else if bs_Method (fr_BehaviorSnapshot r) != MethodDelegated then precondition ReasonNotDelegated
  else mret tt.

Definition currentAssignment (r : FirmwareRollout) : Op unit :=
  a ← gets (GetReleaseChannelFirmware (fr_ChannelID r) (fr_Manufacturer r) (fr_Model r));
  match a with
  | Some a =>
      if negb (as_AssignmentGeneration a =? fr_AssignmentGeneration r)
         || (as_FirmwareChecksum a != fr_FirmwareChecksum r)
         || (as_FirmwareVersion a != fr_FirmwareVersion r) then precondition ReasonStaleGeneration
      else mret tt
  | None => precondition ReasonStaleGeneration
  end.

Definition undispatchable (t : target) : bool := negb (in_scope t) || has_pending t.

(** The checks and the dispatch of a nonempty selection. *)
Definition advance_selected (r : FirmwareRollout) (selected : list target)
    (budget : option offlineBudget) : Op (list string) :=
  if negb (PinFirmwareArtifact (fr_FirmwareChecksum r)) then precondition ReasonArtifactMissing
  else if negb (is_set (FindFirmwareFileIDByChecksum (fr_FirmwareChecksum r))) then
    precondition ReasonArtifactMissing
  else
    '(_, sent, _) ← dispatchLockedBatch r selected budget;
    if negb (Nat.eqb (length sent) (length selected)) then
      precondition_on ReasonDeviceNotDispatchable
        (List.filter (λ id, negb (bool_decide (id ∈ sent)))
           (map (λ t, ob_DeviceIdentifier (t_obs t)) selected))
    else mret sent.

Definition advance_body (org rid : Z) (sel : DeviceSelection) (m : Mutation)
    : Op (Rollout * list string) :=
  observed ← GetFirmwareRollout org rid;
  channel ← GetReleaseChannel org (fr_ChannelID observed);
  '(r, _) ← lockRollout org rid (ExpectedRevision m);
  requireDelegated r;;
  if is_set (fr_PausedAt r) then precondition ReasonPaused
  else
    currentAssignment r;;
    targets ← listTargets r;
    selected ← liftR (selectQueued r targets sel);
    match List.find undispatchable selected with
    | Some t => precondition_on ReasonDeviceNotDispatchable [ob_DeviceIdentifier (t_obs t)]
    | None =>
      budget ← refreshOfflineBudget (fr_ChannelID r) (rc_MaxConcurrentOffline channel);
      if (0 <=? room budget) && (room budget <? Z.of_nat (length selected)) then
        precondition ReasonOfflineBudgetFull
      else
        sent ← (if (0 <? length selected)%nat then advance_selected r selected budget else mret []);
        modify (RecordFirmwareRolloutAction (fr_ID r) (MActor m));;
        setControllerWait (fr_ID r)
          (if Nat.eqb (length sent) 0 && negb (hasUpdatesInFlight r targets) then Some now else None);;
        logRolloutEvent r EventRolloutAdvanced false (mextra m sent);;
        v ← refreshView org rid;
        mret (v, sent)
    end.

Definition AdvanceRollout (org rid : Z) (sel : DeviceSelection) (m : Mutation)
    : Op (Rollout * list string) :=
  liftR (validateMutation m);;
  if bool_decide ((0 <? SelCount sel) = (0 <? length (SelIdentifiers sel))%nat)
     || (SelCount sel <? 0) || (MaxSelection <? SelCount sel) then throw NewInvalidArgumentError
  else
    (if (0 <? length (SelIdentifiers sel))%nat then liftR (validateIdentifiers (SelIdentifiers sel))
     else mret tt);;
    Tx (advance_body org rid sel m).

Definition skipTargets (r : FirmwareRollout) (targets : list target) (m : Mutation) : Op unit :=
  let ids := map (λ t, dr_DeviceID (t_row t)) targets in
  when (0 <? length ids)%nat (modify (SkipFirmwareRolloutDevices (fr_ID r) ids (Note m))).

Definition SkipRolloutDevices (org rid : Z) (ids : list string) (m : Mutation) : Op Rollout :=
  liftR (validateMutation m);;
  liftR (validateIdentifiers ids);;
  mutateActive org rid m (λ r,
    targets ← listTargets r;
    selected ← liftR (selectQueued r targets {| SelIdentifiers := ids; SelCount := 0 |});
    skipTargets r selected m;;
    modify (RecordFirmwareRolloutAction (fr_ID r) (MActor m));;
    when ((bs_Method (fr_BehaviorSnapshot r) == MethodDelegated) && negb (hasUpdatesInFlight r targets))
      (setControllerWait (fr_ID r) (Some now));;
    logRolloutEvent r EventRolloutDevicesSkipped false (mextra m ids)).

Definition complete_change (m : Mutation) (r : FirmwareRollout) : Op unit :=
  requireDelegated r;;
  currentAssignment r;;
  targets ← listTargets r;
  if hasUpdatesInFlight r targets then precondition ReasonUpdatesInFlight
  else
    let queued := List.filter (λ t, phase r t == PhaseQueued) targets in
    skipTargets r queued m;;
    when (0 <? length queued)%nat
      (logRolloutEvent r EventRolloutDevicesSkipped false
         (mextra m (map (λ t, ob_DeviceIdentifier (t_obs t)) queued)));;
    completeDelegated r targets m.

Definition CompleteRollout (org rid : Z) (m : Mutation) : Op Rollout :=
  liftR (validateMutation m);;
  mutateActive org rid m (complete_change m).

End Control.
