(* ===== verification/RolloutAssign.v ===== *)
(** * Assignments, retries and the enforcement pass

    Assigning, clearing, previewing and rolling back the firmware of a pair;
    retrying the suppressed miners of a rollout; the reconciliation rollouts and
    the pass over every rollout that the enforcement loop makes. *)

From S2P Require Import Prelude GoSort Float64 Errors RolloutBehavior RolloutStore RolloutTargets.
From S2P Require Import RolloutEngine RolloutControl.
#[local] Open Scope string_scope.
#[local] Open Scope list_scope.
#[local] Open Scope Z_scope.
#[local] Open Scope go_scope.

Definition ReasonArtifactMismatch := "artifact_mismatch".

Section Assign.
Context `{Env}.

(** ** Behaviour of the rollouts a channel starts *)

Definition behaviorFor (channel : ReleaseChannel) (override : option Behavior)
    : result FleetError Behavior :=
  match override with
  | None => Ok (behaviorFromChannel channel)
  | Some b =>
      if negb (MaxConcurrentOffline b =? 0) then Err NewInvalidArgumentError
      else
        b ← validate b;
        Ok (b <| MaxConcurrentOffline := rc_MaxConcurrentOffline channel |>)
  end.

(** ** Resolving assignments *)

Record Assignment := { an_Manufacturer : string; an_Model : string; an_FirmwareFileID : string }.

Record resolvedAssignment := {
  ra_pair : PairKey;
  ra_current : option ReleaseChannelFirmware;
  ra_artifact : option FirmwareArtifact
}.

(** The row of a pair among the channel's, the last one when several fold to
    the same key. *)
Definition current_row (channel : Z) (pair : PairKey) (rows : list ReleaseChannelFirmware)
    : option ReleaseChannelFirmware :=
  List.find (λ f, (as_ChannelID f =? channel)
    && bool_decide (folded {| Manufacturer := as_Manufacturer f; Model := as_Model f |} = folded pair))
    (rev rows).

Definition isNotFound (e : FleetError) : bool := bool_decide (GRPCCode e = CodeNotFound).

Definition mismatch (why : string) : FleetError :=
  reason CodeFailedPrecondition {| Reason := why; CurrentRevision := 0; ErrDeviceIdentifiers := [] |}.

Definition resolve_artifact (pair : PairKey) (file : string)
    : result FleetError (option FirmwareArtifact) :=
  if file == "" then Ok None
  else match ResolveFirmwareArtifact file with
  | Err e => Err (mismatch (if isNotFound e then ReasonArtifactMissing else ReasonArtifactMismatch))
  | Ok a => if matchesObserved pair (fa_TargetManufacturer a) (fa_TargetModel a) then Ok (Some a)
            else Err (mismatch ReasonArtifactMismatch)
  end.

Fixpoint resolve_loop (channel : Z) (rows : list ReleaseChannelFirmware) (seen : list PairKey)
    (assignments : list Assignment) : result FleetError (list resolvedAssignment) :=
  match assignments with
  | [] => Ok []
  | a :: rest =>
      pair ← normalizePairKey (an_Manufacturer a) (an_Model a);
      if bool_decide (folded pair ∈ seen) then Err NewInvalidArgumentError
      else
        artifact ← resolve_artifact pair (an_FirmwareFileID a);
        resolved ← resolve_loop channel rows (folded pair :: seen) rest;
        Ok ({| ra_pair := pair; ra_current := current_row channel pair rows;
               ra_artifact := artifact |} :: resolved)
  end.

Definition resolveAssignments (channel : ReleaseChannel) (assignments : list Assignment)
    : Op (list resolvedAssignment) :=
  rows ← gets db_assignments;
  liftR (resolve_loop (rc_ID channel) rows [] assignments).

(** ** Applying assignments *)

(** Cancel the pair's active rollout, if there is one. *)
Definition cancel_replaced (channel : ReleaseChannel) (actor : Actor) (pair : PairKey)
    (why note : string) : Op unit :=
  old ← gets (GetActiveFirmwareRolloutForPair (rc_ID channel) (Manufacturer pair) (Model pair));
  match old with
  | None => mret tt
  | Some old =>
      modify (CancelActiveFirmwareRollout (rc_ID channel) (Manufacturer pair) (Model pair) why actor);;
      logRolloutEvent old EventRolloutCanceled false
        {| x_actor := Some actor; x_note := note; x_identifiers := [] |}
  end.

(** An error of the cancellation is reported as an internal one. *)
Definition as_internal {A} (m : Op A) : Op A := λ db,
  match m db with
  | (Err (Returned _), db') => (Err (Returned NewInternalError), db')
  | out => out
  end.

Definition apply_one (channel : ReleaseChannel) (actor : Actor) (behavior : Behavior)
    (cancelReason note : string) (a : resolvedAssignment) : Op (option Rollout) :=
  let pair := ra_pair a in
  let current_checksum := from_option as_FirmwareChecksum "" (ra_current a) in
  match ra_artifact a with
  | None =>
      if current_checksum == "" then mret None
      else
        modify (ClearReleaseChannelFirmware (rc_ID channel) (Manufacturer pair) (Model pair)
                  (ownerUserID actor));;
        let why := if cancelReason == CancelReasonRolledBack then CancelReasonRolledBack
                   else CancelReasonCleared in
        as_internal (cancel_replaced channel actor pair why note);;
        mret None
  | Some art =>
      if is_set (ra_current a) && (current_checksum == fa_Checksum art) then mret None
      else
        assigned ← query (UpsertReleaseChannelFirmware
          {| as_ChannelID := rc_ID channel; as_Manufacturer := Manufacturer pair;
             as_Model := Model pair; as_FirmwareChecksum := fa_Checksum art;
             as_FirmwareVersion := fa_FirmwareVersion art;
             as_TargetManufacturer := fa_TargetManufacturer art;
             as_TargetModel := fa_TargetModel art; as_AssignmentGeneration := 1;
             as_AssignedBy := ownerUserID actor; as_PreviousFirmwareChecksum := "";
             as_PreviousFirmwareVersion := "" |});
        as_internal (cancel_replaced channel actor pair cancelReason note);;
        r ← startRollout
          {| sp_OrgID := rc_OrgID channel; sp_ChannelID := rc_ID channel; sp_Pair := pair;
             sp_FirmwareChecksum := fa_Checksum art; sp_FirmwareVersion := fa_FirmwareVersion art;
             sp_PreviousFirmwareChecksum := as_PreviousFirmwareChecksum assigned;
             sp_PreviousFirmwareVersion := as_PreviousFirmwareVersion assigned;
             sp_AssignmentGeneration := as_AssignmentGeneration assigned; sp_Actor := actor;
             sp_Behavior := behavior; sp_Members := None |};
        match r with
        | None => mret None
        | Some r =>
            logRolloutEvent r EventRolloutStarted false
              {| x_actor := None; x_note := note; x_identifiers := [] |};;
            v ← refreshView (rc_OrgID channel) (fr_ID r);
            mret (Some v)
        end
  end.

Fixpoint apply_loop (channel : ReleaseChannel) (actor : Actor) (behavior : Behavior)
    (cancelReason note : string) (resolved : list resolvedAssignment) : Op (list Rollout) :=
  match resolved with
  | [] => mret []
  | a :: rest =>
      v ← apply_one channel actor behavior cancelReason note a;
      vs ← apply_loop channel actor behavior cancelReason note rest;
      mret (option_list v ++ vs)
  end.

Definition applyResolved (channel : ReleaseChannel) (actor : Actor)
    (resolved : list resolvedAssignment) (behavior : Behavior) (cancelReason note : string)
    : Op (list Rollout) :=
  if ownerUserID actor <=? 0 then throw NewInvalidArgumentError
  else apply_loop channel actor behavior cancelReason note resolved.

Definition applyAssignments (channel : ReleaseChannel) (actor : Actor)
    (assignments : list Assignment) (behavior : Behavior) (cancelReason note : string)
    : Op (list Rollout) :=
  resolved ← resolveAssignments channel assignments;
  applyResolved channel actor resolved behavior cancelReason note.

(** Every artifact of the request must be there to pin. *)
Definition pinnable (a : resolvedAssignment) : bool :=
  match ra_artifact a with Some art => PinFirmwareArtifact (fa_Checksum art) | None => true end.

Definition ApplyFirmware (org : Z) (actor : Actor) (cid : Z) (assignments : list Assignment)
    (override : option Behavior) : Op (list Rollout) := Tx (
  channel ← GetReleaseChannel org cid;
  behavior ← liftR (behaviorFor channel override);
  resolved ← resolveAssignments channel assignments;
  if negb (forallb pinnable resolved) then precondition ReasonArtifactMissing
  else applyResolved channel actor resolved behavior CancelReasonSuperseded "").

(** ** Preview *)

Record FirmwarePlan := {
  pl_Pair : PairKey; pl_FirmwareFileID : string; pl_FirmwareVersion : string;
  pl_FirmwareChecksum : string; pl_TargetCount : Z; pl_OnTargetCount : Z; pl_BatchCount : Z;
  pl_Behavior : Behavior; pl_Unchanged : bool
}.

(** How many batches the preview announces, in int32 arithmetic. *)
Definition preview_batches (b : Behavior) (targets : Z) : Z :=
  if Method b == MethodBatched then int32 (int32 (targets + BatchSize b) - 1) ÷ BatchSize b
  else if Method b == MethodPilotThenContinue then if 0 <? targets then 1 else 0
  else 0.

Definition preview_one (org : Z) (channel : ReleaseChannel) (behavior : Behavior) (db : DB)
    (a : resolvedAssignment) : FirmwarePlan :=
  let current_checksum := from_option as_FirmwareChecksum "" (ra_current a) in
  match ra_artifact a with
  | None =>
      {| pl_Pair := ra_pair a; pl_FirmwareFileID := ""; pl_FirmwareVersion := "";
         pl_FirmwareChecksum := ""; pl_TargetCount := 0; pl_OnTargetCount := 0; pl_BatchCount := 0;
         pl_Behavior := behavior; pl_Unchanged := current_checksum == "" |}
  | Some art =>
      let unchanged := is_set (ra_current a) && (current_checksum == fa_Checksum art) in
      let generation := match ra_current a with
        | None => 1
        | Some f => if unchanged then as_AssignmentGeneration f else as_AssignmentGeneration f + 1
        end in
      let '(targets, on) := CountReleaseChannelFirmwarePreviewMembers
        {| mp_OrgID := org; mp_ChannelID := rc_ID channel;
           mp_Manufacturer := Manufacturer (ra_pair a); mp_Model := Model (ra_pair a);
           mp_FirmwareVersion := fa_FirmwareVersion art; mp_FirmwareChecksum := fa_Checksum art;
           mp_AssignedFileIds := FirmwareFileIDsByChecksum (fa_Checksum art);
           mp_AssignmentGeneration := generation; mp_RolloutID := 0 |} db in
      {| pl_Pair := ra_pair a; pl_FirmwareFileID := fa_FileID art;
         pl_FirmwareVersion := fa_FirmwareVersion art; pl_FirmwareChecksum := fa_Checksum art;
         pl_TargetCount := targets; pl_OnTargetCount := on;
         pl_BatchCount := if unchanged then 0 else preview_batches behavior targets;
         pl_Behavior := behavior; pl_Unchanged := unchanged |}
  end.

Definition PreviewFirmware (org cid : Z) (assignments : list Assignment)
    (override : option Behavior) : Op (list FirmwarePlan) :=
  channel ← GetReleaseChannel org cid;
  behavior ← liftR (behaviorFor channel override);
  resolved ← resolveAssignments channel assignments;
  gets (λ db, map (preview_one org channel behavior db) resolved).

(** ** Rollback *)

Definition RollbackFirmware (org rid : Z) (m : Mutation) : Op (Z * list Rollout) := Tx (
  row ← GetFirmwareRollout org rid;
  channel ← GetReleaseChannel org (fr_ChannelID row);
  '(row, _) ← lockRollout org rid (ExpectedRevision m);
  let pair := {| Manufacturer := fr_Manufacturer row; Model := fr_Model row |} in
  assignment ← gets (GetReleaseChannelFirmware (rc_ID channel) (fr_Manufacturer row) (fr_Model row));
  match assignment with
  | None => precondition ReasonStaleGeneration
  | Some f =>
      if negb (as_AssignmentGeneration f =? fr_AssignmentGeneration row) then
        precondition ReasonStaleGeneration
      else
        started ←
          (if fr_PreviousFirmwareChecksum row == "" then
             applyAssignments channel (MActor m)
               [{| an_Manufacturer := Manufacturer pair; an_Model := Model pair;
                   an_FirmwareFileID := "" |}] allAtOnce CancelReasonRolledBack (Note m)
           else if negb (PinFirmwareArtifact (fr_PreviousFirmwareChecksum row)) then
             precondition ReasonArtifactMissing
           else
             applyResolved channel (MActor m)
               [{| ra_pair := pair; ra_current := Some f;
                   ra_artifact := Some {| fa_FileID := "";
                     fa_Checksum := fr_PreviousFirmwareChecksum row;
                     fa_TargetManufacturer := Manufacturer pair; fa_TargetModel := Model pair;
                     fa_FirmwareVersion := fr_PreviousFirmwareVersion row |} |}]
               allAtOnce CancelReasonRolledBack (Note m));
        mret (rc_ID channel, started)
  end).

(** ** Retry *)

Definition requeuedNames (rows : list MemberRow) (ids : option (list Z)) : list string :=
  map mr_DeviceIdentifier (List.filter (λ row,
    match ids with None => true | Some ids => bool_decide (mr_DeviceID row ∈ ids) end) rows).

Definition suppressed_of (org : Z) (row : FirmwareRollout) : Op (list MemberRow) :=
  gets (ListReleaseChannelSuppressedMembers org (fr_ChannelID row) (fr_Manufacturer row)
          (fr_Model row) (fr_AssignmentGeneration row)).

(** An active rollout takes its suppressed miners back. *)
Definition retry_active (org rid : Z) (m : Mutation) (row : FirmwareRollout) : Op Rollout :=
  suppressed ← suppressed_of org row;
  requeued ← query (RequeueFirmwareRolloutDevices rid (map mr_DeviceID suppressed));
  (if (0 <? length requeued)%nat then
     (if bs_Method (fr_BehaviorSnapshot row) == MethodDelegated then
        targets ← listTargets row;
        setControllerWait (fr_ID row) (if hasUpdatesInFlight row targets then None else Some now)
      else mret tt);;
     modify (RecordFirmwareRolloutAction rid (MActor m));;
     logRolloutEvent row EventRolloutRetried false
       (mextra m (requeuedNames suppressed (Some requeued)))
   else mret tt);;
  refreshView org rid.

(** A finished rollout is followed by one all-at-once rollout. *)
Definition retry_finished (org rid : Z) (m : Mutation) (row : FirmwareRollout) : Op Rollout :=
  assignment ← gets (GetReleaseChannelFirmware (fr_ChannelID row) (fr_Manufacturer row) (fr_Model row));
  let current := match assignment with
    | Some f => (as_AssignmentGeneration f =? fr_AssignmentGeneration row)
                && (as_FirmwareChecksum f == fr_FirmwareChecksum row)
    | None => false
    end in
  if negb current then precondition ReasonStaleGeneration
  else
    active ← gets (GetActiveFirmwareRolloutForPair (fr_ChannelID row) (fr_Manufacturer row) (fr_Model row));
    match active with
    | Some _ => precondition ReasonRolloutActive
    | None =>
        reconcileTerminalProvenance row;;
        suppressed ← suppressed_of org row;
        match suppressed with
        | [] => refreshView org rid
        | _ =>
            started ← startRollout
              {| sp_OrgID := org; sp_ChannelID := fr_ChannelID row;
                 sp_Pair := {| Manufacturer := fr_Manufacturer row; Model := fr_Model row |};
                 sp_FirmwareChecksum := fr_FirmwareChecksum row;
                 sp_FirmwareVersion := fr_FirmwareVersion row;
                 sp_PreviousFirmwareChecksum := fr_PreviousFirmwareChecksum row;
                 sp_PreviousFirmwareVersion := fr_PreviousFirmwareVersion row;
                 sp_AssignmentGeneration := fr_AssignmentGeneration row; sp_Actor := MActor m;
                 sp_Behavior := allAtOnce;
                 sp_Members := Some (map (λ d, {| mr_DeviceID := mr_DeviceID d;
                   mr_DeviceIdentifier := mr_DeviceIdentifier d; mr_EfficiencyJh := None |}) suppressed) |};
            match started with
            | None => fail Panicked
            | Some r =>
                modify (PreserveFirmwareRolloutRetryBaselines (fr_ID r));;
                logRolloutEvent row EventRolloutRetried false (mextra m (requeuedNames suppressed None));;
                logRolloutEvent r EventRolloutStarted false no_extra;;
                refreshView org (fr_ID r)
            end
        end
    end.

Definition RetryFailedDevices (org rid : Z) (m : Mutation) : Op Rollout := Tx (
  observed ← GetFirmwareRollout org rid;
  _ ← GetReleaseChannel org (fr_ChannelID observed);
  '(row, _) ← lockRollout org rid (ExpectedRevision m);
  if fr_Status row == StatusActive then retry_active org rid m row
  else retry_finished org rid m row).

(** ** Reconciliation *)

(** One candidate: reload everything under the lock, then start its rollout
    with the channel's behaviour. *)
Definition start_needed (org : Z) (n : ReleaseChannelFirmware) : Op unit := Tx (λ db,
  match GetReleaseChannel org (as_ChannelID n) db with
  | (Err _, db) => (Ok tt, db)
  | (Ok channel, db) =>
      match GetReleaseChannelFirmware (as_ChannelID n) (as_Manufacturer n) (as_Model n) db with
      | None => (Ok tt, db)
      | Some f =>
          if as_FirmwareChecksum f == "" then (Ok tt, db)
          else match GetActiveFirmwareRolloutForPair (as_ChannelID n) (as_Manufacturer n) (as_Model n) db with
          | Some _ => (Ok tt, db)
          | None =>
              (r ← startRollout
                 {| sp_OrgID := org; sp_ChannelID := as_ChannelID n;
                    sp_Pair := {| Manufacturer := as_Manufacturer f; Model := as_Model f |};
                    sp_FirmwareChecksum := as_FirmwareChecksum f;
                    sp_FirmwareVersion := as_FirmwareVersion f;
                    sp_PreviousFirmwareChecksum := as_PreviousFirmwareChecksum f;
                    sp_PreviousFirmwareVersion := as_PreviousFirmwareVersion f;
                    sp_AssignmentGeneration := as_AssignmentGeneration f; sp_Actor := SystemActor;
                    sp_Behavior := behaviorFromChannel channel; sp_Members := None |};
               match r with
               | None => mret tt
               | Some r => logRolloutEvent r EventRolloutStarted true no_extra
               end) db
          end
      end
  end).

(** A loop whose errors are logged and dropped. *)
Definition each {A} (l : list A) (f : A → Op unit) : Op unit :=
  fold_left (λ acc a, acc;; try (f a);; mret tt) l (mret tt).

Definition startNeededRollouts : Op unit :=
  needed ← gets ListReleaseChannelFirmwareNeedingRollout;
  each needed (λ '(org, n), start_needed org n).

Definition reconcile_one (r : FirmwareRollout) : Op unit := Tx (
  _ ← GetReleaseChannel (fr_OrgID r) (fr_ChannelID r);
  '(current, _) ← lockRollout (fr_OrgID r) (fr_ID r) 0;
  if fr_Status current == StatusActive then mret tt else reconcileTerminalProvenance current).

Definition reconcileCompletedDispatches : Op unit :=
  rollouts ← gets ListTerminalFirmwareRolloutsNeedingProvenance;
  each rollouts reconcile_one.

(** Active rollouts of existing channels, by id. *)
Definition ListActiveFirmwareRollouts (db : DB) : list FirmwareRollout :=
  stable_sort (λ a b, fr_ID a <? fr_ID b)
    (List.filter (λ r, (fr_Status r == StatusActive) && is_set (db_channels db !! fr_ChannelID r))
       (map snd (map_to_list (db_rollouts db)))).

(** Prepare every active rollout, then enforce the ones that were prepared. *)
Fixpoint prepare_all (active : list FirmwareRollout) : Op (list (FirmwareRollout * list target)) :=
  match active with
  | [] => mret []
  | r :: rest =>
      p ← try (prepareRollout r);
      ps ← prepare_all rest;
      mret (match p with Some (Some targets) => (r, targets) :: ps | _ => ps end)
  end.

Definition EnforceTick : Op unit :=
  modify (ObserveFirmwareRolloutReservationsOffline None);;
  modify DeleteReleasedFirmwareRolloutReservations;;
  reconcileCompletedDispatches;;
  startNeededRollouts;;
  active ← gets ListActiveFirmwareRollouts;
  prepared ← prepare_all active;
  each prepared (λ '(r, targets), enforceRollout r targets).

(** ** Pages *)

Definition DefaultPageSize : Z := 100.
Definition MaxPageSize : Z := 1000.

Definition clampPageSize (n : Z) : Z :=
  if n <=? 0 then DefaultPageSize else if MaxPageSize <? n then MaxPageSize else n.

(** A page of a rollout's devices at [offset], and the offset of the next page. *)
Definition device_page (devices : list RolloutDevice) (offset pageSize : Z)
    : list RolloutDevice * option Z :=
  let n := Z.of_nat (length devices) in
  if n <=? offset then ([], None)
  else
    let last := Z.min (offset + clampPageSize pageSize) n in
    (take (Z.to_nat (last - offset)) (drop (Z.to_nat offset) devices),
     if last <? n then Some last else None).

Definition ListRolloutDevices (org rid pageSize : Z) (offset : Z)
    : Op (list RolloutDevice * option Z) :=
  row ← gets (GetFirmwareRolloutWithChannel org rid);
  match row with
  | None => throw rolloutLookupError
  | Some (r, _) =>
      if offset <? 0 then throw NewInvalidArgumentError
      else
        targets ← listTargets r;
        mret (device_page (map (view r) targets) offset pageSize)
  end.

End Assign.
