(* ===== verification/RolloutEvolve.v ===== *)
(** * How a transaction may change the rollout tables

    [evolves db db'] is what every transaction of the engine guarantees: a
    rollout keeps its identity, a terminal rollout keeps its header, a header or
    a target row that changes advances the rollout's revision exactly once, a
    halted target stays halted for the same reason, attempts never decrease, and
    events are only appended. The statements satisfy it one by one and it is
    transitive, so an operation satisfies it when its steps do; the tactic
    [keeps] walks through an operation's body. *)

From S2P Require Import Prelude GoSort Float64 Errors RolloutBehavior RolloutStore.
From S2P Require Import RolloutStoreFacts RolloutTargets RolloutEngine RolloutControl.
#[local] Open Scope string_scope.
#[local] Open Scope list_scope.
#[local] Open Scope Z_scope.
#[local] Open Scope go_scope.

(** ** The relation *)

(** What a rollout is, as opposed to where it stands. *)
Definition identity_of (r : FirmwareRollout) :=
  (fr_ID r, fr_OrgID r, fr_ChannelID r, (fr_Manufacturer r, fr_Model r),
   (fr_FirmwareChecksum r, fr_FirmwareVersion r),
   (fr_PreviousFirmwareChecksum r, fr_PreviousFirmwareVersion r),
   fr_AssignmentGeneration r, fr_BehaviorSnapshot r, fr_BatchCount r, fr_StartedBy r, fr_CreatedAt r).

(** The revision rule, within transaction [tx]. *)
Definition revised (tx : Z) (r r' : FirmwareRollout) : Prop :=
  fr_RevisionTxid r' = tx
  ∧ fr_Revision r' = if fr_RevisionTxid r == tx then fr_Revision r else fr_Revision r + 1.

(** What a target is: its place in the rollout and its baseline. *)
Definition plan_of (d : DeviceRow) :=
  (dr_RolloutID d, dr_DeviceID d, dr_BatchIndex d, dr_Position d,
   (dr_BaselineStatus d, dr_BaselineHashRateHs d, dr_BaselinePowerW d, dr_BaselineEfficiencyJh d),
   (dr_BaselineTempC d, dr_BaselineOpenErrors d, dr_BaselineAt d)).

Definition row_grows (d d' : DeviceRow) : Prop :=
  plan_of d' = plan_of d ∧ dr_Attempts d <= dr_Attempts d'
  ∧ (dr_HaltedAt d ≠ None → dr_HaltedAt d' = dr_HaltedAt d ∧ dr_HaltReason d' = dr_HaltReason d).

Definition header_evolves (db db' : DB) (id : Z) (r r' : FirmwareRollout) : Prop :=
  identity_of r' = identity_of r
  ∧ (fr_Status r ≠ StatusActive → same_header r r')
  ∧ ((r' = r ∧ rollout_rows db' id = rollout_rows db id) ∨ revised (db_txid db) r r').

(** Headers are stored under their id. *)
Definition keyed (db : DB) : Prop := ∀ id r, db_rollouts db !! id = Some r → fr_ID r = id.

Record evolves (db db' : DB) : Prop := {
  ev_txid : db_txid db' = db_txid db;
  ev_clock : db_clock db' = db_clock db;
  ev_channels : db_channels db' = db_channels db;
  ev_assignments : db_assignments db' = db_assignments db;
  ev_headers : ∀ id r, db_rollouts db !! id = Some r →
    ∃ r', db_rollouts db' !! id = Some r' ∧ header_evolves db db' id r r';
  ev_rows : ∀ d, d ∈ db_devices db → ∃ d', d' ∈ db_devices db' ∧ row_grows d d';
  ev_events : ∃ new, db_events db' = db_events db ++ new;
  ev_keyed : keyed db → keyed db';
  ev_nextval : db_nextval db' = db_nextval db;
  ev_ids : ∀ id, is_Some (db_rollouts db' !! id) → is_Some (db_rollouts db !! id)
}.

Lemma row_grows_refl d : row_grows d d.
Proof. split_and!; [done|lia|done]. Qed.

Lemma row_grows_trans d1 d2 d3 : row_grows d1 d2 → row_grows d2 d3 → row_grows d1 d3.
Proof.
  intros (P & A & Hh) (P' & A' & H'). split_and!; [congruence|lia|].
  intros Hn. destruct (Hh Hn) as [E1 E2]. rewrite <- E1, <- E2. apply H'. congruence.
Qed.

Lemma same_header_identity r r' : same_header r r' → identity_of r' = identity_of r.
Proof. by intros (? & ? & ? & ->). Qed.

Lemma same_header_status r r' : same_header r r' → fr_Status r' = fr_Status r.
Proof. by intros (? & ? & ? & ->). Qed.

Lemma evolves_refl db : evolves db db.
Proof.
  split; try done.
  - intros id r Hr. exists r. split; [done|]. split_and!; [done|by intros; apply same_header_refl|].
    by left.
  - intros d Hd. exists d. split; [done|apply row_grows_refl].
  - exists []. by rewrite app_nil_r.
Qed.

Lemma revised_trans tx r1 r2 r3 : revised tx r1 r2 → revised tx r2 r3 → revised tx r1 r3.
Proof.
  unfold revised. intros [E1 E2] [E3 E4]. split; [done|]. rewrite E4, E1.
  by rewrite bool_decide_true.
Qed.

Lemma evolves_trans db1 db2 db3 : evolves db1 db2 → evolves db2 db3 → evolves db1 db3.
Proof.
  intros [T1 C1 K1 S1 H1 R1 E1 Y1 N1 I1] [T2 C2 K2 S2 H2 R2 E2 Y2 N2 I2].
  split; try congruence; [..|by auto|by auto].
  - intros id r Hr. destruct (H1 id r Hr) as (r2 & Hr2 & J1 & F1 & V1).
    destruct (H2 id r2 Hr2) as (r3 & Hr3 & J2 & F2 & V2). exists r3. split; [done|].
    split_and!; [congruence| |].
    + intros Hs. specialize (F1 Hs). apply same_header_trans with r2; [done|]. apply F2.
      by rewrite (same_header_status _ _ F1).
    + rewrite T1 in V2. destruct V1 as [[-> Ro1]|V1], V2 as [[-> Ro2]|V2].
      * left. split; congruence.
      * by right.
      * by right.
      * right. eauto using revised_trans.
  - intros d Hd. destruct (R1 d Hd) as (d2 & Hd2 & G1). destruct (R2 d2 Hd2) as (d3 & Hd3 & G2).
    eauto using row_grows_trans.
  - destruct E1 as [n1 E1], E2 as [n2 E2]. exists (n1 ++ n2). by rewrite E2, E1, app_assoc.
Qed.

#[export] Instance evolves_preorder : PreOrder evolves.
Proof. split; [exact evolves_refl|exact evolves_trans]. Qed.

(** ** The statements *)

(** A state that differs only in tables the relation does not read. *)
Lemma evolves_frame db db' :
  db_txid db' = db_txid db → db_clock db' = db_clock db → db_channels db' = db_channels db →
  db_assignments db' = db_assignments db → db_rollouts db' = db_rollouts db →
  db_devices db' = db_devices db → db_events db' = db_events db →
  db_nextval db' = db_nextval db → evolves db db'.
Proof.
  intros T C K S R D E N. split; try done.
  - intros id r Hr'. rewrite R. exists r. split; [done|].
    split_and!; [done|by intros; apply same_header_refl|left]. unfold rollout_rows. by rewrite D.
  - rewrite D. intros d Hd. exists d. split; [done|apply row_grows_refl].
  - exists []. by rewrite app_nil_r.
  - unfold keyed. by rewrite R.
  - by rewrite R.
Qed.

Lemma keyed_update db id r :
  fr_ID r = id → keyed db → keyed (db <| db_rollouts := <[id := r]> (db_rollouts db) |>).
Proof.
  intros Hid Hk j rj. simpl. destruct (decide (id = j)) as [<-|Hne].
  - rewrite lookup_insert_eq. by intros [= <-].
  - rewrite lookup_insert_ne by done. apply Hk.
Qed.

Lemma owned_id r r' : identity_of r' = identity_of r → fr_ID r' = fr_ID r.
Proof. unfold identity_of. congruence. Qed.

Lemma revised_bump db r : revised (db_txid db) r (bump_revision db r).
Proof. split; [apply bump_RevisionTxid|apply bump_Revision]. Qed.

Lemma identity_bump db r : identity_of (bump_revision db r) = identity_of r.
Proof. unfold identity_of, bump_revision. by case_if. Qed.

(** The columns no statement sets: the identity and, but for the triggers, the
    revision. *)
Definition owned_of (r : FirmwareRollout) := (identity_of r, fr_Revision r, fr_RevisionTxid r).

(** A header update that applies to an active rollout, or that changes nothing
    but the revision. *)
Lemma evolves_update id f db r :
  db_rollouts db !! id = Some r →
  owned_of (f r) = owned_of r →
  fr_Status r = StatusActive ∨ f r = r →
  evolves db (update_rollout id f db).
Proof.
  intros Hr Hid Hact. rewrite (update_rollout_lookup _ _ _ _ Hr).
  assert (identity_of (f r) = identity_of r ∧ fr_Revision (f r) = fr_Revision r
    ∧ fr_RevisionTxid (f r) = fr_RevisionTxid r) as (I1 & I2 & I3).
  { unfold owned_of in Hid. by apply pair_eq in Hid as [[? ?]%pair_eq ?]. }
  split; try done.
  - intros j rj Hj. simpl. destruct (decide (id = j)) as [<-|Hne].
    + rewrite Hr in Hj. injection Hj as <-. rewrite lookup_insert_eq. eexists. split; [done|].
      split_and!.
      * by rewrite identity_bump.
      * intros Hs. destruct Hact as [Ha|Hf]; [done|]. rewrite Hf. apply same_header_bump.
      * right. destruct (revised_bump db (f r)) as [E1 E2]. split; [done|]. by rewrite E2, I2, I3.
    + rewrite lookup_insert_ne by done. exists rj. split; [done|].
      split_and!; [done|by intros; apply same_header_refl|by left].
  - simpl. intros d Hd. exists d. split; [done|apply row_grows_refl].
  - exists []. by rewrite app_nil_r.
  - intros Hk. apply keyed_update; [|done]. rewrite bump_ID, (owned_id _ _ I1). by apply Hk.
  - intros j. simpl. rewrite lookup_insert_is_Some'. intros [<-|]; eauto.
Qed.

Lemma evolves_exec id guard f db :
  (∀ r, guard r = true → fr_Status r = StatusActive) → (∀ r, owned_of (f r) = owned_of r) →
  evolves db (exec_rollout id guard f db).2.
Proof.
  intros Hg Hf. unfold exec_rollout. destruct (db_rollouts db !! id) as [r|] eqn:E; [|reflexivity].
  destruct (guard r) eqn:G; [|reflexivity]. simpl. eapply evolves_update; eauto.
Qed.

Lemma evolves_touch db id : evolves db (touch_rollout db id).
Proof.
  unfold touch_rollout. destruct (db_rollouts db !! id) as [r|] eqn:E; [|reflexivity].
  case_if; [|reflexivity]. eapply evolves_update; eauto.
Qed.

Lemma rollout_rows_map rid sel f rows id :
  (∀ d, sel d = true → dr_RolloutID d = rid) → (∀ d, dr_RolloutID (f d) = dr_RolloutID d) →
  id ≠ rid →
  List.filter (λ d, dr_RolloutID d =? id) (map (λ d, if sel d : bool then f d else d) rows)
  = List.filter (λ d, dr_RolloutID d =? id) rows.
Proof.
  intros Hs Hf Hne. induction rows as [|d rows IH]; [done|]. simpl.
  destruct (sel d) eqn:E; simpl; [|by rewrite IH]. rewrite Hf, (Hs d E).
  by replace (rid =? id) with false by lia.
Qed.

(** The revision of [rid] after its touch trigger ran. *)
Lemma touch_rollout_revised db rid r :
  db_rollouts db !! rid = Some r →
  ∃ r', db_rollouts (touch_rollout db rid) !! rid = Some r' ∧ same_header r r'
        ∧ revised (db_txid db) r r'.
Proof.
  intros Hr. unfold touch_rollout. rewrite Hr. case_bool_decide as E; simpl.
  - exists r. split_and!; [done|apply same_header_refl|]. split; [done|]. by rewrite bool_decide_true.
  - rewrite (update_rollout_lookup _ _ _ _ Hr). simpl. rewrite lookup_insert_eq. eexists.
    split_and!; [done|apply same_header_bump|apply revised_bump].
Qed.

(** Changing rows of one rollout and running its touch trigger. *)
Lemma evolves_rows_touch db rid rows :
  (∀ d, d ∈ db_devices db → ∃ d', d' ∈ rows ∧ row_grows d d') →
  (∀ id, id ≠ rid → List.filter (λ d, dr_RolloutID d =? id) rows = rollout_rows db id) →
  evolves db (touch_rollout (db <| db_devices := rows |>) rid).
Proof.
  intros Hrows Hother. set (db1 := db <| db_devices := rows |>).
  destruct (touch_rollout_frame db1 rid) as (F1 & F2 & F3 & F4 & F5 & F6 & F7 & F8 & F9 & F10).
  split; rewrite ?F1, ?F4, ?F5, ?F7, ?F8, ?F9, ?F10; try done.
  - intros id r Hr. destruct (decide (id = rid)) as [->|Hne].
    + destruct (touch_rollout_revised db1 rid r Hr) as (r' & Hr' & Hs & Hv). exists r'.
      split; [done|]. split_and!; [by apply same_header_identity|done|by right].
    + destruct (evolves_touch db1 rid) as [_ _ _ _ Hh _ _ _ _ _].
      destruct (Hh id r Hr) as (r' & Hr' & I & T & V). exists r'. split; [done|].
      split_and!; [done|done|]. destruct V as [[-> V]|V]; [left|by right]. split; [done|].
      rewrite V. by apply Hother.
  - exists []. by rewrite app_nil_r.
  - apply (ev_keyed db1), evolves_touch.
  - apply (ev_ids db1), evolves_touch.
Qed.

Lemma evolves_devices rid ids guard f db :
  (∀ d, guard d = true → row_grows d (f d)) → (∀ d, dr_RolloutID (f d) = dr_RolloutID d) →
  evolves db (update_devices rid ids guard f db).
Proof.
  intros Hg Hf. unfold update_devices.
  destruct (existsb (row_selected rid ids guard) (db_devices db)) eqn:E.
  - apply evolves_rows_touch.
    + intros d Hd. exists (if row_selected rid ids guard d then f d else d).
      split; [apply list_elem_of_fmap; eauto|].
      destruct (row_selected rid ids guard d) eqn:S; [|apply row_grows_refl].
      apply Hg. unfold row_selected in S. by crush_bools.
    + intros id Hne. apply rollout_rows_map with rid; [|done|done].
      intros d S. unfold row_selected in S. crush_bools. done.
  - apply evolves_frame; try done. simpl.
    transitivity (map id (db_devices db)); [|apply map_id]. apply map_ext_in. intros d Hd.
    destruct (row_selected rid ids guard d) eqn:S; [|done].
    assert (existsb (row_selected rid ids guard) (db_devices db) = true); [|congruence].
    apply existsb_exists. eauto.
Qed.

Lemma insert_rows rid new rows :
  ∃ extra, fold_left (λ rows d, if has_device rows rid (dr_DeviceID d) then rows else rows ++ [d])
             new rows = rows ++ extra
  ∧ ∀ d, d ∈ extra → d ∈ new.
Proof.
  revert rows. induction new as [|d new IH]; intros rows; simpl.
  { exists []. split; [by rewrite app_nil_r|]. set_solver. }
  case_if.
  - destruct (IH rows) as (extra & -> & Hin). exists extra. set_solver.
  - destruct (IH (rows ++ [d])) as (extra & -> & Hin). exists (d :: extra).
    split; [by rewrite <- app_assoc|]. set_solver.
Qed.

Lemma evolves_insert rid new db :
  (∀ d, d ∈ new → dr_RolloutID d = rid) → evolves db (insert_devices rid new db).
Proof.
  intros Hnew. unfold insert_devices. destruct (insert_rows rid new (db_devices db)) as (extra & -> & Hin).
  rewrite length_app. case_if.
  - apply evolves_rows_touch.
    + intros d Hd. exists d. split; [set_solver|apply row_grows_refl].
    + intros id Hne. unfold rollout_rows. rewrite List.filter_app.
      assert (List.filter (λ d, dr_RolloutID d =? id) extra = []) as ->; [|by rewrite app_nil_r].
      assert (∀ d, d ∈ extra → dr_RolloutID d = rid) as Hx by eauto. clear -Hx Hne.
      induction extra as [|d extra IH]; [done|]. simpl.
      rewrite (Hx d) by set_solver. replace (rid =? id) with false by lia. apply IH. set_solver.
  - apply Nat.ltb_ge in E. assert (extra = []) as -> by (destruct extra; [done|simpl in E; lia]).
    apply evolves_frame; try done. simpl. by rewrite app_nil_r.
Qed.

Lemma evolves_deployment rid checksum version obs db :
  evolves db (RecordFirmwareDeployment rid checksum version obs db).
Proof.
  unfold RecordFirmwareDeployment. destruct (fold_left _ obs _) as [deps touched].
  transitivity (db <| db_deployments := deps |>); [by apply evolves_frame|].
  generalize (db <| db_deployments := deps |>). induction touched as [|id touched IH]; intros db1; simpl.
  - reflexivity.
  - transitivity (touch_rollout db1 id); [apply evolves_touch|apply IH].
Qed.

Lemma evolves_event rid type actor note ids db :
  evolves db (CreateFirmwareRolloutEvent rid type actor note ids db).
Proof.
  unfold CreateFirmwareRolloutEvent. destruct (db_rollouts db !! rid); [|reflexivity].
  split; try done.
  - intros id r Hr. exists r. split; [done|]. split_and!; [done|by intros; apply same_header_refl|by left].
  - intros d Hd. exists d. split; [done|apply row_grows_refl].
  - eauto.
Qed.

Lemma evolves_sent rid ids dispatched uuid db :
  evolves db (MarkFirmwareRolloutDevicesSent rid ids dispatched uuid db).
Proof.
  unfold MarkFirmwareRolloutDevicesSent.
  transitivity (update_devices rid ids (λ _, true) (mark_sent_row db dispatched uuid) db).
  - apply evolves_devices; [|done]. intros d _. split_and!; [done|simpl; lia|done].
  - destruct (db_rollouts db !! rid); [|reflexivity]. case_if; [by apply evolves_frame|reflexivity].
Qed.

Ltac row_update := intros; crush_bools; split_and!; [done|simpl; lia|simpl; try congruence; done].

Lemma evolves_halt rid ids why err db : evolves db (HaltFirmwareRolloutDevices rid ids why err db).
Proof. apply evolves_devices; [row_update|done]. Qed.
Lemma evolves_skip rid ids note db : evolves db (SkipFirmwareRolloutDevices rid ids note db).
Proof. apply evolves_devices; [row_update|done]. Qed.
Lemma evolves_verify rid ids db : evolves db (MarkFirmwareRolloutDevicesVerified rid ids db).
Proof. apply evolves_devices; [row_update|done]. Qed.
Lemma evolves_unverify rid ids db : evolves db (UnverifyFirmwareRolloutDevices rid ids db).
Proof. apply evolves_devices; [row_update|done]. Qed.
Lemma evolves_exclude rid ids db : evolves db (ExcludeFirmwareRolloutDevices rid ids db).
Proof. apply evolves_devices; [row_update|done]. Qed.
Lemma evolves_reinclude rid ids db : evolves db (ReincludeFirmwareRolloutDevices rid ids db).
Proof. apply evolves_devices; [row_update|done]. Qed.

Lemma evolves_append rid ids db : evolves db (AppendFirmwareRolloutDevices rid ids db).
Proof.
  apply evolves_insert. intros d. unfold AppendFirmwareRolloutDevices.
  intros Hd. apply list_elem_of_fmap in Hd as (id & -> & _). done.
Qed.

Lemma evolves_snapshot rid ids batch offset db :
  evolves db (SnapshotFirmwareRolloutDevices rid ids batch offset db).
Proof.
  apply evolves_insert. intros d Hd. apply elem_of_lookup_imap in Hd as (i & id & -> & _). done.
Qed.

Lemma evolves_observe channel db : evolves db (ObserveFirmwareRolloutReservationsOffline channel db).
Proof. by apply evolves_frame. Qed.

Ltac header_update := apply evolves_exec; [intros; crush_bools; done|done].

Lemma evolves_pause id a db : evolves db (PauseFirmwareRollout id a db).2.
Proof. header_update. Qed.
Lemma evolves_resume id a db : evolves db (ResumeFirmwareRollout id a db).2.
Proof. header_update. Qed.
Lemma evolves_cancel id a db : evolves db (CancelFirmwareRollout id a db).2.
Proof. header_update. Qed.
Lemma evolves_finish id s db : evolves db (FinishFirmwareRollout id s db).2.
Proof. header_update. Qed.
Lemma evolves_complete id s a db : evolves db (CompleteDelegatedFirmwareRollout id s a db).
Proof. header_update. Qed.

Lemma evolves_stage id from to batch c p a db :
  evolves db (AdvanceFirmwareRolloutStage id from to batch c p a db).2.
Proof.
  unfold AdvanceFirmwareRolloutStage. destruct (db_rollouts db !! id) as [r|] eqn:E; [|reflexivity].
  destruct (_ && _) eqn:G; [|reflexivity]. simpl. crush_bools. eapply evolves_update; eauto.
Qed.

(** The two statements without a status guard keep the relation from a state
    in which the rollout was active. *)
Definition active_at (db : DB) (id : Z) : Prop :=
  ∀ r, db_rollouts db !! id = Some r → fr_Status r = StatusActive.

Lemma evolves_update_from db0 db id f :
  evolves db0 db → active_at db0 id → (∀ r, owned_of (f r) = owned_of r) →
  evolves db0 (update_rollout id f db).
Proof.
  intros [T C K S Hh R E Y N J] Ha Hf. destruct (db_rollouts db !! id) as [rc|] eqn:Hc.
  2:{ unfold update_rollout. by rewrite Hc. }
  rewrite (update_rollout_lookup _ _ _ _ Hc). split; try done.
  3:{ intros j. simpl. rewrite lookup_insert_is_Some'. intros [<-|]; eauto. }
  2:{ intros Hk. apply keyed_update; [|by auto]. rewrite bump_ID.
      pose proof (Hf rc) as [[F1 _]%pair_eq _]%pair_eq. rewrite (owned_id _ _ F1). by apply Y. }
  intros j r Hj. destruct (Hh j r Hj) as (r' & Hr' & I & F & V). simpl.
  destruct (decide (id = j)) as [<-|Hne].
  - rewrite lookup_insert_eq. rewrite Hc in Hr'. injection Hr' as <-. eexists. split; [done|].
    specialize (Hf rc). apply pair_eq in Hf as [[F1 F2]%pair_eq F3]. split_and!.
    + rewrite identity_bump. congruence.
    + by specialize (Ha r Hj).
    + right. destruct (revised_bump db (f rc)) as [B1 B2]. rewrite T in B1, B2.
      split; [done|]. rewrite B2, F2, F3. destruct V as [[-> _]|[V1 V2]]; [done|].
      rewrite V1, V2. by rewrite bool_decide_true.
  - rewrite lookup_insert_ne by done. exists r'. split; [done|]. split_and!; done.
Qed.

Lemma evolves_wait db0 db id w :
  evolves db0 db → active_at db0 id → evolves db0 (SetFirmwareRolloutControllerWait id w db).
Proof.
  intros He Ha. unfold SetFirmwareRolloutControllerWait, exec_rollout.
  destruct (db_rollouts db !! id) as [r|]; [|done]. case_if; simpl; [|done].
  by apply evolves_update_from.
Qed.

Lemma evolves_action db0 db id a :
  evolves db0 db → active_at db0 id → evolves db0 (RecordFirmwareRolloutAction id a db).
Proof. intros He Ha. by apply evolves_update_from. Qed.

(** ** Operations *)

(** [Keeps db0 m]: run from any state that evolved from [db0], [m] ends, with a
    value or a fault, in a state that did. *)
Definition Keeps {A} (db0 : DB) (m : Op A) : Prop :=
  ∀ db, evolves db0 db → evolves db0 (m db).2.

Create HintDb keeps.

Lemma keeps_ret {A} db0 (a : A) : Keeps db0 (mret a).
Proof. by intros db. Qed.
Lemma keeps_fail {A} db0 e : Keeps db0 (fail e : Op A).
Proof. by intros db. Qed.
Lemma keeps_gets {A} db0 (f : DB → A) : Keeps db0 (gets f).
Proof. by intros db. Qed.
Lemma keeps_bind {A B} db0 (m : Op A) (f : A → Op B) :
  Keeps db0 m → (∀ a, Keeps db0 (f a)) → Keeps db0 (m ≫= f).
Proof.
  intros Hm Hf db He. specialize (Hm db He). unfold mbind, M_bind in *.
  destruct (m db) as [[a|e] db1]; [by apply Hf|done].
Qed.
Lemma keeps_modify db0 f : (∀ db, evolves db (f db)) → Keeps db0 (modify f).
Proof. intros Hf db He. simpl. etransitivity; [done|apply Hf]. Qed.
Lemma keeps_query {A} db0 (f : DB → A * DB) : (∀ db, evolves db (f db).2) → Keeps db0 (query f).
Proof.
  intros Hf db He. unfold query. specialize (Hf db). destruct (f db) as [a db']. simpl in *.
  by etransitivity.
Qed.
Lemma keeps_when db0 b m : Keeps db0 m → Keeps db0 (when b m).
Proof. intros Hm. destruct b; [done|apply keeps_ret]. Qed.
Lemma keeps_wait db0 id w `{Env} : active_at db0 id → Keeps db0 (setControllerWait id w).
Proof. intros Ha db He. by apply evolves_wait. Qed.
Lemma keeps_action db0 id a : active_at db0 id → Keeps db0 (modify (RecordFirmwareRolloutAction id a)).
Proof. intros Ha db He. by apply evolves_action. Qed.

(** An operation that keeps the relation from its own start does so from any. *)
Lemma keeps_from {A} db0 (m : Op A) : (∀ db, Keeps db m) → Keeps db0 m.
Proof. intros Hm. apply Hm. Qed.

#[export] Hint Resolve keeps_ret keeps_fail keeps_gets keeps_action keeps_wait : keeps.
#[export] Hint Resolve evolves_halt evolves_skip evolves_verify evolves_unverify evolves_exclude
  evolves_reinclude evolves_append evolves_snapshot evolves_observe evolves_pause evolves_resume
  evolves_cancel evolves_finish evolves_complete evolves_stage evolves_deployment evolves_event
  evolves_sent : keeps.

(** Walk through a body: sequencing, branches, and the hints at the leaves. *)
Ltac keeps :=
  repeat first
    [ solve [eauto 3 with keeps]
    | progress intros
    | match goal with
      | |- Keeps _ (_ ≫= _) => apply keeps_bind
      | |- Keeps _ (when _ _) => apply keeps_when
      | |- Keeps _ (modify _) => apply keeps_modify
      | |- Keeps _ (query _) => apply keeps_query
      | |- Keeps _ (match ?x with _ => _ end) => destruct x eqn:?
      | |- Keeps _ (if ?x then _ else _) => destruct x eqn:?
      | |- Keeps _ (let '(_, _) := ?x in _) => destruct x eqn:?
      end ].

Section Keeps.
Context `{Env}.

Lemma keeps_rollout db0 org rid : Keeps db0 (GetFirmwareRollout org rid).
Proof.
  intros db He. unfold GetFirmwareRollout. destruct (db_rollouts db !! rid); [|done]. by case_if.
Qed.
Lemma keeps_channel db0 org cid : Keeps db0 (GetReleaseChannel org cid).
Proof.
  intros db He. unfold GetReleaseChannel. destruct (db_channels db !! cid); [|done]. by case_if.
Qed.
Hint Resolve keeps_rollout keeps_channel : keeps.

Lemma keeps_precondition {A} db0 why : Keeps db0 (precondition why : Op A).
Proof. apply keeps_fail. Qed.
Lemma keeps_precondition_on {A} db0 why ids : Keeps db0 (precondition_on why ids : Op A).
Proof. apply keeps_fail. Qed.
Lemma keeps_throw {A} db0 e : Keeps db0 (throw e : Op A).
Proof. apply keeps_fail. Qed.
Lemma keeps_liftR {A} db0 (r : result FleetError A) : Keeps db0 (liftR r).
Proof. destruct r; [apply keeps_ret|apply keeps_fail]. Qed.
Hint Resolve keeps_precondition keeps_precondition_on keeps_throw keeps_liftR : keeps.

Lemma keeps_lock db0 org rid e : Keeps db0 (lockRollout org rid e).
Proof.
  unfold lockRollout. keeps.
Qed.
Lemma keeps_list db0 r : Keeps db0 (listTargets r).
Proof. apply keeps_gets. Qed.
Hint Resolve keeps_lock keeps_list : keeps.

Lemma keeps_log db0 r type system x : Keeps db0 (logRolloutEvent r type system x).
Proof.
  unfold logRolloutEvent, persistRolloutEvent. keeps. generalize db.
  induction (event_batches _ _) as [|b bs IH]; intros db1; [reflexivity|]. simpl.
  etransitivity; [apply evolves_event|apply IH].
Qed.
Hint Resolve keeps_log : keeps.

Lemma keeps_transition db0 r from to : Keeps db0 (transition r from to).
Proof. unfold transition. keeps. Qed.
Lemma keeps_advance db0 r from m : Keeps db0 (advance r from m).
Proof. unfold advance. keeps. Qed.
Hint Resolve keeps_transition keeps_advance : keeps.

Lemma keeps_exclude db0 r ts : Keeps db0 (excludeDepartedTargets r ts).
Proof. unfold excludeDepartedTargets. keeps. Qed.
Hint Resolve keeps_exclude : keeps.
Lemma keeps_sync db0 r : Keeps db0 (syncMembership r).
Proof. unfold syncMembership. keeps. Qed.
Lemma keeps_provenance db0 r ts b : Keeps db0 (recordDeploymentProvenance r ts b).
Proof. unfold recordDeploymentProvenance. keeps. Qed.
Lemma keeps_convergence db0 r ts : Keeps db0 (recordConvergence r ts).
Proof. unfold recordConvergence. keeps. Qed.
Lemma keeps_budget db0 c l : Keeps db0 (refreshOfflineBudget c l).
Proof. unfold refreshOfflineBudget. keeps. Qed.
Hint Resolve keeps_sync keeps_provenance keeps_convergence keeps_budget : keeps.

Lemma keeps_dispatch db0 r scope budget : Keeps db0 (dispatchLockedBatch r scope budget).
Proof.
  unfold dispatchLockedBatch, dispatch_halts, dispatch_due. keeps.
  match goal with |- evolves _ (let '(_, _) := ?x in _).2 => destruct x end. by apply evolves_frame.
Qed.
Hint Resolve keeps_dispatch : keeps.
End Keeps.

#[export] Hint Resolve keeps_rollout keeps_channel keeps_precondition keeps_precondition_on
  keeps_throw keeps_liftR keeps_lock keeps_list keeps_log keeps_transition keeps_advance
  keeps_exclude keeps_sync keeps_provenance keeps_convergence keeps_budget keeps_dispatch : keeps.
