(* ===== verification/RolloutHistory.v ===== *)
(** * The history of the rollout tables

    Every request of the engine, the enforcement loop's and the operator's, is a
    sequence of transactions that each satisfy the relation of [RolloutEvolve],
    and the rest of the world may move in between. Along any such history a
    finished rollout is never rewritten, a revision never goes back, and each
    transaction that changes a rollout advances its revision exactly once.
    [RolloutLineage] adds the requests that start rollouts or retry targets. *)

From S2P Require Import Prelude GoSort Float64 Errors RolloutBehavior RolloutStore.
From S2P Require Import RolloutStoreFacts RolloutTargets RolloutEngine RolloutControl.
From S2P Require Import RolloutEvolve.
#[local] Open Scope string_scope.
#[local] Open Scope list_scope.
#[local] Open Scope Z_scope.
#[local] Open Scope go_scope.

(** ** One transaction *)

Definition begin (db : DB) : DB := db <| db_txid := db_txid db + 1 |>.

Definition committed (db db' : DB) : Prop := db' = db ∨ evolves (begin db) db'.

Definition At {A} (db : DB) (m : Op A) : Prop := evolves db (m db).2.

Lemma Tx_committed {A} db (m : Op A) : At (begin db) m → committed db (Tx m db).2.
Proof.
  unfold committed, At, Tx, RunInTx. change ((modify _;; m) db) with (m (begin db)).
  destruct (m (begin db)) as [[a|e] db']; simpl; [by right|by left].
Qed.

Lemma Tx_fault {A} db (m : Op A) e db' : Tx m db = (Err e, db') → db' = db.
Proof. apply RunInTx_err. Qed.

Lemma Tx_value {A} db (m : Op A) a db' :
  Tx m db = (Ok a, db') ↔ m (begin db) = (Ok a, db').
Proof. unfold Tx. rewrite RunInTx_ok. done. Qed.

Lemma At_keeps {A} db (m : Op A) : Keeps db m → At db m.
Proof. intros Hm. apply Hm. reflexivity. Qed.

Section History.
Context `{Env}.

Lemma GetReleaseChannel_state org cid db : (GetReleaseChannel org cid db).2 = db.
Proof. unfold GetReleaseChannel. destruct (_ !! _); [by case_if|done]. Qed.

Lemma GetFirmwareRollout_ok org rid db r db' :
  GetFirmwareRollout org rid db = (Ok r, db') →
  db' = db ∧ db_rollouts db !! rid = Some r ∧ fr_OrgID r = org.
Proof.
  unfold GetFirmwareRollout. destruct (db_rollouts db !! rid); [|done]. case_if; [|done].
  intros. simplify_eq. done.
Qed.

Lemma At_channel {A} db org cid (f : ReleaseChannel → Op A) :
  (∀ c, At db (f c)) → At db (GetReleaseChannel org cid ≫= f).
Proof.
  intros Hf. unfold At, mbind, M_bind. pose proof (GetReleaseChannel_state org cid db) as Hs.
  destruct (GetReleaseChannel org cid db) as [[c|e] db1]; simpl in Hs; subst; [apply Hf|reflexivity].
Qed.

Lemma At_rollout {A} db org rid (f : FirmwareRollout → Op A) :
  (∀ r, At db (f r)) → At db (GetFirmwareRollout org rid ≫= f).
Proof.
  intros Hf. unfold At, mbind, M_bind, GetFirmwareRollout.
  destruct (db_rollouts db !! rid); [|reflexivity]. case_if; [apply Hf|reflexivity].
Qed.

(** The lock returns the stored row; the rest runs knowing it. *)
Lemma lockRollout_ok org rid e db r name db' :
  lockRollout org rid e db = (Ok (r, name), db') →
  db' = db ∧ db_rollouts db !! rid = Some r ∧ fr_OrgID r = org ∧ (e = 0 ∨ fr_Revision r = e).
Proof.
  unfold lockRollout. intros Hl. apply M_bind_ok in Hl as (r1 & db1 & Hg & Hl).
  apply GetFirmwareRollout_ok in Hg as (-> & Hr & Ho).
  destruct (negb (e =? 0) && negb (fr_Revision r1 =? e)) eqn:E; [done|].
  apply M_bind_ok in Hl as (c & db2 & Hc & Hl).
  pose proof (GetReleaseChannel_state org (fr_ChannelID r1) db) as Hs. rewrite Hc in Hs.
  apply M_ret_ok in Hl as [Hl ->]. simpl in Hs. simplify_eq. split_and!; [done..|].
  apply andb_false_iff in E as [E|E]; crush_bools; auto.
Qed.

Lemma At_lock {A} db org rid e (f : FirmwareRollout * string → Op A) :
  (∀ r name, db_rollouts db !! rid = Some r → At db (f (r, name))) →
  At db (lockRollout org rid e ≫= f).
Proof.
  intros Hf. unfold At, mbind, M_bind.
  pose proof (At_keeps db _ (keeps_lock db org rid e)) as Hk. unfold At in Hk.
  destruct (lockRollout org rid e db) as [[[r name]|err] db1] eqn:E; [|done].
  apply lockRollout_ok in E as (-> & Hr & _). by apply Hf.
Qed.

(** The row a lock returned is active, so the unguarded statements apply. *)
Lemma active_row db rid r :
  keyed db → db_rollouts db !! rid = Some r → fr_Status r = StatusActive → active_at db (fr_ID r).
Proof. intros Hk Hr Hs r'. rewrite (Hk _ _ Hr). rewrite Hr. by intros [= <-]. Qed.

Lemma keyed_begin db : keyed db → keyed (begin db).
Proof. done. Qed.

(** ** The requests *)

Inductive Request :=
| Prepare (r : FirmwareRollout)
| Enforce (r : FirmwareRollout) (targets : list target)
| Continue (org rid : Z) (m : Mutation)
| Pause (org rid : Z) (m : Mutation)
| Resume (org rid : Z) (m : Mutation)
| Cancel (org rid : Z) (m : Mutation)
| Advance (org rid : Z) (sel : DeviceSelection) (m : Mutation)
| Skip (org rid : Z) (ids : list string) (m : Mutation)
| Complete (org rid : Z) (m : Mutation).

Definition serve (q : Request) : Op unit :=
  match q with
  | Prepare r => prepareRollout r;; mret tt
  | Enforce r targets => enforceRollout r targets
  | Continue org rid m => ContinueRollout org rid m;; mret tt
  | Pause org rid m => PauseRollout org rid m;; mret tt
  | Resume org rid m => ResumeRollout org rid m;; mret tt
  | Cancel org rid m => CancelRollout org rid m;; mret tt
  | Advance org rid sel m => AdvanceRollout org rid sel m;; mret tt
  | Skip org rid ids m => SkipRolloutDevices org rid ids m;; mret tt
  | Complete org rid m => CompleteRollout org rid m;; mret tt
  end.

Ltac locked :=
  let r := fresh "r" in let name := fresh "name" in let Hr := fresh "Hr" in
  apply At_lock; intros r name Hr.

Ltac when_active :=
  match goal with
  | Hr : db_rollouts _ !! _ = Some ?r |- At _ (if negb (bool_decide (fr_Status ?r = _)) then _ else _) =>
      let Hs := fresh "Hs" in let Ha := fresh "Ha" in
      case_bool_decide as Hs; simpl; [|by apply At_keeps; keeps];
      pose proof (active_row _ _ _ ltac:(eassumption) Hr Hs) as Ha
  end.

Lemma prepare_committed db r : keyed db → committed db (prepareRollout r db).2.
Proof.
  intros Hk%keyed_begin. unfold prepareRollout. apply Tx_committed, At_channel. intros c. locked.
  when_active. apply At_keeps. unfold recordProvenance. keeps.
Qed.

Lemma dispatch_committed db r : committed db (dispatchUpdates r db).2.
Proof.
  unfold dispatchUpdates, dispatchLockedUpdates. apply Tx_committed, At_keeps. keeps.
Qed.

Lemma progress_committed db r : committed db (advanceRolloutProgress r db).2.
Proof.
  unfold advanceRolloutProgress. apply Tx_committed, At_keeps.
  unfold progress_settled, progress_review, progress_finish. keeps.
Qed.

Lemma delegated_committed db r : keyed db → committed db (enforceDelegated r db).2.
Proof.
  intros Hk%keyed_begin. unfold enforceDelegated. apply Tx_committed. locked.
  case_bool_decide as Hs; simpl; [|by apply At_keeps; keeps].
  pose proof (active_row _ _ _ Hk Hr Hs) as Ha. apply At_keeps. unfold completeDelegated. keeps.
Qed.

Lemma keeps_hold db0 r ts b : Keeps db0 (dispatchHoldReason r ts b).
Proof. unfold dispatchHoldReason. keeps. Qed.

Lemma keeps_view db0 org rid : Keeps db0 (refreshView org rid).
Proof. unfold refreshView, rolloutView. pose proof keeps_hold. keeps. Qed.

(** A control's change, run on the active row the lock returned. *)
Lemma mutate_committed db org rid m change :
  keyed db →
  (∀ db0 r, active_at db0 (fr_ID r) → fr_ID r = rid → Keeps db0 (change r)) →
  committed db (mutateActive org rid m change db).2.
Proof.
  intros Hk%keyed_begin Hc. unfold mutateActive. apply Tx_committed. locked. when_active.
  apply At_keeps. pose proof (keeps_view (begin db) org rid). specialize (Hc (begin db) r Ha (Hk _ _ Hr)).
  keeps.
Qed.

Lemma committed_bind {A} db (m : Op A) : committed db (m db).2 → committed db ((m;; mret tt) db).2.
Proof. unfold mbind, M_bind. by destruct (m db) as [[a|e] db']. Qed.

Lemma committed_lift {A B} db (r : result FleetError A) (m : Op B) :
  committed db (m db).2 → committed db ((liftR r;; m) db).2.
Proof. destruct r; [done|by left]. Qed.

Lemma keeps_assignment db0 r : Keeps db0 (currentAssignment r).
Proof. unfold currentAssignment. keeps. Qed.

Lemma advance_committed db org rid sel m :
  keyed db → committed db (Tx (advance_body org rid sel m) db).2.
Proof.
  intros Hk%keyed_begin. apply Tx_committed. unfold advance_body.
  apply At_rollout. intros o. apply At_channel. intros c. locked. unfold requireDelegated.
  case_bool_decide as Hs; simpl; [|exact (evolves_refl _)].
  pose proof (active_row _ _ _ Hk Hr Hs) as Ha. apply At_keeps.
  pose proof (keeps_view (begin db) org rid). pose proof (keeps_assignment (begin db) r).
  unfold advance_selected. keeps.
Qed.

(** Every request but an enforcement step is one transaction. *)
Lemma controls_committed db q :
  keyed db → (∀ r ts, q ≠ Enforce r ts) → committed db (serve q db).2.
Proof.
  intros Hk Hq. destruct q as [r|r ts|org rid m|org rid m|org rid m|org rid m|org rid sel m|org rid ids m|org rid m];
    simpl; [| by destruct (Hq r ts) | ..]; apply committed_bind.
  - by apply prepare_committed.
  - apply mutate_committed; [done|]. intros db0 r _ _. keeps.
  - apply mutate_committed; [done|]. intros db0 r _ _. keeps.
  - apply mutate_committed; [done|]. intros db0 r Ha Hid. simpl. keeps.
  - apply mutate_committed; [done|]. intros db0 r _ _. unfold cancel_change. keeps.
  - unfold AdvanceRollout. apply committed_lift. case_if; [by left|].
    case_if; [apply committed_lift|]; by apply advance_committed.
  - unfold SkipRolloutDevices. do 2 apply committed_lift. apply mutate_committed; [done|].
    intros db0 r Ha _. unfold skipTargets. keeps.
  - unfold CompleteRollout. apply committed_lift. apply mutate_committed; [done|].
    intros db0 r Ha _. pose proof (keeps_assignment db0 r).
    unfold complete_change, completeDelegated, skipTargets, requireDelegated. keeps.
Qed.

(** An enforcement step is a sequence of transactions. *)
Lemma committed_keyed db db' : committed db db' → keyed db → keyed db'.
Proof. intros [->|He] Hk; [done|]. by apply (ev_keyed _ _ He). Qed.

Definition Commits {A} (m : Op A) : Prop := ∀ db, keyed db → rtc committed db (m db).2.

Lemma commits_one {A} (m : Op A) : (∀ db, keyed db → committed db (m db).2) → Commits m.
Proof. intros Hm db Hk. by apply rtc_once, Hm. Qed.

Lemma commits_ret {A} (a : A) : Commits (mret a).
Proof. by intros db Hk. Qed.

Lemma commits_bind {A B} (m : Op A) (f : A → Op B) :
  Commits m → (∀ a, Commits (f a)) → Commits (m ≫= f).
Proof.
  intros Hm Hf db Hk. specialize (Hm db Hk). unfold mbind, M_bind.
  destruct (m db) as [[a|e] db1]; simpl in *; [|done]. etransitivity; [done|]. apply Hf.
  clear -Hk Hm. induction Hm; [done|]. eauto using committed_keyed.
Qed.

Lemma enforce_commits r targets : Commits (enforceRollout r targets).
Proof.
  assert (∀ r, Commits (dispatchUpdates r)) as Hd.
  { intros. apply commits_one. intros. apply dispatch_committed. }
  assert (∀ r, Commits (advanceRolloutProgress r)) as Hp.
  { intros. apply commits_one. intros. apply progress_committed. }
  unfold enforceRollout. case_if; [apply commits_ret|].
  case_if; [apply commits_one; intros; by apply delegated_committed|].
  apply commits_bind.
  { case_if; [|apply commits_ret]. apply commits_bind; [done|]. intros. apply commits_ret. }
  intros go. case_if; [apply commits_ret|]. apply commits_bind; [done|]. intros [r'|]; [|apply commits_ret].
  apply commits_bind; [done|]. intros n. case_if; [apply commits_ret|].
  apply commits_bind; [done|]. intros. apply commits_ret.
Qed.

Lemma serve_commits q : Commits (serve q).
Proof.
  assert (∀ q, (∀ r ts, q ≠ Enforce r ts) → Commits (serve q)) as Hc.
  { intros q' Hq. apply commits_one. intros. by apply controls_committed. }
  destruct q; try (by apply Hc). apply enforce_commits.
Qed.

End History.

(** ** Histories *)

(** One step of the system: a request served under some environment, or a
    change of the tables the engine does not own and of the clock. *)
Inductive step (db : DB) : DB → Prop :=
| step_serve (E : Env) (q : Request) : step db (serve q db).2
| step_world (w : World) (clock : Z) (channels : gmap Z ReleaseChannel)
    (assignments : list ReleaseChannelFirmware) :
    db_clock db <= clock →
    step db (db <| db_world := w |> <| db_clock := clock |> <| db_channels := channels |>
                <| db_assignments := assignments |>).

(** What a history guarantees for a rollout and its targets. *)
Definition header_grows (r r' : FirmwareRollout) : Prop :=
  identity_of r' = identity_of r ∧ (fr_Status r ≠ StatusActive → same_header r r')
  ∧ fr_Revision r <= fr_Revision r'.

Record grows (db db' : DB) : Prop := {
  gr_headers : ∀ id r, db_rollouts db !! id = Some r →
    ∃ r', db_rollouts db' !! id = Some r' ∧ header_grows r r';
  gr_rows : ∀ d, d ∈ db_devices db → ∃ d', d' ∈ db_devices db' ∧ row_grows d d';
  gr_events : ∃ new, db_events db' = db_events db ++ new;
  gr_keyed : keyed db → keyed db'
}.

#[export] Instance grows_preorder : PreOrder grows.
Proof.
  split.
  - intros db. split; try done.
    + intros id r Hr. exists r. split; [done|]. split_and!; [done|by intros; apply same_header_refl|lia].
    + intros d Hd. exists d. split; [done|apply row_grows_refl].
    + exists []. by rewrite app_nil_r.
  - intros db1 db2 db3 [H1 R1 E1 K1] [H2 R2 E2 K2]. split.
    + intros id r Hr. destruct (H1 id r Hr) as (r2 & Hr2 & I1 & F1 & V1).
      destruct (H2 id r2 Hr2) as (r3 & Hr3 & I2 & F2 & V2). exists r3. split; [done|].
      split_and!; [congruence| |lia]. intros Hs. specialize (F1 Hs).
      apply same_header_trans with r2; [done|]. apply F2. by rewrite (same_header_status _ _ F1).
    + intros d Hd. destruct (R1 d Hd) as (d2 & Hd2 & G1). destruct (R2 d2 Hd2) as (d3 & Hd3 & G2).
      eauto using row_grows_trans.
    + destruct E1 as [n1 E1], E2 as [n2 E2]. exists (n1 ++ n2). by rewrite E2, E1, app_assoc.
    + auto.
Qed.

Lemma committed_grows db db' : committed db db' → grows db db'.
Proof.
  intros [->|[T C K S Hh R E Y N J]]; [reflexivity|]. split; try done.
  intros id r Hr. destruct (Hh id r Hr) as (r' & Hr' & I & F & V). exists r'. split; [done|].
  split_and!; [done|done|]. destruct V as [[-> _]|[_ ->]]; [lia|]. case_bool_decide; lia.
Qed.

Lemma step_grows db db' : keyed db → step db db' → grows db db'.
Proof.
  intros Hk Hs. destruct Hs as [E q|w clock ch asg Hc].
  - pose proof (serve_commits q db Hk) as Hr. clear Hk. induction Hr as [|x y z Hxy Hyz IH]; [reflexivity|].
    etransitivity; [by apply committed_grows|done].
  - split; try done.
    + intros id r Hr. exists r. split; [done|].
      split_and!; [done|by intros; apply same_header_refl|lia].
    + intros d Hd. exists d. split; [done|apply row_grows_refl].
    + exists []. simpl. by rewrite app_nil_r.
Qed.

Lemma steps_grow db db' : rtc step db db' → keyed db → grows db db'.
Proof.
  induction 1 as [|db1 db2 db3 Hs Hrest IH]; intros Hk; [reflexivity|].
  pose proof (step_grows _ _ Hk Hs) as Hg. etransitivity; [exact Hg|]. apply IH. by apply Hg.
Qed.


(** The revision columns of the stored rollouts come from earlier transactions. *)
Definition past_txids (db : DB) : Prop :=
  ∀ id r, db_rollouts db !! id = Some r → fr_RevisionTxid r <= db_txid db.

(** C30: An operator request or the preparation of a rollout either leaves a rollout's header and
    target rows as they are, or advances its revision by exactly one, however many statements it
    runs. *)
Theorem revision_advances_once `{Env} db q id r :
  keyed db → past_txids db → (∀ r ts, q ≠ Enforce r ts) → db_rollouts db !! id = Some r →
  let db' := (serve q db).2 in
  ∃ r', db_rollouts db' !! id = Some r'
    ∧ ((r' = r ∧ rollout_rows db' id = rollout_rows db id) ∨ fr_Revision r' = fr_Revision r + 1).
Proof.
  intros Hk Hp Hq Hr db'. destruct (controls_committed db q Hk Hq) as [E|E]; fold db' in E.
  - rewrite E. eauto.
  - destruct (ev_headers _ _ E id r Hr) as (r' & Hr' & _ & _ & V). exists r'. split; [done|].
    destruct V as [[-> V]|[_ V]]; [by left|right]. rewrite V, bool_decide_false; [done|].
    simpl. specialize (Hp id r Hr). lia.
Qed.
