(* ===== verification/RolloutLineage.v ===== *)
(** * Every request, and one active rollout per pair

    The assignment requests, retries and the enforcement pass start rollouts,
    supersede active ones and put halted targets back. They satisfy a coarser
    relation than the transactions of [RolloutEvolve]: headers keep their
    identity and finished headers their content, targets keep their place,
    events are only appended. [Lin P m Q] says that an operation satisfies it
    from a sound state in which [P] holds, and that its results satisfy [Q];
    soundness includes the database's unique index: at most one active rollout
    per channel and pair. *)

From S2P Require Import Prelude GoSort Float64 Errors RolloutBehavior RolloutStore.
From S2P Require Import RolloutStoreFacts RolloutTargets RolloutEngine RolloutControl RolloutAssign.
From S2P Require Import RolloutEvolve RolloutHistory.
#[local] Open Scope string_scope.
#[local] Open Scope list_scope.
#[local] Open Scope Z_scope.
#[local] Open Scope go_scope.

(** ** Sound tables *)

(** The active rollouts of a pair. *)
Definition active_for (channel : Z) (manufacturer model : string) (r : FirmwareRollout) : Prop :=
  fr_Status r = StatusActive ∧ fr_ChannelID r = channel
  ∧ same_pair (fr_Manufacturer r) (fr_Model r) manufacturer model = true.

(** Headers are stored under their id, the sequence is ahead of them, and the
    index [idx_one_active_rollout_per_pair] holds. *)
Record sound (db : DB) : Prop := {
  so_keyed : keyed db;
  so_ids : ∀ id, is_Some (db_rollouts db !! id) → id < db_nextval db;
  so_one : ∀ i j ri rj, db_rollouts db !! i = Some ri → db_rollouts db !! j = Some rj →
    fr_Status ri = StatusActive → active_for (fr_ChannelID ri) (fr_Manufacturer ri) (fr_Model ri) rj →
    i = j
}.

Definition none_active (channel : Z) (manufacturer model : string) (db : DB) : Prop :=
  ∀ id r, db_rollouts db !! id = Some r → ¬ active_for channel manufacturer model r.

Definition active_now (id : Z) (db : DB) : Prop :=
  ∃ r, db_rollouts db !! id = Some r ∧ fr_Status r = StatusActive.

Definition place_of (d : DeviceRow) :=
  (dr_RolloutID d, dr_DeviceID d, dr_BatchIndex d, dr_Position d).

Record lineage (db db' : DB) : Prop := {
  li_headers : ∀ id r, db_rollouts db !! id = Some r →
    ∃ r', db_rollouts db' !! id = Some r' ∧ header_grows r r';
  li_places : ∀ d, d ∈ db_devices db → ∃ d', d' ∈ db_devices db' ∧ place_of d' = place_of d;
  li_events : ∃ new, db_events db' = db_events db ++ new;
  li_sound : sound db → sound db'
}.

Lemma header_grows_refl r : header_grows r r.
Proof. split_and!; [done|by intros; apply same_header_refl|lia]. Qed.

#[export] Instance lineage_preorder : PreOrder lineage.
Proof.
  split.
  - intros db. split; try done.
    + intros id r Hr. eauto using header_grows_refl.
    + eauto.
    + exists []. by rewrite app_nil_r.
  - intros db1 db2 db3 [H1 P1 E1 S1] [H2 P2 E2 S2]. split; [| | |by auto].
    + intros id r Hr. destruct (H1 id r Hr) as (r2 & Hr2 & I1 & F1 & V1).
      destruct (H2 id r2 Hr2) as (r3 & Hr3 & I2 & F2 & V2). exists r3. split; [done|].
      split_and!; [congruence| |lia]. intros Hs. specialize (F1 Hs).
      apply same_header_trans with r2; [done|]. apply F2. by rewrite (same_header_status _ _ F1).
    + intros d Hd. destruct (P1 d Hd) as (d2 & Hd2 & G1). destruct (P2 d2 Hd2) as (d3 & Hd3 & G2).
      exists d3. split; [done|congruence].
    + destruct E1 as [n1 E1], E2 as [n2 E2]. exists (n1 ++ n2). by rewrite E2, E1, app_assoc.
Qed.

(** ** Transactions of the engine *)

Lemma evolves_active db db' id r' :
  evolves db db' → db_rollouts db' !! id = Some r' → fr_Status r' = StatusActive →
  ∃ r, db_rollouts db !! id = Some r ∧ fr_Status r = StatusActive ∧ identity_of r' = identity_of r.
Proof.
  intros He Hr' Hs. destruct (ev_ids _ _ He id) as [r Hr]; [by rewrite Hr'; eauto|].
  destruct (ev_headers _ _ He id r Hr) as (r2 & Hr2 & I & F & _). rewrite Hr' in Hr2.
  injection Hr2 as <-. exists r. split_and!; [done| |done].
  destruct (decide (fr_Status r = StatusActive)) as [|Hn]; [done|].
  by rewrite <- (same_header_status _ _ (F Hn)).
Qed.

Lemma identity_pair r r' :
  identity_of r' = identity_of r →
  fr_ChannelID r' = fr_ChannelID r ∧ fr_Manufacturer r' = fr_Manufacturer r ∧ fr_Model r' = fr_Model r.
Proof. unfold identity_of. intros E. by simplify_eq. Qed.

Lemma evolves_active_for db db' c m k id r' :
  evolves db db' → db_rollouts db' !! id = Some r' → active_for c m k r' →
  ∃ r, db_rollouts db !! id = Some r ∧ active_for c m k r.
Proof.
  intros He Hr' (Hs & Hc & Hp). destruct (evolves_active _ _ _ _ He Hr' Hs) as (r & Hr & Ha & Hid).
  apply identity_pair in Hid as (E1 & E2 & E3). exists r. split; [done|].
  split_and!; [done|congruence|]. by rewrite <- E2, <- E3.
Qed.

Lemma evolves_none db db' c m k : evolves db db' → none_active c m k db → none_active c m k db'.
Proof.
  intros He Hn id r' Hr' Ha. destruct (evolves_active_for _ _ _ _ _ _ _ He Hr' Ha) as (r & Hr & Hr2).
  by apply (Hn id r).
Qed.

Lemma evolves_lineage db db' : evolves db db' → lineage db db'.
Proof.
  intros He. split.
  - intros id r Hr. destruct (ev_headers _ _ He id r Hr) as (r' & Hr' & I & F & V). exists r'.
    split; [done|]. split_and!; [done|done|]. destruct V as [[-> _]|[_ ->]]; [lia|].
    case_bool_decide; lia.
  - intros d Hd. destruct (ev_rows _ _ He d Hd) as (d' & Hd' & Hp & _). exists d'. split; [done|].
    unfold plan_of in Hp. unfold place_of. congruence.
  - apply (ev_events _ _ He).
  - intros [Hk Hi Ho]. split.
    + by apply (ev_keyed _ _ He).
    + intros id Hid. rewrite (ev_nextval _ _ He). by apply Hi, (ev_ids _ _ He).
    + intros i j ri rj Hri Hrj Hs Ha.
      destruct (evolves_active _ _ _ _ He Hri Hs) as (si & Hsi & Hsa & Hid).
      apply identity_pair in Hid as (E1 & E2 & E3).
      destruct (evolves_active_for _ _ _ _ _ _ _ He Hrj Ha) as (sj & Hsj & Hsb).
      apply (Ho i j si sj); [done..|]. by rewrite <- E1, <- E2, <- E3.
Qed.

Lemma sound_begin db : sound db → sound (begin db).
Proof. by intros [? ? ?]. Qed.

(** ** Operations *)

Definition Lin {A} (P : DB → Prop) (m : Op A) (Q : A → DB → Prop) : Prop :=
  ∀ db, sound db → P db → lineage db (m db).2 ∧ ∀ a db', m db = (Ok a, db') → Q a db'.

Definition anywhere : DB → Prop := λ _, True.
Definition any {A} : A → DB → Prop := λ _ _, True.

Lemma lin_ret {A} (P : DB → Prop) (a : A) (Q : A → DB → Prop) : (∀ db, P db → Q a db) → Lin P (mret a) Q.
Proof.
  intros HQ db Hs HP. split; [simpl; reflexivity|]. intros a' db' E. apply M_ret_ok in E as [<- ->]. auto.
Qed.

Lemma lin_fail {A} P e (Q : A → DB → Prop) : Lin P (fail e) Q.
Proof. intros db Hs HP. split; [simpl; reflexivity|done]. Qed.

Lemma lin_gets {A} P (f : DB → A) (Q : A → DB → Prop) : (∀ db, P db → Q (f db) db) → Lin P (gets f) Q.
Proof. intros HQ db Hs HP. split; [simpl; reflexivity|]. intros a db' [= <- <-]. auto. Qed.

Lemma lin_bind {A B} P (m : Op A) Q (f : A → Op B) R :
  Lin P m Q → (∀ a, Lin (Q a) (f a) R) → Lin P (m ≫= f) R.
Proof.
  intros Hm Hf db Hs HP. destruct (Hm db Hs HP) as [L HQ]. unfold mbind, M_bind.
  destruct (m db) as [[a|e] db1]; simpl in *; [|by split].
  destruct (Hf a db1) as [L2 HR]; [by apply (li_sound _ _ L)|by apply HQ|].
  split; [by etransitivity|done].
Qed.

Lemma lin_weaken {A} (P P' : DB → Prop) (m : Op A) (Q Q' : A → DB → Prop) :
  Lin P m Q → (∀ db, P' db → P db) → (∀ a db, Q a db → Q' a db) → Lin P' m Q'.
Proof. intros Hm HP HQ db Hs H'. destruct (Hm db Hs) as [L H1]; [auto|]. eauto. Qed.

(** A predicate the engine's transactions keep. *)
Definition stable (P : DB → Prop) : Prop := ∀ db db', evolves db db' → P db → P db'.

Lemma lin_keeps {A} P (m : Op A) : (∀ db0, Keeps db0 m) → stable P → Lin P m (λ _, P).
Proof.
  intros Hm Hp db Hs HP. assert (evolves db (m db).2) as He by (apply Hm; reflexivity).
  split; [by apply evolves_lineage|]. intros a db' E. rewrite E in He. by apply (Hp db).
Qed.

Lemma lin_keeps_any {A} P (m : Op A) : (∀ db0, Keeps db0 m) → Lin P m any.
Proof.
  intros Hm. apply (lin_weaken anywhere P m (λ _, anywhere)); [|done|done]. by apply lin_keeps.
Qed.

Lemma lin_when P b m : Lin P m (λ _, P) → Lin P (when b m) (λ _, P).
Proof. intros Hm. destruct b; [done|]. by apply lin_ret. Qed.

Lemma Lin_Tx {A} (m : Op A) Q db : sound db → Lin anywhere m Q → lineage db (Tx m db).2.
Proof.
  intros Hs Hm. unfold Tx, RunInTx. change ((modify _;; m) db) with (m (begin db)).
  destruct (Hm (begin db)) as [L _]; [by apply sound_begin|done|].
  destruct (m (begin db)) as [[a|e] db']; simpl in *; [|reflexivity].
  destruct L as [H1 P1 E1 S1]. split; [exact H1|exact P1|exact E1|]. intros Hd. by apply S1, sound_begin.
Qed.

(** ** Statements *)

Lemma lineage_frame db db' :
  db_rollouts db' = db_rollouts db → db_nextval db' = db_nextval db →
  db_events db' = db_events db →
  (∀ d, d ∈ db_devices db → ∃ d', d' ∈ db_devices db' ∧ place_of d' = place_of d) →
  lineage db db'.
Proof.
  intros R N E D. split; [|done| |].
  - intros id r Hr. rewrite R. eauto using header_grows_refl.
  - exists []. by rewrite app_nil_r.
  - intros [Hk Hi Ho]. split; unfold keyed; rewrite ?R, ?N; done.
Qed.

(** Rewriting rows of one rollout in place, with its touch trigger. *)
Lemma lineage_devices rid ids guard f db :
  (∀ d, place_of (f d) = place_of d) → lineage db (update_devices rid ids guard f db).
Proof.
  intros Hf. unfold update_devices.
  set (db1 := db <| db_devices := map (λ d, if row_selected rid ids guard d then f d else d)
                (db_devices db) |>).
  assert (lineage db db1) as L.
  { apply lineage_frame; [done..|]. intros d Hd.
    exists (if row_selected rid ids guard d then f d else d).
    split; [apply list_elem_of_fmap; eauto|]. by case_if. }
  case_if; [|done]. etransitivity; [exact L|]. apply evolves_lineage, evolves_touch.
Qed.

Lemma update_devices_active rid ids guard f db id :
  active_now id db → active_now id (update_devices rid ids guard f db).
Proof.
  intros (r & Hr & Hs). destruct (update_devices_header rid ids guard f db id r Hr) as (r' & Hr' & Hh).
  exists r'. split; [done|]. by rewrite (same_header_status _ _ Hh).
Qed.

Lemma insert_devices_active rid new db id : active_now id db → active_now id (insert_devices rid new db).
Proof.
  intros (r & Hr & Hs). unfold insert_devices. case_if; [|by exists r].
  match goal with |- active_now id (touch_rollout ?d rid) =>
    destruct (touch_rollout_header d rid id r Hr) as (r' & Hr' & Hh) end.
  exists r'. split; [done|]. by rewrite (same_header_status _ _ Hh).
Qed.

Lemma active_now_at id db : active_now id db → active_at db id.
Proof. intros (r & Hr & Hs) r' Hr'. congruence. Qed.

Lemma wait_active id w db : active_now id db → active_now id (SetFirmwareRolloutControllerWait id w db).
Proof.
  intros (r & Hr & Hs). unfold SetFirmwareRolloutControllerWait, exec_rollout. rewrite Hr.
  case_if; [|by exists r]. simpl. rewrite (update_rollout_lookup _ _ _ _ Hr). eexists.
  split; [apply lookup_insert_eq|]. by rewrite bump_Status.
Qed.

Lemma lin_wait `{Env} id w :
  Lin (active_now id) (setControllerWait id w) (λ _, active_now id).
Proof.
  intros db Hs Ha. split.
  - apply evolves_lineage, evolves_wait; [reflexivity|by apply active_now_at].
  - intros [] db' [= <-]. by apply wait_active.
Qed.

Lemma lin_action id a :
  Lin (active_now id) (modify (RecordFirmwareRolloutAction id a)) any.
Proof.
  intros db Hs Ha. split; [|done].
  apply evolves_lineage, evolves_action; [reflexivity|by apply active_now_at].
Qed.

Lemma lin_modify P f (Q : DB → Prop) :
  (∀ db, lineage db (f db)) → (∀ db, P db → Q (f db)) → Lin P (modify f) (λ _, Q).
Proof. intros Hf HQ db Hs HP. split; [apply Hf|]. intros [] db' [= <-]. auto. Qed.

Lemma lin_query {A} P (f : DB → A * DB) (Q : A → DB → Prop) :
  (∀ db, lineage db (f db).2) → (∀ db, P db → Q (f db).1 (f db).2) → Lin P (query f) Q.
Proof.
  intros Hf HQ db Hs HP. unfold query. specialize (Hf db). specialize (HQ db HP).
  destruct (f db) as [a db']. simpl in *. split; [done|]. by intros a' db2 [= <- <-].
Qed.

(** A new header takes the next id, where nothing was. *)
Lemma lin_create org channel manufacturer model checksum version pc pv gen stage snap n actor :
  Lin (none_active channel manufacturer model)
    (query (CreateFirmwareRollout org channel manufacturer model checksum version pc pv gen stage
              snap n actor))
    (λ r, active_now (fr_ID r)).
Proof.
  intros db [Hk Hi Ho] Hn.
  set (out := CreateFirmwareRollout org channel manufacturer model checksum version pc pv gen stage
    snap n actor db).
  assert (db_rollouts db !! db_nextval db = None) as Hfree.
  { destruct (db_rollouts db !! db_nextval db) eqn:E; [|done]. specialize (Hi (db_nextval db)).
    rewrite E in Hi. specialize (Hi ltac:(eauto)). lia. }
  assert (∀ id r, db_rollouts out.2 !! id = Some r →
    id = db_nextval db ∧ r = out.1 ∨ id ≠ db_nextval db ∧ db_rollouts db !! id = Some r) as Hin.
  { intros id r. simpl. destruct (decide (db_nextval db = id)) as [<-|Hne].
    - rewrite lookup_insert_eq. intros [= <-]. auto.
    - rewrite lookup_insert_ne by done. auto. }
  split.
  - split.
    + intros id r Hr. exists r. split; [|apply header_grows_refl]. simpl.
      rewrite lookup_insert_ne; [done|]. intros <-. by rewrite Hfree in Hr.
    + eauto.
    + exists []. simpl. by rewrite app_nil_r.
    + intros _. change (sound out.2). split.
      * intros id r Hr. destruct (Hin id r Hr) as [[-> ->]|[_ Hr2]]; [done|by apply Hk].
      * intros id [r Hr]. change (id < db_nextval db + 1).
        destruct (Hin id r Hr) as [[-> _]|[_ Hr2]]; [lia|]. specialize (Hi id (mk_is_Some _ _ Hr2)). lia.
      * intros i j ri rj Hri Hrj Hs (Ha & Hc & Hp).
        destruct (Hin i ri Hri) as [[-> ->]|[Hni Hr1]], (Hin j rj Hrj) as [[-> ->]|[Hnj Hr2]]; [done|..].
        -- exfalso. by apply (Hn j rj).
        -- exfalso. apply (Hn i ri Hr1). split_and!; [done|done|]. unfold same_pair in *. crush_bools.
           simpl in *. apply andb_true_iff. split; apply bool_decide_eq_true; congruence.
        -- by apply (Ho i j ri rj).
  - intros a db' [= <- <-]. eexists. split; [apply lookup_insert_eq|done].
Qed.

Lemma map_elem db r : r ∈ map snd (map_to_list (db_rollouts db)) →
  ∃ i, db_rollouts db !! i = Some r.
Proof. intros ([i r'] & -> & Hin)%list_elem_of_fmap. exists i. by apply elem_of_map_to_list in Hin. Qed.

Lemma active_for_spec c m k r :
  (fr_ChannelID r =? c) && same_pair (fr_Manufacturer r) (fr_Model r) m k && (fr_Status r == StatusActive)
    = true ↔ active_for c m k r.
Proof.
  unfold active_for. rewrite !andb_true_iff, Z.eqb_eq, bool_decide_eq_true. tauto.
Qed.

Lemma get_active_none c m k db :
  GetActiveFirmwareRolloutForPair c m k db = None → none_active c m k db.
Proof.
  unfold GetActiveFirmwareRolloutForPair. intros Hf id r Hr Ha.
  assert (r ∈ map snd (map_to_list (db_rollouts db))) as Hin.
  { apply list_elem_of_fmap. exists (id, r). split; [done|]. by apply elem_of_map_to_list. }
  apply list_elem_of_In in Hin. pose proof (List.find_none _ _ Hf r Hin) as Hn. simpl in Hn.
  apply active_for_spec in Ha. congruence.
Qed.

Lemma get_active_some c m k db r :
  sound db → GetActiveFirmwareRolloutForPair c m k db = Some r →
  db_rollouts db !! fr_ID r = Some r ∧ active_for c m k r.
Proof.
  intros [Hk _ _] Hf. apply List.find_some in Hf as [Hin Ha]. apply active_for_spec in Ha.
  apply list_elem_of_In, (map_elem db) in Hin as (i & Hi). rewrite (Hk _ _ Hi). done.
Qed.

(** Canceling the pair's active rollout leaves none. *)
Lemma cancel_active c m k why actor db r :
  sound db → GetActiveFirmwareRolloutForPair c m k db = Some r →
  evolves db (CancelActiveFirmwareRollout c m k why actor db)
  ∧ none_active c m k (CancelActiveFirmwareRollout c m k why actor db).
Proof.
  intros Hs Hg. destruct (get_active_some _ _ _ _ _ Hs Hg) as [Hr Ha].
  unfold CancelActiveFirmwareRollout. rewrite Hg. split.
  - eapply evolves_update; [exact Hr|done|left; apply Ha].
  - rewrite (update_rollout_lookup _ _ _ _ Hr). intros id r' Hr' Ha'. simpl in Hr'.
    destruct (decide (fr_ID r = id)) as [<-|Hne].
    + rewrite lookup_insert_eq in Hr'. injection Hr' as <-. destruct Ha' as [E _].
      rewrite bump_Status in E. done.
    + rewrite lookup_insert_ne in Hr' by done. apply Hne. destruct Ha as (A1 & A2 & A3).
      destruct Ha' as (B1 & B2 & B3). apply (so_one _ Hs _ _ r r'); [done..|]. split_and!; [done|congruence|].
      unfold same_pair in *. crush_bools. apply andb_true_iff. split; apply bool_decide_eq_true; congruence.
Qed.

Lemma stable_none c m k : stable (none_active c m k).
Proof. intros db db' He Hn. by apply (evolves_none db). Qed.

Section Operations.
Context `{Env}.

Lemma lin_log P r type system x : stable P → Lin P (logRolloutEvent r type system x) (λ _, P).
Proof. intros Hp. apply lin_keeps; [|done]. intros. apply keeps_log. Qed.

Lemma lin_view P org rid : Lin P (refreshView org rid) any.
Proof. apply lin_keeps_any. intros. apply keeps_view. Qed.

Lemma lin_cancel_replaced channel actor pair why note :
  Lin anywhere (cancel_replaced channel actor pair why note)
    (λ _, none_active (rc_ID channel) (Manufacturer pair) (Model pair)).
Proof.
  intros db Hs _. unfold cancel_replaced. unfold mbind at 1, M_bind at 1. simpl.
  destruct (GetActiveFirmwareRolloutForPair _ _ _ db) as [old|] eqn:E.
  - destruct (cancel_active _ _ _ why actor db old Hs E) as [He Hn]. unfold mbind, M_bind. simpl.
    set (db1 := CancelActiveFirmwareRollout _ _ _ _ _ db) in *.
    destruct (lin_log (none_active (rc_ID channel) (Manufacturer pair) (Model pair)) old
      EventRolloutCanceled false {| x_actor := Some actor; x_note := note; x_identifiers := [] |}
      ltac:(apply stable_none) db1) as [L HQ]; [by apply (li_sound _ _ (evolves_lineage _ _ He))|done|].
    split; [etransitivity; [by apply evolves_lineage|done]|]. by rewrite E.
  - split; [simpl; reflexivity|]. intros [] db'.
    unfold mbind, M_bind. simpl. rewrite E. intros [= <-]. by apply get_active_none.
Qed.

Lemma lin_internal {A} P (m : Op A) Q : Lin P m Q → Lin P (as_internal m) Q.
Proof.
  intros Hm db Hs HP. destruct (Hm db Hs HP) as [L HQ]. unfold as_internal.
  destruct (m db) as [[a|[]] db']; simpl in *; split; try done.
Qed.

Lemma snapshot_lineage rid index offset batches db :
  lineage db (snapshot_batches rid index offset batches db).2
  ∧ ∀ id, active_now id db → active_now id (snapshot_batches rid index offset batches db).2.
Proof.
  revert index offset db. induction batches as [|b bs IH]; intros index offset db; simpl;
    [split; [reflexivity|done]|].
  set (db1 := SnapshotFirmwareRolloutDevices _ _ _ _ db).
  destruct (IH (index + 1) (offset + Z.of_nat (length b)) db1) as [L Ha]. split.
  - etransitivity; [|exact L]. apply evolves_lineage, evolves_snapshot.
  - intros id Hid. apply Ha. by apply insert_devices_active.
Qed.

Lemma lin_start spec :
  Lin (none_active (sp_ChannelID spec) (Manufacturer (sp_Pair spec)) (Model (sp_Pair spec)))
    (startRollout spec) any.
Proof.
  set (P := none_active _ _ _). unfold startRollout. eapply (lin_bind P _ (λ _, P)).
  { destruct (sp_Members spec); [by apply lin_ret|by apply lin_gets]. }
  intros rows. destruct rows as [|row rows]; [by apply lin_ret|]. cbv zeta.
  eapply (lin_bind P _ (λ _, P)).
  { apply lin_keeps; [|apply stable_none]. intros. apply keeps_channel. }
  intros channel. destruct (split_batches _ _) as [[batches rest]|]; [|apply lin_fail].
  eapply lin_bind; [apply lin_create|]. intros r.
  eapply (lin_bind _ _ (λ _, active_now (fr_ID r))).
  { apply lin_query; [intros; apply snapshot_lineage|]. intros db. apply snapshot_lineage. }
  intros offset. eapply (lin_bind _ _ (λ _, active_now (fr_ID r))).
  { apply lin_when, lin_modify; [intros; apply evolves_lineage, evolves_snapshot|].
    intros db. apply insert_devices_active. }
  intros []. eapply (lin_bind _ _ (λ _, active_now (fr_ID r))); [apply lin_when, lin_wait|].
  intros []. by apply lin_ret.
Qed.

Lemma lin_apply_one channel actor behavior why note a :
  Lin anywhere (apply_one channel actor behavior why note a) any.
Proof.
  unfold apply_one. destruct (ra_artifact a) as [art|].
  - case_if; [by apply lin_ret|]. eapply (lin_bind _ _ any).
    { apply lin_query; [|done]. intros db. unfold UpsertReleaseChannelFirmware.
      destruct (List.find _ _); apply lineage_frame; simpl; eauto. }
    intros assigned. eapply lin_bind; [apply lin_internal, lin_cancel_replaced|]. intros ?.
    eapply lin_bind; [eapply lin_weaken; [apply lin_start|done|done]|]. intros [r|]; [|by apply lin_ret].
    eapply (lin_bind _ _ any); [by apply (lin_log anywhere)|]. intros ?.
    eapply lin_bind; [apply lin_view|]. intros v. by apply lin_ret.
  - case_if; [by apply lin_ret|]. eapply (lin_bind _ _ any).
    { apply lin_modify; [|done]. intros db. apply lineage_frame; simpl; eauto. }
    intros ?. eapply lin_bind; [apply lin_internal, lin_cancel_replaced|]. intros ?. by apply lin_ret.
Qed.

Lemma lin_apply channel actor behavior why note resolved :
  Lin anywhere (applyResolved channel actor resolved behavior why note) any.
Proof.
  unfold applyResolved. case_if; [apply lin_fail|].
  induction resolved as [|a rest IH]; [by apply lin_ret|]. cbn [apply_loop].
  eapply lin_bind; [apply lin_apply_one|]. intros v. eapply lin_bind; [exact IH|]. intros vs.
  by apply lin_ret.
Qed.

Lemma lin_resolve P channel assignments : Lin P (resolveAssignments channel assignments) any.
Proof. apply lin_keeps_any. intros. unfold resolveAssignments. keeps. Qed.

Lemma lin_apply_assignments channel actor assignments behavior why note :
  Lin anywhere (applyAssignments channel actor assignments behavior why note) any.
Proof. eapply lin_bind; [apply lin_resolve|]. intros resolved. apply lin_apply. Qed.

Lemma apply_lineage org actor cid assignments override db :
  sound db → lineage db (ApplyFirmware org actor cid assignments override db).2.
Proof.
  intros Hs. unfold ApplyFirmware. apply (Lin_Tx _ any); [done|].
  eapply lin_bind; [apply lin_keeps_any; intros; apply keeps_channel|]. intros channel.
  eapply lin_bind; [apply lin_keeps_any; intros; apply keeps_liftR|]. intros behavior.
  eapply lin_bind; [apply lin_resolve|]. intros resolved. case_if; [apply lin_fail|apply lin_apply].
Qed.

Lemma rollback_lineage org rid m db : sound db → lineage db (RollbackFirmware org rid m db).2.
Proof.
  intros Hs. unfold RollbackFirmware. apply (Lin_Tx _ any); [done|].
  eapply lin_bind; [apply lin_keeps_any; intros; apply keeps_rollout|]. intros row0.
  eapply lin_bind; [apply lin_keeps_any; intros; apply keeps_channel|]. intros channel.
  eapply lin_bind; [apply lin_keeps_any; intros; apply keeps_lock|]. intros [row name]. cbv zeta.
  eapply (lin_bind _ _ any); [by apply lin_gets|]. intros [f|]; [|apply lin_fail].
  case_if; [apply lin_fail|]. eapply (lin_bind _ _ any).
  { case_if; [apply lin_apply_assignments|]. case_if; [apply lin_fail|apply lin_apply]. }
  intros started. by apply lin_ret.
Qed.

(** ** Retries *)

Lemma requeue_lineage rid ids db :
  lineage db (RequeueFirmwareRolloutDevices rid ids db).2
  ∧ ∀ id, active_now id db → active_now id (RequeueFirmwareRolloutDevices rid ids db).2.
Proof.
  unfold RequeueFirmwareRolloutDevices. destruct (db_rollouts db !! rid) as [r|]; [|by split].
  simpl. split.
  - etransitivity; [apply (lineage_devices rid ids requeue_guard requeue_row); done|].
    apply evolves_lineage, evolves_insert. intros d (id & -> & _)%list_elem_of_fmap. done.
  - intros id Hid. by apply insert_devices_active, update_devices_active.
Qed.

Lemma lin_retry_active org rid m row :
  fr_ID row = rid → Lin (active_now rid) (retry_active org rid m row) any.
Proof.
  intros <-. unfold retry_active, suppressed_of. set (P := active_now (fr_ID row)).
  eapply (lin_bind P _ (λ _, P)); [by apply lin_gets|]. intros suppressed.
  eapply (lin_bind P _ (λ _, P)).
  { apply lin_query; intros db; [apply requeue_lineage|]. apply (proj2 (requeue_lineage _ _ _)). }
  intros requeued. eapply (lin_bind P _ any); [|intros ?; apply lin_view].
  case_if; [|by apply lin_ret]. eapply (lin_bind P _ (λ _, P)).
  { case_if; [|by apply lin_ret]. eapply (lin_bind P _ (λ _, P)); [by apply lin_gets|].
    intros targets. apply lin_wait. }
  intros ?. eapply lin_bind; [apply lin_action|]. intros ?.
  apply lin_keeps_any. intros. apply keeps_log.
Qed.

Lemma preserve_lineage rid db : lineage db (PreserveFirmwareRolloutRetryBaselines rid db).
Proof.
  unfold PreserveFirmwareRolloutRetryBaselines. destruct (db_rollouts db !! rid); [|reflexivity].
  by apply lineage_devices.
Qed.

Lemma lin_retry_finished org rid m row : Lin anywhere (retry_finished org rid m row) any.
Proof.
  unfold retry_finished, suppressed_of. eapply (lin_bind _ _ any); [by apply lin_gets|]. intros f. cbv zeta.
  case_if; [apply lin_fail|]. set (P := none_active (fr_ChannelID row) (fr_Manufacturer row) (fr_Model row)).
  eapply (lin_bind _ _ (λ active db, active = None → P db)).
  { apply lin_gets. intros db _. apply get_active_none. }
  intros [r0|]; [apply lin_fail|]. eapply (lin_bind _ _ (λ _, P)).
  { eapply lin_weaken; [apply (lin_keeps P)|by auto|done]; [|apply stable_none].
    intros. unfold reconcileTerminalProvenance, recordTerminalProvenance. keeps. }
  intros ?. eapply (lin_bind P _ (λ _, P)); [by apply lin_gets|]. intros suppressed.
  destruct suppressed as [|d ds]; [apply lin_view|].
  eapply lin_bind; [eapply lin_weaken; [apply lin_start|done|done]|]. intros [r|]; [|apply lin_fail].
  eapply (lin_bind _ _ any); [apply lin_modify; [intros; apply preserve_lineage|done]|]. intros ?.
  eapply lin_bind; [apply (lin_log anywhere); done|]. intros ?.
  eapply lin_bind; [apply (lin_log anywhere); done|]. intros ?. apply lin_view.
Qed.

Lemma retry_lineage org rid m db : sound db → lineage db (RetryFailedDevices org rid m db).2.
Proof.
  intros Hs. unfold RetryFailedDevices. apply (Lin_Tx _ any); [done|].
  eapply lin_bind; [apply lin_keeps_any; intros; apply keeps_rollout|]. intros observed.
  eapply lin_bind; [apply lin_keeps_any; intros; apply keeps_channel|]. intros channel.
  eapply (lin_bind _ _ (λ '(row, _) db, fr_ID row = rid ∧ db_rollouts db !! rid = Some row)).
  { intros db1 Hs1 _. split; [apply evolves_lineage, keeps_lock; reflexivity|].
    intros [row name] db' Hl. apply lockRollout_ok in Hl as (-> & Hr & _). split; [|done].
    by apply (so_keyed _ Hs1). }
  intros [row name]. case_bool_decide as Hact.
  - intros db1 Hs1 [Hid Hr]. apply lin_retry_active; [done..|]. by exists row.
  - eapply lin_weaken; [apply lin_retry_finished|done|done].
Qed.

(** ** The enforcement pass *)

(** An operation that is a sequence of transactions. *)
Definition Runs {A} (m : Op A) : Prop := ∀ db, sound db → lineage db (m db).2.

Lemma runs_ret {A} (a : A) : Runs (mret a).
Proof. intros db Hs. simpl. reflexivity. Qed.

Lemma runs_gets {A} (f : DB → A) : Runs (gets f).
Proof. intros db Hs. simpl. reflexivity. Qed.

Lemma runs_bind {A B} (m : Op A) (f : A → Op B) : Runs m → (∀ a, Runs (f a)) → Runs (m ≫= f).
Proof.
  intros Hm Hf db Hs. specialize (Hm db Hs). unfold mbind, M_bind.
  destruct (m db) as [[a|e] db1]; simpl in *; [|done]. etransitivity; [done|].
  apply Hf. by apply (li_sound _ _ Hm).
Qed.

Lemma runs_try {A} (m : Op A) : Runs m → Runs (try m).
Proof. intros Hm db Hs. specialize (Hm db Hs). unfold try. by destruct (m db) as [[a|e] db1]. Qed.

Lemma runs_each {A} (l : list A) (f : A → Op unit) : (∀ a, Runs (f a)) → Runs (each l f).
Proof.
  intros Hf. unfold each.
  enough (∀ acc, Runs acc → Runs (fold_left (λ acc a, acc;; try (f a);; mret tt) l acc)) as Hl.
  { apply Hl, runs_ret. }
  induction l as [|a l IH]; intros acc Hacc; simpl; [done|]. apply IH.
  apply runs_bind; [done|]. intros ?. apply runs_bind; [by apply runs_try|]. intros ?. apply runs_ret.
Qed.

Lemma committed_lineage db db' : committed db db' → lineage db db'.
Proof.
  intros [->|He]; [reflexivity|]. apply evolves_lineage in He as [H1 P1 E1 S1].
  split; [exact H1|exact P1|exact E1|]. intros Hs. by apply S1, sound_begin.
Qed.

Lemma runs_commits {A} (m : Op A) : Commits m → Runs m.
Proof.
  intros Hm db Hs. specialize (Hm db (so_keyed _ Hs)). clear Hs.
  induction Hm as [|x y z Hxy _ IH]; [reflexivity|]. etransitivity; [by apply committed_lineage|done].
Qed.

Lemma runs_frame f :
  (∀ db, db_rollouts (f db) = db_rollouts db ∧ db_nextval (f db) = db_nextval db
         ∧ db_events (f db) = db_events db ∧ db_devices (f db) = db_devices db) → Runs (modify f).
Proof.
  intros Hf db Hs. destruct (Hf db) as (F1 & F2 & F3 & F4). apply lineage_frame; try done.
  simpl. rewrite F4. eauto.
Qed.

Lemma start_needed_runs org n : Runs (start_needed org n).
Proof.
  intros db Hs. unfold start_needed. apply (Lin_Tx _ any); [done|]. clear db Hs. intros db Hs _.
  split; [|done]. pose proof (GetReleaseChannel_state org (as_ChannelID n) db) as Hst.
  destruct (GetReleaseChannel org (as_ChannelID n) db) as [[channel|e] db1]; simpl in Hst; subst db1;
    [|simpl; reflexivity].
  destruct (GetReleaseChannelFirmware _ _ _ db) as [f|] eqn:Ef; [|simpl; reflexivity].
  case_if; [simpl; reflexivity|].
  destruct (GetActiveFirmwareRolloutForPair _ _ _ db) as [r|] eqn:Ea; [simpl; reflexivity|].
  apply get_active_none in Ea. apply List.find_some in Ef as [_ Hf]. unfold is_assignment in Hf. crush_bools.
  assert (none_active (as_ChannelID n) (as_Manufacturer f) (as_Model f) db) as Hn.
  { intros id r Hr (A1 & A2 & A3). apply (Ea id r Hr). split_and!; [done|done|].
    unfold same_pair in *. crush_bools. apply andb_true_iff. split; apply bool_decide_eq_true; congruence. }
  match goal with |- context [startRollout ?spec ≫= ?k] =>
    refine (proj1 (lin_bind _ _ any k any (lin_start spec) _ db Hs Hn)) end.
  intros [r|]; [|by apply lin_ret]. by apply (lin_log anywhere).
Qed.

Lemma reconcile_one_runs r : Runs (reconcile_one r).
Proof.
  intros db Hs. unfold reconcile_one. apply (Lin_Tx _ any); [done|]. apply lin_keeps_any.
  intros. unfold reconcileTerminalProvenance, recordTerminalProvenance. keeps.
Qed.

Lemma tick_runs : Runs EnforceTick.
Proof.
  assert (∀ r, Runs (prepareRollout r)) as Hp.
  { intros r db Hs. apply committed_lineage, prepare_committed. apply Hs. }
  unfold EnforceTick. apply runs_bind; [by apply runs_frame|]. intros ?.
  apply runs_bind; [by apply runs_frame|]. intros ?.
  apply runs_bind.
  { unfold reconcileCompletedDispatches. apply runs_bind; [apply runs_gets|]. intros l.
    apply runs_each. apply reconcile_one_runs. }
  intros ?. apply runs_bind.
  { unfold startNeededRollouts. apply runs_bind; [apply runs_gets|]. intros l.
    apply runs_each. intros [org n]. apply start_needed_runs. }
  intros ?. apply runs_bind; [apply runs_gets|]. intros active. apply runs_bind.
  { induction active as [|r active IH]; [apply runs_ret|]. cbn [prepare_all].
    apply runs_bind; [by apply runs_try|]. intros p. apply runs_bind; [done|]. intros ps. apply runs_ret. }
  intros prepared. apply runs_each. intros [r targets]. apply runs_commits, enforce_commits.
Qed.
End Operations.

(** ** Histories of every request *)

Inductive FleetRequest :=
| Engine (q : Request)
| Apply (org : Z) (actor : Actor) (cid : Z) (assignments : list Assignment) (override : option Behavior)
| Rollback (org rid : Z) (m : Mutation)
| Retry (org rid : Z) (m : Mutation)
| Tick.

Definition serve_fleet `{Env} (q : FleetRequest) : Op unit :=
  match q with
  | Engine q => serve q
  | Apply org actor cid assignments override => ApplyFirmware org actor cid assignments override;; mret tt
  | Rollback org rid m => RollbackFirmware org rid m;; mret tt
  | Retry org rid m => RetryFailedDevices org rid m;; mret tt
  | Tick => EnforceTick
  end.

(** A request under some environment, or a change of the tables the rollouts do
    not own and of the clock. *)
Inductive fleet_step (db : DB) : DB → Prop :=
| fleet_serve (E : Env) (q : FleetRequest) : fleet_step db (serve_fleet q db).2
| fleet_world (w : World) (clock : Z) (channels : gmap Z ReleaseChannel)
    (assignments : list ReleaseChannelFirmware) :
    db_clock db <= clock →
    fleet_step db (db <| db_world := w |> <| db_clock := clock |> <| db_channels := channels |>
                      <| db_assignments := assignments |>).

Lemma serve_runs `{Env} q : Runs (serve_fleet q).
Proof.
  destruct q as [q|org actor cid l o|org rid m|org rid m|]; simpl;
    [apply runs_commits, serve_commits|..|apply tick_runs];
    (apply runs_bind; [|intros ?; apply runs_ret]); intros db Hs;
    [by apply apply_lineage|by apply rollback_lineage|by apply retry_lineage].
Qed.

Lemma fleet_lineage db db' : sound db → rtc fleet_step db db' → lineage db db'.
Proof.
  intros Hs Hr. induction Hr as [|db1 db2 db3 Hstep _ IH]; [reflexivity|].
  assert (lineage db1 db2) as L.
  { destruct Hstep as [E q|w clock ch asg Hc]; [by apply serve_runs|]. apply lineage_frame; eauto. }
  etransitivity; [exact L|]. by apply IH, (li_sound _ _ L).
Qed.


(** C31: From sound tables, no sequence of requests (engine, operator, assignment, rollback,
    retry, enforcement passes) and of outside changes makes two rollouts of the same channel and
    pair active: every start either supersedes the active rollout first or happens only when there
    is none, so the unique index of the schema is never violated. *)
Theorem one_active_rollout_per_pair db db' :
  sound db → rtc fleet_step db db' →
  ∀ i j ri rj, db_rollouts db' !! i = Some ri → db_rollouts db' !! j = Some rj →
    fr_Status ri = StatusActive → fr_Status rj = StatusActive → fr_ChannelID ri = fr_ChannelID rj →
    same_pair (fr_Manufacturer ri) (fr_Model ri) (fr_Manufacturer rj) (fr_Model rj) = true →
    i = j.
Proof.
  intros Hs Hr i j ri rj Hi Hj Hai Haj Hc Hp.
  apply (li_sound _ _ (fleet_lineage _ _ Hs Hr)) in Hs as [_ _ Ho].
  symmetry. by apply (Ho j i rj ri).
Qed.

(** * Rolling back an assignment

    A rollback assigns again the artifact the rollout replaced: the pair's row
    carries it under the next generation, the rolled-back rollout is no longer
    active, and the lineage records what was replaced. *)

Lemma find_map_hit {A} (hit : A → bool) f l :
  (∀ a, hit (f a) = hit a) →
  List.find hit (map (λ a, if hit a then f a else a) l) = f <$> List.find hit l.
Proof.
  intros Hf. induction l as [|a l IH]; simpl; [done|].
  destruct (hit a) eqn:E; simpl; [by rewrite Hf, E|by rewrite E].
Qed.

(** The row an assignment leaves for its pair. *)
Lemma upsert_lookup new db f :
  GetReleaseChannelFirmware (as_ChannelID new) (as_Manufacturer new) (as_Model new) db = Some f →
  ∃ f', UpsertReleaseChannelFirmware new db = (f', (UpsertReleaseChannelFirmware new db).2)
    ∧ GetReleaseChannelFirmware (as_ChannelID new) (as_Manufacturer new) (as_Model new)
        (UpsertReleaseChannelFirmware new db).2 = Some f'
    ∧ as_FirmwareChecksum f' = as_FirmwareChecksum new ∧ as_FirmwareVersion f' = as_FirmwareVersion new
    ∧ as_AssignmentGeneration f' = as_AssignmentGeneration f + 1
    ∧ as_PreviousFirmwareChecksum f' = as_FirmwareChecksum f
    ∧ as_PreviousFirmwareVersion f' = as_FirmwareVersion f.
Proof.
  unfold GetReleaseChannelFirmware, UpsertReleaseChannelFirmware. intros Hf. rewrite Hf. simpl.
  rewrite find_map_hit by done. rewrite Hf. eexists. split_and!; done.
Qed.

Section Rollback.
Context `{Env}.

Lemma snapshot_evolves rid index offset batches db :
  evolves db (snapshot_batches rid index offset batches db).2.
Proof.
  revert index offset db. induction batches as [|b bs IH]; intros; simpl; [reflexivity|].
  etransitivity; [apply evolves_snapshot|apply IH].
Qed.

Lemma wait_assignments id w db :
  db_assignments (SetFirmwareRolloutControllerWait id w db) = db_assignments db.
Proof.
  unfold SetFirmwareRolloutControllerWait, exec_rollout. destruct (_ !! _); [|done].
  case_if; [|done]. unfold update_rollout. by destruct (_ !! _).
Qed.

(** Starting a rollout assigns nothing. *)
Lemma start_assignments spec db r db' :
  startRollout spec db = (Ok r, db') → db_assignments db' = db_assignments db.
Proof.
  intros Hs. unfold startRollout in Hs. apply M_bind_ok in Hs as (rows & db0 & Hrows & Hs).
  assert (db0 = db) as -> by (destruct (sp_Members spec); by injection Hrows).
  destruct rows as [|row rows]; [by apply M_ret_ok in Hs as [_ ->]|]. cbv zeta in Hs.
  apply M_bind_ok in Hs as (c & db1 & Hc & Hs).
  pose proof (GetReleaseChannel_state (sp_OrgID spec) (sp_ChannelID spec) db) as Hst. rewrite Hc in Hst.
  simpl in Hst. subst db1. destruct (split_batches _ _) as [[batches rest]|]; [|done].
  apply M_bind_ok in Hs as (r1 & db1 & Hq & Hs).
  assert (db_assignments db1 = db_assignments db) as <- by (by injection Hq as _ <-). clear Hq.
  apply M_bind_ok in Hs as (o & db2 & Hq & Hs).
  pose proof (snapshot_evolves (fr_ID r1) 0 0 batches db1) as He. unfold query in Hq.
  destruct (snapshot_batches _ _ _ _ db1) as [o' db1']. injection Hq as _ <-.
  transitivity (db_assignments db1'); [|exact (ev_assignments _ _ He)]. clear He.
  apply M_bind_ok in Hs as ([] & db3 & Hw & Hs). apply M_bind_ok in Hs as ([] & db4 & Hwait & Hs).
  apply M_ret_ok in Hs as [_ ->].
  assert (db_assignments db3 = db_assignments db1') as <-.
  { destruct (0 <? length rest)%nat; [|by apply M_ret_ok in Hw as [_ ->]]. injection Hw as <-.
    apply (ev_assignments _ _ (evolves_snapshot _ _ _ _ _)). }
  destruct (bool_decide _); [|by apply M_ret_ok in Hwait as [_ ->]]. injection Hwait as <-.
  apply wait_assignments.
Qed.

Lemma cancel_replaced_assignments channel actor pair why note db u db' :
  sound db → cancel_replaced channel actor pair why note db = (Ok u, db') →
  db_assignments db' = db_assignments db.
Proof.
  intros Hs Hc. unfold cancel_replaced in Hc. apply M_bind_ok in Hc as (old & db1 & Hg & Hc).
  injection Hg as Hg <-. destruct old as [old|]; [|by apply M_ret_ok in Hc as [_ ->]].
  apply M_bind_ok in Hc as ([] & db1 & Hm & Hl). injection Hm as <-.
  destruct (cancel_active _ _ _ why actor db old Hs Hg) as [He _].
  rewrite <- (ev_assignments _ _ He). set (db1 := CancelActiveFirmwareRollout _ _ _ _ _ _) in *.
  pose proof (keeps_log db1 old EventRolloutCanceled false
    {| x_actor := Some actor; x_note := note; x_identifiers := [] |} db1 (evolves_refl db1)) as Hk.
  rewrite Hl in Hk. apply (ev_assignments _ _ Hk).
Qed.

Lemma internal_ok {A} (m : Op A) db a db' : as_internal m db = (Ok a, db') → m db = (Ok a, db').
Proof. unfold as_internal. by destruct (m db) as [[x|[]] d]. Qed.

(** What assigning [art] to a pair that carries another artifact leaves. *)
Lemma apply_one_ok channel actor behavior why note pair f art db v db' :
  sound db → GetReleaseChannelFirmware (rc_ID channel) (Manufacturer pair) (Model pair) db = Some f →
  as_FirmwareChecksum f ≠ fa_Checksum art →
  apply_one channel actor behavior why note
    {| ra_pair := pair; ra_current := Some f; ra_artifact := Some art |} db = (Ok v, db') →
  (∃ f', GetReleaseChannelFirmware (rc_ID channel) (Manufacturer pair) (Model pair) db' = Some f'
     ∧ as_FirmwareChecksum f' = fa_Checksum art ∧ as_FirmwareVersion f' = fa_FirmwareVersion art
     ∧ as_AssignmentGeneration f' = as_AssignmentGeneration f + 1
     ∧ as_PreviousFirmwareChecksum f' = as_FirmwareChecksum f)
  ∧ (∀ id r, db_rollouts db !! id = Some r →
       active_for (rc_ID channel) (Manufacturer pair) (Model pair) r →
       ∃ r', db_rollouts db' !! id = Some r' ∧ fr_Status r' ≠ StatusActive).
Proof.
  intros Hs Hf Hne Ha. unfold apply_one in Ha. cbn [ra_pair ra_current ra_artifact] in Ha. cbv zeta in Ha.
  simpl in Ha. rewrite bool_decide_false in Ha by done. apply M_bind_ok in Ha as (assigned & db1 & Hq & Ha).
  match type of Hq with query (UpsertReleaseChannelFirmware ?n) db = _ => set (new := n) in Hq end.
  destruct (upsert_lookup new db f Hf) as (f' & _ & Hget & F1 & F2 & F3 & F4 & _).
  assert (db1 = (UpsertReleaseChannelFirmware new db).2) as E1.
  { unfold query in Hq. destruct (UpsertReleaseChannelFirmware new db). by injection Hq. }
  rewrite <- E1 in Hget.
  assert (db_rollouts db1 = db_rollouts db ∧ sound db1) as [R1 S1].
  { subst db1. unfold UpsertReleaseChannelFirmware. destruct (List.find _ _); split; try done;
      destruct Hs; by split. }
  clear E1 Hq. unfold new in Hget, F1, F2. simpl in Hget, F1, F2. clear new.
  apply M_bind_ok in Ha as ([] & db2 & Hc & Ha). apply internal_ok in Hc.
  pose proof (cancel_replaced_assignments _ _ _ _ _ _ _ _ S1 Hc) as A2.
  destruct (lin_cancel_replaced channel actor pair why note db1 S1 I) as [L2 N2].
  specialize (N2 _ _ Hc). rewrite Hc in L2. simpl in L2. pose proof (li_sound _ _ L2 S1) as S2.
  apply M_bind_ok in Ha as (r & db3 & Hst & Ha). pose proof (start_assignments _ _ _ _ Hst) as A3.
  match type of Hst with startRollout ?spec db2 = _ =>
    destruct (lin_start spec db2 S2 N2) as [L3 _] end.
  rewrite Hst in L3. simpl in L3.
  assert (evolves db3 db') as He.
  { destruct r as [r|]; [|by apply M_ret_ok in Ha as [_ ->]].
    match type of Ha with ?op db3 = _ => assert (Keeps db3 op) as Hk end.
    { pose proof (keeps_view db3 (rc_OrgID channel) (fr_ID r)). keeps. }
    specialize (Hk db3 (evolves_refl db3)). by rewrite Ha in Hk. }
  split.
  - exists f'. unfold GetReleaseChannelFirmware in *. rewrite (ev_assignments _ _ He), A3, A2. done.
  - intros id r0 Hr0 Hact. rewrite <- R1 in Hr0. destruct (li_headers _ _ L2 id r0 Hr0) as (r2 & Hr2 & I2 & _).
    assert (fr_Status r2 ≠ StatusActive) as Hn2.
    { intros Hs2. apply (N2 id r2 Hr2). destruct Hact as (_ & B1 & B2).
      apply identity_pair in I2 as (E1 & E2 & E3). split_and!; [done|congruence|by rewrite E2, E3]. }
    pose proof (lineage_preorder.(PreOrder_Transitive) _ _ _ L3 (evolves_lineage _ _ He)) as L.
    destruct (li_headers _ _ L id r2 Hr2) as (r3 & Hr3 & _ & F & _). exists r3. split; [done|].
    by rewrite (same_header_status _ _ (F Hn2)).
Qed.

(** Rolling back a rollout that replaced an artifact succeeds only while its generation is
    current, and then assigns that artifact and version again under the next generation, records
    what was replaced, and leaves no previously active rollout of the pair active. *)
Theorem rollback_restores_the_previous org rid m db cid started db' row f :
  sound db → db_rollouts db !! rid = Some row → fr_PreviousFirmwareChecksum row ≠ "" →
  GetReleaseChannelFirmware cid (fr_Manufacturer row) (fr_Model row) db = Some f →
  as_FirmwareChecksum f ≠ fr_PreviousFirmwareChecksum row →
  RollbackFirmware org rid m db = (Ok (cid, started), db') →
  as_AssignmentGeneration f = fr_AssignmentGeneration row
  ∧ (∃ f', GetReleaseChannelFirmware cid (fr_Manufacturer row) (fr_Model row) db' = Some f'
       ∧ as_FirmwareChecksum f' = fr_PreviousFirmwareChecksum row
       ∧ as_FirmwareVersion f' = fr_PreviousFirmwareVersion row
       ∧ as_AssignmentGeneration f' = as_AssignmentGeneration f + 1
       ∧ as_PreviousFirmwareChecksum f' = as_FirmwareChecksum f)
  ∧ (∀ id r, db_rollouts db !! id = Some r →
       active_for cid (fr_Manufacturer row) (fr_Model row) r →
       ∃ r', db_rollouts db' !! id = Some r' ∧ fr_Status r' ≠ StatusActive).
Proof.
  intros Hs Hr Hprev Hf Hne Hb. apply Tx_value in Hb.
  apply M_bind_ok in Hb as (row0 & db1 & Hg & Hb). apply GetFirmwareRollout_ok in Hg as (-> & Hr0 & _).
  apply M_bind_ok in Hb as (channel & db1 & Hc & Hb).
  pose proof (GetReleaseChannel_state org (fr_ChannelID row0) (begin db)) as Hst. rewrite Hc in Hst.
  simpl in Hst. subst db1. apply M_bind_ok in Hb as ([row1 name] & db1 & Hl & Hb).
  apply lockRollout_ok in Hl as (-> & Hr1 & _). change (db_rollouts db !! rid = Some row1) in Hr1.
  rewrite Hr in Hr1. injection Hr1 as <-. cbv zeta in Hb.
  apply M_bind_ok in Hb as (a & db1 & Ha & Hb). injection Ha as Ha <-.
  destruct a as [f0|]; [|done]. destruct (as_AssignmentGeneration f0 =? _) eqn:Eg; [|done]. simpl in Hb.
  apply M_bind_ok in Hb as (started0 & db1 & Happ & Hb). apply M_ret_ok in Hb as [[= <- <-] ->].
  change (GetReleaseChannelFirmware (rc_ID channel) (fr_Manufacturer row) (fr_Model row) db = Some f0) in Ha.
  rewrite Hf in Ha. injection Ha as <-. split; [by crush_bools|].
  rewrite bool_decide_false in Happ by done. destruct (PinFirmwareArtifact _); [|done]. simpl in Happ.
  unfold applyResolved in Happ. destruct (ownerUserID _ <=? 0); [done|]. cbn [apply_loop] in Happ.
  apply M_bind_ok in Happ as (v & db2 & Hone & Happ). apply M_bind_ok in Happ as (vs & db3 & Hnil & Happ).
  apply M_ret_ok in Hnil as [_ ->]. apply M_ret_ok in Happ as [_ ->].
  by apply (apply_one_ok _ _ _ _ _ _ _ _ (begin db)) in Hone; [|by apply sound_begin|..].
Qed.
End Rollback.
