(* ===== verification/RolloutProgressFacts.v ===== *)
(** * The stages of a rollout

    The abstract stage machine of a rollout (batch, review, wait, rest, finished)
    and the proof that the progress transaction implements it: a settled batch
    goes to review or to the wait the behaviour asks for, a review is left on its
    own only on ready evidence, drift reopens the batch, and a rollout finishes
    only when every remaining target is settled. *)

From S2P Require Import Prelude GoSort Float64 Errors RolloutBehavior RolloutStore.
From S2P Require Import RolloutStoreFacts RolloutTargets RolloutTargetsFacts RolloutEngine.
From S2P Require Import RolloutControl RolloutEvolve RolloutHistory.
#[local] Open Scope string_scope.
#[local] Open Scope list_scope.
#[local] Open Scope Z_scope.
#[local] Open Scope go_scope.

(** ** Reads and events *)

Definition read_only {A} (m : Op A) : Prop := ∀ db, (m db).2 = db.

Lemma read_bind {A B} (m : Op A) (f : A → Op B) :
  read_only m → (∀ a, read_only (f a)) → read_only (m ≫= f).
Proof.
  intros Hm Hf db. specialize (Hm db). unfold mbind, M_bind.
  destruct (m db) as [[a|e] db1]; simpl in *; subst; [apply Hf|done].
Qed.

(** Two states that differ in their events only. *)
Definition same_tables (db db' : DB) : Prop := db' = db <| db_events := db_events db' |>.

Lemma same_tables_refl db : same_tables db db.
Proof. by destruct db. Qed.

Lemma same_tables_trans db1 db2 db3 : same_tables db1 db2 → same_tables db2 db3 → same_tables db1 db3.
Proof. unfold same_tables. intros H1 H2. rewrite H2, H1. done. Qed.

Section Facts.
Context `{Env}.

Lemma read_hold r ts b : read_only (dispatchHoldReason r ts b).
Proof.
  unfold dispatchHoldReason. intros db. case_if; [done|]. case_if; [done|]. case_if; [done|].
  unfold mbind, M_bind. pose proof (GetReleaseChannel_state (fr_OrgID r) (fr_ChannelID r) db) as Hs.
  destruct (GetReleaseChannel _ _ db) as [[c|e] db1]; simpl in *; subst; [|done]. by case_if.
Qed.

Lemma read_view r name file : read_only (rolloutView r name file).
Proof.
  unfold rolloutView. apply read_bind; [done|]. intros ts. apply read_bind; [|done].
  case_if; [|done]. destruct (evaluate now r _); [|done]. case_if; [|done].
  apply read_bind; [apply read_hold|done].
Qed.

Lemma read_refresh org rid : read_only (refreshView org rid).
Proof.
  unfold refreshView. apply read_bind; [done|]. intros [[r name]|]; [apply read_view|done].
Qed.

Lemma same_tables_event rid type a note ids db :
  same_tables db (CreateFirmwareRolloutEvent rid type a note ids db).
Proof.
  unfold CreateFirmwareRolloutEvent. destruct (_ !! _); [done|apply same_tables_refl].
Qed.

Lemma log_ok r type system x db u db' :
  logRolloutEvent r type system x db = (Ok u, db') → same_tables db db'.
Proof.
  unfold logRolloutEvent, persistRolloutEvent. intros Hl.
  apply M_bind_ok in Hl as (c & db1 & Hg & Hl). apply GetFirmwareRollout_ok in Hg as (-> & _ & _).
  unfold modify in Hl. injection Hl as _ <-. clear.
  generalize db. induction (event_batches _ _) as [|b bs IH]; intros db1; [apply same_tables_refl|].
  simpl. eapply same_tables_trans; [apply same_tables_event|apply IH].
Qed.

Lemma same_tables_fields db db' :
  same_tables db db' → db_rollouts db' = db_rollouts db ∧ db_devices db' = db_devices db
  ∧ db_world db' = db_world db ∧ db_deployments db' = db_deployments db.
Proof. unfold same_tables. intros ->. done. Qed.

(** ** The abstract machine *)

(** The position of a rollout. *)
Definition position (r : FirmwareRollout) : string * string * Z :=
  (fr_Status r, fr_Stage r, fr_CurrentBatch r).

(** Where a stage that is done leads: the next batch, or the rest. *)
Definition next_position (r : FirmwareRollout) : string * string * Z :=
  if int32 (fr_CurrentBatch r + 1) <? fr_BatchCount r
  then (StatusActive, StageBatch, int32 (fr_CurrentBatch r + 1))
  else (StatusActive, StageRest, fr_CurrentBatch r).

(** When a settled stage may be left without an operator. *)
Definition may_leave (r : FirmwareRollout) (scope : list target) : Prop :=
  let b := behaviorFromSnapshot (fr_BehaviorSnapshot r) in
  (fr_Stage r = StageBatch ∧ gatesAfterBatch b = false ∧ WaitBetweenBatchesSeconds b <= 0)
  ∨ (fr_Stage r = StageAwaitingReview ∧ bs_AutoContinue (fr_BehaviorSnapshot r) = true
     ∧ ∃ ev, evaluate now r scope = Some ev ∧ ReadyToAdvance ev = true)
  ∨ (fr_Stage r = StageWaiting ∧ WaitBetweenBatchesSeconds b * Second <= stageElapsed now r).

Definition running (r : FirmwareRollout) : Prop :=
  fr_Status r = StatusActive ∧ fr_PausedAt r = None.

(** When a rollout stays where it is: it is finished or paused, its stage has
    open targets, or a gate holds. *)
Definition holds (r : FirmwareRollout) (scope : list target) : Prop :=
  let b := behaviorFromSnapshot (fr_BehaviorSnapshot r) in
  ¬ running r
  ∨ (allSettled scope = false ∧ fr_Stage r ≠ StageAwaitingReview ∧ fr_Stage r ≠ StageWaiting)
  ∨ (allSettled scope = true ∧ fr_Stage r = StageAwaitingReview
     ∧ (bs_AutoContinue (fr_BehaviorSnapshot r) = false
        ∨ ∃ ev, evaluate now r scope = Some ev ∧ ReadyToAdvance ev = false))
  ∨ (allSettled scope = true ∧ fr_Stage r = StageWaiting
     ∧ stageElapsed now r < WaitBetweenBatchesSeconds b * Second).

Lemma not_running r :
  (fr_Status r != StatusActive) || is_set (fr_PausedAt r) = true → ¬ running r.
Proof. intros E [H1 H2]. rewrite H1, H2 in E. done. Qed.

Inductive stage_move (r : FirmwareRollout) (scope : list target) : string * string * Z → Prop :=
| move_stay : holds r scope → stage_move r scope (position r)
| move_reopen :
    running r → allSettled scope = false → fr_Stage r = StageAwaitingReview ∨ fr_Stage r = StageWaiting →
    stage_move r scope (StatusActive, StageBatch, fr_CurrentBatch r)
| move_review :
    running r → allSettled scope = true → fr_Stage r = StageBatch →
    gatesAfterBatch (behaviorFromSnapshot (fr_BehaviorSnapshot r)) = true →
    stage_move r scope (StatusActive, StageAwaitingReview, fr_CurrentBatch r)
| move_wait :
    running r → allSettled scope = true → fr_Stage r = StageBatch →
    gatesAfterBatch (behaviorFromSnapshot (fr_BehaviorSnapshot r)) = false →
    0 < bs_WaitBetweenBatchesSeconds (fr_BehaviorSnapshot r) →
    stage_move r scope (StatusActive, StageWaiting, fr_CurrentBatch r)
| move_next :
    running r → allSettled scope = true → may_leave r scope → stage_move r scope (next_position r)
| move_finish :
    running r → allSettled scope = true →
    fr_Stage r ≠ StageBatch → fr_Stage r ≠ StageAwaitingReview → fr_Stage r ≠ StageWaiting →
    stage_move r scope
      (if anyFailed scope then StatusCompletedWithFailures else StatusCompleted,
       fr_Stage r, fr_CurrentBatch r).

(** The machine leaves no choice: a rollout and its scope fix where it goes. *)
Lemma stage_move_deterministic r scope p q : stage_move r scope p → stage_move r scope q → p = q.
Proof.
  destruct 1; destruct 1; try done; exfalso; unfold holds, may_leave, StageBatch, StageAwaitingReview,
    StageWaiting in *; simpl in *;
    repeat match goal with
    | H : _ ∨ _ |- _ => destruct H
    | H : _ ∧ _ |- _ => destruct H
    | H : ∃ _, _ |- _ => destruct H
    end; try congruence; try lia.
Qed.

(** ** The statements of the machine *)

(** Where a stage statement leaves the header, once it applied. *)
Lemma advance_stage_ok r from to batch a db c db' :
  db_rollouts db !! fr_ID r = Some r →
  query (AdvanceFirmwareRolloutStage (fr_ID r) from to batch (fr_StageChangedAt r)
    (fr_StagePausedMicroseconds r) a) db = (Ok (Some c), db') →
  fr_Status r = StatusActive ∧ fr_Stage r = from ∧ fr_PausedAt r = None
  ∧ db_devices db' = db_devices db ∧ fr_StageChangedAt r <= c
  ∧ ∃ r', db_rollouts db' !! fr_ID r = Some r' ∧ position r' = (StatusActive, to, batch)
      ∧ fr_StageChangedAt r' = c ∧ fr_StagePausedMicroseconds r' = 0 ∧ fr_PausedAt r' = None
      ∧ fr_Status r' = StatusActive.
Proof.
  intros Hr. unfold query, AdvanceFirmwareRolloutStage. rewrite Hr. destruct (_ && _) eqn:G; [|done].
  crush_bools. rewrite (update_rollout_lookup _ _ _ _ Hr). intros [= <- <-].
  split_and!; [done..|lia|]. simpl. rewrite lookup_insert_eq. eexists. split; [done|].
  unfold position. autorewrite with rollout. simpl. split_and!; congruence || done.
Qed.

Lemma transition_ok r from to db r1 db' :
  db_rollouts db !! fr_ID r = Some r → transition r from to db = (Ok r1, db') →
  db_devices db' = db_devices db
  ∧ ∃ r', db_rollouts db' !! fr_ID r = Some r' ∧ position r' = (StatusActive, to, fr_CurrentBatch r).
Proof.
  intros Hr Ht. unfold transition in Ht. apply M_bind_ok in Ht as ([c|] & db1 & Hq & Ht); [|done].
  apply M_ret_ok in Ht as [_ ->].
  apply advance_stage_ok in Hq as (_ & _ & _ & Hd & _ & r' & Hr' & Hp & _); [|done]. eauto.
Qed.

Lemma advance_ok r from m db r1 db' :
  db_rollouts db !! fr_ID r = Some r → advance r from m db = (Ok r1, db') →
  db_devices db' = db_devices db ∧ fr_ID r1 = fr_ID r
  ∧ ∃ r', db_rollouts db' !! fr_ID r = Some r' ∧ position r' = next_position r.
Proof.
  intros Hr Ha. unfold advance in Ha. destruct (is_set (fr_PausedAt r)); [done|].
  unfold next_position. destruct (_ <? _); apply M_bind_ok in Ha as ([c|] & db1 & Hq & Ha);
    try done; apply M_ret_ok in Ha as [<- ->];
    apply advance_stage_ok in Hq as (_ & _ & _ & Hd & _ & r' & Hr' & Hp & _); eauto.
Qed.

(** ** The refinement *)

(** After an operation on rollout [id] the rows are as before and the header
    stands at [p]. *)
Definition moved (id : Z) (db db' : DB) (p : string * string * Z) : Prop :=
  db_devices db' = db_devices db ∧ ∃ r', db_rollouts db' !! id = Some r' ∧ position r' = p.

Lemma moved_stay id r db : db_rollouts db !! id = Some r → moved id db db (position r).
Proof. intros Hr. split; [done|eauto]. Qed.

Lemma moved_log id p db db1 db2 :
  moved id db db1 p → same_tables db1 db2 → moved id db db2 p.
Proof.
  intros [Hd (r' & Hr' & Hp)] (E1 & E2 & _)%same_tables_fields. split; [congruence|].
  exists r'. by rewrite E1.
Qed.

Lemma progress_finish_moved r scope db u db' :
  db_rollouts db !! fr_ID r = Some r → fr_Status r = StatusActive → fr_PausedAt r = None →
  progress_finish r scope db = (Ok u, db') →
  moved (fr_ID r) db db'
    (if anyFailed scope then StatusCompletedWithFailures else StatusCompleted,
     fr_Stage r, fr_CurrentBatch r).
Proof.
  intros Hr Hs Hp Hf. unfold progress_finish in Hf.
  destruct (if anyFailed scope then _ else _) as [status event] eqn:Ef.
  apply M_bind_ok in Hf as (n & db1 & Hq & Hf).
  unfold query, FinishFirmwareRollout in Hq.
  rewrite (exec_rollout_hit _ _ _ _ r Hr) in Hq by (rewrite Hs, Hp; done).
  injection Hq as <- <-. simpl in Hf. apply log_ok in Hf. eapply moved_log; [|exact Hf].
  split; [done|]. simpl. rewrite lookup_insert_eq. eexists. split; [done|]. unfold position.
  autorewrite with rollout. simpl. destruct (anyFailed scope); by simplify_eq.
Qed.

Lemma progress_settled_moved r scope db u db' :
  db_rollouts db !! fr_ID r = Some r → fr_Status r = StatusActive → fr_PausedAt r = None →
  allSettled scope = true → progress_settled r scope db = (Ok u, db') →
  ∃ p, moved (fr_ID r) db db' p ∧ stage_move r scope p.
Proof.
  intros Hr Hs Hp Hall Hw. unfold progress_settled in Hw.
  case_bool_decide as E1.
  { destruct (gatesAfterBatch _) eqn:G.
    - apply M_bind_ok in Hw as (r1 & db1 & Ht & Hl). apply transition_ok in Ht; [|done].
      apply log_ok in Hl. eexists. split; [eapply moved_log; [exact Ht|exact Hl]|]. by constructor.
    - destruct (_ <? _) eqn:W; crush_bools.
      + apply M_bind_ok in Hw as (r1 & db1 & Ht & Hl). apply M_ret_ok in Hl as [_ ->].
        apply transition_ok in Ht; [|done]. eexists. split; [exact Ht|]. by constructor.
      + apply M_bind_ok in Hw as (r1 & db1 & Ht & Hl). apply M_ret_ok in Hl as [_ ->].
        apply advance_ok in Ht as (Hd & _ & Hr'); [|done]. eexists. split; [by split|].
        apply move_next; [done..|]. left. done. }
  case_bool_decide as E2.
  { unfold progress_review in Hw. destruct (bs_AutoContinue _) eqn:A; simpl in Hw.
    2:{ apply M_ret_ok in Hw as [_ ->]. eexists. split; [by apply moved_stay|]. apply move_stay.
        do 2 right. left. auto. }
    destruct (evaluate now r scope) as [ev|] eqn:Ev; [|done].
    destruct (ReadyToAdvance ev) eqn:R; simpl in Hw.
    - apply M_bind_ok in Hw as (r1 & db1 & Ht & Hl). apply advance_ok in Ht as (Hd & _ & Hr'); [|done].
      apply log_ok in Hl. eexists. split; [eapply moved_log; [by split|exact Hl]|].
      apply move_next; [done..|]. right; left. eauto.
    - apply M_ret_ok in Hw as [_ ->]. eexists. split; [by apply moved_stay|]. apply move_stay.
      do 2 right. left. eauto 10. }
  case_bool_decide as E3.
  { destruct (_ <? _) eqn:W; crush_bools.
    - apply M_ret_ok in Hw as [_ ->]. eexists. split; [by apply moved_stay|]. apply move_stay.
      do 3 right. auto.
    - apply M_bind_ok in Hw as (r1 & db1 & Ht & Hl). apply M_ret_ok in Hl as [_ ->].
      apply advance_ok in Ht as (Hd & _ & Hr'); [|done]. eexists. split; [by split|].
      apply move_next; [done..|]. right; right. done. }
  apply progress_finish_moved in Hw; [|done..]. eexists. split; [exact Hw|]. by constructor.
Qed.

Definition own_files (r : FirmwareRollout) : list string :=
  FirmwareFileIDsByChecksum (fr_FirmwareChecksum r).

Lemma progress_moved observed db x db' r :
  keyed db → db_rollouts db !! fr_ID observed = Some r →
  advanceRolloutProgress observed db = (Ok x, db') →
  ∃ p, moved (fr_ID observed) db db' p
    ∧ stage_move r (reviewScope r (list_targets (own_files r) db r)) p.
Proof.
  intros Hk Hr Hx. apply Tx_value in Hx. apply M_bind_ok in Hx as ([r0 name] & db1 & Hl & Hx).
  apply lockRollout_ok in Hl as (-> & Hr0 & _ & _). change (db_rollouts db !! fr_ID observed = Some r0) in Hr0.
  rewrite Hr in Hr0. injection Hr0 as <-. pose proof (Hk _ _ Hr) as Hid.
  destruct (_ || _) eqn:S.
  { apply M_ret_ok in Hx as [_ ->]. exists (position r). split; [|apply move_stay; left; by apply not_running].
    by apply (moved_stay _ _ (begin db)). }
  crush_bools. destruct (fr_PausedAt r) eqn:Hp; [done|]. destruct (stage_moved r observed); [done|].
  apply M_bind_ok in Hx as (ts & db1 & Ht & Hx). injection Ht as <- <-.
  change (list_targets _ (begin db) r) with (list_targets (own_files r) db r) in Hx.
  set (scope := reviewScope r _) in *. clearbody scope. cbv zeta in Hx. rewrite <- Hid.
  destruct (allSettled scope) eqn:A; simpl in Hx.
  - apply M_bind_ok in Hx as ([] & db1 & Hw & Hx). apply M_ret_ok in Hx as [_ ->].
    by apply (progress_settled_moved r scope (begin db)) in Hw; [|rewrite ?Hid..].
  - destruct (_ || _) eqn:St.
    + apply M_bind_ok in Hx as (r1 & db1 & Ht & Hx). apply M_ret_ok in Hx as [_ ->].
      apply transition_ok in Ht; [|by rewrite Hid]. eexists. split; [exact Ht|]. apply move_reopen; [done..|].
      apply orb_prop in St as [St|St]; crush_bools; auto.
    + apply M_ret_ok in Hx as [_ ->]. exists (position r).
      split; [|apply move_stay; right; left; apply orb_false_elim in St as [? ?]; by crush_bools].
      apply (moved_stay _ _ (begin db)). by rewrite Hid.
Qed.

(** C3: One progress transaction takes a rollout exactly where the abstract stage machine says (a
    settled batch goes to review, wait or the next batch; drift reopens a batch; a settled rest
    finishes with or without failures; a held or paused rollout stays), and it changes no target
    row: the machine's move is unique and the stored position is that move. *)
Theorem progress_refines_stage_machine observed db x db' r :
  keyed db → db_rollouts db !! fr_ID observed = Some r →
  advanceRolloutProgress observed db = (Ok x, db') →
  db_devices db' = db_devices db
  ∧ ∃ r', db_rollouts db' !! fr_ID observed = Some r'
      ∧ ∀ p, stage_move r (reviewScope r (list_targets (own_files r) db r)) p ↔ p = position r'.
Proof.
  intros Hk Hr Hx. destruct (progress_moved _ _ _ _ _ Hk Hr Hx) as (p & (Hd & r' & Hr' & <-) & Hm).
  split; [done|]. exists r'. split; [done|]. intros p. split; [|by intros ->].
  intros Hp. by apply (stage_move_deterministic _ _ _ _ Hp).
Qed.

(** C6: The engine leaves a review gate on its own only to reopen the batch on drift, or, with
    auto-continue and not paused, when every target that was not skipped is verified, not failed,
    online and hashing (or was not hashing before), every configured threshold holds on enough
    samples, and the stabilization time has passed. *)
Theorem review_is_left_only_on_recovery observed db x db' r r' :
  keyed db → db_rollouts db !! fr_ID observed = Some r → fr_Stage r = StageAwaitingReview →
  advanceRolloutProgress observed db = (Ok x, db') →
  db_rollouts db' !! fr_ID observed = Some r' → position r' ≠ position r →
  let scope := reviewScope r (list_targets (own_files r) db r) in
  Z.of_nat (length scope) < 2 ^ 31 →
  (allSettled scope = false ∧ position r' = (StatusActive, StageBatch, fr_CurrentBatch r))
  ∨ (position r' = next_position r
     ∧ fr_PausedAt r = None ∧ bs_AutoContinue (fr_BehaviorSnapshot r) = true
     ∧ (∀ t, t ∈ scope → skipped t = false → recovered t)
     ∧ within_limits (BThresholds (behaviorFromSnapshot (fr_BehaviorSnapshot r))) (measured scope)
     ∧ stabilized now r).
Proof.
  intros Hk Hr Hst Hx Hr' Hne scope Hlen.
  destruct (progress_moved _ _ _ _ _ Hk Hr Hx) as (p & (Hd & r1 & Hr1 & Hp) & Hm).
  rewrite Hr' in Hr1. injection Hr1 as <-. fold scope in Hm. rewrite Hp in *.
  destruct Hm as [|Hrun Ha Hs|Hrun Ha Hs Hg|Hrun Ha Hs Hg|Hrun Ha Hl|Hrun Ha H1 H2 H3]; try done;
    [by left|by rewrite Hst in Hs..|].
  right. destruct Hl as [(E & _)|[(_ & Hauto & ev & He & Hready)|(E & _)]];
    [by rewrite Hst in E| |by rewrite Hst in E].
  destruct (evaluate_ready now r scope ev Hlen He Hready) as (_ & Hpa & _ & Hall & Hlim & Hsta).
  split_and!; try done. intros t Ht Hsk. apply Hall; [done| |done].
  unfold scope, reviewScope in Ht. rewrite Hst in Ht. simpl in Ht.
  apply list_elem_of_In, filter_In in Ht as [_ Hex]. by apply negb_true_iff in Hex.
Qed.

(** ** Paused rollouts *)

(** Nothing a rollout is made of, and no command queue, changed. *)
Definition quiet (db db' : DB) : Prop :=
  db_rollouts db' = db_rollouts db ∧ db_devices db' = db_devices db ∧ db_events db' = db_events db
  ∧ db_deployments db' = db_deployments db ∧ db_world db' = db_world db.

Lemma quiet_refl db : quiet db db.
Proof. done. Qed.

Lemma quiet_Tx {A} db (m : Op A) : quiet (begin db) (m (begin db)).2 → quiet db (Tx m db).2.
Proof.
  unfold Tx, RunInTx. change ((modify _;; m) db) with (m (begin db)).
  by destruct (m (begin db)) as [[a|e] db'].
Qed.

Lemma read_lock org rid e : read_only (lockRollout org rid e).
Proof.
  unfold lockRollout. apply read_bind.
  - intros db. unfold GetFirmwareRollout. destruct (_ !! _); [by case_if|done].
  - intros r. case_if; [done|]. apply read_bind; [|done]. intros db. apply GetReleaseChannel_state.
Qed.

(** Running past the lock, on the stored row or not at all. *)
Lemma quiet_lock {A} db org rid e (f : FirmwareRollout * string → Op A) r :
  db_rollouts db !! rid = Some r → (∀ name, quiet db (f (r, name) db).2) →
  quiet db ((lockRollout org rid e ≫= f) db).2.
Proof.
  intros Hr Hf. unfold mbind at 1, M_bind at 1.
  destruct (lockRollout org rid e db) as [[[r1 name]|err] db1] eqn:E.
  - apply lockRollout_ok in E as (-> & Hr1 & _). rewrite Hr in Hr1. injection Hr1 as <-. apply Hf.
  - pose proof (read_lock org rid e db) as Hs. rewrite E in Hs. simpl in *. by subst.
Qed.

Lemma paused_dispatch o db r :
  db_rollouts db !! fr_ID o = Some r → fr_PausedAt r ≠ None →
  quiet db (dispatchUpdates o db).2
  ∧ (∀ n db', dispatchUpdates o db = (Ok n, db') → n = 0).
Proof.
  intros Hr Hp. split.
  - unfold dispatchUpdates. apply quiet_Tx. unfold mbind at 1, M_bind at 1.
    pose proof (GetReleaseChannel_state (fr_OrgID o) (fr_ChannelID o) (begin db)) as Hs.
    destruct (GetReleaseChannel _ _ (begin db)) as [[c|e] db1]; simpl in Hs; subst; [|apply quiet_refl].
    set (db1 := ObserveFirmwareRolloutReservationsOffline (Some (fr_ChannelID o)) (begin db)).
    assert (∃ b, refreshOfflineBudget (fr_ChannelID o) (rc_MaxConcurrentOffline c) (begin db) = (Ok b, db1))
      as [b Hb].
    { unfold refreshOfflineBudget, mbind, M_bind. simpl. case_if; simpl; eauto. }
    unfold mbind at 1, M_bind at 1. rewrite Hb.
    assert (∀ d, quiet db1 d → quiet (begin db) d) as Hq by done. apply Hq.
    apply quiet_lock with r; [done|]. intros name. destruct (fr_PausedAt r); [|done].
    rewrite orb_true_r. apply quiet_refl.
  - intros n db' Hn. apply Tx_value in Hn. apply M_bind_ok in Hn as (c & db1 & Hc & Hn).
    pose proof (GetReleaseChannel_state (fr_OrgID o) (fr_ChannelID o) (begin db)) as Hs.
    rewrite Hc in Hs. simpl in Hs. subst db1. apply M_bind_ok in Hn as (b & db1 & Hb & Hn).
    assert (db_rollouts db1 = db_rollouts db) as Hdb.
    { unfold refreshOfflineBudget in Hb. apply M_bind_ok in Hb as (u & d1 & Hm & Hb).
      injection Hm as _ <-. destruct (_ <=? 0); [by apply M_ret_ok in Hb as [_ ->]|].
      apply M_bind_ok in Hb as (sl & d2 & Hg & Hb). injection Hg as _ <-.
      by apply M_ret_ok in Hb as [_ ->]. }
    apply M_bind_ok in Hn as ([r1 name] & db2 & Hl & Hn). apply lockRollout_ok in Hl as (-> & Hr1 & _).
    rewrite Hdb, Hr in Hr1. injection Hr1 as <-. destruct (fr_PausedAt r); [|done].
    rewrite orb_true_r in Hn. simpl in Hn. by apply M_ret_ok in Hn as [<- _].
Qed.

Lemma paused_progress o db r :
  db_rollouts db !! fr_ID o = Some r → fr_PausedAt r ≠ None →
  quiet db (advanceRolloutProgress o db).2
  ∧ (∀ x db', advanceRolloutProgress o db = (Ok x, db') → x = None).
Proof.
  intros Hr Hp. split.
  - unfold advanceRolloutProgress. apply quiet_Tx, quiet_lock with r; [done|]. intros name.
    destruct (fr_PausedAt r); [|done]. rewrite orb_true_r. apply quiet_refl.
  - intros x db' Hx. apply Tx_value in Hx. apply M_bind_ok in Hx as ([r1 name] & db1 & Hl & Hx).
    apply lockRollout_ok in Hl as (-> & Hr1 & _). change (db_rollouts db !! fr_ID o = Some r1) in Hr1.
    rewrite Hr in Hr1. injection Hr1 as <-. destruct (fr_PausedAt r); [|done].
    rewrite orb_true_r in Hx. by apply M_ret_ok in Hx as [<- _].
Qed.

(** Enforcing a paused rollout changes no header, target, event, deployment or command,
    whatever targets the pass was given. *)
Theorem paused_rollout_is_inert o targets db r :
  db_rollouts db !! fr_ID o = Some r → fr_PausedAt r ≠ None →
  quiet db (enforceRollout o targets db).2.
Proof.
  intros Hr Hp. unfold enforceRollout. case_if; [apply quiet_refl|]. case_if.
  { unfold enforceDelegated. apply quiet_Tx, quiet_lock with r; [done|]. intros name.
    destruct (fr_PausedAt r); [|done]. rewrite orb_true_r. apply quiet_refl. }
  assert (∀ db', quiet db db' → quiet db' ((reopened ← advanceRolloutProgress o;
    match reopened with None => mret tt | Some r' => halted ← dispatchUpdates r';
      if halted =? 0 then mret tt else advanceRolloutProgress r';; mret tt end) db').2) as Hgo.
  { intros db' (E1 & _). rewrite <- E1 in Hr. destruct (paused_progress o db' r Hr Hp) as [Q1 Q2].
    unfold mbind at 1, M_bind at 1. destruct (advanceRolloutProgress o db') as [[x|e] db2]; [|done].
    by rewrite (Q2 x db2). }
  destruct (paused_dispatch o db r Hr Hp) as [Q1 Q2]. unfold mbind at 1, M_bind at 1.
  destruct (_ && negb (allSettled _)).
  - unfold mbind at 1, M_bind at 1. destruct (dispatchUpdates o db) as [[n|e] db1]; [|done].
    rewrite (Q2 n db1) by done. done.
  - simpl. apply Hgo. apply quiet_refl.
Qed.
End Facts.
