(* ===== verification/RolloutSafety.v ===== *)
(** * What the controls and the dispatch guarantee

    Optimistic concurrency (a stale revision changes nothing), cancellation
    (every target is settled and only unsettled ones are touched), and dispatch:
    only due targets of the reviewed scope are sent, never more than the
    channel's offline budget admits, and no miner is sent more than
    [MaxAttempts] updates. *)

From S2P Require Import Prelude GoSort Float64 Errors RolloutBehavior RolloutStore.
From S2P Require Import RolloutStoreFacts RolloutTargets RolloutEngine RolloutControl.
From S2P Require Import RolloutEvolve RolloutHistory RolloutProgressFacts.
#[local] Open Scope string_scope.
#[local] Open Scope list_scope.
#[local] Open Scope Z_scope.
#[local] Open Scope go_scope.

Section Safety.
Context `{Env}.

(** ** Rows and targets *)

Definition row_key (d : DeviceRow) : Z * Z := (dr_RolloutID d, dr_DeviceID d).

(** The primary key of [firmware_rollout_device]. *)
Definition unique_rows (db : DB) : Prop := NoDup (map row_key (db_devices db)).

Lemma unique_row db d1 d2 :
  unique_rows db → d1 ∈ db_devices db → d2 ∈ db_devices db → row_key d1 = row_key d2 → d1 = d2.
Proof.
  unfold unique_rows. intros Hn (i & Hi)%list_elem_of_lookup (j & Hj)%list_elem_of_lookup Hk.
  assert (i = j) as ->; [|congruence]. eapply (NoDup_lookup (map row_key (db_devices db))); [done|..].
  - by rewrite list_lookup_fmap, Hi.
  - by rewrite list_lookup_fmap, Hj, Hk.
Qed.

Lemma elem_list_targets own db r t :
  t ∈ list_targets own db r ↔
  ∃ d, d ∈ db_devices db ∧ dr_RolloutID d = fr_ID r ∧ t = target_of own db r d.
Proof.
  unfold list_targets. rewrite stable_sort_elem, list_elem_of_fmap. unfold rollout_rows.
  setoid_rewrite list_elem_of_In. setoid_rewrite filter_In. split.
  - intros (d & -> & Hd & He). crush_bools. eauto.
  - intros (d & Hd & He & ->). exists d. split_and!; [done|done|lia].
Qed.

(** A device is among the targets that satisfy [p] exactly when its row does. *)
Lemma selected_ids own db r (p : target → bool) d :
  unique_rows db → d ∈ db_devices db → dr_RolloutID d = fr_ID r →
  dr_DeviceID d ∈ map (λ t, dr_DeviceID (t_row t)) (List.filter p (list_targets own db r))
  ↔ p (target_of own db r d) = true.
Proof.
  intros Hu Hd Hr. rewrite list_elem_of_fmap. split.
  - intros (t & He & Ht). apply list_elem_of_In, filter_In in Ht as [Ht Hp].
    apply list_elem_of_In, elem_list_targets in Ht as (d2 & Hd2 & Hr2 & ->). simpl in He.
    assert (d2 = d) as ->; [|done]. apply (unique_row db); [done..|]. unfold row_key. congruence.
  - intros Hp. exists (target_of own db r d). split; [done|]. apply list_elem_of_In, filter_In.
    split; [|done]. apply list_elem_of_In, elem_list_targets. eauto.
Qed.

Lemma update_devices_ext rid ids guard f (g : DeviceRow → DeviceRow) db :
  (∀ d, d ∈ db_devices db → (if row_selected rid ids guard d then f d else d) = g d) →
  db_devices (update_devices rid ids guard f db) = map g (db_devices db).
Proof.
  intros Hg. rewrite update_devices_rows. apply map_ext_in. intros d Hd. apply Hg.
  by apply list_elem_of_In.
Qed.

(** ** Optimistic concurrency *)

(** C14: An operator mutation that expects another revision than the stored one fails with
    stale_revision, reports the current revision, and leaves the tables untouched. *)
Theorem stale_revision_changes_nothing org rid m change db r :
  db_rollouts db !! rid = Some r → fr_OrgID r = org →
  ExpectedRevision m ≠ 0 → ExpectedRevision m ≠ fr_Revision r →
  mutateActive org rid m change db
  = (Err (Returned (reason CodeFailedPrecondition {| Reason := ReasonStaleRevision;
       CurrentRevision := fr_Revision r; ErrDeviceIdentifiers := [] |})), db).
Proof.
  intros Hr Ho H0 Hne. unfold mutateActive, Tx, RunInTx, lockRollout, GetFirmwareRollout.
  unfold mbind, M_bind, modify. simpl. rewrite Hr, Ho, Z.eqb_refl.
  replace (ExpectedRevision m =? 0) with false by lia.
  replace (fr_Revision r =? ExpectedRevision m) with false by lia. done.
Qed.

(** ** Cancellation *)

(** What canceling does to a row of the rollout. *)
Definition canceled_row (clock rid : Z) (d : DeviceRow) : DeviceRow :=
  if (dr_RolloutID d =? rid) && bool_decide (dr_HaltedAt d = None) && bool_decide (dr_VerifiedAt d = None)
  then d <| dr_HaltedAt := Some clock |> <| dr_HaltReason := HaltReasonCanceled |>
         <| dr_LastError := CancelError |> <| dr_SkipNote := "" |>
  else d.

Lemma is_set_None {A} (o : option A) : is_set o = negb (bool_decide (o = None)).
Proof. by destruct o. Qed.

Lemma cancel_rows own db r rid :
  unique_rows db → fr_ID r = rid →
  let remaining := map (λ t, dr_DeviceID (t_row t))
    (List.filter (λ t, negb (halted t) && negb (verified t)) (list_targets own db r)) in
  db_devices (HaltFirmwareRolloutDevices rid remaining HaltReasonCanceled CancelError db)
  = map (canceled_row (db_clock db) rid) (db_devices db).
Proof.
  intros Hu Hid remaining. apply update_devices_ext. intros d Hd.
  unfold row_selected, canceled_row. destruct (dr_RolloutID d =? rid) eqn:E; [|done]. crush_bools.
  pose proof (selected_ids own db r (λ t, negb (halted t) && negb (verified t)) d Hu Hd
    ltac:(congruence)) as Hsel. fold remaining in Hsel.
  unfold halted, verified in Hsel. simpl in Hsel. rewrite !is_set_None, !negb_involutive in Hsel.
  simpl. destruct (bool_decide (dr_HaltedAt d = None)) eqn:E1; [|by rewrite andb_false_r].
  rewrite andb_true_r. simpl in *. destruct (bool_decide (dr_VerifiedAt d = None)).
  - by rewrite bool_decide_true by (by apply Hsel).
  - by rewrite bool_decide_false by (by intros Hin%Hsel).
Qed.

Lemma mutateActive_ok org rid m change db v db' :
  mutateActive org rid m change db = (Ok v, db') →
  ∃ r u, db_rollouts db !! rid = Some r ∧ fr_Status r = StatusActive ∧ fr_OrgID r = org
    ∧ (ExpectedRevision m = 0 ∨ fr_Revision r = ExpectedRevision m)
    ∧ change r (begin db) = (Ok u, db').
Proof.
  unfold mutateActive. intros Hm%Tx_value. apply M_bind_ok in Hm as ([r name] & db1 & Hl & Hm).
  apply lockRollout_ok in Hl as (-> & Hr & Ho & He). case_bool_decide as Hs; [|done].
  simpl in Hm. apply M_bind_ok in Hm as (u & db1 & Hc & Hv). exists r, u.
  pose proof (read_refresh org rid db1) as Hro. rewrite Hv in Hro. simpl in Hro. subst. naive_solver.
Qed.

Lemma update_devices_nil rid guard f db : update_devices rid [] guard f db = db.
Proof.
  unfold update_devices. assert (∀ d, row_selected rid [] guard d = false) as Hs.
  { intros d. unfold row_selected. rewrite (bool_decide_false (dr_DeviceID d ∈ [])) by set_solver.
    by rewrite andb_false_r. }
  replace (existsb _ _) with false; [|induction (db_devices db); simpl; [done|by rewrite Hs]].
  destruct db as [? rows]; simpl. f_equal. induction rows as [|d rows IH]; [done|].
  simpl. by rewrite Hs, IH.
Qed.

(** A statement on no device does nothing, so its guard can be dropped. *)
Lemma when_nonempty ids (S : list Z → DB → DB) db :
  S [] db = db → (when (0 <? length ids)%nat (modify (S ids)) : Op unit) db = (Ok tt, S ids db).
Proof. intros HS. destruct ids; [|done]. by rewrite HS. Qed.

Definition canceled_header (a : Actor) (r : FirmwareRollout) : Prop :=
  fr_Status r = StatusCanceled ∧ fr_PausedAt r = None ∧ fr_FinishedAt r ≠ None
  ∧ fr_LastActionBy r = audit a.

Lemma cancel_statement rid a r db n db1 :
  db_rollouts db !! rid = Some r → query (CancelFirmwareRollout rid a) db = (Ok n, db1) → n ≠ 0 →
  db_devices db1 = db_devices db ∧ db_clock db1 = db_clock db
  ∧ ∃ r', db_rollouts db1 !! rid = Some r' ∧ canceled_header a r'.
Proof.
  intros Hr Hq Hn. unfold query, CancelFirmwareRollout in Hq.
  destruct (bool_decide (fr_Status r = StatusActive)) eqn:Hs.
  2:{ rewrite (exec_rollout_miss _ _ _ _ r Hr) in Hq by done. by injection Hq as <- _. }
  rewrite (exec_rollout_hit _ _ _ _ r Hr) in Hq by done. injection Hq as _ <-. simpl.
  rewrite lookup_insert_eq. split_and!; [done|done|]. eexists. split; [done|].
  unfold canceled_header. autorewrite with rollout. done.
Qed.

Lemma cancel_change_ok rid m r db u db' :
  keyed db → unique_rows db → db_rollouts db !! rid = Some r →
  cancel_change rid m r db = (Ok u, db') →
  db_devices db' = map (canceled_row (db_clock db) rid) (db_devices db)
  ∧ ∃ r', db_rollouts db' !! rid = Some r' ∧ canceled_header (MActor m) r'.
Proof.
  intros Hk Hu Hr Hc. unfold cancel_change in Hc. apply M_bind_ok in Hc as (n & db1 & Hq & Hc).
  destruct (n =? 0) eqn:En; [done|]. crush_bools.
  destruct (cancel_statement rid (MActor m) r db n db1 Hr Hq En) as (Hd & Hcl & r' & Hr' & Hh).
  cbv zeta in Hc. apply M_bind_ok in Hc as (ts & db2 & Ht & Hc). injection Ht as <- <-.
  rewrite (M_bind_ok) in Hc. destruct Hc as ([] & db2 & Hw & Hl).
  apply log_ok, same_tables_fields in Hl as (L1 & L2 & _). rewrite L1, L2.
  rewrite (when_nonempty _ (λ ids, HaltFirmwareRolloutDevices rid ids HaltReasonCanceled CancelError)) in Hw
    by apply update_devices_nil.
  injection Hw as <-. split.
  - rewrite cancel_rows; [by rewrite Hcl, Hd|by unfold unique_rows; rewrite Hd|exact (Hk _ _ Hr)].
  - destruct (update_devices_header rid (map (λ t, dr_DeviceID (t_row t))
      (List.filter (λ t, negb (halted t) && negb (verified t))
        (list_targets (own_files r) db1 r))) (λ d, bool_decide (dr_HaltedAt d = None))
      (λ d, d <| dr_HaltedAt := Some (db_clock db1) |> <| dr_HaltReason := HaltReasonCanceled |>
            <| dr_LastError := CancelError |> <| dr_SkipNote := "" |>) db1 rid r' Hr')
      as (r2 & Hr2 & Hs). exists r2. split; [exact Hr2|]. by destruct Hs as (? & ? & ? & ->).
Qed.

(** C13: Canceling a rollout halts as canceled exactly the targets that were neither halted nor
    verified, leaves every other row as it was, so that every target of the rollout is settled,
    and finishes the header as canceled by the actor. *)
Theorem cancel_settles_every_target org rid m db v db' :
  keyed db → unique_rows db → CancelRollout org rid m db = (Ok v, db') →
  db_devices db' = map (canceled_row (db_clock db) rid) (db_devices db)
  ∧ (∀ d, d ∈ db_devices db' → dr_RolloutID d = rid → dr_HaltedAt d ≠ None ∨ dr_VerifiedAt d ≠ None)
  ∧ ∃ r', db_rollouts db' !! rid = Some r' ∧ canceled_header (MActor m) r'.
Proof.
  intros Hk Hu Hc. apply mutateActive_ok in Hc as (r & u & Hr & _ & _ & _ & Hc).
  apply cancel_change_ok in Hc as [Hd Hh]; [|done..]. change (db_clock (begin db)) with (db_clock db) in Hd.
  change (db_devices (begin db)) with (db_devices db) in Hd. split_and!; [done| |done].
  rewrite Hd. intros d (d0 & -> & _)%list_elem_of_fmap. unfold canceled_row.
  destruct (_ && _) eqn:E; simpl; [by left|]. intros Hid.
  apply andb_false_iff in E as [[E|E]%andb_false_iff|E]; crush_bools; [lia|by left|by right].
Qed.

(** ** Classification *)

Definition waits (t : target) : bool := settled t || has_pending t || sentRecently now t.
Definition mismatched (t : target) : bool := negb (waits t) && negb (in_scope t).
Definition exhausted (t : target) : bool :=
  negb (waits t) && in_scope t && (MaxAttempts <=? dr_Attempts (t_row t)).

Definition ids_where (p : target → bool) (scope : list target) : list Z :=
  map (λ t, dr_DeviceID (t_row t)) (List.filter p scope).

Lemma ids_where_snoc p scope t :
  ids_where p (scope ++ [t]) = ids_where p scope ++ (if p t then [dr_DeviceID (t_row t)] else []).
Proof. unfold ids_where. rewrite List.filter_app, map_app. simpl. by destruct (p t). Qed.

(** The loop is three filters. *)
Lemma classify_filters r scope :
  classify now scope = {| toHalt := ids_where exhausted scope;
    incompatible := ids_where mismatched scope; due := ids_where (is_due r) scope |}.
Proof.
  unfold classify. induction scope as [|t scope IH] using rev_ind; [done|].
  rewrite fold_left_app, IH. simpl. rewrite !ids_where_snoc.
  unfold classify_target, exhausted, mismatched, is_due, waits. simpl.
  destruct (settled t); simpl; [by rewrite !app_nil_r|].
  destruct (has_pending t); simpl; [by rewrite !app_nil_r|].
  destruct (sentRecently now t); simpl; [by rewrite !app_nil_r|].
  destruct (in_scope t); simpl; [|by rewrite !app_nil_r].
  destruct (MaxAttempts <=? _); simpl; by rewrite !app_nil_r.
Qed.

(** ** Admission *)

Lemma within_room_prefix b due : within_room b due `prefix_of` due.
Proof. unfold within_room. case_if; [|done]. apply prefix_take. Qed.

Lemma within_room_room b due :
  0 <= room b → Z.of_nat (length (within_room b due)) <= room b.
Proof.
  intros Hr. unfold within_room. destruct (_ && _) eqn:E; crush_bools.
  - rewrite length_take. lia.
  - apply andb_false_iff in E as [E|E]; crush_bools; lia.
Qed.

(** ** Attempts *)

(** Two row lists that agree but for one more attempt of the marked devices. *)
Definition attempted (rid : Z) (marked : list Z) (d d' : DeviceRow) : Prop :=
  row_key d' = row_key d
  ∧ dr_Attempts d' = dr_Attempts d
      + (if (dr_RolloutID d =? rid) && bool_decide (dr_DeviceID d ∈ marked) then 1 else 0).

Lemma attempted_same rid ids guard f db j :
  (∀ d, row_key (f d) = row_key d ∧ dr_Attempts (f d) = dr_Attempts d) →
  Forall2 (attempted j []) (db_devices db) (db_devices (update_devices rid ids guard f db)).
Proof.
  intros Hf. rewrite update_devices_rows. apply Forall2_fmap_r, Forall_Forall2_diag, Forall_forall.
  intros d _. simpl. unfold attempted.
  rewrite (bool_decide_false (dr_DeviceID d ∈ [])) by set_solver. rewrite andb_false_r, Z.add_0_r.
  destruct (row_selected _ _ _ d); [apply Hf|done].
Qed.

Lemma attempted_trans rid marked l1 l2 l3 :
  Forall2 (attempted rid []) l1 l2 → Forall2 (attempted rid marked) l2 l3 →
  Forall2 (attempted rid marked) l1 l3.
Proof.
  intros H1. revert l3. induction H1 as [|d1 d2 l1 l2 [K1 A1] H1 IH]; intros l3 H2;
    inversion H2 as [|? d3 ? l3' [K2 A2] H3]; subst; constructor; [|by apply IH].
  rewrite (bool_decide_false (dr_DeviceID d1 ∈ [])) in A1 by set_solver.
  rewrite andb_false_r, Z.add_0_r in A1. split; [congruence|]. rewrite A2, A1.
  by apply pair_eq in K1 as [-> ->].
Qed.

Lemma attempted_refl rid l : Forall2 (attempted rid []) l l.
Proof.
  apply Forall_Forall2_diag, Forall_forall. intros d _. split; [done|].
  rewrite (bool_decide_false (dr_DeviceID d ∈ [])) by set_solver. by rewrite andb_false_r, Z.add_0_r.
Qed.

Lemma attempted_sent rid ids dispatched uuid db :
  Forall2 (attempted rid ids) (db_devices db)
    (db_devices (MarkFirmwareRolloutDevicesSent rid ids dispatched uuid db)).
Proof.
  assert (db_devices (MarkFirmwareRolloutDevicesSent rid ids dispatched uuid db)
    = db_devices (update_devices rid ids (λ _, true) (mark_sent_row db dispatched uuid) db)) as ->.
  { unfold MarkFirmwareRolloutDevicesSent. destruct (_ !! _); [by case_if|done]. }
  rewrite update_devices_rows. apply Forall2_fmap_r, Forall_Forall2_diag, Forall_forall.
  intros d _. simpl. unfold attempted, row_selected. rewrite andb_true_r.
  destruct (_ && _); [done|]. split; [done|lia].
Qed.

(** ** The batch that is dispatched *)

Lemma dispatch_halts_attempts r scope c db u db' :
  dispatch_halts r scope c db = (Ok u, db') →
  Forall2 (attempted (fr_ID r) []) (db_devices db) (db_devices db')
  ∧ db_assignments db' = db_assignments db.
Proof.
  intros Hh. unfold dispatch_halts in Hh. apply M_bind_ok in Hh as ([] & db1 & H1 & Hh).
  apply M_bind_ok in Hh as ([] & db2 & H2 & Hh).
  rewrite (when_nonempty _ (λ ids, HaltFirmwareRolloutDevices (fr_ID r) ids HaltReasonFailed
    IncompatibleError)) in H1 by apply update_devices_nil.
  rewrite (when_nonempty _ (λ ids, HaltFirmwareRolloutDevices (fr_ID r) ids HaltReasonFailed
    (ExhaustedError (fr_FirmwareVersion r)))) in H2 by apply update_devices_nil.
  injection H1 as <-. injection H2 as <-.
  assert (∀ ids e d, Forall2 (attempted (fr_ID r) []) (db_devices d)
    (db_devices (HaltFirmwareRolloutDevices (fr_ID r) ids HaltReasonFailed e d))
    ∧ db_assignments (HaltFirmwareRolloutDevices (fr_ID r) ids HaltReasonFailed e d)
      = db_assignments d) as Hhalt.
  { intros. split; [by apply attempted_same|apply evolves_halt]. }
  set (d1 := HaltFirmwareRolloutDevices _ (incompatible c) _ _ _) in *.
  set (d2 := HaltFirmwareRolloutDevices _ (toHalt c) _ _ _) in *.
  enough (same_tables d2 db' ∧ db_assignments db' = db_assignments d2) as [(_ & -> & _)%same_tables_fields ->].
  { destruct (Hhalt (incompatible c) IncompatibleError db) as [F1 A1].
    destruct (Hhalt (toHalt c) (ExhaustedError (fr_FirmwareVersion r)) d1) as [F2 A2].
    split; [eapply attempted_trans; [exact F1|exact F2]|].
    transitivity (db_assignments d1); [exact A2|exact A1]. }
  unfold when in Hh. case_match; [|injection Hh as _ <-; split; [apply same_tables_refl|done]].
  apply M_bind_ok in Hh as (ch & db3 & Hc & Hl).
  pose proof (GetReleaseChannel_state (fr_OrgID r) (fr_ChannelID r) d2) as Hs. rewrite Hc in Hs.
  simpl in Hs. subst db3. apply log_ok in Hl. split; [done|]. by rewrite Hl.
Qed.

(** The assignment a dispatch acts for is the rollout's, and its artifact is
    there. *)
Definition current_assignment (r : FirmwareRollout) (db : DB) : Prop :=
  is_set (FindFirmwareFileIDByChecksum (fr_FirmwareChecksum r)) = true
  ∧ ∃ a, GetReleaseChannelFirmware (fr_ChannelID r) (fr_Manufacturer r) (fr_Model r) db = Some a
    ∧ as_AssignmentGeneration a = fr_AssignmentGeneration r
    ∧ as_FirmwareChecksum a = fr_FirmwareChecksum r ∧ as_FirmwareVersion a = fr_FirmwareVersion r.

Lemma dispatch_due_ok r scope a ids db sent db' :
  dispatch_due r scope a ids db = (Ok sent, db') →
  ∃ res w marked, FirmwareUpdateArtifact
      {| fc_OwnerUserID := as_AssignedBy a; fc_OrgID := fr_OrgID r;
         fc_Identifiers := map (by_id (identifiers_by_id scope)) ids;
         fc_Checksum := fr_FirmwareChecksum r; fc_TargetManufacturer := as_TargetManufacturer a;
         fc_TargetModel := as_TargetModel a; fc_FirmwareVersion := as_FirmwareVersion a |} db
      = (Ok res, w)
    ∧ marked ⊆+ ids ∧ Forall2 (attempted (fr_ID r) marked) (db_devices db) (db_devices db')
    ∧ let dispatched := List.filter (λ id, bool_decide
        (by_id (identifiers_by_id scope) id ∈ DispatchedDeviceIdentifiers res)) ids in
      sent = map (by_id (identifiers_by_id scope)) dispatched
      ∧ (bs_Method (fr_BehaviorSnapshot r) = MethodDelegated → marked = dispatched).
Proof.
  intros Hd. unfold dispatch_due in Hd. apply M_bind_ok in Hd as (res & db1 & Hq & Hd).
  unfold query in Hq. destruct (FirmwareUpdateArtifact _ db) as [res1 w] eqn:Ef.
  injection Hq as <- Hdb1. assert (db_devices db1 = db_devices db) as Hdd by (by subst db1).
  clear Hdb1. destruct res1 as [res1|e]; [|done].
  apply M_bind_ok in Hd as ([] & db2 & Hm & Hd). injection Hm as <-. apply M_ret_ok in Hd as [<- ->].
  match goal with |- context [MarkFirmwareRolloutDevicesSent _ ?m _ _ _] => set (marked := m) end.
  exists res1, w, marked. cbv zeta. split_and!; [done| |rewrite <- Hdd; apply attempted_sent|done|].
  2:{ intros Hm. unfold marked. by rewrite bool_decide_true. }
  unfold marked. case_if; [|done]. apply sublist_submseteq. clear.
  induction ids as [|x ids IH]; simpl; [constructor|]. case_if; by constructor.
Qed.

Lemma dispatch_batch_ok r scope budget db halted sent b' db' :
  dispatchLockedBatch r scope budget db = (Ok (halted, sent, b'), db') →
  ∃ marked, Forall2 (attempted (fr_ID r) marked) (db_devices db) (db_devices db')
    ∧ marked ⊆+ within_room budget (ids_where (is_due r) scope)
    ∧ (marked ≠ [] → current_assignment r db).
Proof.
  intros Hd. unfold dispatchLockedBatch in Hd. rewrite (classify_filters r) in Hd. cbv zeta in Hd.
  apply M_bind_ok in Hd as ([] & db1 & Hh & Hd). apply dispatch_halts_attempts in Hh as [F1 A1].
  simpl in Hd. set (ids := within_room budget _) in *.
  assert (db' = db1 → ∃ marked,
    Forall2 (attempted (fr_ID r) marked) (db_devices db) (db_devices db') ∧ marked ⊆+ ids
    ∧ (marked ≠ [] → current_assignment r db)) as Hidle.
  { intros ->. exists []. split_and!; [done|apply submseteq_nil_l|done]. }
  destruct (length ids =? 0)%nat; [by apply M_ret_ok in Hd as [_ ->]; apply Hidle|].
  destruct (is_set _) eqn:Ef; simpl in Hd; [|by apply M_ret_ok in Hd as [_ ->]; apply Hidle].
  apply M_bind_ok in Hd as (a & db2 & Ha & Hd). injection Ha as Ha <-.
  destruct a as [a|]; [|done].
  destruct (_ || _) eqn:Es; [by apply M_ret_ok in Hd as [_ ->]; apply Hidle|]. crush_bools.
  apply M_bind_ok in Hd as (s1 & db2 & Hs & Hd). apply M_ret_ok in Hd as [_ ->].
  apply dispatch_due_ok in Hs as (res & w & marked & _ & Hsub & F2 & _).
  exists marked. split_and!; [by eapply attempted_trans|done|]. intros _. split; [done|].
  exists a. split_and!; try done. unfold GetReleaseChannelFirmware in *. by rewrite <- A1.
Qed.

(** ** Departures *)

Lemma target_of_ext own db db' r d :
  db_world db' = db_world db → db_deployments db' = db_deployments db →
  target_of own db' r d = target_of own db r d.
Proof. intros Hw Hp. unfold target_of, db_observe. by rewrite Hw, Hp. Qed.

Lemma exclude_ok r db ts db' :
  unique_rows db → excludeDepartedTargets r (list_targets (own_files r) db r) db = (Ok ts, db') →
  Forall2 (attempted (fr_ID r) []) (db_devices db) (db_devices db')
  ∧ db_assignments db' = db_assignments db
  ∧ (∀ t, t ∈ ts → excluded t = false →
      ∃ d, d ∈ db_devices db ∧ dr_RolloutID d = fr_ID r ∧ t = target_of (own_files r) db r d
           ∧ ob_IsChannelMember (t_obs t) = true).
Proof.
  intros Hu He. unfold excludeDepartedTargets in He. cbv zeta in He.
  set (leaves := λ t, negb (ob_IsChannelMember (t_obs t)) && negb (excluded t)) in *.
  pose proof (selected_ids (own_files r) db r leaves) as Hsel.
  set (ids := map _ (List.filter leaves _)) in *. destruct ids as [|i ids'] eqn:Ei.
  - apply M_ret_ok in He as [<- ->]. split_and!; [apply attempted_refl|done|].
    intros t Ht Hx. apply elem_list_targets in Ht as (d & Hd & Hr & ->). exists d.
    split_and!; [done..|]. destruct (ob_IsChannelMember _) eqn:Em; [done|].
    apply (Hsel d Hu Hd) in Hr as Hin. unfold leaves in Hin. rewrite Em, Hx in Hin. simpl in Hin.
    destruct Hin as [_ Hin]. apply elem_of_nil in Hin; done.
  - apply M_bind_ok in He as ([] & db1 & Hm & Ht). injection Hm as <-. injection Ht as <- <-.
    rewrite <- Ei in *. clear Ei i ids'.
    split_and!; [by apply attempted_same|apply evolves_exclude|].
    intros t Ht Hx. apply elem_list_targets in Ht as (d' & Hd' & Hr & ->).
    apply update_devices_elem in Hd' as (d & Hd & ->). unfold row_selected in *.
    assert (dr_RolloutID d = fr_ID r) as Hrd by (by destruct (_ && _ && _)).
    pose proof (Hsel d Hu Hd Hrd) as Hin. unfold leaves in Hin. simpl in Hin.
    destruct (_ && _ && _) eqn:Es; [done|]. exists d. split_and!; [done|done| |].
    + apply target_of_ext; apply (update_devices_frame (fr_ID r) ids).
    + rewrite (target_of_ext _ db) by apply (update_devices_frame (fr_ID r) ids). simpl.
      destruct (ob_IsChannelMember (db_observe db (fr_ID r) (dr_DeviceID d))); [done|exfalso].
      unfold excluded in *. simpl in *. rewrite Hx in Hin. simpl in Hin.
      rewrite Hrd, Z.eqb_refl in Es. simpl in Es.
      rewrite (bool_decide_true (dr_DeviceID d ∈ ids)) in Es by (by apply Hin). simpl in Es.
      by destruct (dr_ExcludedAt d).
Qed.

(** ** The offline budget *)

Lemma budget_held slots limit held :
  fold_left reserve slots (Some {| bg_limit := limit; bg_held := held |})
  = Some {| bg_limit := limit; bg_held := list_to_set slots ∪ held |}.
Proof.
  revert held. induction slots as [|x slots IH]; intros held; simpl; [by rewrite (left_id_L ∅ _)|].
  rewrite IH. do 2 f_equal. set_solver.
Qed.

Lemma room_of_slots limit slots :
  NoDup slots → 0 < limit →
  room (budget_of_slots limit slots) = Z.max (limit - Z.of_nat (length slots)) 0.
Proof.
  intros Hn Hl. unfold budget_of_slots. replace (limit <=? 0) with false by lia.
  rewrite budget_held. simpl. replace (limit <=? 0) with false by lia.
  rewrite (right_id_L ∅ _). by rewrite size_list_to_set.
Qed.

Lemma slots_once channel db : NoDup (ListFirmwareRolloutOfflineSlots channel db).
Proof. apply NoDup_remove_dups. Qed.

Lemma refresh_ok channel limit db b db' :
  refreshOfflineBudget channel limit db = (Ok b, db') →
  db' = ObserveFirmwareRolloutReservationsOffline (Some channel) db
  ∧ (0 < limit → b = budget_of_slots limit (ListFirmwareRolloutOfflineSlots channel db')).
Proof.
  intros Hb. unfold refreshOfflineBudget in Hb. apply M_bind_ok in Hb as ([] & db1 & Hm & Hb).
  injection Hm as <-. destruct (limit <=? 0) eqn:El; crush_bools.
  - apply M_ret_ok in Hb as [<- ->]. split; [done|lia].
  - apply M_bind_ok in Hb as (sl & db2 & Hg & Hb). injection Hg as <- <-.
    by apply M_ret_ok in Hb as [<- ->].
Qed.

(** ** Dispatch *)

(** What a target must satisfy for an update to be sent to it. *)
Definition sendable (r : FirmwareRollout) (t : target) : Prop :=
  fr_Status r = StatusActive ∧ fr_PausedAt r = None
  ∧ (fr_Stage r = StageRest ∨ fr_Stage r = StageBatch ∧ inBatch (fr_CurrentBatch r) t = true)
  ∧ excluded t = false ∧ ob_IsChannelMember (t_obs t) = true ∧ in_scope t = true
  ∧ verified t = false ∧ halted t = false ∧ has_pending t = false ∧ sentRecently now t = false
  ∧ dr_Attempts (t_row t) < MaxAttempts.

Lemma sendable_due r t ts :
  fr_Status r = StatusActive → fr_PausedAt r = None →
  fr_Stage r = StageBatch ∨ fr_Stage r = StageRest →
  t ∈ reviewScope r ts → is_due r t = true → ob_IsChannelMember (t_obs t) = true → sendable r t.
Proof.
  intros Hs Hp Hst Ht Hd Hm. unfold is_due in Hd. apply negb_true_iff in Hd.
  unfold settled in Hd. crush_bools.
  assert (excluded t = false ∧ (fr_Stage r = StageRest
    ∨ fr_Stage r = StageBatch ∧ inBatch (fr_CurrentBatch r) t = true)) as [Hx Hb].
  { unfold reviewScope, activeTargets in Ht. case_bool_decide as E.
    - apply list_elem_of_In, filter_In in Ht as [_ Hx]. crush_bools. auto.
    - apply list_elem_of_In, filter_In in Ht as [Ht Hx]. crush_bools. split; [done|right].
      unfold evidenceScope in Ht. apply filter_In in Ht as [_ Ht].
      rewrite (bool_decide_false _ E) in Ht. simpl in Ht. naive_solver. }
  unfold sendable. split_and!; done.
Qed.

Lemma reviewScope_elem r t ts : t ∈ reviewScope r ts → t ∈ ts ∧ excluded t = false.
Proof.
  unfold reviewScope, activeTargets, evidenceScope.
  case_if; intros Ht; apply list_elem_of_In, filter_In in Ht as [Ht Hx]; crush_bools.
  - by rewrite list_elem_of_In.
  - apply filter_In in Ht as [Ht _]. by rewrite list_elem_of_In.
Qed.

Lemma dispatch_ok o db n db' :
  keyed db → unique_rows db → dispatchUpdates o db = (Ok n, db') →
  ∃ r marked, db_rollouts db !! fr_ID o = Some r
    ∧ Forall2 (attempted (fr_ID o) marked) (db_devices db) (db_devices db')
    ∧ (∀ id, id ∈ marked → ∃ d, d ∈ db_devices db ∧ dr_RolloutID d = fr_ID o ∧ dr_DeviceID d = id
         ∧ sendable r (target_of (own_files r) db r d))
    ∧ (marked ≠ [] → current_assignment r db)
    ∧ (∀ c, db_channels db !! fr_ChannelID o = Some c → 0 < rc_MaxConcurrentOffline c →
         Z.of_nat (length marked) <= Z.max (rc_MaxConcurrentOffline c - Z.of_nat (length
           (ListFirmwareRolloutOfflineSlots (fr_ChannelID o)
             (ObserveFirmwareRolloutReservationsOffline (Some (fr_ChannelID o)) db)))) 0).
Proof.
  intros Hk Hu Hn. apply Tx_value in Hn. apply M_bind_ok in Hn as (c & db1 & Hc & Hn).
  assert (db1 = begin db ∧ db_channels db !! fr_ChannelID o = Some c) as [-> Hch].
  { unfold GetReleaseChannel in Hc. simpl in Hc. destruct (db_channels db !! _); [|done].
    destruct (_ =? _); by simplify_eq. }
  apply M_bind_ok in Hn as (budget & db1 & Hb & Hn). apply refresh_ok in Hb as [Hdb1 Hb].
  apply M_bind_ok in Hn as ([r name] & db2 & Hl & Hn). apply lockRollout_ok in Hl as (-> & Hr & _).
  rewrite Hdb1 in Hr. change (db_rollouts db !! fr_ID o = Some r) in Hr. pose proof (Hk _ _ Hr) as Hid.
  exists r. destruct (_ || _) eqn:Eg.
  { apply M_ret_ok in Hn as [_ ->]. exists []. rewrite Hdb1.
    split_and!; [done|apply attempted_refl|set_solver|done|simpl; lia]. }
  crush_bools. apply M_bind_ok in Hn as (ts0 & db2 & Ht & Hn). injection Ht as <- <-.
  apply M_bind_ok in Hn as (ts & db2 & Hx & Hn).
  apply exclude_ok in Hx as (F1 & A1 & Hts); [|by unfold unique_rows; rewrite Hdb1].
  unfold dispatchLockedUpdates in Hn. apply M_bind_ok in Hn as ([[h sent] b'] & db3 & Hd & Hn).
  apply M_ret_ok in Hn as [_ ->]. apply dispatch_batch_ok in Hd as (marked & F2 & Hsub & Hcur).
  exists marked. rewrite <- Hid. rewrite Hid in F1, F2. split_and!.
  - by rewrite Hid.
  - rewrite Hid. assert (db_devices db1 = db_devices db) as <- by (by rewrite Hdb1).
    by eapply attempted_trans.
  - intros id Hin. apply (elem_of_submseteq _ _ _ Hin) in Hsub.
    apply (elem_of_prefix _ (ids_where (is_due r) (reviewScope r ts))) in Hsub; [|apply within_room_prefix].
    apply list_elem_of_fmap in Hsub as (t & -> & Ht). apply list_elem_of_In, filter_In in Ht as [Ht Hdue].
    apply list_elem_of_In in Ht. destruct (reviewScope_elem _ _ _ Ht) as [Hin2 Hx].
    destruct (Hts t Hin2 Hx) as (d & Hd & Hrd & -> & Hmem). rewrite Hdb1 in Hd. exists d.
    split_and!; [exact Hd|done|done|]. rewrite (target_of_ext _ db db1) in * by (by rewrite Hdb1).
    apply sendable_due with ts; try done; [by destruct (fr_PausedAt r)|].
    match goal with E : _ && _ = false |- _ => apply andb_false_iff in E as [E|E] end; crush_bools; auto.
  - intros Hne. destruct (Hcur Hne) as [Hf (a & Ha & Hrest)]. split; [done|]. exists a. split; [|done].
    unfold GetReleaseChannelFirmware in *. rewrite A1, Hdb1 in Ha. exact Ha.
  - intros c' Hc' Hlim. rewrite Hch in Hc'. injection Hc' as <-. rewrite (Hb Hlim) in Hsub.
    apply submseteq_length in Hsub. pose proof (within_room_room (budget_of_slots (rc_MaxConcurrentOffline c)
      (ListFirmwareRolloutOfflineSlots (fr_ChannelID o) db1)) (ids_where (is_due r) (reviewScope r ts)))
      as Hroom. rewrite room_of_slots in Hroom by (done || apply slots_once). rewrite Hdb1 in *.
    change (ListFirmwareRolloutOfflineSlots (fr_ChannelID o) (ObserveFirmwareRolloutReservationsOffline
      (Some (fr_ChannelID o)) (begin db))) with (ListFirmwareRolloutOfflineSlots (fr_ChannelID o)
      (ObserveFirmwareRolloutReservationsOffline (Some (fr_ChannelID o)) db)) in *.
    lia.
Qed.

(** The rows an operation sent an update to. *)
Definition sent_rows (l l' : list DeviceRow) : list (DeviceRow * DeviceRow) :=
  List.filter (λ p, negb (dr_Attempts p.2 =? dr_Attempts p.1)) (zip l l').

Lemma filter_map_sublist {A B} (f : A → B) p l : map f (List.filter p l) `sublist_of` map f l.
Proof. induction l as [|x l IH]; simpl; [done|]. case_if; by constructor. Qed.

Definition is_marked (rid : Z) (marked : list Z) (d : DeviceRow) : bool :=
  (dr_RolloutID d =? rid) && bool_decide (dr_DeviceID d ∈ marked).

Lemma sent_rows_marked rid marked l l' :
  Forall2 (attempted rid marked) l l' →
  map fst (sent_rows l l') = List.filter (is_marked rid marked) l.
Proof.
  unfold sent_rows. induction 1 as [|d d' l l' [_ Ha] _ IH]; [done|]. simpl.
  change ((dr_RolloutID d =? rid) && bool_decide (dr_DeviceID d ∈ marked))
    with (is_marked rid marked d) in Ha.
  destruct (is_marked rid marked d).
  - replace (dr_Attempts d' =? dr_Attempts d) with false by lia. simpl. by rewrite IH.
  - replace (dr_Attempts d' =? dr_Attempts d) with true by lia. done.
Qed.

Lemma sent_rows_count rid marked l l' :
  NoDup (map row_key l) → Forall2 (attempted rid marked) l l' →
  (length (sent_rows l l') <= length marked)%nat.
Proof.
  intros Hn Hf. rewrite <- (length_map fst), (sent_rows_marked _ _ _ _ Hf).
  rewrite <- (length_map dr_DeviceID). apply submseteq_length, NoDup_submseteq.
  - assert (NoDup (map row_key (List.filter (is_marked rid marked) l))) as Hs.
    { eapply sublist_NoDup; [exact Hn|apply filter_map_sublist]. }
    assert (map row_key (List.filter (is_marked rid marked) l)
      = map (pair rid) (map dr_DeviceID (List.filter (is_marked rid marked) l))) as E.
    { rewrite map_map. apply map_ext_in. intros d [_ Hd]%filter_In. unfold is_marked in Hd.
      crush_bools. unfold row_key. congruence. }
    rewrite E in Hs. by apply NoDup_fmap_1 in Hs.
  - intros id (d & -> & [_ Hd]%list_elem_of_In%filter_In)%list_elem_of_fmap.
    unfold is_marked in Hd. by crush_bools.
Qed.

End Safety.
