(* ===== verification/RolloutSelectFacts.v ===== *)
(** * A controller's advance

    The selection of queued targets is exact (the first ones in snapshot order,
    or precisely the named ones, or an error naming the rest), and an advance is
    all or nothing: every selected target is sent one update, or nothing of the
    tables changes. *)

From S2P Require Import Prelude GoSort Float64 Errors RolloutBehavior RolloutStore.
From S2P Require Import RolloutStoreFacts RolloutTargets RolloutEngine RolloutControl.
From S2P Require Import RolloutEvolve RolloutHistory RolloutProgressFacts RolloutSafety.
#[local] Open Scope string_scope.
#[local] Open Scope list_scope.
#[local] Open Scope Z_scope.
#[local] Open Scope go_scope.

Definition identifier (t : target) : string := ob_DeviceIdentifier (t_obs t).

(** ** The selection *)

Section Select.
Context (r : FirmwareRollout).

Lemma select_count n targets selected named :
  0 < n → Z.of_nat (length selected) <= n →
  fold_left (select_step r n) targets (selected, named)
  = (selected ++ take (Z.to_nat n - length selected) (List.filter (selectable r) targets), named).
Proof.
  intros Hn. revert selected. induction targets as [|t targets IH]; intros selected Hl; simpl.
  { by rewrite take_nil, app_nil_r. }
  replace (0 <? n) with true by lia.
  destruct (selectable r t) eqn:Es; simpl; [|by apply IH].
  destruct (Z.of_nat (length selected) <? n) eqn:El; crush_bools.
  - rewrite IH by (rewrite length_app; simpl; lia). rewrite length_app. simpl.
    replace (Z.to_nat n - length selected)%nat with (S (Z.to_nat n - (length selected + 1)))%nat by lia.
    simpl. by rewrite <- app_assoc.
  - rewrite IH by done. replace (Z.to_nat n - length selected)%nat with 0%nat by lia. done.
Qed.

Definition wanted (named : gset string) (t : target) : bool :=
  bool_decide (identifier t ∈ named) && selectable r t.

Lemma select_named targets selected named :
  NoDup (map identifier targets) →
  fold_left (select_step r 0) targets (selected, named)
  = (selected ++ List.filter (wanted named) targets,
     named ∖ list_to_set (map identifier (List.filter (selectable r) targets))).
Proof.
  revert selected named. induction targets as [|t targets IH]; intros selected named Hn; simpl.
  { rewrite app_nil_r. f_equal. set_solver. }
  apply NoDup_cons in Hn as [Hni Hn]. simpl. fold (identifier t).
  unfold wanted at 1. destruct (selectable r t) eqn:Es; simpl;
    [|rewrite andb_false_r; simpl; by apply IH].
  rewrite andb_true_r. case_bool_decide as Hin; rewrite IH by done; f_equal.
  - rewrite <- app_assoc. simpl. do 2 f_equal. apply List.filter_ext_in. intros t' Ht'.
    unfold wanted. f_equal. apply bool_decide_ext.
    assert (identifier t' ≠ identifier t); [|set_solver].
    intros E. apply Hni. rewrite <- E. apply list_elem_of_fmap. exists t'. split; [done|].
    by apply list_elem_of_In.
  - set_solver.
  - set_solver.
Qed.

(** Is [id] the identifier of a queued member of the rollout? *)
Definition queued_name (targets : list target) (id : string) : bool :=
  existsb (λ t, selectable r t && bool_decide (identifier t = id)) targets.

Lemma queued_name_spec targets id :
  id ∈ (list_to_set (map identifier (List.filter (selectable r) targets)) : gset string)
  ↔ queued_name targets id = true.
Proof.
  rewrite elem_of_list_to_set, list_elem_of_fmap. unfold queued_name. rewrite existsb_exists.
  setoid_rewrite list_elem_of_In. setoid_rewrite filter_In. split.
  - intros (t & -> & Ht & Hs). exists t. rewrite Hs. split; [done|]. by rewrite bool_decide_true.
  - intros (t & Ht & Hs). crush_bools. eauto.
Qed.

Lemma selectQueued_named targets ids :
  NoDup (map identifier targets) →
  selectQueued r targets {| SelIdentifiers := ids; SelCount := 0 |} =
  if forallb (queued_name targets) ids
  then Ok (List.filter (wanted (list_to_set ids)) targets)
  else Err (reason CodeFailedPrecondition {| Reason := ReasonDeviceNotQueued; CurrentRevision := 0;
         ErrDeviceIdentifiers := List.filter (λ id, negb (queued_name targets id)) ids |}).
Proof.
  intros Hn. unfold selectQueued. cbn [SelIdentifiers SelCount]. rewrite select_named by done.
  set (Q := list_to_set (map identifier (List.filter (selectable r) targets)) : gset string).
  set (N := list_to_set ids : gset string).
  assert (∀ id, id ∈ N ∖ Q ↔ id ∈ ids ∧ queued_name targets id = false) as Hin.
  { intros id. unfold N. rewrite elem_of_difference, elem_of_list_to_set. unfold Q.
    rewrite queued_name_spec. rewrite not_true_iff_false. done. }
  destruct (forallb _ ids) eqn:Ef.
  - assert (N ∖ Q = ∅) as ->; [|by rewrite size_empty].
    apply set_eq. intros id. rewrite Hin. split; [|set_solver]. intros [Hid Hq].
    rewrite forallb_forall in Ef. rewrite (Ef id) in Hq; [done|]. by apply list_elem_of_In.
  - assert (∃ id, id ∈ N ∖ Q) as [id0 Hid0].
    { clear -Ef Hin. assert (∃ id, id ∈ ids ∧ queued_name targets id = false) as (id & Hid).
      { clear Hin. induction ids as [|x ids IH]; [done|]. simpl in Ef.
        destruct (queued_name targets x) eqn:E; [|exists x; split; [by left|done]].
        destruct IH as (id & Hid & Hq); [done|]. exists id. split; [by right|done]. }
      exists id. by apply Hin. }
    replace (Nat.eqb (size (N ∖ Q)) 0) with false.
    2:{ symmetry. apply Nat.eqb_neq. intros E. apply size_empty_inv in E. set_solver. }
    simpl. do 3 f_equal. apply List.filter_ext_in. intros id Hid.
    destruct (queued_name targets id) eqn:Eq; simpl.
    + apply bool_decide_eq_false. rewrite Hin. rewrite Eq. by intros [_ ?].
    + apply bool_decide_eq_true. rewrite Hin. split; [|done]. by apply list_elem_of_In.
Qed.

(** The selection scan returns the named targets in dispatch order when all of them are
    queued members, and otherwise names exactly the requested identifiers that are not; by count
    it returns the first queued members. *)
Theorem selectQueued_exact targets ids n :
  NoDup (map identifier targets) →
  selectQueued r targets {| SelIdentifiers := ids; SelCount := 0 |} =
    (if forallb (queued_name targets) ids
     then Ok (List.filter (wanted (list_to_set ids)) targets)
     else Err (reason CodeFailedPrecondition {| Reason := ReasonDeviceNotQueued; CurrentRevision := 0;
            ErrDeviceIdentifiers := List.filter (λ id, negb (queued_name targets id)) ids |}))
  ∧ (0 < n → selectQueued r targets {| SelIdentifiers := []; SelCount := n |}
             = Ok (take (Z.to_nat n) (List.filter (selectable r) targets))).
Proof.
  intros Hn. split; [by apply selectQueued_named|]. intros Hpos. unfold selectQueued.
  cbn [SelIdentifiers SelCount]. rewrite select_count by (simpl; lia). simpl.
  by rewrite Nat.sub_0_r.
Qed.

(** Whatever is selected is queued, in snapshot order and without repetition. *)
Lemma selectQueued_sublist targets sel selected :
  selectQueued r targets sel = Ok selected → selected `sublist_of` targets
  ∧ Forall (λ t, selectable r t = true) selected.
Proof.
  unfold selectQueued. intros Hs.
  destruct (fold_left _ targets _) as [out named] eqn:E.
  destruct (negb _); [done|]. injection Hs as <-.
  assert (∀ acc, (fold_left (select_step r (SelCount sel)) targets acc).1 `sublist_of` acc.1 ++ targets
    ∧ (Forall (λ t, selectable r t = true) acc.1 →
       Forall (λ t, selectable r t = true) (fold_left (select_step r (SelCount sel)) targets acc).1)) as Hall.
  { clear E. induction targets as [|t targets IH]; intros [l nm]; simpl; [by rewrite app_nil_r|].
    destruct (IH (select_step r (SelCount sel) (l, nm) t)) as [I1 I2].
    assert ((select_step r (SelCount sel) (l, nm) t).1 = l
      ∨ ((select_step r (SelCount sel) (l, nm) t).1 = l ++ [t] ∧ selectable r t = true)) as [E|[E Es]].
    { unfold select_step. destruct (0 <? SelCount sel);
        match goal with |- context [if ?b then _ else _] => destruct b eqn:Eb end; crush_bools; auto. }
    - rewrite E in *. split; [|auto]. etransitivity; [exact I1|]. apply sublist_app; [done|by constructor].
    - rewrite E in *. rewrite <- app_assoc in I1. split; [done|]. intros Hl. apply I2.
      apply Forall_app_2; [done|by constructor]. }
  destruct (Hall ([], list_to_set (SelIdentifiers sel))) as [H1 H2]. rewrite E in H1, H2. simpl in *.
  split; [done|]. by apply H2.
Qed.
End Select.

(** ** The advance *)

Section Advance.
Context `{Env}.

Definition device_ids (ts : list target) : list Z := map (λ t, dr_DeviceID (t_row t)) ts.

Lemma filter_all {A} (p : A → bool) l : length (List.filter p l) = length l → List.filter p l = l.
Proof.
  induction l as [|x l IH]; [done|]. simpl. destruct (p x); simpl; intros E.
  - f_equal. apply IH. lia.
  - pose proof (filter_length_le p l). lia.
Qed.

Lemma prefix_all {A} (l k : list A) : l `prefix_of` k → (length k <= length l)%nat → l = k.
Proof.
  intros [k' ->] Hl. rewrite length_app in Hl. destruct k'; [by rewrite app_nil_r|simpl in Hl; lia].
Qed.

Lemma identifiers_by_id_other scope (m : gmap Z string) id :
  id ∉ device_ids scope →
  fold_left (λ m t, <[dr_DeviceID (t_row t) := ob_DeviceIdentifier (t_obs t)]> m) scope m !! id = m !! id.
Proof.
  revert m. induction scope as [|t scope IH]; intros m Hni; [done|]. simpl in *.
  apply not_elem_of_cons in Hni as [Hne Hni]. rewrite IH by done. by rewrite lookup_insert_ne.
Qed.

Lemma by_id_scope scope :
  NoDup (device_ids scope) →
  map (by_id (identifiers_by_id scope)) (device_ids scope) = map identifier scope.
Proof.
  intros Hn. unfold device_ids. rewrite map_map. apply map_ext_in. intros t Ht. unfold by_id, identifiers_by_id.
  generalize (∅ : gmap Z string). induction scope as [|t' scope IH]; intros m; [done|].
  apply NoDup_cons in Hn as [Hni Hn]. destruct Ht as [->|Ht]; simpl; [|by apply IH].
  rewrite identifiers_by_id_other by done. by rewrite lookup_insert_eq.
Qed.

(** A whole selection dispatched. *)
Lemma dispatch_whole r selected budget db sent halted b' db' :
  bs_Method (fr_BehaviorSnapshot r) = MethodDelegated → NoDup (device_ids selected) →
  (0 < length selected)%nat → length sent = length selected →
  dispatchLockedBatch r selected budget db = (Ok (halted, sent, b'), db') →
  sent = map identifier selected
  ∧ Forall2 (attempted (fr_ID r) (device_ids selected)) (db_devices db) (db_devices db').
Proof.
  intros Hdel Hn Hpos Hlen Hd. unfold dispatchLockedBatch in Hd. rewrite (classify_filters r) in Hd.
  cbv zeta in Hd. apply M_bind_ok in Hd as ([] & db1 & Hh & Hd).
  apply dispatch_halts_attempts in Hh as [F1 A1]. simpl in Hd.
  set (due := ids_where (is_due r) selected) in *. set (ids := within_room budget due) in *.
  assert (∀ x : Z * list string * option offlineBudget, x.1.2 = [] → x ≠ (halted, sent, b')) as Hno.
  { intros x Hx ->. simpl in Hx. subst sent. simpl in Hlen. lia. }
  destruct (length ids =? 0)%nat; [by apply M_ret_ok in Hd as [E _]; apply Hno in E|].
  destruct (negb _); [by apply M_ret_ok in Hd as [E _]; apply Hno in E|].
  apply M_bind_ok in Hd as (a & db2 & Ha & Hd). injection Ha as _ <-. destruct a as [a|]; [|done].
  destruct (_ || _); [by apply M_ret_ok in Hd as [E _]; apply Hno in E|].
  apply M_bind_ok in Hd as (s1 & db2 & Hs & Hd). apply M_ret_ok in Hd as [[= _ -> _] ->].
  apply dispatch_due_ok in Hs as (res & w & marked & _ & _ & F2 & Hsent & Hmark).
  specialize (Hmark Hdel). set (dispatched := List.filter _ ids) in *.
  assert (length dispatched = length selected) as Hl1.
  { rewrite <- Hlen, Hsent. by rewrite length_map. }
  assert (length dispatched <= length ids)%nat as Hl2 by apply filter_length_le.
  assert (ids `prefix_of` due) as Hpre by apply within_room_prefix.
  pose proof (prefix_length _ _ Hpre) as Hl3.
  assert (length due <= length selected)%nat as Hl4.
  { unfold due, ids_where. rewrite length_map. apply filter_length_le. }
  assert (due = device_ids selected) as E1.
  { unfold due, ids_where, device_ids. rewrite filter_all; [done|].
    unfold due, ids_where in Hl3. rewrite length_map in Hl3.
    pose proof (filter_length_le (is_due r) selected). lia. }
  assert (ids = due) as E2 by (apply prefix_all; [done|lia]).
  assert (dispatched = ids) as E3 by (unfold dispatched in *; apply filter_all; lia).
  rewrite Hmark, E3, E2, E1 in F2. split; [|by eapply attempted_trans].
  rewrite Hsent, E3, E2, E1. by apply by_id_scope.
Qed.

Lemma device_ids_nodup own db r :
  unique_rows db → NoDup (device_ids (list_targets own db r)).
Proof.
  intros Hu. unfold device_ids, list_targets.
  assert (NoDup (map (λ t, dr_DeviceID (t_row t)) (map (target_of own db r) (rollout_rows db (fr_ID r))))) as Hn.
  { rewrite map_map. simpl. apply (NoDup_fmap_1 (pair (fr_ID r))).
    assert (NoDup (map row_key (rollout_rows db (fr_ID r)))) as Hs.
    { eapply sublist_NoDup; [exact Hu|]. apply filter_map_sublist. }
    replace (pair (fr_ID r) <$> _) with (map row_key (rollout_rows db (fr_ID r))); [done|].
    change (map row_key (rollout_rows db (fr_ID r))
      = map (pair (fr_ID r)) (map dr_DeviceID (rollout_rows db (fr_ID r)))).
    rewrite map_map. apply map_ext_in. intros d [_ Hd]%filter_In. crush_bools.
    unfold row_key. congruence. }
  by rewrite (stable_sort_perm target_less).
Qed.

Lemma update_rollout_devices id f db : db_devices (update_rollout id f db) = db_devices db.
Proof. unfold update_rollout. by destruct (_ !! _). Qed.

Lemma wait_devices id w db : db_devices (SetFirmwareRolloutControllerWait id w db) = db_devices db.
Proof.
  unfold SetFirmwareRolloutControllerWait, exec_rollout. destruct (_ !! _); [|done].
  case_if; [apply update_rollout_devices|done].
Qed.

(** The selected targets were sent, or there were none. *)
Lemma selected_sent r selected budget db sent db' :
  bs_Method (fr_BehaviorSnapshot r) = MethodDelegated → NoDup (device_ids selected) →
  (if (0 <? length selected)%nat then advance_selected r selected budget else mret []) db
    = (Ok sent, db') →
  sent = map identifier selected
  ∧ Forall2 (attempted (fr_ID r) (device_ids selected)) (db_devices db) (db_devices db').
Proof.
  intros Hdel Hn Hs. destruct selected as [|t selected]; simpl in Hs.
  { apply M_ret_ok in Hs as [<- ->]. split; [done|apply attempted_refl]. }
  unfold advance_selected in Hs. destruct (negb _); [done|]. destruct (negb _); [done|].
  apply M_bind_ok in Hs as ([[h s1] b'] & db1 & Hd & Hs).
  destruct (Nat.eqb _ _) eqn:El; [|done]. apply Nat.eqb_eq in El. apply M_ret_ok in Hs as [<- ->].
  eapply dispatch_whole; [done|done| |exact El|exact Hd]. simpl. lia.
Qed.

Definition advanced (rid : Z) (sel : DeviceSelection) (db db' : DB) (sent : list string) : Prop :=
  ∃ r selected, db_rollouts db !! rid = Some r ∧ fr_Status r = StatusActive
    ∧ bs_Method (fr_BehaviorSnapshot r) = MethodDelegated ∧ fr_PausedAt r = None
    ∧ selectQueued r (list_targets (own_files r) db r) sel = Ok selected
    ∧ sent = map identifier selected
    ∧ Forall2 (attempted rid (device_ids selected)) (db_devices db) (db_devices db').

Lemma advance_body_ok org rid sel m db v sent db' :
  keyed db → unique_rows db → advance_body org rid sel m (begin db) = (Ok (v, sent), db') →
  advanced rid sel db db' sent.
Proof.
  intros Hk Hu Hb. unfold advance_body in Hb. apply M_bind_ok in Hb as (o & db1 & Hg & Hb).
  apply GetFirmwareRollout_ok in Hg as (-> & _ & _). apply M_bind_ok in Hb as (c & db1 & Hc & Hb).
  pose proof (GetReleaseChannel_state org (fr_ChannelID o) (begin db)) as Hs. rewrite Hc in Hs.
  simpl in Hs. subst db1. apply M_bind_ok in Hb as ([r name] & db1 & Hl & Hb).
  apply lockRollout_ok in Hl as (-> & Hr & _). change (db_rollouts db !! rid = Some r) in Hr.
  apply M_bind_ok in Hb as ([] & db1 & Hd & Hb). unfold requireDelegated in Hd.
  destruct (bool_decide (fr_Status r = _)) eqn:Hact; [|done].
  destruct (bool_decide (bs_Method _ = _)) eqn:Hdel; [|done]. simpl in Hd. crush_bools.
  apply M_ret_ok in Hd as [_ ->]. destruct (fr_PausedAt r) eqn:Hp; [done|]. simpl in Hb.
  apply M_bind_ok in Hb as ([] & db1 & Ha & Hb). assert (db1 = begin db) as ->.
  { unfold currentAssignment in Ha. apply M_bind_ok in Ha as (a & db2 & Hga & Ha).
    injection Hga as _ <-. destruct a; [|done]. destruct (_ || _); [done|].
    by apply M_ret_ok in Ha as [_ ->]. }
  apply M_bind_ok in Hb as (ts & db1 & Ht & Hb). injection Ht as <- <-.
  change (list_targets _ (begin db) r) with (list_targets (own_files r) db r) in Hb.
  apply M_bind_ok in Hb as (selected & db1 & Hsel & Hb).
  destruct (selectQueued r _ sel) as [sel1|e] eqn:Eq; [|done]. injection Hsel as -> <-.
  destruct (List.find undispatchable selected); [done|].
  apply M_bind_ok in Hb as (budget & db1 & Hbud & Hb). apply refresh_ok in Hbud as [Hdb1 _].
  destruct (_ && _) in Hb; [done|]. apply M_bind_ok in Hb as (s1 & db2 & Hsent & Hb).
  apply M_bind_ok in Hb as ([] & db3 & Hm & Hb). injection Hm as <-.
  apply M_bind_ok in Hb as ([] & db3 & Hw & Hb). injection Hw as <-.
  apply M_bind_ok in Hb as ([] & db3 & Hl & Hb). apply log_ok, same_tables_fields in Hl as (_ & Hdev & _).
  apply M_bind_ok in Hb as (v1 & db4 & Hv & Hb). apply M_ret_ok in Hb as [[= <- <-] ->].
  pose proof (read_refresh org rid db3) as Hro. rewrite Hv in Hro. simpl in Hro. subst db4.
  rewrite wait_devices in Hdev. unfold RecordFirmwareRolloutAction in Hdev.
  rewrite update_rollout_devices in Hdev. destruct (selectQueued_sublist _ _ _ _ Eq) as [Hsub _].
  assert (NoDup (device_ids selected)) as Hn.
  { eapply sublist_NoDup; [exact (device_ids_nodup (own_files r) db r Hu)|].
    exact (fmap_sublist _ _ _ Hsub). }
  destruct (selected_sent r selected budget db1 s1 db2 Hdel Hn Hsent) as [-> F].
  exists r, selected. rewrite Hdev. rewrite (Hk _ _ Hr) in F. rewrite Hdb1 in F. split_and!; done.
Qed.

(** C38: A controller's advance either fails and leaves the tables as they were, or sends to
    exactly the selected queued targets of an active, unpaused, delegated rollout, one attempt
    each, and returns their identifiers. *)
Theorem advance_is_all_or_nothing org rid sel m db :
  keyed db → unique_rows db →
  match AdvanceRollout org rid sel m db with
  | (Err _, db') => db' = db
  | (Ok (_, sent), db') => advanced rid sel db db' sent
  end.
Proof.
  intros Hk Hu. unfold AdvanceRollout.
  assert (match Tx (advance_body org rid sel m) db with
    | (Err _, db') => db' = db | (Ok (_, sent), db') => advanced rid sel db db' sent end) as Hbody.
  { destruct (Tx (advance_body org rid sel m) db) as [[[v sent]|e] db'] eqn:E.
    - apply Tx_value in E. by eapply advance_body_ok.
    - by apply Tx_fault in E. }
  destruct (validateMutation m); [|done]. unfold mbind at 1, M_bind at 1. simpl.
  case_if; [done|]. case_if; [|done]. by destruct (validateIdentifiers _).
Qed.
End Advance.
