(* ===== verification/RolloutRecordFacts.v ===== *)
(** * What the engine records

    Convergence (a target is marked verified exactly on full live evidence and
    reopened exactly on drift), provenance (a deployment is recorded only for an
    eligible target whose observed record is still current), events (bounded
    batches that lose no identifier) and the phase counts of a view. *)

From S2P Require Import Prelude GoSort Float64 Errors RolloutBehavior RolloutStore.
From S2P Require Import RolloutStoreFacts RolloutTargets RolloutTargetsFacts RolloutEngine.
From S2P Require Import RolloutControl RolloutEvolve RolloutHistory RolloutProgressFacts.
From S2P Require Import RolloutSafety RolloutSelectFacts.
#[local] Open Scope string_scope.
#[local] Open Scope list_scope.
#[local] Open Scope Z_scope.
#[local] Open Scope go_scope.

Section Records.
Context `{Env}.

(** ** Convergence *)

(** What one pass does to a row of the rollout. *)
Definition convergence_row (r : FirmwareRollout) (db : DB) (d : DeviceRow) : DeviceRow :=
  let t := target_of (own_files r) db r d in
  if negb (dr_RolloutID d =? fr_ID r) then d
  else if drifted r t then d <| dr_VerifiedAt := None |>
  else if converged r t then d <| dr_VerifiedAt := Some (db_clock db) |>
  else d.

Lemma drifted_verified r t : drifted r t = true → dr_VerifiedAt (t_row t) ≠ None.
Proof. unfold drifted. intros E. crush_bools. by destruct (dr_VerifiedAt (t_row t)). Qed.

Lemma converged_open r t : converged r t = true → dr_VerifiedAt (t_row t) = None.
Proof. unfold converged. intros E. crush_bools. by destruct (dr_VerifiedAt (t_row t)). Qed.

(** One convergence pass marks verified exactly the open targets that meet every convergence
    criterion, reopens exactly the verified targets that drifted, leaves every other row, and
    returns the targets as they are afterwards. *)
Theorem convergence_is_exact r db ts db' :
  unique_rows db →
  recordConvergence r (list_targets (own_files r) db r) db = (Ok ts, db') →
  db_devices db' = map (convergence_row r db) (db_devices db)
  ∧ (ts = list_targets (own_files r) db' r).
Proof.
  intros Hu Hc. unfold recordConvergence in Hc. cbv zeta in Hc.
  set (dr := map _ (List.filter (drifted r) _)) in *. set (ve := map _ (List.filter (converged r) _)) in *.
  apply M_bind_ok in Hc as ([] & db1 & H1 & Hc). apply M_bind_ok in Hc as ([] & db2 & H2 & Hc).
  rewrite (when_nonempty dr (λ ids, UnverifyFirmwareRolloutDevices (fr_ID r) ids)) in H1
    by apply update_devices_nil.
  rewrite (when_nonempty ve (λ ids, MarkFirmwareRolloutDevicesVerified (fr_ID r) ids)) in H2
    by apply update_devices_nil.
  injection H1 as <-. injection H2 as <-.
  set (db1 := UnverifyFirmwareRolloutDevices (fr_ID r) dr db) in *.
  set (db2 := MarkFirmwareRolloutDevicesVerified (fr_ID r) ve db1) in *.
  assert (db_clock db1 = db_clock db) as Hclk by apply update_devices_frame.
  assert (db_devices db2 = map (convergence_row r db) (db_devices db)) as Hrows.
  { unfold db2, MarkFirmwareRolloutDevicesVerified. rewrite update_devices_rows. unfold db1 at 2.
    unfold UnverifyFirmwareRolloutDevices. rewrite update_devices_rows, map_map. apply map_ext_in.
    intros d Hd%list_elem_of_In. unfold convergence_row, row_selected.
    destruct (dr_RolloutID d =? fr_ID r) eqn:E; simpl; [|by rewrite E]. crush_bools.
    pose proof (selected_ids (own_files r) db r (drifted r) d Hu Hd E) as Sd. fold dr in Sd.
    pose proof (selected_ids (own_files r) db r (converged r) d Hu Hd E) as Sv. fold ve in Sv.
    destruct (drifted r (target_of _ _ _ d)) eqn:Ed.
    - rewrite (bool_decide_true (dr_DeviceID d ∈ dr)) by (by apply Sd).
      pose proof (drifted_verified _ _ Ed) as Hv. simpl in Hv.
      rewrite (bool_decide_false (dr_VerifiedAt d = None)) by done. simpl.
      rewrite (bool_decide_false (dr_DeviceID d ∈ ve)).
      + by rewrite andb_false_r.
      + rewrite Sv. intros Hcv%converged_open. done.
    - rewrite (bool_decide_false (dr_DeviceID d ∈ dr)) by (rewrite Sd; done). simpl.
      rewrite E, Z.eqb_refl. simpl. destruct (converged r (target_of _ _ _ d)) eqn:Ec.
      + rewrite (bool_decide_true (dr_DeviceID d ∈ ve)) by (by apply Sv).
        pose proof (converged_open _ _ Ec) as Hv. simpl in Hv. rewrite Hv. simpl. by rewrite Hclk.
      + by rewrite (bool_decide_false (dr_DeviceID d ∈ ve)) by (rewrite Sv; done). }
  destruct (Nat.eqb _ _) eqn:En.
  - apply M_ret_ok in Hc as [<- ->]. split; [done|]. apply Nat.eqb_eq in En.
    assert (dr = [] ∧ ve = []) as [E1 E2].
    { destruct dr, ve; simpl in En; try done; lia. }
    unfold db2, db1. rewrite E1, E2. unfold MarkFirmwareRolloutDevicesVerified, UnverifyFirmwareRolloutDevices.
    by rewrite !update_devices_nil.
  - by injection Hc as <- <-.
Qed.

(** A target without a baseline is marked verified only when it is hashing. *)
Theorem late_joiner_must_hash r t :
  dr_BaselineAt (t_row t) = None → converged r t = true → hashing t = true.
Proof.
  unfold converged, meetsConvergence. intros Hb Hc. crush_bools. rewrite Hb in *. simpl in *.
  by destruct (hashing t).
Qed.

(** ** Provenance *)

(** The record a deployment leaves over the one it replaces: the rollout's
    artifact, at a later time. *)
Definition deployment_of (r : FirmwareRollout) (clock : Z) (old : option Deployment) : Deployment :=
  {| dep_FirmwareChecksum := fr_FirmwareChecksum r; dep_FirmwareVersion := fr_FirmwareVersion r;
     dep_RolloutID := Some (fr_ID r);
     dep_DeployedAt := match old with Some o => Z.max clock (dep_DeployedAt o + Microsecond) | None => clock end |}.

Definition observes (deps : gmap Z Deployment) (o : DeployObservation) : Prop :=
  match deps !! do_DeviceID o with
  | Some dep => do_Present o = true ∧ do_DeployedAt o = dep_DeployedAt dep
                ∧ do_Checksum o = dep_FirmwareChecksum dep
  | None => do_Present o = false
  end.

(** Each observation that still holds is written, and nothing else. *)
Lemma record_deployments r clock obs deps touched :
  NoDup (map do_DeviceID obs) → Forall (observes deps) obs →
  ∀ id, (fold_left (record_deployment_one (fr_ID r) (fr_FirmwareChecksum r) (fr_FirmwareVersion r)
      clock) obs (deps, touched)).1 !! id
    = if bool_decide (id ∈ map do_DeviceID obs) then Some (deployment_of r clock (deps !! id))
      else deps !! id.
Proof.
  revert deps touched. induction obs as [|o obs IH]; intros deps touched Hn Ho id; [done|].
  cbn [map fold_left] in *. apply NoDup_cons in Hn as [Hnin Hn]. apply Forall_cons in Ho as [Ho Hos].
  assert (∃ touched', record_deployment_one (fr_ID r) (fr_FirmwareChecksum r) (fr_FirmwareVersion r)
    clock (deps, touched) o = (<[do_DeviceID o := deployment_of r clock (deps !! do_DeviceID o)]> deps,
    touched')) as [touched' ->].
  { unfold record_deployment_one, observes, deployment_of in *. destruct (deps !! _) as [dep|].
    - destruct Ho as (-> & -> & ->). rewrite Z.eqb_refl. simpl. rewrite bool_decide_true by done. eauto.
    - rewrite Ho. eauto. }
  assert (∀ x, x ∈ map do_DeviceID obs → <[do_DeviceID o :=
    deployment_of r clock (deps !! do_DeviceID o)]> deps !! x = deps !! x) as Hkeep.
  { intros x Hx. rewrite lookup_insert_ne; [done|]. by intros <-. }
  rewrite IH; [|done|].
  - destruct (decide (id = do_DeviceID o)) as [->|Hne].
    + rewrite bool_decide_false, bool_decide_true by (done || by left). by rewrite lookup_insert_eq.
    + rewrite lookup_insert_ne by done. rewrite (bool_decide_ext _ (id ∈ do_DeviceID o :: map do_DeviceID obs));
        [done|]. rewrite elem_of_cons. naive_solver.
  - rewrite Forall_forall in *. intros x Hx. specialize (Hos x Hx). unfold observes in *.
    rewrite Hkeep; [done|]. apply list_elem_of_fmap. eauto.
Qed.

Lemma touched_deployments ids db :
  db_deployments (fold_left touch_rollout ids db) = db_deployments db
  ∧ db_devices (fold_left touch_rollout ids db) = db_devices db.
Proof.
  revert db. induction ids as [|id ids IH]; intros db; simpl; [done|].
  destruct (IH (touch_rollout db id)) as [-> ->]. split; apply touch_rollout_frame.
Qed.

Lemma observed_holds own db r d : observes (db_deployments db) (observed_deployment (target_of own db r d)).
Proof.
  unfold observes, observed_deployment, LastDeployedAt, LastDeployedFirmwareChecksum. simpl.
  by destruct (db_deployments db !! dr_DeviceID d).
Qed.


(** ** Events *)

Lemma event_batches_spec fuel ids :
  (length ids <= fuel)%nat →
  concat (event_batches fuel ids) = ids
  ∧ Forall (λ b, (length b <= 1000)%nat ∧ (ids ≠ [] → b ≠ [])) (event_batches fuel ids).
Proof.
  revert ids. induction fuel as [|fuel IH]; intros ids Hl.
  { destruct ids; [|simpl in Hl; lia]. simpl. split; [done|]. repeat constructor; done || lia. }
  assert (length (take (Nat.min (length ids) 1000) ids) <= 1000
    ∧ (ids ≠ [] → take (Nat.min (length ids) 1000) ids ≠ []))%nat as Hhead.
  { rewrite length_take. split; [lia|]. by destruct ids. }
  cbn [event_batches]. destruct (Nat.eqb _ _) eqn:E.
  - apply Nat.eqb_eq in E. simpl. rewrite app_nil_r. split; [|by constructor; [|constructor]].
    apply take_ge. lia.
  - apply Nat.eqb_neq in E. destruct (IH (drop (Nat.min (length ids) 1000) ids)) as [Hc Hf].
    { rewrite length_drop. lia. }
    simpl. rewrite Hc, take_drop. split; [done|]. constructor; [done|].
    eapply Forall_impl; [exact Hf|]. intros b [H1 H2]. split; [done|]. intros _. apply H2.
    intros E0. apply (f_equal length) in E0. rewrite length_drop in E0. simpl in E0. lia.
Qed.

(** Persisting an event appends a non-empty run of rows of at most a thousand identifiers
    each, all with the event's type and note and the rollout's current revision, whose identifiers
    in order are exactly those given. *)
Theorem events_lose_nothing r type system x db u db' :
  persistRolloutEvent r type system x db = (Ok u, db') →
  ∃ current new, db_rollouts db !! fr_ID r = Some current ∧ db_events db' = db_events db ++ new
    ∧ concat (map ev_DeviceIdentifiers new) = x_identifiers x ∧ new ≠ []
    ∧ Forall (λ e, ev_RolloutID e = fr_ID r ∧ ev_Type e = type ∧ ev_Note e = x_note x
        ∧ ev_Revision e = fr_Revision current ∧ (length (ev_DeviceIdentifiers e) <= 1000)%nat) new.
Proof.
  intros Hp. unfold persistRolloutEvent in Hp. apply M_bind_ok in Hp as (c & db1 & Hg & Hp).
  apply GetFirmwareRollout_ok in Hg as (-> & Hr & _). cbv zeta in Hp. injection Hp as _ <-.
  set (actor := if system then _ else _). exists c.
  destruct (event_batches_spec (length (x_identifiers x)) (x_identifiers x)) as [Hc Hf]; [done|].
  assert (event_batches (length (x_identifiers x)) (x_identifiers x) ≠ []) as Hne.
  { by destruct (x_identifiers x). }
  revert Hc Hf Hne. generalize (event_batches (length (x_identifiers x)) (x_identifiers x)) as bs.
  generalize (x_identifiers x) as ids. intros ids bs Hc Hf Hne.
  assert (∀ db, db_rollouts db !! fr_ID r = Some c → db_events (fold_left (λ db batch,
    CreateFirmwareRolloutEvent (fr_ID r) type actor (x_note x) batch db) bs db) = db_events db ++
    map (λ b, {| ev_RolloutID := fr_ID r; ev_ChannelID := fr_ChannelID c; ev_Type := type;
      ev_Actor := audit actor; ev_Revision := fr_Revision c; ev_Note := x_note x;
      ev_DeviceIdentifiers := b |}) bs) as Hev.
  { clear. induction bs as [|b bs IH]; intros db Hr; simpl; [by rewrite app_nil_r|].
    rewrite IH; unfold CreateFirmwareRolloutEvent; rewrite Hr; simpl; [by rewrite <- app_assoc|done]. }
  eexists. split; [done|]. split; [by apply Hev|]. split_and!.
  - by rewrite map_map, map_id.
  - by destruct bs.
  - apply Forall_fmap. eapply Forall_impl; [exact Hf|]. intros b [Hb _]. by simpl.
Qed.

End Records.

(** ** Phase counts *)

Definition in_phase (p : string) (d : RolloutDevice) : bool := rd_Phase d == p.

Definition counts_ok (c : DeviceCounts) (l : list RolloutDevice) : Prop :=
  Queued c = count (in_phase PhaseQueued) l ∧ InProgress c = count (in_phase PhaseInProgress) l
  ∧ Retrying c = count (in_phase PhaseRetrying) l ∧ Done c = count (in_phase PhaseDone) l
  ∧ Failed c = count (in_phase PhaseFailed) l ∧ Excluded c = count (in_phase PhaseExcluded) l
  ∧ Skipped c = count (in_phase PhaseSkipped) l.

Lemma countPhases_ok l : Z.of_nat (length l) < 2 ^ 31 → counts_ok (countPhases l) l.
Proof.
  induction l as [|d l IH] using rev_ind; intros Hl; [done|].
  rewrite length_app in Hl. simpl in Hl. destruct IH as (H1 & H2 & H3 & H4 & H5 & H6 & H7); [lia|].
  assert (∀ p, int32 (count (in_phase p) l + 1) = count (in_phase p) l + 1) as Hw.
  { intros p. apply int32_id. unfold fits32. pose proof (count_bounds (in_phase p) l). lia. }
  unfold countPhases in *. rewrite fold_left_app. simpl. unfold counts_ok. rewrite !count_snoc.
  set (c := fold_left count_phase l no_counts) in *. clearbody c. unfold count_phase, in_phase in *.
  repeat (case_bool_decide; [match goal with E : rd_Phase d = _ |- _ => try rewrite E end; simpl;
    rewrite ?H1, ?H2, ?H3, ?H4, ?H5, ?H6, ?H7, ?Hw; split_and!; lia|]).
  split_and!; lia.
Qed.

(** Every phase is one of the seven. *)
Lemma phase_known r t :
  phase r t = PhaseQueued ∨ phase r t = PhaseInProgress ∨ phase r t = PhaseRetrying
  ∨ phase r t = PhaseDone ∨ phase r t = PhaseFailed ∨ phase r t = PhaseExcluded
  ∨ phase r t = PhaseSkipped.
Proof. unfold phase, persistedDevicePhase. repeat case_if; tauto. Qed.

Lemma count_total r ts :
  let n p := count (in_phase p) (map (view r) ts) in
  n PhaseQueued + n PhaseInProgress + n PhaseRetrying + n PhaseDone + n PhaseFailed
  + n PhaseExcluded + n PhaseSkipped = Z.of_nat (length ts).
Proof.
  induction ts as [|t ts IH] using rev_ind; [done|]. cbv zeta in *.
  rewrite map_app. simpl. rewrite !count_snoc, length_app. simpl. unfold in_phase at 2 4 6 8 10 12 14.
  simpl. destruct (phase_known r t) as [E|[E|[E|[E|[E|[E|E]]]]]]; rewrite E; simpl; lia.
Qed.

(** The phase counts of a view count each phase exactly, and sum to the number of targets:
    every target is in one of the seven phases. *)
Theorem view_counts_partition r ts :
  Z.of_nat (length ts) < 2 ^ 31 →
  let c := countPhases (map (view r) ts) in
  counts_ok c (map (view r) ts)
  ∧ Queued c + InProgress c + Retrying c + Done c + Failed c + Excluded c + Skipped c
    = Z.of_nat (length ts).
Proof.
  intros Hl c. assert (counts_ok c (map (view r) ts)) as Hc.
  { apply countPhases_ok. by rewrite length_map. }
  split; [done|]. destruct Hc as (-> & -> & -> & -> & -> & -> & ->). apply count_total.
Qed.
