(* ===== verification/RolloutAssignFacts.v ===== *)
(** * Starting and previewing a rollout

    A rollout starts with exactly its members, in order, one position each, in
    the batches its behaviour asks for; the preview announces that number of
    batches unless its 32-bit arithmetic wraps; the pages of a rollout's devices
    are the devices. *)

From S2P Require Import Prelude GoSort Float64 Errors RolloutBehavior RolloutBehaviorFacts.
From S2P Require Import RolloutStore RolloutStoreFacts RolloutTargets RolloutTargetsFacts.
From S2P Require Import RolloutEngine RolloutControl RolloutAssign RolloutEvolve RolloutHistory.
From S2P Require Import RolloutProgressFacts.
#[local] Open Scope string_scope.
#[local] Open Scope list_scope.
#[local] Open Scope Z_scope.
#[local] Open Scope go_scope.

(** ** Preview *)

(** The number of batches is the rounded-up quotient. *)
Lemma batches_ceil size n (batches : list (list Z)) :
  (1 <= size)%nat → (1 <= n)%nat → length (concat batches) = n →
  Forall (λ l, l ≠ [] ∧ (length l <= size)%nat) batches →
  (∀ i l, batches !! i = Some l → (i * size < n)%nat) →
  Z.of_nat (length batches) = (Z.of_nat n + Z.of_nat size - 1) ÷ Z.of_nat size.
Proof.
  intros Hs Hn Hc Hf Hi.
  assert (n <= length batches * size)%nat as Hup.
  { rewrite <- Hc. clear -Hf. induction Hf as [|l bs [_ Hl] _ IH]; simpl; [lia|].
    rewrite length_app. lia. }
  assert ((length batches - 1) * size < n)%nat as Hlow.
  { destruct batches as [|b0 bs] eqn:Eb; [simpl in *; lia|]. rewrite <- Eb in *.
    destruct (batches !! (length batches - 1)%nat) as [l|] eqn:El.
    - by apply (Hi _ l).
    - apply lookup_ge_None in El. subst. simpl in *. lia. }
  assert (1 <= length batches)%nat by (destruct batches; simpl in *; lia).
  rewrite Z.quot_div_nonneg by lia. apply Z.div_unique with (Z.of_nat n + Z.of_nat size - 1
    - Z.of_nat size * Z.of_nat (length batches)); [|lia]. left. nia.
Qed.

(** For a valid behaviour and a fleet whose size plus batch size fits an int32, the batch
    count a preview announces is the number of batches the rollout makes; the batches with the
    rest are the members in order, and no batch is empty or over the limit. *)
Theorem preview_announces_the_batches b ordered :
  behavior_valid b → ordered ≠ [] →
  Z.of_nat (length ordered) + BatchSize b < 2 ^ 31 →
  ∃ batches rest, split_batches b ordered = Some (batches, rest)
    ∧ concat batches ++ rest = ordered
    ∧ Forall (λ l, l ≠ [] ∧ Z.of_nat (length l) <= batch_limit b) batches
    ∧ preview_batches b (Z.of_nat (length ordered)) = Z.of_nat (length batches).
Proof.
  intros Hv Hne Hfit. destruct (split_batches_spec b ordered Hv Hne)
    as (batches & rest & Hs & Hc & Hf & Hb & Hm). exists batches, rest. split_and!; try done.
  assert (1 <= length ordered)%nat as Hn by (destruct ordered; [done|simpl; lia]).
  unfold preview_batches. destruct Hv as (_ & [E|[[E Hsize]|[(E & _)|E]]] & _); rewrite E; simpl.
  - rewrite (proj1 Hm) by auto. done.
  - destruct (Hb E) as [-> Hi]. rewrite app_nil_r in Hc.
    rewrite (int32_id (_ + _)) by (unfold fits32; lia). rewrite int32_id by (unfold fits32; lia).
    rewrite (batches_ceil (Z.to_nat (BatchSize b)) (length ordered) batches); [f_equal; lia|lia|done| | |].
    + by rewrite Hc.
    + unfold batch_limit in Hf. rewrite E in Hf. simpl in Hf. eapply Forall_impl; [exact Hf|].
      intros l [H1 H2]. split; [done|lia].
    + intros i l Hl. destruct (decide (length ordered <= i * Z.to_nat (BatchSize b))%nat) as [Hge|]; [|lia].
      exfalso. rewrite Forall_lookup in Hf. destruct (Hf i l Hl) as [Hne' _]. apply Hne'.
      rewrite (Hi i l Hl). rewrite drop_ge by lia. apply take_nil.
  - replace (0 <? Z.of_nat (length ordered)) with true by lia. unfold split_batches in Hs. rewrite E in Hs.
    simpl in Hs. by injection Hs as <- <-.
  - rewrite (proj1 Hm) by auto. done.
Qed.

(** A batched behaviour whose only batch is larger than any fleet. *)
Definition one_huge_batch : Behavior :=
  allAtOnce <| Method := MethodBatched |> <| BatchSize := 2147483647 |>.

(** With a large but valid batch size the int32 arithmetic of the preview wraps: it announces
    a negative count for a rollout of one batch. *)
Theorem preview_batch_count_wraps :
  validate one_huge_batch = Ok one_huge_batch
  ∧ preview_batches one_huge_batch 2 = -1
  ∧ ∃ batches, split_batches one_huge_batch [10; 11] = Some (batches, []) ∧ length batches = 1%nat.
Proof.
  split_and!; [reflexivity|reflexivity|].
  assert (behavior_valid one_huge_batch) as Hv.
  { unfold behavior_valid, one_huge_batch. simpl. split_and!; try done. right; left. done. }
  destruct (split_batches_spec one_huge_batch [10; 11] Hv) as (batches & rest & Hs & Hc & Hf & Hb & Hm);
    [done|]. destruct (Hb eq_refl) as [-> Hi]. exists batches. split; [done|].
  destruct batches as [|b0 [|b1 bs]]; [by destruct (proj2 Hm eq_refl)|done|exfalso].
  rewrite Forall_lookup in Hf. destruct (Hf 1%nat b1 eq_refl) as [Hne _]. apply Hne.
  rewrite (Hi 1%nat b1 eq_refl). rewrite drop_ge; [by rewrite take_nil|].
  change (BatchSize one_huge_batch) with 2147483647. simpl length. lia.
Qed.

(** ** Pages *)

Lemma clampPageSize_pos n : 1 <= clampPageSize n <= MaxPageSize.
Proof. unfold clampPageSize, DefaultPageSize, MaxPageSize. repeat case_if; lia. Qed.

(** A client that follows the cursors from [offset]. *)
Fixpoint follow_pages (fuel : nat) (devices : list RolloutDevice) (offset size : Z)
    : option (list RolloutDevice) :=
  match device_page devices offset size with
  | (page, None) => Some page
  | (page, Some next) =>
      match fuel with
      | O => None
      | S fuel => rest ← follow_pages fuel devices next size; Some (page ++ rest)
      end
  end.

Lemma follow_pages_spec fuel devices offset size :
  0 <= offset → Z.of_nat (length devices) <= offset + Z.of_nat fuel →
  follow_pages fuel devices offset size = Some (drop (Z.to_nat offset) devices).
Proof.
  pose proof (clampPageSize_pos size) as Hc. revert offset.
  induction fuel as [|fuel IH]; intros offset H0 Hl; cbn [follow_pages]; unfold device_page.
  - replace (_ <=? offset) with true by lia. by rewrite drop_ge by lia.
  - destruct (_ <=? offset) eqn:E; crush_bools; [by rewrite drop_ge by lia|].
    set (last := Z.min _ _). destruct (last <? _) eqn:El; crush_bools.
    + rewrite IH by (unfold last in *; lia). simpl. f_equal.
      replace (Z.to_nat last) with (Z.to_nat offset + Z.to_nat (last - offset))%nat
        by (unfold last in *; lia).
      rewrite <- drop_drop. apply take_drop.
    + f_equal. apply take_ge. rewrite length_drop. lia.
Qed.

(** Following the page tokens of a device listing, at any requested page size, ends within as
    many pages as there are devices and returns every device of the rollout once, in order. *)
Theorem device_pages_are_the_devices devices size :
  follow_pages (length devices) devices 0 size = Some devices.
Proof. rewrite follow_pages_spec by lia. done. Qed.

(** ** Start *)

(** Rows that are new are appended as they are. *)
Lemma insert_fresh rid new rows :
  NoDup (map dr_DeviceID new) → (∀ d, d ∈ new → dr_RolloutID d = rid) →
  (∀ d, d ∈ new → has_device rows rid (dr_DeviceID d) = false) →
  fold_left (λ rows d, if has_device rows rid (dr_DeviceID d) then rows else rows ++ [d]) new rows
  = rows ++ new.
Proof.
  revert rows. induction new as [|d new IH]; intros rows Hn Hr Hf; simpl; [by rewrite app_nil_r|].
  apply NoDup_cons in Hn as [Hni Hn]. rewrite Hf by set_solver. rewrite IH.
  - by rewrite <- app_assoc.
  - done.
  - set_solver.
  - intros d' Hd'. unfold has_device. rewrite existsb_app. simpl.
    fold (has_device rows rid (dr_DeviceID d')). rewrite Hf by set_solver. simpl.
    rewrite orb_false_r, andb_false_iff. right. apply Z.eqb_neq. intros E. apply Hni. rewrite E.
    apply list_elem_of_fmap. eauto.
Qed.

Lemma insert_devices_fresh rid new db :
  NoDup (map dr_DeviceID new) → (∀ d, d ∈ new → dr_RolloutID d = rid) →
  (∀ d, d ∈ new → has_device (db_devices db) rid (dr_DeviceID d) = false) →
  let db' := insert_devices rid new db in
  db_devices db' = db_devices db ++ new ∧ db_world db' = db_world db ∧ db_clock db' = db_clock db.
Proof.
  intros Hn Hr Hf. simpl. unfold insert_devices. rewrite insert_fresh by done.
  case_if; [|done]. destruct (touch_rollout_frame (db <| db_devices := db_devices db ++ new |>) rid)
    as (F1 & F2 & _ & _ & _ & _ & _ & _ & F9 & _). by rewrite F1, F2, F9.
Qed.

(** The rows a snapshot makes of [ids], from position [offset + 1]. *)
Definition rows_of (db : DB) (rid : Z) (batch : option Z) (offset : Z) (ids : list Z) : list DeviceRow :=
  imap (λ i id, snapshot_row db rid batch (offset + Z.of_nat i + 1) id) ids.

Lemma rows_of_ids db rid batch offset ids : map dr_DeviceID (rows_of db rid batch offset ids) = ids.
Proof.
  unfold rows_of. revert offset. induction ids as [|id ids IH]; intros offset; [done|]. simpl. f_equal.
  rewrite <- (IH (offset + 1)) at 2. f_equal. apply imap_ext. intros i x _. simpl. f_equal. lia.
Qed.

Lemma rows_of_rollout db rid batch offset ids d :
  d ∈ rows_of db rid batch offset ids → dr_RolloutID d = rid ∧ dr_DeviceID d ∈ ids.
Proof.
  intros Hd. split.
  - unfold rows_of in Hd. apply elem_of_lookup_imap in Hd as (i & id & -> & _). done.
  - rewrite <- (rows_of_ids db rid batch offset ids). apply list_elem_of_fmap. eauto.
Qed.

Lemma rows_of_ext db db' rid batch offset ids :
  db_world db' = db_world db → db_clock db' = db_clock db →
  rows_of db' rid batch offset ids = rows_of db rid batch offset ids.
Proof.
  intros Hw Hc. unfold rows_of. apply imap_ext. intros i id _. simpl.
  unfold snapshot_row, db_observe. by rewrite Hw, Hc.
Qed.

Fixpoint batch_rows (db : DB) (rid index offset : Z) (batches : list (list Z)) : list DeviceRow :=
  match batches with
  | [] => []
  | b :: bs => rows_of db rid (Some index) offset b
               ++ batch_rows db rid (index + 1) (offset + Z.of_nat (length b)) bs
  end.

Lemma batch_rows_ext db db' rid index offset batches :
  db_world db' = db_world db → db_clock db' = db_clock db →
  batch_rows db' rid index offset batches = batch_rows db rid index offset batches.
Proof.
  intros Hw Hc. revert index offset. induction batches as [|b bs IH]; intros; simpl; [done|].
  by rewrite IH, (rows_of_ext db db').
Qed.

Lemma has_device_app rows rows' rid id :
  has_device (rows ++ rows') rid id = has_device rows rid id || has_device rows' rid id.
Proof. apply existsb_app. Qed.

Lemma has_device_rows db rid rid' batch offset ids id :
  id ∉ ids → has_device (rows_of db rid' batch offset ids) rid id = false.
Proof.
  intros Hni. apply not_true_is_false. intros He. apply existsb_exists in He as (d & Hd & He).
  apply list_elem_of_In, rows_of_rollout in Hd as [_ Hd]. crush_bools. congruence.
Qed.

Lemma snapshot_devices_fresh rid ids batch offset db :
  NoDup ids → (∀ id, id ∈ ids → has_device (db_devices db) rid id = false) →
  let db' := SnapshotFirmwareRolloutDevices rid ids batch offset db in
  db_devices db' = db_devices db ++ rows_of db rid batch offset ids
  ∧ db_world db' = db_world db ∧ db_clock db' = db_clock db.
Proof.
  intros Hn Hf. apply insert_devices_fresh.
  - by rewrite (rows_of_ids db rid batch offset ids).
  - intros d Hd. by eapply rows_of_rollout.
  - intros d Hd. apply Hf. by eapply rows_of_rollout.
Qed.

Lemma snapshot_batches_fresh rid batches index offset db :
  NoDup (concat batches) → (∀ id, id ∈ concat batches → has_device (db_devices db) rid id = false) →
  0 <= index → index + Z.of_nat (length batches) < 2 ^ 31 →
  0 <= offset → offset + Z.of_nat (length (concat batches)) < 2 ^ 31 →
  let '(offset', db') := snapshot_batches rid index offset batches db in
  offset' = offset + Z.of_nat (length (concat batches))
  ∧ db_devices db' = db_devices db ++ batch_rows db rid index offset batches
  ∧ db_world db' = db_world db ∧ db_clock db' = db_clock db.
Proof.
  revert index offset db. induction batches as [|b bs IH]; intros index offset db Hn Hf Hi Hil Ho Hol; simpl in *.
  { split_and!; [lia|by rewrite app_nil_r|done|done]. }
  apply NoDup_app in Hn as (Hn1 & Hd & Hn2). rewrite length_app in Hol.
  rewrite !int32_id by (unfold fits32; lia).
  destruct (snapshot_devices_fresh rid b (Some index) offset db) as (S1 & S2 & S3); [done|set_solver|].
  set (db1 := SnapshotFirmwareRolloutDevices rid b (Some index) offset db) in *.
  specialize (IH (index + 1) (offset + Z.of_nat (length b)) db1).
  destruct (snapshot_batches _ _ _ bs db1) as [o' db'].
  destruct IH as (I1 & I2 & I3 & I4); [done| |lia..|].
  { intros id Hid. rewrite S1, has_device_app, Hf by set_solver. simpl. apply has_device_rows. set_solver. }
  split_and!; [rewrite I1, length_app; lia| |congruence|congruence].
  rewrite I2, S1, <- app_assoc. do 2 f_equal. by apply batch_rows_ext.
Qed.

Lemma batch_rows_ids db rid index offset batches :
  map dr_DeviceID (batch_rows db rid index offset batches) = concat batches.
Proof.
  revert index offset. induction batches as [|b bs IH]; intros; simpl; [done|].
  by rewrite map_app, rows_of_ids, IH.
Qed.

(** Consecutive positions. *)
Fixpoint positions (offset : Z) (n : nat) : list (option Z) :=
  match n with O => [] | S n => Some (offset + 1) :: positions (offset + 1) n end.

Lemma positions_app offset n k :
  positions offset (n + k) = positions offset n ++ positions (offset + Z.of_nat n) k.
Proof.
  revert offset. induction n as [|n IH]; intros offset; simpl; [f_equal; lia|].
  rewrite IH. do 3 f_equal. lia.
Qed.

Lemma rows_of_positions db rid batch offset ids :
  map dr_Position (rows_of db rid batch offset ids) = positions offset (length ids).
Proof.
  unfold rows_of. revert offset. induction ids as [|id ids IH]; intros offset; [done|]. simpl.
  f_equal; [f_equal; lia|]. rewrite <- IH. f_equal. apply imap_ext. intros i x _. simpl. f_equal. lia.
Qed.

Lemma batch_rows_positions db rid index offset batches :
  map dr_Position (batch_rows db rid index offset batches) = positions offset (length (concat batches)).
Proof.
  revert index offset. induction batches as [|b bs IH]; intros; simpl; [done|].
  by rewrite map_app, rows_of_positions, IH, length_app, positions_app.
Qed.

Section Start.
Context `{Env}.

(** The members a specification starts with. *)
Definition spec_members (spec : rolloutSpec) (db : DB) : list MemberRow :=
  match sp_Members spec with
  | Some rows => rows
  | None => ListReleaseChannelMismatchedMembers (mismatchedParams spec 0) db
  end.

Lemma wait_rows id w db :
  db_devices (SetFirmwareRolloutControllerWait id w db) = db_devices db.
Proof.
  unfold SetFirmwareRolloutControllerWait, exec_rollout. destruct (_ !! _); [|done].
  case_if; [|done]. unfold update_rollout. by destruct (_ !! _).
Qed.

(** The snapshots of the batches and of the rest, in one step. *)
Lemma snapshot_all rid batches rest db o db1 u db2 :
  NoDup (concat batches ++ rest) →
  (∀ d, d ∈ db_devices db → dr_RolloutID d ≠ rid) →
  Z.of_nat (length batches) < 2 ^ 31 → Z.of_nat (length (concat batches ++ rest)) < 2 ^ 31 →
  query (snapshot_batches rid 0 0 batches) db = (Ok o, db1) →
  when (0 <? length rest)%nat (modify (SnapshotFirmwareRolloutDevices rid rest None (int32 o))) db1
    = (Ok u : result Fault unit, db2) →
  db_devices db2 = db_devices db ++ batch_rows db rid 0 0 batches
    ++ rows_of db rid None (Z.of_nat (length (concat batches))) rest.
Proof.
  intros Hn Hfresh Hb Hl Hq Hw. destruct u. apply NoDup_app in Hn as (Hn1 & Hd & Hn2).
  assert (∀ id, has_device (db_devices db) rid id = false) as Hno.
  { intros id. apply not_true_is_false. intros He. apply existsb_exists in He as (d & Hin & He).
    apply list_elem_of_In in Hin. crush_bools. by apply (Hfresh d Hin). }
  rewrite length_app in Hl.
  pose proof (snapshot_batches_fresh rid batches 0 0 db Hn1 (λ id _, Hno id)) as Hs. unfold query in Hq.
  destruct (snapshot_batches rid 0 0 batches db) as [o' db'] eqn:E. injection Hq as -> ->.
  destruct Hs as (Ho & Hdev & Hwld & Hclk); [lia..|]. destruct rest as [|x rest].
  { injection Hw as <-. rewrite Hdev. by rewrite app_nil_r. }
  injection Hw as <-. rewrite Ho. rewrite int32_id by (unfold fits32; lia).
  destruct (snapshot_devices_fresh rid (x :: rest) None (0 + Z.of_nat (length (concat batches))) db1)
    as (S1 & _); [done| |].
  { intros id Hid. rewrite Hdev, has_device_app, Hno. simpl.
    apply not_true_is_false. intros He. apply existsb_exists in He as (d & Hin & He). crush_bools.
    apply (Hd id); [|done]. rewrite <- (batch_rows_ids db rid 0 0 batches). apply list_elem_of_fmap.
    exists d. split; [done|]. by apply list_elem_of_In. }
  rewrite S1, Hdev, <- app_assoc. do 2 f_equal. by apply rows_of_ext.
Qed.

Lemma batches_le_concat {A} (batches : list (list A)) :
  Forall (λ l, l ≠ []) batches → (length batches <= length (concat batches))%nat.
Proof.
  induction 1 as [|l bs Hl _ IH]; simpl; [lia|]. rewrite length_app. destruct l; [done|simpl; lia].
Qed.

(** The statements of a start that succeeds. *)
Lemma startRollout_ok spec db r db' :
  startRollout spec db = (Ok (Some r), db') →
  ∃ ordered batches rest db1 o db2 u db3,
    split_batches (sp_Behavior spec) ordered = Some (batches, rest)
    ∧ ordered ≡ₚ map mr_DeviceID (spec_members spec db) ∧ ordered ≠ []
    ∧ (fr_ID r = db_nextval db ∧ fr_BatchCount r = int32 (Z.of_nat (length batches))
       ∧ fr_Stage r = (if (0 <? length batches)%nat then StageBatch else StageRest))
    ∧ (db_devices db1 = db_devices db ∧ db_world db1 = db_world db ∧ db_clock db1 = db_clock db)
    ∧ query (snapshot_batches (fr_ID r) 0 0 batches) db1 = (Ok o, db2)
    ∧ when (0 <? length rest)%nat (modify (SnapshotFirmwareRolloutDevices (fr_ID r) rest None (int32 o))) db2
        = (Ok u : result Fault unit, db3)
    ∧ db_devices db' = db_devices db3.
Proof.
  intros Hs. unfold startRollout in Hs. apply M_bind_ok in Hs as (rows & db0 & Hrows & Hs).
  assert (rows = spec_members spec db ∧ db0 = db) as [-> ->].
  { unfold spec_members. destruct (sp_Members spec); injection Hrows; auto. }
  assert (spec_members spec db ≠ []) as Hm0 by (by intros E; rewrite E in Hs).
  destruct (spec_members spec db) as [|row0 rows0] eqn:Em; [done|]. rewrite <- Em in *. clear Em row0 rows0.
  cbv zeta in Hs. set (ordered := orderMembers _ _ _) in *.
  apply M_bind_ok in Hs as (c & db1 & Hc & Hs).
  pose proof (GetReleaseChannel_state (sp_OrgID spec) (sp_ChannelID spec) db) as Hst. rewrite Hc in Hst.
  simpl in Hst. subst db1.
  assert (ordered ≡ₚ map mr_DeviceID (spec_members spec db)) as Hp by apply orderMembers_perm.
  set (b' := (sp_Behavior spec) <| MaxConcurrentOffline := _ |>) in Hs.
  change (split_batches b' ordered) with (split_batches (sp_Behavior spec) ordered) in Hs.
  destruct (split_batches (sp_Behavior spec) ordered) as [[batches rest]|] eqn:Es; [|done].
  assert (ordered ≠ []) as Hne.
  { intros E0. rewrite E0 in Hp. apply Permutation_nil_l in Hp. apply Hm0. symmetry in Hp.
    by apply map_eq_nil in Hp. }
  apply M_bind_ok in Hs as (r1 & db1 & Hq & Hs). injection Hq as Hr1 Hdb1.
  apply M_bind_ok in Hs as (o & db2 & Hq & Hs). apply M_bind_ok in Hs as (u & db3 & Hw & Hs).
  apply M_bind_ok in Hs as (u' & db4 & Hwait & Hs). apply M_ret_ok in Hs as [[= ->] ->].
  exists ordered, batches, rest, db1, o, db2, u, db3.
  split; [done|]. split; [done|]. split; [done|]. split; [by subst r|]. split; [by subst db1|].
  split; [done|]. split; [done|].
  unfold when, setControllerWait in Hwait. destruct u', (bool_decide (Method _ = _)).
  - injection Hwait as <-. apply wait_rows.
  - by apply M_ret_ok in Hwait as [_ ->].
Qed.

End Start.
