(* ===== verification/RolloutExamples.v ===== *)
(** * A fleet to run the engine on

    One channel, its assignment and rollout 7 over four miners, with the command
    service and the file service as concrete functions. Each property of the
    rollout files that has hypotheses is applied here at a state where they
    hold, and the evaluated result shows what it says. *)

From S2P Require Import Prelude GoSort Float64 Errors RolloutBehavior RolloutBehaviorFacts.
From S2P Require Import RolloutStore RolloutStoreFacts RolloutTargets RolloutTargetsFacts.
From S2P Require Import RolloutEngine RolloutControl RolloutAssign.
From S2P Require Import RolloutEvolve RolloutHistory RolloutLineage RolloutProgressFacts RolloutSafety.
From S2P Require Import RolloutSelectFacts RolloutRecordFacts RolloutAssignFacts.
#[local] Open Scope string_scope.
#[local] Open Scope list_scope.
#[local] Open Scope Z_scope.
#[local] Open Scope go_scope.

(** ** The fleet *)

Definition ex_name (id : Z) : string :=
  if id =? 1 then "m1" else if id =? 2 then "m2" else if id =? 3 then "m3" else "m4".

(** Every miner is online and hashing, those of [updated] report the target, and
    the last command to miner 4 succeeded. *)
Definition ex_observe (updated : list Z) (rid id : Z) : Observation :=
  {| ob_DeviceIdentifier := ex_name id;
     ob_FirmwareVersion := if bool_decide (id ∈ updated) then "2.0" else "1.0";
     ob_IpAddress := "10.0.0.1"; ob_LastDispatchSucceeded := id =? 4; ob_Status := "ACTIVE";
     ob_HashRateHs := Some (F64.of_Z 100); ob_PowerW := None; ob_EfficiencyJh := None;
     ob_TempC := None; ob_OpenErrors := 0; ob_ErrorsSinceBaseline := 0;
     ob_PendingFirmwareChecksums := []; ob_PendingLegacyFirmwareFileIds := [];
     ob_IsChannelMember := true; ob_InScope := Some true |}.

Definition ex_world (updated : list Z) : World :=
  {| w_observe := ex_observe updated; w_live := λ _, true; w_offline := λ _, false;
     w_member := λ _ _, true; w_pending := λ _ _, false; w_completions := λ _, [] |}.

Definition ex_members : list MemberRow :=
  [{| mr_DeviceID := 1; mr_DeviceIdentifier := "m1"; mr_EfficiencyJh := Some (F64.of_Z 20) |};
   {| mr_DeviceID := 2; mr_DeviceIdentifier := "m2"; mr_EfficiencyJh := None |};
   {| mr_DeviceID := 3; mr_DeviceIdentifier := "m3"; mr_EfficiencyJh := Some (F64.of_Z 30) |}].

(** The command service accepts every device it is asked for. *)
#[local] Instance ex_env : Env := {
  now := 1000 * Minute;
  shuffle := λ _, [];
  FirmwareFileIDsByChecksum := λ _, ["f2"];
  FindFirmwareFileIDByChecksum := λ _, Some "f2";
  FindCachedFirmwareFileIDByChecksum := λ _, Some "f2";
  PinFirmwareArtifact := λ _, true;
  ResolveFirmwareArtifact := λ _, Ok {| fa_FileID := "f2"; fa_Checksum := "c2";
    fa_TargetManufacturer := "Proto"; fa_TargetModel := "Rig"; fa_FirmwareVersion := "2.0" |};
  FirmwareUpdateArtifact := λ cmd db,
    (Ok {| BatchIdentifier := "b1"; DispatchedDeviceIdentifiers := fc_Identifiers cmd |}, db_world db);
  ListReleaseChannelMismatchedMembers := λ _ _, ex_members;
  ListReleaseChannelSuppressedMembers := λ _ _ _ _ _ _, [];
  CountReleaseChannelFirmwarePreviewMembers := λ _ _, (3, 3);
  ListReleaseChannelFirmwareNeedingRollout := λ _, [];
  ListTerminalFirmwareRolloutsNeedingProvenance := λ _, []
}.

(** Batches of two, reviewed, continued automatically when healthy. *)
Definition ex_behavior : Behavior :=
  {| Method := MethodBatched; Order := OrderLeastEfficientFirst; BatchSize := 2; PilotSize := 0;
     WaitBetweenBatchesSeconds := 0; ReviewAfterEachBatch := true; AutoContinue := true;
     StabilizationSeconds := 0; BThresholds := no_thresholds; MaxConcurrentOffline := 1;
     ControllerTimeoutSeconds := 0 |}.

Definition ex_channel : ReleaseChannel :=
  {| rc_ID := 2; rc_OrgID := 1; rc_Name := "stable"; rc_Method := MethodBatched;
     rc_OrderBy := OrderLeastEfficientFirst; rc_BatchSize := 2; rc_PilotSize := 0;
     rc_WaitBetweenBatchesSeconds := 0; rc_ReviewAfterEachBatch := true; rc_AutoContinue := true;
     rc_StabilizationSeconds := 0; rc_MaxHashrateDropPercent := None;
     rc_MaxEfficiencyIncreasePercent := None; rc_MaxTempIncreaseC := None; rc_MaxNewErrors := None;
     rc_MinSampleCoveragePercent := None; rc_MaxConcurrentOffline := 1;
     rc_ControllerTimeoutSeconds := 0 |}.

Definition ex_assignment : ReleaseChannelFirmware :=
  {| as_ChannelID := 2; as_Manufacturer := "proto"; as_Model := "rig"; as_FirmwareChecksum := "c2";
     as_FirmwareVersion := "2.0"; as_TargetManufacturer := "Proto"; as_TargetModel := "Rig";
     as_AssignmentGeneration := 3; as_AssignedBy := 9; as_PreviousFirmwareChecksum := "c1";
     as_PreviousFirmwareVersion := "1.0" |}.

Definition ex_user : Actor :=
  {| ActorType := ActorTypeUser; ActorID := 9; ActorName := "ann"; OwnerUserID := 0 |}.

Definition ex_rollout : FirmwareRollout :=
  {| fr_ID := 7; fr_OrgID := 1; fr_ChannelID := 2; fr_Manufacturer := "proto"; fr_Model := "rig";
     fr_FirmwareChecksum := "c2"; fr_FirmwareVersion := "2.0"; fr_PreviousFirmwareChecksum := "c1";
     fr_PreviousFirmwareVersion := "1.0"; fr_AssignmentGeneration := 3; fr_Status := StatusActive;
     fr_CancelReason := ""; fr_Stage := StageBatch; fr_BehaviorSnapshot := snapshot ex_behavior;
     fr_BatchCount := 2; fr_CurrentBatch := 0; fr_StageChangedAt := 900 * Minute;
     fr_StagePausedMicroseconds := 0; fr_PausedAt := None; fr_Revision := 5; fr_RevisionTxid := 40;
     fr_UpdatedAt := 900 * Minute; fr_StartedBy := ex_user; fr_LastActionBy := ex_user;
     fr_CreatedAt := 800 * Minute; fr_FinishedAt := None; fr_ControllerWaitingSince := None |}.

Definition ex_review : FirmwareRollout := ex_rollout <| fr_Stage := StageAwaitingReview |>.
Definition ex_paused : FirmwareRollout := ex_rollout <| fr_PausedAt := Some (950 * Minute) |>.
Definition ex_delegated : FirmwareRollout :=
  ex_rollout <| fr_Stage := StageRest |>
    <| fr_BehaviorSnapshot := snapshot (ex_behavior <| Method := MethodDelegated |>
         <| ReviewAfterEachBatch := false |> <| AutoContinue := false |>) |>.
Definition ex_finished : FirmwareRollout :=
  ex_rollout <| fr_Status := StatusCompleted |> <| fr_FinishedAt := Some (950 * Minute) |>.

Definition ex_row (id batch : Z) : DeviceRow :=
  (new_device_row 7 id) <| dr_BatchIndex := Some batch |> <| dr_Position := Some id |>
    <| dr_BaselineStatus := Some "ACTIVE" |> <| dr_BaselineAt := Some (800 * Minute) |>.

Definition ex_verified (d : DeviceRow) : DeviceRow :=
  d <| dr_Attempts := 1 |> <| dr_VerifiedAt := Some (890 * Minute) |>.

Definition ex_deployment : Deployment :=
  {| dep_FirmwareChecksum := "c2"; dep_FirmwareVersion := "2.0"; dep_RolloutID := Some 7;
     dep_DeployedAt := 880 * Minute |}.

Definition ex_db (r : FirmwareRollout) (rows : list DeviceRow) (updated : list Z) : DB :=
  {| db_rollouts := {[7 := r]}; db_devices := rows; db_world := ex_world updated;
     db_deployments := list_to_map (map (λ id, (id, ex_deployment)) updated);
     db_channels := {[2 := ex_channel]}; db_assignments := [ex_assignment]; db_reservations := [];
     db_events := []; db_nextval := 8; db_txid := 41; db_clock := 1000 * Minute |}.

(** Four queued miners; the first batch verified; a fleet in the middle. *)
Definition ex_queued : list DeviceRow := [ex_row 1 0; ex_row 2 0; ex_row 3 1; ex_row 4 1].
Definition ex_half : list DeviceRow :=
  [ex_verified (ex_row 1 0); ex_verified (ex_row 2 0); ex_row 3 1; ex_row 4 1].

Definition ex_mutation (revision : Z) : Mutation :=
  {| MActor := ex_user; ExpectedRevision := revision; Note := "" |}.

Lemma ex_keyed r rows updated : fr_ID r = 7 → keyed (ex_db r rows updated).
Proof. unfold keyed. simpl. intros Hid id r' [<- <-]%lookup_singleton_Some. done. Qed.

Lemma ran {A} (m : Op A) db a : (m db).1 = Ok a → m db = (Ok a, (m db).2).
Proof. intros <-. by destruct (m db). Qed.

Ltac computed := vm_compute; reflexivity.
Ltac decided := apply (bool_decide_unpack _); vm_compute; exact I.

(** ** Dispatch *)

Definition ex_dispatch_db : DB := ex_db ex_rollout ex_queued [].
Definition ex_dispatched : DB := (dispatchUpdates ex_rollout ex_dispatch_db).2.


(** ** Progress *)

Definition ex_review_db : DB := ex_db ex_review ex_half [1; 2].
Definition ex_progressed : DB := (advanceRolloutProgress ex_review ex_review_db).2.

(** The header an operation left for rollout 7. *)
Definition ex_header (db : DB) : FirmwareRollout := default ex_rollout (db_rollouts db !! 7).

Lemma ex_progress_ran :
  advanceRolloutProgress ex_review ex_review_db = (Ok None, ex_progressed).
Proof. refine (ran (advanceRolloutProgress ex_review) ex_review_db None _). computed. Qed.

(** The reviewed batch is healthy: the rollout moves to its second batch. *)
Lemma progress_refines_stage_machine_witness :
  position (ex_header ex_progressed) = (StatusActive, StageBatch, 1)
  ∧ db_devices ex_progressed = db_devices ex_review_db.
Proof.
  split; [computed|].
  apply (progress_refines_stage_machine ex_review ex_review_db None ex_progressed ex_review).
  - by apply ex_keyed.
  - computed.
  - exact ex_progress_ran.
Defined.

Definition ex_scope : list target :=
  reviewScope ex_review (list_targets (own_files ex_review) ex_review_db ex_review).

Lemma review_is_left_only_on_recovery_witness :
  map identifier ex_scope = ["m1"; "m2"] ∧ ∀ t, t ∈ ex_scope → skipped t = false → recovered t.
Proof.
  split; [computed|].
  destruct (review_is_left_only_on_recovery ex_review ex_review_db None ex_progressed ex_review
    (ex_header ex_progressed)) as [[Ha _]|(_ & _ & _ & Hr & _)].
  - by apply ex_keyed.
  - computed.
  - reflexivity.
  - exact ex_progress_ran.
  - computed.
  - by vm_compute.
  - by vm_compute.
  - exfalso. revert Ha. by vm_compute.
  - exact Hr.
Defined.

Definition ex_paused_db : DB := ex_db ex_paused ex_queued [].

(** A paused rollout with due miners: nothing is sent. *)
Lemma paused_rollout_is_inert_witness :
  existsb (is_due ex_paused) (list_targets (own_files ex_paused) ex_paused_db ex_paused) = true
  ∧ quiet ex_paused_db (enforceRollout ex_paused
      (list_targets (own_files ex_paused) ex_paused_db ex_paused) ex_paused_db).2.
Proof.
  split; [computed|]. apply (paused_rollout_is_inert ex_paused _ ex_paused_db ex_paused).
  - computed.
  - done.
Defined.

(** ** Control *)

Definition ex_control_db : DB := ex_db ex_rollout ex_half [1; 2].

Lemma stale_revision_changes_nothing_witness :
  CancelRollout 1 7 (ex_mutation 4) ex_control_db
  = (Err (Returned (reason CodeFailedPrecondition {| Reason := ReasonStaleRevision;
       CurrentRevision := 5; ErrDeviceIdentifiers := [] |})), ex_control_db).
Proof.
  refine (stale_revision_changes_nothing 1 7 (ex_mutation 4)
    (cancel_change 7 (ex_mutation 4)) ex_control_db ex_rollout _ _ _ _).
  - computed.
  - done.
  - done.
  - done.
Defined.

Definition ex_value {A} (x : result Fault A * DB) : option A :=
  match x.1 with Ok a => Some a | Err _ => None end.

Definition ex_canceled : DB := (CancelRollout 1 7 (ex_mutation 5) ex_control_db).2.

Lemma ran_some {A} (m : Op A) db : is_set (ex_value (m db)) = true → ∃ a, m db = (Ok a, (m db).2).
Proof. unfold ex_value. destruct (m db) as [[a|e] db']; [eauto|done]. Qed.

(** Canceling half-way: the verified miners stay verified, the others are held. *)
Lemma cancel_settles_every_target_witness :
  map (λ d, (is_set (dr_VerifiedAt d), dr_HaltReason d)) (db_devices ex_canceled)
    = [(true, ""); (true, ""); (false, HaltReasonCanceled); (false, HaltReasonCanceled)]
  ∧ ∃ r', db_rollouts ex_canceled !! 7 = Some r' ∧ canceled_header ex_user r'.
Proof.
  split; [computed|].
  destruct (ran_some (CancelRollout 1 7 (ex_mutation 5)) ex_control_db) as [v Hv]; [computed|].
  refine (proj2 (proj2 (cancel_settles_every_target 1 7 (ex_mutation 5) ex_control_db v ex_canceled
    _ _ Hv))).
  - by apply ex_keyed.
  - decided.
Defined.

Definition ex_delegated_db : DB := ex_db ex_delegated ex_queued [].
Definition ex_pick : DeviceSelection := {| SelIdentifiers := ["m3"]; SelCount := 0 |}.
Definition ex_pick_all : DeviceSelection := {| SelIdentifiers := []; SelCount := 4 |}.

(** The controller advances one miner; four at once exceed the budget. *)
Lemma advance_is_all_or_nothing_witness :
  map dr_Attempts (db_devices (AdvanceRollout 1 7 ex_pick (ex_mutation 5) ex_delegated_db).2)
    = [0; 0; 1; 0]
  ∧ (AdvanceRollout 1 7 ex_pick_all (ex_mutation 5) ex_delegated_db).2 = ex_delegated_db.
Proof.
  split; [computed|].
  pose proof (advance_is_all_or_nothing 1 7 ex_pick_all (ex_mutation 5) ex_delegated_db
    (ex_keyed ex_delegated _ _ eq_refl) ltac:(decided)) as Hadv.
  assert (ex_value (AdvanceRollout 1 7 ex_pick_all (ex_mutation 5) ex_delegated_db) = None) as Hv
    by computed.
  unfold ex_value in Hv. destruct (AdvanceRollout _ _ _ _ _) as [[[v s]|e] db']; [done|exact Hadv].
Defined.

Definition ex_targets : list target :=
  list_targets (own_files ex_delegated) ex_delegated_db ex_delegated.

Lemma selectQueued_exact_witness :
  selectQueued ex_delegated ex_targets ex_pick_all
    = Ok (take (Z.to_nat 4) (List.filter (selectable ex_delegated) ex_targets))
  ∧ length (List.filter (selectable ex_delegated) ex_targets) = 4%nat.
Proof.
  split; [|computed].
  apply (proj2 (selectQueued_exact ex_delegated ex_targets [] 4 ltac:(decided))). done.
Defined.

(** ** Records *)

(** Miner 3 reports the firmware; miner 2 was verified and drifted. *)
Definition ex_drift_db : DB := ex_db ex_rollout ex_half [1; 3].
Definition ex_drift_targets : list target :=
  list_targets (own_files ex_rollout) ex_drift_db ex_rollout.
Definition ex_converged : DB := (recordConvergence ex_rollout ex_drift_targets ex_drift_db).2.

Lemma convergence_is_exact_witness :
  map (λ d, is_set (dr_VerifiedAt d)) (db_devices ex_converged) = [true; false; true; false]
  ∧ db_devices ex_converged = map (convergence_row ex_rollout ex_drift_db) (db_devices ex_drift_db).
Proof.
  split; [computed|].
  unfold ex_converged, ex_drift_targets.
  destruct (ran_some (recordConvergence ex_rollout
    (list_targets (own_files ex_rollout) ex_drift_db ex_rollout)) ex_drift_db) as [ts Hts]; [computed|].
  refine (proj1 (convergence_is_exact ex_rollout ex_drift_db ts _ _ Hts)). decided.
Defined.

Definition ex_evented : DB :=
  (persistRolloutEvent ex_rollout EventRolloutAdvanced false (extra_ids ["m1"; "m2"]) ex_control_db).2.

Lemma events_lose_nothing_witness :
  ∃ current new, db_rollouts ex_control_db !! 7 = Some current
    ∧ db_events ex_evented = db_events ex_control_db ++ new
    ∧ concat (map ev_DeviceIdentifiers new) = ["m1"; "m2"].
Proof.
  destruct (events_lose_nothing ex_rollout EventRolloutAdvanced false (extra_ids ["m1"; "m2"])
    ex_control_db tt ex_evented) as (current & new & Hc & He & Hn & _).
  - refine (ran (persistRolloutEvent ex_rollout EventRolloutAdvanced false (extra_ids ["m1"; "m2"]))
      ex_control_db tt _). computed.
  - exists current, new. auto.
Defined.

Lemma view_counts_partition_witness :
  Done (countPhases (map (view ex_rollout) ex_drift_targets)) = 2
  ∧ counts_ok (countPhases (map (view ex_rollout) ex_drift_targets))
      (map (view ex_rollout) ex_drift_targets).
Proof.
  split; [computed|].
  apply (view_counts_partition ex_rollout ex_drift_targets). by vm_compute.
Defined.

(** Miner 3 joined without a baseline, reports the firmware and hashes. *)
Definition ex_joiner : target :=
  target_of ["f2"] (ex_db ex_rollout [] [3]) ex_rollout (new_device_row 7 3).

Lemma late_joiner_must_hash_witness :
  converged ex_rollout ex_joiner = true ∧ hashing ex_joiner = true.
Proof. split; [computed|]. apply (late_joiner_must_hash ex_rollout ex_joiner); computed. Defined.

(** Miner 4 was sent the update, its command succeeded and it reports the target. *)
Definition ex_sent_db : DB :=
  (ex_db ex_rollout [(ex_row 4 0) <| dr_Attempts := 1 |> <| dr_LastDispatchedAt := Some (950 * Minute) |>;
                    ex_row 3 0] [3; 4]) <| db_deployments := ∅ |>.
Definition ex_recorded : DB :=
  (recordDeploymentProvenance ex_rollout
     (list_targets (own_files ex_rollout) ex_sent_db ex_rollout) false ex_sent_db).2.


(** ** Creation *)

Definition ex_spec : rolloutSpec :=
  {| sp_OrgID := 1; sp_ChannelID := 2; sp_Pair := {| Manufacturer := "proto"; Model := "rig" |};
     sp_FirmwareChecksum := "c2"; sp_FirmwareVersion := "2.0"; sp_PreviousFirmwareChecksum := "c1";
     sp_PreviousFirmwareVersion := "1.0"; sp_AssignmentGeneration := 3; sp_Actor := ex_user;
     sp_Behavior := ex_behavior; sp_Members := None |}.

Lemma ex_behavior_valid : behavior_valid ex_behavior.
Proof. split_and!; try done. right. left. done. Qed.

Lemma preview_announces_the_batches_witness :
  preview_batches ex_behavior 3 = 2
  ∧ ∃ batches rest, split_batches ex_behavior [3; 1; 2] = Some (batches, rest)
    ∧ concat batches ++ rest = [3; 1; 2].
Proof.
  split; [computed|].
  destruct (preview_announces_the_batches ex_behavior [3; 1; 2] ex_behavior_valid)
    as (bs & rest & H1 & H2 & _); [done|by vm_compute|eauto].
Defined.

Definition ex_empty_db : DB := ex_db ex_finished [] [].
Definition ex_started : DB := (startRollout ex_spec ex_empty_db).2.
Definition ex_new : FirmwareRollout := default ex_rollout (db_rollouts ex_started !! 8).


(** ** Histories *)

Definition ex_finished_db : DB := ex_db ex_finished ex_half [1; 2].

(** The engine prepares the finished rollout, then the fleet changes. *)
Definition ex_later (db : DB) : DB :=
  db <| db_world := ex_world [] |> <| db_clock := 1001 * Minute |>
     <| db_channels := db_channels db |> <| db_assignments := [] |>.

Definition ex_after (r : FirmwareRollout) (db : DB) : DB := ex_later (serve (Prepare r) db).2.

Lemma ex_history r rows updated :
  db_clock (serve (Prepare r) (ex_db r rows updated)).2 = 1000 * Minute →
  rtc step (ex_db r rows updated) (ex_after r (ex_db r rows updated)).
Proof.
  intros Hc. eapply rtc_l; [exact (step_serve _ ex_env (Prepare r))|].
  apply rtc_once. apply step_world. rewrite Hc. done.
Qed.

(** Tables with the finished rollout, and firmware to assign over it. *)
Definition ex_sound_db : DB := ex_finished_db <| db_assignments := [] |>.
Definition ex_apply : FleetRequest := Apply 1 ex_user 2
  [{| an_Manufacturer := "Proto"; an_Model := "Rig"; an_FirmwareFileID := "f2" |}] None.
Definition ex_applied : DB := (serve_fleet ex_apply ex_sound_db).2.

Lemma ex_db_sound r rows updated : fr_ID r = 7 → sound (ex_db r rows updated).
Proof.
  intros Hid. split.
  - by apply ex_keyed.
  - intros id [r' Hr]. simpl in Hr. apply lookup_singleton_Some in Hr as [<- _]. done.
  - simpl. intros i j ri rj Hi Hj _ _. apply lookup_singleton_Some in Hi as [<- _].
    by apply lookup_singleton_Some in Hj as [<- _].
Qed.

Lemma ex_sound : sound ex_sound_db.
Proof. destruct (ex_db_sound ex_finished ex_half [1; 2] eq_refl). by split. Qed.

(** Rolling the active rollout back assigns the previous firmware again. *)
Definition ex_rolled_back : DB := (RollbackFirmware 1 7 (ex_mutation 5) ex_control_db).2.

Lemma rollback_restores_the_previous_witness :
  fr_CancelReason (ex_header ex_rolled_back) = CancelReasonRolledBack
  ∧ ∃ f', GetReleaseChannelFirmware 2 "proto" "rig" ex_rolled_back = Some f'
      ∧ as_FirmwareChecksum f' = "c1" ∧ as_FirmwareVersion f' = "1.0"
      ∧ as_AssignmentGeneration f' = 4 ∧ as_PreviousFirmwareChecksum f' = "c2".
Proof.
  split; [computed|].
  destruct (ran_some (RollbackFirmware 1 7 (ex_mutation 5)) ex_control_db) as [[cid started] Hv]; [computed|].
  assert (cid = 2) as ->.
  { assert (fst <$> ex_value (RollbackFirmware 1 7 (ex_mutation 5) ex_control_db) = Some 2) as Hc
      by computed. rewrite Hv in Hc. by injection Hc. }
  refine (proj1 (proj2 (rollback_restores_the_previous 1 7 (ex_mutation 5) ex_control_db 2 started
    ex_rolled_back ex_rollout ex_assignment _ _ _ _ _ Hv))).
  - by apply ex_db_sound.
  - computed.
  - done.
  - computed.
  - done.
Defined.


(** Clearing the pair supersedes rollout 8, assigning it again starts rollout 9. *)
Definition ex_clear : FleetRequest := Apply 1 ex_user 2
  [{| an_Manufacturer := "Proto"; an_Model := "Rig"; an_FirmwareFileID := "" |}] None.
Definition ex_cleared : DB := (serve_fleet ex_clear ex_applied).2.
Definition ex_again : DB := (serve_fleet ex_apply ex_cleared).2.

Lemma one_active_rollout_per_pair_witness :
  map (λ p, (p.1, fr_Status p.2)) (map_to_list (db_rollouts ex_again))
    ≡ₚ [(7, StatusCompleted); (8, StatusCanceled); (9, StatusActive)]
  ∧ ∀ i j ri rj, db_rollouts ex_again !! i = Some ri → db_rollouts ex_again !! j = Some rj →
      fr_Status ri = StatusActive → fr_Status rj = StatusActive → fr_ChannelID ri = fr_ChannelID rj →
      same_pair (fr_Manufacturer ri) (fr_Model ri) (fr_Manufacturer rj) (fr_Model rj) = true →
      i = j.
Proof.
  split; [decided|].
  apply (one_active_rollout_per_pair ex_sound_db ex_again ex_sound).
  eapply rtc_l; [exact (fleet_serve _ ex_env ex_apply)|].
  eapply rtc_l; [exact (fleet_serve _ ex_env ex_clear)|].
  apply rtc_once. exact (fleet_serve _ ex_env ex_apply).
Defined.


Definition ex_pause : Request := Pause 1 7 (ex_mutation 5).

Lemma revision_advances_once_witness :
  fr_Revision (ex_header (serve ex_pause ex_control_db).2) = 6
  ∧ ∃ r', db_rollouts (serve ex_pause ex_control_db).2 !! 7 = Some r'
      ∧ ((r' = ex_rollout ∧ rollout_rows (serve ex_pause ex_control_db).2 7
            = rollout_rows ex_control_db 7)
         ∨ fr_Revision r' = fr_Revision ex_rollout + 1).
Proof.
  split; [computed|].
  apply (revision_advances_once ex_control_db ex_pause 7 ex_rollout).
  - by apply ex_keyed.
  - intros id r Hr. unfold ex_control_db in Hr. simpl in Hr.
    apply lookup_singleton_Some in Hr as [_ <-]. by vm_compute.
  - done.
  - computed.
Defined.

(** ** Behaviour and order *)

Lemma validate_sound_witness :
  behavior_valid ex_behavior ∧ validate ex_behavior = Ok ex_behavior.
Proof. apply (validate_sound (ex_behavior <| ControllerTimeoutSeconds := 60 |>)). computed. Defined.

Lemma normalizePairKey_fixpoint_witness :
  matchesObserved {| Manufacturer := "Proto"; Model := "RIG S9" |} " Proto" "RIG S9 " = true.
Proof. apply (normalizePairKey_fixpoint " Proto" "RIG S9 "). computed. Defined.

Definition ex_scope_of : Scope := {| SiteIDs := [3; 1; 3]; BuildingIDs := [4]; RackIDs := []; GroupIDs := [];
  DeviceIdentifiers := ["m2"; ""; "m1"] |}.

Lemma scope_storage_roundtrip_witness :
  normalize (scopeFromTargets (rev (scope_rows ex_scope_of))) = normalize ex_scope_of.
Proof. apply (scope_storage_roundtrip ex_scope_of). apply Permutation_sym, Permutation_rev. Defined.

Lemma orderMembers_worst_first_witness :
  orderMembers shuffle ex_members OrderLeastEfficientFirst = [3; 1; 2]
  ∧ ∃ sorted, orderMembers shuffle ex_members OrderLeastEfficientFirst = map mr_DeviceID sorted
      ∧ sorted ≡ₚ ex_members ∧ StronglySorted worst_first sorted.
Proof.
  split; [computed|].
  apply (orderMembers_worst_first shuffle ex_members OrderLeastEfficientFirst).
  - done.
  - repeat constructor; by vm_compute.
Defined.

(** Paused for five minutes, a hundred minutes into its stage. *)
Lemma stage_clock_excludes_pause_witness :
  ∃ db1 r1 db2 r2,
    PauseFirmwareRollout 7 ex_user ex_control_db = (1, db1)
    ∧ ResumeFirmwareRollout 7 ex_user (db1 <| db_clock := 1005 * Minute |>) = (1, db2)
    ∧ db_rollouts db1 !! 7 = Some r1 ∧ db_rollouts db2 !! 7 = Some r2
    ∧ stageElapsed (1006 * Minute) r1 = stageElapsed (db_clock ex_control_db) ex_rollout
    ∧ stageElapsed (1006 * Minute) r2
      = stageElapsed (db_clock ex_control_db) ex_rollout + (1006 * Minute - 1005 * Minute).
Proof.
  apply (stage_clock_excludes_pause ex_control_db 7 ex_rollout ex_user ex_user (1005 * Minute)
    (1006 * Minute)); by vm_compute.
Defined.
