(* ===== verification/CurtailmentModes.v ===== *)
(** * Curtailment modes

    [internal/domain/curtailment/modes]: how much of a ranked candidate list a
    curtailment takes. FIXED_KW accumulates power until the requested reduction
    is met, tolerates a declared undershoot, or reports why the load does not
    suffice; FULL_FLEET takes every candidate. *)

From S2P Require Import Prelude GoSort Float64 Errors RolloutBehavior.
#[local] Open Scope string_scope.
#[local] Open Scope list_scope.
#[local] Open Scope Z_scope.
#[local] Open Scope go_scope.

Record Candidate := { DeviceIdentifier : string; PowerW : float64; EfficiencyJH : float64 }.

Inductive Outcome := OutcomeTargetReached | OutcomeUndershootTolerated | OutcomeInsufficientLoad.

#[export] Instance Outcome_eq_dec : EqDecision Outcome.
Proof. solve_decision. Defined.

(** The diagnostic of a rejection; every counter is an int32. *)
Record InsufficientLoadDetail := {
  AvailableKW : float64;
  RequestedKW : float64;
  ToleranceKW : float64;
  CandidateMinPowerW : Z;
  ExcludedBelowThreshold : Z;
  ExcludedOffline : Z;
  ExcludedPhantomLoad : Z;
  ExcludedDeadMonitor : Z;
  ExcludedMaintenance : Z;
  ExcludedUpdating : Z;
  ExcludedRebootRequired : Z;
  ExcludedStale : Z;
  ExcludedNonActionable : Z;
  ExcludedPairing : Z;
  ExcludedCooldown : Z;
  ExcludedCapabilityMiss : Z;
  ExcludedActiveEvent : Z
}.

#[export] Instance eta_InsufficientLoadDetail : Eta InsufficientLoadDetail := λ d,
  {| AvailableKW := AvailableKW d; RequestedKW := RequestedKW d; ToleranceKW := ToleranceKW d;
     CandidateMinPowerW := CandidateMinPowerW d; ExcludedBelowThreshold := ExcludedBelowThreshold d;
     ExcludedOffline := ExcludedOffline d; ExcludedPhantomLoad := ExcludedPhantomLoad d;
     ExcludedDeadMonitor := ExcludedDeadMonitor d; ExcludedMaintenance := ExcludedMaintenance d;
     ExcludedUpdating := ExcludedUpdating d; ExcludedRebootRequired := ExcludedRebootRequired d;
     ExcludedStale := ExcludedStale d; ExcludedNonActionable := ExcludedNonActionable d;
     ExcludedPairing := ExcludedPairing d; ExcludedCooldown := ExcludedCooldown d;
     ExcludedCapabilityMiss := ExcludedCapabilityMiss d; ExcludedActiveEvent := ExcludedActiveEvent d |}.

(** The zero value but for the candidate floor. *)
Definition empty_detail (minPowerW : Z) : InsufficientLoadDetail :=
  {| AvailableKW := F64.zero; RequestedKW := F64.zero; ToleranceKW := F64.zero;
     CandidateMinPowerW := minPowerW; ExcludedBelowThreshold := 0; ExcludedOffline := 0;
     ExcludedPhantomLoad := 0; ExcludedDeadMonitor := 0; ExcludedMaintenance := 0;
     ExcludedUpdating := 0; ExcludedRebootRequired := 0; ExcludedStale := 0;
     ExcludedNonActionable := 0; ExcludedPairing := 0; ExcludedCooldown := 0;
     ExcludedCapabilityMiss := 0; ExcludedActiveEvent := 0 |}.

Record Result := {
  ResOutcome : Outcome;
  ResSelected : list Candidate;
  RealizedReductionW : float64;
  InsufficientDetail : option InsufficientLoadDetail
}.

(** The [Mode] interface. *)
Record Mode := {
  RequiresDualSignalTelemetry : bool;
  Select : list Candidate → Result
}.

Definition wPerKW : float64 := F64.of_Z 1000.

(** The running sum of a list, from the left. *)
Definition sum_power (start : float64) (l : list Candidate) : float64 :=
  fold_left (λ total c, F64.add total (PowerW c)) l start.

(** ** FIXED_KW *)

Record FixedKw := { fk_TargetKW : float64; fk_ToleranceKW : float64;
                    fk_ExclusionSummary : InsufficientLoadDetail }.

Definition NewFixedKw (targetKW toleranceKW : float64) (summary : InsufficientLoadDetail)
    : option FixedKw :=
  if F64.le targetKW F64.zero then None
  else if F64.lt toleranceKW F64.zero then None
  else Some {| fk_TargetKW := targetKW; fk_ToleranceKW := toleranceKW; fk_ExclusionSummary := summary |}.

(** The accumulation loop: the candidates up to the one that reaches the target
    with their sum, or the sum of all of them. *)
Fixpoint accumulate (targetW totalW : float64) (taken ranked : list Candidate)
    : list Candidate * float64 + float64 :=
  match ranked with
  | [] => inr totalW
  | c :: rest =>
      let totalW := F64.add totalW (PowerW c) in
      if F64.ge totalW targetW then inl (taken ++ [c], totalW)
      else accumulate targetW totalW (taken ++ [c]) rest
  end.

Definition FixedKw_Select (m : FixedKw) (ranked : list Candidate) : Result :=
  let targetW := F64.mul (fk_TargetKW m) wPerKW in
  let toleranceW := F64.mul (fk_ToleranceKW m) wPerKW in
  match accumulate targetW F64.zero [] ranked with
  | inl (selected, totalW) =>
      {| ResOutcome := OutcomeTargetReached; ResSelected := selected; RealizedReductionW := totalW;
         InsufficientDetail := None |}
  | inr totalW =>
      if F64.gt toleranceW F64.zero && F64.ge totalW (F64.sub targetW toleranceW) then
        {| ResOutcome := OutcomeUndershootTolerated; ResSelected := ranked;
           RealizedReductionW := totalW; InsufficientDetail := None |}
      else
        {| ResOutcome := OutcomeInsufficientLoad; ResSelected := []; RealizedReductionW := F64.zero;
           InsufficientDetail := Some ((fk_ExclusionSummary m)
             <| AvailableKW := F64.div totalW wPerKW |> <| RequestedKW := fk_TargetKW m |>
             <| ToleranceKW := fk_ToleranceKW m |>) |}
  end.

Definition fixed_kw_mode (m : FixedKw) : Mode :=
  {| RequiresDualSignalTelemetry := true; Select := FixedKw_Select m |}.

(** ** FULL_FLEET *)

Definition FullFleet_Select (ranked : list Candidate) : Result :=
  {| ResOutcome := OutcomeTargetReached; ResSelected := ranked;
     RealizedReductionW := sum_power F64.zero ranked; InsufficientDetail := None |}.

Definition full_fleet_mode : Mode :=
  {| RequiresDualSignalTelemetry := false; Select := FullFleet_Select |}.

(** [buildMode] *)
Definition ModeFixedKw := "FIXED_KW".
Definition ModeFullFleet := "FULL_FLEET".

Definition buildMode (m : string) (targetKW toleranceKW : float64) (summary : InsufficientLoadDetail)
    : result FleetError Mode :=
  if m == ModeFullFleet then Ok full_fleet_mode
  else match NewFixedKw targetKW toleranceKW summary with
  | Some fk => Ok (fixed_kw_mode fk)
  | None => Err NewInvalidArgumentError
  end.

(** ** What FIXED_KW takes *)

Lemma sum_power_snoc start l c : sum_power start (l ++ [c]) = F64.add (sum_power start l) (PowerW c).
Proof. unfold sum_power. by rewrite fold_left_app. Qed.

(** The accumulation stops at the shortest prefix that reaches the target. *)
Lemma accumulate_spec targetW taken ranked :
  match accumulate targetW (sum_power F64.zero taken) taken ranked with
  | inl (selected, totalW) =>
      ∃ n, (0 < n <= length ranked)%nat ∧ selected = taken ++ take n ranked
        ∧ totalW = sum_power F64.zero selected ∧ F64.ge totalW targetW = true
        ∧ ∀ k, (0 < k < n)%nat → F64.ge (sum_power F64.zero (taken ++ take k ranked)) targetW = false
  | inr totalW =>
      totalW = sum_power F64.zero (taken ++ ranked)
      ∧ ∀ k, (0 < k <= length ranked)%nat →
          F64.ge (sum_power F64.zero (taken ++ take k ranked)) targetW = false
  end.
Proof.
  revert taken. induction ranked as [|c rest IH]; intros taken; cbn [accumulate].
  { split; [by rewrite app_nil_r|]. simpl. lia. }
  rewrite <- sum_power_snoc. destruct (F64.ge _ targetW) eqn:E.
  - exists 1%nat. simpl. split_and!; [lia|lia|by rewrite firstn_O|done|done|lia].
  - specialize (IH (taken ++ [c])).
    assert (∀ k, (0 < k)%nat → taken ++ take k (c :: rest) = (taken ++ [c]) ++ take (k - 1) rest) as Ht.
    { intros [|k] Hk; [lia|]. simpl. by rewrite Nat.sub_0_r, <- app_assoc. }
    assert (∀ k, (0 < k)%nat → ((0 < k - 1)%nat →
      F64.ge (sum_power F64.zero ((taken ++ [c]) ++ take (k - 1) rest)) targetW = false) →
      F64.ge (sum_power F64.zero (taken ++ take k (c :: rest))) targetW = false) as Hk.
    { intros k Hk Hrest. rewrite Ht by done. destruct (decide (k = 1)%nat) as [->|].
      - simpl. by rewrite take_0, app_nil_r.
      - apply Hrest. lia. }
    destruct (accumulate _ _ _ rest) as [[selected totalW]|totalW].
    + destruct IH as (n & Hn & -> & -> & Hge & Hlt). exists (S n). split_and!; [lia|simpl; lia| |done|done|].
      * rewrite Ht by lia. by rewrite Nat.sub_succ, Nat.sub_0_r.
      * intros k Hkn. apply Hk; [lia|]. intros H0. apply Hlt. lia.
    + destruct IH as [-> Hlt]. split; [by rewrite <- app_assoc|]. intros k Hkn. apply Hk; [lia|].
      intros H0. apply Hlt. simpl in Hkn. lia.
Qed.

(** FIXED_KW takes the shortest prefix whose power reaches the target; if none does it takes
    everything exactly when the undershoot is within a positive tolerance, and rejects with an
    empty selection and the available power otherwise. *)
Theorem fixed_kw_is_least_disruptive m ranked :
  let targetW := F64.mul (fk_TargetKW m) wPerKW in
  let toleranceW := F64.mul (fk_ToleranceKW m) wPerKW in
  let res := FixedKw_Select m ranked in
  let short k := F64.ge (sum_power F64.zero (take k ranked)) targetW = false in
  match ResOutcome res with
  | OutcomeTargetReached =>
      ∃ n, (0 < n <= length ranked)%nat ∧ ResSelected res = take n ranked
        ∧ RealizedReductionW res = sum_power F64.zero (take n ranked)
        ∧ F64.ge (RealizedReductionW res) targetW = true ∧ ∀ k, (0 < k < n)%nat → short k
  | OutcomeUndershootTolerated =>
      ResSelected res = ranked ∧ RealizedReductionW res = sum_power F64.zero ranked
      ∧ (∀ k, (0 < k <= length ranked)%nat → short k)
      ∧ F64.gt toleranceW F64.zero = true
      ∧ F64.ge (RealizedReductionW res) (F64.sub targetW toleranceW) = true
  | OutcomeInsufficientLoad =>
      ResSelected res = [] ∧ (∀ k, (0 < k <= length ranked)%nat → short k)
      ∧ (F64.gt toleranceW F64.zero = false
         ∨ F64.ge (sum_power F64.zero ranked) (F64.sub targetW toleranceW) = false)
      ∧ ∃ d, InsufficientDetail res = Some d
          ∧ AvailableKW d = F64.div (sum_power F64.zero ranked) wPerKW
  end.
Proof.
  cbv zeta. unfold FixedKw_Select.
  pose proof (accumulate_spec (F64.mul (fk_TargetKW m) wPerKW) [] ranked) as Ha.
  change (sum_power F64.zero []) with F64.zero in Ha.
  destruct (accumulate _ _ _ ranked) as [[selected totalW]|totalW].
  - destruct Ha as (n & Hn & -> & -> & Hge & Hlt). simpl. exists n. done.
  - destruct Ha as [-> Hlt]. simpl in *. destruct (_ && _) eqn:E; simpl.
    + apply andb_prop in E as [E1 E2]. done.
    + split_and!; [done|done| |eauto]. by apply andb_false_iff in E.
Qed.
