(* ===== verification/CurtailmentSelector.v ===== *)
(** * Curtailment selection

    [internal/domain/curtailment/selector.go] and the candidate half of
    service.go: which miners of a scope may be curtailed and why the others are
    skipped, the plan a mode makes of the eligible ones, the all-paired policy,
    and the target rows a plan inserts. *)

From S2P Require Import Prelude GoSort Float64 Errors RolloutBehavior CurtailmentModes.
#[local] Open Scope string_scope.
#[local] Open Scope list_scope.
#[local] Open Scope Z_scope.
#[local] Open Scope go_scope.

Definition SkipBelowThreshold := "below_candidate_min_power_w".
Definition SkipPhantomLoadNoHash := "phantom_load_no_hash".
Definition SkipPowerTelemetryUnreliable := "power_telemetry_unreliable".
Definition SkipStaleTelemetry := "stale_telemetry".
Definition SkipUnreachableResidualLoad := "unreachable_residual_load".
Definition SkipUpdating := "updating".
Definition SkipRebootRequired := "reboot_required".
Definition SkipMaintenance := "maintenance".
Definition SkipNonActionableStatus := "non_actionable_status".
Definition SkipPairing := "pairing".
Definition SkipCurtailFullUnsupported := "curtail_full_unsupported".
Definition SkipCooldown := "cooldown".
Definition SkipActiveEvent := "active_event".

Definition deviceStatusNeedsMiningPool := "NEEDS_MINING_POOL".
Definition deviceStatusInactive := "INACTIVE".
Definition pairingStatusAuthenticationNeeded := "AUTHENTICATION_NEEDED".

Definition TargetStatePending := "pending".
Definition TargetStateUnavailable := "unavailable".
Definition DesiredStateCurtailed := "curtailed".
Definition targetTypeMiner := "miner".

(** ** One candidate *)

(** [models.Candidate]: a nil pointer is [None]. *)
Record MinerCandidate := {
  mc_DeviceIdentifier : string;
  mc_DriverName : option string;
  mc_Model : string;
  mc_DeviceStatus : string;
  mc_PairingStatus : string;
  mc_LatestMetricsAt : option Z;
  mc_LatestPowerW : option float64;
  mc_LatestHashRateHS : option float64;
  mc_AvgEfficiencyJH : option float64
}.

Definition derefFloat (p : option float64) : float64 := default F64.zero p.

Definition isFiniteFloat (p : option float64) : bool :=
  match p with None => true | Some x => negb (F64.is_nan x) && negb (F64.is_inf x) end.

Definition hasNonNegativeFiniteFloat (p : option float64) : bool :=
  match p with None => false | Some x => isFiniteFloat p && F64.ge x F64.zero end.

Definition statusAuthoritativeHashRateHS (c : MinerCandidate) : float64 :=
  if mc_DeviceStatus c == deviceStatusNeedsMiningPool then F64.zero
  else if hasNonNegativeFiniteFloat (mc_LatestHashRateHS c) then derefFloat (mc_LatestHashRateHS c)
  else F64.zero.

Definition hasPositivePowerSample (c : MinerCandidate) : bool :=
  hasNonNegativeFiniteFloat (mc_LatestPowerW c) && F64.gt (derefFloat (mc_LatestPowerW c)) F64.zero.

Definition no_driver (c : MinerCandidate) : bool :=
  match mc_DriverName c with None => true | Some n => n == "" end.

(** The efficiency the ranking may use. *)
Definition finite_efficiency (c : MinerCandidate) : option float64 :=
  if isFiniteFloat (mc_AvgEfficiencyJH c) then mc_AvgEfficiencyJH c else None.

Record CandidateInput := {
  ci_DeviceIdentifier : string;
  ci_PowerW : float64;
  ci_HashRateHS : float64;
  ci_AvgEfficiencyJH : option float64
}.

Record SkippedDevice := { sk_DeviceIdentifier : string; sk_Reason : string }.

(** ** The pre-filter *)

Record classifyOpts := {
  IncludeMaintenance : bool;
  ActiveEventDevices : gset string;
  CooldownDevices : gset string;
  opt_CandidateMinPowerW : Z
}.

(** The status switch: the reason it skips with, if it does. *)
Definition status_skip (opts : classifyOpts) (c : MinerCandidate) : option string :=
  let s := mc_DeviceStatus c in
  if s == "" then Some SkipStaleTelemetry
  else if s == "UPDATING" then Some SkipUpdating
  else if s == "REBOOT_REQUIRED" then Some SkipRebootRequired
  else if s == "OFFLINE" then Some SkipUnreachableResidualLoad
  else if s == deviceStatusInactive then Some SkipNonActionableStatus
  else if s == "MAINTENANCE" then
    if negb (IncludeMaintenance opts) then Some SkipMaintenance else None
  else if (s == "ERROR") || (s == "UNKNOWN") then None
  else if s == deviceStatusNeedsMiningPool then
    if negb (hasPositivePowerSample c) then Some SkipStaleTelemetry else None
  else None.

(** The gates of one candidate in order: the reason of the first that skips. *)
Definition skip_reason (opts : classifyOpts) (c : MinerCandidate) : option string :=
  if bool_decide (mc_DeviceIdentifier c ∈ ActiveEventDevices opts) then Some SkipActiveEvent
  else if mc_PairingStatus c != "PAIRED" then Some SkipPairing
  else if no_driver c then Some SkipCurtailFullUnsupported
  else match status_skip opts c with
  | Some why => Some why
  | None =>
      let requiresHashSample := mc_DeviceStatus c != deviceStatusNeedsMiningPool in
      if negb (is_set (mc_LatestMetricsAt c)) then Some SkipStaleTelemetry
      else if negb (hasNonNegativeFiniteFloat (mc_LatestPowerW c))
           || (requiresHashSample && negb (hasNonNegativeFiniteFloat (mc_LatestHashRateHS c)))
      then Some SkipStaleTelemetry
      else if bool_decide (mc_DeviceIdentifier c ∈ CooldownDevices opts) then Some SkipCooldown
      else None
  end.

(** The counter of each reason. *)
Definition count_skip (why : string) (d : InsufficientLoadDetail) : InsufficientLoadDetail :=
  if why == SkipActiveEvent then d <| ExcludedActiveEvent := int32 (ExcludedActiveEvent d + 1) |>
  else if why == SkipPairing then d <| ExcludedPairing := int32 (ExcludedPairing d + 1) |>
  else if why == SkipCurtailFullUnsupported then
    d <| ExcludedCapabilityMiss := int32 (ExcludedCapabilityMiss d + 1) |>
  else if why == SkipStaleTelemetry then d <| ExcludedStale := int32 (ExcludedStale d + 1) |>
  else if why == SkipUpdating then d <| ExcludedUpdating := int32 (ExcludedUpdating d + 1) |>
  else if why == SkipRebootRequired then
    d <| ExcludedRebootRequired := int32 (ExcludedRebootRequired d + 1) |>
  else if why == SkipUnreachableResidualLoad then d <| ExcludedOffline := int32 (ExcludedOffline d + 1) |>
  else if why == SkipNonActionableStatus then
    d <| ExcludedNonActionable := int32 (ExcludedNonActionable d + 1) |>
  else if why == SkipMaintenance then d <| ExcludedMaintenance := int32 (ExcludedMaintenance d + 1) |>
  else if why == SkipCooldown then d <| ExcludedCooldown := int32 (ExcludedCooldown d + 1) |>
  else d.

Definition input_of (c : MinerCandidate) : CandidateInput :=
  {| ci_DeviceIdentifier := mc_DeviceIdentifier c; ci_PowerW := derefFloat (mc_LatestPowerW c);
     ci_HashRateHS := statusAuthoritativeHashRateHS c; ci_AvgEfficiencyJH := finite_efficiency c |}.

Definition classify_one (opts : classifyOpts)
    (acc : list CandidateInput * list SkippedDevice * InsufficientLoadDetail) (c : MinerCandidate)
    : list CandidateInput * list SkippedDevice * InsufficientLoadDetail :=
  let '(eligible, skipped, summary) := acc in
  match skip_reason opts c with
  | Some why =>
      (eligible, skipped ++ [{| sk_DeviceIdentifier := mc_DeviceIdentifier c; sk_Reason := why |}],
       count_skip why summary)
  | None => (eligible ++ [input_of c], skipped, summary)
  end.

Definition classifyCandidates (cands : list MinerCandidate) (opts : classifyOpts)
    : list CandidateInput * list SkippedDevice * InsufficientLoadDetail :=
  fold_left (classify_one opts) cands ([], [], empty_detail (opt_CandidateMinPowerW opts)).

(** ** The plan *)

Record SelectedDevice := {
  sd_DeviceIdentifier : string;
  sd_PowerW : float64;
  sd_HashRateHS : float64;
  sd_EfficiencyJH : float64;
  sd_TargetState : string;
  sd_LastError : string
}.

(** The fields the selection fills; those [Start] adds stay at their zero value
    here. *)
Record Plan := {
  pn_Selected : list SelectedDevice;
  pn_Skipped : list SkippedDevice;
  pn_EstimatedReductionKW : float64;
  pn_EstimatedRemainingPowerKW : float64;
  pn_Outcome : Outcome;
  pn_InsufficientLoadDetail : option InsufficientLoadDetail;
  pn_PolicyTargetCount : Z;
  pn_UnavailableTargetCount : Z
}.

(** The dual-signal filter: the reason it skips a candidate with. *)
Definition dual_signal_skip (minPowerW : Z) (c : CandidateInput) : option string :=
  let low := F64.lt (ci_PowerW c) (F64.of_Z minPowerW) in
  let idle := F64.le (ci_HashRateHS c) F64.zero in
  if low && idle then Some SkipBelowThreshold
  else if low then Some SkipPowerTelemetryUnreliable
  else if idle then Some SkipPhantomLoadNoHash
  else None.

Definition dual_signal_count (why : string) (minPowerW : Z) (inputs : list CandidateInput) : Z :=
  fold_left (λ n c, if bool_decide (dual_signal_skip minPowerW c = Some why) then int32 (n + 1) else n)
    inputs 0.

(** Worst efficiency first, unknowns last. *)
Definition worse (a b : CandidateInput) : bool :=
  match ci_AvgEfficiencyJH a, ci_AvgEfficiencyJH b with
  | None, None => false
  | None, Some _ => false
  | Some _, None => true
  | Some x, Some y => F64.gt x y
  end.

Definition ranked_of (c : CandidateInput) : Candidate :=
  {| DeviceIdentifier := ci_DeviceIdentifier c; PowerW := ci_PowerW c;
     EfficiencyJH := derefFloat (ci_AvgEfficiencyJH c) |}.

Definition dual_skipped (minPowerW : Z) (c : CandidateInput) : list SkippedDevice :=
  match dual_signal_skip minPowerW c with
  | Some why => [{| sk_DeviceIdentifier := ci_DeviceIdentifier c; sk_Reason := why |}]
  | None => []
  end.

Definition BuildPlan (inputs : list CandidateInput) (preFiltered : list SkippedDevice)
    (candidateMinPowerW : Z) (mode : Mode) : Plan :=
  let dual := RequiresDualSignalTelemetry mode in
  let skipped := preFiltered ++
    (if dual then flat_map (dual_skipped candidateMinPowerW) inputs else []) in
  let eligible := if dual
    then List.filter (λ c, negb (is_set (dual_signal_skip candidateMinPowerW c))) inputs
    else inputs in
  let ranked := map ranked_of (stable_sort worse eligible) in
  let res := Select mode ranked in
  let counted why := if dual then dual_signal_count why candidateMinPowerW inputs else 0 in
  let detail := (λ d, d
      <| ExcludedBelowThreshold := int32 (ExcludedBelowThreshold d + counted SkipBelowThreshold) |>
      <| ExcludedPhantomLoad := int32 (ExcludedPhantomLoad d + counted SkipPhantomLoadNoHash) |>
      <| ExcludedDeadMonitor := int32 (ExcludedDeadMonitor d + counted SkipPowerTelemetryUnreliable) |>)
    <$> InsufficientDetail res in
  let hashByDevice : gmap string float64 :=
    fold_left (λ m c, <[ci_DeviceIdentifier c := ci_HashRateHS c]> m) inputs ∅ in
  let selected := map (λ c, {| sd_DeviceIdentifier := DeviceIdentifier c; sd_PowerW := PowerW c;
      sd_HashRateHS := default F64.zero (hashByDevice !! DeviceIdentifier c);
      sd_EfficiencyJH := EfficiencyJH c; sd_TargetState := ""; sd_LastError := "" |}) (ResSelected res) in
  let remainingW := F64.sub (sum_power F64.zero ranked) (RealizedReductionW res) in
  {| pn_Selected := selected; pn_Skipped := skipped;
     pn_EstimatedReductionKW := F64.div (RealizedReductionW res) wPerKW;
     pn_EstimatedRemainingPowerKW := F64.div remainingW wPerKW;
     pn_Outcome := ResOutcome res; pn_InsufficientLoadDetail := detail;
     pn_PolicyTargetCount := Z.of_nat (length selected); pn_UnavailableTargetCount := 0 |}.

(** ** The all-paired policy *)

Definition unavailable (why : string) : string * string := (TargetStateUnavailable, why).

Definition AllPairedPolicyTargetState (c : MinerCandidate) (includeMaintenance : bool)
    : string * string :=
  let s := mc_DeviceStatus c in
  if mc_PairingStatus c == pairingStatusAuthenticationNeeded then unavailable "authentication_needed"
  else if no_driver c then unavailable "no_driver"
  else if s == "" then unavailable "missing_status"
  else if s == "OFFLINE" then unavailable "offline"
  else if s == "UPDATING" then unavailable "updating"
  else if s == "REBOOT_REQUIRED" then unavailable "reboot_required"
  else if (s == deviceStatusInactive) || (s == "ERROR") || (s == "UNKNOWN") then
    unavailable "non_actionable_status"
  else if s == deviceStatusNeedsMiningPool then
    if negb (hasPositivePowerSample c) then unavailable "stale_telemetry" else (TargetStatePending, "")
  else if s == "MAINTENANCE" then
    if negb includeMaintenance then unavailable "maintenance" else (TargetStatePending, "")
  else (TargetStatePending, "").

Definition IsAllPairedPolicyPairingStatus (status : string) : bool :=
  (status == "PAIRED") || (status == "DEFAULT_PASSWORD") || (status == pairingStatusAuthenticationNeeded).

Definition AllPairedPolicyRestoreTargetState (c : MinerCandidate) : string * string :=
  if (mc_PairingStatus c == "PAIRED") || (mc_PairingStatus c == "DEFAULT_PASSWORD") then
    if no_driver c then unavailable "no_driver"
    else if (mc_DeviceStatus c == deviceStatusInactive)
         || (mc_DeviceStatus c == deviceStatusNeedsMiningPool) then (TargetStatePending, "")
    else AllPairedPolicyTargetState c true
  else if mc_PairingStatus c == pairingStatusAuthenticationNeeded then unavailable "authentication_needed"
  else unavailable "unpaired".

Record policy_acc := {
  pa_selected : list SelectedDevice; pa_skipped : list SkippedDevice;
  pa_reductionW : float64; pa_unavailable : Z
}.

Definition policy_one (active : gset string) (includeMaintenance : bool) (acc : policy_acc)
    (c : MinerCandidate) : policy_acc :=
  let id := mc_DeviceIdentifier c in
  let skip why := {| pa_selected := pa_selected acc;
    pa_skipped := pa_skipped acc ++ [{| sk_DeviceIdentifier := id; sk_Reason := why |}];
    pa_reductionW := pa_reductionW acc; pa_unavailable := pa_unavailable acc |} in
  if bool_decide (id ∈ active) then skip SkipActiveEvent
  else if negb (IsAllPairedPolicyPairingStatus (mc_PairingStatus c)) then skip SkipPairing
  else
    let '(state, why) := AllPairedPolicyTargetState c includeMaintenance in
    let counted := (state != TargetStateUnavailable) && hasNonNegativeFiniteFloat (mc_LatestPowerW c) in
    let powerW := if counted then derefFloat (mc_LatestPowerW c) else F64.zero in
    {| pa_selected := pa_selected acc ++ [{| sd_DeviceIdentifier := id; sd_PowerW := powerW;
         sd_HashRateHS := statusAuthoritativeHashRateHS c;
         sd_EfficiencyJH := derefFloat (finite_efficiency c);
         sd_TargetState := state; sd_LastError := why |}];
       pa_skipped := pa_skipped acc;
       pa_reductionW := if counted then F64.add (pa_reductionW acc) powerW else pa_reductionW acc;
       pa_unavailable := if state == TargetStateUnavailable then pa_unavailable acc + 1
                         else pa_unavailable acc |}.

(** The store returns no nil candidate. *)
Definition BuildAllPairedPolicyPlan (candidates : list MinerCandidate) (active : gset string)
    (includeMaintenance : bool) : Plan :=
  let acc := fold_left (policy_one active includeMaintenance) candidates
    {| pa_selected := []; pa_skipped := []; pa_reductionW := F64.zero; pa_unavailable := 0 |} in
  {| pn_Selected := pa_selected acc; pn_Skipped := pa_skipped acc;
     pn_EstimatedReductionKW := F64.div (pa_reductionW acc) wPerKW;
     pn_EstimatedRemainingPowerKW := F64.zero; pn_Outcome := OutcomeTargetReached;
     pn_InsufficientLoadDetail := None; pn_PolicyTargetCount := Z.of_nat (length (pa_selected acc));
     pn_UnavailableTargetCount := pa_unavailable acc |}.

(** ** Target rows *)

Definition shouldPersistBaselinePowerW (mode : string) (powerW : float64) (minPowerW : Z)
    (hashing : bool) : bool :=
  if F64.le powerW F64.zero then false
  else if (mode == ModeFullFleet) && hashing && F64.lt powerW (F64.of_Z minPowerW) then false
  else true.

Definition AllPairedPromotionBaselinePowerW (c : MinerCandidate) (minPowerW : Z) : option float64 :=
  if negb (hasNonNegativeFiniteFloat (mc_LatestPowerW c)) then None
  else
    let power := derefFloat (mc_LatestPowerW c) in
    let hashing := F64.gt (statusAuthoritativeHashRateHS c) F64.zero in
    if shouldPersistBaselinePowerW ModeFullFleet power minPowerW hashing then Some power else None.

Record InsertTargetParams := {
  it_DeviceIdentifier : string;
  it_TargetType : string;
  it_State : string;
  it_DesiredState : string;
  it_BaselinePowerW : option float64;
  it_LastError : option string
}.

Definition BuildInsertTargetParams (selected : list SelectedDevice) (mode : string) (minPowerW : Z)
    : list InsertTargetParams :=
  map (λ sel,
    {| it_DeviceIdentifier := sd_DeviceIdentifier sel; it_TargetType := targetTypeMiner;
       it_State := if sd_TargetState sel == "" then TargetStatePending else sd_TargetState sel;
       it_DesiredState := DesiredStateCurtailed;
       it_BaselinePowerW := if shouldPersistBaselinePowerW mode (sd_PowerW sel) minPowerW
           (F64.gt (sd_HashRateHS sel) F64.zero) then Some (sd_PowerW sel) else None;
       it_LastError := if sd_LastError sel == "" then None else Some (sd_LastError sel) |}) selected.

Definition BuildFullFleetAdmissionTargets (candidates : list MinerCandidate)
    (includeMaintenance : bool) (minPowerW : Z) : list InsertTargetParams * list SkippedDevice :=
  let '(eligible, skipped, _) := classifyCandidates candidates
    {| IncludeMaintenance := includeMaintenance; ActiveEventDevices := ∅; CooldownDevices := ∅;
       opt_CandidateMinPowerW := minPowerW |} in
  let plan := BuildPlan eligible skipped minPowerW full_fleet_mode in
  (BuildInsertTargetParams (pn_Selected plan) ModeFullFleet minPowerW, pn_Skipped plan).
