(* ===== verification/CurtailmentPreview.v ===== *)
(** * Scope resolution and the preview of a curtailment

    The read-only pipeline of [internal/domain/curtailment/service.go] that
    Preview and Start share: validation of the request, resolution of its scope
    to a candidate filter, the store reads, and the plan. Also the sizes and the
    gate that Start and Stop apply to an event. The store is the class
    [CurtailmentStore]: what its queries returned to this request. *)

From Stdlib Require Import SpecFloat.
From S2P Require Import Prelude GoSort Float64 Errors RolloutBehavior CurtailmentModes.
From S2P Require Import CurtailmentSelector.
#[local] Open Scope string_scope.
#[local] Open Scope list_scope.
#[local] Open Scope Z_scope.
#[local] Open Scope go_scope.

Definition ScopeSchemaVersionCurrent : Z := 1.
Definition ScopeTopologyIDsPerTypeMax : Z := 256.
Definition ScopeDeviceIdentifiersMax : Z := 10000.
Definition ScopeResolvedMinerMax : Z := 10000.
Definition MaxPostEventCooldownSec : Z := 24 * 60 * 60.
Definition RestoreBatchSizeMax : Z := 10000.

Definition ScopeTypeWholeOrg := "whole_org".
Definition ScopeTypeSite := "site".
Definition ScopeTypeDeviceList := "device_list".
Definition ScopeTypeMixed := "mixed".
Definition LevelFull := "FULL".
Definition StrategyLeastEfficientFirst := "LEAST_EFFICIENT_FIRST".
Definition PriorityNormal := "NORMAL".
Definition PriorityEmergency := "EMERGENCY".
Definition EventStatePending := "pending".
Definition EventStateActive := "active".
Definition EventStateCompleted := "completed".

(** ** Scopes *)

Record CurtailmentScope := {
  cs_SchemaVersion : Z;
  cs_Type : string;
  cs_SiteID : Z;
  cs_SiteIDs : list Z;
  cs_BuildingIDs : list Z;
  cs_RackIDs : list Z;
  cs_GroupIDs : list Z;
  cs_DeviceIdentifiers : list string
}.

#[export] Instance eta_CurtailmentScope : Eta CurtailmentScope := λ s,
  {| cs_SchemaVersion := cs_SchemaVersion s; cs_Type := cs_Type s; cs_SiteID := cs_SiteID s;
     cs_SiteIDs := cs_SiteIDs s; cs_BuildingIDs := cs_BuildingIDs s; cs_RackIDs := cs_RackIDs s;
     cs_GroupIDs := cs_GroupIDs s; cs_DeviceIdentifiers := cs_DeviceIdentifiers s |}.

Record ListCandidatesParams := {
  lc_OrgID : Z;
  lc_ResultLimit : Z;
  lc_DeviceIdentifiers : list string;
  lc_SiteIDs : list Z;
  lc_BuildingIDs : list Z;
  lc_RackIDs : list Z;
  lc_GroupIDs : list Z
}.

Definition empty_filter : ListCandidatesParams :=
  {| lc_OrgID := 0; lc_ResultLimit := 0; lc_DeviceIdentifiers := []; lc_SiteIDs := [];
     lc_BuildingIDs := []; lc_RackIDs := []; lc_GroupIDs := [] |}.

#[export] Instance eta_ListCandidatesParams : Eta ListCandidatesParams := λ f,
  {| lc_OrgID := lc_OrgID f; lc_ResultLimit := lc_ResultLimit f;
     lc_DeviceIdentifiers := lc_DeviceIdentifiers f; lc_SiteIDs := lc_SiteIDs f;
     lc_BuildingIDs := lc_BuildingIDs f; lc_RackIDs := lc_RackIDs f; lc_GroupIDs := lc_GroupIDs f |}.

Definition some {A} (l : list A) : bool := (0 <? length l)%nat.

Definition uniquePositiveInt64s (values : list Z) : list Z := unique_loop (λ v, 0 <? v) [] values.
Definition uniqueNonEmptyStrings (values : list string) : list string :=
  unique_loop (λ v, v != "") [] values.

Definition hasTopologySelectors (s : CurtailmentScope) : bool :=
  some (cs_BuildingIDs s) || some (cs_RackIDs s) || some (cs_GroupIDs s).

Definition normalized_type (s : CurtailmentScope) : string :=
  if cs_Type s == ScopeTypeWholeOrg then cs_Type s
  else if hasTopologySelectors s then ScopeTypeMixed
  else if some (cs_SiteIDs s) && some (cs_DeviceIdentifiers s) then ScopeTypeMixed
  else if (1 <? length (cs_SiteIDs s))%nat then ScopeTypeMixed
  else if (length (cs_SiteIDs s) =? 1)%nat then ScopeTypeSite
  else if some (cs_DeviceIdentifiers s) then ScopeTypeDeviceList
  else cs_Type s.

Definition normalizeScope (s : CurtailmentScope) : CurtailmentScope :=
  let siteIDs := cs_SiteIDs s ++ (if 0 <? cs_SiteID s then [cs_SiteID s] else []) in
  let s := s <| cs_SiteIDs := uniquePositiveInt64s siteIDs |> in
  let s := s <| cs_SiteID := match cs_SiteIDs s with [id] => id | _ => 0 end |> in
  let s := s <| cs_DeviceIdentifiers := uniqueNonEmptyStrings (cs_DeviceIdentifiers s) |>
             <| cs_BuildingIDs := uniquePositiveInt64s (cs_BuildingIDs s) |>
             <| cs_RackIDs := uniquePositiveInt64s (cs_RackIDs s) |>
             <| cs_GroupIDs := uniquePositiveInt64s (cs_GroupIDs s) |> in
  s <| cs_Type := normalized_type s |>.

Definition hasNonPositiveInt64 (values : list Z) : bool := existsb (λ v, v <=? 0) values.

Definition scopeSelectorTypeCount (s : CurtailmentScope) : Z :=
  Z.of_nat (length (List.filter (λ b : bool, b)
    [cs_Type s == ScopeTypeWholeOrg; negb (cs_SiteID s =? 0) || some (cs_SiteIDs s);
     some (cs_BuildingIDs s); some (cs_RackIDs s); some (cs_GroupIDs s);
     some (cs_DeviceIdentifiers s)])).

Definition over {A} (max : Z) (l : list A) : bool := max <? Z.of_nat (length l).

Definition validateScopeContract (s : CurtailmentScope) : bool :=
  negb (ScopeSchemaVersionCurrent <? cs_SchemaVersion s)
  && negb (over ScopeTopologyIDsPerTypeMax (cs_SiteIDs s) || over ScopeTopologyIDsPerTypeMax (cs_BuildingIDs s)
           || over ScopeTopologyIDsPerTypeMax (cs_RackIDs s) || over ScopeTopologyIDsPerTypeMax (cs_GroupIDs s))
  && negb (over ScopeDeviceIdentifiersMax (cs_DeviceIdentifiers s))
  && negb ((cs_SiteID s <? 0) || hasNonPositiveInt64 (cs_SiteIDs s))
  && negb (hasNonPositiveInt64 (cs_BuildingIDs s)) && negb (hasNonPositiveInt64 (cs_RackIDs s))
  && negb (hasNonPositiveInt64 (cs_GroupIDs s))
  && (scopeSelectorTypeCount s =? 1)
  && negb (hasTopologySelectors s && negb (cs_SchemaVersion s =? ScopeSchemaVersionCurrent)).

Definition resolveScope (s : CurtailmentScope) : result FleetError ListCandidatesParams :=
  if negb (validateScopeContract s) then Err NewInvalidArgumentError
  else
    let s := normalizeScope s in
    if cs_Type s == ScopeTypeWholeOrg then Ok empty_filter
    else if cs_Type s == ScopeTypeSite then
      if negb (length (cs_SiteIDs s) =? 1)%nat then Err NewInvalidArgumentError
      else Ok (empty_filter <| lc_SiteIDs := cs_SiteIDs s |>)
    else if cs_Type s == ScopeTypeDeviceList then
      if negb (some (cs_DeviceIdentifiers s)) then Err NewInvalidArgumentError
      else Ok (empty_filter <| lc_DeviceIdentifiers := cs_DeviceIdentifiers s |>)
    else if cs_Type s == ScopeTypeMixed then
      if negb (some (cs_SiteIDs s)) && negb (some (cs_DeviceIdentifiers s)) then
        if some (cs_BuildingIDs s) then Ok (empty_filter <| lc_BuildingIDs := cs_BuildingIDs s |>)
        else if some (cs_RackIDs s) then Ok (empty_filter <| lc_RackIDs := cs_RackIDs s |>)
        else if some (cs_GroupIDs s) then Ok (empty_filter <| lc_GroupIDs := cs_GroupIDs s |>)
        else Err NewInvalidArgumentError
      else Ok (empty_filter <| lc_SiteIDs := cs_SiteIDs s |>
                            <| lc_DeviceIdentifiers := cs_DeviceIdentifiers s |>)
    else Err NewInvalidArgumentError.

Definition IsSiteOnlyScope (s : CurtailmentScope) : bool :=
  let s := normalizeScope s in
  some (cs_SiteIDs s) && negb (some (cs_DeviceIdentifiers s)) && negb (hasTopologySelectors s).

Definition isClosedLoopFullFleetStart (s : CurtailmentScope) (mode : string) : bool :=
  let s := normalizeScope s in
  if mode != ModeFullFleet then false
  else if hasTopologySelectors s then true
  else if (cs_Type s == ScopeTypeWholeOrg) || (cs_Type s == ScopeTypeSite) then true
  else if cs_Type s == ScopeTypeMixed then IsSiteOnlyScope s
  else false.

Definition eventStartState (s : CurtailmentScope) (mode : string) (targetCount : Z) : string :=
  if isClosedLoopFullFleetStart s mode then EventStateActive
  else if (mode == ModeFullFleet) && (targetCount =? 0) then EventStateCompleted
  else EventStatePending.

(** ** Batch sizes and the stop gate *)

Definition ComputeEffectiveBatchSize (restoreBatchSize nonTerminalCount : Z) : Z :=
  if restoreBatchSize <=? 0 then
    if nonTerminalCount <=? 0 then 0
    else if RestoreBatchSizeMax <? nonTerminalCount then RestoreBatchSizeMax
    else nonTerminalCount
  else restoreBatchSize.

(** The float64 constant 0.01 is 5764607523034235 * 2^-59. *)
Definition one_percent : float64 := S754_finite false 5764607523034235 (-59).

Definition adaptiveManualCurtailBatchSize (selectedCount : Z) : Z :=
  if selectedCount <=? 0 then 0
  else
    let base := int32 (F64.ceil_Z (F64.mul (F64.of_Z selectedCount) one_percent)) in
    if base <? 10 then 10 else if 100 <? base then 100 else base.

Definition defaultManualCurtailBatchSize (selectedCount : Z) : Z :=
  let batchSize := adaptiveManualCurtailBatchSize selectedCount in
  if batchSize <=? 0 then 10 else batchSize.

(** [checkMinCurtailedDurationGate]: may the event be stopped now? *)
Definition min_duration_elapsed (state : string) (minSec : Z) (startedAt : option Z) (force : bool)
    (now : Z) : bool :=
  force || (state != EventStateActive)
  || match startedAt with
     | None => true
     | Some started => (minSec <=? 0) || (int64 (minSec * Second) <=? time_Sub now started)
     end.

(** ** Preview *)

Record PreviewRequest := {
  pr_OrgID : Z;
  pr_Scope : CurtailmentScope;
  pr_Mode : string;
  pr_Strategy : string;
  pr_Level : string;
  pr_Priority : string;
  pr_TargetKW : float64;
  pr_ToleranceKW : float64;
  pr_IncludeMaintenance : bool;
  pr_ForceIncludeMaintenance : bool;
  pr_ForceIncludeAllPairedMiners : bool;
  pr_CandidateMinPowerWOverride : option Z;
  pr_PostEventCooldownSec : Z
}.

#[export] Instance eta_PreviewRequest : Eta PreviewRequest := λ r,
  {| pr_OrgID := pr_OrgID r; pr_Scope := pr_Scope r; pr_Mode := pr_Mode r;
     pr_Strategy := pr_Strategy r; pr_Level := pr_Level r; pr_Priority := pr_Priority r;
     pr_TargetKW := pr_TargetKW r; pr_ToleranceKW := pr_ToleranceKW r;
     pr_IncludeMaintenance := pr_IncludeMaintenance r;
     pr_ForceIncludeMaintenance := pr_ForceIncludeMaintenance r;
     pr_ForceIncludeAllPairedMiners := pr_ForceIncludeAllPairedMiners r;
     pr_CandidateMinPowerWOverride := pr_CandidateMinPowerWOverride r;
     pr_PostEventCooldownSec := pr_PostEventCooldownSec r |}.

(** The kW target of a mode that has one. *)
Definition target_valid (target tolerance : float64) : bool :=
  F64.is_finite target && F64.is_finite tolerance && negb (F64.le target F64.zero)
  && negb (F64.lt tolerance F64.zero) && negb (F64.ge tolerance target).

Definition validatePreviewRequest (req : PreviewRequest) : bool :=
  ((pr_Mode req == "") || (pr_Mode req == ModeFixedKw) || (pr_Mode req == ModeFullFleet))
  && negb (pr_ForceIncludeAllPairedMiners req && (pr_Mode req != ModeFullFleet))
  && negb (pr_ForceIncludeAllPairedMiners req
           && negb (isClosedLoopFullFleetStart (pr_Scope req) (pr_Mode req)))
  && ((pr_Level req == "") || (pr_Level req == LevelFull))
  && ((pr_Strategy req == "") || (pr_Strategy req == StrategyLeastEfficientFirst))
  && ((pr_Priority req == "") || (pr_Priority req == PriorityNormal) || (pr_Priority req == PriorityEmergency))
  && ((pr_Mode req == ModeFullFleet) || target_valid (pr_TargetKW req) (pr_ToleranceKW req))
  && match pr_CandidateMinPowerWOverride req with
     | None => true
     | Some w => (1 <=? w) && (w <=? 10000000)
     end
  && (0 <=? pr_PostEventCooldownSec req) && (pr_PostEventCooldownSec req <=? MaxPostEventCooldownSec)
  && eqb (pr_IncludeMaintenance req) (pr_ForceIncludeMaintenance req).

Definition effectivePostEventCooldownSec (req : PreviewRequest) : Z :=
  if pr_Priority req == PriorityEmergency then 0 else pr_PostEventCooldownSec req.

Class CurtailmentStore := {
  OrgCandidateMinPowerW : Z → result FleetError Z;
  ListActiveCurtailedDevices : Z → result FleetError (list string);
  ListCandidates : ListCandidatesParams → result FleetError (list MinerCandidate);
  ListRecentlyResolvedCurtailedDevices : Z → Z → list string → result FleetError (list string);
  SiteBelongsToOrg : Z → Z → result FleetError bool;
  (** [None] when the store does not implement the topology interface. *)
  ResolveCurtailmentTopologyScope : option (ListCandidatesParams → result FleetError unit)
}.

Section Preview.
Context `{CurtailmentStore}.

Fixpoint check_sites (org : Z) (sites : list Z) : result FleetError unit :=
  match sites with
  | [] => Ok tt
  | site :: rest =>
      exists_ ← SiteBelongsToOrg org site;
      if negb exists_ then Err NewNotFoundError else check_sites org rest
  end.

Definition resolveScopeForOrg (org : Z) (s : CurtailmentScope) : result FleetError ListCandidatesParams :=
  filter ← resolveScope s;
  let filter := filter <| lc_OrgID := org |> in
  if some (lc_SiteIDs filter) then
    _ ← check_sites org (lc_SiteIDs filter); Ok filter
  else if negb (some (lc_BuildingIDs filter) || some (lc_RackIDs filter) || some (lc_GroupIDs filter)) then
    Ok filter
  else match ResolveCurtailmentTopologyScope with
  | None => Err NewInternalError
  | Some resolve => _ ← resolve filter; Ok filter
  end.

Definition candidateDeviceIdentifiers (candidates : list MinerCandidate) : list string :=
  List.filter (λ id, id != "") (map mc_DeviceIdentifier candidates).

Definition missingDeviceIdentifiers (requested : list string) (candidates : list MinerCandidate)
    : list string :=
  let have := list_to_set (map mc_DeviceIdentifier candidates) : gset string in
  List.filter (λ id, negb (bool_decide (id ∈ have))) requested.

Definition validateResolvedMinerCount (count : Z) : result FleetError unit :=
  if count <=? ScopeResolvedMinerMax then Ok tt else Err NewResourceExhaustedError.

(** The gates a request opens for the miners it classifies. *)
Definition opts_of (req : PreviewRequest) (active cooldown : gset string) (minPowerW : Z) : classifyOpts :=
  {| IncludeMaintenance := pr_IncludeMaintenance req && pr_ForceIncludeMaintenance req;
     ActiveEventDevices := active; CooldownDevices := cooldown; opt_CandidateMinPowerW := minPowerW |}.

(** The plan of a request over the candidates the store returned. *)
Definition plan_candidates (req : PreviewRequest) (candidates : list MinerCandidate)
    (active cooldown : gset string) (minPowerW : Z) : result FleetError Plan :=
  let '(eligible, preFiltered, summary) :=
    classifyCandidates candidates (opts_of req active cooldown minPowerW) in
  mode ← buildMode (pr_Mode req) (pr_TargetKW req) (pr_ToleranceKW req) summary;
  Ok (BuildPlan eligible preFiltered minPowerW mode).

Definition runSelector (req : PreviewRequest) : result FleetError (Plan * Z) :=
  filter ← resolveScopeForOrg (pr_OrgID req) (pr_Scope req);
  orgMinPowerW ← OrgCandidateMinPowerW (pr_OrgID req);
  let minPowerW := default orgMinPowerW (pr_CandidateMinPowerWOverride req) in
  activeDevices ← ListActiveCurtailedDevices (pr_OrgID req);
  let active := list_to_set activeDevices : gset string in
  let filter := filter <| lc_ResultLimit := ScopeResolvedMinerMax + 1 |> in
  candidates ← ListCandidates filter;
  _ ← validateResolvedMinerCount (Z.of_nat (length candidates));
  if some (lc_DeviceIdentifiers filter)
     && some (missingDeviceIdentifiers (lc_DeviceIdentifiers filter) candidates) then Err NewNotFoundError
  else if pr_ForceIncludeAllPairedMiners req then
    Ok (BuildAllPairedPolicyPlan candidates active
          (pr_IncludeMaintenance req && pr_ForceIncludeMaintenance req), minPowerW)
  else
    cooldownDevices ←
      (if (0 <? pr_PostEventCooldownSec req) && some candidates then
         ListRecentlyResolvedCurtailedDevices (pr_OrgID req) (pr_PostEventCooldownSec req)
           (candidateDeviceIdentifiers candidates)
       else Ok []);
    plan ← plan_candidates req candidates active (list_to_set cooldownDevices) minPowerW;
    Ok (plan, minPowerW).

Definition Preview (req : PreviewRequest) : result FleetError Plan :=
  if negb (validatePreviewRequest req) then Err NewInvalidArgumentError
  else
    let req := req <| pr_PostEventCooldownSec := effectivePostEventCooldownSec req |> in
    '(plan, _) ← runSelector req;
    Ok plan.

End Preview.
