(* ===== verification/CurtailmentFacts.v ===== *)
(** * Curtailment plans are safe and complete

    Every miner of a scope is selected, left in reserve or skipped with a
    reason, and a rejection counts each skipped one; a plan takes the least
    efficient miners first; a fixed-kW plan takes only miners that are paired,
    reachable, hashing, drawing measurable power and free of other events; the
    all-paired policy owns every paired miner that no event holds. *)

From Stdlib Require Import Sorting.Sorted.
From S2P Require Import Prelude GoSort Float64 Errors RolloutBehavior CurtailmentModes.
From S2P Require Import CurtailmentSelector CurtailmentPreview.
#[local] Open Scope string_scope.
#[local] Open Scope list_scope.
#[local] Open Scope Z_scope.
#[local] Open Scope go_scope.

Lemma result_bind_ok {E A B} (m : result E A) (f : A → result E B) b :
  (m ≫= f) = Ok b → ∃ a, m = Ok a ∧ f a = Ok b.
Proof. destruct m; [eauto|done]. Qed.

(** ** The pre-filter *)

Definition admitted (opts : classifyOpts) (c : MinerCandidate) : bool := negb (is_set (skip_reason opts c)).

Definition skipped_of (opts : classifyOpts) (c : MinerCandidate) : list SkippedDevice :=
  match skip_reason opts c with
  | Some why => [{| sk_DeviceIdentifier := mc_DeviceIdentifier c; sk_Reason := why |}]
  | None => []
  end.

Definition count_of (opts : classifyOpts) (d : InsufficientLoadDetail) (c : MinerCandidate)
    : InsufficientLoadDetail :=
  match skip_reason opts c with Some why => count_skip why d | None => d end.

(** The loop as three independent passes. *)
Lemma classify_eq cands opts :
  classifyCandidates cands opts =
  (map input_of (List.filter (admitted opts) cands), flat_map (skipped_of opts) cands,
   fold_left (count_of opts) cands (empty_detail (opt_CandidateMinPowerW opts))).
Proof.
  unfold classifyCandidates. generalize (empty_detail (opt_CandidateMinPowerW opts)) as d.
  enough (∀ el sk d, fold_left (classify_one opts) cands (el, sk, d) =
    (el ++ map input_of (List.filter (admitted opts) cands), sk ++ flat_map (skipped_of opts) cands,
     fold_left (count_of opts) cands d)) as H by (intros; apply H).
  induction cands as [|c cands IH]; intros el sk d; simpl; [by rewrite !app_nil_r|].
  unfold count_of at 2, skipped_of at 1, admitted at 1. destruct (skip_reason opts c); simpl; rewrite IH.
  - by rewrite <- app_assoc.
  - by rewrite <- app_assoc.
Qed.

Lemma flat_map_skip {A} (f : A → option string) (id : A → string) (l : list A) :
  map id (List.filter (λ a, negb (is_set (f a))) l)
  ++ map sk_DeviceIdentifier (flat_map (λ a, match f a with
       | Some why => [{| sk_DeviceIdentifier := id a; sk_Reason := why |}] | None => [] end) l)
  ≡ₚ map id l.
Proof.
  induction l as [|a l IH]; simpl; [done|]. destruct (f a); simpl.
  - rewrite <- Permutation_middle. by rewrite IH.
  - by rewrite IH.
Qed.

(** ** Counters *)

(** The counter that a rejection reports for a reason. *)
Definition counter_of (why : string) (d : InsufficientLoadDetail) : Z :=
  if why == SkipBelowThreshold then ExcludedBelowThreshold d
  else if why == SkipPhantomLoadNoHash then ExcludedPhantomLoad d
  else if why == SkipPowerTelemetryUnreliable then ExcludedDeadMonitor d
  else if why == SkipStaleTelemetry then ExcludedStale d
  else if why == SkipUnreachableResidualLoad then ExcludedOffline d
  else if why == SkipUpdating then ExcludedUpdating d
  else if why == SkipRebootRequired then ExcludedRebootRequired d
  else if why == SkipMaintenance then ExcludedMaintenance d
  else if why == SkipNonActionableStatus then ExcludedNonActionable d
  else if why == SkipPairing then ExcludedPairing d
  else if why == SkipCurtailFullUnsupported then ExcludedCapabilityMiss d
  else if why == SkipCooldown then ExcludedCooldown d
  else if why == SkipActiveEvent then ExcludedActiveEvent d
  else 0.

Definition prefilter_reasons : list string :=
  [SkipActiveEvent; SkipPairing; SkipCurtailFullUnsupported; SkipStaleTelemetry; SkipUpdating;
   SkipRebootRequired; SkipUnreachableResidualLoad; SkipNonActionableStatus; SkipMaintenance; SkipCooldown].

Definition dual_reasons : list string :=
  [SkipBelowThreshold; SkipPhantomLoadNoHash; SkipPowerTelemetryUnreliable].

Definition reported (why : string) (skipped : list SkippedDevice) : Z :=
  Z.of_nat (length (List.filter (λ s, sk_Reason s == why) skipped)).

Lemma reported_app why l1 l2 : reported why (l1 ++ l2) = reported why l1 + reported why l2.
Proof. unfold reported. rewrite List.filter_app, length_app. lia. Qed.

Lemma reported_bound why l : 0 <= reported why l <= Z.of_nat (length l).
Proof. unfold reported. pose proof (List.filter_length_le (λ s, sk_Reason s == why) l). lia. Qed.

Lemma skip_reason_known opts c why : skip_reason opts c = Some why → why ∈ prefilter_reasons.
Proof.
  unfold skip_reason, status_skip. intros Hs.
  repeat match type of Hs with
  | context [if ?b then _ else _] => destruct b
  end; simpl in Hs; try done; injection Hs as <-; unfold prefilter_reasons; set_solver.
Qed.

Lemma dual_skip_known minP c why : dual_signal_skip minP c = Some why → why ∈ dual_reasons.
Proof.
  unfold dual_signal_skip. intros Hs.
  repeat match type of Hs with
  | context [if ?b then _ else _] => destruct b
  end; try done; injection Hs as <-; unfold dual_reasons; set_solver.
Qed.

(** Counting a reason moves its own counter and no other. *)
Lemma count_skip_counter why why' d :
  why ∈ prefilter_reasons →
  why' ∈ prefilter_reasons ++ dual_reasons →
  counter_of why' (count_skip why d) =
    if why == why' then int32 (counter_of why' d + 1) else counter_of why' d.
Proof.
  intros Hw Hw'. unfold prefilter_reasons in Hw.
  repeat (apply elem_of_cons in Hw as [->|Hw];
    [repeat (apply elem_of_cons in Hw' as [->|Hw']; [reflexivity|]); by apply elem_of_nil in Hw'|]).
  by apply elem_of_nil in Hw.
Qed.

Lemma classify_counts opts cands d why :
  why ∈ prefilter_reasons ++ dual_reasons →
  0 <= counter_of why d → counter_of why d + Z.of_nat (length cands) < 2 ^ 31 →
  counter_of why (fold_left (count_of opts) cands d)
    = counter_of why d + reported why (flat_map (skipped_of opts) cands).
Proof.
  intros Hw. revert d. induction cands as [|c cands IH]; intros d H0 Hn; simpl length in *; simpl.
  { unfold reported. simpl. lia. }
  rewrite reported_app. unfold count_of at 2, skipped_of at 1.
  destruct (skip_reason opts c) as [w|] eqn:E; [|rewrite IH by lia; unfold reported; simpl; lia].
  pose proof (count_skip_counter w why d (skip_reason_known _ _ _ E) Hw) as Hc.
  unfold reported at 1. simpl. case_bool_decide; simpl.
  - rewrite int32_id in Hc by (unfold fits32; lia). rewrite IH by lia. lia.
  - rewrite IH by lia. lia.
Qed.

Lemma dual_count_acc why minP inputs n :
  0 <= n → n + Z.of_nat (length inputs) < 2 ^ 31 →
  fold_left (λ n c, if bool_decide (dual_signal_skip minP c = Some why) then int32 (n + 1) else n) inputs n
  = n + reported why (flat_map (dual_skipped minP) inputs).
Proof.
  revert n. induction inputs as [|c inputs IH]; intros n H0 Hn; simpl length in *; simpl.
  { unfold reported. simpl. lia. }
  rewrite reported_app. unfold dual_skipped at 1, reported at 1.
  destruct (dual_signal_skip minP c) as [w|]; simpl.
  - destruct (decide (w = why)) as [->|].
    + rewrite !bool_decide_true by done. rewrite int32_id by (unfold fits32; lia).
      rewrite IH by lia. simpl. lia.
    + rewrite !bool_decide_false by congruence. rewrite IH by lia. simpl. lia.
  - rewrite IH by lia. simpl. lia.
Qed.

Lemma dual_count_reported why minP inputs :
  Z.of_nat (length inputs) < 2 ^ 31 →
  dual_signal_count why minP inputs = reported why (flat_map (dual_skipped minP) inputs).
Proof. intros Hn. unfold dual_signal_count. rewrite dual_count_acc; lia. Qed.

(** ** The order of a plan *)

(** Sorting images is sorting their origins by the images. *)
Lemma stable_sort_map {A B} (f : A → B) (less : B → B → bool) (l : list A) :
  stable_sort less (map f l) = map f (stable_sort (λ a b, less (f a) (f b)) l).
Proof.
  unfold stable_sort. rewrite map_rev. f_equal.
  enough (∀ prefix, fold_left (λ p x, insert_left less x p) (map f l) (map f prefix)
    = map f (fold_left (λ p x, insert_left (λ a b, less (f a) (f b)) x p) l prefix)) as H by apply (H []).
  induction l as [|a l IH]; intros prefix; simpl; [done|]. rewrite <- IH. f_equal.
  induction prefix as [|b prefix IHp]; simpl; [done|]. destruct (less _ _); simpl; [by rewrite IHp|done].
Qed.

(** Does this request's mode read both telemetry signals? *)
Definition dual (req : PreviewRequest) : bool := pr_Mode req != ModeFullFleet.

(** The reason a request skips a candidate with, over both passes. *)
Definition plan_skip (req : PreviewRequest) (opts : classifyOpts) (c : MinerCandidate) : option string :=
  match skip_reason opts c with
  | Some why => Some why
  | None => if dual req then dual_signal_skip (opt_CandidateMinPowerW opts) (input_of c) else None
  end.

Definition curtailable (req : PreviewRequest) (opts : classifyOpts) (cands : list MinerCandidate)
    : list MinerCandidate :=
  List.filter (λ c, negb (is_set (plan_skip req opts c))) cands.

(** The least efficient of two miners goes first; one of unknown efficiency goes
    last. *)
Definition goes_before (a b : MinerCandidate) : bool := worse (input_of a) (input_of b).

Definition plan_order (req : PreviewRequest) (opts : classifyOpts) (cands : list MinerCandidate)
    : list MinerCandidate := stable_sort goes_before (curtailable req opts cands).

Definition finite_ci (c : CandidateInput) : Prop :=
  match ci_AvgEfficiencyJH c with None => True | Some x => F64.is_nan x = false end.

Lemma input_of_finite c : finite_ci (input_of c).
Proof.
  unfold finite_ci. simpl. unfold finite_efficiency.
  destruct (isFiniteFloat _) eqn:E; [|done]. destruct (mc_AvgEfficiencyJH c); [|done]. simpl in E.
  by crush_bools.
Qed.

Lemma worse_strict_weak : strict_weak_on worse finite_ci.
Proof.
  unfold worse, finite_ci, F64.gt. split.
  - intros x y. destruct (ci_AvgEfficiencyJH x), (ci_AvgEfficiencyJH y); try done.
    intros Hx Hy. by apply f64_lt_asym.
  - intros x y z. destruct (ci_AvgEfficiencyJH x), (ci_AvgEfficiencyJH y), (ci_AvgEfficiencyJH z); try done.
    intros Hx Hy Hz H1 H2. by eapply (f64_lt_negtrans _ _ _ Hz Hy Hx).
Qed.

Lemma goes_before_strict_weak : strict_weak_on goes_before (λ c, finite_ci (input_of c)).
Proof. apply (strict_weak_pull input_of worse finite_ci), worse_strict_weak. Qed.

Lemma plan_order_sorted req opts cands :
  StronglySorted (λ a b, goes_before b a = false) (plan_order req opts cands).
Proof.
  apply (stable_sort_sorted goes_before _ goes_before_strict_weak).
  apply Forall_forall. intros c _. apply input_of_finite.
Qed.

Lemma plan_order_perm req opts cands : plan_order req opts cands ≡ₚ curtailable req opts cands.
Proof. apply stable_sort_perm. Qed.

(** ** A plan over its candidates *)

Lemma FixedKw_Select_shape m ranked :
  ∃ n, ResSelected (FixedKw_Select m ranked) = take n ranked
    ∧ match InsufficientDetail (FixedKw_Select m ranked) with
      | Some d => ResOutcome (FixedKw_Select m ranked) = OutcomeInsufficientLoad ∧ n = 0%nat
          ∧ d = (fk_ExclusionSummary m) <| AvailableKW := F64.div (sum_power F64.zero ranked) wPerKW |>
              <| RequestedKW := fk_TargetKW m |> <| ToleranceKW := fk_ToleranceKW m |>
      | None => ResOutcome (FixedKw_Select m ranked) ≠ OutcomeInsufficientLoad
      end.
Proof.
  unfold FixedKw_Select.
  pose proof (accumulate_spec (F64.mul (fk_TargetKW m) wPerKW) [] ranked) as Ha.
  change (sum_power F64.zero []) with F64.zero in Ha.
  destruct (accumulate _ _ _ ranked) as [[selected totalW]|totalW].
  - destruct Ha as (n & _ & -> & _). exists n. done.
  - destruct Ha as [-> _]. simpl. destruct (_ && _); simpl.
    + exists (length ranked). by rewrite firstn_all.
    + exists 0%nat. done.
Qed.

(** The two passes of the filter as one. *)
Lemma eligible_eq req opts cands :
  (if dual req
   then List.filter (λ c, negb (is_set (dual_signal_skip (opt_CandidateMinPowerW opts) c)))
     (map input_of (List.filter (admitted opts) cands))
   else map input_of (List.filter (admitted opts) cands))
  = map input_of (curtailable req opts cands).
Proof.
  unfold curtailable, plan_skip, admitted. destruct (dual req).
  - induction cands as [|c cands IH]; simpl; [done|].
    destruct (skip_reason opts c); simpl; [done|]. destruct (is_set _); simpl; [done|]. by rewrite IH.
  - f_equal. apply List.filter_ext. intros c. by destruct (skip_reason opts c).
Qed.

Definition dual_pass (req : PreviewRequest) (opts : classifyOpts) (cands : list MinerCandidate)
    : list SkippedDevice :=
  if dual req then flat_map (dual_skipped (opt_CandidateMinPowerW opts))
    (map input_of (List.filter (admitted opts) cands)) else [].

Definition ranked_candidate (c : MinerCandidate) : Candidate := ranked_of (input_of c).

(** Identity, power and efficiency of a miner, as a selected device shows them. *)
Definition shown (s : SelectedDevice) : string * float64 * float64 :=
  (sd_DeviceIdentifier s, sd_PowerW s, sd_EfficiencyJH s).
Definition shows (c : MinerCandidate) : string * float64 * float64 :=
  (mc_DeviceIdentifier c, derefFloat (mc_LatestPowerW c), derefFloat (finite_efficiency c)).

Lemma BuildPlan_eq req opts cands mode :
  RequiresDualSignalTelemetry mode = dual req →
  let plan := BuildPlan (map input_of (List.filter (admitted opts) cands)) (flat_map (skipped_of opts) cands)
    (opt_CandidateMinPowerW opts) mode in
  let res := Select mode (map ranked_candidate (plan_order req opts cands)) in
  map shown (pn_Selected plan)
    = map (λ c, (DeviceIdentifier c, PowerW c, EfficiencyJH c)) (ResSelected res)
  ∧ pn_Skipped plan = flat_map (skipped_of opts) cands ++ dual_pass req opts cands
  ∧ pn_Outcome plan = ResOutcome res
  ∧ pn_InsufficientLoadDetail plan = (λ d, d
      <| ExcludedBelowThreshold := int32 (ExcludedBelowThreshold d
          + if dual req then dual_signal_count SkipBelowThreshold (opt_CandidateMinPowerW opts)
              (map input_of (List.filter (admitted opts) cands)) else 0) |>
      <| ExcludedPhantomLoad := int32 (ExcludedPhantomLoad d
          + if dual req then dual_signal_count SkipPhantomLoadNoHash (opt_CandidateMinPowerW opts)
              (map input_of (List.filter (admitted opts) cands)) else 0) |>
      <| ExcludedDeadMonitor := int32 (ExcludedDeadMonitor d
          + if dual req then dual_signal_count SkipPowerTelemetryUnreliable (opt_CandidateMinPowerW opts)
              (map input_of (List.filter (admitted opts) cands)) else 0) |>)
      <$> InsufficientDetail res
  ∧ pn_EstimatedReductionKW plan = F64.div (RealizedReductionW res) wPerKW.
Proof.
  intros Hd. unfold BuildPlan. rewrite Hd, eligible_eq, stable_sort_map.
  change (λ a b : MinerCandidate, worse (input_of a) (input_of b)) with goes_before.
  rewrite map_map. fold ranked_candidate (plan_order req opts cands). cbn. rewrite map_map. done.
Qed.

Lemma plan_candidates_shape req cands active cooldown minP plan :
  plan_candidates req cands active cooldown minP = Ok plan →
  let opts := opts_of req active cooldown minP in
  ∃ n, map shown (pn_Selected plan) = map shows (take n (plan_order req opts cands))
    ∧ pn_Skipped plan = flat_map (skipped_of opts) cands ++ dual_pass req opts cands
    ∧ (dual req = false → n = length (plan_order req opts cands))
    ∧ (pn_Outcome plan = OutcomeInsufficientLoad → n = 0%nat ∧ dual req = true).
Proof.
  cbv zeta. unfold plan_candidates. rewrite classify_eq. intros Hp.
  set (opts := opts_of req active cooldown minP) in *.
  destruct (buildMode _ _ _ _) as [mode|] eqn:Hm; [|done]. injection Hp as <-.
  unfold buildMode in Hm.
  assert (∀ n, map (λ c, (DeviceIdentifier c, PowerW c, EfficiencyJH c))
    (take n (map ranked_candidate (plan_order req opts cands)))
    = map shows (take n (plan_order req opts cands))) as Hshow.
  { intros n. rewrite firstn_map, map_map. done. }
  destruct (pr_Mode req == ModeFullFleet) eqn:Hff.
  - assert (dual req = false) as Hd by (unfold dual; by rewrite Hff). injection Hm as <-.
    destruct (BuildPlan_eq req opts cands full_fleet_mode (eq_sym Hd)) as (Hs & Hk & Ho & _).
    exists (length (plan_order req opts cands)). rewrite <- Hshow.
    rewrite <- (length_map ranked_candidate), firstn_all. split_and!; [exact Hs|exact Hk|done|].
    done.
  - assert (dual req = true) as Hd by (unfold dual; by rewrite Hff).
    destruct (NewFixedKw _ _ _) as [m|]; [|done]. injection Hm as <-.
    destruct (BuildPlan_eq req opts cands (fixed_kw_mode m) (eq_sym Hd)) as (Hs & Hk & Ho & _).
    destruct (FixedKw_Select_shape m (map ranked_candidate (plan_order req opts cands))) as (n & Hn & Hi).
    exists n. rewrite <- Hshow. split_and!; [|exact Hk|by rewrite Hd|].
    + etrans; [exact Hs|]. simpl. by rewrite Hn.
    + intros Hout. split; [|done]. assert (Ho' := eq_trans (eq_sym Ho) Hout). simpl in Ho'.
      destruct (InsufficientDetail _); [by destruct Hi as (_ & -> & _)|done].
Qed.

Lemma curtailable_admitted req opts cands :
  curtailable req opts cands = List.filter (λ c, negb (is_set (if dual req
    then dual_signal_skip (opt_CandidateMinPowerW opts) (input_of c) else None)))
    (List.filter (admitted opts) cands).
Proof.
  unfold curtailable, plan_skip, admitted. induction cands as [|c cands IH]; simpl; [done|].
  destruct (skip_reason opts c); simpl; [done|]. by rewrite IH.
Qed.

(** Selected, left in reserve and skipped miners are the candidates. *)
Lemma plan_partition req opts cands n :
  map mc_DeviceIdentifier (take n (plan_order req opts cands))
  ++ map mc_DeviceIdentifier (drop n (plan_order req opts cands))
  ++ map sk_DeviceIdentifier (flat_map (skipped_of opts) cands ++ dual_pass req opts cands)
  ≡ₚ map mc_DeviceIdentifier cands.
Proof.
  rewrite app_assoc, <- map_app, take_drop, plan_order_perm, curtailable_admitted, map_app.
  rewrite (Permutation_app_comm (map _ (flat_map _ _))), app_assoc.
  rewrite <- (flat_map_skip (skip_reason opts) mc_DeviceIdentifier cands). apply Permutation_app; [|done].
  rewrite <- (flat_map_skip (λ c, if dual req
    then dual_signal_skip (opt_CandidateMinPowerW opts) (input_of c) else None) mc_DeviceIdentifier
    (List.filter (admitted opts) cands)).
  apply Permutation_app; [done|]. unfold dual_pass. destruct (dual req).
  - rewrite flat_map_concat_map, map_map, <- flat_map_concat_map. done.
  - by induction (List.filter _ _).
Qed.

(** ** The counters of a rejection *)

Lemma dual_reported_0 why minP inputs :
  why ∈ prefilter_reasons → reported why (flat_map (dual_skipped minP) inputs) = 0.
Proof.
  intros Hw. induction inputs as [|c l IH]; simpl; [done|]. rewrite reported_app, IH.
  unfold dual_skipped. destruct (dual_signal_skip minP c) as [w|] eqn:E; [|done].
  apply dual_skip_known in E. unfold reported. simpl. rewrite bool_decide_false; [done|]. intros ->.
  unfold dual_reasons in E.
  repeat (apply elem_of_cons in E as [->|E]; [rewrite <- (bool_decide_eq_true (_ ∈ prefilter_reasons)) in Hw; by vm_compute in Hw|]).
  by apply elem_of_nil in E.
Qed.

Lemma at_most_one {A B} (f : A → list B) (l : list A) :
  (∀ a, (length (f a) <= 1)%nat) → (length (flat_map f l) <= length l)%nat.
Proof.
  intros Hf. induction l as [|a l IH]; simpl; [done|]. rewrite length_app. specialize (Hf a). lia.
Qed.

Lemma skipped_of_one opts c : (length (skipped_of opts c) <= 1)%nat.
Proof. unfold skipped_of. destruct (skip_reason opts c); simpl; lia. Qed.

Lemma dual_skipped_one minP c : (length (dual_skipped minP c) <= 1)%nat.
Proof. unfold dual_skipped. destruct (dual_signal_skip minP c); simpl; lia. Qed.

Lemma rejection_counters req cands active cooldown minP plan :
  plan_candidates req cands active cooldown minP = Ok plan →
  pn_Outcome plan = OutcomeInsufficientLoad → Z.of_nat (length cands) < 2 ^ 30 →
  ∃ d, pn_InsufficientLoadDetail plan = Some d
    ∧ AvailableKW d = F64.div (sum_power F64.zero
        (map ranked_candidate (plan_order req (opts_of req active cooldown minP) cands))) wPerKW
    ∧ RequestedKW d = pr_TargetKW req ∧ ToleranceKW d = pr_ToleranceKW req
    ∧ ∀ why, why ∈ prefilter_reasons ++ dual_reasons → counter_of why d = reported why (pn_Skipped plan).
Proof.
  unfold plan_candidates. rewrite classify_eq. intros Hp Hout Hn.
  set (opts := opts_of req active cooldown minP) in *.
  change minP with (opt_CandidateMinPowerW opts) in Hp.
  apply result_bind_ok in Hp as (mode & Hm & [= <-]).
  unfold buildMode in Hm.
  destruct (pr_Mode req == ModeFullFleet) eqn:Hff; [by injection Hm as <-|].
  assert (dual req = true) as Hd by (unfold dual; by rewrite Hff).
  unfold NewFixedKw in Hm. destruct (F64.le _ _); [done|]. destruct (F64.lt _ _); [done|].
  injection Hm as <-. set (m := Build_FixedKw _ _ _) in *.
  destruct (BuildPlan_eq req opts cands (fixed_kw_mode m) (eq_sym Hd)) as (_ & Hk & Ho & Hi & _).
  destruct (FixedKw_Select_shape m (map ranked_candidate (plan_order req opts cands))) as (n & _ & Hr).
  assert (Ho' := eq_trans (eq_sym Ho) Hout). cbn [Select fixed_kw_mode] in Ho', Hi.
  destruct (InsufficientDetail _) as [d|]; [|done]. destruct Hr as (_ & _ & ->).
  eexists. split; [exact Hi|]. split_and!; [done..|]. intros why Hwhy.
  etrans; [|apply (f_equal (reported why)); symmetry; exact Hk]. rewrite reported_app.
  unfold dual_pass. rewrite Hd.
  set (inputs := map input_of (List.filter (admitted opts) cands)).
  assert (Z.of_nat (length inputs) <= Z.of_nat (length cands)) as Hlen.
  { unfold inputs. rewrite length_map. pose proof (List.filter_length_le (admitted opts) cands). lia. }
  pose proof (at_most_one (skipped_of opts) cands (skipped_of_one opts)) as Hsk.
  pose proof (at_most_one _ inputs (dual_skipped_one (opt_CandidateMinPowerW opts))) as Hds.
  rewrite <- dual_count_reported by lia.
  pose proof (classify_counts opts cands (empty_detail (opt_CandidateMinPowerW opts)) why Hwhy) as Hc.
  assert (counter_of why (empty_detail (opt_CandidateMinPowerW opts)) = 0) as H0.
  { unfold counter_of. repeat case_if; done. }
  rewrite H0 in Hc. specialize (Hc ltac:(done) ltac:(lia)). rewrite Z.add_0_l in Hc.
  pose proof (reported_bound why (flat_map (skipped_of opts) cands)) as Hb1.
  pose proof (reported_bound why (flat_map (dual_skipped (opt_CandidateMinPowerW opts)) inputs)) as Hb2.
  rewrite <- dual_count_reported in Hb2 by lia.
  apply elem_of_app in Hwhy as [Hw|Hw].
  - rewrite (dual_count_reported why), (dual_reported_0 why) by (done || lia). rewrite <- Hc, Z.add_0_r.
    unfold prefilter_reasons in Hw.
    repeat (apply elem_of_cons in Hw as [->|Hw]; [reflexivity|]). by apply elem_of_nil in Hw.
  - rewrite <- Hc in *. clear Hc H0 Hk Hi Ho Hout Ho'. etrans; [|apply int32_id; unfold fits32; lia].
    unfold dual_reasons in Hw.
    repeat (apply elem_of_cons in Hw as [->|Hw]; [reflexivity|]). by apply elem_of_nil in Hw.
Qed.

(** ** The all-paired policy *)

(** Does the policy own this miner? *)
Definition policy_owns (active : gset string) (c : MinerCandidate) : bool :=
  negb (bool_decide (mc_DeviceIdentifier c ∈ active)) && IsAllPairedPolicyPairingStatus (mc_PairingStatus c).

Definition policy_skipped (active : gset string) (c : MinerCandidate) : list SkippedDevice :=
  if policy_owns active c then []
  else [{| sk_DeviceIdentifier := mc_DeviceIdentifier c;
           sk_Reason := if bool_decide (mc_DeviceIdentifier c ∈ active) then SkipActiveEvent
                        else SkipPairing |}].

(** The target the policy makes of a miner it owns. *)
Definition policy_target (maint : bool) (c : MinerCandidate) : SelectedDevice :=
  let '(state, why) := AllPairedPolicyTargetState c maint in
  {| sd_DeviceIdentifier := mc_DeviceIdentifier c;
     sd_PowerW := if (state != TargetStateUnavailable) && hasNonNegativeFiniteFloat (mc_LatestPowerW c)
                  then derefFloat (mc_LatestPowerW c) else F64.zero;
     sd_HashRateHS := statusAuthoritativeHashRateHS c;
     sd_EfficiencyJH := derefFloat (finite_efficiency c);
     sd_TargetState := state; sd_LastError := why |}.

Definition is_unavailable (s : SelectedDevice) : bool := sd_TargetState s == TargetStateUnavailable.

Lemma policy_one_fields active maint acc c :
  let new := if policy_owns active c then [policy_target maint c] else [] in
  pa_selected (policy_one active maint acc c) = pa_selected acc ++ new
  ∧ pa_skipped (policy_one active maint acc c) = pa_skipped acc ++ policy_skipped active c
  ∧ pa_unavailable (policy_one active maint acc c)
    = pa_unavailable acc + Z.of_nat (length (List.filter is_unavailable new)).
Proof.
  unfold policy_skipped, policy_one, policy_owns.
  destruct (bool_decide _); [simpl; rewrite app_nil_r; split_and!; [done..|lia]|]. simpl.
  destruct (IsAllPairedPolicyPairingStatus _); [|simpl; rewrite app_nil_r; split_and!; [done..|lia]].
  unfold policy_target. destruct (AllPairedPolicyTargetState c maint) as [st why]. simpl.
  rewrite app_nil_r. split_and!; [done..|]. unfold is_unavailable. simpl. destruct (_ == _); simpl; lia.
Qed.

Lemma policy_eq cands active maint :
  let plan := BuildAllPairedPolicyPlan cands active maint in
  pn_Selected plan = map (policy_target maint) (List.filter (policy_owns active) cands)
  ∧ pn_Skipped plan = flat_map (policy_skipped active) cands
  ∧ pn_UnavailableTargetCount plan = Z.of_nat (length (List.filter is_unavailable (pn_Selected plan))).
Proof.
  unfold BuildAllPairedPolicyPlan. cbv zeta. cbn [pn_Selected pn_Skipped pn_UnavailableTargetCount].
  enough (∀ acc, let r := fold_left (policy_one active maint) cands acc in
    let new := map (policy_target maint) (List.filter (policy_owns active) cands) in
    pa_selected r = pa_selected acc ++ new
    ∧ pa_skipped r = pa_skipped acc ++ flat_map (policy_skipped active) cands
    ∧ pa_unavailable r = pa_unavailable acc + Z.of_nat (length (List.filter is_unavailable new))) as Hg.
  { specialize (Hg {| pa_selected := []; pa_skipped := []; pa_reductionW := F64.zero; pa_unavailable := 0 |}).
    destruct Hg as (-> & -> & ->). done. }
  cbv zeta. induction cands as [|c cands IH]; intros acc; simpl.
  { rewrite !app_nil_r. split_and!; [done..|lia]. }
  destruct (IH (policy_one active maint acc c)) as (-> & -> & ->). clear IH.
  destruct (policy_one_fields active maint acc c) as (-> & -> & ->). rewrite <- !app_assoc.
  destruct (policy_owns active c); simpl; split_and!; try done; [|lia].
  destruct (is_unavailable (policy_target maint c)); simpl; lia.
Qed.

Lemma policy_partition cands active maint :
  let plan := BuildAllPairedPolicyPlan cands active maint in
  map sd_DeviceIdentifier (pn_Selected plan) ++ [] ++ map sk_DeviceIdentifier (pn_Skipped plan)
  ≡ₚ map mc_DeviceIdentifier cands.
Proof.
  cbv zeta. destruct (policy_eq cands active maint) as (-> & -> & _). rewrite map_map. simpl.
  induction cands as [|c cands IH]; simpl; [done|]. unfold policy_skipped at 1.
  destruct (policy_owns active c); simpl.
  - unfold policy_target at 1. destruct (AllPairedPolicyTargetState c maint). simpl. by rewrite IH.
  - rewrite <- Permutation_middle. by rewrite IH.
Qed.
