(* ===== verification/CurtailmentPlanFacts.v ===== *)
(** * What a curtailment preview promises

    Theorems of [Preview] over whatever the store returned: the scope is the one
    that was asked for, every miner of it is accounted for, a fixed-kW plan
    selects only miners that may be curtailed, the least efficient first, a
    rejection counts every exclusion, and the all-paired policy owns every paired
    miner. *)

From Stdlib Require Import Sorting.Sorted SpecFloat.
From S2P Require Import Prelude GoSort Float64 Errors RolloutBehavior CurtailmentModes.
From S2P Require Import CurtailmentSelector CurtailmentPreview CurtailmentFacts.
#[local] Open Scope string_scope.
#[local] Open Scope list_scope.
#[local] Open Scope Z_scope.
#[local] Open Scope go_scope.

(** What the store told a preview: the scope's filter, the candidates, the miners
    of active events, the miners in cooldown and the power floor. *)
Record Reads := {
  rd_filter : ListCandidatesParams;
  rd_candidates : list MinerCandidate;
  rd_active : list string;
  rd_cooldown : list string;
  rd_minPowerW : Z
}.

Definition rd_opts (req : PreviewRequest) (rd : Reads) : classifyOpts :=
  opts_of req (list_to_set (rd_active rd)) (list_to_set (rd_cooldown rd)) (rd_minPowerW rd).

Lemma shown_ids sel cands :
  map shown sel = map shows cands → map sd_DeviceIdentifier sel = map mc_DeviceIdentifier cands.
Proof. intros Hs. apply (f_equal (map (λ x, x.1.1))) in Hs. by rewrite !map_map in Hs. Qed.

(** A miner a fixed-kW plan may take: no event holds it and it is not cooling
    down, it is paired and has a driver, its status is one that takes commands,
    and fresh telemetry says that it draws at least the floor and hashes. *)
Definition may_curtail (req : PreviewRequest) (rd : Reads) (c : MinerCandidate) : Prop :=
  (mc_DeviceIdentifier c ∉ rd_active rd) ∧ (mc_DeviceIdentifier c ∉ rd_cooldown rd)
  ∧ mc_PairingStatus c = "PAIRED" ∧ (∃ driver, mc_DriverName c = Some driver ∧ driver ≠ "")
  ∧ (mc_DeviceStatus c ∉ [""; "UPDATING"; "REBOOT_REQUIRED"; "OFFLINE"; "INACTIVE"; "NEEDS_MINING_POOL"])
  ∧ (mc_DeviceStatus c = "MAINTENANCE" → pr_ForceIncludeMaintenance req = true)
  ∧ mc_LatestMetricsAt c ≠ None
  ∧ ∃ p h, mc_LatestPowerW c = Some p ∧ mc_LatestHashRateHS c = Some h
      ∧ F64.is_finite p = true ∧ F64.is_finite h = true
      ∧ F64.lt p (F64.of_Z (rd_minPowerW rd)) = false ∧ F64.gt h F64.zero = true.

Lemma has_sample p : hasNonNegativeFiniteFloat p = true → ∃ x, p = Some x ∧ F64.is_finite x = true.
Proof.
  destruct p as [x|]; [|done]. simpl. intros Hf. exists x. split; [done|].
  unfold F64.is_finite. by apply andb_prop in Hf as [? _].
Qed.

Lemma no_driver_false c : no_driver c = false → ∃ driver, mc_DriverName c = Some driver ∧ driver ≠ "".
Proof. unfold no_driver. destruct (mc_DriverName c); [|done]. intros Hd. crush_bools. eauto. Qed.

Lemma dual_none minP c :
  dual_signal_skip minP c = None →
  F64.lt (ci_PowerW c) (F64.of_Z minP) = false ∧ F64.le (ci_HashRateHS c) F64.zero = false.
Proof.
  unfold dual_signal_skip. destruct (F64.lt _ _), (F64.le _ _); simpl; done.
Qed.

(** A miner whose reported hash rate is not at most zero really hashes. *)
Lemma hashing_authoritative c :
  F64.le (statusAuthoritativeHashRateHS c) F64.zero = false →
  mc_DeviceStatus c ≠ "NEEDS_MINING_POOL"
  ∧ ∃ h, mc_LatestHashRateHS c = Some h ∧ F64.is_finite h = true ∧ F64.gt h F64.zero = true.
Proof.
  unfold statusAuthoritativeHashRateHS. intros Hle.
  destruct (_ == deviceStatusNeedsMiningPool) eqn:Hs; [done|]. split; [by crush_bools|].
  destruct (hasNonNegativeFiniteFloat _) eqn:Hh; [|done].
  apply has_sample in Hh as (h & Hh & Hf). exists h. rewrite Hh in *. split_and!; [done..|].
  simpl in Hle. unfold F64.gt. rewrite f64_le_negb_lt in Hle; [by apply negb_false_iff in Hle| |done].
  unfold F64.is_finite in Hf. crush_bools. done.
Qed.

Lemma status_skip_none opts c :
  status_skip opts c = None →
  (mc_DeviceStatus c ∉ [""; "UPDATING"; "REBOOT_REQUIRED"; "OFFLINE"; "INACTIVE"])
  ∧ (mc_DeviceStatus c = "MAINTENANCE" → IncludeMaintenance opts = true).
Proof.
  unfold status_skip. intros Hs.
  repeat match type of Hs with
  | context [if ?b then _ else _] => let E := fresh "E" in destruct b eqn:E; [try done|]; crush_bools
  end; (split; [set_solver|]); try done; try congruence.
Qed.

Lemma plan_skip_none req rd c :
  dual req = true → plan_skip req (rd_opts req rd) c = None → may_curtail req rd c.
Proof.
  intros Hd. unfold plan_skip. rewrite Hd. destruct (skip_reason _ c) eqn:Hs; [done|]. intros Hdual.
  apply dual_none in Hdual as [Hp Hh]. simpl in Hp, Hh. apply hashing_authoritative in Hh as (Hn & h & Hh).
  unfold skip_reason in Hs.
  destruct (bool_decide (_ ∈ ActiveEventDevices _)) eqn:Ha; [done|].
  destruct (mc_PairingStatus c != "PAIRED") eqn:Hpair; [done|].
  destruct (no_driver c) eqn:Hdr; [done|]. destruct (status_skip _ c) eqn:Hst; [done|].
  destruct (is_set _) eqn:Hm in Hs; [|done]. destruct (hasNonNegativeFiniteFloat (mc_LatestPowerW c)) eqn:Hpw; [|done].
  simpl in Hs. destruct (_ && _); [done|].
  destruct (bool_decide _) eqn:Hc in Hs; [done|]. crush_bools.
  apply status_skip_none in Hst as [Hst Hmt]. apply has_sample in Hpw as (p & Hpe & Hpf).
  simpl in Ha, Hc, Hmt. rewrite elem_of_list_to_set in Ha, Hc. rewrite Hpe in Hp.
  unfold may_curtail. split_and!; auto using no_driver_false.
  - set_solver.
  - intros Hmaint. apply Hmt in Hmaint. by crush_bools.
  - by destruct (mc_LatestMetricsAt c).
  - exists p, h. naive_solver.
Qed.

(** A miner the policy sends commands to at once. *)
Definition may_command (maint : bool) (c : MinerCandidate) : Prop :=
  (mc_PairingStatus c = "PAIRED" ∨ mc_PairingStatus c = "DEFAULT_PASSWORD")
  ∧ (∃ driver, mc_DriverName c = Some driver ∧ driver ≠ "")
  ∧ (mc_DeviceStatus c ∉ [""; "OFFLINE"; "UPDATING"; "REBOOT_REQUIRED"; "INACTIVE"; "ERROR"; "UNKNOWN"])
  ∧ (mc_DeviceStatus c = "MAINTENANCE" → maint = true)
  ∧ (mc_DeviceStatus c = "NEEDS_MINING_POOL" → hasPositivePowerSample c = true).

Lemma policy_state_spec c maint :
  IsAllPairedPolicyPairingStatus (mc_PairingStatus c) = true →
  match AllPairedPolicyTargetState c maint with
  | (state, why) =>
      (state = TargetStateUnavailable ∧ why ≠ "")
      ∨ (state = TargetStatePending ∧ why = "" ∧ may_command maint c)
  end.
Proof.
  unfold IsAllPairedPolicyPairingStatus, AllPairedPolicyTargetState, unavailable, may_command. intros Hp.
  assert (mc_PairingStatus c ≠ "AUTHENTICATION_NEEDED" →
    mc_PairingStatus c = "PAIRED" ∨ mc_PairingStatus c = "DEFAULT_PASSWORD") as Hp'.
  { intros Hn. repeat (apply orb_true_iff in Hp as [Hp|Hp]; crush_bools); auto. by crush_bools. }
  clear Hp. repeat (case_if; [left; done|]).
  pose proof (no_driver_false c ltac:(done)) as Hd. specialize (Hp' ltac:(done)).
  repeat case_if; try (left; done); right; (split_and!; [done|done|done|done|set_solver|..]);
    try done; try congruence.
  intros Hm. by rewrite Hm in E5.
Qed.

Lemma policy_target_spec c maint :
  IsAllPairedPolicyPairingStatus (mc_PairingStatus c) = true →
  if is_unavailable (policy_target maint c)
  then sd_LastError (policy_target maint c) ≠ "" ∧ sd_PowerW (policy_target maint c) = F64.zero
  else sd_TargetState (policy_target maint c) = TargetStatePending
    ∧ sd_LastError (policy_target maint c) = "" ∧ may_command maint c.
Proof.
  intros Hp. pose proof (policy_state_spec c maint Hp) as Hs. unfold policy_target, is_unavailable.
  destruct (AllPairedPolicyTargetState c maint) as [st why]. simpl.
  destruct Hs as [[-> Hw]|(-> & -> & Hm)]; simpl; done.
Qed.

Lemma skipped_reasons_known req opts cands :
  Forall (λ s, sk_Reason s ∈ prefilter_reasons ++ dual_reasons)
    (flat_map (skipped_of opts) cands ++ dual_pass req opts cands).
Proof.
  apply Forall_app. split.
  - apply Forall_flat_map, Forall_forall. intros c _. unfold skipped_of.
    destruct (skip_reason opts c) eqn:E; [|done]. apply skip_reason_known in E. constructor; [|done].
    apply elem_of_app. by left.
  - unfold dual_pass. destruct (dual req); [|done]. apply Forall_flat_map, Forall_forall. intros c _.
    unfold dual_skipped. destruct (dual_signal_skip _ c) eqn:E; [|done]. apply dual_skip_known in E.
    constructor; [|done]. apply elem_of_app. by right.
Qed.

Section Theorems.
Context `{CurtailmentStore}.

(** [rd] is what the store answered to the queries of this preview. *)
Definition answered (req : PreviewRequest) (rd : Reads) : Prop :=
  resolveScopeForOrg (pr_OrgID req) (pr_Scope req) = Ok (rd_filter rd)
  ∧ ListCandidates ((rd_filter rd) <| lc_ResultLimit := ScopeResolvedMinerMax + 1 |>) = Ok (rd_candidates rd)
  ∧ ListActiveCurtailedDevices (pr_OrgID req) = Ok (rd_active rd)
  ∧ match pr_CandidateMinPowerWOverride req with
    | Some w => rd_minPowerW rd = w
    | None => OrgCandidateMinPowerW (pr_OrgID req) = Ok (rd_minPowerW rd)
    end
  ∧ (if pr_ForceIncludeAllPairedMiners req then rd_cooldown rd = []
     else if (0 <? effectivePostEventCooldownSec req) && some (rd_candidates rd)
     then ListRecentlyResolvedCurtailedDevices (pr_OrgID req) (effectivePostEventCooldownSec req)
            (candidateDeviceIdentifiers (rd_candidates rd)) = Ok (rd_cooldown rd)
     else rd_cooldown rd = [])
  ∧ Z.of_nat (length (rd_candidates rd)) <= ScopeResolvedMinerMax
  ∧ Forall (λ id, id ∈ map mc_DeviceIdentifier (rd_candidates rd)) (lc_DeviceIdentifiers (rd_filter rd)).

Lemma nothing_missing requested cands :
  some requested && some (missingDeviceIdentifiers requested cands) = false →
  Forall (λ id, id ∈ map mc_DeviceIdentifier cands) requested.
Proof.
  unfold missingDeviceIdentifiers, some. intros Hm. apply Forall_forall. intros id Hid.
  destruct requested as [|a l]; [by apply elem_of_nil in Hid|]. simpl length in Hm at 1.
  rewrite (proj2 (Nat.ltb_lt 0 (S (length l)))) in Hm by lia. simpl negb in Hm.
  apply Nat.ltb_ge in Hm. destruct (decide (id ∈ map mc_DeviceIdentifier cands)) as [|Hn]; [done|].
  exfalso. assert (id ∈ List.filter (λ id, negb (bool_decide (id ∈
    (list_to_set (map mc_DeviceIdentifier cands) : gset string)))) (a :: l)) as Hin.
  { apply list_elem_of_In, List.filter_In. split; [by apply list_elem_of_In|].
    rewrite bool_decide_false; [done|]. by rewrite elem_of_list_to_set. }
  destruct (List.filter _ (a :: l)); [by apply elem_of_nil in Hin|simpl in Hm; lia].
Qed.

(** A successful preview is a plan over what the store answered. *)
Lemma Preview_plan req plan :
  Preview req = Ok plan →
  validatePreviewRequest req = true
  ∧ ∃ rd, answered req rd
    ∧ if pr_ForceIncludeAllPairedMiners req
      then plan = BuildAllPairedPolicyPlan (rd_candidates rd) (list_to_set (rd_active rd))
             (pr_IncludeMaintenance req && pr_ForceIncludeMaintenance req)
      else plan_candidates req (rd_candidates rd) (list_to_set (rd_active rd))
             (list_to_set (rd_cooldown rd)) (rd_minPowerW rd) = Ok plan.
Proof.
  unfold Preview. destruct (validatePreviewRequest req) eqn:Hv; [|done]. simpl. intros Hp. split; [done|].
  apply result_bind_ok in Hp as ([p w] & Hr & [= ->]). unfold runSelector in Hr. simpl in Hr.
  apply result_bind_ok in Hr as (filter & Hf & Hr). apply result_bind_ok in Hr as (orgW & Ho & Hr).
  apply result_bind_ok in Hr as (active & Ha & Hr). apply result_bind_ok in Hr as (cands & Hc & Hr).
  apply result_bind_ok in Hr as ([] & Hn & Hr).
  unfold validateResolvedMinerCount in Hn. destruct (_ <=? _) eqn:Hn' in Hn; [|done].
  destruct (some (lc_DeviceIdentifiers filter) && _) eqn:Hm; [done|].
  set (minW := default orgW (pr_CandidateMinPowerWOverride req)) in *.
  assert (match pr_CandidateMinPowerWOverride req with
    | Some w => minW = w | None => OrgCandidateMinPowerW (pr_OrgID req) = Ok minW end) as Hw.
  { unfold minW. by destruct (pr_CandidateMinPowerWOverride req). }
  destruct (pr_ForceIncludeAllPairedMiners req) eqn:Hforce.
  - injection Hr as <- _. exists {| rd_filter := filter; rd_candidates := cands; rd_active := active;
      rd_cooldown := []; rd_minPowerW := minW |}. unfold answered. rewrite Hforce. simpl. crush_bools.
    split_and!; auto using nothing_missing.
  - apply result_bind_ok in Hr as (cool & Hcool & Hr).
    apply result_bind_ok in Hr as (p' & Hp & [= -> _]).
    exists {| rd_filter := filter; rd_candidates := cands; rd_active := active;
      rd_cooldown := cool; rd_minPowerW := minW |}. unfold answered. rewrite Hforce. simpl. crush_bools.
    split_and!; auto using nothing_missing. destruct (_ && some cands); [done|]. by injection Hcool as <-.
Qed.

(** In a preview every candidate of the scope is selected, left in reserve or skipped,
    exactly once; full-fleet and all-paired plans leave none in reserve. *)
Theorem preview_accounts_for_every_miner req plan :
  Preview req = Ok plan →
  ∃ rd reserve, answered req rd
    ∧ map sd_DeviceIdentifier (pn_Selected plan) ++ reserve ++ map sk_DeviceIdentifier (pn_Skipped plan)
      ≡ₚ map mc_DeviceIdentifier (rd_candidates rd)
    ∧ (pr_Mode req = ModeFullFleet → reserve = []).
Proof.
  intros Hp. apply Preview_plan in Hp as (_ & rd & Hrd & Hp). exists rd.
  destruct (pr_ForceIncludeAllPairedMiners req).
  - subst plan. exists []. split_and!; [done| |done]. apply policy_partition.
  - destruct (plan_candidates_shape _ _ _ _ _ _ Hp) as (n & Hsel & -> & Hfull & _).
    exists (map mc_DeviceIdentifier (drop n (plan_order req (rd_opts req rd) (rd_candidates rd)))).
    split_and!; [done| |].
    + rewrite (shown_ids _ _ Hsel). apply plan_partition.
    + intros Hm. rewrite Hfull, drop_all; [done|]. unfold dual. by rewrite Hm.
Qed.

(** C15: Every miner a fixed-kW preview selects is a candidate of the scope, shown with its own
    power and efficiency, that no active event holds and that is not cooling down, that is paired
    and has a driver, is not offline, updating, waiting for a reboot, inactive, without a pool or
    without a status (nor in maintenance unless forced), and whose telemetry is present, finite,
    not below the power floor and hashing. *)
Theorem fixed_kw_preview_is_safe req plan :
  Preview req = Ok plan → pr_Mode req ≠ ModeFullFleet →
  ∃ rd, answered req rd
    ∧ ∀ s, s ∈ pn_Selected plan →
        ∃ c, c ∈ rd_candidates rd ∧ shown s = shows c ∧ may_curtail req rd c.
Proof.
  intros Hp Hm. apply Preview_plan in Hp as (Hv & rd & Hrd & Hp). exists rd. split; [done|].
  assert (pr_ForceIncludeAllPairedMiners req = false) as Hf.
  { unfold validatePreviewRequest in Hv. crush_bools. rewrite bool_decide_false in * by done.
    by destruct (pr_ForceIncludeAllPairedMiners req). }
  rewrite Hf in Hp. destruct (plan_candidates_shape _ _ _ _ _ _ Hp) as (n & Hsel & _).
  intros s Hs. apply (list_elem_of_fmap_2 shown) in Hs. change (shown <$> ?l) with (map shown l) in Hs.
  rewrite Hsel in Hs. apply list_elem_of_fmap in Hs as (c & Hc & Hin).
  apply elem_of_take in Hin as (i & Hi & _). apply list_elem_of_lookup_2 in Hi.
  rewrite plan_order_perm in Hi. apply list_elem_of_In, List.filter_In in Hi as [Hi Hk].
  exists c. split_and!; [by apply list_elem_of_In|done|]. apply plan_skip_none; [|by destruct (plan_skip _ _ c)].
  unfold dual. by rewrite bool_decide_false.
Qed.

(** A plan selects a prefix of the curtailable miners in order of falling joules per hash,
    miners of unknown efficiency last and equal ones in the order of the store: no spared miner is
    less efficient than a selected one. *)
Theorem preview_takes_least_efficient_first req plan :
  Preview req = Ok plan → pr_ForceIncludeAllPairedMiners req = false →
  ∃ rd order n, answered req rd
    ∧ order ≡ₚ curtailable req (rd_opts req rd) (rd_candidates rd)
    ∧ map shown (pn_Selected plan) = map shows (take n order)
    ∧ StronglySorted (λ a b, goes_before b a = false) order
    ∧ (∀ chosen spared, chosen ∈ take n order → spared ∈ drop n order → goes_before spared chosen = false)
    ∧ ∀ same, (∀ a b, same a = true → same b = true → goes_before a b = false) →
        List.filter same order = List.filter same (curtailable req (rd_opts req rd) (rd_candidates rd)).
Proof.
  intros Hp Hf. apply Preview_plan in Hp as (_ & rd & Hrd & Hp). rewrite Hf in Hp.
  destruct (plan_candidates_shape _ _ _ _ _ _ Hp) as (n & Hsel & _).
  pose proof (plan_order_sorted req (rd_opts req rd) (rd_candidates rd)) as Hs.
  exists rd, (plan_order req (rd_opts req rd) (rd_candidates rd)), n.
  split_and!; [done|apply plan_order_perm|exact Hsel|exact Hs| |].
  - intros a b Ha Hb. rewrite <- (take_drop n (plan_order _ _ _)) in Hs.
    exact (StronglySorted_app_1_elem_of _ _ _ a b Hs Ha Hb).
  - intros same Hsame. apply (stable_sort_stable _ _ goes_before_strict_weak). auto.
Qed.

(** A rejected preview selects nothing and its detail reports the requested power and
    tolerance and, for each of the thirteen reasons, exactly the number of miners skipped with it,
    without overflow. *)
Theorem rejection_counts_every_exclusion req plan :
  Preview req = Ok plan → pn_Outcome plan = OutcomeInsufficientLoad →
  pn_Selected plan = []
  ∧ ∃ d, pn_InsufficientLoadDetail plan = Some d
    ∧ RequestedKW d = pr_TargetKW req ∧ ToleranceKW d = pr_ToleranceKW req
    ∧ Forall (λ s, sk_Reason s ∈ prefilter_reasons ++ dual_reasons) (pn_Skipped plan)
    ∧ ∀ why, why ∈ prefilter_reasons ++ dual_reasons → counter_of why d = reported why (pn_Skipped plan).
Proof.
  intros Hp Hout. apply Preview_plan in Hp as (_ & rd & Hrd & Hp).
  destruct (pr_ForceIncludeAllPairedMiners req); [by rewrite Hp in Hout|].
  assert (Z.of_nat (length (rd_candidates rd)) < 2 ^ 30) as Hlen.
  { destruct Hrd as (_ & _ & _ & _ & _ & Hlen & _). unfold ScopeResolvedMinerMax in Hlen. lia. }
  destruct (rejection_counters _ _ _ _ _ _ Hp Hout Hlen) as (d & Hd & _ & Hreq & Htol & Hwhy).
  destruct (plan_candidates_shape _ _ _ _ _ _ Hp) as (n & Hsel & Hsk & _ & Hn). destruct (Hn Hout) as [-> _].
  split; [by destruct (pn_Selected plan)|]. exists d. split_and!; [done..| |done].
  rewrite Hsk. apply skipped_reasons_known.
Qed.

(** An all-paired preview owns, in order, exactly the paired, default-password and
    authentication-needed miners that no active event holds; those it cannot reach are unavailable
    with a reason and no power, the others are pending and can take commands, and the unavailable
    ones are counted. *)
Theorem all_paired_policy_owns_every_paired_miner req plan :
  Preview req = Ok plan → pr_ForceIncludeAllPairedMiners req = true →
  ∃ rd, answered req rd
    ∧ let owned := List.filter (policy_owns (list_to_set (rd_active rd))) (rd_candidates rd) in
      map sd_DeviceIdentifier (pn_Selected plan) = map mc_DeviceIdentifier owned
      ∧ pn_UnavailableTargetCount plan = Z.of_nat (length (List.filter is_unavailable (pn_Selected plan)))
      ∧ pn_PolicyTargetCount plan = Z.of_nat (length owned)
      ∧ Forall2 (λ s c, if is_unavailable s then sd_LastError s ≠ "" ∧ sd_PowerW s = F64.zero
           else sd_TargetState s = TargetStatePending ∧ sd_LastError s = ""
             ∧ may_command (pr_ForceIncludeMaintenance req) c) (pn_Selected plan) owned.
Proof.
  intros Hp Hf. apply Preview_plan in Hp as (Hv & rd & Hrd & Hp). rewrite Hf in Hp. exists rd. split; [done|].
  cbv zeta. assert (pn_PolicyTargetCount plan = Z.of_nat (length (pn_Selected plan))) as Hpc by by rewrite Hp.
  destruct (policy_eq (rd_candidates rd) (list_to_set (rd_active rd))
    (pr_IncludeMaintenance req && pr_ForceIncludeMaintenance req)) as (Hsel & _ & Hun).
  rewrite <- Hp in Hsel, Hun. rewrite Hpc. split_and!; [|done|by rewrite Hsel, length_map|].
  - rewrite Hsel, map_map. apply map_ext. intros c. unfold policy_target.
    by destruct (AllPairedPolicyTargetState c _).
  - rewrite Hsel. apply Forall2_fmap_l, Forall_Forall2_diag, Forall_forall. intros c Hc.
    apply list_elem_of_In, List.filter_In in Hc as [_ Hc]. apply andb_prop in Hc as [_ Hc].
    assert (pr_IncludeMaintenance req && pr_ForceIncludeMaintenance req = pr_ForceIncludeMaintenance req) as ->.
    { unfold validatePreviewRequest in Hv. crush_bools.
      by destruct (pr_IncludeMaintenance req), (pr_ForceIncludeMaintenance req). }
    by apply policy_target_spec.
Qed.

End Theorems.

(** * A curtailment acts on the scope that was asked for

    The candidate filter of a scope selects exactly the requested sites,
    buildings, racks, groups or miners, of one kind, and only a whole-org scope
    resolves to the filter without a selector, which reads every miner. *)

From Stdlib Require Import SpecFloat.
From S2P Require Import RolloutBehaviorFacts.

Lemma some_false {A} (l : list A) : some l = false → l = [].
Proof. unfold some. destruct l; [done|]. intros Hl. apply Nat.ltb_ge in Hl. simpl in Hl. lia. Qed.

Lemma some_true {A} (l : list A) : some l = true → ∃ x, x ∈ l.
Proof. unfold some. destruct l as [|x l]; [done|]. exists x. left. Qed.

Lemma some_elem {A} (l : list A) x : x ∈ l → some l = true.
Proof. destruct l; [by intros ?%elem_of_nil|]. intros _. apply Nat.ltb_lt. simpl. lia. Qed.

Lemma all_positive l : hasNonPositiveInt64 l = false → ∀ x, x ∈ l → 0 < x.
Proof.
  unfold hasNonPositiveInt64. intros Hl x Hx. destruct (decide (0 < x)); [done|].
  assert (existsb (λ v, v <=? 0) l = true) as Ht; [|congruence].
  apply existsb_exists. exists x. split; [by apply list_elem_of_In|]. apply Z.leb_le. lia.
Qed.

Lemma uniquePositiveInt64s_elem l x : x ∈ uniquePositiveInt64s l ↔ x ∈ l ∧ 0 < x.
Proof. unfold uniquePositiveInt64s. rewrite unique_loop_elem, Z.ltb_lt, elem_of_nil. naive_solver. Qed.

Lemma uniqueNonEmptyStrings_elem l x : x ∈ uniqueNonEmptyStrings l ↔ x ∈ l ∧ x ≠ "".
Proof.
  unfold uniqueNonEmptyStrings. rewrite unique_loop_elem, elem_of_nil, negb_true_iff, bool_decide_eq_false.
  naive_solver.
Qed.

(** The sites a scope names, in either of its two fields. *)
Definition scope_sites (s : CurtailmentScope) : list Z :=
  cs_SiteIDs s ++ (if 0 <? cs_SiteID s then [cs_SiteID s] else []).

(** The kinds of selector a filter uses. *)
Definition filter_kinds (f : ListCandidatesParams) : list bool :=
  [some (lc_SiteIDs f); some (lc_BuildingIDs f); some (lc_RackIDs f); some (lc_GroupIDs f);
   some (lc_DeviceIdentifiers f)].

(** The filter selects the requested identifiers, of one kind unless the scope is
    the whole organization. *)
Definition exact_filter (s : CurtailmentScope) (f : ListCandidatesParams) : Prop :=
  (∀ id, id ∈ lc_SiteIDs f ↔ id ∈ cs_SiteIDs s ∨ (id = cs_SiteID s ∧ id ≠ 0))
  ∧ (∀ id, id ∈ lc_BuildingIDs f ↔ id ∈ cs_BuildingIDs s)
  ∧ (∀ id, id ∈ lc_RackIDs f ↔ id ∈ cs_RackIDs s)
  ∧ (∀ id, id ∈ lc_GroupIDs f ↔ id ∈ cs_GroupIDs s)
  ∧ (∀ id, id ∈ lc_DeviceIdentifiers f ↔ id ∈ cs_DeviceIdentifiers s ∧ id ≠ "")
  ∧ length (List.filter (λ b : bool, b) (filter_kinds f))
    = if cs_Type s == ScopeTypeWholeOrg then 0%nat else 1%nat.

(** What the contract leaves of a scope: identifiers are positive and exactly one
    kind is named. *)
Lemma contract_facts s :
  validateScopeContract s = true →
  0 <= cs_SiteID s ∧ (∀ x, x ∈ cs_SiteIDs s → 0 < x) ∧ (∀ x, x ∈ cs_BuildingIDs s → 0 < x)
  ∧ (∀ x, x ∈ cs_RackIDs s → 0 < x) ∧ (∀ x, x ∈ cs_GroupIDs s → 0 < x) ∧ scopeSelectorTypeCount s = 1.
Proof.
  unfold validateScopeContract. intros Hv. crush_bools. split_and!; eauto using all_positive; lia.
Qed.

Lemma scope_sites_some s :
  0 <= cs_SiteID s → some (scope_sites s) = negb (cs_SiteID s =? 0) || some (cs_SiteIDs s).
Proof.
  unfold scope_sites, some. intros H0. rewrite length_app.
  destruct (0 <? cs_SiteID s) eqn:E, (cs_SiteID s =? 0) eqn:E'; crush_bools; simpl; try lia.
  - apply Nat.ltb_lt. lia.
  - by rewrite Nat.add_0_r.
Qed.

Lemma unique_some l : (∀ x, x ∈ l → 0 < x) → some (uniquePositiveInt64s l) = some l.
Proof.
  intros Hp. destruct (some l) eqn:E.
  - apply some_true in E as [x Hx]. apply (some_elem _ x). rewrite uniquePositiveInt64s_elem. auto.
  - by apply some_false in E as ->.
Qed.

(** The normalized scope, field by field. *)
Lemma normalizeScope_fields s :
  let s' := normalizeScope s in
  cs_SiteIDs s' = uniquePositiveInt64s (scope_sites s)
  ∧ cs_BuildingIDs s' = uniquePositiveInt64s (cs_BuildingIDs s)
  ∧ cs_RackIDs s' = uniquePositiveInt64s (cs_RackIDs s)
  ∧ cs_GroupIDs s' = uniquePositiveInt64s (cs_GroupIDs s)
  ∧ cs_DeviceIdentifiers s' = uniqueNonEmptyStrings (cs_DeviceIdentifiers s)
  ∧ cs_Type s' = normalized_type (s' <| cs_Type := cs_Type s |>).
Proof. done. Qed.

Lemma resolveScope_exact s f : resolveScope s = Ok f → exact_filter s f.
Proof.
  unfold resolveScope. destruct (validateScopeContract s) eqn:Hv; [|done]. cbn [negb].
  apply contract_facts in Hv as (H0 & Hs & Hb & Hr & Hg & Hc).
  pose proof (normalizeScope_fields s) as Hn. cbv zeta in Hn.
  destruct Hn as (HS & HB & HR & HG & HD & HT).
  set (s' := normalizeScope s) in *. clearbody s'.
  assert (∀ x, x ∈ scope_sites s → 0 < x) as Hss.
  { intros x. unfold scope_sites. destruct (0 <? _) eqn:E; crush_bools; set_solver. }
  assert (∀ id, id ∈ cs_SiteIDs s' ↔ id ∈ cs_SiteIDs s ∨ (id = cs_SiteID s ∧ id ≠ 0)) as HSe.
  { intros id. rewrite HS, uniquePositiveInt64s_elem. unfold scope_sites.
    destruct (0 <? _) eqn:E; crush_bools; rewrite elem_of_app; [rewrite list_elem_of_singleton|];
      specialize (Hs id); [|rewrite elem_of_nil]; naive_solver lia. }
  assert (∀ id, id ∈ cs_BuildingIDs s' ↔ id ∈ cs_BuildingIDs s) as HBe
    by (intros; rewrite HB, uniquePositiveInt64s_elem; naive_solver).
  assert (∀ id, id ∈ cs_RackIDs s' ↔ id ∈ cs_RackIDs s) as HRe
    by (intros; rewrite HR, uniquePositiveInt64s_elem; naive_solver).
  assert (∀ id, id ∈ cs_GroupIDs s' ↔ id ∈ cs_GroupIDs s) as HGe
    by (intros; rewrite HG, uniquePositiveInt64s_elem; naive_solver).
  assert (∀ id, id ∈ cs_DeviceIdentifiers s' ↔ id ∈ cs_DeviceIdentifiers s ∧ id ≠ "") as HDe
    by (intros; by rewrite HD, uniqueNonEmptyStrings_elem).
  unfold scopeSelectorTypeCount in Hc. rewrite <- scope_sites_some, <- unique_some, <- HS in Hc by done.
  rewrite <- (unique_some (cs_BuildingIDs s)), <- HB in Hc by done.
  rewrite <- (unique_some (cs_RackIDs s)), <- HR in Hc by done.
  rewrite <- (unique_some (cs_GroupIDs s)), <- HG in Hc by done.
  unfold exact_filter. setoid_rewrite <- HSe. setoid_rewrite <- HBe. setoid_rewrite <- HRe.
  setoid_rewrite <- HGe. setoid_rewrite <- HDe.
  assert (some (cs_DeviceIdentifiers s') = true → some (cs_DeviceIdentifiers s) = true) as Hds.
  { intros [x Hx]%some_true. apply HDe in Hx as [Hx _]. by apply some_elem in Hx. }
  rewrite HT. unfold normalized_type, hasTopologySelectors, filter_kinds.
  clear HS HB HR HG HD HT HSe HBe HRe HGe HDe Hs Hb Hr Hg Hss H0. simpl.
  destruct s' as [ver ty sid S B R G D]; simpl in *. unfold some in *.
  destruct (cs_Type s == ScopeTypeWholeOrg) eqn:Hw; destruct S as [|x1 [|x2 S]], B as [|y B];
    try (simpl in Hc; lia); destruct R as [|r R]; try (simpl in Hc; lia);
    destruct G as [|g G]; try (simpl in Hc; lia);
    destruct D as [|d D]; simpl in Hds |- *; try rewrite (Hds eq_refl) in Hc; try (simpl in Hc; lia).
  all: intros Hf; rewrite ?Hw in Hf; simpl in Hf.
  all: try (injection Hf as <-; simpl; done).
  all: repeat destruct (cs_Type s == _); done.
Qed.

Section Scope.
Context `{CurtailmentStore}.

Lemma check_sites_ok org sites :
  check_sites org sites = Ok tt → Forall (λ site, SiteBelongsToOrg org site = Ok true) sites.
Proof.
  induction sites as [|site rest IH]; simpl; intros Hc; [done|].
  apply result_bind_ok in Hc as (b & Hb & Hc). destruct b; [|done]. by constructor; auto.
Qed.

Lemma resolveScopeForOrg_exact org s f :
  resolveScopeForOrg org s = Ok f →
  exact_filter s f ∧ lc_OrgID f = org
  ∧ Forall (λ site, SiteBelongsToOrg org site = Ok true) (lc_SiteIDs f).
Proof.
  unfold resolveScopeForOrg. intros Hf. apply result_bind_ok in Hf as (g & Hg & Hf).
  apply resolveScope_exact in Hg. cbv zeta in Hf. set (h := g <| lc_OrgID := org |>) in *.
  assert (exact_filter s h ∧ lc_OrgID h = org) as [Hh Ho] by done. clearbody h.
  destruct (some (lc_SiteIDs h)) eqn:Hs.
  - apply result_bind_ok in Hf as ([] & Hc & [= <-]). auto using check_sites_ok.
  - assert (h = f) as <-.
    { destruct (negb _); [by injection Hf|]. destruct ResolveCurtailmentTopologyScope; [|done].
      by apply result_bind_ok in Hf as ([] & _ & [= <-]). }
    apply some_false in Hs. rewrite Hs. auto.
Qed.

(** C16: A preview reads exactly the scope of its request: the filter names the requested sites,
    buildings, racks, groups or miners, all of one kind, it is without a selector only for a
    whole-org scope, its sites belong to the organization, and every miner that was named is among
    the candidates. *)
Theorem preview_reads_the_requested_scope req plan :
  Preview req = Ok plan →
  ∃ rd, answered req rd
    ∧ exact_filter (pr_Scope req) (rd_filter rd) ∧ lc_OrgID (rd_filter rd) = pr_OrgID req
    ∧ Forall (λ site, SiteBelongsToOrg (pr_OrgID req) site = Ok true) (lc_SiteIDs (rd_filter rd))
    ∧ ∀ id, id ∈ cs_DeviceIdentifiers (pr_Scope req) → id ≠ "" →
        id ∈ map mc_DeviceIdentifier (rd_candidates rd).
Proof.
  intros Hp. apply Preview_plan in Hp as (_ & rd & Hrd & _). exists rd.
  destruct Hrd as (Hf & Hrd). pose proof (resolveScopeForOrg_exact _ _ _ Hf) as (He & Ho & Hs).
  split_and!; [done|done|done|done|]. intros id Hid Hne. destruct Hrd as (_ & _ & _ & _ & _ & Hall).
  rewrite Forall_forall in Hall. apply Hall. destruct He as (_ & _ & _ & _ & Hd & _). by apply Hd.
Qed.

End Scope.

(** ** Admission of new miners into a full-fleet event *)

(** Admission into a running full-fleet event inserts one pending row per eligible candidate,
    to be curtailed and with no baseline that is zero or negative, and skips exactly the other
    candidates. *)
Theorem full_fleet_admits_every_eligible_miner cands maint minP :
  let opts := {| IncludeMaintenance := maint; ActiveEventDevices := ∅; CooldownDevices := ∅;
                 opt_CandidateMinPowerW := minP |} in
  let '(rows, skipped) := BuildFullFleetAdmissionTargets cands maint minP in
  map it_DeviceIdentifier rows ≡ₚ map mc_DeviceIdentifier (List.filter (admitted opts) cands)
  ∧ map it_DeviceIdentifier rows ++ map sk_DeviceIdentifier skipped ≡ₚ map mc_DeviceIdentifier cands
  ∧ Forall (λ r, it_State r = TargetStatePending ∧ it_DesiredState r = DesiredStateCurtailed
      ∧ it_TargetType r = targetTypeMiner ∧ it_LastError r = None
      ∧ ∀ w, it_BaselinePowerW r = Some w → F64.le w F64.zero = false) rows.
Proof.
  cbv zeta. unfold BuildFullFleetAdmissionTargets. rewrite classify_eq.
  set (opts := Build_classifyOpts _ _ _ _). cbn [fst snd].
  set (plan := BuildPlan _ _ _ _).
  assert (map sd_DeviceIdentifier (pn_Selected plan) ≡ₚ map mc_DeviceIdentifier (List.filter (admitted opts) cands))
    as Hsel.
  { unfold plan, BuildPlan. simpl. rewrite !map_map. simpl. rewrite stable_sort_perm, map_map. done. }
  assert (pn_Skipped plan = flat_map (skipped_of opts) cands) as Hsk by apply app_nil_r.
  assert (map it_DeviceIdentifier (BuildInsertTargetParams (pn_Selected plan) ModeFullFleet minP)
    = map sd_DeviceIdentifier (pn_Selected plan)) as Hrows.
  { unfold BuildInsertTargetParams. by rewrite map_map. }
  rewrite Hrows, Hsk. split_and!; [done| |].
  - rewrite Hsel. apply (flat_map_skip (skip_reason opts)).
  - assert (Forall (λ s, sd_TargetState s = "" ∧ sd_LastError s = "") (pn_Selected plan)) as Hst.
    { unfold plan, BuildPlan. simpl. apply Forall_map, Forall_forall. done. }
    apply Forall_map. eapply Forall_impl; [exact Hst|]. intros s [Hs1 Hs2]. simpl. rewrite Hs1, Hs2.
    split_and!; [done..|]. intros w. unfold shouldPersistBaselinePowerW.
    destruct (F64.le (sd_PowerW s) F64.zero) eqn:E; [done|]. destruct (_ && _); [done|]. by intros [= <-].
Qed.

(** ** The tolerance check is made before rounding *)

(** There are a target and a tolerance that the validation accepts (tolerance below target)
    and whose product with 1000 rounds to the same power, so that a plan over no miner at all
    counts as a tolerated undershoot. *)
Theorem validated_tolerance_may_tolerate_nothing :
  ∃ target tolerance, target_valid target tolerance = true
    ∧ ∀ summary, ∃ m, NewFixedKw target tolerance summary = Some m
        ∧ ResOutcome (FixedKw_Select m []) = OutcomeUndershootTolerated
        ∧ ResSelected (FixedKw_Select m []) = [].
Proof.
  exists (S754_finite false 6755399441055766 (-52)), (S754_finite false 6755399441055765 (-52)).
  split; [by vm_compute|]. intros summary. eexists. split; [reflexivity|]. split; by vm_compute.
Qed.
