(* ===== verification/GoTime.v ===== *)
(** * Go's calendar and clock

    The parts of Go's [time] and [strconv] packages that the schedules use: the
    proleptic Gregorian calendar, [time.Date] in a location with its zone
    transitions, parsing and formatting with the layouts of the source, and
    decimal integers. An instant is its count of nanoseconds since the Unix
    epoch. *)

From stdpp Require Import pretty.
From S2P Require Import Prelude Errors RolloutBehavior.
#[local] Open Scope string_scope.
#[local] Open Scope list_scope.
#[local] Open Scope Z_scope.
#[local] Open Scope go_scope.

(** Linear arithmetic with division by constants. *)
Ltac div_lia := Z.to_euclidean_division_equations; lia.

(** ** The calendar *)

Definition is_leap (y : Z) : bool :=
  (y mod 4 =? 0) && (negb (y mod 100 =? 0) || (y mod 400 =? 0)).

Definition b2z (b : bool) : Z := if b then 1 else 0.

(** Days of the year before the first of month [m]. *)
Definition days_before (leap : bool) (m : Z) : Z :=
  let l := b2z leap in
  if m <=? 1 then 0 else if m =? 2 then 31 else if m =? 3 then 59 + l else if m =? 4 then 90 + l
  else if m =? 5 then 120 + l else if m =? 6 then 151 + l else if m =? 7 then 181 + l
  else if m =? 8 then 212 + l else if m =? 9 then 243 + l else if m =? 10 then 273 + l
  else if m =? 11 then 304 + l else if m =? 12 then 334 + l else 365 + l.

Definition days_in (y m : Z) : Z := days_before (is_leap y) (m + 1) - days_before (is_leap y) m.

(** Days from 0001-01-01 to the first day of year [y]. *)
Definition year_start (y : Z) : Z :=
  let p := y - 1 in 365 * p + p / 4 - p / 100 + p / 400.

(** 1970-01-01 in days since 0001-01-01. *)
Definition unix_epoch_days : Z := 719162.

(** The day number of a date; a day past the end of the month runs on into the
    next one, as [time.Date] normalizes it. *)
Definition day_number (y m d : Z) : Z :=
  year_start y + days_before (is_leap y) m + (d - 1) - unix_epoch_days.

(** The year of a day since 0001-01-01: by 400, 100, 4 and 1 years. *)
Definition year_of (n : Z) : Z :=
  let q400 := n / 146097 in let r := n mod 146097 in
  let q100 := Z.min 3 (r / 36524) in let r := r - 36524 * q100 in
  let q4 := r / 1461 in let r := r mod 1461 in
  let q1 := Z.min 3 (r / 365) in
  400 * q400 + 100 * q100 + 4 * q4 + q1 + 1.

Definition month_of (leap : bool) (yday : Z) : Z :=
  let before m := yday <? days_before leap m in
  if before 2 then 1 else if before 3 then 2 else if before 4 then 3 else if before 5 then 4
  else if before 6 then 5 else if before 7 then 6 else if before 8 then 7 else if before 9 then 8
  else if before 10 then 9 else if before 11 then 10 else if before 12 then 11 else 12.

Record date := { d_year : Z; d_month : Z; d_day : Z }.

#[export] Instance date_eq_dec : EqDecision date.
Proof. solve_decision. Defined.

(** [time.Time.Date] of a day number. *)
Definition civil (day : Z) : date :=
  let n := day + unix_epoch_days in
  let y := year_of n in
  let yday := n - year_start y in
  let m := month_of (is_leap y) yday in
  {| d_year := y; d_month := m; d_day := yday - days_before (is_leap y) m + 1 |}.

Definition valid_date (c : date) : Prop :=
  1 <= d_month c <= 12 ∧ 1 <= d_day c <= days_in (d_year c) (d_month c).

Lemma year_start_succ y : year_start (y + 1) = year_start y + 365 + b2z (is_leap y).
Proof.
  unfold year_start, is_leap, b2z. replace (y + 1 - 1) with y by lia.
  assert (y / 4 - (y - 1) / 4 = if y mod 4 =? 0 then 1 else 0) by (case_if; div_lia).
  assert (y / 100 - (y - 1) / 100 = if y mod 100 =? 0 then 1 else 0) by (case_if; div_lia).
  assert (y / 400 - (y - 1) / 400 = if y mod 400 =? 0 then 1 else 0) by (case_if; div_lia).
  destruct (y mod 4 =? 0) eqn:E4, (y mod 100 =? 0) eqn:E100, (y mod 400 =? 0) eqn:E400;
    crush_bools; simpl; (lia || (exfalso; div_lia)).
Qed.

Lemma year_of_bounds n : year_start (year_of n) <= n < year_start (year_of n + 1).
Proof.
  unfold year_of, year_start.
  set (q400 := n / 146097). set (r := n mod 146097).
  assert (n = 146097 * q400 + r ∧ 0 <= r < 146097) as [Hn Hr] by (unfold q400, r; div_lia).
  clearbody q400 r. subst n.
  set (q100 := Z.min 3 (r / 36524)). set (r1 := r - 36524 * q100).
  assert (0 <= q100 <= 3 ∧ 0 <= r1 ∧ (q100 < 3 → r1 < 36524) ∧ r1 <= 36524 ∧ r = 36524 * q100 + r1)
    as (Hq & H1 & H2 & H3 & H4) by (unfold q100, r1; div_lia).
  clearbody q100 r1. subst r.
  set (q4 := r1 / 1461). set (r2 := r1 mod 1461).
  assert (r1 = 1461 * q4 + r2 ∧ 0 <= r2 < 1461 ∧ 0 <= q4 <= 24) as (H5 & H6 & H7)
    by (unfold q4, r2; div_lia).
  clearbody q4 r2. subst r1.
  set (q1 := Z.min 3 (r2 / 365)).
  assert (0 <= q1 <= 3 ∧ 365 * q1 <= r2 ∧ (q1 < 3 → r2 < 365 * (q1 + 1)) ∧ r2 <= 365 * q1 + 365)
    as (H8 & H9 & H10 & H11) by (unfold q1; div_lia).
  clearbody q1.
  replace (400 * q400 + 100 * q100 + 4 * q4 + q1 + 1 - 1) with (400 * q400 + 100 * q100 + 4 * q4 + q1) by lia.
  replace (400 * q400 + 100 * q100 + 4 * q4 + q1 + 1 + 1 - 1)
    with (400 * q400 + 100 * q100 + 4 * q4 + (q1 + 1)) by lia.
  div_lia.
Qed.

Lemma year_start_mono a b : a <= b → year_start a <= year_start b.
Proof. unfold year_start. intros. div_lia. Qed.

Lemma year_of_unique n y : year_start y <= n < year_start (y + 1) → year_of n = y.
Proof.
  intros Hy. pose proof (year_of_bounds n) as Hb.
  destruct (Z.lt_trichotomy (year_of n) y) as [H|[H|H]]; [|done|].
  - pose proof (year_start_mono (year_of n + 1) y ltac:(lia)). lia.
  - pose proof (year_start_mono (y + 1) (year_of n) ltac:(lia)). lia.
Qed.

(** Case analysis on a month. *)
Ltac month_cases m :=
  assert (m = 1 ∨ m = 2 ∨ m = 3 ∨ m = 4 ∨ m = 5 ∨ m = 6 ∨ m = 7 ∨ m = 8 ∨ m = 9 ∨ m = 10 ∨ m = 11 ∨ m = 12)
    as Hmonth by lia;
  repeat destruct Hmonth as [->|Hmonth]; [..|subst m].

(** Evaluates the month table wherever it is applied to constants. *)
Ltac month_table :=
  let const m := match m with Z.pos _ => idtac | Z.pos _ + 1 => idtac end in
  repeat match goal with
  | H : context [days_before ?b ?m] |- _ =>
      const m; let v := eval vm_compute in (days_before b m) in change (days_before b m) with v in H
  | |- context [days_before ?b ?m] =>
      const m; let v := eval vm_compute in (days_before b m) in change (days_before b m) with v
  end.

Lemma month_of_date leap m d :
  1 <= m <= 12 → 1 <= d <= days_before leap (m + 1) - days_before leap m →
  month_of leap (days_before leap m + d - 1) = m.
Proof.
  intros Hm Hd. unfold month_of. destruct leap; month_cases m; month_table;
    repeat (case_if; [done || lia|]); done || lia.
Qed.

Lemma month_of_bounds leap yday :
  0 <= yday < 365 + b2z leap →
  1 <= month_of leap yday <= 12
  ∧ days_before leap (month_of leap yday) <= yday < days_before leap (month_of leap yday + 1).
Proof.
  intros Hy. unfold month_of. destruct leap; cbn [b2z] in Hy; month_table;
    repeat (case_if; [split; month_table; lia|]); split; month_table; lia.
Qed.

(** A day number is the day of its date, and a valid date is the date of its
    day number. *)
Lemma day_number_civil n : day_number (d_year (civil n)) (d_month (civil n)) (d_day (civil n)) = n.
Proof. unfold day_number, civil. simpl. lia. Qed.

Lemma civil_valid n : valid_date (civil n).
Proof.
  unfold valid_date, civil, days_in. simpl. pose proof (year_of_bounds (n + unix_epoch_days)) as Hy.
  rewrite year_start_succ in Hy.
  destruct (month_of_bounds (is_leap (year_of (n + unix_epoch_days)))
    (n + unix_epoch_days - year_start (year_of (n + unix_epoch_days)))); lia.
Qed.

Lemma days_before_bounds leap m d :
  1 <= m <= 12 → 1 <= d <= days_before leap (m + 1) - days_before leap m →
  0 <= days_before leap m + d - 1 < 365 + b2z leap.
Proof. intros Hm Hd. destruct leap; cbn [b2z]; month_cases m; month_table; lia. Qed.

Lemma civil_day_number c : valid_date c → civil (day_number (d_year c) (d_month c) (d_day c)) = c.
Proof.
  intros [Hm Hd]. destruct c as [y m d]. cbn [d_year d_month d_day] in *. unfold days_in in Hd.
  pose proof (days_before_bounds _ _ _ Hm Hd) as Hb. unfold civil, day_number.
  replace (year_start y + days_before (is_leap y) m + (d - 1) - unix_epoch_days + unix_epoch_days)
    with (year_start y + (days_before (is_leap y) m + d - 1)) by lia.
  rewrite (year_of_unique _ y) by (rewrite year_start_succ; lia).
  replace (year_start y + (days_before (is_leap y) m + d - 1) - year_start y)
    with (days_before (is_leap y) m + d - 1) by lia.
  rewrite month_of_date by done. f_equal. lia.
Qed.

(** ** Locations *)

(** A [time.Location]: the offset (in seconds east of UTC) before the first zone
    transition, and the transitions in order, each with the offset from then on. *)
Record Location := { loc_first : Z; loc_tx : list (Z * Z) }.

Definition alpha : Z := - 2 ^ 63.
Definition omega : Z := 2 ^ 63 - 1.

(** [Location.lookup]: the offset at a Unix time and the interval it holds in. *)
Fixpoint lookup_tx (offset start : Z) (tx : list (Z * Z)) (sec : Z) : Z * Z * Z :=
  match tx with
  | [] => (offset, start, omega)
  | (at_, offset') :: rest =>
      if sec <? at_ then (offset, start, at_) else lookup_tx offset' at_ rest sec
  end.

Definition lookup_zone (loc : Location) (sec : Z) : Z * Z * Z := lookup_tx (loc_first loc) alpha (loc_tx loc) sec.
Definition offset_at (loc : Location) (sec : Z) : Z := (lookup_zone loc sec).1.1.

Definition UTC : Location := {| loc_first := 0; loc_tx := [] |}.

Definition Day : Z := 86400.

(** [time.Date] at whole seconds: the Unix time of a wall clock reading. *)
Definition Date (y m d hh mm ss : Z) (loc : Location) : Z :=
  let unix := day_number y m d * Day + hh * 3600 + mm * 60 + ss in
  let '(offset, start, end_) := lookup_zone loc unix in
  if offset =? 0 then unix
  else
    let utc := unix - offset in
    if (utc <? start) || (end_ <=? utc) then unix - offset_at loc utc else utc.

(** [Time.Unix]: whole seconds, rounded down. *)
Definition Unix (t : Z) : Z := t / Second.

(** The wall clock of an instant: seconds as if UTC. *)
Definition wall (loc : Location) (t : Z) : Z := Unix t + offset_at loc (Unix t).
Definition local_date (loc : Location) (t : Z) : date := civil (wall loc t / Day).

(** A zone has one offset from [sec] on for [span] seconds. *)
Definition steady (loc : Location) (lo hi : Z) : Prop :=
  ∀ sec, lo <= sec <= hi → offset_at loc sec = offset_at loc lo.

(** ** Layouts *)

(** The chunks of the layouts in use: "15", "04", "05", "2006", "01", "02" and
    literal bytes. *)
Inductive chunk :=
| stdHour | stdZeroMinute | stdZeroSecond | stdLongYear | stdZeroMonth | stdZeroDay
| Lit (c : Z).

Definition layout_clock : list chunk := [stdHour; Lit 58; stdZeroMinute].
Definition layout_clock_seconds : list chunk := layout_clock ++ [Lit 58; stdZeroSecond].
Definition layout_date : list chunk := [stdLongYear; Lit 45; stdZeroMonth; Lit 45; stdZeroDay].
Definition layout_datetime : list chunk := layout_date ++ [Lit 32] ++ layout_clock.

Record clock := { c_year : Z; c_month : Z; c_day : Z; c_hour : Z; c_min : Z; c_sec : Z }.

#[export] Instance eta_clock : Eta clock := λ c,
  {| c_year := c_year c; c_month := c_month c; c_day := c_day c; c_hour := c_hour c;
     c_min := c_min c; c_sec := c_sec c |}.

Definition isDigit (b : Z) : bool := between 48 57 b.
Definition digit (b : Z) : Z := b - 48.

(** One digit, or two; [fixed] requires two. *)
Definition getnum (fixed : bool) (value : list Z) : option (Z * list Z) :=
  match value with
  | a :: rest =>
      if negb (isDigit a) then None
      else match rest with
      | b :: rest' =>
          if isDigit b then Some (digit a * 10 + digit b, rest')
          else if fixed then None else Some (digit a, rest)
      | [] => if fixed then None else Some (digit a, rest)
      end
  | [] => None
  end.

Fixpoint cutspace (value : list Z) : list Z :=
  match value with
  | b :: rest => if b =? 32 then cutspace rest else value
  | [] => []
  end.

Fixpoint drop_digits (value : list Z) : list Z :=
  match value with
  | b :: rest => if isDigit b then drop_digits rest else value
  | [] => []
  end.

(** Seconds may be followed by a fraction the layout does not name. *)
Definition drop_fraction (value : list Z) : list Z :=
  match value with
  | c :: d :: rest => if ((c =? 46) || (c =? 44)) && isDigit d then drop_digits rest else value
  | _ => value
  end.

Definition in_range (lo hi : Z) (p : option (Z * list Z)) : option (Z * list Z) :=
  match p with
  | Some (n, rest) => if between lo hi n then p else None
  | None => None
  end.

Definition year4 (value : list Z) : option (Z * list Z) :=
  match value with
  | a :: b :: c :: d :: rest =>
      if forallb isDigit [a; b; c; d]
      then Some (digit a * 1000 + digit b * 100 + digit c * 10 + digit d, rest) else None
  | _ => None
  end.

Definition parse_chunk (ch : chunk) (t : clock) (value : list Z) : option (clock * list Z) :=
  match ch with
  | stdHour => '(n, v) ← in_range 0 23 (getnum false value); Some (t <| c_hour := n |>, v)
  | stdZeroMinute => '(n, v) ← in_range 0 59 (getnum true value); Some (t <| c_min := n |>, v)
  | stdZeroSecond => '(n, v) ← in_range 0 59 (getnum true value); Some (t <| c_sec := n |>, drop_fraction v)
  | stdLongYear => '(n, v) ← year4 value; Some (t <| c_year := n |>, v)
  | stdZeroMonth => '(n, v) ← in_range 1 12 (getnum true value); Some (t <| c_month := n |>, v)
  | stdZeroDay => '(n, v) ← getnum true value; Some (t <| c_day := n |>, v)
  | Lit c =>
      if c =? 32 then
        match value with
        | b :: _ => if b =? 32 then Some (t, cutspace value) else None
        | [] => Some (t, [])
        end
      else match value with
      | b :: rest => if b =? c then Some (t, rest) else None
      | [] => None
      end
  end.

Fixpoint parse_chunks (layout : list chunk) (t : clock) (value : list Z) : option clock :=
  match layout with
  | [] => match value with [] => Some t | _ => None end
  | ch :: rest => '(t, v) ← parse_chunk ch t value; parse_chunks rest t v
  end.

(** [time.Parse]: the fields a value denotes under a layout; fields the layout
    does not name are those of year 0, January 1. *)
Definition Parse (layout : list chunk) (value : string) : option clock :=
  t ← parse_chunks layout
    {| c_year := 0; c_month := 1; c_day := 1; c_hour := 0; c_min := 0; c_sec := 0 |} (bytes value);
  if between 1 (days_in (c_year t) (c_month t)) (c_day t) then Some t else None.

(** [time.ParseInLocation], in Unix seconds. *)
Definition ParseInLocation (layout : list chunk) (value : string) (loc : Location) : option Z :=
  t ← Parse layout value;
  Some (Date (c_year t) (c_month t) (c_day t) (c_hour t) (c_min t) (c_sec t) loc).

Definition two_digits (n : Z) : list Z := [48 + n / 10; 48 + n mod 10].
Definition four_digits (n : Z) : list Z :=
  [48 + n / 1000; 48 + n / 100 mod 10; 48 + n / 10 mod 10; 48 + n mod 10].

Definition format_chunk (t : clock) (ch : chunk) : list Z :=
  match ch with
  | stdHour => two_digits (c_hour t)
  | stdZeroMinute => two_digits (c_min t)
  | stdZeroSecond => two_digits (c_sec t)
  | stdLongYear => four_digits (c_year t)
  | stdZeroMonth => two_digits (c_month t)
  | stdZeroDay => two_digits (c_day t)
  | Lit c => [c]
  end.

(** [Time.Format] for years of four digits. *)
Definition Format (layout : list chunk) (t : clock) : string :=
  string_of_bytes (flat_map (format_chunk t) layout).

Example parse_ex : Parse layout_datetime "2026-03-08  9:05" =
  Some {| c_year := 2026; c_month := 3; c_day := 8; c_hour := 9; c_min := 5; c_sec := 0 |}.
Proof. reflexivity. Qed.
Example parse_fraction_ex : c_sec <$> Parse layout_clock_seconds "23:59:07.25" = Some 7.
Proof. reflexivity. Qed.
Example parse_bad_ex : Parse layout_date "2026-02-29" = None.
Proof. reflexivity. Qed.
Example format_ex : Format layout_clock
  {| c_year := 0; c_month := 1; c_day := 1; c_hour := 9; c_min := 5; c_sec := 0 |} = "09:05".
Proof. reflexivity. Qed.
Example civil_ex : civil (day_number 2024 12 31 + 61) = {| d_year := 2025; d_month := 3; d_day := 2 |}.
Proof. reflexivity. Qed.

(** ** Decimal integers *)

Fixpoint decimal (acc : Z) (l : list Z) : option Z :=
  match l with
  | [] => Some acc
  | b :: rest => if isDigit b then decimal (acc * 10 + digit b) rest else None
  end.

(** [strconv.ParseInt] with base 10 and 64 bits. *)
Definition ParseInt (s : string) : option Z :=
  let parse l := match l with [] => None | _ => decimal 0 l end in
  let fit z := if (- 2 ^ 63 <=? z) && (z <? 2 ^ 63) then Some z else None in
  match bytes s with
  | 43 :: l => z ← parse l; fit z
  | 45 :: l => z ← parse l; fit (- z)
  | l => z ← parse l; fit z
  end.

(** [strconv.FormatInt] with base 10. *)
Definition FormatInt (z : Z) : string := pretty z.

Example parse_int_ex : ParseInt "-0042" = Some (-42) ∧ ParseInt "4 2" = None ∧ FormatInt (-42) = "-42".
Proof. done. Qed.
