(* ===== verification/CommandFilter.v ===== *)
(** * Command preflight filters

    [internal/domain/command]: the chain of filters that every command passes
    before it is enqueued (filter.go), and the three filters by which running
    schedules, active curtailment events and release channels keep other commands
    off their miners. A filter is a record of its name and its [Apply]; what a
    filter reads from the stores is an argument. *)

From stdpp Require Import pretty.
From S2P Require Import Prelude Errors RolloutBehavior.
#[local] Open Scope string_scope.
#[local] Open Scope list_scope.
#[local] Open Scope Z_scope.
#[local] Open Scope go_scope.

Record CommandSkip := { ck_DeviceIdentifier : string; ck_FilterName : string; ck_Reason : string }.

Record CommandOutcome := {
  cr_BatchIdentifier : string;
  cr_DispatchedCount : Z;
  cr_Skipped : list CommandSkip;
  cr_DispatchedDeviceIdentifiers : list string
}.

(** [commandtype.Type], and the actors of a session; [ActorUser] is the empty
    one. *)
Inductive CommandType :=
| StartMiningType | StopMiningType | SetCoolingModeType | SetPowerTargetType | UpdateMiningPoolsType
| DownloadLogsType | RebootType | BlinkLEDType | FirmwareUpdateType | UnpairType | UpdateMinerPasswordType
| CurtailType | UncurtailType | ApplyCurtailmentConfigType.

Inductive Actor := ActorUser | ActorScheduler | ActorCurtailment | ActorRolloutEnforcement.

#[export] Instance CommandType_eq_dec : EqDecision CommandType.
Proof. solve_decision. Defined.
#[export] Instance Actor_eq_dec : EqDecision Actor.
Proof. solve_decision. Defined.

(** [session.Source]: zero for a command that no schedule sends. *)
Record Source := { so_ScheduleID : Z; so_SchedulePriority : Z }.

Record CommandFilterInput := {
  cf_CommandType : CommandType;
  cf_OrganizationID : Z;
  cf_Actor : Actor;
  cf_Source : Source;
  cf_DeviceIdentifiers : list string
}.

#[export] Instance eta_CommandFilterInput : Eta CommandFilterInput := λ i,
  {| cf_CommandType := cf_CommandType i; cf_OrganizationID := cf_OrganizationID i; cf_Actor := cf_Actor i;
     cf_Source := cf_Source i; cf_DeviceIdentifiers := cf_DeviceIdentifiers i |}.

Record CommandFilterOutput := { Kept : list string; FilterSkipped : list CommandSkip }.

Definition pass (i : CommandFilterInput) : CommandFilterOutput :=
  {| Kept := cf_DeviceIdentifiers i; FilterSkipped := [] |}.

(** The [CommandFilter] interface. *)
Record CommandFilter := {
  FilterName : string;
  Apply : CommandFilterInput → result FleetError CommandFilterOutput
}.

(** [applyFilters]: survivors of one filter are the input of the next. *)
Fixpoint apply_filters (filters : list CommandFilter) (i : CommandFilterInput) (kept : list string)
    (skipped : list CommandSkip) : result FleetError (list string * list CommandSkip) :=
  match filters with
  | [] => Ok (kept, skipped)
  | f :: rest =>
      if (length kept =? 0)%nat then Ok (kept, skipped)
      else
        out ← Apply f (i <| cf_DeviceIdentifiers := kept |>);
        apply_filters rest i (Kept out) (skipped ++ FilterSkipped out)
  end.

Definition applyFilters (filters : list CommandFilter) (i : CommandFilterInput)
    : result FleetError (list string * list CommandSkip) :=
  apply_filters filters i (cf_DeviceIdentifiers i) [].

(** The loop the three filters share: a device with a reason is skipped. *)
Definition partition_by (name : string) (reason : string → option string) (ids : list string)
    : CommandFilterOutput :=
  {| Kept := List.filter (λ id, negb (is_set (reason id))) ids;
     FilterSkipped := omap (λ id, (λ why, {| ck_DeviceIdentifier := id; ck_FilterName := name;
       ck_Reason := why |}) <$> reason id) ids |}.

(** ** Running schedules *)

Definition ScheduleConflictFilterName := "schedule_conflict".

Record ScheduleTargetOverlap := { ov_ScheduleID : Z; ov_SchedulePriority : Z; ov_DeviceIdentifier : string }.

(** Does this overlap block a command from this source? *)
Definition blocks (source : Source) (r : ScheduleTargetOverlap) : bool :=
  negb (ov_ScheduleID r =? so_ScheduleID source)
  && negb (negb (so_ScheduleID source =? 0) && (so_SchedulePriority source <=? ov_SchedulePriority r)).

(** The first schedule that blocks a device. *)
Definition blocking_schedule (source : Source) (overlaps : list ScheduleTargetOverlap) (id : string)
    : option Z :=
  ov_ScheduleID <$> List.find (λ r, blocks source r && (ov_DeviceIdentifier r == id)) overlaps.

Definition conflict_reason (source : Source) (blocking : Z) : string :=
  if so_ScheduleID source =? 0 then "schedule " +:+ pretty blocking +:+ " blocks set_power_target"
  else "schedule " +:+ pretty blocking +:+ " holds higher priority for set_power_target".

Definition ScheduleConflictFilter
    (overlapsOf : Z → list string → result FleetError (list ScheduleTargetOverlap)) : CommandFilter :=
  {| FilterName := ScheduleConflictFilterName;
     Apply i :=
       if bool_decide (cf_CommandType i ≠ SetPowerTargetType) then Ok (pass i)
       else if (length (cf_DeviceIdentifiers i) =? 0)%nat then Ok (pass i)
       else
         overlaps ← overlapsOf (cf_OrganizationID i) (cf_DeviceIdentifiers i);
         if negb (existsb (blocks (cf_Source i)) overlaps) then Ok (pass i)
         else Ok (partition_by ScheduleConflictFilterName
           (λ id, conflict_reason (cf_Source i) <$> blocking_schedule (cf_Source i) overlaps id)
           (cf_DeviceIdentifiers i)) |}.

(** ** Active curtailment *)

Definition CurtailmentActiveFilterName := "curtailment_active".
Definition curtailmentActiveSkipReason := "device is part of an active curtailment event".

Definition CurtailmentActiveFilter (activeDevices : Z → result FleetError (list string)) : CommandFilter :=
  {| FilterName := CurtailmentActiveFilterName;
     Apply i :=
       if bool_decide (cf_CommandType i = ApplyCurtailmentConfigType) then Ok (pass i)
       else if bool_decide (cf_Actor i = ActorCurtailment)
            && (bool_decide (cf_CommandType i = CurtailType) || bool_decide (cf_CommandType i = UncurtailType))
       then Ok (pass i)
       else if (length (cf_DeviceIdentifiers i) =? 0)%nat then Ok (pass i)
       else
         active ← activeDevices (cf_OrganizationID i);
         if (length active =? 0)%nat then Ok (pass i)
         else Ok (partition_by CurtailmentActiveFilterName
           (λ id, if bool_decide (id ∈ active) then Some curtailmentActiveSkipReason else None)
           (cf_DeviceIdentifiers i)) |}.

(** ** Release channels *)

Definition releaseChannelFirmwareFilterName := "release_channel_firmware".

Record ManagedDevice := { md_DeviceIdentifier : string; md_ChannelName : string }.

(** The channel that manages a device: the last row wins. *)
Definition managing_channel (managed : list ManagedDevice) (id : string) : option string :=
  md_ChannelName <$> List.find (λ m, md_DeviceIdentifier m == id) (rev managed).

Definition channel_reason (channel : string) : string :=
  "firmware is managed by release channel " +:+ channel.

Definition ReleaseChannelFirmwareFilter
    (managedDevices : Z → list string → result FleetError (list ManagedDevice)) : CommandFilter :=
  {| FilterName := releaseChannelFirmwareFilterName;
     Apply i :=
       if bool_decide (cf_CommandType i ≠ FirmwareUpdateType)
          || bool_decide (cf_Actor i = ActorRolloutEnforcement) || (length (cf_DeviceIdentifiers i) =? 0)%nat
       then Ok (pass i)
       else
         managed ← managedDevices (cf_OrganizationID i) (cf_DeviceIdentifiers i);
         Ok (partition_by releaseChannelFirmwareFilterName
           (λ id, channel_reason <$> managing_channel managed id) (cf_DeviceIdentifiers i)) |}.

(** * The preflight filters partition a command's devices

    What the command service relies on in a filter is the class [Selective]: a
    filter keeps the devices a predicate accepts and names every other one. The
    chain is proved against the class, and each of the three filters is an
    instance. *)

Class Selective (f : CommandFilter) (keep : CommandFilterInput → string → bool) : Prop := {
  selects_kept i out : Apply f i = Ok out → Kept out = List.filter (keep i) (cf_DeviceIdentifiers i);
  selects_skipped i out : Apply f i = Ok out →
    map ck_DeviceIdentifier (FilterSkipped out) = List.filter (λ id, negb (keep i id)) (cf_DeviceIdentifiers i);
  selects_name i out : Apply f i = Ok out → Forall (λ s, ck_FilterName s = FilterName f) (FilterSkipped out)
}.

Lemma filter_split {A} (p : A → bool) (l : list A) :
  List.filter p l ++ List.filter (λ x, negb (p x)) l ≡ₚ l.
Proof.
  induction l as [|x l IH]; [done|]. simpl. destruct (p x); simpl; [by rewrite IH|].
  rewrite <- Permutation_middle. by rewrite IH.
Qed.

Lemma list_filter_sublist {A} (p : A → bool) (l : list A) : List.filter p l `sublist_of` l.
Proof.
  induction l as [|x l IH]; [done|]. simpl. destruct (p x); [by apply sublist_skip|by apply sublist_cons].
Qed.

Lemma filter_true {A} (p : A → bool) (l : list A) : (∀ x, x ∈ l → p x = true) → List.filter p l = l.
Proof.
  induction l as [|x l IH]; [done|]. intros Hp. simpl. rewrite (Hp x) by left.
  f_equal. apply IH. intros y Hy. apply Hp. by right.
Qed.

Lemma filter_false {A} (p : A → bool) (l : list A) : (∀ x, x ∈ l → p x = false) → List.filter p l = [].
Proof.
  induction l as [|x l IH]; [done|]. intros Hp. simpl. rewrite (Hp x) by left.
  apply IH. intros y Hy. apply Hp. by right.
Qed.

(** ** The chain *)

(** Was the device kept by this predicate, on an input of the chain that held
    it? *)
Definition passed (i : CommandFilterInput) (keep : CommandFilterInput → string → bool) (id : string) : Prop :=
  ∃ ids, id ∈ ids ∧ ids ⊆ cf_DeviceIdentifiers i ∧ keep (i <| cf_DeviceIdentifiers := ids |>) id = true.

Lemma apply_filters_spec filters i :
  Forall (λ fk : CommandFilter * (CommandFilterInput → string → bool), Selective fk.1 fk.2) filters →
  ∀ kept0 skipped0 kept skipped, kept0 ⊆ cf_DeviceIdentifiers i →
  apply_filters (map fst filters) i kept0 skipped0 = Ok (kept, skipped) →
  kept `sublist_of` kept0
  ∧ (∃ more, skipped = skipped0 ++ more ∧ kept ++ map ck_DeviceIdentifier more ≡ₚ kept0
     ∧ Forall (λ s, ck_FilterName s ∈ map (λ fk, FilterName fk.1) filters) more)
  ∧ (∀ id fk, id ∈ kept → fk ∈ filters → passed i fk.2 id).
Proof.
  induction 1 as [|[f keep] rest Hf _ IH]; intros kept0 skipped0 kept skipped Hsub Happ.
  { simpl in Happ. simplify_eq. split_and!; [done| |by intros ? ? ? ?%elem_of_nil].
    exists []. by rewrite !app_nil_r. }
  simpl in Happ. destruct (length kept0 =? 0)%nat eqn:E.
  { destruct kept0; [|done]. simplify_eq. split_and!; [done| |by intros ? ? ?%elem_of_nil].
    exists []. by rewrite app_nil_r. }
  destruct (Apply f _) as [out|] eqn:Hout; [|done]. simpl in Happ.
  pose proof (selects_kept _ _ Hout) as Hk. pose proof (selects_skipped _ _ Hout) as Hs.
  pose proof (selects_name _ _ Hout) as Hn. simpl in Hk, Hs.
  assert (Hkept : Kept out `sublist_of` kept0).
  { rewrite Hk. apply list_filter_sublist. }
  apply IH in Happ as (Hsl & (more & -> & Hperm & Hnames) & Hpass);
    [|intros x Hx; apply Hsub; by eapply elem_of_sublist, Hkept].
  split_and!.
  - by etrans.
  - exists (FilterSkipped out ++ more). rewrite <- app_assoc. split; [done|]. split.
    + rewrite map_app, Hs, (Permutation_app_comm (List.filter _ _)), app_assoc, Hperm, Hk.
      apply filter_split.
    + apply Forall_app; split; eapply Forall_impl; try done; simpl; intros s Hs'; [rewrite Hs'; left|by right].
  - intros id fk Hid [->|Hfk]%elem_of_cons; [|by apply Hpass]. exists kept0. simpl.
    assert (Hin : id ∈ Kept out) by (by eapply elem_of_sublist, Hsl).
    rewrite Hk in Hin. apply list_elem_of_In, filter_In in Hin as [Hin Hkeep].
    split_and!; [by apply list_elem_of_In|done|done].
Qed.

(** ** The filters *)

Lemma pass_selective i (keep : string → bool) :
  (∀ id, id ∈ cf_DeviceIdentifiers i → keep id = true) →
  Kept (pass i) = List.filter keep (cf_DeviceIdentifiers i)
  ∧ map ck_DeviceIdentifier (FilterSkipped (pass i)) = List.filter (λ id, negb (keep id)) (cf_DeviceIdentifiers i).
Proof.
  intros Hk. split; simpl; [by rewrite filter_true|]. rewrite filter_false; [done|].
  intros id Hid. by rewrite (Hk id Hid).
Qed.

Lemma partition_by_selective name reason ids :
  map ck_DeviceIdentifier (FilterSkipped (partition_by name reason ids))
    = List.filter (λ id, negb (negb (is_set (reason id)))) ids
  ∧ Forall (λ s, ck_FilterName s = name) (FilterSkipped (partition_by name reason ids)).
Proof.
  induction ids as [|x l [IH1 IH2]]; [done|]. simpl in *. destruct (reason x); simpl; [|done].
  split; [by f_equal|by constructor].
Qed.

Lemma selective_intro f keep :
  (∀ i out, Apply f i = Ok out →
    (out = pass i ∧ (∀ id, id ∈ cf_DeviceIdentifiers i → keep i id = true))
    ∨ (∃ reason, out = partition_by (FilterName f) reason (cf_DeviceIdentifiers i)
       ∧ (∀ id, id ∈ cf_DeviceIdentifiers i → keep i id = negb (is_set (reason id))))) →
  Selective f keep.
Proof.
  intros Hf.
  assert (Hext : ∀ (p q : string → bool) l, (∀ x, x ∈ l → p x = q x) → List.filter p l = List.filter q l).
  { intros p q l. induction l as [|x l IH]; [done|]. intros Hpq. simpl. rewrite (Hpq x) by left.
    by rewrite IH by (intros y Hy; apply Hpq; by right). }
  split; intros i out Ho; destruct (Hf i out Ho) as [[-> Hk]|(reason & -> & Hk)].
  - by apply pass_selective.
  - simpl. symmetry. by apply Hext.
  - by apply pass_selective.
  - rewrite (proj1 (partition_by_selective _ _ _)). apply Hext. intros x Hx. by rewrite (Hk x Hx).
  - constructor.
  - apply partition_by_selective.
Qed.

(** A power target is kept off the devices of other running schedules. *)
Definition no_conflict (overlapsOf : Z → list string → result FleetError (list ScheduleTargetOverlap))
    (i : CommandFilterInput) (id : string) : bool :=
  negb (bool_decide (cf_CommandType i = SetPowerTargetType)
    && match overlapsOf (cf_OrganizationID i) (cf_DeviceIdentifiers i) with
       | Ok overlaps => is_set (blocking_schedule (cf_Source i) overlaps id)
       | Err _ => false
       end).

Lemma is_set_fmap {A B} (f : A → B) (o : option A) : is_set (f <$> o) = is_set o.
Proof. by destruct o. Qed.

#[export] Instance conflict_selective overlapsOf :
  Selective (ScheduleConflictFilter overlapsOf) (no_conflict overlapsOf).
Proof.
  apply selective_intro. intros i out Ho. simpl in Ho. unfold no_conflict.
  destruct (bool_decide (cf_CommandType i ≠ SetPowerTargetType)) eqn:E1; crush_bools.
  { left. simplify_eq. split; [done|]. intros id _. by rewrite bool_decide_eq_false_2. }
  apply dec_stable in E1. destruct (length _ =? 0)%nat eqn:E2.
  { left. simplify_eq. split; [done|]. destruct (cf_DeviceIdentifiers i); [|done]. by intros ? ?%elem_of_nil. }
  destruct (overlapsOf _ _) as [overlaps|]; [|done]. simpl in Ho.
  destruct (existsb _ overlaps) eqn:E3; simpl in Ho; simplify_eq.
  - right. eexists. split; [done|]. intros id _. rewrite E1. simpl. by rewrite is_set_fmap.
  - left. split; [done|]. intros id _. rewrite E1. simpl. unfold blocking_schedule.
    rewrite is_set_fmap. destruct (List.find _ overlaps) as [r|] eqn:Ef; [|done].
    apply find_some in Ef as [Hin [Hb _]%andb_prop].
    rewrite <- not_true_iff_false in E3. destruct E3. apply existsb_exists. eauto.
Qed.

(** No command, but those of a curtailment itself, reaches a curtailed device. *)
Definition exempt_from_curtailment (i : CommandFilterInput) : bool :=
  bool_decide (cf_CommandType i = ApplyCurtailmentConfigType)
  || bool_decide (cf_Actor i = ActorCurtailment)
     && (bool_decide (cf_CommandType i = CurtailType) || bool_decide (cf_CommandType i = UncurtailType)).

Definition not_curtailed (activeDevices : Z → result FleetError (list string)) (i : CommandFilterInput)
    (id : string) : bool :=
  exempt_from_curtailment i
  || match activeDevices (cf_OrganizationID i) with Ok active => negb (bool_decide (id ∈ active)) | Err _ => true end.

#[export] Instance curtailment_selective activeDevices :
  Selective (CurtailmentActiveFilter activeDevices) (not_curtailed activeDevices).
Proof.
  apply selective_intro. intros i out Ho. simpl in Ho. unfold not_curtailed, exempt_from_curtailment.
  destruct (bool_decide (cf_CommandType i = ApplyCurtailmentConfigType)); [left; by simplify_eq|].
  destruct (bool_decide (cf_Actor i = ActorCurtailment) && _); [left; by simplify_eq|].
  destruct (length _ =? 0)%nat eqn:E2.
  { left. simplify_eq. split; [done|]. destruct (cf_DeviceIdentifiers i); [|done]. by intros ? ?%elem_of_nil. }
  destruct (activeDevices _) as [active|]; [|done]. simpl in *.
  destruct (length active =? 0)%nat eqn:E3; simplify_eq.
  - left. split; [done|]. intros id _. destruct active; [|done]. by rewrite bool_decide_eq_false_2 by apply not_elem_of_nil.
  - right. eexists. split; [done|]. intros id _. simpl. by case_bool_decide.
Qed.

(** Firmware goes to a managed device through its channel's rollout only. *)
Definition not_managed (managedDevices : Z → list string → result FleetError (list ManagedDevice))
    (i : CommandFilterInput) (id : string) : bool :=
  bool_decide (cf_CommandType i ≠ FirmwareUpdateType) || bool_decide (cf_Actor i = ActorRolloutEnforcement)
  || match managedDevices (cf_OrganizationID i) (cf_DeviceIdentifiers i) with
     | Ok managed => negb (is_set (managing_channel managed id))
     | Err _ => true
     end.

#[export] Instance managed_selective managedDevices :
  Selective (ReleaseChannelFirmwareFilter managedDevices) (not_managed managedDevices).
Proof.
  apply selective_intro. intros i out Ho. simpl in Ho. unfold not_managed.
  destruct (bool_decide (cf_CommandType i ≠ _)).
  { left. simpl in Ho. by simplify_eq. }
  destruct (bool_decide (cf_Actor i = _)); [left; simpl in Ho; by simplify_eq|]. simpl in *.
  destruct (length _ =? 0)%nat eqn:E2.
  { left. simplify_eq. split; [done|]. destruct (cf_DeviceIdentifiers i); [|done]. by intros ? ?%elem_of_nil. }
  destruct (managedDevices _ _) as [managed|]; [|done]. simpl in *. simplify_eq.
  right. eexists. split; [done|]. intros id _. simpl. by destruct (managing_channel managed id).
Qed.

(** ** What the keepers mean *)

Lemma no_conflict_spec overlapsOf i id rows :
  no_conflict overlapsOf i id = true → cf_CommandType i = SetPowerTargetType →
  overlapsOf (cf_OrganizationID i) (cf_DeviceIdentifiers i) = Ok rows →
  ∀ r, r ∈ rows → ov_DeviceIdentifier r = id → blocks (cf_Source i) r = false.
Proof.
  unfold no_conflict. intros H1 E Ho r Hr Hd. rewrite E, Ho in H1. simpl in H1. apply negb_true_iff in H1.
  apply not_true_iff_false. intros Hb. unfold blocking_schedule in H1. rewrite is_set_fmap in H1.
  destruct (List.find _ rows) eqn:Ef; [done|].
  pose proof (find_none _ _ Ef r (proj1 (list_elem_of_In _ _) Hr)) as Hn. simpl in Hn.
  rewrite Hb, bool_decide_eq_true_2 in Hn; done.
Qed.

Lemma not_curtailed_spec activeDevices i id active :
  not_curtailed activeDevices i id = true → exempt_from_curtailment i = false →
  activeDevices (cf_OrganizationID i) = Ok active → id ∉ active.
Proof. unfold not_curtailed. intros H1 E Ho. rewrite E, Ho in H1. simpl in H1. by crush_bools. Qed.

Lemma not_managed_spec managedDevices i id managed :
  not_managed managedDevices i id = true → cf_CommandType i = FirmwareUpdateType →
  cf_Actor i ≠ ActorRolloutEnforcement →
  managedDevices (cf_OrganizationID i) (cf_DeviceIdentifiers i) = Ok managed →
  id ∉ map md_DeviceIdentifier managed.
Proof.
  unfold not_managed. intros H1 E1 E2 Ho. rewrite Ho, E1 in H1.
  rewrite (bool_decide_eq_false_2 (_ = ActorRolloutEnforcement)) in H1 by done. simpl in H1.
  unfold managing_channel in H1. rewrite is_set_fmap in H1. intros (m & -> & Hm)%list_elem_of_fmap.
  destruct (List.find _ (rev managed)) eqn:Ef; [done|].
  pose proof (find_none _ _ Ef m) as Hn. rewrite <- in_rev, <- list_elem_of_In in Hn.
  specialize (Hn Hm). simpl in Hn. by rewrite bool_decide_eq_true_2 in Hn.
Qed.
