(* ===== verification/ScheduleCron.v ===== *)
(** * Schedules and their next run

    The schedule messages of the API and [internal/domain/schedule/cron.go]: the
    cron expression of a recurrence and the next run of a schedule. The time zone
    database and the cron library are the class [Calendar]: a location for a zone
    name, and for an expression the function from an instant to the next
    activation after it. *)

From stdpp Require Import pretty.
From S2P Require Import Prelude Errors RolloutBehavior GoTime.
#[local] Open Scope string_scope.
#[local] Open Scope list_scope.
#[local] Open Scope Z_scope.
#[local] Open Scope go_scope.

(** ** Messages

    The enums of the API are open: any int32 may arrive. *)

Definition SCHEDULE_STATUS_UNSPECIFIED : Z := 0.
Definition SCHEDULE_STATUS_ACTIVE : Z := 1.
Definition SCHEDULE_STATUS_PAUSED : Z := 2.
Definition SCHEDULE_STATUS_RUNNING : Z := 3.
Definition SCHEDULE_STATUS_COMPLETED : Z := 4.

Definition SCHEDULE_ACTION_UNSPECIFIED : Z := 0.
Definition SCHEDULE_ACTION_SET_POWER_TARGET : Z := 1.
Definition SCHEDULE_ACTION_REBOOT : Z := 2.
Definition SCHEDULE_ACTION_SLEEP : Z := 3.

Definition SCHEDULE_TYPE_UNSPECIFIED : Z := 0.
Definition SCHEDULE_TYPE_ONE_TIME : Z := 1.
Definition SCHEDULE_TYPE_RECURRING : Z := 2.

Definition RECURRENCE_FREQUENCY_UNSPECIFIED : Z := 0.
Definition RECURRENCE_FREQUENCY_DAILY : Z := 1.
Definition RECURRENCE_FREQUENCY_WEEKLY : Z := 2.
Definition RECURRENCE_FREQUENCY_MONTHLY : Z := 3.

Definition POWER_TARGET_MODE_UNSPECIFIED : Z := 0.
Definition POWER_TARGET_MODE_DEFAULT : Z := 1.
Definition POWER_TARGET_MODE_MAX : Z := 2.

Definition DAY_OF_WEEK_UNSPECIFIED : Z := 0.
Definition DAY_OF_WEEK_SUNDAY : Z := 1.
Definition DAY_OF_WEEK_SATURDAY : Z := 7.

Definition SCHEDULE_TARGET_TYPE_UNSPECIFIED : Z := 0.
Definition SCHEDULE_TARGET_TYPE_RACK : Z := 1.
Definition SCHEDULE_TARGET_TYPE_MINER : Z := 2.
Definition SCHEDULE_TARGET_TYPE_GROUP : Z := 3.
Definition SCHEDULE_TARGET_TYPE_SITE : Z := 4.
Definition SCHEDULE_TARGET_TYPE_BUILDING : Z := 5.

Record ScheduleRecurrence := {
  Frequency : Z;
  Interval : Z;
  DaysOfWeek : list Z;
  DayOfMonth : option Z
}.

Record ScheduleTarget := { st_TargetType : Z; st_TargetId : string }.

#[export] Instance ScheduleTarget_eq_dec : EqDecision ScheduleTarget.
Proof. solve_decision. Defined.

(** [pb.Schedule]; the creation and update times and the creator's name, which no
    decision reads, are left out. [sc_ActionConfig] is the mode of a
    [PowerTargetConfig]. *)
Record Schedule := {
  sc_Id : Z;
  sc_Name : string;
  sc_Action : Z;
  sc_ActionConfig : option Z;
  sc_ScheduleType : Z;
  sc_Recurrence : option ScheduleRecurrence;
  sc_StartDate : string;
  sc_StartTime : string;
  sc_EndTime : string;
  sc_EndDate : string;
  sc_Timezone : string;
  sc_Status : Z;
  sc_Priority : Z;
  sc_CreatedBy : Z;
  sc_LastRunAt : option Z;
  sc_NextRunAt : option Z;
  sc_Targets : list ScheduleTarget
}.

#[export] Instance eta_Schedule : Eta Schedule := λ s,
  {| sc_Id := sc_Id s; sc_Name := sc_Name s; sc_Action := sc_Action s;
     sc_ActionConfig := sc_ActionConfig s; sc_ScheduleType := sc_ScheduleType s;
     sc_Recurrence := sc_Recurrence s; sc_StartDate := sc_StartDate s; sc_StartTime := sc_StartTime s;
     sc_EndTime := sc_EndTime s; sc_EndDate := sc_EndDate s; sc_Timezone := sc_Timezone s;
     sc_Status := sc_Status s; sc_Priority := sc_Priority s; sc_CreatedBy := sc_CreatedBy s;
     sc_LastRunAt := sc_LastRunAt s; sc_NextRunAt := sc_NextRunAt s; sc_Targets := sc_Targets s |}.

(** ** Cron expressions *)

Definition protoDayToCron (d : Z) : option string :=
  if between DAY_OF_WEEK_SUNDAY DAY_OF_WEEK_SATURDAY d then Some (pretty (d - 1)) else None.

(** "15:04", else "15:04:05". *)
Definition parseClockValue (value : string) : option clock :=
  match Parse layout_clock value with
  | Some t => Some t
  | None => Parse layout_clock_seconds value
  end.

Definition normalizeClockValue (value : string) : option string :=
  Format layout_clock <$> parseClockValue value.

Definition cron_fields (freq : Z) (t : clock) (daysOfWeek : list Z) (dayOfMonth : option Z) : option string :=
  let at_ := pretty (c_min t) +:+ " " +:+ pretty (c_hour t) in
  if freq =? RECURRENCE_FREQUENCY_DAILY then Some (at_ +:+ " * * *")
  else if freq =? RECURRENCE_FREQUENCY_WEEKLY then
    match omap protoDayToCron daysOfWeek with
    | [] => None
    | days => Some (at_ +:+ " * * " +:+ String.concat "," days)
    end
  else if freq =? RECURRENCE_FREQUENCY_MONTHLY then
    (λ d, at_ +:+ " " +:+ pretty d +:+ " * *") <$> dayOfMonth
  else None.

Definition ToCronExpression (freq : Z) (startTime timezone : string) (daysOfWeek : list Z)
    (dayOfMonth : option Z) : option string :=
  t ← parseClockValue startTime;
  fields ← cron_fields freq t daysOfWeek dayOfMonth;
  Some ("CRON_TZ=" +:+ timezone +:+ " " +:+ fields).

Example cron_ex : ToCronExpression RECURRENCE_FREQUENCY_WEEKLY "07:30" "America/Chicago" [2; 4; 6] None
  = Some "CRON_TZ=America/Chicago 30 7 * * 1,3,5".
Proof. reflexivity. Qed.

(** ** The next run *)

Class Calendar := {
  LoadLocation : string → option Location;
  (** [cronParser.Parse], the schedule it returns as its [Next]. *)
  cronNext : string → option (Z → Z)
}.

(** The last second of a local day. *)
Definition endOfDay (loc : Location) (t : Z) : Z :=
  let c := local_date loc t in
  Date (d_year c) (d_month c) (d_day c + 1) 0 0 0 loc * Second - Second.

Section NextRun.
Context `{Calendar}.

Definition ParseScheduleTime (date timeStr timezone : string) : option Z :=
  loc ← LoadLocation timezone;
  normalizedTime ← normalizeClockValue timeStr;
  sec ← ParseInLocation layout_datetime (date +:+ " " +:+ normalizedTime) loc;
  Some (sec * Second).

(** The instant a date begins, with its location. *)
Definition parseDateInLocation (date timezone : string) : option (Z * Location) :=
  loc ← LoadLocation timezone;
  sec ← ParseInLocation layout_date date loc;
  Some (sec * Second, loc).

(** The outer option is the error, the inner one a schedule with no run left. *)
Definition before_deadline (sched : Schedule) (t : Z) : option (option Z) :=
  if sc_EndDate sched == "" then Some (Some t)
  else
    '(deadline, loc) ← parseDateInLocation (sc_EndDate sched) (sc_Timezone sched);
    Some (if endOfDay loc deadline <? t then None else Some t).

Definition computeNextRunOneTime (sched : Schedule) (after : Z) : option (option Z) :=
  t ← ParseScheduleTime (sc_StartDate sched) (sc_StartTime sched) (sc_Timezone sched);
  r ← before_deadline sched t;
  Some (t ← r; if negb (after <? t) then None else Some t).

Definition computeNextRunRecurring (sched : Schedule) (after : Z) : option (option Z) :=
  rec ← sc_Recurrence sched;
  expr ← ToCronExpression (Frequency rec) (sc_StartTime sched) (sc_Timezone sched) (DaysOfWeek rec)
    (DayOfMonth rec);
  next ← cronNext expr;
  '(startDate, _) ← parseDateInLocation (sc_StartDate sched) (sc_Timezone sched);
  let earliest := if after <? startDate then startDate - Second else after in
  before_deadline sched (next earliest).

Definition ComputeNextRun (sched : Schedule) (after : Z) : option (option Z) :=
  if sc_ScheduleType sched =? SCHEDULE_TYPE_ONE_TIME then computeNextRunOneTime sched after
  else computeNextRunRecurring sched after.

End NextRun.

(** * The next run of a schedule

    [due] is the specification of a schedule's runs: the instants its recurrence
    (or its date and time) names within its start and end dates. [ComputeNextRun]
    returns the first that is after the given instant, or that there is none. The
    laws of the cron library that this needs are the class [CronLaws]. *)

(** ** End of day *)

(** Where the offset does not change, a wall clock reading denotes the instant
    that shows it. *)
Lemma Date_steady y m d hh mm ss loc o :
  let unix := day_number y m d * Day + hh * 3600 + mm * 60 + ss in
  offset_at loc unix = o → offset_at loc (unix - o) = o → Date y m d hh mm ss loc = unix - o.
Proof.
  intros unix H1 H2. unfold Date. fold unix. unfold offset_at in H1.
  destruct (lookup_zone loc unix) as [[o' s] e]. simpl in H1. subst o'.
  destruct (o =? 0) eqn:E; crush_bools; [lia|].
  destruct ((unix - o <? s) || (e <=? unix - o)); lia.
Qed.

(** The next midnight of the local date of [t], read as if UTC. *)
Definition next_midnight (loc : Location) (t : Z) : Z := (wall loc t / Day + 1) * Day.

Lemma Unix_mul s : Unix (s * Second) = s.
Proof. unfold Unix. apply Z.div_mul. unfold Second. lia. Qed.

Lemma day_number_next c n :
  d_year c = d_year (civil n) → d_month c = d_month (civil n) → d_day c = d_day (civil n) →
  day_number (d_year c) (d_month c) (d_day c + 1) = n + 1.
Proof.
  intros -> -> ->. rewrite <- (day_number_civil n) at 4. unfold day_number. lia.
Qed.

Lemma endOfDay_steady loc t o :
  offset_at loc (next_midnight loc t) = o → offset_at loc (next_midnight loc t - o) = o →
  endOfDay loc t = (next_midnight loc t - o - 1) * Second.
Proof.
  intros H1 H2. unfold endOfDay. cbv zeta.
  assert (Hday : day_number (d_year (local_date loc t)) (d_month (local_date loc t)) (d_day (local_date loc t) + 1)
    = wall loc t / Day + 1) by (by apply day_number_next).
  rewrite (Date_steady _ _ _ _ _ _ _ o); rewrite Hday; unfold next_midnight in *;
    rewrite ?Z.mul_0_l, ?Z.add_0_r; [lia|done|done].
Qed.

(** Where the zone's offset does not change around the next midnight, the end of a day is the
    last second of that local day: it has the same date, its clock shows 23:59:59, and the next
    second is the next day. *)
Theorem endOfDay_is_the_last_second loc t o :
  offset_at loc (next_midnight loc t) = o → offset_at loc (next_midnight loc t - o) = o →
  offset_at loc (next_midnight loc t - o - 1) = o →
  local_date loc (endOfDay loc t) = local_date loc t
  ∧ wall loc (endOfDay loc t) mod Day = Day - 1
  ∧ local_date loc (endOfDay loc t + Second) = civil (wall loc t / Day + 1).
Proof.
  intros H1 H2 H3. rewrite (endOfDay_steady loc t o) by done.
  assert (Hw : wall loc ((next_midnight loc t - o - 1) * Second) = next_midnight loc t - 1).
  { unfold wall. rewrite Unix_mul, H3. lia. }
  assert (Hw' : wall loc ((next_midnight loc t - o - 1) * Second + Second) = next_midnight loc t).
  { replace ((next_midnight loc t - o - 1) * Second + Second) with ((next_midnight loc t - o) * Second) by lia.
    unfold wall. rewrite Unix_mul, H2. lia. }
  unfold local_date. rewrite Hw, Hw'. unfold next_midnight, Day. set (k := wall loc t / 86400).
  split_and!; [f_equal; div_lia|div_lia|f_equal; div_lia].
Qed.

(** ** Runs *)

Class CronLaws `{Calendar} := {
  activation : string → Z → Prop;
  activation_seconds expr u : activation expr u → ∃ s, u = s * Second;
  cronNext_first expr next t : cronNext expr = Some next →
    activation expr (next t) ∧ t < next t ∧ ∀ u, activation expr u → t < u → next t <= u
}.

Section Runs.
Context `{CronLaws}.

Definition within_end_date (sched : Schedule) (u : Z) : Prop :=
  sc_EndDate sched = "" ∨
  ∃ deadline loc, parseDateInLocation (sc_EndDate sched) (sc_Timezone sched) = Some (deadline, loc)
    ∧ u <= endOfDay loc deadline.

(** An instant at which the schedule is to run. *)
Definition due (sched : Schedule) (u : Z) : Prop :=
  within_end_date sched u ∧
  if sc_ScheduleType sched =? SCHEDULE_TYPE_ONE_TIME then
    ParseScheduleTime (sc_StartDate sched) (sc_StartTime sched) (sc_Timezone sched) = Some u
  else ∃ rec expr startDate loc, sc_Recurrence sched = Some rec
    ∧ ToCronExpression (Frequency rec) (sc_StartTime sched) (sc_Timezone sched) (DaysOfWeek rec)
        (DayOfMonth rec) = Some expr
    ∧ parseDateInLocation (sc_StartDate sched) (sc_Timezone sched) = Some (startDate, loc)
    ∧ activation expr u ∧ startDate <= u.

(** [first P after r]: [r] is the least instant of [P] after [after]. *)
Definition first_after (P : Z → Prop) (after : Z) (r : option Z) : Prop :=
  match r with
  | Some t => P t ∧ after < t ∧ ∀ u, P u → after < u → t <= u
  | None => ∀ u, P u → u <= after
  end.

Lemma before_deadline_spec sched t r :
  before_deadline sched t = Some r →
  (r = Some t ∧ within_end_date sched t) ∨ (r = None ∧ ∀ u, t <= u → ¬ within_end_date sched u).
Proof.
  unfold before_deadline, within_end_date. case_if; [intros; simplify_eq; eauto|].
  destruct (parseDateInLocation _ _) as [[deadline loc]|]; [|done]. simpl.
  destruct (endOfDay loc deadline <? t) eqn:Ed; crush_bools; intros; simplify_eq.
  - right. split; [done|]. intros u Hu [?|(d & l & ? & ?)]; simplify_eq; lia.
  - left. split; [done|]. right. eauto.
Qed.

Lemma parseDate_seconds date tz t loc : parseDateInLocation date tz = Some (t, loc) → ∃ s, t = s * Second.
Proof.
  unfold parseDateInLocation. destruct (LoadLocation tz); simpl; [|done].
  destruct (ParseInLocation _ _ _); simpl; [|done]. intros; simplify_eq. eauto.
Qed.

Lemma one_time_first sched after r :
  sc_ScheduleType sched = SCHEDULE_TYPE_ONE_TIME → computeNextRunOneTime sched after = Some r →
  first_after (due sched) after r.
Proof.
  intros Ht. unfold computeNextRunOneTime, due. rewrite Ht, Z.eqb_refl.
  destruct (ParseScheduleTime _ _ _) as [t|]; simpl; [|done].
  destruct (before_deadline sched t) as [r'|] eqn:Eb; simpl; [|done].
  destruct (before_deadline_spec _ _ _ Eb) as [[-> Hw]|[-> Hw]]; simpl; intros; simplify_eq.
  - destruct (after <? t) eqn:Ea; crush_bools; simpl; [split_and!|]; try done; naive_solver lia.
  - intros u [Hu1 Hu2]. simplify_eq. exfalso. by apply (Hw u).
Qed.

(** The first activation from the start date on. *)
Lemma next_from_start expr next startDate after :
  cronNext expr = Some next → (∃ s, startDate = s * Second) →
  let t := next (if after <? startDate then startDate - Second else after) in
  activation expr t ∧ after < t ∧ startDate <= t
  ∧ ∀ u, activation expr u → startDate <= u → after < u → t <= u.
Proof.
  intros Hn [s Hs] t. destruct (cronNext_first expr next (if after <? startDate then startDate - Second else after) Hn)
    as (Hact & Hgt & Hleast).
  destruct (activation_seconds _ _ Hact) as [s' Hs']. fold t in Hact, Hgt, Hleast, Hs'.
  destruct (after <? startDate) eqn:E; crush_bools; unfold Second in *.
  - split_and!; [done|nia|nia|]. intros u Hu Hu1 Hu2. apply Hleast; [done|lia].
  - split_and!; [done|lia|lia|]. intros u Hu Hu1 Hu2. by apply Hleast.
Qed.

Lemma recurring_first sched after r :
  sc_ScheduleType sched ≠ SCHEDULE_TYPE_ONE_TIME → computeNextRunRecurring sched after = Some r →
  first_after (due sched) after r.
Proof.
  intros Ht. unfold computeNextRunRecurring, due. rewrite (proj2 (Z.eqb_neq _ _) Ht).
  destruct (sc_Recurrence sched) as [rec|] eqn:Er; simpl; [|done].
  destruct (ToCronExpression _ _ _ _ _) as [expr|] eqn:Ee; simpl; [|done].
  destruct (cronNext expr) as [next|] eqn:En; simpl; [|done].
  destruct (parseDateInLocation (sc_StartDate sched) _) as [[startDate loc]|] eqn:Es; simpl; [|done].
  destruct (next_from_start expr next startDate after En (parseDate_seconds _ _ _ _ Es)) as (H1 & H2 & H3 & H4).
  intros [[-> Hw]|[-> Hw]]%before_deadline_spec; simpl.
  - split_and!; [done|eauto 9|done|]. intros u [_ (rec' & expr' & sd & l & ? & ? & ? & ? & ?)] Hu.
    simplify_eq. by apply H4.
  - intros u [Hwu (rec' & expr' & sd & l & ? & ? & ? & ? & ?)]. simplify_eq.
    destruct (Z.le_gt_cases u after) as [|Hu]; [done|]. exfalso. apply (Hw u); [|done]. apply H4; [done..|lia].
Qed.


End Runs.
