(* ===== verification/ScheduleStore.v ===== *)
(** * The schedule tables

    The tables of [migrations/000024_create_schedules.up.sql], the statements of
    [sqlc/queries/schedule.sql] and the store that runs them
    ([stores/sqlstores/schedule.go]): one function per statement, the conversions
    between rows and messages, and the unique index on priorities, which a
    statement checks row by row. *)

From S2P Require Import Prelude GoSort Errors RolloutBehavior GoTime ScheduleCron.
#[local] Open Scope string_scope.
#[local] Open Scope list_scope.
#[local] Open Scope Z_scope.
#[local] Open Scope go_scope.

Definition statusActive := "active".
Definition statusPaused := "paused".
Definition statusRunning := "running".
Definition statusCompleted := "completed".

(** ** Enum converters *)

Definition scheduleActionToString (a : Z) : string :=
  if a =? SCHEDULE_ACTION_SET_POWER_TARGET then "set_power_target"
  else if a =? SCHEDULE_ACTION_REBOOT then "reboot"
  else if a =? SCHEDULE_ACTION_SLEEP then "sleep"
  else "unknown".

Definition stringToScheduleAction (s : string) : Z :=
  if s == "set_power_target" then SCHEDULE_ACTION_SET_POWER_TARGET
  else if s == "reboot" then SCHEDULE_ACTION_REBOOT
  else if s == "sleep" then SCHEDULE_ACTION_SLEEP
  else SCHEDULE_ACTION_UNSPECIFIED.

Definition scheduleTypeToString (t : Z) : string :=
  if t =? SCHEDULE_TYPE_ONE_TIME then "one_time"
  else if t =? SCHEDULE_TYPE_RECURRING then "recurring"
  else "unknown".

Definition stringToScheduleType (s : string) : Z :=
  if s == "one_time" then SCHEDULE_TYPE_ONE_TIME
  else if s == "recurring" then SCHEDULE_TYPE_RECURRING
  else SCHEDULE_TYPE_UNSPECIFIED.

Definition scheduleStatusToString (st : Z) : string :=
  if st =? SCHEDULE_STATUS_PAUSED then statusPaused
  else if st =? SCHEDULE_STATUS_RUNNING then statusRunning
  else if st =? SCHEDULE_STATUS_COMPLETED then statusCompleted
  else statusActive.

Definition stringToScheduleStatus (s : string) : Z :=
  if s == statusActive then SCHEDULE_STATUS_ACTIVE
  else if s == statusPaused then SCHEDULE_STATUS_PAUSED
  else if s == statusRunning then SCHEDULE_STATUS_RUNNING
  else if s == statusCompleted then SCHEDULE_STATUS_COMPLETED
  else SCHEDULE_STATUS_UNSPECIFIED.

Definition scheduleTargetTypeToString (t : Z) : string :=
  if t =? SCHEDULE_TARGET_TYPE_RACK then "rack"
  else if t =? SCHEDULE_TARGET_TYPE_GROUP then "group"
  else if t =? SCHEDULE_TARGET_TYPE_MINER then "miner"
  else if t =? SCHEDULE_TARGET_TYPE_SITE then "site"
  else if t =? SCHEDULE_TARGET_TYPE_BUILDING then "building"
  else "unknown".

Definition stringToScheduleTargetType (s : string) : Z :=
  if s == "rack" then SCHEDULE_TARGET_TYPE_RACK
  else if s == "group" then SCHEDULE_TARGET_TYPE_GROUP
  else if s == "miner" then SCHEDULE_TARGET_TYPE_MINER
  else if s == "site" then SCHEDULE_TARGET_TYPE_SITE
  else if s == "building" then SCHEDULE_TARGET_TYPE_BUILDING
  else SCHEDULE_TARGET_TYPE_UNSPECIFIED.

(** ** Tables *)

(** A row of [schedule]. A JSON column is the message it encodes; an empty
    [action_config] object is [None]. [rw_Deleted] is [deleted_at IS NOT NULL]. *)
Record ScheduleRow := {
  rw_ID : Z;
  rw_OrgID : Z;
  rw_Name : string;
  rw_Action : string;
  rw_ActionConfig : option Z;
  rw_ScheduleType : string;
  rw_Recurrence : option ScheduleRecurrence;
  rw_StartDate : date;
  rw_StartTime : string;
  rw_EndTime : option string;
  rw_EndDate : option date;
  rw_Timezone : string;
  rw_Status : string;
  rw_Priority : Z;
  rw_CreatedBy : Z;
  rw_Deleted : bool;
  rw_LastRunAt : option Z;
  rw_NextRunAt : option Z
}.

#[export] Instance eta_ScheduleRow : Eta ScheduleRow := λ r,
  {| rw_ID := rw_ID r; rw_OrgID := rw_OrgID r; rw_Name := rw_Name r; rw_Action := rw_Action r;
     rw_ActionConfig := rw_ActionConfig r; rw_ScheduleType := rw_ScheduleType r;
     rw_Recurrence := rw_Recurrence r; rw_StartDate := rw_StartDate r; rw_StartTime := rw_StartTime r;
     rw_EndTime := rw_EndTime r; rw_EndDate := rw_EndDate r; rw_Timezone := rw_Timezone r;
     rw_Status := rw_Status r; rw_Priority := rw_Priority r; rw_CreatedBy := rw_CreatedBy r;
     rw_Deleted := rw_Deleted r; rw_LastRunAt := rw_LastRunAt r; rw_NextRunAt := rw_NextRunAt r |}.

(** A row of [schedule_target]. *)
Record ScheduleTargetRow := { tr_ScheduleID : Z; tr_TargetType : string; tr_TargetID : string }.

#[export] Instance ScheduleTargetRow_eq_dec : EqDecision ScheduleTargetRow.
Proof. solve_decision. Defined.

Record ScheduleDB := {
  sb_schedules : list ScheduleRow;
  sb_targets : list ScheduleTargetRow;
  sb_nextval : Z
}.

#[export] Instance eta_ScheduleDB : Eta ScheduleDB := λ db,
  {| sb_schedules := sb_schedules db; sb_targets := sb_targets db; sb_nextval := sb_nextval db |}.

(** Does the row belong to the organization and is it not deleted? *)
Definition live (r : ScheduleRow) : bool := negb (rw_Deleted r).
Definition in_org (org : Z) (r : ScheduleRow) : bool := (rw_OrgID r =? org) && live r.
Definition is_row (org id : Z) (r : ScheduleRow) : bool := in_org org r && (rw_ID r =? id).

(** ** Conversions *)

Definition parseScheduleDate (s : string) : option date :=
  t ← Parse layout_date s; Some {| d_year := c_year t; d_month := c_month t; d_day := c_day t |}.

Definition parseScheduleTime (s : string) : option string := Format layout_clock <$> parseClockValue s.

(** The empty string is NULL; the outer option is the error. *)
Definition parseNullTime (s : string) : option (option string) :=
  if s == "" then Some None else Some <$> parseScheduleTime s.
Definition parseNullDate (s : string) : option (option date) :=
  if s == "" then Some None else Some <$> parseScheduleDate s.

(** A TIME column reads back with seconds. *)
Definition time_text (s : string) : string := s +:+ ":00".

Definition normalizeScheduleTimeString (value : string) : string := default value (parseScheduleTime value).

Definition date_text (c : date) : string :=
  Format layout_date {| c_year := d_year c; c_month := d_month c; c_day := d_day c;
                        c_hour := 0; c_min := 0; c_sec := 0 |}.

(** [mode] is omitted from the JSON object when it is zero. *)
Definition marshalActionConfig (cfg : option Z) : option Z :=
  match cfg with Some m => if m =? POWER_TARGET_MODE_UNSPECIFIED then None else Some m | None => None end.

Definition convertToProtoSchedule (row : ScheduleRow) : Schedule :=
  {| sc_Id := rw_ID row; sc_Name := rw_Name row; sc_Action := stringToScheduleAction (rw_Action row);
     sc_ActionConfig := rw_ActionConfig row; sc_ScheduleType := stringToScheduleType (rw_ScheduleType row);
     sc_Recurrence := rw_Recurrence row; sc_StartDate := date_text (rw_StartDate row);
     sc_StartTime := normalizeScheduleTimeString (time_text (rw_StartTime row));
     sc_EndTime := match rw_EndTime row with
       | Some t => normalizeScheduleTimeString (time_text t) | None => "" end;
     sc_EndDate := match rw_EndDate row with Some d => date_text d | None => "" end;
     sc_Timezone := rw_Timezone row; sc_Status := stringToScheduleStatus (rw_Status row);
     sc_Priority := rw_Priority row; sc_CreatedBy := rw_CreatedBy row;
     sc_LastRunAt := rw_LastRunAt row; sc_NextRunAt := rw_NextRunAt row; sc_Targets := [] |}.

(** The columns a message writes: everything but identity, status, priority and
    run times. *)
Record ScheduleColumns := {
  co_StartDate : date; co_StartTime : string; co_EndTime : option string; co_EndDate : option date
}.

Definition columns_of (sched : Schedule) : option ScheduleColumns :=
  startDate ← parseScheduleDate (sc_StartDate sched);
  startTime ← parseScheduleTime (sc_StartTime sched);
  endTime ← parseNullTime (sc_EndTime sched);
  endDate ← parseNullDate (sc_EndDate sched);
  Some {| co_StartDate := startDate; co_StartTime := startTime; co_EndTime := endTime;
          co_EndDate := endDate |}.

(** ** Statements *)

Definition SOp (A : Type) : Type := M ScheduleDB FleetError A.

(** [UPDATE schedule SET ... WHERE p]: the number of rows. *)
Definition update_schedules (p : ScheduleRow → bool) (f : ScheduleRow → ScheduleRow) : SOp Z := λ db,
  (Ok (Z.of_nat (length (List.filter p (sb_schedules db)))),
   db <| sb_schedules := map (λ r, if p r then f r else r) (sb_schedules db) |>).

Definition GetSchedule (org id : Z) : SOp Schedule := λ db,
  match List.find (is_row org id) (sb_schedules db) with
  | Some row => (Ok (convertToProtoSchedule row), db)
  | None => (Err NewNotFoundError, db)
  end.

(** The same read; the row lock it takes is held by the transaction. *)
Definition GetScheduleForUpdate (org id : Z) : SOp Schedule := GetSchedule org id.

(** [ORDER BY priority, id]. *)
Definition by_priority (a b : ScheduleRow) : bool :=
  (rw_Priority a <? rw_Priority b) || ((rw_Priority a =? rw_Priority b) && (rw_ID a <? rw_ID b)).

Definition org_schedules (org : Z) (db : ScheduleDB) : list ScheduleRow :=
  stable_sort by_priority (List.filter (in_org org) (sb_schedules db)).

(** An empty filter string is NULL. *)
Definition ListSchedules_rows (org : Z) (status action : string) (db : ScheduleDB) : list ScheduleRow :=
  List.filter (λ r, ((status == "") || (rw_Status r == status)) && ((action == "") || (rw_Action r == action)))
    (org_schedules org db).

Definition ListScheduleIDStatuses (org : Z) : SOp (list (Z * string)) :=
  gets (λ db, map (λ r, (rw_ID r, rw_Status r)) (org_schedules org db)).

Definition GetMaxPriority (org : Z) : SOp Z :=
  gets (λ db, match List.filter (in_org org) (sb_schedules db) with
    | [] => 0
    | r :: rest => fold_left (λ m r, Z.max m (rw_Priority r)) rest (rw_Priority r)
    end).

(** Is another live row of the organization at this priority? *)
Definition priority_taken (org p : Z) (rows : list ScheduleRow) : bool :=
  existsb (λ r, in_org org r && (rw_Priority r =? p)) rows.

Definition new_row (id org : Z) (sched : Schedule) (co : ScheduleColumns) : ScheduleRow :=
  {| rw_ID := id; rw_OrgID := org; rw_Name := sc_Name sched;
     rw_Action := scheduleActionToString (sc_Action sched);
     rw_ActionConfig := marshalActionConfig (sc_ActionConfig sched);
     rw_ScheduleType := scheduleTypeToString (sc_ScheduleType sched);
     rw_Recurrence := sc_Recurrence sched; rw_StartDate := co_StartDate co;
     rw_StartTime := co_StartTime co; rw_EndTime := co_EndTime co; rw_EndDate := co_EndDate co;
     rw_Timezone := sc_Timezone sched; rw_Status := statusActive; rw_Priority := sc_Priority sched;
     rw_CreatedBy := sc_CreatedBy sched; rw_Deleted := false; rw_LastRunAt := None;
     rw_NextRunAt := sc_NextRunAt sched |}.

Definition CreateSchedule_row (org : Z) (sched : Schedule) : SOp Z := λ db,
  match columns_of sched with
  | None => (Err NewInvalidArgumentError, db)
  | Some co =>
      if priority_taken org (sc_Priority sched) (sb_schedules db) then (Err NewInternalError, db)
      else (Ok (sb_nextval db),
        db <| sb_schedules := sb_schedules db ++ [new_row (sb_nextval db) org sched co] |>
           <| sb_nextval := sb_nextval db + 1 |>)
  end.

Definition UpdateSchedule_row (org : Z) (sched : Schedule) : SOp Z :=
  match columns_of sched with
  | None => fail NewInvalidArgumentError
  | Some co =>
      update_schedules (λ r, is_row org (sc_Id sched) r && (rw_Status r != statusRunning))
        (λ r, r <| rw_Name := sc_Name sched |> <| rw_Action := scheduleActionToString (sc_Action sched) |>
                <| rw_ActionConfig := marshalActionConfig (sc_ActionConfig sched) |>
                <| rw_ScheduleType := scheduleTypeToString (sc_ScheduleType sched) |>
                <| rw_Recurrence := sc_Recurrence sched |> <| rw_StartDate := co_StartDate co |>
                <| rw_StartTime := co_StartTime co |> <| rw_EndTime := co_EndTime co |>
                <| rw_EndDate := co_EndDate co |> <| rw_Timezone := sc_Timezone sched |>
                <| rw_NextRunAt := sc_NextRunAt sched |>
                <| rw_Status := scheduleStatusToString (sc_Status sched) |>)
  end.

Definition SoftDeleteSchedule (org id : Z) : SOp Z :=
  update_schedules (is_row org id) (λ r, r <| rw_Deleted := true |>).

(** An [UPDATE] of priorities visits the rows one by one and fails at the first
    that would collide in the unique index. *)
Fixpoint set_priorities (f : ScheduleRow → option Z) (before after : list ScheduleRow)
    : option (list ScheduleRow) :=
  match after with
  | [] => Some before
  | r :: rest =>
      match f r with
      | None => set_priorities f (before ++ [r]) rest
      | Some p =>
          if live r && priority_taken (rw_OrgID r) p (before ++ rest) then None
          else set_priorities f (before ++ [r <| rw_Priority := p |>]) rest
      end
  end.

(** The 1-based position of an identifier. *)
Fixpoint ordinality (i id : Z) (ids : list Z) : option Z :=
  match ids with
  | [] => None
  | x :: rest => if x =? id then Some i else ordinality (i + 1) id rest
  end.

Definition update_priorities (sign org : Z) (ids : list Z) : SOp unit := λ db,
  match set_priorities (λ r, if in_org org r then Z.mul sign <$> ordinality 1 (rw_ID r) ids else None)
          [] (sb_schedules db) with
  | Some rows => (Ok tt, db <| sb_schedules := rows |>)
  | None => (Err NewInternalError, db)
  end.

Definition NegateSchedulePriorities (org : Z) (ids : list Z) : SOp unit := update_priorities (-1) org ids.
Definition SetSchedulePriorities (org : Z) (ids : list Z) : SOp unit := update_priorities 1 org ids.

Definition ReorderSchedules_rows (org : Z) (ids : list Z) : SOp unit :=
  _ ← NegateSchedulePriorities org ids; SetSchedulePriorities org ids.

Definition CreateScheduleTarget (org id : Z) (targetType targetID : string) : SOp unit := λ db,
  let row := {| tr_ScheduleID := id; tr_TargetType := targetType; tr_TargetID := targetID |} in
  if negb (existsb (is_row org id) (sb_schedules db)) then (Ok tt, db)
  else if bool_decide (row ∈ sb_targets db) then (Err NewInternalError, db)
  else (Ok tt, db <| sb_targets := sb_targets db ++ [row] |>).

Definition target_of_row (t : ScheduleTargetRow) : ScheduleTarget :=
  {| st_TargetType := stringToScheduleTargetType (tr_TargetType t); st_TargetId := tr_TargetID t |}.

Definition targets_of (org id : Z) (db : ScheduleDB) : list ScheduleTarget :=
  if existsb (is_row org id) (sb_schedules db)
  then map target_of_row (List.filter (λ t, tr_ScheduleID t =? id) (sb_targets db)) else [].

Definition GetScheduleTargets (org id : Z) : SOp (list ScheduleTarget) := gets (targets_of org id).

Definition DeleteScheduleTargets (org id : Z) : SOp unit := λ db,
  if existsb (is_row org id) (sb_schedules db)
  then (Ok tt, db <| sb_targets := List.filter (λ t, negb (tr_ScheduleID t =? id)) (sb_targets db) |>)
  else (Ok tt, db).

Definition PauseActiveSchedule (org id : Z) : SOp Z :=
  update_schedules (λ r, is_row org id r && ((rw_Status r == statusActive) || (rw_Status r == statusRunning)))
    (λ r, r <| rw_Status := statusPaused |>).

Definition ResumePausedSchedule (org id : Z) (status : string) (nextRunAt : option Z) : SOp Z :=
  update_schedules (λ r, is_row org id r && (rw_Status r == statusPaused))
    (λ r, r <| rw_Status := status |> <| rw_NextRunAt := Z.mul Second <$> nextRunAt |>).

(** *** The processor's statements *)

(** [WHERE id = $1 AND deleted_at IS NULL], across organizations. *)
Definition is_id (id : Z) (r : ScheduleRow) : bool := live r && (rw_ID r =? id).

Definition processing (r : ScheduleRow) : bool :=
  (rw_Status r == statusActive) || (rw_Status r == statusRunning).

Definition GetActiveSchedules (db : ScheduleDB) : list (Schedule * Z) :=
  map (λ r, (convertToProtoSchedule r, rw_OrgID r))
    (stable_sort by_priority (List.filter (λ r, processing r && live r) (sb_schedules db))).

Definition UpdateScheduleAfterRun (id : Z) (lastRunAt nextRunAt : option Z) (status : string) : SOp Z :=
  update_schedules (λ r, is_id id r && processing r)
    (λ r, r <| rw_LastRunAt := Z.mul Second <$> lastRunAt |> <| rw_NextRunAt := Z.mul Second <$> nextRunAt |>
            <| rw_Status := status |>).

Definition SetScheduleRunning (id : Z) : SOp Z :=
  update_schedules (λ r, is_id id r && (rw_Status r == statusActive)) (λ r, r <| rw_Status := statusRunning |>).

Definition RevertScheduleToActive (id : Z) : SOp Z :=
  update_schedules (λ r, is_id id r && (rw_Status r == statusRunning)) (λ r, r <| rw_Status := statusActive |>).

Definition GetScheduleByID (id : Z) : SOp (Schedule * Z) := λ db,
  match List.find (is_id id) (sb_schedules db) with
  | Some row => (Ok (convertToProtoSchedule row, rw_OrgID row), db)
  | None => (Err NewInternalError, db)
  end.
