(* ===== verification/ScheduleService.v ===== *)
(** * The schedule service

    [internal/domain/schedule/service.go]: creation, update, deletion, pause,
    resume, reorder and listing of an organization's schedules, with their
    validation and the normalization of priorities. A transaction is one atomic
    step over the tables; the session's organization and user and the clock are
    arguments. The activity log is not modelled. *)

From S2P Require Import Prelude GoSort Errors RolloutBehavior GoTime ScheduleCron ScheduleStore.
#[local] Open Scope string_scope.
#[local] Open Scope list_scope.
#[local] Open Scope Z_scope.
#[local] Open Scope go_scope.

Definition maxScheduleNameLength : Z := 100.

(** The fields that a create and an update request share. A nil target is
    [None]. *)
Record ScheduleRequest := {
  rq_Name : string;
  rq_Action : Z;
  rq_ActionConfig : option Z;
  rq_ScheduleType : Z;
  rq_Recurrence : option ScheduleRecurrence;
  rq_StartDate : string;
  rq_StartTime : string;
  rq_EndTime : string;
  rq_EndDate : string;
  rq_Timezone : string;
  rq_Targets : list (option ScheduleTarget)
}.

(** ** Validation *)

Definition validateScheduleName (name : string) : bool :=
  let trimmed := TrimSpace name in
  (trimmed != "") && negb (maxScheduleNameLength <? Z.of_nat (String.length trimmed)).

Definition validateActionConfig (action : Z) (cfg : option Z) : bool :=
  if action =? SCHEDULE_ACTION_UNSPECIFIED then false
  else if action =? SCHEDULE_ACTION_SET_POWER_TARGET then
    match cfg with
    | None => false
    | Some mode =>
        negb (mode =? POWER_TARGET_MODE_UNSPECIFIED)
        && ((mode =? POWER_TARGET_MODE_DEFAULT) || (mode =? POWER_TARGET_MODE_MAX))
    end
  else if (action =? SCHEDULE_ACTION_REBOOT) || (action =? SCHEDULE_ACTION_SLEEP) then
    match cfg with Some mode => mode =? POWER_TARGET_MODE_UNSPECIFIED | None => true end
  else true.

Definition validateRecurrence (rec : ScheduleRecurrence) : bool :=
  (Interval rec =? 1)
  && (if Frequency rec =? RECURRENCE_FREQUENCY_UNSPECIFIED then false
      else if Frequency rec =? RECURRENCE_FREQUENCY_DAILY then true
      else if Frequency rec =? RECURRENCE_FREQUENCY_WEEKLY then
        negb (length (DaysOfWeek rec) =? 0)%nat
        && forallb (λ d, negb ((d =? DAY_OF_WEEK_UNSPECIFIED) || (d <? DAY_OF_WEEK_SUNDAY)
                               || (DAY_OF_WEEK_SATURDAY <? d))) (DaysOfWeek rec)
      else if Frequency rec =? RECURRENCE_FREQUENCY_MONTHLY then
        match DayOfMonth rec with None => false | Some d => negb ((d <? 1) || (31 <? d)) end
      else false).

Definition validateScheduleFields (name : string) (action : Z) (cfg : option Z) (scheduleType : Z)
    (recurrence : option ScheduleRecurrence) : bool :=
  validateScheduleName name
  && negb (action =? SCHEDULE_ACTION_UNSPECIFIED) && negb (scheduleType =? SCHEDULE_TYPE_UNSPECIFIED)
  && validateActionConfig action cfg
  && (if scheduleType =? SCHEDULE_TYPE_RECURRING then
        match recurrence with None => false | Some rec => validateRecurrence rec end
      else true).

Definition isValidScheduleTargetType (t : Z) : bool :=
  (t =? SCHEDULE_TARGET_TYPE_RACK) || (t =? SCHEDULE_TARGET_TYPE_GROUP) || (t =? SCHEDULE_TARGET_TYPE_MINER)
  || (t =? SCHEDULE_TARGET_TYPE_SITE) || (t =? SCHEDULE_TARGET_TYPE_BUILDING).

(** Rack, group, site and building identifiers are row identifiers. *)
Definition numeric_target (t : Z) : bool :=
  (t =? SCHEDULE_TARGET_TYPE_RACK) || (t =? SCHEDULE_TARGET_TYPE_GROUP)
  || (t =? SCHEDULE_TARGET_TYPE_SITE) || (t =? SCHEDULE_TARGET_TYPE_BUILDING).

(** A positive identifier in canonical decimal form. *)
Definition canonical_id (s : string) : bool :=
  match ParseInt s with
  | None => false
  | Some n => negb (n <=? 0) && (FormatInt n == s)
  end.

Fixpoint validate_targets (seen : list ScheduleTarget) (targets : list (option ScheduleTarget)) : bool :=
  match targets with
  | [] => true
  | None :: _ => false
  | Some t :: rest =>
      let trimmedID := TrimSpace (st_TargetId t) in
      let key := {| st_TargetType := st_TargetType t; st_TargetId := trimmedID |} in
      isValidScheduleTargetType (st_TargetType t) && (trimmedID != "")
      && (if numeric_target (st_TargetType t) then canonical_id trimmedID else true)
      && negb (bool_decide (key ∈ seen)) && validate_targets (key :: seen) rest
  end.

Definition validateTargets (targets : list (option ScheduleTarget)) : bool := validate_targets [] targets.

(** ** Priorities *)

(** Schedules that are not completed, then completed ones, in their order. *)
Definition completed_last (statuses : list (Z * string)) : list Z :=
  map fst (List.filter (λ st, st.2 != statusCompleted) statuses)
  ++ map fst (List.filter (λ st, st.2 == statusCompleted) statuses).

Definition schedulePriorityOrderMatches (statuses : list (Z * string)) (desired : list Z) : bool :=
  bool_decide (map fst statuses = desired).

Definition normalizeSchedulePriorities (org : Z) : SOp unit :=
  statuses ← ListScheduleIDStatuses org;
  if schedulePriorityOrderMatches statuses (completed_last statuses) then mret tt
  else ReorderSchedules_rows org (completed_last statuses).

Definition fetchScheduleWithTargets (org id : Z) : SOp Schedule :=
  sched ← GetSchedule org id;
  targets ← GetScheduleTargets org id;
  mret (sched <| sc_Targets := targets |>).

Section Service.
Context `{Calendar} (org : Z) (now : Z).

Definition ListSchedules (status action : string) : SOp (list Schedule) :=
  gets (λ db, map (λ r, (convertToProtoSchedule r) <| sc_Targets := targets_of org (rw_ID r) db |>)
    (ListSchedules_rows org status action db)).

(** The message of a request, before the store assigns identity and priority. *)
Definition request_schedule (id user : Z) (req : ScheduleRequest) : Schedule :=
  {| sc_Id := id; sc_Name := TrimSpace (rq_Name req); sc_Action := rq_Action req;
     sc_ActionConfig := rq_ActionConfig req; sc_ScheduleType := rq_ScheduleType req;
     sc_Recurrence := rq_Recurrence req; sc_StartDate := rq_StartDate req; sc_StartTime := rq_StartTime req;
     sc_EndTime := rq_EndTime req; sc_EndDate := rq_EndDate req; sc_Timezone := rq_Timezone req;
     sc_Status := SCHEDULE_STATUS_UNSPECIFIED; sc_Priority := 0; sc_CreatedBy := user;
     sc_LastRunAt := None; sc_NextRunAt := None; sc_Targets := [] |}.

(** Validation and the first run of a request. *)
Definition checked_schedule (id user : Z) (req : ScheduleRequest) : result FleetError Schedule :=
  let sched := request_schedule id user req in
  if negb (validateScheduleFields (sc_Name sched) (rq_Action req) (rq_ActionConfig req) (rq_ScheduleType req)
             (rq_Recurrence req) && validateTargets (rq_Targets req)) then Err NewInvalidArgumentError
  else match ComputeNextRun sched now with
  | Some (Some nextRun) => Ok (sched <| sc_NextRunAt := Some nextRun |>)
  | _ => Err NewInvalidArgumentError
  end.

Fixpoint create_targets (id : Z) (targets : list (option ScheduleTarget)) : SOp unit :=
  match targets with
  | [] => mret tt
  | None :: rest => create_targets id rest
  | Some t :: rest =>
      _ ← CreateScheduleTarget org id (scheduleTargetTypeToString (st_TargetType t)) (TrimSpace (st_TargetId t));
      create_targets id rest
  end.

Definition create_tx (sched : Schedule) (targets : list (option ScheduleTarget)) : SOp Schedule :=
  maxPriority ← GetMaxPriority org;
  id ← CreateSchedule_row org (sched <| sc_Priority := int32 (maxPriority + 1) |>);
  _ ← create_targets id targets;
  _ ← normalizeSchedulePriorities org;
  fetchScheduleWithTargets org id.

Definition CreateSchedule (user : Z) (req : ScheduleRequest) : SOp Schedule :=
  sched ← lift (checked_schedule 0 user req);
  RunInTx (create_tx sched (rq_Targets req)).

Definition update_tx (id : Z) (sched : Schedule) (targets : list (option ScheduleTarget)) : SOp Schedule :=
  existing ← GetSchedule org id;
  if sc_Status existing =? SCHEDULE_STATUS_RUNNING then fail NewInvalidArgumentError
  else
    let status := if sc_Status existing =? SCHEDULE_STATUS_COMPLETED then SCHEDULE_STATUS_ACTIVE
                  else sc_Status existing in
    rows ← UpdateSchedule_row org (sched <| sc_Status := status |>);
    if rows =? 0 then
      current ← GetSchedule org id;
      if sc_Status current =? SCHEDULE_STATUS_RUNNING then fail NewInvalidArgumentError
      else fail NewNotFoundError
    else
      _ ← DeleteScheduleTargets org id;
      _ ← create_targets id targets;
      _ ← when (status =? SCHEDULE_STATUS_ACTIVE) (normalizeSchedulePriorities org);
      fetchScheduleWithTargets org id.

Definition UpdateSchedule (id : Z) (req : ScheduleRequest) : SOp Schedule :=
  sched ← lift (checked_schedule id 0 req);
  RunInTx (update_tx id sched (rq_Targets req)).

Definition DeleteSchedule (id : Z) : SOp unit :=
  rows ← SoftDeleteSchedule org id;
  if rows =? 0 then fail NewNotFoundError else mret tt.

Definition PauseSchedule (id : Z) : SOp Schedule :=
  rows ← PauseActiveSchedule org id;
  if rows =? 0 then
    _ ← GetSchedule org id; fail NewInvalidArgumentError
  else fetchScheduleWithTargets org id.

Definition ResumeSchedule (id : Z) (authorizeAction : Z → result FleetError unit) : SOp Schedule :=
  RunInTx (
    existing ← GetScheduleForUpdate org id;
    _ ← lift (authorizeAction (sc_Action existing));
    match ComputeNextRun existing now with
    | None => fail NewInternalError
    | Some nextRun =>
        let newStatus := match nextRun with Some _ => statusActive | None => statusCompleted end in
        rows ← ResumePausedSchedule org id newStatus (Unix <$> nextRun);
        if rows =? 0 then
          _ ← GetSchedule org id; fail NewInvalidArgumentError
        else
          _ ← when (newStatus == statusCompleted) (normalizeSchedulePriorities org);
          fetchScheduleWithTargets org id
    end).

(** The submitted identifiers that can be reordered, if every one is known and
    none is repeated. *)
Fixpoint reorderable (statuses : list (Z * string)) (seen ids : list Z) : option (list Z) :=
  match ids with
  | [] => Some []
  | id :: rest =>
      if bool_decide (id ∈ seen) then None
      else match List.find (λ st, st.1 =? id) statuses with
      | None => None
      | Some st =>
          more ← reorderable statuses (id :: seen) rest;
          Some (if st.2 == statusCompleted then more else id :: more)
      end
  end.

Definition ReorderSchedules (ids : list Z) : SOp unit :=
  RunInTx (
    statuses ← ListScheduleIDStatuses org;
    let open := List.filter (λ st, st.2 != statusCompleted) statuses in
    let completedIDs := map fst (List.filter (λ st, st.2 == statusCompleted) statuses) in
    match reorderable statuses [] ids with
    | None => fail NewInvalidArgumentError
    | Some reorderedIDs =>
        if negb (length reorderedIDs =? length open)%nat then fail NewInvalidArgumentError
        else ReorderSchedules_rows org (reorderedIDs ++ completedIDs)
    end).

End Service.
