(* ===== verification/ScheduleProcessor.v ===== *)
(** * The schedule processor

    [internal/domain/schedule/processor.go] and [schedule/targets/expand.go]: the
    jobs registered for the active schedules, the execution of a schedule whose
    job fires, the end of power-target windows, and the recovery at start.

    The processor runs beside the service, other processor goroutines and a
    database that can fail. Each call it makes to a store or to the command
    service takes one [Turn] of a script: what the others did to the shared state
    before the call, whether the call fails, and what a command returns. The
    theorems hold for every script. Goroutines, timers and the activity log are
    not modelled beyond the jobs they serve. *)

From stdpp Require Import pretty.
From S2P Require Import Prelude GoSort Errors RolloutBehavior GoTime CommandFilter ScheduleCron.
From S2P Require Import ScheduleStore.
#[local] Open Scope string_scope.
#[local] Open Scope list_scope.
#[local] Open Scope Z_scope.
#[local] Open Scope go_scope.

Definition oneTimeRetryDelay : Z := Second.

Definition PERFORMANCE_MODE_MAXIMUM_HASHRATE : Z := 1.
Definition PERFORMANCE_MODE_EFFICIENCY : Z := 2.
Definition revertPerformanceMode : Z := PERFORMANCE_MODE_EFFICIENCY.

(** ** Expansion of targets *)

(** What the collection and device stores resolve: the members of a device set,
    and the paired-like miners of a site or building. [None] is an error. *)
Class DeviceSets := {
  DevicesOfSet : Z → Z → option (list string);
  DevicesOfSite : Z → Z → option (list string);
  DevicesOfBuilding : Z → Z → option (list string)
}.

(** [addAll]: the identifiers not seen before, in order. *)
Definition add_all (seen devices : list string) : list string :=
  fold_left (λ ids d, if bool_decide (d ∈ ids) then ids else ids ++ [d]) devices seen.

Definition target_devices `{DeviceSets} (org : Z) (t : ScheduleTarget) : option (list string) :=
  let numeric (resolve : Z → Z → option (list string)) := id ← ParseInt (st_TargetId t); resolve id org in
  if st_TargetType t =? SCHEDULE_TARGET_TYPE_MINER then Some [st_TargetId t]
  else if (st_TargetType t =? SCHEDULE_TARGET_TYPE_RACK) || (st_TargetType t =? SCHEDULE_TARGET_TYPE_GROUP)
  then numeric DevicesOfSet
  else if st_TargetType t =? SCHEDULE_TARGET_TYPE_SITE then numeric DevicesOfSite
  else if st_TargetType t =? SCHEDULE_TARGET_TYPE_BUILDING then numeric DevicesOfBuilding
  else Some [].

Fixpoint Expand `{DeviceSets} (org : Z) (targets : list ScheduleTarget) (ids : list string)
    : option (list string) :=
  match targets with
  | [] => Some ids
  | t :: rest => devices ← target_devices org t; Expand org rest (add_all ids devices)
  end.

(** ** State *)

(** A registered job. A one-time job is armed until its timer fires; a cron job
    stays armed. *)
Record jobEntry := {
  je_isOneTime : bool;
  je_fingerprint : string;
  je_generation : Z;
  je_armed : bool;
  je_fireAt : Z
}.

Record Shared := { sh_db : ScheduleDB; sh_jobs : gmap Z jobEntry; sh_nextGen : Z }.

#[export] Instance eta_Shared : Eta Shared := λ s,
  {| sh_db := sh_db s; sh_jobs := sh_jobs s; sh_nextGen := sh_nextGen s |}.

Inductive Command := SetPowerTarget (mode : Z) | Reboot | StopMining.

(** A command that was sent: the schedule in whose name, and the devices. *)
Record Sent := { se_Source : Source; se_Org : Z; se_Devices : list string; se_Command : Command }.

Record Turn := { tn_others : Shared → Shared; tn_fails : bool; tn_result : CommandOutcome }.

Definition no_outcome : CommandOutcome :=
  {| cr_BatchIdentifier := ""; cr_DispatchedCount := 0; cr_Skipped := []; cr_DispatchedDeviceIdentifiers := [] |}.

(** After the script nobody interferes and nothing fails. *)
Definition quiet_turn : Turn := {| tn_others := λ s, s; tn_fails := false; tn_result := no_outcome |}.

Record PState := { ps_shared : Shared; ps_turns : list Turn; ps_sent : list Sent }.

#[export] Instance eta_PState : Eta PState := λ s,
  {| ps_shared := ps_shared s; ps_turns := ps_turns s; ps_sent := ps_sent s |}.

Definition ps_db (s : PState) : ScheduleDB := sh_db (ps_shared s).
Definition ps_jobs (s : PState) : gmap Z jobEntry := sh_jobs (ps_shared s).

(** A step of the processor never fails as a whole; its calls return results. *)
Definition Proc (A : Type) : Type := PState → A * PState.
#[export] Instance Proc_ret : MRet Proc := λ A a s, (a, s).
#[export] Instance Proc_bind : MBind Proc := λ A B f m s, let '(a, s') := m s in f a s'.

(** Take the next turn: the others move first. *)
Definition take_turn : Proc Turn := λ s,
  let turn := default quiet_turn (head (ps_turns s)) in
  (turn, s <| ps_shared := tn_others turn (ps_shared s) |> <| ps_turns := tail (ps_turns s) |>).

Definition run_store {A} (op : SOp A) : Proc (result FleetError A) := λ s,
  let '(r, db) := op (ps_db s) in (r, s <| ps_shared := (ps_shared s) <| sh_db := db |> |>).

Definition store_call {A} (op : SOp A) : Proc (result FleetError A) :=
  turn ← take_turn;
  if tn_fails turn then mret (Err NewInternalError) else run_store op.

Definition record_sent (sent : Sent) : Proc unit := λ s, (tt, s <| ps_sent := ps_sent s ++ [sent] |>).

(** A command that fails was not sent. *)
Definition send (sent : Sent) : Proc (result FleetError CommandOutcome) :=
  turn ← take_turn;
  if tn_fails turn then mret (Err NewInternalError)
  else _ ← record_sent sent; mret (Ok (tn_result turn)).

(** ** Jobs *)

Definition currentJobGeneration (id : Z) : Proc (option Z) := λ s,
  (je_generation <$> ps_jobs s !! id, s).

Definition update_jobs (f : gmap Z jobEntry → gmap Z jobEntry) : Proc unit := λ s,
  (tt, s <| ps_shared := (ps_shared s) <| sh_jobs := f (ps_jobs s) |> |>).

Definition removeJob (id : Z) : Proc unit := update_jobs (delete id).

Definition removeJobIfCurrent (id : Z) (gen : option Z) : Proc unit :=
  update_jobs (λ jobs,
    match gen, jobs !! id with
    | Some g, Some e => if je_generation e =? g then delete id jobs else jobs
    | _, _ => jobs
    end).

Definition removeJobForRetry (id : Z) (gen : option Z) : Proc unit := removeJobIfCurrent id gen.

Definition enum_name (names : list string) (v : Z) : string :=
  if v <? 0 then pretty v else default (pretty v) (names !! Z.to_nat v).

Definition schedule_type_names : list string :=
  ["SCHEDULE_TYPE_UNSPECIFIED"; "SCHEDULE_TYPE_ONE_TIME"; "SCHEDULE_TYPE_RECURRING"].
Definition frequency_names : list string :=
  ["RECURRENCE_FREQUENCY_UNSPECIFIED"; "RECURRENCE_FREQUENCY_DAILY"; "RECURRENCE_FREQUENCY_WEEKLY";
   "RECURRENCE_FREQUENCY_MONTHLY"].
Definition day_names : list string :=
  ["DAY_OF_WEEK_UNSPECIFIED"; "DAY_OF_WEEK_SUNDAY"; "DAY_OF_WEEK_MONDAY"; "DAY_OF_WEEK_TUESDAY";
   "DAY_OF_WEEK_WEDNESDAY"; "DAY_OF_WEEK_THURSDAY"; "DAY_OF_WEEK_FRIDAY"; "DAY_OF_WEEK_SATURDAY"].

Definition scheduleFingerprint (sched : Schedule) : string :=
  String.concat "|" ([enum_name schedule_type_names (sc_ScheduleType sched); sc_StartDate sched;
      sc_StartTime sched; sc_Timezone sched]
    ++ match sc_Recurrence sched with
       | None => []
       | Some rec => [enum_name frequency_names (Frequency rec)]
           ++ map (enum_name day_names) (DaysOfWeek rec)
           ++ match DayOfMonth rec with Some d => [pretty d] | None => [] end
       end).

(** The power-target window of a schedule: it stays running until its end. *)
Definition hasPowerTargetWindow (sched : Schedule) : bool :=
  (sc_Action sched =? SCHEDULE_ACTION_SET_POWER_TARGET) && (sc_EndTime sched != "").

Definition dispatch_command (sched : Schedule) : option Command :=
  if sc_Action sched =? SCHEDULE_ACTION_SET_POWER_TARGET then
    Some (SetPowerTarget (match sc_ActionConfig sched with
      | Some mode => if mode =? POWER_TARGET_MODE_MAX then PERFORMANCE_MODE_MAXIMUM_HASHRATE
                     else PERFORMANCE_MODE_EFFICIENCY
      | None => PERFORMANCE_MODE_EFFICIENCY end))
  else if sc_Action sched =? SCHEDULE_ACTION_REBOOT then Some Reboot
  else if sc_Action sched =? SCHEDULE_ACTION_SLEEP then Some StopMining
  else None.

Definition source_of (sched : Schedule) : Source :=
  {| so_ScheduleID := sc_Id sched; so_SchedulePriority := sc_Priority sched |}.

Section Processor.
Context `{Calendar} `{DeviceSets} (now : Z).

(** [registerJob]: the generation is taken whether or not it succeeds. *)
Definition register_job (sched : Schedule) (gen : Z) : option jobEntry :=
  let entry oneTime fireAt := {| je_isOneTime := oneTime; je_fingerprint := scheduleFingerprint sched;
    je_generation := gen; je_armed := true; je_fireAt := fireAt |} in
  if sc_ScheduleType sched =? SCHEDULE_TYPE_ONE_TIME then
    t ← ParseScheduleTime (sc_StartDate sched) (sc_StartTime sched) (sc_Timezone sched);
    Some (entry true (now + Z.max (time_Sub t now) oneTimeRetryDelay))
  else
    rec ← sc_Recurrence sched;
    expr ← ToCronExpression (Frequency rec) (sc_StartTime sched) (sc_Timezone sched) (DaysOfWeek rec)
      (DayOfMonth rec);
    next ← cronNext expr;
    Some (entry false (next now)).

Definition sync_one (jobs_gen : gmap Z jobEntry * Z) (sched : Schedule) : gmap Z jobEntry * Z :=
  let '(jobs, gen) := jobs_gen in
  let register jobs := match register_job sched (gen + 1) with
    | Some e => (<[sc_Id sched := e]> jobs, gen + 1)
    | None => (jobs, gen + 1)
    end in
  match jobs !! sc_Id sched with
  | Some e => if je_fingerprint e == scheduleFingerprint sched then (jobs, gen)
              else register (delete (sc_Id sched) jobs)
  | None => register jobs
  end.

(** The whole of the critical section, over the schedules that were read. *)
Definition sync_jobs (schedules : list (Schedule * Z)) (sh : Shared) : Shared :=
  let '(jobs, gen) := fold_left sync_one (map fst schedules) (sh_jobs sh, sh_nextGen sh) in
  let active := list_to_set (map (λ sw, sc_Id sw.1) schedules) : gset Z in
  sh <| sh_jobs := filter (λ ke, ke.1 ∈ active) jobs |> <| sh_nextGen := gen |>.

Definition update_shared (f : Shared → Shared) : Proc unit := λ s, (tt, s <| ps_shared := f (ps_shared s) |>).

Definition syncSchedules : Proc (result FleetError unit) :=
  r ← store_call (gets GetActiveSchedules);
  match r with
  | Err e => mret (Err e)
  | Ok schedules => _ ← update_shared (sync_jobs schedules); mret (Ok tt)
  end.

(** The end of [finishStop], when every goroutine has drained. *)
Definition finishStop : Proc unit :=
  update_shared (λ sh, sh <| sh_jobs := ∅ |> <| sh_nextGen := 0 |>).

Fixpoint recover_each (schedules : list (Schedule * Z)) : Proc (result FleetError unit) :=
  match schedules with
  | [] => mret (Ok tt)
  | (sched, _) :: rest =>
      if negb (sc_Status sched =? SCHEDULE_STATUS_RUNNING) then recover_each rest
      else if hasPowerTargetWindow sched && is_set (sc_LastRunAt sched) then recover_each rest
      else
        r ← store_call (RevertScheduleToActive (sc_Id sched));
        match r with Err e => mret (Err e) | Ok _ => recover_each rest end
  end.

Definition recoverStaleRunning : Proc (result FleetError unit) :=
  r ← store_call (gets GetActiveSchedules);
  match r with Err e => mret (Err e) | Ok schedules => recover_each schedules end.

(** The work of [Start] before the loops begin. *)
Definition Start : Proc (result FleetError unit) :=
  r ← recoverStaleRunning;
  match r with Err e => mret (Err e) | Ok _ => syncSchedules end.

(** ** One execution *)

(** Put the row back; with [gen], the job is dropped so that the next sync
    registers it again. *)
Definition revert_for_retry (id : Z) (gen : option Z) : Proc unit :=
  r ← store_call (RevertScheduleToActive id);
  match r with Err _ => mret tt | Ok _ => removeJobForRetry id gen end.

Definition resolveTargets (sched : Schedule) (org : Z) : Proc (option (list string)) :=
  r ← store_call (GetScheduleTargets org (sc_Id sched));
  match r with Err _ => mret None | Ok targets => mret (Expand org targets []) end.

Definition updateAfterRunWithGeneration (sched : Schedule) (gen : option Z) : Proc unit :=
  let id := sc_Id sched in
  let lastRun := Some (Unix now) in
  match ComputeNextRun sched now with
  | None => _ ← store_call (UpdateScheduleAfterRun id lastRun None statusActive); mret tt
  | Some nextRun =>
      let status := if hasPowerTargetWindow sched then statusRunning
                    else if is_set nextRun then statusActive else statusCompleted in
      r ← store_call (UpdateScheduleAfterRun id lastRun (Unix <$> nextRun) status);
      match r with
      | Err _ => revert_for_retry id gen
      | Ok _ => if status == statusCompleted then removeJob id else mret tt
      end
  end.

Definition transitionToCompletedWithGeneration (sched : Schedule) (gen : option Z) : Proc unit :=
  r ← store_call (UpdateScheduleAfterRun (sc_Id sched) (Some (Unix now)) None statusCompleted);
  match r with
  | Err _ => revert_for_retry (sc_Id sched) gen
  | Ok _ => removeJob (sc_Id sched)
  end.

(** Is a date that parses still ahead, or past? *)
Definition before_start (sched : Schedule) : bool :=
  if sc_StartDate sched == "" then false
  else match parseDateInLocation (sc_StartDate sched) (sc_Timezone sched) with
  | Some (startDate, _) => now <? startDate
  | None => false
  end.

Definition after_end (sched : Schedule) : bool :=
  if sc_EndDate sched == "" then false
  else match parseDateInLocation (sc_EndDate sched) (sc_Timezone sched) with
  | Some (deadline, loc) => endOfDay loc deadline <? now
  | None => false
  end.

Definition dispatch (sched : Schedule) (org : Z) (devices : list string)
    : Proc (result FleetError CommandOutcome) :=
  match dispatch_command sched with
  | None => mret (Err NewInternalError)
  | Some cmd => send {| se_Source := source_of sched; se_Org := org; se_Devices := devices; se_Command := cmd |}
  end.

(** The execution once the schedule is claimed and read again. *)
Definition execute_claimed (sched : Schedule) (org : Z) (gen : option Z) : Proc unit :=
  if before_start sched then
    _ ← store_call (RevertScheduleToActive (sc_Id sched)); mret tt
  else if after_end sched then transitionToCompletedWithGeneration sched gen
  else
    devices ← resolveTargets sched org;
    match devices with
    | None => revert_for_retry (sc_Id sched) gen
    | Some [] => updateAfterRunWithGeneration sched gen
    | Some devices =>
        r ← dispatch sched org devices;
        match r with
        | Err _ => revert_for_retry (sc_Id sched) gen
        | Ok _ => updateAfterRunWithGeneration sched gen
        end
    end.

Definition executeSchedule (id : Z) : Proc unit :=
  gen ← currentJobGeneration id;
  rows ← store_call (SetScheduleRunning id);
  match rows with
  | Err _ => mret tt
  | Ok rows =>
      if rows =? 0 then mret tt
      else
        sw ← store_call (GetScheduleByID id);
        match sw with
        | Err _ => revert_for_retry id gen
        | Ok (sched, org) => execute_claimed sched org gen
        end
  end.

(** A one-time job fires: its timer is spent, then the schedule executes. *)
Definition fire (id : Z) : Proc unit :=
  _ ← update_jobs (alter (λ e, {| je_isOneTime := je_isOneTime e; je_fingerprint := je_fingerprint e;
        je_generation := je_generation e; je_armed := negb (je_isOneTime e); je_fireAt := je_fireAt e |}) id);
  executeSchedule id.

(** ** The end of a window *)

(** The instant at which the window of the last run ends, in seconds. *)
Definition endBoundary (sched : Schedule) (lastRunAt : Z) : option Z :=
  loc ← LoadLocation (sc_Timezone sched);
  startTime ← Parse layout_clock (sc_StartTime sched);
  endTime ← Parse layout_clock (sc_EndTime sched);
  let c := local_date loc lastRunAt in
  let startMinutes := c_hour startTime * 60 + c_min startTime in
  let endMinutes := c_hour endTime * 60 + c_min endTime in
  let boundary := Date (d_year c) (d_month c) (d_day c) (c_hour endTime) (c_min endTime) 0 loc in
  Some (if endMinutes <=? startMinutes then
    (* AddDate(0, 0, 1): the wall clock of the boundary, a day later *)
    let b := local_date loc (boundary * Second) in
    let tod := wall loc (boundary * Second) mod Day in
    Date (d_year b) (d_month b) (d_day b + 1) (tod / 3600) (tod mod 3600 / 60) (tod mod 60) loc
  else boundary).

Definition window_expired (sched : Schedule) : bool :=
  (sc_Status sched =? SCHEDULE_STATUS_RUNNING) && hasPowerTargetWindow sched
  && match sc_LastRunAt sched with
     | None => false
     | Some last => match endBoundary sched last with Some b => b * Second <? now | None => false end
     end.

Definition revertToActive (sched : Schedule) : Proc (result FleetError unit) :=
  match ComputeNextRun sched now with
  | None =>
      r ← store_call (UpdateScheduleAfterRun (sc_Id sched) None None statusActive);
      mret (match r with Ok _ => Ok tt | Err e => Err e end)
  | Some nextRun =>
      let status := if is_set nextRun then statusActive else statusCompleted in
      r ← store_call (UpdateScheduleAfterRun (sc_Id sched) None (Unix <$> nextRun) status);
      match r with
      | Err e => mret (Err e)
      | Ok _ => _ ← (if status == statusCompleted then removeJob (sc_Id sched) else mret tt); mret (Ok tt)
      end
  end.

Definition end_window (sched : Schedule) (org : Z) : Proc unit :=
  devices ← resolveTargets sched org;
  match devices with
  | None => mret tt
  | Some devices =>
      r ← (match devices with
           | [] => mret (Ok no_outcome)
           | _ => send {| se_Source := source_of sched; se_Org := org; se_Devices := devices;
                          se_Command := SetPowerTarget revertPerformanceMode |}
           end);
      match r with
      | Err _ => mret tt
      | Ok _ => _ ← revertToActive sched; mret tt
      end
  end.

Fixpoint end_windows (schedules : list (Schedule * Z)) : Proc unit :=
  match schedules with
  | [] => mret tt
  | (sched, org) :: rest =>
      _ ← (if window_expired sched then end_window sched org else mret tt);
      end_windows rest
  end.

Definition checkEndOfWindow : Proc unit :=
  r ← store_call (gets GetActiveSchedules);
  match r with Err _ => mret tt | Ok schedules => end_windows schedules end.

End Processor.

(** * The devices of a schedule's targets

    The device and device-set tables that schedule targets are resolved against:
    the queries behind [targets.Expand] ([GetDeviceIdentifiersByDeviceSetID], and
    [GetDeviceIdentifiersByOrgWithFilter] for a site or a building), and the query
    [GetRunningPowerTargetScheduleOverlaps] by which the conflict filter finds the
    running schedules that hold a device. The two are written separately in the
    source, in Go and in SQL; that they agree is a theorem. *)

(** A row of [device] joined with its [discovered_device] and [device_pairing]:
    [dv_Active] is [is_active] of a discovered device that is not deleted. *)
Record DeviceEntry := {
  dv_ID : Z;
  dv_Identifier : string;
  dv_OrgID : Z;
  dv_SiteID : option Z;
  dv_BuildingID : option Z;
  dv_Deleted : bool;
  dv_Active : bool;
  dv_PairingStatus : string
}.

Record DeviceSetEntry := { ds_ID : Z; ds_OrgID : Z; ds_Deleted : bool }.

Record Membership := {
  dm_SetID : Z;
  dm_SetType : string;
  dm_DeviceID : Z;
  dm_DeviceIdentifier : string;
  dm_OrgID : Z
}.

(** [device_set_rack]: the building of a rack. *)
Record RackEntry := { rk_SetID : Z; rk_BuildingID : option Z }.

Record FleetTables := {
  ft_devices : list DeviceEntry;
  ft_sets : list DeviceSetEntry;
  ft_memberships : list Membership;
  ft_racks : list RackEntry
}.

Definition scheduleTargetPairingStatuses : list string :=
  ["PAIRED"; "AUTHENTICATION_NEEDED"; "DEFAULT_PASSWORD"].

Section Tables.
Variable tb : FleetTables.

(** [JOIN device_set ds ... WHERE ds.deleted_at IS NULL AND ...]. *)
Definition live_set (p : DeviceSetEntry → bool) (id : Z) : bool :=
  existsb (λ ds, (ds_ID ds =? id) && negb (ds_Deleted ds) && p ds) (ft_sets tb).

Definition GetDeviceIdentifiersByDeviceSetID (setID org : Z) : list string :=
  map dm_DeviceIdentifier
    (List.filter (λ m, (dm_SetID m =? setID) && (dm_OrgID m =? org)
                       && live_set (λ ds, ds_OrgID ds =? org) setID) (ft_memberships tb)).

(** The devices every filtered listing starts from, with the paired-like
    statuses. *)
Definition listed (org : Z) (d : DeviceEntry) : bool :=
  negb (dv_Deleted d) && (dv_OrgID d =? org) && dv_Active d
  && bool_decide (dv_PairingStatus d ∈ scheduleTargetPairingStatuses).

(** Is the device in a rack of the building? [p] is what the query asks of the
    rack's device set besides being live. *)
Definition in_rack_of (p : DeviceSetEntry → bool) (org building : Z) (d : DeviceEntry) : bool :=
  existsb (λ m, (dm_DeviceID m =? dv_ID d) && (dm_OrgID m =? org) && (dm_SetType m == "rack")
      && live_set p (dm_SetID m)
      && existsb (λ r, (rk_SetID r =? dm_SetID m) && bool_decide (rk_BuildingID r = Some building)) (ft_racks tb))
    (ft_memberships tb).

Definition devices_where (org : Z) (p : DeviceEntry → bool) : list string :=
  map dv_Identifier (List.filter (λ d, listed org d && p d) (ft_devices tb)).

(** [GetDeviceIdentifiersByOrgWithFilter] with one site, or one building. *)
Definition devices_of_site (site org : Z) : list string :=
  devices_where org (λ d, bool_decide (dv_SiteID d = Some site)).
Definition devices_of_building (building org : Z) : list string :=
  devices_where org (λ d, bool_decide (dv_BuildingID d = Some building)
                          || in_rack_of (λ _, true) org building d).

(** The tables as the resolver of targets. *)
Definition fleet_sets : DeviceSets := {|
  DevicesOfSet id org := Some (GetDeviceIdentifiersByDeviceSetID id org);
  DevicesOfSite id org := Some (devices_of_site id org);
  DevicesOfBuilding id org := Some (devices_of_building id org) |}.

(** ** The overlap query *)

Definition all_digits (s : string) : bool := (s != "") && forallb isDigit (bytes s).

(** [CASE WHEN target_id ~ '^[0-9]+$' THEN target_id::bigint ELSE NULL END]. *)
Definition target_bigint (s : string) : option Z := if all_digits s then ParseInt s else None.

(** Digits that are out of range fail the cast, and the query with it. *)
Definition cast_fails (st : ScheduleTargetRow) : bool :=
  (tr_TargetType st != "miner") && all_digits (tr_TargetID st) && negb (is_set (ParseInt (tr_TargetID st))).

Definition same_number (column : option Z) (id : option Z) : bool :=
  match column, id with Some a, Some b => a =? b | _, _ => false end.

(** Does the target row cover the device? *)
Definition target_covers (org : Z) (st : ScheduleTargetRow) (device : string) : bool :=
  let id := target_bigint (tr_TargetID st) in
  let device_where p := existsb (λ d, listed org d && (dv_Identifier d == device) && p d) (ft_devices tb) in
  ((tr_TargetType st == "miner") && (tr_TargetID st == device))
  || (((tr_TargetType st == "rack") || (tr_TargetType st == "group"))
      && existsb (λ m, (dm_OrgID m =? org) && live_set (λ ds, ds_OrgID ds =? org) (dm_SetID m)
                       && same_number (Some (dm_SetID m)) id && (dm_DeviceIdentifier m == device))
           (ft_memberships tb))
  || ((tr_TargetType st == "site") && device_where (λ d, same_number (dv_SiteID d) id))
  || ((tr_TargetType st == "building")
      && device_where (λ d, same_number (dv_BuildingID d) id
           || match id with
              | Some b => in_rack_of (λ ds, ds_OrgID ds =? org) org b d
              | None => false
              end)).

Definition running_window (org : Z) (s : ScheduleRow) : bool :=
  in_org org s && (rw_Status s == statusRunning) && (rw_Action s == "set_power_target").

Definition targets_row (s : ScheduleRow) (st : ScheduleTargetRow) : bool := tr_ScheduleID st =? rw_ID s.

(** [ORDER BY s.priority, s.id, device_identifier]; the devices keep the order
    of the request, which the filter does not depend on. *)
Definition overlaps (db : ScheduleDB) (org : Z) (devices : list string) : list ScheduleTargetOverlap :=
  s ← stable_sort by_priority (List.filter (running_window org) (sb_schedules db));
  map (λ d, {| ov_ScheduleID := rw_ID s; ov_SchedulePriority := rw_Priority s; ov_DeviceIdentifier := d |})
    (List.filter (λ d, existsb (λ st, targets_row s st && target_covers (rw_OrgID s) st d) (sb_targets db))
       (remove_dups devices)).

Definition GetRunningPowerTargetScheduleOverlaps (db : ScheduleDB) (org : Z) (devices : list string)
    : result FleetError (list ScheduleTargetOverlap) :=
  if (length devices =? 0)%nat then Ok []
  else if existsb (λ s, running_window org s && existsb (λ st, targets_row s st && cast_fails st) (sb_targets db))
            (sb_schedules db)
  then Err NewInternalError
  else Ok (overlaps db org devices).

(** The filter with the store behind it. *)
Definition schedule_conflict_filter (db : ScheduleDB) : CommandFilter :=
  ScheduleConflictFilter (GetRunningPowerTargetScheduleOverlaps db).

End Tables.
