(* ===== verification/ScheduleFleetFacts.v ===== *)
(** * Targets, devices and conflicts

    The expansion of targets is the deduplicated union of their devices; the SQL
    overlap query finds exactly the running schedules whose expansion holds a
    device; and the registered chain of filters keeps commands off the devices
    that a running schedule, an active curtailment or a release channel holds. *)

From stdpp Require Import pretty.
From S2P Require Import Prelude GoSort Errors RolloutBehavior GoTime CommandFilter ScheduleCron.
From S2P Require Import ScheduleStore ScheduleService ScheduleProcessor.
#[local] Open Scope string_scope.
#[local] Open Scope list_scope.
#[local] Open Scope Z_scope.
#[local] Open Scope go_scope.

(** ** Canonical identifiers *)

Lemma pretty_N_char_digit x : isDigit (Z.of_nat (Ascii.nat_of_ascii (pretty_N_char x))) = true.
Proof. by destruct x as [|[[[[]|[]|]|[[]|[]|]|]|[[[]|[]|]|[[]|[]|]|]|]]. Qed.

(** A string that starts with a digit. *)
Definition starts_with_digit (s : string) : Prop :=
  match bytes s with c :: _ => isDigit c = true | [] => False end.

Lemma pretty_N_go_starts x s : (x = 0%N → starts_with_digit s) → starts_with_digit (pretty_N_go x s).
Proof.
  revert s. induction (N.lt_wf_0 x) as [x _ IH]; intros s Hs.
  destruct (decide (x = 0%N)) as [->|Hx]; [by apply Hs|].
  rewrite pretty_N_go_step by lia. apply IH; [apply N.div_lt; lia|]. intros _. apply pretty_N_char_digit.
Qed.

Lemma FormatInt_starts n : 0 < n → starts_with_digit (FormatInt n).
Proof.
  intros Hn. unfold FormatInt, pretty, pretty_Z. destruct n as [|p|p]; [lia| |lia].
  change (starts_with_digit (pretty_N_go (N.pos p) "")). by apply pretty_N_go_starts.
Qed.

Lemma decimal_digits acc l z : decimal acc l = Some z → forallb isDigit l = true ∧ (0 <= acc → 0 <= z).
Proof.
  revert acc. induction l as [|b l IH]; intros acc; simpl; [intros; simplify_eq; split; [done|lia]|].
  destruct (isDigit b) eqn:E; [|done]. intros Hd. destruct (IH _ Hd) as [H1 H2]. split; [done|].
  intros. apply H2. unfold digit. unfold isDigit, between in E. crush_bools. lia.
Qed.

(** What the validation of a numeric target identifier establishes. *)
Lemma canonical_id_spec s :
  canonical_id s = true →
  ∃ n, ParseInt s = Some n ∧ 0 < n ∧ s = FormatInt n ∧ all_digits s = true.
Proof.
  unfold canonical_id. destruct (ParseInt s) as [n|] eqn:E; [|done]. intros Hc. crush_bools.
  exists n. split_and!; [done|lia|done|].
  assert (Hs : starts_with_digit s) by (rewrite <- H0; apply FormatInt_starts; lia).
  unfold all_digits. rewrite bool_decide_eq_false_2 by (by intros ->). simpl.
  unfold ParseInt in E. unfold starts_with_digit in Hs. destruct (bytes s) as [|c l] eqn:El; [done|].
  assert (c ≠ 43 ∧ c ≠ 45) as [Hc1 Hc2] by (unfold isDigit, between in Hs; crush_bools; lia).
  assert (E' : (z ← decimal 0 (c :: l); if (- 2 ^ 63 <=? z) && (z <? 2 ^ 63) then Some z else None) = Some n).
  { rewrite <- E. destruct c as [|c|c]; try done. do 6 (destruct c as [c|c|]; try done). }
  destruct (decimal 0 (c :: l)) eqn:Ed; [|done]. by apply decimal_digits in Ed as [Ed _].
Qed.

(** ** Expansion *)

Lemma elem_of_add_all ids ds d : d ∈ add_all ids ds ↔ d ∈ ids ∨ d ∈ ds.
Proof.
  revert ids. induction ds as [|x ds IH]; intros ids; simpl.
  - rewrite elem_of_nil. tauto.
  - unfold add_all in *. simpl. rewrite IH, elem_of_cons. case_bool_decide; [set_solver|].
    rewrite elem_of_app, list_elem_of_singleton. tauto.
Qed.

Lemma NoDup_add_all ids ds : NoDup ids → NoDup (add_all ids ds).
Proof.
  revert ids. unfold add_all. induction ds as [|x ds IH]; intros ids Hn; simpl; [done|].
  apply IH. case_bool_decide; [done|]. apply NoDup_app. split_and!; [done| |apply NoDup_singleton].
  intros y Hy ->%list_elem_of_singleton. done.
Qed.

Section Expansion.
Context `{DeviceSets}.

Lemma Expand_concat org targets ids :
  Expand org targets ids = (λ dss, add_all ids (concat dss)) <$> mapM (target_devices org) targets.
Proof.
  revert ids. induction targets as [|t rest IH]; intros ids; simpl; [done|].
  destruct (target_devices org t) as [ds|]; simpl; [|done]. rewrite IH.
  destruct (mapM _ rest); simpl; [|done]. f_equal. unfold add_all. by rewrite fold_left_app.
Qed.

Lemma elem_of_Expand org targets out d :
  Expand org targets [] = Some out →
  d ∈ out ↔ ∃ t ds, t ∈ targets ∧ target_devices org t = Some ds ∧ d ∈ ds.
Proof.
  rewrite Expand_concat. destruct (mapM _ targets) as [dss|] eqn:E; [|done]. intros [= <-].
  rewrite elem_of_add_all, elem_of_nil. apply mapM_Some in E.
  transitivity (∃ ds, d ∈ ds ∧ ds ∈ dss).
  { rewrite (list_elem_of_In (concat dss) d), in_concat. setoid_rewrite list_elem_of_In. naive_solver. }
  induction E as [|t ds targets dss Ht _ IH]; [set_solver|].
  setoid_rewrite elem_of_cons. split.
  - intros (ds' & Hd & [->|Hin]); [eauto 7|].
    destruct (proj1 IH (ex_intro _ ds' (conj Hd Hin))) as (t' & ds'' & ? & ? & ?). eauto 7.
  - intros (t' & ds' & [->|Hin] & Hd1 & Hd2); [exists ds'; split; [done|left; congruence]|].
    destruct (proj2 IH) as (ds'' & ? & ?); [eauto|]. eauto.
Qed.

Lemma NoDup_Expand org targets out : Expand org targets [] = Some out → NoDup out.
Proof.
  rewrite Expand_concat. destruct (mapM _ targets); [|done]. intros [= <-]. apply NoDup_add_all, NoDup_nil_2.
Qed.

Lemma Expand_total org targets :
  (∀ t, t ∈ targets → is_Some (target_devices org t)) → is_Some (Expand org targets []).
Proof.
  intros Ht. rewrite Expand_concat. apply fmap_is_Some, mapM_is_Some, Forall_forall. done.
Qed.

End Expansion.

(** ** The overlap query *)

Definition target_types : list string := ["rack"; "group"; "miner"; "site"; "building"].

(** A stored target: a known type, and a canonical identifier unless it is a
    miner. Validation establishes it for every row the service writes. *)
Definition target_row_ok (st : ScheduleTargetRow) : bool :=
  bool_decide (tr_TargetType st ∈ target_types)
  && ((tr_TargetType st == "miner") || canonical_id (tr_TargetID st)).

(** A membership carries the organization of its device set. *)
Definition memberships_in_org (tb : FleetTables) : Prop :=
  ∀ m ds, m ∈ ft_memberships tb → ds ∈ ft_sets tb → ds_ID ds = dm_SetID m → ds_OrgID ds = dm_OrgID m.

Lemma existsb_ext_elem {A} (p q : A → bool) (l : list A) :
  (∀ x, x ∈ l → p x = q x) → existsb p l = existsb q l.
Proof.
  induction l as [|x l IH]; [done|]. intros Hpq. simpl. rewrite (Hpq x) by left.
  by rewrite IH by (intros y Hy; apply Hpq; by right).
Qed.

Section Overlaps.
Variable tb : FleetTables.
Hypothesis in_org_sets : memberships_in_org tb.

#[local] Instance resolver : DeviceSets := fleet_sets tb.

Lemma in_rack_of_any_org org b d :
  in_rack_of tb (λ ds, ds_OrgID ds =? org) org b d = in_rack_of tb (λ _, true) org b d.
Proof.
  unfold in_rack_of. apply existsb_ext_elem. intros m Hm.
  destruct (dm_OrgID m =? org) eqn:E; [|by rewrite !andb_false_r]. crush_bools.
  f_equal. f_equal. unfold live_set. apply existsb_ext_elem. intros ds Hds.
  destruct (ds_ID ds =? dm_SetID m) eqn:Ei; [|done]. crush_bools. f_equal.
  apply Z.eqb_eq. rewrite (in_org_sets m ds) by done. done.
Qed.

Lemma elem_of_devices_where org p d :
  d ∈ devices_where tb org p ↔
  existsb (λ e, listed org e && (dv_Identifier e == d) && p e) (ft_devices tb) = true.
Proof.
  unfold devices_where. rewrite list_elem_of_fmap, existsb_elem. split.
  - intros (e & -> & [He Hp]%elem_of_List_filter). exists e. split; [done|]. crush_bools.
    by rewrite bool_decide_eq_true_2, H, H0.
  - intros (e & He & Hp). crush_bools. exists e. split; [done|]. apply elem_of_List_filter. by rewrite H, H0.
Qed.

Lemma elem_of_set_devices id org d :
  d ∈ GetDeviceIdentifiersByDeviceSetID tb id org ↔
  existsb (λ m, (dm_OrgID m =? org) && live_set tb (λ ds, ds_OrgID ds =? org) (dm_SetID m)
                && same_number (Some (dm_SetID m)) (Some id) && (dm_DeviceIdentifier m == d))
    (ft_memberships tb) = true.
Proof.
  unfold GetDeviceIdentifiersByDeviceSetID. rewrite list_elem_of_fmap, existsb_elem. simpl. split.
  - intros (m & -> & [Hm Hp]%elem_of_List_filter). exists m. split; [done|]. crush_bools.
    subst. by rewrite !Z.eqb_refl, H0, bool_decide_eq_true_2.
  - intros (m & Hm & Hp). crush_bools. subst. exists m. split; [done|]. apply elem_of_List_filter.
    by rewrite !Z.eqb_refl, H2.
Qed.

Lemma same_number_some column n : same_number column (Some n) = bool_decide (column = Some n).
Proof.
  destruct column as [c|]; simpl; [|done]. destruct (Z.eqb_spec c n) as [->|Hne].
  - by rewrite bool_decide_eq_true_2.
  - rewrite bool_decide_eq_false_2; congruence.
Qed.

(** The SQL condition and the expansion of one target agree. *)
Lemma target_covers_devices org st :
  target_row_ok st = true →
  ∃ ds, target_devices org (target_of_row st) = Some ds ∧ ∀ d, target_covers tb org st d = true ↔ d ∈ ds.
Proof.
  unfold target_row_ok. intros [Ht Hc]%andb_prop. apply bool_decide_eq_true in Ht.
  unfold target_covers, target_devices, target_of_row, target_bigint; simpl.
  destruct (decide (tr_TargetType st = "miner")) as [E|E].
  { rewrite E. simpl. eexists. split; [done|]. intros d. rewrite !orb_false_r, bool_decide_eq_true.
    rewrite list_elem_of_singleton. naive_solver. }
  rewrite (bool_decide_eq_false_2 _ E) in Hc |- *. simpl in Hc.
  destruct (canonical_id_spec _ Hc) as (n & Hn & _ & _ & Hdig). rewrite Hdig, Hn. simpl.
  unfold target_types in Ht. rewrite !elem_of_cons, elem_of_nil in Ht.
  destruct Ht as [Ht|[Ht|[Ht|[Ht|[Ht|[]]]]]]; rewrite Ht; simpl; try done; eexists; (split; [done|]);
    intros d; rewrite ?orb_false_r.
  - rewrite elem_of_set_devices. done.
  - rewrite elem_of_set_devices. done.
  - unfold devices_of_site. rewrite elem_of_devices_where.
    erewrite existsb_ext_elem; [done|]. intros e _. simpl. by rewrite same_number_some.
  - unfold devices_of_building. rewrite elem_of_devices_where.
    erewrite existsb_ext_elem; [done|]. intros e _. simpl. by rewrite same_number_some, in_rack_of_any_org.
Qed.

Variable db : ScheduleDB.
Hypothesis targets_ok : ∀ st, st ∈ sb_targets db → target_row_ok st = true.

(** The devices a schedule's targets expand to. *)
Definition expansion (org : Z) (s : ScheduleRow) : option (list string) :=
  Expand org (targets_of org (rw_ID s) db) [].

Lemma elem_of_targets_of org s t :
  s ∈ sb_schedules db → in_org org s = true →
  t ∈ targets_of org (rw_ID s) db ↔ ∃ st, st ∈ sb_targets db ∧ targets_row s st = true ∧ t = target_of_row st.
Proof.
  intros Hs Ho. unfold targets_of.
  assert (existsb (is_row org (rw_ID s)) (sb_schedules db) = true) as ->.
  { apply existsb_elem. exists s. split; [done|]. unfold is_row. by rewrite Ho, Z.eqb_refl. }
  rewrite list_elem_of_fmap. setoid_rewrite elem_of_List_filter. unfold targets_row. naive_solver.
Qed.

(** The devices the SQL conditions find for a schedule are its expansion. *)
Lemma covered_is_expansion org s :
  s ∈ sb_schedules db → in_org org s = true →
  ∃ ex, expansion org s = Some ex ∧
    ∀ d, existsb (λ st, targets_row s st && target_covers tb org st d) (sb_targets db) = true ↔ d ∈ ex.
Proof.
  intros Hs Ho. unfold expansion.
  destruct (Expand_total org (targets_of org (rw_ID s) db)) as [ex Hex].
  { intros t (st & Hst & _ & ->)%elem_of_targets_of; [|done..].
    destruct (target_covers_devices org st) as (ds & -> & _); eauto. }
  exists ex. split; [done|]. intros d. rewrite (elem_of_Expand _ _ _ _ Hex), existsb_elem. split.
  - intros (st & Hst & [Hr Hc]%andb_prop).
    destruct (target_covers_devices org st) as (ds & Hds & Hd); [by apply targets_ok|].
    exists (target_of_row st), ds. split_and!; [|done|by apply Hd].
    apply elem_of_targets_of; eauto.
  - intros (t & ds & (st & Hst & Hr & ->)%elem_of_targets_of & Hds & Hin); [|done..].
    destruct (target_covers_devices org st) as (ds' & Hds' & Hd); [by apply targets_ok|].
    exists st. split; [done|]. rewrite Hr. simpl. apply Hd. congruence.
Qed.

Lemma no_cast_fails org :
  existsb (λ s, running_window org s && existsb (λ st, targets_row s st && cast_fails st) (sb_targets db))
    (sb_schedules db) = false.
Proof.
  apply not_true_iff_false. rewrite existsb_elem. intros (s & _ & [_ (st & Hst & [_ Hc]%andb_prop)%existsb_elem]%andb_prop).
  pose proof (targets_ok st Hst) as Hok. unfold target_row_ok in Hok. unfold cast_fails in Hc.
  apply andb_prop in Hok as [_ Hok]. apply andb_prop in Hc as [[Hm _]%andb_prop Hn].
  apply negb_true_iff in Hm. rewrite Hm in Hok. apply canonical_id_spec in Hok as (n & Hp & _).
  by rewrite Hp in Hn.
Qed.

Lemma elem_of_overlaps org devices r :
  r ∈ overlaps tb db org devices ↔ ov_DeviceIdentifier r ∈ devices ∧
  ∃ s ex, s ∈ sb_schedules db ∧ running_window org s = true ∧ rw_ID s = ov_ScheduleID r
    ∧ rw_Priority s = ov_SchedulePriority r ∧ expansion org s = Some ex ∧ ov_DeviceIdentifier r ∈ ex.
Proof.
  unfold overlaps. rewrite list_elem_of_bind. setoid_rewrite list_elem_of_fmap. split.
  - intros (s & (d & -> & [Hd Hc]%elem_of_List_filter) & Hs). rewrite stable_sort_elem in Hs.
    apply elem_of_List_filter in Hs as [Hs Hw]. simpl. rewrite elem_of_remove_dups in Hd. split; [done|].
    assert (Ho : in_org org s = true) by (unfold running_window in Hw; by crush_bools).
    destruct (covered_is_expansion org s Hs Ho) as (ex & Hex & Hd').
    assert (rw_OrgID s = org) as Horg by (unfold in_org in Ho; by crush_bools). rewrite Horg in Hc.
    exists s, ex. split_and!; try done. by apply Hd'.
  - intros (Hd & s & ex & Hs & Hw & Hid & Hp & Hex & Hin).
    assert (Ho : in_org org s = true) by (unfold running_window in Hw; by crush_bools).
    destruct (covered_is_expansion org s Hs Ho) as (ex' & Hex' & Hd'). simplify_eq.
    assert (rw_OrgID s = org) as Horg by (unfold in_org in Ho; by crush_bools).
    exists s. split.
    + exists (ov_DeviceIdentifier r). split; [destruct r; simpl in *; by subst|].
      apply elem_of_List_filter. split; [by apply elem_of_remove_dups|]. rewrite Horg. by apply Hd'.
    + rewrite stable_sort_elem. by apply elem_of_List_filter.
Qed.

End Overlaps.

Lemma overlaps_exact tb db org devices :
  memberships_in_org tb → (∀ st, st ∈ sb_targets db → target_row_ok st = true) →
  ∃ rows, GetRunningPowerTargetScheduleOverlaps tb db org devices = Ok rows ∧
    ∀ r, r ∈ rows ↔ ov_DeviceIdentifier r ∈ devices ∧
      ∃ s ex, s ∈ sb_schedules db ∧ running_window org s = true ∧ rw_ID s = ov_ScheduleID r
        ∧ rw_Priority s = ov_SchedulePriority r
        ∧ expansion tb db org s = Some ex ∧ ov_DeviceIdentifier r ∈ ex.
Proof.
  intros Hm Ht. unfold GetRunningPowerTargetScheduleOverlaps. destruct (length devices =? 0)%nat eqn:E.
  - exists []. split; [done|]. intros r. destruct devices; [set_solver|done].
  - rewrite (no_cast_fails db Ht). eexists. split; [done|]. intros r. by apply elem_of_overlaps.
Qed.

(** C24: On well-formed targets the SQL overlap query never fails and finds exactly the pairs of a
    running power-target schedule and a requested device that the Go expansion of the schedule's
    targets contains. *)
Theorem overlaps_are_the_expansion tb db org devices :
  memberships_in_org tb → (∀ st, st ∈ sb_targets db → target_row_ok st = true) →
  ∃ rows, GetRunningPowerTargetScheduleOverlaps tb db org devices = Ok rows ∧
    ∀ r, r ∈ rows ↔ ov_DeviceIdentifier r ∈ devices ∧
      ∃ s ex, s ∈ sb_schedules db ∧ running_window org s = true ∧ rw_ID s = ov_ScheduleID r
        ∧ rw_Priority s = ov_SchedulePriority r
        ∧ Expand (H := fleet_sets tb) org (targets_of org (rw_ID s) db) [] = Some ex
        ∧ ov_DeviceIdentifier r ∈ ex.
Proof. exact (overlaps_exact tb db org devices). Qed.

(** The chain that the server registers at startup. *)
Definition registered_filters (tb : FleetTables) (db : ScheduleDB)
    (activeDevices : Z → result FleetError (list string))
    (managedDevices : Z → list string → result FleetError (list ManagedDevice)) : list CommandFilter :=
  [schedule_conflict_filter tb db; CurtailmentActiveFilter activeDevices;
   ReleaseChannelFirmwareFilter managedDevices].

Lemma blocks_spec source r :
  blocks source r = false →
  ov_ScheduleID r = so_ScheduleID source
  ∨ so_ScheduleID source ≠ 0 ∧ so_SchedulePriority source <= ov_SchedulePriority r.
Proof. unfold blocks. intros [H1|H1]%andb_false_iff; crush_bools; [by left|right; lia]. Qed.

(** A device the conflict filter keeps is in no other running window that
    outranks the command. *)
Lemma no_conflict_expansion tb db i id s ex :
  memberships_in_org tb → (∀ st, st ∈ sb_targets db → target_row_ok st = true) →
  no_conflict (GetRunningPowerTargetScheduleOverlaps tb db) i id = true →
  id ∈ cf_DeviceIdentifiers i → cf_CommandType i = SetPowerTargetType →
  s ∈ sb_schedules db → running_window (cf_OrganizationID i) s = true →
  expansion tb db (cf_OrganizationID i) s = Some ex → id ∈ ex →
  rw_ID s = so_ScheduleID (cf_Source i)
  ∨ so_ScheduleID (cf_Source i) ≠ 0 ∧ so_SchedulePriority (cf_Source i) <= rw_Priority s.
Proof.
  intros Hm Ht Hk Hid Htype Hs Hw Hex Hin.
  destruct (overlaps_exact tb db (cf_OrganizationID i) (cf_DeviceIdentifiers i) Hm Ht) as (rows & Hrows & Hr).
  set (r := {| ov_ScheduleID := rw_ID s; ov_SchedulePriority := rw_Priority s; ov_DeviceIdentifier := id |}).
  apply (blocks_spec (cf_Source i) r), (no_conflict_spec _ _ id _ Hk Htype Hrows); [|done].
  apply Hr. split; [done|]. by exists s, ex.
Qed.

(** C10: The registered chain of filters splits a command's devices into kept and skipped ones,
    and a device it keeps is, for a power target, in no running power-target schedule other than
    the sender that outranks it (any such schedule when sent by hand), in no active curtailment
    unless the command is the curtailment's own, and, for firmware not sent by a rollout, managed
    by no release channel. *)
Theorem held_devices_are_protected tb db activeDevices managedDevices i kept skipped :
  memberships_in_org tb → (∀ st, st ∈ sb_targets db → target_row_ok st = true) →
  applyFilters (registered_filters tb db activeDevices managedDevices) i = Ok (kept, skipped) →
  kept ++ map ck_DeviceIdentifier skipped ≡ₚ cf_DeviceIdentifiers i
  ∧ (∀ id, id ∈ kept →
      (cf_CommandType i = SetPowerTargetType → ∀ s ex, s ∈ sb_schedules db →
         running_window (cf_OrganizationID i) s = true →
         Expand (H := fleet_sets tb) (cf_OrganizationID i) (targets_of (cf_OrganizationID i) (rw_ID s) db) []
           = Some ex → id ∈ ex →
         rw_ID s = so_ScheduleID (cf_Source i)
         ∨ so_ScheduleID (cf_Source i) ≠ 0 ∧ so_SchedulePriority (cf_Source i) <= rw_Priority s)
      ∧ (exempt_from_curtailment i = false → ∀ active, activeDevices (cf_OrganizationID i) = Ok active →
         id ∉ active)
      ∧ (cf_CommandType i = FirmwareUpdateType → cf_Actor i ≠ ActorRolloutEnforcement →
         ∀ holds : string → Prop,
         (∀ ids, ∃ rows, managedDevices (cf_OrganizationID i) ids = Ok rows
            ∧ ∀ d, d ∈ ids → holds d → d ∈ map md_DeviceIdentifier rows) → ¬ holds id)).
Proof.
  intros Hm Ht Happ. unfold applyFilters in Happ.
  apply (apply_filters_spec
    [(schedule_conflict_filter tb db, no_conflict (GetRunningPowerTargetScheduleOverlaps tb db));
     (CurtailmentActiveFilter activeDevices, not_curtailed activeDevices);
     (ReleaseChannelFirmwareFilter managedDevices, not_managed managedDevices)]) in Happ
    as (_ & (more & -> & Hperm & _) & Hpass); [|repeat (apply Forall_cons_2; [simpl; apply _|]); apply Forall_nil_2|done].
  simpl. split; [done|]. intros id Hid. split_and!.
  - intros Htype s ex Hs Hw Hex Hin.
    destruct (Hpass id _ Hid ltac:(left)) as (ids & Hids & _ & Hk).
    pose proof (no_conflict_expansion tb db (i <| cf_DeviceIdentifiers := ids |>) id s ex Hm Ht) as Hx.
    simpl in Hx, Hk. by apply Hx.
  - intros Hex active Hact. destruct (Hpass id _ Hid ltac:(right; left)) as (ids & _ & _ & Hk).
    by eapply (not_curtailed_spec _ _ _ _ Hk).
  - intros Htype Hactor holds Hlaw Hh.
    destruct (Hpass id _ Hid ltac:(right; right; left)) as (ids & Hids & _ & Hk).
    destruct (Hlaw ids) as (rows & Hrows & Hin).
    by eapply (not_managed_spec _ _ _ _ Hk), Hin.
Qed.
