(* ===== verification/ScheduleStoreFacts.v ===== *)
(** * Stored schedules read back

    The conversions between messages and rows: parsing is exact on what it
    formats, a stored row is in canonical form, and reading it gives the message
    that was written. *)

From S2P Require Import Prelude GoSort Errors RolloutBehavior RolloutBehaviorFacts GoTime ScheduleCron.
From S2P Require Import ScheduleStore.
#[local] Open Scope string_scope.
#[local] Open Scope list_scope.
#[local] Open Scope Z_scope.
#[local] Open Scope go_scope.

(** ** Clocks and dates *)

Definition clock_of (h m : Z) : clock :=
  {| c_year := 0; c_month := 1; c_day := 1; c_hour := h; c_min := m; c_sec := 0 |}.

(** Everything a canonical time of day must satisfy, checked on every minute. *)
Definition clock_checks (h m : Z) : bool :=
  let s := Format layout_clock (clock_of h m) in
  bool_decide (parseScheduleTime s = Some s) && bool_decide (parseScheduleTime (time_text s) = Some s)
  && (s != "").

Definition range (n : nat) : list Z := Z.of_nat <$> seq 0 n.

Lemma elem_of_range n z : 0 <= z < Z.of_nat n → z ∈ range n.
Proof.
  intros Hz. apply list_elem_of_fmap. exists (Z.to_nat z). split; [lia|]. apply elem_of_seq. lia.
Qed.

Lemma all_clocks_checked : forallb (λ h, forallb (clock_checks h) (range 60)) (range 24) = true.
Proof. vm_compute. reflexivity. Qed.

Lemma clock_checked h m : 0 <= h < 24 → 0 <= m < 60 → clock_checks h m = true.
Proof.
  intros Hh Hm. pose proof all_clocks_checked as Hall. rewrite forallb_forall in Hall.
  specialize (Hall h). rewrite <- list_elem_of_In, forallb_forall in Hall.
  apply Hall; [|apply list_elem_of_In]; by apply elem_of_range.
Qed.

Lemma getnum_bounds fixed v n rest : getnum fixed v = Some (n, rest) → 0 <= n <= 99.
Proof.
  unfold getnum, isDigit, digit, between. intros Hg.
  destruct v as [|a [|b v]]; [done| |]; destruct (negb _) eqn:E1; try done; crush_bools.
  - destruct fixed; [done|]. simplify_eq. lia.
  - destruct (_ && _) eqn:E2; crush_bools; [|destruct fixed; [done|]]; simplify_eq; lia.
Qed.

Lemma in_range_bounds lo hi p n rest : in_range lo hi p = Some (n, rest) → lo <= n <= hi ∧ p = Some (n, rest).
Proof.
  unfold in_range. destruct p as [[n' rest']|]; [|done]. unfold between. case_if; [|done].
  intros; simplify_eq. done.
Qed.

(** A chunk keeps the fields in their ranges. *)
Definition clock_ok (t : clock) : Prop :=
  0 <= c_hour t <= 23 ∧ 0 <= c_min t <= 59 ∧ 0 <= c_year t <= 9999 ∧ 1 <= c_month t <= 12.

Lemma year4_bounds v n rest : year4 v = Some (n, rest) → 0 <= n <= 9999.
Proof.
  destruct v as [|a [|b [|c [|d v]]]]; try done. unfold year4. simpl. unfold isDigit, digit, between.
  case_if; [|done]. intros; simplify_eq. lia.
Qed.

Lemma parse_chunk_ok ch t v t' v' : clock_ok t → parse_chunk ch t v = Some (t', v') → clock_ok t'.
Proof.
  unfold clock_ok. intros Ht. destruct ch; simpl; try (
    match goal with |- context [in_range ?lo ?hi ?p] => destruct (in_range lo hi p) as [[n r]|] eqn:E; [|done];
      apply in_range_bounds in E as [E _] end; simpl; intros; simplify_eq; simpl; lia).
  - destruct (year4 v) as [[n r]|] eqn:E; [|done]. apply year4_bounds in E. simpl. intros; simplify_eq. simpl. lia.
  - destruct (getnum true v) as [[n r]|]; [|done]. simpl. intros; simplify_eq. done.
  - destruct v as [|b v]; repeat case_if; intros; simplify_eq; done.
Qed.

Lemma parse_chunks_ok layout t v t' : clock_ok t → parse_chunks layout t v = Some t' → clock_ok t'.
Proof.
  revert t v. induction layout as [|ch layout IH]; intros t v Ht; simpl.
  - destruct v; [|done]. by intros; simplify_eq.
  - destruct (parse_chunk ch t v) as [[t1 v1]|] eqn:E; simpl; [|done]. apply IH. by eapply parse_chunk_ok.
Qed.

Lemma Parse_ok layout s t : Parse layout s = Some t → clock_ok t.
Proof.
  unfold Parse. destruct (parse_chunks _ _ _) as [t0|] eqn:E; simpl; [|done]. case_if; [|done].
  intros; simplify_eq. eapply parse_chunks_ok, E. unfold clock_ok. simpl. lia.
Qed.

(** A parsed time of day is canonical: it reads back from its text, with or
    without the seconds the database adds. *)
Lemma parseScheduleTime_canonical s t :
  parseScheduleTime s = Some t →
  parseScheduleTime t = Some t ∧ normalizeScheduleTimeString (time_text t) = t ∧ t ≠ "".
Proof.
  unfold parseScheduleTime. destruct (parseClockValue s) as [c|] eqn:E; [|done]. intros [= <-].
  assert (Hc : clock_ok c).
  { unfold parseClockValue in E. destruct (Parse layout_clock s) eqn:E1; simplify_eq; by eapply Parse_ok. }
  destruct Hc as (Hh & Hm & _).
  pose proof (clock_checked (c_hour c) (c_min c) ltac:(lia) ltac:(lia)) as Hk. unfold clock_checks in Hk.
  change (Format layout_clock (clock_of (c_hour c) (c_min c))) with (Format layout_clock c) in Hk.
  apply andb_prop in Hk as [[H1 H2]%andb_prop H3]. crush_bools. split_and!; [done| |done].
  unfold normalizeScheduleTimeString. by rewrite H2.
Qed.

Lemma bytes_string_of_bytes l : Forall (λ b, 0 <= b < 256) l → bytes (string_of_bytes l) = l.
Proof.
  unfold bytes, string_of_bytes. rewrite String.list_ascii_of_string_of_list_ascii, map_map.
  induction 1 as [|b l Hb _ IH]; [done|]. simpl. rewrite IH, Ascii.nat_ascii_embedding by lia. f_equal. lia.
Qed.

Lemma isDigit_48 d : 0 <= d <= 9 → isDigit (48 + d) = true.
Proof. unfold isDigit, between. intros. rewrite andb_true_iff, !Z.leb_le. lia. Qed.

Lemma getnum_two_digits n rest : 0 <= n <= 99 → getnum true (two_digits n ++ rest) = Some (n, rest).
Proof.
  intros Hn. unfold two_digits, getnum. simpl. rewrite !isDigit_48 by div_lia. simpl.
  unfold digit. f_equal. f_equal. div_lia.
Qed.

Lemma year4_four_digits n rest : 0 <= n <= 9999 → year4 (four_digits n ++ rest) = Some (n, rest).
Proof.
  intros Hn. unfold four_digits, year4. cbn [app forallb]. rewrite !isDigit_48 by div_lia.
  unfold digit. cbn [andb]. f_equal. f_equal. div_lia.
Qed.

Lemma in_range_some lo hi n rest : lo <= n <= hi → in_range lo hi (Some (n, rest)) = Some (n, rest).
Proof. intros Hn. unfold in_range, between. case_if; [done|]. lia. Qed.

(** The field a chunk names, copied from [c]. *)
Definition copy_chunk (c t : clock) (ch : chunk) : clock :=
  match ch with
  | stdHour => t <| c_hour := c_hour c |>
  | stdZeroMinute => t <| c_min := c_min c |>
  | stdZeroSecond => t <| c_sec := c_sec c |>
  | stdLongYear => t <| c_year := c_year c |>
  | stdZeroMonth => t <| c_month := c_month c |>
  | stdZeroDay => t <| c_day := c_day c |>
  | Lit _ => t
  end.

(** Chunks that consume exactly what they format, whatever follows. *)
Definition exact_chunk (ch : chunk) : bool :=
  match ch with stdHour | stdZeroSecond => false | Lit c => negb (c =? 32) | _ => true end.

Lemma parse_format_chunk c t ch rest :
  clock_ok c → 0 <= c_day c <= 99 → exact_chunk ch = true →
  parse_chunk ch t (format_chunk c ch ++ rest) = Some (copy_chunk c t ch, rest).
Proof.
  intros (Hh & Hm & Hy & Hmo) Hd Hex. destruct ch as [| | | | | |l]; try done; cbn [parse_chunk format_chunk].
  - by rewrite getnum_two_digits, in_range_some by lia.
  - by rewrite year4_four_digits.
  - by rewrite getnum_two_digits, in_range_some by lia.
  - by rewrite getnum_two_digits by lia.
  - simpl in Hex. crush_bools. rewrite (proj2 (Z.eqb_neq _ _) Hex). simpl. by rewrite Z.eqb_refl.
Qed.

Lemma parse_format_chunks c t layout :
  clock_ok c → 0 <= c_day c <= 99 → forallb exact_chunk layout = true →
  parse_chunks layout t (flat_map (format_chunk c) layout) = Some (fold_left (copy_chunk c) layout t).
Proof.
  intros Hc Hd. revert t. induction layout as [|ch layout IH]; intros t Hex; [done|].
  apply andb_prop in Hex as [Hch Hex]. cbn [parse_chunks flat_map fold_left].
  rewrite parse_format_chunk by done. by apply IH.
Qed.

(** A date reads back from its text. *)
Lemma date_text_parse c :
  0 <= d_year c <= 9999 → valid_date c → parseScheduleDate (date_text c) = Some c.
Proof.
  intros Hy [Hm Hd]. destruct c as [y m d]. simpl in *.
  assert (Hd' : 1 <= d <= 31).
  { clear Hy. unfold days_in in Hd. destruct (is_leap y); month_cases m; month_table; lia. }
  unfold parseScheduleDate, date_text, Parse, Format. rewrite bytes_string_of_bytes.
  2: { unfold layout_date. simpl. repeat constructor; try div_lia. }
  rewrite parse_format_chunks by (done || (unfold clock_ok; simpl; lia)). simpl.
  unfold between. by rewrite (proj2 (Z.leb_le 1 d)), (proj2 (Z.leb_le d _)) by lia.
Qed.

Lemma parseScheduleDate_ok s c :
  parseScheduleDate s = Some c → 0 <= d_year c <= 9999 ∧ valid_date c.
Proof.
  unfold parseScheduleDate. destruct (Parse layout_date s) as [t|] eqn:E; [|done]. simpl. intros [= <-].
  pose proof (Parse_ok _ _ _ E) as (_ & _ & Hy & Hm). split; [done|]. split; [done|]. simpl.
  unfold Parse in E. destruct (parse_chunks _ _ _); [|done]. simpl in E.
  unfold between in E. destruct (_ && _) eqn:Eb; [|done]. simplify_eq. crush_bools. lia.
Qed.

Lemma parseScheduleDate_canonical s c :
  parseScheduleDate s = Some c → parseScheduleDate (date_text c) = Some c ∧ date_text c ≠ "".
Proof.
  intros [Hy Hv]%parseScheduleDate_ok. pose proof (date_text_parse c Hy Hv) as Hp. split; [done|].
  intros E. by rewrite E in Hp.
Qed.

(** ** Rows and messages *)

(** The enums of a message the API lets through. *)
Definition known_enums (sched : Schedule) : Prop :=
  between SCHEDULE_ACTION_SET_POWER_TARGET SCHEDULE_ACTION_SLEEP (sc_Action sched) = true
  ∧ between SCHEDULE_TYPE_ONE_TIME SCHEDULE_TYPE_RECURRING (sc_ScheduleType sched) = true
  ∧ sc_ActionConfig sched ≠ Some POWER_TARGET_MODE_UNSPECIFIED.

Lemma action_roundtrip a :
  between SCHEDULE_ACTION_SET_POWER_TARGET SCHEDULE_ACTION_SLEEP a = true →
  stringToScheduleAction (scheduleActionToString a) = a.
Proof.
  unfold between, SCHEDULE_ACTION_SET_POWER_TARGET, SCHEDULE_ACTION_SLEEP. intros. crush_bools.
  assert (a = 1 ∨ a = 2 ∨ a = 3) as [-> | [-> | ->]] by lia; reflexivity.
Qed.

Lemma type_roundtrip t :
  between SCHEDULE_TYPE_ONE_TIME SCHEDULE_TYPE_RECURRING t = true →
  stringToScheduleType (scheduleTypeToString t) = t.
Proof.
  unfold between, SCHEDULE_TYPE_ONE_TIME, SCHEDULE_TYPE_RECURRING. intros. crush_bools.
  assert (t = 1 ∨ t = 2) as [-> | ->] by lia; reflexivity.
Qed.

(** A message with its dates and times as the store writes them. *)
Definition normal_schedule (sched : Schedule) (co : ScheduleColumns) : Schedule :=
  sched <| sc_StartDate := date_text (co_StartDate co) |> <| sc_StartTime := co_StartTime co |>
    <| sc_EndTime := default "" (co_EndTime co) |>
    <| sc_EndDate := match co_EndDate co with Some d => date_text d | None => "" end |>.

Lemma parseNullTime_canonical s t :
  parseNullTime s = Some t →
  parseNullTime (default "" t) = Some t
  ∧ match t with Some t => normalizeScheduleTimeString (time_text t) | None => "" end = default "" t.
Proof.
  unfold parseNullTime. case_if; [intros; simplify_eq; done|].
  destruct (parseScheduleTime s) as [u|] eqn:Eu; [|done]. intros [= <-]. simpl.
  destruct (parseScheduleTime_canonical _ _ Eu) as (H1 & H2 & H3).
  rewrite bool_decide_eq_false_2 by done. by rewrite H1.
Qed.

Lemma parseNullDate_canonical s d :
  parseNullDate s = Some d →
  parseNullDate (match d with Some d => date_text d | None => "" end) = Some d.
Proof.
  unfold parseNullDate. case_if; [intros; simplify_eq; done|].
  destruct (parseScheduleDate s) as [u|] eqn:Eu; [|done]. intros [= <-]. simpl.
  destruct (parseScheduleDate_canonical _ _ Eu) as (H1 & H2).
  by rewrite H1.
Qed.

Lemma columns_of_inv sched co :
  columns_of sched = Some co →
  parseScheduleDate (sc_StartDate sched) = Some (co_StartDate co)
  ∧ parseScheduleTime (sc_StartTime sched) = Some (co_StartTime co)
  ∧ parseNullTime (sc_EndTime sched) = Some (co_EndTime co)
  ∧ parseNullDate (sc_EndDate sched) = Some (co_EndDate co).
Proof.
  unfold columns_of. destruct (parseScheduleDate _); simpl; [|done]. destruct (parseScheduleTime _); simpl; [|done].
  destruct (parseNullTime _); simpl; [|done]. destruct (parseNullDate _); simpl; [|done].
  intros; by simplify_eq.
Qed.

Lemma marshalActionConfig_id cfg :
  cfg ≠ Some POWER_TARGET_MODE_UNSPECIFIED → marshalActionConfig cfg = cfg.
Proof.
  unfold marshalActionConfig. destruct cfg as [m|]; [|done]. case_if; [|done]. by subst.
Qed.

Definition row_columns (r : ScheduleRow) : ScheduleColumns :=
  {| co_StartDate := rw_StartDate r; co_StartTime := rw_StartTime r; co_EndTime := rw_EndTime r;
     co_EndDate := rw_EndDate r |}.

(** A row that holds the columns of some message holds them in canonical form. *)
Lemma columns_of_row sched r :
  columns_of sched = Some (row_columns r) → columns_of (convertToProtoSchedule r) = Some (row_columns r).
Proof.
  intros (H1 & H2 & H3 & H4)%columns_of_inv.
  apply parseScheduleTime_canonical in H2 as (H2 & H2' & _). apply parseNullTime_canonical in H3 as [H3 H3'].
  apply parseScheduleDate_canonical in H1 as [H1 _]. apply parseNullDate_canonical in H4.
  unfold columns_of. simpl in *. rewrite H2', H3', H1. simpl. rewrite H2. simpl. rewrite H3. simpl.
  by rewrite H4.
Qed.

(** A schedule written by the store reads back as the message that was written, active, with
    its dates and times in canonical form, and can be written again unchanged. *)
Theorem stored_schedule_reads_back id org sched co :
  known_enums sched → columns_of sched = Some co →
  convertToProtoSchedule (new_row id org sched co)
    = (normal_schedule sched co) <| sc_Id := id |> <| sc_Status := SCHEDULE_STATUS_ACTIVE |>
        <| sc_LastRunAt := None |> <| sc_Targets := [] |>
  ∧ columns_of (convertToProtoSchedule (new_row id org sched co)) = Some co.
Proof.
  intros (Ha & Ht & Hm) Hco. split.
  - pose proof (columns_of_inv _ _ Hco) as (_ & H2 & H3 & _).
    apply parseScheduleTime_canonical in H2 as (_ & H2 & _). apply parseNullTime_canonical in H3 as [_ H3].
    unfold convertToProtoSchedule, new_row, normal_schedule. simpl.
    by rewrite action_roundtrip, type_roundtrip, H2, H3, marshalActionConfig_id by done.
  - replace co with (row_columns (new_row id org sched co)) by (by destruct co).
    apply (columns_of_row sched). rewrite Hco. by destruct co.
Qed.
