(* ===== verification/SchedulePriorityFacts.v ===== *)
(** * Priorities

    The schedules of an organization are totally ordered by priority, under a
    unique index that every statement must respect row by row. The two statements
    of a reorder never violate it, whatever the order, and make the given order
    the order of the organization. *)

From S2P Require Import Prelude GoSort Errors RolloutBehavior GoTime ScheduleCron ScheduleStore.
From S2P Require Import ScheduleService CommandFilter ScheduleFleetFacts.
#[local] Open Scope string_scope.
#[local] Open Scope list_scope.
#[local] Open Scope Z_scope.
#[local] Open Scope go_scope.

(** What the tables' keys and index guarantee, and that priorities are
    positive and below the next identifier. *)
Record keys_ok (db : ScheduleDB) : Prop := {
  ko_ids : NoDup (map rw_ID (sb_schedules db));
  ko_range r : r ∈ sb_schedules db → 1 <= rw_ID r < sb_nextval db ∧ 1 <= rw_Priority r < sb_nextval db;
  ko_index r x : r ∈ sb_schedules db → x ∈ sb_schedules db → live r = true → live x = true →
    rw_OrgID r = rw_OrgID x → rw_Priority r = rw_Priority x → rw_ID r = rw_ID x
}.

Lemma row_by_id db r x :
  keys_ok db → r ∈ sb_schedules db → x ∈ sb_schedules db → rw_ID r = rw_ID x → r = x.
Proof.
  intros [Hn _ _]. induction (sb_schedules db) as [|y l IH]; [by intros ?%elem_of_nil|].
  simpl in Hn. apply NoDup_cons in Hn as [Hy Hn]. rewrite list_elem_of_fmap in Hy.
  intros [->|Hr]%elem_of_cons [->|Hx]%elem_of_cons He; try done; [|by destruct Hy; eauto|by apply IH].
  destruct Hy. eauto.
Qed.

(** ** One statement *)

Definition set_prio (f : ScheduleRow → option Z) (r : ScheduleRow) : ScheduleRow :=
  match f r with Some p => r <| rw_Priority := p |> | None => r end.

Lemma set_prio_id f r : rw_ID (set_prio f r) = rw_ID r.
Proof. unfold set_prio. by destruct (f r). Qed.

Lemma set_prio_in_org f org r : in_org org (set_prio f r) = in_org org r.
Proof. unfold set_prio. by destruct (f r). Qed.

(** No two rows of an organization meet, whichever of them has moved. *)
Definition no_meeting (f : ScheduleRow → option Z) (r x : ScheduleRow) : Prop :=
  ∀ p, live r = true → in_org (rw_OrgID r) x = true → f r = Some p → rw_Priority x ≠ p ∧ f x ≠ Some p.

Lemma set_priorities_step f before after :
  NoDup (map rw_ID (before ++ after)) →
  (∀ r x, r ∈ after → x ∈ before ++ after → rw_ID r ≠ rw_ID x → no_meeting f r x) →
  set_priorities f (map (set_prio f) before) after = Some (map (set_prio f) (before ++ after)).
Proof.
  revert before. induction after as [|r rest IH]; intros before Hn Hm; simpl; [by rewrite app_nil_r|].
  assert (Hnext : set_priorities f (map (set_prio f) before ++ [set_prio f r]) rest
    = Some (map (set_prio f) (before ++ r :: rest))).
  { specialize (IH (before ++ [r])). rewrite <- app_assoc, (map_app (set_prio f)) in IH. simpl in IH.
    apply IH; [done|].
    intros y x Hy Hx. apply Hm; [by right|done]. }
  destruct (f r) as [p|] eqn:Ep; [|unfold set_prio at 2 in Hnext; by rewrite Ep in Hnext].
  destruct (live r && _) eqn:Et.
  - exfalso. apply andb_prop in Et as [Hl (x & Hx & Hp)%existsb_elem].
    apply andb_prop in Hp as [Ho Hp]. apply Z.eqb_eq in Hp.
    rewrite map_app in Hn. simpl in Hn. apply NoDup_app in Hn as (_ & Hb & [Hr _]%NoDup_cons).
    apply elem_of_app in Hx as [(y & -> & Hy)%list_elem_of_fmap|Hx].
    + rewrite set_prio_in_org in Ho.
      destruct (Hm r y ltac:(left) ltac:(apply elem_of_app; by left)) with p as [H1 H2]; try done.
      * intros He. apply (Hb (rw_ID y)); [apply list_elem_of_fmap; eauto|rewrite <- He; left].
      * unfold set_prio in Hp. destruct (f y) as [q|] eqn:Eq; simpl in Hp; congruence.
    + destruct (Hm r x ltac:(left) ltac:(set_solver)) with p as [H1 H2]; try done.
      intros He. apply Hr. rewrite He. apply list_elem_of_fmap. eauto.
  - unfold set_prio at 2 in Hnext. by rewrite Ep in Hnext.
Qed.

Lemma set_priorities_ext f g before after :
  (∀ r, f r = g r) → set_priorities f before after = set_priorities g before after.
Proof.
  intros Hfg. revert before. induction after as [|r rest IH]; intros before; simpl; [done|].
  rewrite Hfg. destruct (g r); [case_if; [done|]|]; apply IH.
Qed.

(** ** A reorder *)

Lemma ordinality_bounds i id ids k :
  ordinality i id ids = Some k → i <= k < i + Z.of_nat (length ids) ∧ ids !! Z.to_nat (k - i) = Some id.
Proof.
  revert i. induction ids as [|x ids IH]; intros i; simpl; [done|].
  destruct (x =? id) eqn:E; crush_bools.
  - intros; simplify_eq. split; [lia|]. by replace (k - k) with 0 by lia.
  - intros [Hk Hl]%IH. split; [lia|]. replace (Z.to_nat (k - i)) with (S (Z.to_nat (k - (i + 1)))) by lia. done.
Qed.

Lemma ordinality_Some i id ids : id ∈ ids → is_Some (ordinality i id ids).
Proof.
  revert i. induction ids as [|x ids IH]; intros i; simpl; [by intros ?%elem_of_nil|].
  intros [->|Hid]%elem_of_cons; [rewrite Z.eqb_refl; eauto|]. destruct (x =? id); [eauto|by apply IH].
Qed.

Lemma ordinality_inj i a b ids k : ordinality i a ids = Some k → ordinality i b ids = Some k → a = b.
Proof. intros [_ Ha]%ordinality_bounds [_ Hb]%ordinality_bounds. congruence. Qed.

Lemma ordinality_lookup i ids n id :
  NoDup ids → ids !! n = Some id → ordinality i id ids = Some (i + Z.of_nat n).
Proof.
  intros Hn Hl. destruct (ordinality_Some i id ids) as [k Hk]; [by eapply list_elem_of_lookup_2|].
  rewrite Hk. f_equal. apply ordinality_bounds in Hk as [Hb Hk].
  pose proof (NoDup_lookup ids _ _ id Hn Hl Hk). lia.
Qed.

(** The priority a reorder gives to a row. *)
Definition position (org : Z) (ids : list Z) (r : ScheduleRow) : option Z :=
  if in_org org r then ordinality 1 (rw_ID r) ids else None.

Definition reordered (org : Z) (ids : list Z) (db : ScheduleDB) : ScheduleDB :=
  db <| sb_schedules := map (set_prio (position org ids)) (sb_schedules db) |>.

(** The identifiers of an organization's schedules, by priority. *)
Definition order (org : Z) (db : ScheduleDB) : list Z := map rw_ID (org_schedules org db).

Lemma elem_of_order org db id :
  id ∈ order org db ↔ ∃ r, r ∈ sb_schedules db ∧ in_org org r = true ∧ rw_ID r = id.
Proof.
  unfold order, org_schedules. rewrite list_elem_of_fmap. setoid_rewrite stable_sort_elem.
  setoid_rewrite elem_of_List_filter. naive_solver.
Qed.

Section Reorder.
Variables (org : Z) (ids : list Z) (db : ScheduleDB).
Hypothesis keys : keys_ok db.
Hypothesis all_ids : ∀ id, id ∈ order org db → id ∈ ids.

Definition negated (r : ScheduleRow) : option Z :=
  if in_org org r then Z.mul (-1) <$> ordinality 1 (rw_ID r) ids else None.

Lemma negated_some r p : negated r = Some p → in_org org r = true ∧ ∃ k, ordinality 1 (rw_ID r) ids = Some k ∧ p = - k ∧ 1 <= k.
Proof.
  unfold negated. case_if; [|done]. destruct (ordinality _ _ _) as [k|] eqn:Ek; [|done]. intros [= <-].
  split; [done|]. exists k. apply ordinality_bounds in Ek. split_and!; [done|lia|lia].
Qed.

Lemma negate_ok :
  set_priorities negated [] (sb_schedules db) = Some (map (set_prio negated) (sb_schedules db)).
Proof.
  apply (set_priorities_step negated []); [apply keys|]. simpl. intros r x Hr Hx Hne p Hl Ho Hp.
  apply negated_some in Hp as (Hor & k & Hk & -> & Hk1). split.
  - pose proof (ko_range _ keys x Hx). lia.
  - intros (_ & k' & Hk' & He & _)%negated_some. assert (k' = k) as -> by lia.
    by apply Hne, (ordinality_inj 1 _ _ ids k).
Qed.

Lemma set_prio_twice r :
  set_prio (position org ids) (set_prio negated r) = set_prio (position org ids) r.
Proof.
  unfold set_prio at 1 3. unfold position. rewrite set_prio_in_org, set_prio_id.
  destruct (in_org org r) eqn:E; [|unfold set_prio, negated; by rewrite E].
  destruct (ordinality 1 (rw_ID r) ids) as [k|] eqn:Ek; unfold set_prio, negated; by rewrite E, Ek.
Qed.

Lemma position_ok :
  set_priorities (position org ids) [] (map (set_prio negated) (sb_schedules db))
    = Some (map (set_prio (position org ids)) (sb_schedules db)).
Proof.
  pose proof (set_priorities_step (position org ids) [] (map (set_prio negated) (sb_schedules db))) as Hs.
  simpl in Hs. rewrite Hs; clear Hs.
  - f_equal. rewrite map_map. apply map_ext. apply set_prio_twice.
  - rewrite map_map. rewrite (map_ext _ rw_ID); [apply keys|]. apply set_prio_id.
  - intros r x (r0 & -> & Hr)%list_elem_of_fmap (x0 & -> & Hx)%list_elem_of_fmap Hne p Hl Ho Hp.
    rewrite !set_prio_id in Hne. unfold position in Hp. rewrite set_prio_in_org, set_prio_id in Hp.
    destruct (in_org org r0) eqn:Er; [|done].
    assert (Hor : rw_OrgID (set_prio negated r0) = org).
    { unfold set_prio. destruct (negated r0); simpl; unfold in_org in Er; by crush_bools. }
    rewrite Hor, set_prio_in_org in Ho.
    destruct (ordinality_Some 1 (rw_ID x0) ids) as [k Hk].
    { apply all_ids, elem_of_order. eauto. }
    split.
    + unfold set_prio, negated. rewrite Ho, Hk. simpl. apply ordinality_bounds in Hp, Hk. lia.
    + unfold position. rewrite set_prio_in_org, set_prio_id, Ho, Hk. intros [= ->].
      by apply Hne, (ordinality_inj 1 _ _ ids p).
Qed.

(** The reorder succeeds, and gives every schedule its position. *)
Lemma ReorderSchedules_rows_ok : ReorderSchedules_rows org ids db = (Ok tt, reordered org ids db).
Proof.
  unfold ReorderSchedules_rows, NegateSchedulePriorities, SetSchedulePriorities, mbind, M_bind.
  assert (update_priorities (-1) org ids db
    = (Ok tt, db <| sb_schedules := map (set_prio negated) (sb_schedules db) |>)) as ->.
  { unfold update_priorities. fold negated. by rewrite negate_ok. }
  unfold update_priorities. cbn [sb_schedules set_field setter].
  rewrite (set_priorities_ext _ (position org ids)).
  - by rewrite position_ok.
  - intros r. unfold position. case_if; [|done]. destruct (ordinality _ _ _) as [k|]; [|done].
    simpl. f_equal. lia.
Qed.

End Reorder.

Lemma in_org_live org r : in_org org r = true → rw_OrgID r = org ∧ live r = true.
Proof. unfold in_org. intros. by crush_bools. Qed.

Lemma NoDup_bounded_length (l : list Z) n :
  NoDup l → (∀ x, x ∈ l → 1 <= x < n) → (length l <= Z.to_nat (n - 1))%nat.
Proof.
  intros Hn Hb. rewrite <- (length_seqZ 1 (n - 1)). apply submseteq_length, NoDup_submseteq; [done|].
  intros x Hx. apply elem_of_seqZ. specialize (Hb x Hx). lia.
Qed.

Lemma elem_of_reordered org ids db r :
  r ∈ sb_schedules (reordered org ids db) ↔ ∃ r0, r0 ∈ sb_schedules db ∧ r = set_prio (position org ids) r0.
Proof. simpl. rewrite list_elem_of_fmap. naive_solver. Qed.

Lemma set_prio_live f r : live (set_prio f r) = live r.
Proof. unfold set_prio. by destruct (f r). Qed.

Lemma set_prio_org f r : rw_OrgID (set_prio f r) = rw_OrgID r.
Proof. unfold set_prio. by destruct (f r). Qed.

Lemma order_NoDup org db : keys_ok db → NoDup (order org db).
Proof.
  intros Hk. unfold order, org_schedules. rewrite stable_sort_perm.
  eapply sublist_NoDup; [apply (ko_ids _ Hk)|]. apply fmap_sublist, list_filter_sublist.
Qed.

Lemma positioned org ids db r :
  (∀ id, id ∈ order org db → id ∈ ids) → r ∈ sb_schedules db → in_org org r = true →
  ∃ k, position org ids r = Some k ∧ ordinality 1 (rw_ID r) ids = Some k
       ∧ rw_Priority (set_prio (position org ids) r) = k.
Proof.
  intros Hall Hr Ho. unfold set_prio, position. rewrite Ho.
  destruct (ordinality_Some 1 (rw_ID r) ids) as [k Hk]; [apply Hall, elem_of_order; eauto|].
  exists k. by rewrite Hk.
Qed.

Lemma reordered_keys org ids db :
  keys_ok db → ids ≡ₚ order org db → keys_ok (reordered org ids db).
Proof.
  intros Hk Hp. assert (Hn : NoDup ids) by (rewrite Hp; by apply order_NoDup).
  assert (Hall : ∀ id, id ∈ order org db → id ∈ ids) by (intros id; by rewrite Hp).
  assert (Hlen : (length ids <= Z.to_nat (sb_nextval db - 1))%nat).
  { apply NoDup_bounded_length; [done|]. intros id. rewrite Hp, elem_of_order.
    intros (r & Hr & _ & <-). by apply (ko_range _ Hk). }
  split.
  - simpl. rewrite map_map. rewrite (map_ext _ rw_ID); [apply Hk|]. apply set_prio_id.
  - intros r (r0 & Hr & ->)%elem_of_reordered. rewrite set_prio_id. cbn [sb_nextval reordered].
    destruct (ko_range _ Hk r0 Hr) as [Hi Hpr]. split; [done|]. unfold set_prio, position.
    destruct (in_org org r0); [|done]. destruct (ordinality _ _ _) as [k|] eqn:E; [|done].
    apply ordinality_bounds in E as [E _]. simpl. lia.
  - intros r x (r0 & Hr & ->)%elem_of_reordered (x0 & Hx & ->)%elem_of_reordered.
    rewrite !set_prio_live, !set_prio_org, !set_prio_id. intros Hlr Hlx Ho He.
    destruct (in_org org r0) eqn:Er.
    + assert (Ex : in_org org x0 = true).
      { unfold in_org in *. rewrite <- Ho, Hlx. by rewrite Hlr in Er. }
      destruct (positioned org ids db r0 Hall Hr Er) as (k & _ & Hkr & Hpr).
      destruct (positioned org ids db x0 Hall Hx Ex) as (k' & _ & Hkx & Hpx).
      apply (ordinality_inj 1 _ _ ids k); congruence.
    + assert (Ex : in_org org x0 = false).
      { unfold in_org in *. rewrite <- Ho, Hlx. by rewrite Hlr in Er. }
      unfold set_prio, position in He. rewrite Er, Ex in He. by apply (ko_index _ Hk).
Qed.

(** [a] stands before [b] in [ids], or is [b]. *)
Definition earlier (ids : list Z) (a b : Z) : Prop :=
  ∀ ka kb, ordinality 1 a ids = Some ka → ordinality 1 b ids = Some kb → ka <= kb.

Lemma earlier_sorted ids : NoDup ids → StronglySorted (earlier ids) ids.
Proof.
  intros Hn. assert (∀ l pre, ids = pre ++ l → StronglySorted (earlier ids) l) as Hgen; [|by apply (Hgen ids [])].
  induction l as [|a l IH]; intros pre He; constructor.
  - apply (IH (pre ++ [a])). by rewrite <- app_assoc.
  - apply Forall_forall. intros b Hb ka kb Ha Hkb.
    apply list_elem_of_lookup in Hb as [n Hb].
    rewrite (ordinality_lookup 1 ids (length pre) a) in Ha; [|done|by rewrite He, list_lookup_middle].
    rewrite (ordinality_lookup 1 ids (length pre + S n) b) in Hkb; [simplify_eq; lia|done|].
    rewrite He, lookup_app_r by lia. by replace (length pre + S n - length pre)%nat with (S n) by lia.
Qed.

Lemma StronglySorted_map {A B} (R1 : A → A → Prop) (R2 : B → B → Prop) (f : A → B) l :
  (∀ x y, x ∈ l → y ∈ l → R1 x y → R2 (f x) (f y)) → StronglySorted R1 l → StronglySorted R2 (map f l).
Proof.
  intros Hf Hs. induction Hs as [|x l Hs IH Hall]; simpl; constructor.
  - apply IH. intros. apply Hf; [by right..|done].
  - apply Forall_fmap, Forall_forall. intros y Hy. rewrite Forall_forall in Hall.
    apply Hf; [left|by right|by apply Hall].
Qed.

Lemma by_priority_swo (P : ScheduleRow → Prop) : strict_weak_on by_priority P.
Proof.
  unfold strict_weak_on, by_priority. split.
  - intros x y _ _. rewrite orb_true_iff, andb_true_iff, orb_false_iff, andb_false_iff, !Z.ltb_lt, !Z.ltb_ge, Z.eqb_eq, Z.eqb_neq.
    lia.
  - intros x y z _ _ _. rewrite !orb_false_iff, !andb_false_iff, !Z.ltb_ge, !Z.eqb_neq. lia.
Qed.

Lemma order_perm org db : order org db ≡ₚ map rw_ID (List.filter (in_org org) (sb_schedules db)).
Proof. unfold order, org_schedules. by rewrite stable_sort_perm. Qed.

Lemma filter_set_prio f org l :
  map rw_ID (List.filter (in_org org) (map (set_prio f) l)) = map rw_ID (List.filter (in_org org) l).
Proof.
  induction l as [|r l IH]; [done|]. simpl. rewrite set_prio_in_org.
  destruct (in_org org r); simpl; rewrite ?set_prio_id, IH; done.
Qed.

(** The order of the organization is the order given. *)
Lemma order_reordered org ids db :
  keys_ok db → ids ≡ₚ order org db → order org (reordered org ids db) = ids.
Proof.
  intros Hk Hp. assert (Hn : NoDup ids) by (rewrite Hp; by apply order_NoDup).
  assert (Hall : ∀ id, id ∈ order org db → id ∈ ids) by (intros id; by rewrite Hp).
  apply (StronglySorted_unique_strong (earlier ids)).
  - intros a b Ha Hb Hab Hba. rewrite order_perm in Ha. simpl in Ha. rewrite filter_set_prio, <- order_perm in Ha.
    destruct (ordinality_Some 1 a ids) as [ka Hka]; [by apply Hall|].
    destruct (ordinality_Some 1 b ids Hb) as [kb Hkb].
    specialize (Hab _ _ Hka Hkb). specialize (Hba _ _ Hkb Hka).
    apply (ordinality_inj 1 _ _ ids ka); [done|]. by replace ka with kb by lia.
  - eapply StronglySorted_map; [|apply stable_sort_sorted with (P := λ _, True);
      [apply by_priority_swo|by apply Forall_forall]].
    intros x y (Hx & Hxo)%stable_sort_elem%elem_of_List_filter (Hy & Hyo)%stable_sort_elem%elem_of_List_filter.
    apply elem_of_reordered in Hx as (x0 & Hx & ->). apply elem_of_reordered in Hy as (y0 & Hy & ->).
    rewrite set_prio_in_org in Hxo, Hyo.
    destruct (positioned org ids db x0 Hall Hx Hxo) as (k & _ & Hkx & Hpx).
    destruct (positioned org ids db y0 Hall Hy Hyo) as (k' & _ & Hky & Hpy).
    unfold not_after, by_priority. rewrite Hpx, Hpy, !set_prio_id.
    intros [Hlt _]%orb_false_iff ka kb Ha Hb. crush_bools. simplify_eq. lia.
  - by apply earlier_sorted.
  - rewrite order_perm. simpl. by rewrite filter_set_prio, <- order_perm, Hp.
Qed.

(** A reorder moves priorities only. *)
Lemma reordered_other_order org org' ids db : org' ≠ org → order org' (reordered org ids db) = order org' db.
Proof.
  intros Hne. unfold order, org_schedules. f_equal. f_equal. simpl.
  induction (sb_schedules db) as [|r l IH]; [done|]. simpl. rewrite set_prio_in_org, IH.
  destruct (in_org org' r) eqn:E; [|done]. f_equal. unfold set_prio, position.
  destruct (in_org org r) eqn:E'; [|done]. apply in_org_live in E as [<- _], E' as [? _]. done.
Qed.

(** ** The service's reorder *)

Definition listing (org : Z) (db : ScheduleDB) : list (Z * string) :=
  map (λ r, (rw_ID r, rw_Status r)) (org_schedules org db).

Lemma listing_order org db : map fst (listing org db) = order org db.
Proof. unfold listing, order. by rewrite map_map. Qed.

Definition is_open (st : Z * string) : bool := st.2 != statusCompleted.
Definition open_ids (org : Z) (db : ScheduleDB) : list Z := map fst (List.filter is_open (listing org db)).
Definition completed_ids (org : Z) (db : ScheduleDB) : list Z :=
  map fst (List.filter (λ st, st.2 == statusCompleted) (listing org db)).

(** A reorder that names known schedules once each, and every one that is not
    completed. *)
Definition complete_order (org : Z) (ids : list Z) (db : ScheduleDB) : Prop :=
  NoDup ids ∧ (∀ id, id ∈ ids → id ∈ order org db) ∧ (∀ id, id ∈ open_ids org db → id ∈ ids).

Section Reorderable.
Variable statuses : list (Z * string).
Hypothesis distinct : NoDup (map fst statuses).

Lemma find_status id st :
  List.find (λ st, st.1 =? id) statuses = Some st ↔ st ∈ statuses ∧ st.1 = id.
Proof.
  induction statuses as [|x l IH]; simpl; [split; [done|by intros [?%elem_of_nil _]]|].
  simpl in distinct. apply NoDup_cons in distinct as [Hx Hl]. rewrite elem_of_cons.
  destruct (x.1 =? id) eqn:E; crush_bools.
  - split; [intros; simplify_eq; auto|]. intros [[->|Hst] Hid]; [done|]. destruct Hx.
    apply list_elem_of_fmap. exists st. by rewrite E, Hid.
  - rewrite (IH Hl). naive_solver.
Qed.

Lemma find_known id : is_Some (List.find (λ st, st.1 =? id) statuses) ↔ id ∈ map fst statuses.
Proof.
  rewrite list_elem_of_fmap. split.
  - intros [st [Hst Hid]%find_status]. eauto.
  - intros (st & -> & Hst). exists st. by apply find_status.
Qed.

(** The submitted identifiers that are not completed. *)
Definition kept_ids (ids : list Z) : list Z :=
  List.filter (λ id, bool_decide (id ∈ map fst (List.filter is_open statuses))) ids.

Lemma elem_of_open st :
  st ∈ statuses → st.1 ∈ map fst (List.filter is_open statuses) ↔ is_open st = true.
Proof.
  intros Hst. rewrite list_elem_of_fmap. setoid_rewrite elem_of_List_filter. split; [|eauto].
  intros (st' & He & Hst' & Ho). assert (st = st') as ->; [|done].
  apply (inj Some). rewrite <- (proj2 (find_status st.1 st)) by done. by apply find_status.
Qed.

Definition valid_ids (seen ids : list Z) : Prop :=
  NoDup ids ∧ Forall (λ id, id ∉ seen) ids ∧ Forall (λ id, id ∈ map fst statuses) ids.

Lemma valid_ids_cons seen id rest :
  id ∉ seen → id ∈ map fst statuses → valid_ids seen (id :: rest) ↔ valid_ids (id :: seen) rest.
Proof.
  intros Hs Hk. unfold valid_ids. rewrite NoDup_cons, !Forall_cons. setoid_rewrite not_elem_of_cons.
  rewrite Forall_and. assert (Forall (λ x, x ≠ id) rest ↔ id ∉ rest) as ->; [|tauto].
  rewrite Forall_forall. naive_solver.
Qed.

Lemma reorderable_spec seen ids :
  reorderable statuses seen ids = if bool_decide (valid_ids seen ids) then Some (kept_ids ids) else None.
Proof.
  revert seen. induction ids as [|id rest IH]; intros seen; cbn [reorderable].
  { rewrite bool_decide_eq_true_2; [done|]. split_and!; [apply NoDup_nil_2|done..]. }
  case_bool_decide as Hseen.
  { rewrite bool_decide_eq_false_2; [done|]. intros (_ & [H1 _]%Forall_cons & _). done. }
  destruct (List.find _ statuses) as [st|] eqn:Ef.
  - pose proof (proj1 (find_status _ _) Ef) as [Hst <-].
    rewrite IH, (bool_decide_ext _ _ (valid_ids_cons seen st.1 rest Hseen
      (proj2 (list_elem_of_fmap _ _ _) (ex_intro _ st (conj eq_refl Hst))))).
    destruct (decide (valid_ids (st.1 :: seen) rest)) as [Hv|Hv];
      [rewrite !(bool_decide_eq_true_2 (valid_ids _ _)) by done
      |by rewrite !(bool_decide_eq_false_2 (valid_ids _ _)) by done].
    simpl. unfold kept_ids. simpl. rewrite (bool_decide_ext _ _ (elem_of_open st Hst)). f_equal. unfold is_open.
    by destruct (st.2 == statusCompleted).
  - rewrite bool_decide_eq_false_2; [done|]. intros (_ & _ & [H3 _]%Forall_cons).
    apply find_known in H3 as [st Hst]. congruence.
Qed.

End Reorderable.

(** ** The service's operations on the order *)

Lemma listing_NoDup org db : keys_ok db → NoDup (map fst (listing org db)).
Proof. intros. rewrite listing_order. by apply order_NoDup. Qed.

Lemma open_completed_perm org db : open_ids org db ++ completed_ids org db ≡ₚ order org db.
Proof.
  unfold open_ids, completed_ids. rewrite <- map_app, <- listing_order. apply fmap_Permutation.
  rewrite <- (filter_split is_open (listing org db)) at 3. apply Permutation_app_head.
  erewrite filter_ext; [done|]. intros st. unfold is_open. by destruct (st.2 == statusCompleted).
Qed.

(** The rows of a listing, whatever the order. *)
Lemma listing_perm org db :
  listing org db ≡ₚ map (λ r, (rw_ID r, rw_Status r)) (List.filter (in_org org) (sb_schedules db)).
Proof. unfold listing, org_schedules. by rewrite stable_sort_perm. Qed.

Lemma listing_reordered org org' ids db : listing org' (reordered org ids db) ≡ₚ listing org' db.
Proof.
  rewrite !listing_perm. simpl. induction (sb_schedules db) as [|r l IH]; [done|]. simpl.
  rewrite set_prio_in_org. destruct (in_org org' r); simpl; [|done]. rewrite IH, set_prio_id.
  unfold set_prio. by destruct (position org ids r).
Qed.

Lemma completed_last_perm org db : completed_last (listing org db) ≡ₚ order org db.
Proof. apply open_completed_perm. Qed.

Lemma normalize_ok org db :
  keys_ok db →
  ∃ db', normalizeSchedulePriorities org db = (Ok tt, db') ∧ keys_ok db'
    ∧ order org db' = completed_last (listing org db)
    ∧ (db' = db ∨ db' = reordered org (completed_last (listing org db)) db).
Proof.
  intros Hk. unfold normalizeSchedulePriorities, mbind, M_bind. cbn [ListScheduleIDStatuses gets].
  fold (listing org db). unfold schedulePriorityOrderMatches. case_bool_decide as E.
  - exists db. split_and!; [done|done|by rewrite <- listing_order|by left].
  - assert (Hp := completed_last_perm org db). rewrite ReorderSchedules_rows_ok; [|done|intros id; by rewrite Hp].
    eexists. split_and!; [done|by apply reordered_keys|by apply order_reordered|by right].
Qed.

Section ServiceReorder.
Variables (org : Z) (ids : list Z) (db : ScheduleDB).
Hypothesis keys : keys_ok db.

Lemma kept_ids_spec id : id ∈ kept_ids (listing org db) ids ↔ id ∈ ids ∧ id ∈ open_ids org db.
Proof. unfold kept_ids. rewrite elem_of_List_filter, bool_decide_eq_true. done. Qed.

Lemma open_NoDup : NoDup (open_ids org db).
Proof.
  eapply sublist_NoDup; [by apply (listing_NoDup org db)|]. apply fmap_sublist, list_filter_sublist.
Qed.

(** With every name known and distinct, the lengths agree exactly when the order
    is complete. *)
Lemma complete_by_length :
  NoDup ids → (∀ id, id ∈ ids → id ∈ order org db) →
  length (kept_ids (listing org db) ids) = length (open_ids org db) ↔ complete_order org ids db.
Proof.
  intros Hn Hk. assert (Hkn : NoDup (kept_ids (listing org db) ids)).
  { eapply sublist_NoDup; [done|]. apply list_filter_sublist. }
  split.
  - intros Hlen. split_and!; [done..|]. intros id Hid. apply kept_ids_spec.
    assert (kept_ids (listing org db) ids ≡ₚ open_ids org db) as ->; [|done].
    apply submseteq_length_Permutation; [|lia]. apply NoDup_submseteq; [done|].
    intros x Hx. by apply kept_ids_spec in Hx as [_ ?].
  - intros (_ & _ & Hall). apply Permutation_length, NoDup_Permutation; [done|apply open_NoDup|].
    intros x. rewrite kept_ids_spec. naive_solver.
Qed.

Lemma complete_perm :
  complete_order org ids db → kept_ids (listing org db) ids ++ completed_ids org db ≡ₚ order org db.
Proof.
  intros (Hn & Hk & Hall). rewrite <- open_completed_perm. apply Permutation_app_tail.
  apply NoDup_Permutation; [|apply open_NoDup|intros x; rewrite kept_ids_spec; naive_solver].
  eapply sublist_NoDup; [done|]. apply list_filter_sublist.
Qed.

Lemma valid_ids_order : valid_ids (listing org db) [] ids ↔ NoDup ids ∧ ∀ id, id ∈ ids → id ∈ order org db.
Proof.
  unfold valid_ids. rewrite listing_order, !Forall_forall. setoid_rewrite elem_of_nil. naive_solver.
Qed.

Lemma reorder_cases :
  let ids' := kept_ids (listing org db) ids ++ completed_ids org db in
  (complete_order org ids db ∧ ids' ≡ₚ order org db
     ∧ ReorderSchedules org ids db = (Ok tt, reordered org ids' db))
  ∨ (¬ complete_order org ids db ∧ ReorderSchedules org ids db = (Err NewInvalidArgumentError, db)).
Proof.
  unfold ReorderSchedules, RunInTx, mbind, M_bind. cbn [ListScheduleIDStatuses gets]. fold (listing org db).
  rewrite (reorderable_spec _ (listing_NoDup org db keys)).
  assert (Hlen : length (List.filter (λ st, st.2 != statusCompleted) (listing org db)) = length (open_ids org db))
    by (unfold open_ids; by rewrite length_map).
  rewrite Hlen. fold (completed_ids org db). case_bool_decide as Hv.
  - apply valid_ids_order in Hv as [H1 H2]. destruct (_ =? _)%nat eqn:E.
    + apply Nat.eqb_eq, complete_by_length in E; [|done..]. left. pose proof (complete_perm E) as Hp.
      split_and!; [done..|]. cbn [negb]. by rewrite ReorderSchedules_rows_ok; [|done|intros id; by rewrite Hp].
    + right. split; [|done]. intros Hc. apply Nat.eqb_neq in E. by apply E, complete_by_length.
  - right. split; [|done]. intros (H1 & H2 & _). by apply Hv, valid_ids_order.
Qed.

(** A reorder is accepted exactly when it names known schedules once each and every one that
    is not completed; then the organization's order is the submitted one with the completed
    schedules last in their old order, no statement of it violates the unique index, statuses and
    the other organizations' orders are kept; otherwise it is an invalid argument and nothing
    changes. *)
Theorem reorder_accepts_exactly_complete_orders :
  (complete_order org ids db →
     let db' := reordered org (List.filter (λ id, bool_decide (id ∈ open_ids org db)) ids ++ completed_ids org db) db in
     ReorderSchedules org ids db = (Ok tt, db')
     ∧ order org db' = List.filter (λ id, bool_decide (id ∈ open_ids org db)) ids ++ completed_ids org db
     ∧ keys_ok db' ∧ (∀ org', listing org' db' ≡ₚ listing org' db)
     ∧ (∀ org', org' ≠ org → order org' db' = order org' db))
  ∧ (¬ complete_order org ids db → ReorderSchedules org ids db = (Err NewInvalidArgumentError, db)).
Proof.
  destruct reorder_cases as [(Hc & Hp & ->)|(Hc & ->)]; (split; [|done]); intros Hc'; [|done].
  split_and!; [done|by apply order_reordered|by apply reordered_keys|intros; apply listing_reordered|].
  intros org' Hne. by apply reordered_other_order.
Qed.

End ServiceReorder.
