(* ===== verification/ScheduleInvariant.v ===== *)
(** * Well-formed schedule tables

    The type invariant of the schedule tables: keys and index, known enums,
    configuration and recurrence that passed validation, dates and times in
    canonical form, targets that name what they may. Every request of the service
    and every run of the processor preserves it. *)

From S2P Require Import Prelude GoSort Errors RolloutBehavior RolloutBehaviorFacts GoTime ScheduleCron.
From S2P Require Import ScheduleStore ScheduleService CommandFilter ScheduleFleetFacts.
From S2P Require Import ScheduleStoreFacts SchedulePriorityFacts.
#[local] Open Scope string_scope.
#[local] Open Scope list_scope.
#[local] Open Scope Z_scope.
#[local] Open Scope go_scope.

Definition power_target : string := "set_power_target".

Record row_ok (r : ScheduleRow) : Prop := {
  ro_status : rw_Status r ∈ [statusActive; statusPaused; statusRunning; statusCompleted];
  ro_action : rw_Action r ∈ [power_target; "reboot"; "sleep"];
  ro_type : rw_ScheduleType r ∈ ["one_time"; "recurring"];
  ro_config : match rw_ActionConfig r with
    | Some m => rw_Action r = power_target ∧ (m = POWER_TARGET_MODE_DEFAULT ∨ m = POWER_TARGET_MODE_MAX)
    | None => rw_Action r ≠ power_target
    end;
  ro_recurrence : rw_ScheduleType r = "recurring" →
    ∃ rec, rw_Recurrence r = Some rec ∧ validateRecurrence rec = true;
  ro_columns : columns_of (convertToProtoSchedule r) = Some (row_columns r)
}.

Record tables_ok (db : ScheduleDB) : Prop := {
  to_keys : keys_ok db;
  to_rows r : r ∈ sb_schedules db → row_ok r;
  to_targets t : t ∈ sb_targets db → target_row_ok t = true;
  to_unique : NoDup (sb_targets db)
}.

(** ** Statements on rows *)

(** An update that moves no key: it may only delete. *)
Definition keeps_keys (f : ScheduleRow → ScheduleRow) : Prop :=
  ∀ r, rw_ID (f r) = rw_ID r ∧ rw_OrgID (f r) = rw_OrgID r ∧ rw_Priority (f r) = rw_Priority r
    ∧ (live (f r) = true → live r = true).

Lemma map_rows_keys f db :
  keeps_keys f → keys_ok db → keys_ok (db <| sb_schedules := map f (sb_schedules db) |>).
Proof.
  intros Hf [Hn Hr Hi]. split; simpl.
  - rewrite map_map. rewrite (map_ext _ rw_ID); [done|]. intros r. apply Hf.
  - intros r (r0 & -> & H0)%list_elem_of_fmap. destruct (Hf r0) as (-> & _ & -> & _). by apply Hr.
  - intros r x (r0 & -> & H0)%list_elem_of_fmap (x0 & -> & H1)%list_elem_of_fmap Hlr Hlx.
    destruct (Hf r0) as (-> & -> & -> & Hr0). destruct (Hf x0) as (-> & -> & -> & Hx0).
    apply Hi; auto.
Qed.

Lemma map_rows_ok f db :
  keeps_keys f → (∀ r, row_ok r → row_ok (f r)) → tables_ok db →
  tables_ok (db <| sb_schedules := map f (sb_schedules db) |>).
Proof.
  intros Hf Hok [Hk Hr Ht Hu]. split; simpl; try done.
  - by apply map_rows_keys.
  - intros r (r0 & -> & H0)%list_elem_of_fmap. auto.
Qed.

Lemma update_schedules_ok p f db :
  keeps_keys f → (∀ r, row_ok r → row_ok (f r)) → tables_ok db → tables_ok (update_schedules p f db).2.
Proof.
  intros Hf Hok Hdb. apply map_rows_ok; [|intros r; destruct (p r); auto|done].
  intros r. destruct (p r); [apply Hf|done].
Qed.

(** Setting a known status and the run times. *)
Lemma status_row_ok (f : ScheduleRow → ScheduleRow) r :
  rw_Status (f r) ∈ [statusActive; statusPaused; statusRunning; statusCompleted] →
  f r = r <| rw_Status := rw_Status (f r) |> <| rw_LastRunAt := rw_LastRunAt (f r) |>
          <| rw_NextRunAt := rw_NextRunAt (f r) |> <| rw_Deleted := rw_Deleted (f r) |> →
  row_ok r → row_ok (f r).
Proof. intros Hs -> [H1 H2 H3 H4 H5 H6]. split; try done. Qed.

(** Closes the frame conditions of a status update. *)
Ltac status_update :=
  apply update_schedules_ok; [done
    | intros r Hr; apply (status_row_ok (λ r, _) r); [simpl; set_solver|by destruct r|done]].

Lemma PauseActiveSchedule_ok org id db : tables_ok db → tables_ok (PauseActiveSchedule org id db).2.
Proof. status_update. Qed.

Lemma SetScheduleRunning_ok id db : tables_ok db → tables_ok (SetScheduleRunning id db).2.
Proof. status_update. Qed.

Lemma RevertScheduleToActive_ok id db : tables_ok db → tables_ok (RevertScheduleToActive id db).2.
Proof. status_update. Qed.

Lemma UpdateScheduleAfterRun_ok id last next status db :
  status ∈ [statusActive; statusPaused; statusRunning; statusCompleted] →
  tables_ok db → tables_ok (UpdateScheduleAfterRun id last next status db).2.
Proof. intros Hs. status_update. Qed.

Lemma ResumePausedSchedule_ok org id status next db :
  status ∈ [statusActive; statusPaused; statusRunning; statusCompleted] →
  tables_ok db → tables_ok (ResumePausedSchedule org id status next db).2.
Proof. intros Hs. status_update. Qed.

Lemma SoftDeleteSchedule_ok org id db : tables_ok db → tables_ok (SoftDeleteSchedule org id db).2.
Proof.
  apply update_schedules_ok; [done|]. intros r Hr. apply (status_row_ok (λ r, _) r); [|by destruct r|done].
  apply (ro_status _ Hr).
Qed.

(** *** Priorities *)

Lemma set_prio_row_ok f r : row_ok r → row_ok (set_prio f r).
Proof. unfold set_prio. destruct (f r); [|done]. intros [H1 H2 H3 H4 H5 H6]. by split. Qed.

Lemma reordered_ok org ids db : ids ≡ₚ order org db → tables_ok db → tables_ok (reordered org ids db).
Proof.
  intros Hp [Hk Hr Ht Hu]. split; try done; [by apply reordered_keys|].
  intros r (r0 & H0 & ->)%elem_of_reordered. by apply set_prio_row_ok, Hr.
Qed.

Lemma normalize_tables_ok org db : tables_ok db → tables_ok (normalizeSchedulePriorities org db).2.
Proof.
  intros Hdb. destruct (normalize_ok org db (to_keys _ Hdb)) as (db' & -> & _ & _ & [->| ->]); [done|].
  apply reordered_ok; [|done]. apply completed_last_perm.
Qed.

(** *** Writing a message *)

(** A message whose fields passed validation, with defined enums. *)
Record fields_ok (sched : Schedule) : Prop := {
  fo_action : between SCHEDULE_ACTION_SET_POWER_TARGET SCHEDULE_ACTION_SLEEP (sc_Action sched) = true;
  fo_type : between SCHEDULE_TYPE_ONE_TIME SCHEDULE_TYPE_RECURRING (sc_ScheduleType sched) = true;
  fo_valid : validateScheduleFields (sc_Name sched) (sc_Action sched) (sc_ActionConfig sched)
    (sc_ScheduleType sched) (sc_Recurrence sched) = true
}.

Lemma fields_config sched :
  fields_ok sched →
  match marshalActionConfig (sc_ActionConfig sched) with
  | Some m => scheduleActionToString (sc_Action sched) = power_target
      ∧ (m = POWER_TARGET_MODE_DEFAULT ∨ m = POWER_TARGET_MODE_MAX)
  | None => scheduleActionToString (sc_Action sched) ≠ power_target
  end.
Proof.
  intros [Ha _ Hv]. unfold validateScheduleFields in Hv. apply andb_prop in Hv as [[_ Hv]%andb_prop _].
  unfold between, SCHEDULE_ACTION_SET_POWER_TARGET, SCHEDULE_ACTION_SLEEP in Ha. crush_bools.
  assert (sc_Action sched = 1 ∨ sc_Action sched = 2 ∨ sc_Action sched = 3) as [E|[E|E]] by lia; rewrite E in *;
    unfold validateActionConfig in Hv; simpl in Hv; destruct (sc_ActionConfig sched) as [m|]; try done; simpl.
  - unfold POWER_TARGET_MODE_UNSPECIFIED, POWER_TARGET_MODE_DEFAULT, POWER_TARGET_MODE_MAX in *.
    apply andb_prop in Hv as [Hm Hv]. apply negb_true_iff in Hm. rewrite Hm. split; [done|].
    apply orb_prop in Hv. rewrite !Z.eqb_eq in Hv. done.
  - by rewrite Hv.
  - by rewrite Hv.
Qed.

Lemma fields_recurrence sched :
  fields_ok sched → scheduleTypeToString (sc_ScheduleType sched) = "recurring" →
  ∃ rec, sc_Recurrence sched = Some rec ∧ validateRecurrence rec = true.
Proof.
  intros [_ Ht Hv]. unfold validateScheduleFields in Hv. apply andb_prop in Hv as [_ Hv].
  unfold between, SCHEDULE_TYPE_ONE_TIME, SCHEDULE_TYPE_RECURRING in Ht. crush_bools.
  assert (sc_ScheduleType sched = 1 ∨ sc_ScheduleType sched = 2) as [E|E] by lia; rewrite E in *; [done|].
  simpl in Hv. destruct (sc_Recurrence sched) as [rec|]; [|done]. eauto.
Qed.

(** What a written row must look like for the message that was written. *)
Lemma written_row_ok sched co r :
  fields_ok sched → columns_of sched = Some co →
  rw_Action r = scheduleActionToString (sc_Action sched) →
  rw_ActionConfig r = marshalActionConfig (sc_ActionConfig sched) →
  rw_ScheduleType r = scheduleTypeToString (sc_ScheduleType sched) →
  rw_Recurrence r = sc_Recurrence sched → row_columns r = co →
  rw_Status r ∈ [statusActive; statusPaused; statusRunning; statusCompleted] → row_ok r.
Proof.
  intros Hf Hco Ea Ec Et Er Eco Es. pose proof (fields_config _ Hf) as Hc. pose proof (fields_recurrence _ Hf) as Hr.
  split; [done| | | | |].
  - rewrite Ea. unfold scheduleActionToString, power_target. pose proof (fo_action _ Hf) as Ha.
    unfold between, SCHEDULE_ACTION_SET_POWER_TARGET, SCHEDULE_ACTION_SLEEP in Ha. crush_bools.
    assert (sc_Action sched = 1 ∨ sc_Action sched = 2 ∨ sc_Action sched = 3) as [E|[E|E]] by lia;
      rewrite E; simpl; set_solver.
  - rewrite Et. unfold scheduleTypeToString. pose proof (fo_type _ Hf) as Ht.
    unfold between, SCHEDULE_TYPE_ONE_TIME, SCHEDULE_TYPE_RECURRING in Ht. crush_bools.
    assert (sc_ScheduleType sched = 1 ∨ sc_ScheduleType sched = 2) as [E|E] by lia; rewrite E; simpl; set_solver.
  - rewrite Ec, Ea. done.
  - rewrite Et, Er. done.
  - subst co. by eapply columns_of_row.
Qed.

(** ** The service *)

Lemma fold_max_bounds (l : list ScheduleRow) m n :
  0 <= m < n → (∀ r, r ∈ l → 1 <= rw_Priority r < n) →
  0 <= fold_left (λ m r, Z.max m (rw_Priority r)) l m < n.
Proof.
  revert m. induction l as [|r l IH]; intros m Hm Hl; simpl; [done|].
  apply IH; [|intros; apply Hl; by right]. pose proof (Hl r ltac:(left)). lia.
Qed.

Lemma GetMaxPriority_bounds org db :
  keys_ok db → 0 < sb_nextval db →
  ∃ m, GetMaxPriority org db = (Ok m, db) ∧ 0 <= m < sb_nextval db.
Proof.
  intros Hk Hn. eexists. split; [done|]. simpl.
  assert (Hl : ∀ r, r ∈ List.filter (in_org org) (sb_schedules db) → 1 <= rw_Priority r < sb_nextval db).
  { intros r [Hr _]%elem_of_List_filter. by apply (ko_range _ Hk). }
  destruct (List.filter _ _) as [|r l]; [lia|]. pose proof (Hl r ltac:(left)).
  apply fold_max_bounds; [lia|]. intros; apply Hl; by right.
Qed.

Lemma not_taken org p rows r :
  priority_taken org p rows = false → r ∈ rows → in_org org r = true → rw_Priority r ≠ p.
Proof.
  intros Ht Hr Ho He. apply not_true_iff_false in Ht. apply Ht, existsb_elem. exists r. split; [done|].
  by rewrite Ho, He, Z.eqb_refl.
Qed.

Lemma CreateSchedule_row_ok org sched db :
  tables_ok db → fields_ok sched → 1 <= sc_Priority sched <= sb_nextval db → 0 < sb_nextval db →
  tables_ok (CreateSchedule_row org sched db).2.
Proof.
  intros [[Hn Hr Hi] Hrow Ht Hu] Hf Hp Hpos. unfold CreateSchedule_row.
  destruct (columns_of sched) as [co|] eqn:Hco; [|done]. destruct (priority_taken _ _ _) eqn:Etk; [done|]. simpl.
  assert (Hnew : ∀ r, r ∈ sb_schedules db → rw_ID r ≠ sb_nextval db) by (intros r [? _]%Hr; lia).
  split; simpl; try done.
  - split; simpl.
    + rewrite map_app. apply NoDup_app. split_and!; [done| |apply NoDup_singleton].
      intros id (r & -> & H0)%list_elem_of_fmap He%list_elem_of_singleton. by apply (Hnew r).
    + intros r [H0| ->%list_elem_of_singleton]%elem_of_app; [apply Hr in H0; lia|]. simpl. lia.
    + intros r x Hre Hxe Hlr Hlx Ho Hpr.
      apply elem_of_app in Hre as [Hre| ->%list_elem_of_singleton];
        apply elem_of_app in Hxe as [Hxe| ->%list_elem_of_singleton]; try done; [by apply Hi|exfalso..].
      * simpl in Ho, Hpr. apply (not_taken _ _ _ r Etk Hre); [|done]. unfold in_org. by rewrite Ho, Hlr, Z.eqb_refl.
      * simpl in Ho, Hpr. apply (not_taken _ _ _ x Etk Hxe); [|done]. unfold in_org. by rewrite <- Ho, Hlx, Z.eqb_refl.
  - intros r [H0| ->%list_elem_of_singleton]%elem_of_app; [by apply Hrow|].
    eapply (written_row_ok sched co); try done; [by destruct co|simpl; set_solver].
Qed.

Lemma status_known st : scheduleStatusToString st ∈ [statusActive; statusPaused; statusRunning; statusCompleted].
Proof. unfold scheduleStatusToString. repeat case_if; set_solver. Qed.

Lemma UpdateSchedule_row_ok org sched db :
  tables_ok db → fields_ok sched → tables_ok (UpdateSchedule_row org sched db).2.
Proof.
  intros Hdb Hf. unfold UpdateSchedule_row. destruct (columns_of sched) as [co|] eqn:Hco; [|done].
  apply update_schedules_ok; [done| |done]. intros r _.
  eapply (written_row_ok sched co); try done; [by destruct co|apply status_known].
Qed.

(** *** Targets *)

(** The targets that validation lets through are well formed as rows. *)
Lemma validated_target seen targets t :
  validate_targets seen targets = true → Some t ∈ targets →
  ∀ id, target_row_ok {| tr_ScheduleID := id; tr_TargetType := scheduleTargetTypeToString (st_TargetType t);
                         tr_TargetID := TrimSpace (st_TargetId t) |} = true.
Proof.
  revert seen. induction targets as [|[t'|] rest IH]; intros seen; simpl; [by intros _ ?%elem_of_nil| |done].
  intros Hv Hin id. apply andb_prop in Hv as [Hv Hrest].
  apply elem_of_cons in Hin as [[= <-]|Hin]; [|by eapply IH].
  apply andb_prop in Hv as [[[Hty _]%andb_prop Hnum]%andb_prop _].
  unfold target_row_ok, target_types. cbn [tr_TargetType tr_TargetID].
  unfold isValidScheduleTargetType in Hty. unfold numeric_target in Hnum.
  unfold SCHEDULE_TARGET_TYPE_RACK, SCHEDULE_TARGET_TYPE_GROUP, SCHEDULE_TARGET_TYPE_MINER,
    SCHEDULE_TARGET_TYPE_SITE, SCHEDULE_TARGET_TYPE_BUILDING in *.
  repeat (apply orb_prop in Hty as [Hty|Hty]); apply Z.eqb_eq in Hty; rewrite Hty in Hnum |- *;
    simpl in Hnum; cbn; done.
Qed.

Lemma targets_ok_intro db targets :
  tables_ok db → (∀ t, t ∈ targets → target_row_ok t = true) → NoDup targets →
  tables_ok (db <| sb_targets := targets |>).
Proof. intros [[Hn Hr Hi] Hrow _ _] Ht Hu. by split. Qed.

Lemma CreateScheduleTarget_ok org id ty tid db :
  target_row_ok {| tr_ScheduleID := id; tr_TargetType := ty; tr_TargetID := tid |} = true →
  tables_ok db → tables_ok (CreateScheduleTarget org id ty tid db).2.
Proof.
  intros Ht Hdb. unfold CreateScheduleTarget. case_if; [done|]. case_bool_decide; [done|].
  pose proof Hdb as [_ _ Hts Hu]. apply targets_ok_intro; [done|..].
  - intros t [H0| ->%list_elem_of_singleton]%elem_of_app; auto.
  - apply NoDup_app. split_and!; [done| |apply NoDup_singleton]. by intros t H0 ->%list_elem_of_singleton.
Qed.

Lemma DeleteScheduleTargets_ok org id db : tables_ok db → tables_ok (DeleteScheduleTargets org id db).2.
Proof.
  intros Hdb. unfold DeleteScheduleTargets. case_if; [|done].
  pose proof Hdb as [_ _ Hts Hu]. apply targets_ok_intro; [done|..].
  - intros t [H0 _]%elem_of_List_filter. auto.
  - eapply sublist_NoDup; [done|]. apply list_filter_sublist.
Qed.

(** *** Composition *)

Definition preserves {A} (m : SOp A) : Prop := ∀ db, tables_ok db → tables_ok (m db).2.

Create HintDb schedule.

Lemma tables_ok_bind {A B} (m : SOp A) (f : A → SOp B) db :
  tables_ok (m db).2 → (∀ a db', m db = (Ok a, db') → tables_ok db' → tables_ok (f a db').2) →
  tables_ok ((m ≫= f) db).2.
Proof.
  intros Hm Hf. unfold mbind, M_bind. destruct (m db) as [[a|e] db']; [by apply Hf|done].
Qed.

Lemma preserves_ret {A} (a : A) : preserves (mret a).
Proof. by intros db. Qed.

Lemma preserves_fail {A} e : preserves (fail e : SOp A).
Proof. by intros db. Qed.

Lemma preserves_gets {A} (f : ScheduleDB → A) : preserves (gets f).
Proof. by intros db. Qed.

Lemma preserves_lift {A} (r : result FleetError A) : preserves (lift r).
Proof. by intros db. Qed.

Lemma preserves_bind {A B} (m : SOp A) (f : A → SOp B) :
  preserves m → (∀ a, preserves (f a)) → preserves (m ≫= f).
Proof.
  intros Hm Hf db Hdb. apply tables_ok_bind; [by apply Hm|]. intros; by apply Hf.
Qed.

Lemma preserves_when b (m : SOp unit) : preserves m → preserves (when b m).
Proof. destruct b; [done|]. intros _. apply preserves_ret. Qed.

Lemma preserves_tx {A} (m : SOp A) : preserves m → preserves (RunInTx m).
Proof.
  intros Hm db Hdb. unfold RunInTx. specialize (Hm db Hdb). by destruct (m db) as [[a|e] db'].
Qed.

Lemma preserves_GetSchedule org id : preserves (GetSchedule org id).
Proof. intros db Hdb. unfold GetSchedule. by destruct (List.find _ _). Qed.

#[export] Hint Resolve preserves_ret preserves_fail preserves_gets preserves_lift preserves_when preserves_tx
  preserves_GetSchedule : schedule.
#[export] Hint Resolve normalize_tables_ok DeleteScheduleTargets_ok UpdateSchedule_row_ok SoftDeleteSchedule_ok
  PauseActiveSchedule_ok : schedule.

(** Walks a computation, one bind or branch at a time. *)
Ltac preserve :=
  repeat match goal with
  | |- preserves (_ ≫= _) => apply preserves_bind; [|intros ?]
  | |- preserves (RunInTx _) => apply preserves_tx
  | |- preserves (when _ _) => apply preserves_when
  | |- preserves (if ?b then _ else _) => destruct b
  | |- preserves (let '(_, _) := ?x in _) => destruct x
  | |- preserves (match ?o with Some _ => _ | None => _ end) => destruct o
  end; try (intros ? ?; by auto with schedule); try by auto with schedule.

Lemma preserves_fetch org id : preserves (fetchScheduleWithTargets org id).
Proof. unfold fetchScheduleWithTargets, GetScheduleTargets. preserve. Qed.
#[export] Hint Resolve preserves_fetch : schedule.

Lemma preserves_create_targets org id seen targets :
  validate_targets seen targets = true → preserves (create_targets org id targets).
Proof.
  intros Hv. assert (Hall : ∀ t, Some t ∈ targets → ∀ id, target_row_ok
    {| tr_ScheduleID := id; tr_TargetType := scheduleTargetTypeToString (st_TargetType t);
       tr_TargetID := TrimSpace (st_TargetId t) |} = true) by (intros; by eapply validated_target).
  clear Hv. induction targets as [|[t|] rest IH]; simpl.
  - apply preserves_ret.
  - apply preserves_bind; [|intros; apply IH; intros; apply Hall; by right].
    intros db Hdb. apply CreateScheduleTarget_ok; [|done]. apply Hall. left.
  - apply IH. intros. apply Hall. by right.
Qed.

(** A request the API lets through: the enums it defines. *)
Definition defined_enums (req : ScheduleRequest) : bool :=
  between SCHEDULE_ACTION_SET_POWER_TARGET SCHEDULE_ACTION_SLEEP (rq_Action req)
  && between SCHEDULE_TYPE_ONE_TIME SCHEDULE_TYPE_RECURRING (rq_ScheduleType req).

Section Service.
Context `{Calendar} (org now : Z).

Lemma checked_schedule_ok id user req sched :
  defined_enums req = true → checked_schedule now id user req = Ok sched →
  (∀ p st, fields_ok (sched <| sc_Priority := p |>) ∧ fields_ok (sched <| sc_Status := st |>))
  ∧ validateTargets (rq_Targets req) = true.
Proof.
  unfold defined_enums, checked_schedule. intros [Ha Ht]%andb_prop.
  destruct (validateScheduleFields _ _ _ _ _ && _) eqn:Ev; [|done]. cbn [negb].
  apply andb_prop in Ev as [Ev Et].
  destruct (ComputeNextRun _ _) as [[nextRun|]|]; [|done..]. intros [= <-]. by repeat split.
Qed.

Lemma preserves_update_tx id sched targets :
  (∀ st, fields_ok (sched <| sc_Status := st |>)) → validateTargets targets = true →
  preserves (update_tx org id sched targets).
Proof.
  intros Hf Ht. pose proof (preserves_create_targets org id [] targets Ht) as Hct. unfold update_tx. cbv zeta.
  preserve; intros db Hdb; apply UpdateSchedule_row_ok; try done; by apply Hf.
Qed.

Lemma preserves_update id req : defined_enums req = true → preserves (UpdateSchedule org now id req).
Proof.
  intros Hd db Hdb. unfold UpdateSchedule, mbind, M_bind, lift.
  destruct (checked_schedule now id 0 req) as [sched|e] eqn:Ec; [|done].
  destruct (checked_schedule_ok _ _ _ _ Hd Ec) as [Hf Ht]. revert db Hdb.
  apply preserves_tx, preserves_update_tx; [|done]. intros st. by apply (Hf 0 st).
Qed.

(** Fewer schedules than int32 values were ever created. *)
Definition room_for_priority (db : ScheduleDB) : Prop := 1 <= sb_nextval db < 2 ^ 31 - 1.

Lemma create_tx_ok sched targets db :
  (∀ p, fields_ok (sched <| sc_Priority := p |>)) → validateTargets targets = true → room_for_priority db →
  tables_ok db → tables_ok (create_tx org sched targets db).2.
Proof.
  intros Hf Ht Hroom Hdb. unfold room_for_priority in Hroom.
  destruct (GetMaxPriority_bounds org db (to_keys _ Hdb)) as (m & Hm & Hb); [lia|].
  unfold create_tx. apply tables_ok_bind; [by rewrite Hm|]. rewrite Hm. intros ? ? [= <- <-] _.
  rewrite int32_id by (unfold fits32; lia). apply tables_ok_bind.
  { apply CreateSchedule_row_ok; [done|apply Hf|simpl; lia|lia]. }
  intros id db1 _. revert db1. change (preserves (
    _ ← create_targets org id targets; _ ← normalizeSchedulePriorities org; fetchScheduleWithTargets org id)).
  pose proof (preserves_create_targets org id [] targets Ht). preserve.
Qed.

Lemma create_ok user req db :
  defined_enums req = true → room_for_priority db → tables_ok db →
  tables_ok (CreateSchedule org now user req db).2.
Proof.
  intros Hd Hroom Hdb. unfold CreateSchedule. apply tables_ok_bind; [done|].
  intros sched db1 [= Ec <-] _. destruct (checked_schedule_ok _ _ _ _ Hd Ec) as [Hf Ht].
  pose proof (create_tx_ok sched (rq_Targets req) db ltac:(intros p; apply (Hf p 0)) Ht Hroom Hdb) as Htx.
  unfold RunInTx. by destruct (create_tx _ _ _ db) as [[?|?] ?].
Qed.

Lemma preserves_resume id authorizeAction : preserves (ResumeSchedule org now id authorizeAction).
Proof.
  unfold ResumeSchedule, GetScheduleForUpdate. preserve.
  intros db Hdb. apply ResumePausedSchedule_ok; [destruct o; set_solver|done].
Qed.

Lemma reorder_ok ids db : tables_ok db → tables_ok (ReorderSchedules org ids db).2.
Proof.
  intros Hdb. destruct (reorder_cases org ids db (to_keys _ Hdb)) as [(_ & Hp & ->)|(_ & ->)]; [|done].
  by apply reordered_ok.
Qed.

(** The requests an organization's users make; a schedule is created while fewer
    than the int32 priorities were ever given. *)
Inductive serves : ScheduleDB → ScheduleDB → Prop :=
| serve_create user req db : defined_enums req = true → room_for_priority db →
    serves db (CreateSchedule org now user req db).2
| serve_update id req db : defined_enums req = true → serves db (UpdateSchedule org now id req db).2
| serve_delete id db : serves db (DeleteSchedule org id db).2
| serve_pause id db : serves db (PauseSchedule org id db).2
| serve_resume id authorizeAction db : serves db (ResumeSchedule org now id authorizeAction db).2
| serve_reorder ids db : serves db (ReorderSchedules org ids db).2.

Lemma preserves_delete id : preserves (DeleteSchedule org id).
Proof. unfold DeleteSchedule. preserve. Qed.

Lemma preserves_pause id : preserves (PauseSchedule org id).
Proof. unfold PauseSchedule. preserve. Qed.

Lemma serves_ok db db' : serves db db' → tables_ok db → tables_ok db'.
Proof.
  destruct 1 as [user req db Hd Hroom|id req db Hd|id db|id db|id auth db|ids db]; intros Hdb.
  - by apply create_ok.
  - by apply preserves_update.
  - by apply preserves_delete.
  - by apply preserves_pause.
  - by apply preserves_resume.
  - by apply reorder_ok.
Qed.

End Service.
