(* ===== verification/ScheduleProcessorFacts.v ===== *)
(** * The processor among others

    A rely-guarantee account of the schedule processor: a run is a sequence of its
    own steps, each of which writes only rows that are active or running and not
    deleted, and of the moves of the others that its script interleaves. From it
    follow the invariants: the tables stay well formed, and a schedule that an
    operator paused, that completed or that was deleted is left alone. *)

From S2P Require Import Prelude GoSort Errors RolloutBehavior GoTime CommandFilter ScheduleCron.
From S2P Require Import ScheduleStore ScheduleService ScheduleProcessor ScheduleFleetFacts.
From S2P Require Import SchedulePriorityFacts ScheduleInvariant.
#[local] Open Scope string_scope.
#[local] Open Scope list_scope.
#[local] Open Scope Z_scope.
#[local] Open Scope go_scope.

(** ** Runs *)

Definition next_turn (turns : list Turn) : Turn := default quiet_turn (head turns).

Inductive evolves (G : Shared → Shared → Prop) : list Turn → Shared → list Turn → Shared → Prop :=
| ev_refl ts sh : evolves G ts sh ts sh
| ev_own ts sh sh1 ts' sh' : G sh sh1 → evolves G ts sh1 ts' sh' → evolves G ts sh ts' sh'
| ev_others ts sh ts' sh' :
    evolves G (tail ts) (tn_others (next_turn ts) sh) ts' sh' → evolves G ts sh ts' sh'.

Lemma run_trans G ts sh ts1 sh1 ts2 sh2 :
  evolves G ts sh ts1 sh1 → evolves G ts1 sh1 ts2 sh2 → evolves G ts sh ts2 sh2.
Proof. induction 1; intros; [done|by eapply ev_own; eauto|by apply ev_others; auto]. Qed.

(** What the own steps and the scripted moves both keep, a run keeps. *)
Lemma run_keeps G (I : Shared → Prop) ts sh ts' sh' :
  (∀ a b, G a b → I a → I b) →
  evolves G ts sh ts' sh' → Forall (λ t, ∀ a, I a → I (tn_others t a)) ts → I sh → I sh'.
Proof.
  intros HG. induction 1 as [|ts sh sh1 ts' sh' Hg _ IH|ts sh ts' sh' _ IH]; intros Hts Hi; [done|eauto|].
  destruct ts as [|t ts]; [by apply IH|]. apply Forall_cons in Hts as [Ht Hts]. apply IH; [done|]. by apply Ht.
Qed.

Section Guarantee.
Variable G : Shared → Shared → Prop.

Definition guarantees {A} (m : Proc A) : Prop :=
  ∀ s, evolves G (ps_turns s) (ps_shared s) (ps_turns (m s).2) (ps_shared (m s).2).

Lemma guarantees_ret {A} (a : A) : guarantees (mret a).
Proof. intros s. apply ev_refl. Qed.

Lemma guarantees_bind {A B} (m : Proc A) (f : A → Proc B) :
  guarantees m → (∀ a, guarantees (f a)) → guarantees (m ≫= f).
Proof.
  intros Hm Hf s. unfold mbind, Proc_bind. specialize (Hm s). destruct (m s) as [a s'].
  eapply run_trans; [done|]. apply Hf.
Qed.

Lemma guarantees_generation id : guarantees (currentJobGeneration id).
Proof. intros s. apply ev_refl. Qed.

Lemma guarantees_turn : guarantees take_turn.
Proof. intros s. apply ev_others, ev_refl. Qed.

Lemma guarantees_sent sent : guarantees (record_sent sent).
Proof. intros s. apply ev_refl. Qed.

Lemma guarantees_update f : (∀ sh, G sh (f sh)) → guarantees (update_shared f).
Proof. intros Hf s. eapply ev_own; [apply Hf|apply ev_refl]. Qed.

Lemma guarantees_jobs f : (∀ sh, G sh (sh <| sh_jobs := f (sh_jobs sh) |>)) → guarantees (update_jobs f).
Proof. intros Hf s. eapply ev_own; [apply Hf|apply ev_refl]. Qed.

Lemma guarantees_store {A} (op : SOp A) :
  (∀ sh, G sh (sh <| sh_db := (op (sh_db sh)).2 |>)) → guarantees (store_call op).
Proof.
  intros Hop. apply guarantees_bind; [apply guarantees_turn|]. intros turn.
  destruct (tn_fails turn); [apply guarantees_ret|]. intros s. unfold run_store.
  specialize (Hop (ps_shared s)). unfold ps_db. destruct (op _) as [r db]. eapply ev_own; [done|apply ev_refl].
Qed.

Lemma guarantees_send sent : guarantees (send sent).
Proof.
  apply guarantees_bind; [apply guarantees_turn|]. intros turn. destruct (tn_fails turn); [apply guarantees_ret|].
  apply guarantees_bind; [apply guarantees_sent|]. intros ?. apply guarantees_ret.
Qed.

End Guarantee.

(** ** The processor's own steps *)

(** The statuses the processor moves a schedule through. *)
Definition processor_statuses : list string := [statusActive; statusRunning; statusCompleted].

Definition writes_row (r r' : ScheduleRow) : Prop :=
  r' = r ∨ (live r = true ∧ processing r = true
    ∧ ∃ status last next, status ∈ processor_statuses
      ∧ r' = r <| rw_LastRunAt := last |> <| rw_NextRunAt := next |> <| rw_Status := status |>).

Definition processor_step (sh sh' : Shared) : Prop :=
  Forall2 writes_row (sb_schedules (sh_db sh)) (sb_schedules (sh_db sh'))
  ∧ sb_targets (sh_db sh') = sb_targets (sh_db sh) ∧ sb_nextval (sh_db sh') = sb_nextval (sh_db sh).

Lemma step_same_db sh sh' : sh_db sh' = sh_db sh → processor_step sh sh'.
Proof.
  intros E. unfold processor_step. rewrite E. split; [|done]. induction (sb_schedules (sh_db sh)); constructor; [by left|done].
Qed.

Lemma step_update p f sh :
  (∀ r, p r = true → writes_row r (f r)) →
  processor_step sh (sh <| sh_db := (update_schedules p f (sh_db sh)).2 |>).
Proof.
  intros Hf. split; [|done]. simpl. induction (sb_schedules (sh_db sh)) as [|r l IH]; simpl; constructor; [|done].
  destruct (p r) eqn:E; [by apply Hf|by left].
Qed.

Lemma is_id_spec id r : is_id id r = true → live r = true ∧ rw_ID r = id.
Proof. unfold is_id. intros. by crush_bools. Qed.

Lemma step_running id sh : processor_step sh (sh <| sh_db := (SetScheduleRunning id (sh_db sh)).2 |>).
Proof.
  apply step_update. intros r [Hid Hs]%andb_prop. right. apply is_id_spec in Hid as [Hl _].
  unfold processing. rewrite Hs. split_and!; [done..|].
  exists statusRunning, (rw_LastRunAt r), (rw_NextRunAt r). split; [set_solver|by destruct r].
Qed.

Lemma step_revert id sh : processor_step sh (sh <| sh_db := (RevertScheduleToActive id (sh_db sh)).2 |>).
Proof.
  apply step_update. intros r [Hid Hs]%andb_prop. right. apply is_id_spec in Hid as [Hl _].
  unfold processing. rewrite Hs, orb_true_r. split_and!; [done..|].
  exists statusActive, (rw_LastRunAt r), (rw_NextRunAt r). split; [set_solver|by destruct r].
Qed.

Lemma step_after_run id last next status sh :
  status ∈ processor_statuses →
  processor_step sh (sh <| sh_db := (UpdateScheduleAfterRun id last next status (sh_db sh)).2 |>).
Proof.
  intros Hst. apply step_update. intros r [Hid Hp]%andb_prop. right. apply is_id_spec in Hid as [Hl _].
  split_and!; [done..|]. eauto.
Qed.

Lemma step_get id sh : processor_step sh (sh <| sh_db := (GetScheduleByID id (sh_db sh)).2 |>).
Proof. apply step_same_db. simpl. unfold GetScheduleByID. by destruct (List.find _ _). Qed.

Create HintDb processor.
#[export] Hint Resolve guarantees_ret guarantees_generation guarantees_send guarantees_jobs guarantees_store guarantees_update
  : processor.
#[export] Hint Resolve step_running step_revert step_get : processor.
#[export] Hint Extern 5 (processor_step _ _) => by apply step_same_db : processor.
#[export] Hint Extern 5 (processor_step _ _) => apply step_after_run; repeat case_match; set_solver
  : processor.

(** Walks a run of the processor, one call or branch at a time. *)
Ltac guarantee :=
  repeat match goal with
  | |- guarantees _ (_ ≫= _) => apply guarantees_bind; [|intros ?]
  | |- guarantees _ (match ?x with _ => _ end) => destruct x
  end; auto with processor.

Section Processor.
Context `{Calendar} `{DeviceSets} (now : Z).

Lemma retry_guarantee id gen : guarantees processor_step (revert_for_retry id gen).
Proof. unfold revert_for_retry, removeJobForRetry, removeJobIfCurrent. guarantee. Qed.

Lemma resolve_guarantee sched org : guarantees processor_step (resolveTargets sched org).
Proof. unfold resolveTargets, GetScheduleTargets. guarantee. Qed.

#[local] Hint Resolve retry_guarantee resolve_guarantee : processor.

Lemma after_run_guarantee sched gen : guarantees processor_step (updateAfterRunWithGeneration now sched gen).
Proof.
  unfold updateAfterRunWithGeneration, removeJob. cbv zeta. guarantee.
Qed.

Lemma completed_guarantee sched gen : guarantees processor_step (transitionToCompletedWithGeneration now sched gen).
Proof. unfold transitionToCompletedWithGeneration, removeJob. guarantee. Qed.

#[local] Hint Resolve after_run_guarantee completed_guarantee : processor.

Lemma execute_guarantee id : guarantees processor_step (executeSchedule now id).
Proof.
  unfold executeSchedule, execute_claimed, dispatch. guarantee.
Qed.

Lemma end_window_guarantee sched org : guarantees processor_step (end_window now sched org).
Proof.
  unfold end_window, revertToActive, removeJob. guarantee.
Qed.

#[local] Hint Resolve execute_guarantee end_window_guarantee : processor.

Lemma end_windows_guarantee schedules : guarantees processor_step (end_windows now schedules).
Proof. induction schedules as [|[sched org] rest IH]; simpl; guarantee. Qed.

Lemma recover_each_guarantee schedules : guarantees processor_step (recover_each schedules).
Proof. induction schedules as [|[sched org] rest IH]; simpl; guarantee. Qed.

#[local] Hint Resolve end_windows_guarantee recover_each_guarantee : processor.

Lemma sync_guarantee : guarantees processor_step (syncSchedules now).
Proof.
  unfold syncSchedules. guarantee. apply guarantees_update. intros sh. apply step_same_db.
  unfold sync_jobs. by destruct (fold_left _ _ _).
Qed.

#[local] Hint Resolve sync_guarantee : processor.

(** Everything the processor runs. *)
Inductive processor_run : Proc unit → Prop :=
| run_execute id : processor_run (executeSchedule now id)
| run_fire id : processor_run (fire now id)
| run_windows : processor_run (checkEndOfWindow now)
| run_sync : processor_run (_ ← syncSchedules now; mret tt)
| run_start : processor_run (_ ← Start now; mret tt)
| run_stop : processor_run finishStop.

Lemma processor_run_guarantee m : processor_run m → guarantees processor_step m.
Proof.
  destruct 1; unfold fire, checkEndOfWindow, Start, recoverStaleRunning, finishStop; guarantee.
Qed.

End Processor.

(** ** Invariants *)

Lemma writes_row_keys r r' :
  writes_row r r' → rw_ID r' = rw_ID r ∧ rw_OrgID r' = rw_OrgID r ∧ rw_Priority r' = rw_Priority r ∧ live r' = live r.
Proof. by intros [->|(_ & _ & st & l & n & _ & ->)]. Qed.

Lemma writes_row_ids l l' : Forall2 writes_row l l' → map rw_ID l' = map rw_ID l.
Proof.
  induction 1 as [|r r' l l' Hw _ IH]; [done|]. simpl. apply writes_row_keys in Hw as [-> _]. by rewrite IH.
Qed.

Lemma writes_row_ok r r' : writes_row r r' → row_ok r → row_ok r'.
Proof.
  intros [->|(_ & _ & st & l & n & Hst & ->)]; [done|]. apply (status_row_ok (λ r, _) r); [|by destruct r].
  simpl. unfold processor_statuses in Hst. set_solver.
Qed.

Lemma Forall2_elem_r {A B} (P : A → B → Prop) l l' y : Forall2 P l l' → y ∈ l' → ∃ x, x ∈ l ∧ P x y.
Proof.
  intros HF [i Hi]%list_elem_of_lookup. destruct (Forall2_lookup_r _ _ _ _ _ HF Hi) as (x & Hx & Hp).
  exists x. split; [by eapply list_elem_of_lookup_2|done].
Qed.

Lemma step_keys_ok sh sh' : processor_step sh sh' → keys_ok (sh_db sh) → keys_ok (sh_db sh').
Proof.
  intros (HF & _ & Hn) [Hid Hr Hi]. split.
  - by rewrite (writes_row_ids _ _ HF).
  - intros r' (r & Hin & (-> & _ & -> & _)%writes_row_keys)%(Forall2_elem_r _ _ _ _ HF). rewrite Hn. by apply Hr.
  - intros r' x' (r & Hin & (-> & -> & -> & ->)%writes_row_keys)%(Forall2_elem_r _ _ _ _ HF)
      (x & Hin' & (-> & -> & -> & ->)%writes_row_keys)%(Forall2_elem_r _ _ _ _ HF). by apply Hi.
Qed.

Lemma step_tables_ok sh sh' : processor_step sh sh' → tables_ok (sh_db sh) → tables_ok (sh_db sh').
Proof.
  intros Hstep [Hk Hrow Hts Hu]. split; [by eapply step_keys_ok|..]; destruct Hstep as (HF & Ht & _).
  - intros r' (r & Hin & Hw)%(Forall2_elem_r _ _ _ _ HF). by eapply writes_row_ok, Hrow.
  - rewrite Ht. done.
  - rewrite Ht. done.
Qed.

(** One move of the whole system: a request of any organization, or a run of the
    processor during which requests arrive. *)
Definition serve_step `{Calendar} (sh sh' : Shared) : Prop :=
  ∃ org now db', serves org now (sh_db sh) db' ∧ sh' = sh <| sh_db := db' |>.

Inductive system_step `{Calendar} `{DeviceSets} : Shared → Shared → Prop :=
| step_serve sh sh' : serve_step sh sh' → system_step sh sh'
| step_run now m s : processor_run now m →
    Forall (λ t, ∀ sh, rtc serve_step sh (tn_others t sh)) (ps_turns s) →
    system_step (ps_shared s) (ps_shared (m s).2).

Lemma serve_step_ok `{Calendar} sh sh' : serve_step sh sh' → tables_ok (sh_db sh) → tables_ok (sh_db sh').
Proof. intros (org & now & db' & Hs & ->). simpl. by eapply serves_ok. Qed.

(** C19: Along any history of requests of any organization and of processor runs during which
    requests arrive and calls fail, the schedule tables stay well formed: keys and the priority
    index hold, statuses, actions and types are known, configurations and recurrences are valid,
    dates and times are canonical, and every target has a known type and a canonical identifier.
    *)
Theorem schedule_tables_stay_well_formed `{Calendar} `{DeviceSets} sh sh' :
  rtc system_step sh sh' → tables_ok (sh_db sh) → tables_ok (sh_db sh').
Proof.
  induction 1 as [|sh sh1 sh' Hstep _ IH]; [done|]. intros Hok. apply IH. clear IH.
  destruct Hstep as [sh sh1 Hs|now m s Hm Hts]; [by eapply serve_step_ok|].
  eapply (run_keeps processor_step (λ sh, tables_ok (sh_db sh))); [|by apply (processor_run_guarantee now m Hm)| |done].
  - intros a b. apply step_tables_ok.
  - eapply Forall_impl; [done|]. simpl. intros t Ht a Ha. specialize (Ht a).
    induction Ht as [|a b c Hab _ IHt]; [done|]. by eapply IHt, serve_step_ok.
Qed.

(** C22: Every run of the processor, under any script of failures and of moves by others, is a
    sequence of those moves and of writes that only touch the status and run times of live rows
    that are active or running: a row that is paused, completed or deleted, and that the others
    leave as it is, is as it was. *)
Theorem stopped_schedules_are_left_alone `{Calendar} `{DeviceSets} now m s i r :
  processor_run now m → sb_schedules (ps_db s) !! i = Some r → live r && processing r = false →
  Forall (λ t, ∀ sh, sb_schedules (sh_db sh) !! i = Some r → sb_schedules (sh_db (tn_others t sh)) !! i = Some r)
    (ps_turns s) →
  sb_schedules (ps_db (m s).2) !! i = Some r
  ∧ evolves processor_step (ps_turns s) (ps_shared s) (ps_turns (m s).2) (ps_shared (m s).2).
Proof.
  intros Hm Hr Hstop Hts. pose proof (processor_run_guarantee now m Hm s) as Hev. split; [|done].
  eapply (run_keeps processor_step (λ sh, sb_schedules (sh_db sh) !! i = Some r)); [|done..].
  intros a b (HF & _) Ha. destruct (Forall2_lookup_l _ _ _ _ _ HF Ha) as (r' & Hr' & [->|(Hl & Hp & _)]); [done|].
  by rewrite Hl, Hp in Hstop.
Qed.

(** * One execution of a schedule

    What an execution sends and when, and what becomes of a schedule whose
    execution fails. *)

(** ** Calls *)

(** The state when a call begins: the others have moved. *)
Definition after_turn (s : PState) : PState :=
  s <| ps_shared := tn_others (next_turn (ps_turns s)) (ps_shared s) |> <| ps_turns := tail (ps_turns s) |>.

Definition with_db (db : ScheduleDB) (s : PState) : PState :=
  s <| ps_shared := (ps_shared s) <| sh_db := db |> |>.

Lemma store_call_eq {A} (op : SOp A) s :
  store_call op s =
  if tn_fails (next_turn (ps_turns s)) then (Err NewInternalError, after_turn s)
  else ((op (ps_db (after_turn s))).1, with_db (op (ps_db (after_turn s))).2 (after_turn s)).
Proof.
  unfold store_call, take_turn, mbind, Proc_bind. fold (next_turn (ps_turns s)). fold (after_turn s).
  destruct (tn_fails _); [done|]. unfold run_store. by destruct (op (ps_db (after_turn s))).
Qed.

(** A computation that sends nothing. *)
Definition silent {A} (m : Proc A) : Prop := ∀ s, ps_sent (m s).2 = ps_sent s.

Create HintDb silent.

Lemma silent_ret {A} (a : A) : silent (mret a).
Proof. done. Qed.
Lemma silent_bind {A B} (m : Proc A) (f : A → Proc B) : silent m → (∀ a, silent (f a)) → silent (m ≫= f).
Proof.
  intros Hm Hf s. unfold mbind, Proc_bind. specialize (Hm s). destruct (m s) as [a s']. simpl in Hm.
  by rewrite (Hf a s').
Qed.
Lemma silent_store {A} (op : SOp A) : silent (store_call op).
Proof. intros s. rewrite store_call_eq. by destruct (tn_fails _). Qed.
Lemma silent_jobs f : silent (update_jobs f).
Proof. done. Qed.
#[export] Hint Resolve silent_ret silent_store silent_jobs : silent.

Ltac silent :=
  repeat match goal with
  | |- silent (_ ≫= _) => apply silent_bind; [|intros ?]
  | |- silent (match ?x with _ => _ end) => destruct x
  end; auto with silent.

Lemma silent_retry id gen : silent (revert_for_retry id gen).
Proof. unfold revert_for_retry, removeJobForRetry, removeJobIfCurrent. silent. Qed.
#[export] Hint Resolve silent_retry : silent.

Section Execution.
Context `{Calendar} `{DeviceSets} (now : Z).

Lemma silent_after_run sched gen : silent (updateAfterRunWithGeneration now sched gen).
Proof. unfold updateAfterRunWithGeneration, removeJob. cbv zeta. silent. Qed.
Lemma silent_completed sched gen : silent (transitionToCompletedWithGeneration now sched gen).
Proof. unfold transitionToCompletedWithGeneration, removeJob. silent. Qed.

Lemma dispatch_sends sched org devices s :
  ps_sent (dispatch sched org devices s).2 = ps_sent s
  ∨ ∃ cmd, dispatch_command sched = Some cmd ∧
      ps_sent (dispatch sched org devices s).2
        = ps_sent s ++ [{| se_Source := source_of sched; se_Org := org; se_Devices := devices; se_Command := cmd |}].
Proof.
  unfold dispatch. destruct (dispatch_command sched) as [cmd|]; [|by left].
  unfold send, take_turn, mbind, Proc_bind. destruct (tn_fails _); [by left|]. right. by exists cmd.
Qed.

(** What the claimed execution of a schedule may send. *)
Definition sends (sched : Schedule) (org : Z) (db : ScheduleDB) (sent : Sent) : Prop :=
  before_start now sched = false ∧ after_end now sched = false
  ∧ dispatch_command sched = Some (se_Command sent)
  ∧ Expand org (targets_of org (sc_Id sched) db) [] = Some (se_Devices sent)
  ∧ se_Devices sent ≠ [] ∧ NoDup (se_Devices sent)
  ∧ se_Org sent = org ∧ se_Source sent = source_of sched.

Lemma execute_claimed_sends sched org gen s :
  ps_sent (execute_claimed now sched org gen s).2 = ps_sent s
  ∨ ∃ sent, ps_sent (execute_claimed now sched org gen s).2 = ps_sent s ++ [sent]
      ∧ sends sched org (ps_db (after_turn s)) sent.
Proof.
  unfold execute_claimed. destruct (before_start now sched) eqn:Eb; [left; revert s; change (silent (
    _ ← store_call (RevertScheduleToActive (sc_Id sched)); mret tt)); silent|].
  destruct (after_end now sched) eqn:Ea; [left; apply silent_completed|].
  unfold resolveTargets, mbind, Proc_bind, mret, Proc_ret. rewrite store_call_eq.
  destruct (tn_fails (next_turn (ps_turns s))); [left; by rewrite silent_retry|].
  cbn [GetScheduleTargets gets fst snd].
  destruct (Expand org _ []) as [[|d devices]|] eqn:Ex; [left; by rewrite silent_after_run| |left; by rewrite silent_retry].
  set (s1 := with_db _ _).
  destruct (dispatch_sends sched org (d :: devices) s1) as [Hs|(cmd & Hc & Hs)];
    destruct (dispatch sched org (d :: devices) s1) as [[out|e] s2]; simpl in Hs.
  - left. by rewrite silent_after_run, Hs.
  - left. by rewrite silent_retry, Hs.
  - right. eexists. rewrite silent_after_run, Hs. split; [done|]. unfold sends. simpl.
    split_and!; try done. by eapply NoDup_Expand.
  - right. eexists. rewrite silent_retry, Hs. split; [done|]. unfold sends. simpl.
    split_and!; try done. by eapply NoDup_Expand.
Qed.

Lemma claimed_row id db n :
  SetScheduleRunning id db = (Ok n, (SetScheduleRunning id db).2) → n ≠ 0 →
  ∃ r, r ∈ sb_schedules db ∧ live r = true ∧ rw_ID r = id ∧ rw_Status r = statusActive.
Proof.
  intros [= <-] Hn. destruct (List.filter _ (sb_schedules db)) as [|r l] eqn:E; [done|].
  assert (Hr : r ∈ r :: l) by left. rewrite <- E in Hr. apply elem_of_List_filter in Hr as [Hr [Hid Hs]%andb_prop].
  apply is_id_spec in Hid as [Hl Hid]. crush_bools. eauto 6.
Qed.

(** The three moments of an execution: the claim, the second read, and the read
    of the targets. *)
Definition at_claim (s : PState) : PState := after_turn s.
Definition at_read (id : Z) (s : PState) : PState :=
  after_turn (with_db (SetScheduleRunning id (ps_db (at_claim s))).2 (at_claim s)).
Definition at_targets (id : Z) (s : PState) : PState := after_turn (at_read id s).

Lemma GetScheduleByID_db id db : (GetScheduleByID id db).2 = db.
Proof. unfold GetScheduleByID. by destruct (List.find _ _). Qed.

Lemma with_same_db s : with_db (ps_db s) s = s.
Proof. by destruct s as [[] ? ?]. Qed.


End Execution.
