(* ===== verification/ScheduleRetryFacts.v ===== *)
(** * A one-time schedule is not lost

    A one-time schedule has a single timer. When an execution fails after the
    claim, the processor puts the row back and drops the job, so that the next sync
    arms a new timer; a row that stays running is put back when the processor
    starts. The one failure that is not retried is that of the claim itself. *)

From S2P Require Import Prelude GoSort Errors RolloutBehavior GoTime CommandFilter ScheduleCron.
From S2P Require Import ScheduleStore ScheduleService ScheduleProcessor ScheduleFleetFacts.
From S2P Require Import SchedulePriorityFacts ScheduleProcessorFacts.
#[local] Open Scope string_scope.
#[local] Open Scope list_scope.
#[local] Open Scope Z_scope.
#[local] Open Scope go_scope.

(** Nobody else moves; calls may still fail. *)
Definition idle (turns : list Turn) : Prop := Forall (λ t, ∀ sh, tn_others t sh = sh) turns.

(** ** Calls without interference *)

Definition drop_turn (s : PState) : PState := s <| ps_turns := tail (ps_turns s) |>.

Lemma idle_tail ts : idle ts → idle (tail ts).
Proof. destruct ts; [done|]. by intros [_ ?]%Forall_cons. Qed.

Lemma after_turn_idle s : idle (ps_turns s) → after_turn s = drop_turn s.
Proof.
  intros Hi. unfold after_turn, drop_turn. destruct s as [sh [|t ts] sent]; [done|].
  apply Forall_cons in Hi as [Ht _]. unfold next_turn. simpl. by rewrite Ht.
Qed.

(** Row [r] with the columns the processor writes. *)
Definition written (r : ScheduleRow) (last next : option Z) (status : string) : ScheduleRow :=
  r <| rw_LastRunAt := last |> <| rw_NextRunAt := next |> <| rw_Status := status |>.

(** The state of a schedule: its row, at its place in the table, and its job. *)
Record at_state (i : nat) (r : ScheduleRow) (job : option jobEntry) (s : PState) : Prop := {
  as_idle : idle (ps_turns s);
  as_row : sb_schedules (ps_db s) !! i = Some r;
  as_job : ps_jobs s !! rw_ID r = job
}.

Lemma update_schedules_at p f db i r :
  sb_schedules db !! i = Some r →
  sb_schedules (update_schedules p f db).2 !! i = Some (if p r then f r else r).
Proof. intros Hr. simpl. by rewrite list_lookup_fmap, Hr. Qed.

(** A store call either fails and changes nothing, or runs. *)
Lemma store_call_at {A} (op : SOp A) i r job s :
  at_state i r job s →
  ∃ s', at_state i r job s' ∧ ps_db s' = ps_db s ∧ ps_jobs s' = ps_jobs s
    ∧ (store_call op s = (Err NewInternalError, s')
       ∨ store_call op s = ((op (ps_db s)).1, with_db (op (ps_db s)).2 s')).
Proof.
  intros [Hi Hr Hj]. exists (drop_turn s). split_and!; [|done|done|].
  - split; [by apply idle_tail|done|done].
  - rewrite store_call_eq, after_turn_idle by done. destruct (tn_fails _); [by left|by right].
Qed.

Lemma at_with_db i r r' job s db :
  at_state i r job s → rw_ID r' = rw_ID r → sb_schedules db !! i = Some r' → at_state i r' job (with_db db s).
Proof. intros [Hi Hr Hj] He Hdb. split; [done|done|by rewrite He]. Qed.

(** The generation an execution holds is that of the job it found. *)
Definition holds_generation (gen : option Z) (job : option jobEntry) : Prop := gen = je_generation <$> job.

Lemma remove_current i r job gen s :
  at_state i r job s → holds_generation gen job →
  at_state i r None (removeJobForRetry (rw_ID r) gen s).2.
Proof.
  intros [Hi Hr Hj] ->. split; [done|done|]. unfold removeJobForRetry, removeJobIfCurrent, update_jobs. simpl.
  rewrite Hj. destruct job as [e|]; simpl; [|done]. rewrite Z.eqb_refl. apply lookup_delete_eq.
Qed.

Lemma remove_job i r job s : at_state i r job s → at_state i r None (removeJob (rw_ID r) s).2.
Proof. intros [Hi Hr Hj]. split; [done|done|]. simpl. apply lookup_delete_eq. Qed.

(** Where an execution may leave the schedule: running, or out of it and without
    a job. *)
Definition settles (i : nat) (r : ScheduleRow) (s : PState) : Prop :=
  ∃ last next status job, at_state i (written r last next status) job s
    ∧ (status = statusRunning ∨ (status = statusActive ∨ status = statusCompleted) ∧ job = None).

Lemma retry_settles i r last next job gen s :
  live r = true → at_state i (written r last next statusRunning) job s → holds_generation gen job →
  settles i r (revert_for_retry (rw_ID r) gen s).2.
Proof.
  intros Hl Hs Hg. unfold revert_for_retry, mbind, Proc_bind.
  destruct (store_call_at (RevertScheduleToActive (rw_ID r)) _ _ _ _ Hs) as (s' & Hs' & Hdb & _ & [-> | ->]).
  - exists last, next, statusRunning, job. auto.
  - cbn [RevertScheduleToActive update_schedules fst]. exists last, next, statusActive, None. split; [|auto].
    change (rw_ID r) with (rw_ID (written r last next statusActive)).
    apply (remove_current _ _ job); [|done]. eapply at_with_db; [done|done|].
    unfold RevertScheduleToActive. erewrite update_schedules_at; [|apply (as_row _ _ _ _ Hs)].
    unfold is_id. cbn [rw_ID written rw_Status]. 
    assert (live (written r last next statusRunning) = true) as -> by done.
    by rewrite Z.eqb_refl.
Qed.

(** A running row is the one the processor's statements write. *)
Lemma after_run_row r last next id :
  live r = true → rw_ID r = id →
  is_id id (written r last next statusRunning) && processing (written r last next statusRunning) = true.
Proof.
  intros Hl <-. unfold is_id. assert (live (written r last next statusRunning) = true) as -> by done.
  by rewrite Z.eqb_refl.
Qed.

Section OneTime.
Context `{Calendar} `{DeviceSets} (now : Z).

Lemma stored_run_at i r last next job s lastRun nextRun status :
  live r = true → at_state i (written r last next statusRunning) job s →
  sb_schedules (UpdateScheduleAfterRun (rw_ID r) lastRun nextRun status (ps_db s)).2 !! i
    = Some (written r (Z.mul Second <$> lastRun) (Z.mul Second <$> nextRun) status).
Proof.
  intros Hl Hs. unfold UpdateScheduleAfterRun. erewrite update_schedules_at; [|apply (as_row _ _ _ _ Hs)].
  by rewrite (after_run_row r last next (rw_ID r) Hl eq_refl).
Qed.

Lemma after_run_settles i r last next job gen s sched :
  live r = true → sc_Id sched = rw_ID r → ComputeNextRun sched now = Some None →
  at_state i (written r last next statusRunning) job s → holds_generation gen job →
  settles i r (updateAfterRunWithGeneration now sched gen s).2.
Proof.
  intros Hl Hid Hn Hs Hg. unfold updateAfterRunWithGeneration. rewrite Hn, Hid. cbn [is_set]. cbv zeta.
  set (status := if hasPowerTargetWindow sched then statusRunning else statusCompleted).
  unfold mbind, Proc_bind.
  destruct (store_call_at (UpdateScheduleAfterRun (rw_ID r) (Some (Unix now)) (Unix <$> None) status) _ _ _ _ Hs)
    as (s' & Hs' & Hdb & _ & [-> | ->]).
  - by eapply retry_settles.
  - assert (Hs1 : at_state i (written r (Some (Second * Unix now)) None status) job
      (with_db (UpdateScheduleAfterRun (rw_ID r) (Some (Unix now)) (Unix <$> None) status (ps_db s)).2 s')).
    { eapply at_with_db; [done|done|]. by erewrite stored_run_at by done. }
    cbn [UpdateScheduleAfterRun update_schedules fst]. fold status.
    exists (Some (Second * Unix now)), None, status. unfold status in *.
    destruct (hasPowerTargetWindow sched); cbn.
    + exists job. auto.
    + exists None. split; [|auto]. by apply (remove_job _ _ _ _ Hs1).
Qed.

Lemma completed_settles i r last next job gen s sched :
  live r = true → sc_Id sched = rw_ID r →
  at_state i (written r last next statusRunning) job s → holds_generation gen job →
  settles i r (transitionToCompletedWithGeneration now sched gen s).2.
Proof.
  intros Hl Hid Hs Hg. unfold transitionToCompletedWithGeneration, mbind, Proc_bind. rewrite Hid.
  destruct (store_call_at (UpdateScheduleAfterRun (rw_ID r) (Some (Unix now)) None statusCompleted) _ _ _ _ Hs)
    as (s' & Hs' & Hdb & _ & [-> | ->]).
  - by eapply retry_settles.
  - assert (Hs1 : at_state i (written r (Some (Second * Unix now)) None statusCompleted) job
      (with_db (UpdateScheduleAfterRun (rw_ID r) (Some (Unix now)) None statusCompleted (ps_db s)).2 s')).
    { eapply at_with_db; [done|done|]. by erewrite stored_run_at by done. }
    exists (Some (Second * Unix now)), None, statusCompleted, None. split; [|auto].
    by apply (remove_job _ _ _ _ Hs1).
Qed.

Lemma send_at sent i r job s :
  at_state i r job s → at_state i r job (send sent s).2.
Proof.
  intros [Hi Hr Hj]. unfold send, take_turn, mbind, Proc_bind. fold (next_turn (ps_turns s)).
  fold (after_turn s). rewrite after_turn_idle by done.
  destruct (tn_fails _); (split; [by apply idle_tail|done|done]).
Qed.

Lemma claimed_settles i r last next job gen s sched org :
  live r = true → sc_Id sched = rw_ID r → ComputeNextRun sched now = Some None → before_start now sched = false →
  at_state i (written r last next statusRunning) job s → holds_generation gen job →
  settles i r (execute_claimed now sched org gen s).2.
Proof.
  intros Hl Hid Hn Hb Hs Hg. unfold execute_claimed. rewrite Hb.
  destruct (after_end now sched); [by eapply completed_settles|].
  unfold resolveTargets, mbind, Proc_bind, mret, Proc_ret. rewrite Hid.
  destruct (store_call_at (GetScheduleTargets org (rw_ID r)) _ _ _ _ Hs) as (s' & Hs' & Hdb & _ & [-> | ->]).
  { by eapply retry_settles. }
  cbn [GetScheduleTargets gets fst snd]. rewrite <- Hdb, with_same_db.
  destruct (Expand org _ []) as [[|d devices]|]; [by eapply after_run_settles| |by eapply retry_settles].
  unfold dispatch. destruct (dispatch_command sched) as [cmd|]; [|by eapply retry_settles].
  set (sent := {| se_Source := _; se_Org := _; se_Devices := _; se_Command := _ |}).
  pose proof (send_at sent i _ _ _ Hs') as Hs2. destruct (send sent s') as [[out|e] s2]; simpl in Hs2.
  - by eapply after_run_settles.
  - by eapply retry_settles.
Qed.

Lemma find_by_id (l : list ScheduleRow) i r :
  NoDup (map rw_ID l) → l !! i = Some r → live r = true → List.find (is_id (rw_ID r)) l = Some r.
Proof.
  intros Hn. revert i. induction l as [|x l IH]; intros i Hi Hl; [done|]. simpl in Hn |- *.
  apply NoDup_cons in Hn as [Hx Hn]. destruct i as [|i]; simpl in Hi.
  - simplify_eq. unfold is_id. by rewrite Hl, Z.eqb_refl.
  - destruct (is_id (rw_ID r) x) eqn:E; [|by eapply IH]. apply is_id_spec in E as [_ E]. destruct Hx.
    rewrite E. apply list_elem_of_fmap. exists r. split; [done|]. by eapply list_elem_of_lookup_2.
Qed.

(** The claim of an active row. *)
Lemma claim_at i r job s :
  live r = true → rw_Status r = statusActive → at_state i r job s →
  sb_schedules (SetScheduleRunning (rw_ID r) (ps_db s)).2 !! i
    = Some (written r (rw_LastRunAt r) (rw_NextRunAt r) statusRunning)
  ∧ ∃ n, (SetScheduleRunning (rw_ID r) (ps_db s)).1 = Ok n ∧ n ≠ 0.
Proof.
  intros Hl Hst Hs. unfold SetScheduleRunning. split.
  - erewrite update_schedules_at by apply (as_row _ _ _ _ Hs). unfold is_id.
    rewrite Hl, Z.eqb_refl, bool_decide_eq_true_2 by done. by destruct r.
  - eexists. split; [done|]. destruct (List.filter _ _) as [|x l] eqn:E; [|simpl; lia].
    assert (r ∈ @nil ScheduleRow) as []%elem_of_nil. rewrite <- E. apply elem_of_List_filter.
    split; [by eapply list_elem_of_lookup_2, Hs|]. unfold is_id.
    by rewrite Hl, Z.eqb_refl, bool_decide_eq_true_2 by done.
Qed.

Lemma claim_ids id db : map rw_ID (sb_schedules (SetScheduleRunning id db).2) = map rw_ID (sb_schedules db).
Proof. simpl. rewrite map_map. apply map_ext. intros r. by case_if. Qed.

Lemma execution_settles i r job s :
  keys_ok (ps_db s) → live r = true → rw_Status r = statusActive → at_state i r job s →
  ComputeNextRun (convertToProtoSchedule r) now = Some None →
  before_start now (convertToProtoSchedule r) = false →
  tn_fails (next_turn (ps_turns s)) = false →
  settles i r (executeSchedule now (rw_ID r) s).2.
Proof.
  intros Hk Hl Hst Hs Hn Hb Hok. unfold executeSchedule, currentJobGeneration, mbind, Proc_bind. cbv beta iota zeta.
  rewrite (as_job _ _ _ _ Hs). assert (Hg : holds_generation (je_generation <$> job) job) by done.
  revert Hg. generalize (je_generation <$> job) as gen. intros gen Hg.
  rewrite store_call_eq, Hok, after_turn_idle by apply Hs.
  assert (Hs0 : at_state i r job (drop_turn s)).
  { destruct Hs as [Hi Hr Hj]. split; [by apply idle_tail|done|done]. }
  destruct (claim_at i r job _ Hl Hst Hs0) as (Hrow & n & Hcount & Hn0).
  rewrite Hcount. cbn beta iota. rewrite (proj2 (Z.eqb_neq n 0) Hn0).
  set (r1 := written r (rw_LastRunAt r) (rw_NextRunAt r) statusRunning) in *.
  assert (Hs1 : at_state i r1 job (with_db (SetScheduleRunning (rw_ID r) (ps_db (drop_turn s))).2 (drop_turn s)))
    by (by eapply at_with_db).
  revert Hs1. set (s1 := with_db _ (drop_turn s)). intros Hs1.
  destruct (store_call_at (GetScheduleByID (rw_ID r)) _ _ _ _ Hs1) as (s2 & Hs2 & Hdb & _ & [-> | ->]).
  { by eapply (retry_settles i r). }
  rewrite GetScheduleByID_db, <- Hdb, with_same_db.
  assert (Hfind : List.find (is_id (rw_ID r)) (sb_schedules (ps_db s2)) = Some r1).
  { rewrite Hdb. apply (find_by_id _ i r1); [|by apply Hs1|done]. unfold s1, ps_db. cbn [with_db].
    change (NoDup (map rw_ID (sb_schedules (SetScheduleRunning (rw_ID r) (ps_db s)).2))).
    rewrite claim_ids. apply Hk. }
  unfold GetScheduleByID. rewrite Hfind. cbn [fst]. by eapply (claimed_settles i r).
Qed.

End OneTime.

(** ** The next sync *)

Section Sync.
Context `{Calendar} (now : Z).

(** What a sync makes of the job of a schedule it reads. *)
Definition sync_entry (job : option jobEntry) (gen : Z) (sched : Schedule) : option jobEntry :=
  match job with
  | Some e => if je_fingerprint e == scheduleFingerprint sched then Some e else register_job now sched (gen + 1)
  | None => register_job now sched (gen + 1)
  end.

Lemma sync_one_at jobs gen sched :
  (sync_one now (jobs, gen) sched).1 !! sc_Id sched = sync_entry (jobs !! sc_Id sched) gen sched.
Proof.
  unfold sync_one, sync_entry. destruct (jobs !! sc_Id sched) as [e|] eqn:Ej.
  - destruct (_ == _); [done|]. destruct (register_job _ _ _); simpl; [apply lookup_insert_eq|apply lookup_delete_eq].
  - destruct (register_job _ _ _); simpl; [apply lookup_insert_eq|done].
Qed.

Lemma sync_one_other jg sched id :
  sc_Id sched ≠ id → (sync_one now jg sched).1 !! id = jg.1 !! id.
Proof.
  intros Hne. destruct jg as [jobs gen]. unfold sync_one. destruct (jobs !! sc_Id sched) as [e|].
  - destruct (_ == _); [done|]. destruct (register_job _ _ _); simpl;
      rewrite ?lookup_insert_ne, lookup_delete_ne; done.
  - destruct (register_job _ _ _); simpl; [by rewrite lookup_insert_ne|done].
Qed.

Lemma sync_fold_other l jg id :
  (∀ sched, sched ∈ l → sc_Id sched ≠ id) → (fold_left (sync_one now) l jg).1 !! id = jg.1 !! id.
Proof.
  revert jg. induction l as [|sched l IH]; intros jg Hne; simpl; [done|].
  rewrite IH by (intros; apply Hne; by right). apply sync_one_other, Hne. left.
Qed.

Lemma sync_fold_at l jg sched :
  NoDup (map sc_Id l) → sched ∈ l →
  ∃ gen, (fold_left (sync_one now) l jg).1 !! sc_Id sched = sync_entry (jg.1 !! sc_Id sched) gen sched.
Proof.
  revert jg. induction l as [|x l IH]; intros jg Hn Hin; [by apply elem_of_nil in Hin|]. simpl in *.
  apply NoDup_cons in Hn as [Hx Hn]. apply elem_of_cons in Hin as [->|Hin].
  - destruct jg as [jobs gen]. exists gen. rewrite sync_fold_other; [apply sync_one_at|].
    intros y Hy He. apply Hx. rewrite <- He. apply list_elem_of_fmap. eauto.
  - destruct (IH (sync_one now jg x) Hn Hin) as [gen Hgen]. exists gen. rewrite Hgen. f_equal.
    apply sync_one_other. intros He. apply Hx. rewrite He. apply list_elem_of_fmap. eauto.
Qed.

Lemma elem_of_active db r :
  r ∈ sb_schedules db → live r = true → processing r = true →
  (convertToProtoSchedule r, rw_OrgID r) ∈ GetActiveSchedules db.
Proof.
  intros Hr Hl Hp. unfold GetActiveSchedules. apply list_elem_of_fmap. exists r. split; [done|].
  apply stable_sort_elem, elem_of_List_filter. by rewrite Hp, Hl.
Qed.

Lemma active_ids_NoDup db : keys_ok db → NoDup (map sc_Id (map fst (GetActiveSchedules db))).
Proof.
  intros Hk. unfold GetActiveSchedules. rewrite !map_map.
  rewrite (map_ext _ rw_ID) by done. rewrite stable_sort_perm.
  eapply sublist_NoDup; [apply (ko_ids _ Hk)|]. apply fmap_sublist, CommandFilter.list_filter_sublist.
Qed.

Lemma sync_jobs_at sh r :
  keys_ok (sh_db sh) → r ∈ sb_schedules (sh_db sh) → live r = true → processing r = true →
  ∃ gen, sh_jobs (sync_jobs now (GetActiveSchedules (sh_db sh)) sh) !! rw_ID r
    = sync_entry (sh_jobs sh !! rw_ID r) gen (convertToProtoSchedule r).
Proof.
  intros Hk Hr Hl Hp. pose proof (elem_of_active _ _ Hr Hl Hp) as Hin. unfold sync_jobs.
  destruct (sync_fold_at (map fst (GetActiveSchedules (sh_db sh))) (sh_jobs sh, sh_nextGen sh)
    (convertToProtoSchedule r)) as [gen Hgen].
  { by apply active_ids_NoDup. }
  { apply list_elem_of_fmap. by exists (convertToProtoSchedule r, rw_OrgID r). }
  exists gen. destruct (fold_left _ _ _) as [jobs g].
  change (sc_Id (convertToProtoSchedule r)) with (rw_ID r) in Hgen. cbn [fst] in Hgen. rewrite <- Hgen. simpl.
  destruct (jobs !! rw_ID r) as [e|] eqn:Ej.
  - apply map_lookup_filter_Some. split; [done|]. apply elem_of_list_to_set, list_elem_of_fmap.
    by exists (convertToProtoSchedule r, rw_OrgID r).
  - apply map_lookup_filter_None. by left.
Qed.

Lemma sync_jobs_db schedules sh : sh_db (sync_jobs now schedules sh) = sh_db sh.
Proof. unfold sync_jobs. by destruct (fold_left _ _ _). Qed.

(** The job of an active or running schedule after a sync that could read the
    tables. *)
Lemma sync_at i r job s :
  at_state i r job s → keys_ok (ps_db s) → live r = true → processing r = true →
  tn_fails (next_turn (ps_turns s)) = false →
  ∃ gen, at_state i r (sync_entry job gen (convertToProtoSchedule r)) (syncSchedules now s).2.
Proof.
  intros Hs Hk Hl Hp Hok. unfold syncSchedules, mbind, Proc_bind.
  rewrite store_call_eq, Hok, after_turn_idle by apply Hs.
  change (ps_db (drop_turn s)) with (ps_db s). cbn [gets fst snd].
  destruct (sync_jobs_at (ps_shared s) r Hk) as [gen Hgen]; [by eapply list_elem_of_lookup_2, Hs|done..|].
  exists gen. destruct Hs as [Hi Hr Hj]. split.
  - by apply idle_tail.
  - rewrite <- Hr. unfold ps_db at 1. simpl. by rewrite sync_jobs_db.
  - unfold ps_jobs in *. rewrite <- Hj, <- Hgen. by destruct s as [[] ? ?].
Qed.

End Sync.

(** ** The next start *)

Section Recovery.
Context `{Calendar} (now : Z).

(** A call when nobody interferes and nothing fails. *)
Lemma store_call_calm {A} (op : SOp A) s :
  ps_turns s = [] → store_call op s = ((op (ps_db s)).1, with_db (op (ps_db s)).2 s).
Proof.
  intros Hs. rewrite store_call_eq, Hs. cbn [next_turn head default tn_fails quiet_turn].
  assert (after_turn s = s) as -> by (destruct s; unfold after_turn; simpl in *; by subst). done.
Qed.

(** A row the recovery resets: running, and not a window that has begun. *)
Definition stale (sched : Schedule) : bool :=
  (sc_Status sched =? SCHEDULE_STATUS_RUNNING) && negb (hasPowerTargetWindow sched && is_set (sc_LastRunAt sched)).

Lemma recover_each_cons sched org rest :
  recover_each ((sched, org) :: rest) =
  if stale sched then
    r ← store_call (RevertScheduleToActive (sc_Id sched));
    match r with Err e => mret (Err e) | Ok _ => recover_each rest end
  else recover_each rest.
Proof.
  unfold stale. simpl. destruct (sc_Status sched =? SCHEDULE_STATUS_RUNNING); [|done]. simpl.
  by destruct (hasPowerTargetWindow sched && is_set (sc_LastRunAt sched)).
Qed.

(** Reverting a schedule leaves the others, and the jobs, as they are. *)
Lemma revert_at i r job id s :
  at_state i r job s → ps_turns s = [] →
  at_state i (if is_id id r && (rw_Status r == statusRunning) then r <| rw_Status := statusActive |> else r) job
    (with_db (RevertScheduleToActive id (ps_db s)).2 s).
Proof.
  intros Hs _. eapply at_with_db; [done|by case_if|]. unfold RevertScheduleToActive.
  by erewrite update_schedules_at by apply (as_row _ _ _ _ Hs).
Qed.

Definition recovers (l : list (Schedule * Z)) (r : ScheduleRow) : bool :=
  existsb (λ sw, stale sw.1 && is_id (sc_Id sw.1) r) l && (rw_Status r == statusRunning).

Definition recovered (l : list (Schedule * Z)) (r : ScheduleRow) : ScheduleRow :=
  if recovers l r then r <| rw_Status := statusActive |> else r.

Lemma recover_each_at l i r job s :
  at_state i r job s → ps_turns s = [] →
  ∃ s', recover_each l s = (Ok tt, s') ∧ ps_turns s' = [] ∧ at_state i (recovered l r) job s'.
Proof.
  revert r s. induction l as [|[sched org] l IH]; intros r s Hs Ht; [by exists s|].
  rewrite recover_each_cons. destruct (stale sched) eqn:Est.
  - unfold mbind, Proc_bind. rewrite store_call_calm by done. cbn [RevertScheduleToActive update_schedules fst].
    destruct (IH _ _ (revert_at i r job (sc_Id sched) s Hs Ht) Ht) as (s' & Hr & Ht' & Hs').
    exists s'. split_and!; [done..|]. unfold recovered, recovers in *. simpl. rewrite Est. simpl.
    destruct (is_id (sc_Id sched) r && (rw_Status r == statusRunning)) eqn:E.
    + apply andb_prop in E as [E1 E2]. rewrite E1, E2. simpl in *. by rewrite andb_false_r in Hs'.
    + destruct (is_id (sc_Id sched) r); simpl in *; [|done]. by rewrite E, andb_false_r in *.
  - destruct (IH r s Hs Ht) as (s' & Hr & Ht' & Hs'). exists s'. split_and!; [done..|].
    unfold recovered, recovers in *. simpl. by rewrite Est.
Qed.

Lemma recovers_active db r :
  keys_ok db → r ∈ sb_schedules db → live r = true → rw_Status r = statusRunning →
  recovers (GetActiveSchedules db) r = stale (convertToProtoSchedule r).
Proof.
  intros Hk Hin Hl Hst. unfold recovers. rewrite Hst, bool_decide_eq_true_2, andb_true_r by done.
  apply eq_true_iff_eq. rewrite existsb_elem. split.
  - intros (sw & Hsw & [Hstale [_ Hid]%is_id_spec]%andb_prop). unfold GetActiveSchedules in Hsw.
    apply list_elem_of_fmap in Hsw as (r' & -> & [Hr' _]%stable_sort_elem%elem_of_List_filter).
    by rewrite <- (row_by_id db r r') in Hstale by done.
  - intros Hs. exists (convertToProtoSchedule r, rw_OrgID r). split.
    + apply elem_of_active; [done..|]. unfold processing. by rewrite Hst.
    + cbn [fst]. rewrite Hs. unfold is_id. by rewrite Hl, Z.eqb_refl.
Qed.

Lemma keys_kept {A} (m : Proc A) s :
  guarantees processor_step m → idle (ps_turns s) → keys_ok (ps_db s) → keys_ok (ps_db (m s).2).
Proof.
  intros Hm Hi. eapply (run_keeps processor_step (λ sh, keys_ok (sh_db sh)) _ (ps_shared s)); [|by apply Hm|].
  - intros a b. apply step_keys_ok.
  - eapply Forall_impl; [done|]. simpl. intros t Ht a. by rewrite Ht.
Qed.

(** A start without failures puts a stale row back and arms its job. *)
Lemma start_at i r s :
  at_state i r None s → ps_turns s = [] → keys_ok (ps_db s) → live r = true → rw_Status r = statusRunning →
  let r' := if stale (convertToProtoSchedule r) then r <| rw_Status := statusActive |> else r in
  ∃ gen, at_state i r' (register_job now (convertToProtoSchedule r') gen) (Start now s).2.
Proof.
  intros Hs Ht Hk Hl Hst r'. assert (Hin : r ∈ sb_schedules (ps_db s)) by (by eapply list_elem_of_lookup_2, Hs).
  unfold Start, recoverStaleRunning, mbind, Proc_bind. rewrite store_call_calm by done. cbn [gets fst snd].
  rewrite with_same_db.
  destruct (recover_each_at (GetActiveSchedules (ps_db s)) i r None s Hs Ht) as (s1 & Hrec & Ht1 & Hs1).
  pose proof (keys_kept _ s (recover_each_guarantee (GetActiveSchedules (ps_db s))) (as_idle _ _ _ _ Hs) Hk) as Hk1.
  rewrite Hrec in Hk1 |- *. unfold recovered in Hs1. rewrite recovers_active in Hs1 by done. fold r' in Hs1.
  destruct (sync_at now i r' None s1 Hs1 Hk1) as [gen Hgen].
  - unfold r'. by destruct (stale _).
  - unfold r', processing. destruct (stale _); [done|by rewrite Hst].
  - by rewrite Ht1.
  - by exists (gen + 1).
Qed.

End Recovery.

(** ** What becomes of a one-time schedule *)

(** A timer armed for a schedule of this time. *)
Definition armed_for (now t : Z) (sched : Schedule) (job : option jobEntry) : Prop :=
  ∃ e, job = Some e ∧ je_armed e = true ∧ je_isOneTime e = true
    ∧ je_fingerprint e = scheduleFingerprint sched
    ∧ je_fireAt e = now + Z.max (time_Sub t now) oneTimeRetryDelay.

Lemma register_one_time `{Calendar} now sched gen t :
  sc_ScheduleType sched = SCHEDULE_TYPE_ONE_TIME →
  ParseScheduleTime (sc_StartDate sched) (sc_StartTime sched) (sc_Timezone sched) = Some t →
  armed_for now t sched (register_job now sched gen).
Proof.
  intros Hty Hp. unfold register_job. rewrite Hty, Z.eqb_refl, Hp. simpl. eexists. split; [done|]. done.
Qed.

Lemma one_time_done `{Calendar} now sched t :
  sc_ScheduleType sched = SCHEDULE_TYPE_ONE_TIME →
  ParseScheduleTime (sc_StartDate sched) (sc_StartTime sched) (sc_Timezone sched) = Some t → t <= now →
  is_Some (ComputeNextRun sched now) → ComputeNextRun sched now = Some None.
Proof.
  intros Hty Hp Ht. unfold ComputeNextRun, computeNextRunOneTime. rewrite Hty, Z.eqb_refl, Hp. cbn [mbind option_bind].
  destruct (before_deadline sched t) as [[u|]|] eqn:Eb; [| done | by intros [? ?]]. intros _. simpl.
  unfold before_deadline in Eb. assert (u = t) as ->.
  { destruct (sc_EndDate sched == ""); [by simplify_eq|].
    destruct (parseDateInLocation _ _) as [[d l]|]; [|done]. simpl in Eb. destruct (_ <? t); by simplify_eq. }
  by rewrite (proj2 (Z.ltb_ge now t)).
Qed.


(** ** The claim that fails *)

(** A job whose timer has fired. *)
Definition spent (e : jobEntry) : jobEntry :=
  {| je_isOneTime := je_isOneTime e; je_fingerprint := je_fingerprint e; je_generation := je_generation e;
     je_armed := negb (je_isOneTime e); je_fireAt := je_fireAt e |}.

Lemma syncs_keep `{Calendar} now i r e n s :
  at_state i r (Some e) s → ps_turns s = [] → keys_ok (ps_db s) → live r = true → rw_Status r = statusActive →
  je_fingerprint e = scheduleFingerprint (convertToProtoSchedule r) →
  let s' := Nat.iter n (λ s, (syncSchedules now s).2) s in
  at_state i r (Some e) s' ∧ ps_turns s' = [] ∧ keys_ok (ps_db s').
Proof.
  intros Hs Ht Hk Hl Hst Hf. induction n as [|n (Hs' & Ht' & Hk')]; [done|]. simpl.
  set (s' := Nat.iter n _ s) in *. split_and!.
  - destruct (sync_at now i r (Some e) s' Hs' Hk' Hl) as [gen Hgen]; [unfold processing; by rewrite Hst|by rewrite Ht'|].
    unfold sync_entry in Hgen. by rewrite bool_decide_eq_true_2 in Hgen by done.
  - unfold syncSchedules, mbind, Proc_bind. by rewrite store_call_calm.
  - apply keys_kept; [apply sync_guarantee|apply Hs'|done].
Qed.

(** A one-time schedule whose claim fails once stays active with a spent timer,
    through any number of syncs: nothing runs it until the processor restarts. *)
Theorem failed_claim_is_not_retried `{Calendar} `{DeviceSets} now now' i r e s turn n :
  at_state i r (Some e) s → keys_ok (ps_db s) → live r = true → rw_Status r = statusActive →
  je_isOneTime e = true → je_fingerprint e = scheduleFingerprint (convertToProtoSchedule r) →
  ps_turns s = [turn] → tn_fails turn = true →
  let s' := Nat.iter n (λ s, (syncSchedules now' s).2) (fire now (rw_ID r) s).2 in
  at_state i r (Some (spent e)) s' ∧ je_armed (spent e) = false.
Proof.
  intros Hs Hk Hl Hst Hone Hf Hts Hfail s'. split; [|simpl; by rewrite Hone].
  unfold s', fire, update_jobs, executeSchedule, currentJobGeneration, mbind, Proc_bind. cbv beta iota zeta.
  rewrite store_call_eq. set (s0 := set_field ps_shared _ s).
  assert (Hs0 : at_state i r (Some (spent e)) s0).
  { destruct Hs as [Hi Hr Hj]. split; [done|done|]. unfold s0, ps_jobs in *. simpl.
    rewrite lookup_alter_eq. unfold ps_jobs. by rewrite Hj. }
  assert (tn_fails (next_turn (ps_turns s0)) = true) as -> by (unfold s0, next_turn; simpl; by rewrite Hts).
  rewrite after_turn_idle by apply Hs0. cbn [fst snd mret Proc_ret].
  apply syncs_keep; [|unfold s0, drop_turn; simpl; by rewrite Hts|done|done|done|done].
  destruct Hs0 as [Hi Hr Hj]. split; [by apply idle_tail|done|done].
Qed.
