(* ===== verification/ScheduleExamples.v ===== *)
(** * Schedules of a small fleet

    A calendar with one zone and one cron expression, a fleet of three miners and
    the schedules of an organization, on which the theorems with hypotheses are
    applied; and the concrete runs behind the findings. *)

From S2P Require Import Prelude GoSort Errors RolloutBehavior GoTime CommandFilter ScheduleCron.
From S2P Require Import ScheduleStore ScheduleService ScheduleProcessor.
From S2P Require Import ScheduleFleetFacts ScheduleStoreFacts.
From S2P Require Import SchedulePriorityFacts ScheduleInvariant ScheduleProcessorFacts.
From S2P Require Import ScheduleRetryFacts.
#[local] Open Scope string_scope.
#[local] Open Scope list_scope.
#[local] Open Scope Z_scope.
#[local] Open Scope go_scope.

(** ** A calendar *)

Definition daily_at_seven : string := "CRON_TZ=UTC 0 7 * * *".

(** The first seven o'clock after an instant. *)
Definition next_seven (t : Z) : Z := (((t / Second - 25200) / 86400 + 1) * 86400 + 25200) * Second.

#[export] Instance demo_calendar : Calendar := {
  LoadLocation tz := if tz == "UTC" then Some UTC else None;
  cronNext expr := if expr == daily_at_seven then Some next_seven else None
}.

#[export] Instance demo_cron : CronLaws.
Proof.
  refine {| activation expr u := expr = daily_at_seven ∧ ∃ d, u = (d * 86400 + 25200) * Second |}.
  - intros expr u [_ [d ->]]. eauto.
  - intros expr next t. unfold cronNext, demo_calendar. case_if; [|done]. intros [= <-]. unfold next_seven.
    assert (Hk : t / Second * Second <= t < (t / Second + 1) * Second) by (unfold Second; div_lia).
    revert Hk. generalize (t / Second) as k. intros k Hk.
    assert (Hd : (k - 25200) / 86400 * 86400 <= k - 25200 < ((k - 25200) / 86400 + 1) * 86400) by div_lia.
    revert Hd. generalize ((k - 25200) / 86400) as e. intros e Hd. unfold Second in *.
    split; [by eauto|]. split; [lia|]. intros u [_ [d ->]] Hu. lia.
Defined.

Definition daily : ScheduleRecurrence :=
  {| Frequency := RECURRENCE_FREQUENCY_DAILY; Interval := 1; DaysOfWeek := []; DayOfMonth := None |}.

(** ** Schedules *)

Definition row (id : Z) (action : string) (cfg : option Z) (type : string) (rec : option ScheduleRecurrence)
    (status : string) (last : option Z) : ScheduleRow :=
  {| rw_ID := id; rw_OrgID := 1; rw_Name := "s"; rw_Action := action; rw_ActionConfig := cfg;
     rw_ScheduleType := type; rw_Recurrence := rec;
     rw_StartDate := {| d_year := 2026; d_month := 1; d_day := 10 |}; rw_StartTime := "07:00";
     rw_EndTime := None; rw_EndDate := Some {| d_year := 2026; d_month := 1; d_day := 20 |};
     rw_Timezone := "UTC"; rw_Status := status; rw_Priority := id; rw_CreatedBy := 1; rw_Deleted := false;
     rw_LastRunAt := last; rw_NextRunAt := None |}.

Definition window : ScheduleRow :=
  (row 1 power_target (Some 2) "recurring" (Some daily) statusRunning (Some 1)) <| rw_EndTime := Some "09:00" |>.
Definition reboot_once : ScheduleRow := row 2 "reboot" None "one_time" None statusActive None.
Definition paused_sleep : ScheduleRow := row 3 "sleep" None "recurring" (Some daily) statusPaused None.
Definition completed_reboot : ScheduleRow := row 4 "reboot" None "one_time" None statusCompleted None.

Definition target_row (id : Z) (type tid : string) : ScheduleTargetRow :=
  {| tr_ScheduleID := id; tr_TargetType := type; tr_TargetID := tid |}.

Definition demo_db : ScheduleDB :=
  {| sb_schedules := [window; reboot_once; paused_sleep; completed_reboot];
     sb_targets := [target_row 1 "rack" "5"; target_row 2 "miner" "m1"; target_row 2 "building" "7"]; sb_nextval := 5 |}.

Definition device (id : Z) (name : string) (building : option Z) : DeviceEntry :=
  {| dv_ID := id; dv_Identifier := name; dv_OrgID := 1; dv_SiteID := Some 1; dv_BuildingID := building;
     dv_Deleted := false; dv_Active := true; dv_PairingStatus := "PAIRED" |}.

Definition demo_fleet : FleetTables :=
  {| ft_devices := [device 1 "m1" None; device 2 "m2" (Some 7); device 3 "m3" None];
     ft_sets := [{| ds_ID := 5; ds_OrgID := 1; ds_Deleted := false |}];
     ft_memberships := [{| dm_SetID := 5; dm_SetType := "rack"; dm_DeviceID := 3; dm_DeviceIdentifier := "m3"; dm_OrgID := 1 |}];
     ft_racks := [{| rk_SetID := 5; rk_BuildingID := Some 7 |}] |}.

#[export] Instance demo_sets : DeviceSets := fleet_sets demo_fleet.

Example demo_expansion :
  Expand 1 (targets_of 1 2 demo_db) [] = Some ["m1"; "m2"; "m3"] ∧
  Expand 1 (targets_of 1 1 demo_db) [] = Some ["m3"].
Proof. split; vm_compute; reflexivity. Qed.

Lemma demo_memberships : memberships_in_org demo_fleet.
Proof. intros m ds ->%list_elem_of_singleton ->%list_elem_of_singleton _. reflexivity. Defined.

Lemma demo_targets_ok st : st ∈ sb_targets demo_db → target_row_ok st = true.
Proof.
  intros Hst. repeat (apply elem_of_cons in Hst as [->|Hst]; [vm_compute; reflexivity|]).
  by apply elem_of_nil in Hst.
Defined.

Lemma overlaps_are_the_expansion_witness :
  ∃ rows, GetRunningPowerTargetScheduleOverlaps demo_fleet demo_db 1 ["m1"; "m3"] = Ok rows ∧ length rows = 1%nat.
Proof.
  destruct (overlaps_are_the_expansion demo_fleet demo_db 1 ["m1"; "m3"] demo_memberships demo_targets_ok)
    as (rows & Hrows & _).
  exists rows. split; [exact Hrows|]. vm_compute in Hrows. by injection Hrows as <-.
Defined.

(** A power target sent by hand to two miners: the one in the running window is
    skipped. *)
Definition by_hand : CommandFilterInput :=
  {| cf_CommandType := SetPowerTargetType; cf_OrganizationID := 1; cf_Actor := ActorUser;
     cf_Source := {| so_ScheduleID := 0; so_SchedulePriority := 0 |}; cf_DeviceIdentifiers := ["m1"; "m3"] |}.

Lemma held_devices_are_protected_witness :
  ∃ kept skipped,
    applyFilters (registered_filters demo_fleet demo_db (λ _, Ok ["m2"]) (λ _ _, Ok [])) by_hand = Ok (kept, skipped)
    ∧ kept = ["m1"] ∧ kept ++ map ck_DeviceIdentifier skipped ≡ₚ cf_DeviceIdentifiers by_hand.
Proof.
  eexists _, _. split; [vm_compute; reflexivity|]. split; [reflexivity|].
  refine (proj1 (held_devices_are_protected demo_fleet demo_db (λ _, Ok ["m2"]) (λ _ _, Ok []) by_hand _ _
    demo_memberships demo_targets_ok _)).
  vm_compute. reflexivity.
Defined.

(** ** Times *)

Definition noon_jan_10 : Z := (day_number 2026 1 10 * 86400 + 43200) * Second.


(** Chicago's zone around January 2026. *)
Definition chicago : Location := {| loc_first := -21600; loc_tx := [] |}.

Lemma endOfDay_is_the_last_second_witness :
  local_date chicago (endOfDay chicago noon_jan_10) = local_date chicago noon_jan_10.
Proof.
  refine (proj1 (endOfDay_is_the_last_second chicago noon_jan_10 (-21600) _ _ _)); vm_compute; reflexivity.
Defined.

(** Havana, where summer time begins at midnight: on 2026-03-08 the clock goes
    from 00:00 to 01:00. *)
Definition havana : Location := {| loc_first := -18000; loc_tx := [(day_number 2026 3 8 * 86400 + 18000, -14400)] |}.

(** The end of the day before the change is taken an hour early: at 22:59:59. *)
Theorem endOfDay_before_a_midnight_gap :
  let t := (day_number 2026 3 7 * 86400 + 43200) * Second in
  local_date havana (endOfDay havana t) = local_date havana t
  ∧ wall havana (endOfDay havana t) mod Day = 22 * 3600 + 59 * 60 + 59
  ∧ local_date havana (endOfDay havana t + Second) = local_date havana t.
Proof. vm_compute. done. Qed.

(** ** Storage *)

Definition demo_message : Schedule :=
  {| sc_Id := 0; sc_Name := "nightly"; sc_Action := 1; sc_ActionConfig := Some 2; sc_ScheduleType := 2;
     sc_Recurrence := Some daily; sc_StartDate := "2026-01-10"; sc_StartTime := "7:05"; sc_EndTime := "23:00:30";
     sc_EndDate := ""; sc_Timezone := "UTC"; sc_Status := 0; sc_Priority := 5; sc_CreatedBy := 1;
     sc_LastRunAt := None; sc_NextRunAt := None; sc_Targets := [] |}.

Lemma stored_schedule_reads_back_witness :
  ∃ co, columns_of demo_message = Some co ∧ co_StartTime co = "07:05"
    ∧ columns_of (convertToProtoSchedule (new_row 5 1 demo_message co)) = Some co.
Proof.
  eexists. split; [vm_compute; reflexivity|]. split; [vm_compute; reflexivity|].
  refine (proj2 (stored_schedule_reads_back 5 1 demo_message _ _ _)); vm_compute; done.
Defined.

(** ** The tables *)

Ltac each_row H := repeat (apply elem_of_cons in H as [->|H]); [..|by apply elem_of_nil in H].

Lemma demo_keys : keys_ok demo_db.
Proof.
  split.
  - apply (bool_decide_unpack _). vm_compute. exact I.
  - intros r Hr. each_row Hr; vm_compute; repeat split; congruence.
  - intros r x Hr Hx _ _ _. each_row Hr; each_row Hx; done.
Defined.

Lemma demo_rows_ok r : r ∈ sb_schedules demo_db → row_ok r.
Proof.
  intros Hr. each_row Hr; split; try (vm_compute; reflexivity); try (apply (bool_decide_unpack _); vm_compute; exact I);
    cbn; try done; try (split; [done|by right]); intros _; by exists daily.
Defined.

Lemma demo_tables : tables_ok demo_db.
Proof.
  split; [exact demo_keys|exact demo_rows_ok|exact demo_targets_ok|].
  apply (bool_decide_unpack _). vm_compute. exact I.
Defined.

Lemma reorder_accepts_exactly_complete_orders_witness :
  order 1 (ReorderSchedules 1 [3; 4; 2; 1] demo_db).2 = [3; 2; 1; 4].
Proof.
  destruct (reorder_accepts_exactly_complete_orders 1 [3; 4; 2; 1] demo_db demo_keys) as [Hok _].
  assert (Hc : complete_order 1 [3; 4; 2; 1] demo_db).
  { split; [apply (bool_decide_unpack _); vm_compute; exact I|].
    split; intros id Hid; each_row Hid; apply (bool_decide_unpack _); vm_compute; exact I. }
  destruct (Hok Hc) as (-> & Ho & _). cbn [snd]. rewrite Ho. vm_compute. reflexivity.
Defined.

Definition demo_shared : Shared := {| sh_db := demo_db; sh_jobs := ∅; sh_nextGen := 0 |}.

(** The operator pauses the window, and the processor starts. *)
Definition paused_window : Shared := demo_shared <| sh_db := (PauseSchedule 1 1 demo_db).2 |>.
Definition demo_state (sh : Shared) (turns : list Turn) : PState :=
  {| ps_shared := sh; ps_turns := turns; ps_sent := [] |}.

Lemma schedule_tables_stay_well_formed_witness :
  tables_ok (ps_db (Start noon_jan_10 (demo_state paused_window [quiet_turn])).2).
Proof.
  refine (schedule_tables_stay_well_formed demo_shared _ _ demo_tables).
  eapply rtc_l; [apply step_serve; exists 1, noon_jan_10, (PauseSchedule 1 1 demo_db).2;
    split; [exact (serve_pause 1 noon_jan_10 1 demo_db)|reflexivity]|].
  eapply rtc_l; [|apply rtc_refl].
  refine (step_run noon_jan_10 (_ ← Start noon_jan_10; mret tt) (demo_state paused_window [quiet_turn]) (run_start _) _).
  apply Forall_singleton. intros sh. apply rtc_refl.
Defined.

Lemma stopped_schedules_are_left_alone_witness :
  sb_schedules (ps_db (executeSchedule noon_jan_10 3 (demo_state demo_shared [])).2) !! 2%nat = Some paused_sleep.
Proof.
  refine (proj1 (stopped_schedules_are_left_alone noon_jan_10 (executeSchedule noon_jan_10 3)
    (demo_state demo_shared []) 2 paused_sleep (run_execute _ _) _ _ _)); [reflexivity|reflexivity|].
  apply Forall_nil_2.
Defined.

(** ** Executions *)

Definition failing : Turn := {| tn_others := λ s, s; tn_fails := true; tn_result := no_outcome |}.

(** The one-time reboot is executed: one command, to the three miners. *)
Example reboot_is_sent :
  let s := (executeSchedule noon_jan_10 2 (demo_state demo_shared [])).2 in
  ps_sent s = [{| se_Source := {| so_ScheduleID := 2; so_SchedulePriority := 2 |}; se_Org := 1;
                  se_Devices := ["m1"; "m2"; "m3"]; se_Command := Reboot |}]
  ∧ rw_Status <$> sb_schedules (ps_db s) !! 1%nat = Some statusCompleted.
Proof. vm_compute. done. Qed.


(** ** The end of a window that began late *)

(** A one-time window from 22:00 to 06:00 that was due on January 10 and ran, after
    a restart, at 00:30 on January 11. *)
Definition overnight : Schedule :=
  (convertToProtoSchedule window) <| sc_ScheduleType := SCHEDULE_TYPE_ONE_TIME |> <| sc_StartTime := "22:00" |>
    <| sc_EndTime := "06:00" |>.

(** The window that began on time ends at 06:00 the next morning; the one that
    began after midnight ends a day later, at 06:00 on January 12. *)
Theorem late_overnight_window_ends_a_day_late :
  endBoundary overnight ((day_number 2026 1 10 * 86400 + 22 * 3600) * Second) = Some (day_number 2026 1 11 * 86400 + 6 * 3600)
  ∧ endBoundary overnight ((day_number 2026 1 11 * 86400 + 1800) * Second) = Some (day_number 2026 1 12 * 86400 + 6 * 3600).
Proof. split; vm_compute; reflexivity. Qed.
