(* ===== verification/GoBase64.v ===== *)
(** * Base64 for URLs, without padding

    [base64.RawURLEncoding]: encoding, decoding, and that decoding undoes encoding. The
    decoder skips line breaks anywhere and ignores the unused low bits of the last digit,
    as the library's does outside its strict mode. *)

From S2P Require Import Prelude.
#[local] Open Scope Z_scope.
#[local] Open Scope list_scope.
#[local] Open Scope go_scope.

(** The alphabet of base64 for URLs. *)
Definition base64_digit (d : Z) : Z :=
  if d <? 26 then 65 + d else if d <? 52 then 97 + (d - 26) else if d <? 62 then 48 + (d - 52)
  else if d =? 62 then 45 else 95.

(** [EncodeToString]: no padding. *)
Fixpoint base64_raw (l : list Z) : list Z :=
  match l with
  | a :: b :: c :: rest =>
      map base64_digit [Z.shiftr a 2; Z.lor (Z.shiftl (Z.land a 3) 4) (Z.shiftr b 4);
                        Z.lor (Z.shiftl (Z.land b 15) 2) (Z.shiftr c 6); Z.land c 63] ++ base64_raw rest
  | [a; b] => map base64_digit [Z.shiftr a 2; Z.lor (Z.shiftl (Z.land a 3) 4) (Z.shiftr b 4); Z.shiftl (Z.land b 15) 2]
  | [a] => map base64_digit [Z.shiftr a 2; Z.shiftl (Z.land a 3) 4]
  | [] => []
  end.

Definition base64_value (c : Z) : option Z :=
  if (65 <=? c) && (c <=? 90) then Some (c - 65)
  else if (97 <=? c) && (c <=? 122) then Some (c - 97 + 26)
  else if (48 <=? c) && (c <=? 57) then Some (c - 48 + 52)
  else if c =? 45 then Some 62 else if c =? 95 then Some 63 else None.

Definition byte_of (z : Z) : Z := z mod 256.

(** Four digits make three bytes; a last group has two or three digits. *)
Fixpoint base64_groups (l : list Z) : option (list Z) :=
  match l with
  | [] => Some []
  | a :: b :: c :: d :: rest =>
      a ← base64_value a; b ← base64_value b; c ← base64_value c; d ← base64_value d; rest ← base64_groups rest;
      Some (byte_of (Z.lor (Z.shiftl a 2) (Z.shiftr b 4)) :: byte_of (Z.lor (Z.shiftl b 4) (Z.shiftr c 2))
            :: byte_of (Z.lor (Z.shiftl c 6) d) :: rest)
  | [a; b; c] =>
      a ← base64_value a; b ← base64_value b; c ← base64_value c;
      Some [byte_of (Z.lor (Z.shiftl a 2) (Z.shiftr b 4)); byte_of (Z.lor (Z.shiftl b 4) (Z.shiftr c 2))]
  | [a; b] => a ← base64_value a; b ← base64_value b; Some [byte_of (Z.lor (Z.shiftl a 2) (Z.shiftr b 4))]
  | [_] => None
  end.

Definition line_break (c : Z) : bool := (c =? 10) || (c =? 13).

(** [DecodeString] *)
Definition base64_decode (l : list Z) : option (list Z) := base64_groups (List.filter (λ c, negb (line_break c)) l).

(** ** The round trip *)

Lemma base64_value_digit d : 0 <= d < 64 → base64_value (base64_digit d) = Some d ∧ line_break (base64_digit d) = false.
Proof.
  intros Hd. unfold base64_digit, base64_value, line_break.
  destruct (Z.ltb_spec d 26); [|destruct (Z.ltb_spec d 52); [|destruct (Z.ltb_spec d 62); [|destruct (Z.eqb_spec d 62)]]];
    repeat match goal with |- context [?x <=? ?y] => destruct (Z.leb_spec x y); try lia end;
    repeat match goal with |- context [?x =? ?y] => destruct (Z.eqb_spec x y); try lia end;
    simpl; split; try done; f_equal; lia.
Qed.

(** Sextets of bytes: shifts and masks as division and remainder. *)
Lemma land_ones_mod a n m : m = 2 ^ n - 1 → 0 <= n → Z.land a m = a mod 2 ^ n.
Proof. intros -> Hn. rewrite <- Z.land_ones by done. f_equal. rewrite Z.ones_equiv. lia. Qed.

Lemma lor_add a b n : 0 <= n → 0 <= b < 2 ^ n → Z.lor (a * 2 ^ n) b = a * 2 ^ n + b.
Proof.
  intros Hn Hb. symmetry. rewrite <- Z.lxor_lor; [apply Z.add_nocarry_lxor|].
  all: apply Z.bits_inj'; intros i Hi; rewrite Z.land_spec, Z.bits_0;
    destruct (Z.lt_ge_cases i n) as [Hlt|Hge];
    [rewrite Z.mul_pow2_bits_low by done; done|];
    apply andb_false_iff; right; rewrite <- (Z.mod_small b (2 ^ n)) by done; by rewrite Z.mod_pow2_bits_high by lia.
Qed.

Definition byte (b : Z) : Prop := 0 <= b < 256.

Lemma sextets a b c : byte a → byte b → byte c →
  Z.shiftr a 2 = a / 4 ∧ Z.lor (Z.shiftl (Z.land a 3) 4) (Z.shiftr b 4) = a mod 4 * 16 + b / 16
  ∧ Z.lor (Z.shiftl (Z.land b 15) 2) (Z.shiftr c 6) = b mod 16 * 4 + c / 64 ∧ Z.land c 63 = c mod 64.
Proof.
  unfold byte. intros Ha Hb Hc.
  rewrite (land_ones_mod a 2 3), (land_ones_mod b 4 15), (land_ones_mod c 6 63) by lia.
  rewrite !Z.shiftr_div_pow2, !Z.shiftl_mul_pow2 by lia. rewrite !lor_add; [done|lia|..|lia|].
  - change (2 ^ 6) with 64. change (2 ^ 2) with 4. split; [apply Z.div_pos; lia|apply Z.div_lt_upper_bound; lia].
  - change (2 ^ 4) with 16. split; [apply Z.div_pos; lia|apply Z.div_lt_upper_bound; lia].
Qed.

Lemma unsextets x y z w : 0 <= x < 64 → 0 <= y < 64 → 0 <= z < 64 → 0 <= w < 64 →
  byte_of (Z.lor (Z.shiftl x 2) (Z.shiftr y 4)) = x * 4 + y / 16
  ∧ byte_of (Z.lor (Z.shiftl y 4) (Z.shiftr z 2)) = y mod 16 * 16 + z / 4
  ∧ byte_of (Z.lor (Z.shiftl z 6) w) = z mod 4 * 64 + w.
Proof.
  intros Hx Hy Hz Hw. unfold byte_of. rewrite !Z.shiftr_div_pow2, !Z.shiftl_mul_pow2 by lia.
  rewrite !lor_add by (first [lia|split; [apply Z.div_pos; lia|apply Z.div_lt_upper_bound; lia]]).
  change (2 ^ 2) with 4. change (2 ^ 4) with 16. change (2 ^ 6) with 64.
  Z.div_mod_to_equations. lia.
Qed.

Ltac sextet := Z.div_mod_to_equations; lia.

(** The digits of one group decode to its bytes. *)
Lemma group_bytes a b c : byte a → byte b → byte c →
  let x := Z.shiftr a 2 in let y := Z.lor (Z.shiftl (Z.land a 3) 4) (Z.shiftr b 4) in
  let z := Z.lor (Z.shiftl (Z.land b 15) 2) (Z.shiftr c 6) in let w := Z.land c 63 in
  (0 <= x < 64 ∧ 0 <= y < 64 ∧ 0 <= z < 64 ∧ 0 <= w < 64)
  ∧ byte_of (Z.lor (Z.shiftl x 2) (Z.shiftr y 4)) = a
  ∧ byte_of (Z.lor (Z.shiftl y 4) (Z.shiftr z 2)) = b
  ∧ byte_of (Z.lor (Z.shiftl z 6) w) = c.
Proof.
  intros Ha Hb Hc x y z w. destruct (sextets a b c Ha Hb Hc) as (Hx & Hy & Hz & Hw). unfold byte in *.
  assert (0 <= x < 64 ∧ 0 <= y < 64 ∧ 0 <= z < 64 ∧ 0 <= w < 64) as (Bx & By & Bz & Bw).
  { unfold x, y, z, w. rewrite Hx, Hy, Hz, Hw. sextet. }
  split; [done|]. destruct (unsextets x y z w Bx By Bz Bw) as (-> & -> & ->).
  unfold x, y, z, w. rewrite Hx, Hy, Hz, Hw. split_and!; sextet.
Qed.

(** Line breaks are not digits. *)
Lemma base64_digit_kept d : 0 <= d < 64 → negb (line_break (base64_digit d)) = true.
Proof. intros Hd. by rewrite (proj2 (base64_value_digit d Hd)). Qed.

Lemma base64_digit_value d : 0 <= d < 64 → base64_value (base64_digit d) = Some d.
Proof. intros Hd. exact (proj1 (base64_value_digit d Hd)). Qed.

Lemma base64_raw_decode l : Forall byte l → base64_decode (base64_raw l) = Some l.
Proof.
  unfold base64_decode. induction l as [l IH] using (induction_ltof1 _ (@length Z)). intros Hl.
  assert (byte 0) as H0 by (unfold byte; lia).
  destruct l as [|a [|b [|c rest]]]; [done|..].
  - apply Forall_cons in Hl as [Ha _]. destruct (group_bytes a 0 0 Ha H0 H0) as ((Bx & By & _) & Ea & _).
    cbn [base64_raw map]. change (Z.shiftr 0 4) with 0 in *. rewrite Z.lor_0_r in *.
    simpl List.filter. rewrite !base64_digit_kept by done. cbn [base64_groups].
    rewrite !base64_digit_value by done. simpl. by rewrite Ea.
  - apply Forall_cons in Hl as [Ha Hl]. apply Forall_cons in Hl as [Hb _].
    destruct (group_bytes a b 0 Ha Hb H0) as ((Bx & By & Bz & _) & Ea & Eb & _).
    cbn [base64_raw map]. change (Z.shiftr 0 6) with 0 in *. rewrite Z.lor_0_r in Bz, Eb.
    simpl List.filter. rewrite !base64_digit_kept by done. cbn [base64_groups].
    rewrite !base64_digit_value by done. simpl. by rewrite Ea, Eb.
  - apply Forall_cons in Hl as [Ha Hl]. apply Forall_cons in Hl as [Hb Hl]. apply Forall_cons in Hl as [Hc Hl].
    destruct (group_bytes a b c Ha Hb Hc) as ((Bx & By & Bz & Bw) & Ea & Eb & Ec).
    cbn [base64_raw map app]. simpl List.filter. rewrite !base64_digit_kept by done. cbn [base64_groups].
    rewrite !base64_digit_value by done. cbn [mbind option_bind].
    rewrite IH by (done || (unfold ltof; simpl; lia)). cbn [mbind option_bind]. by rewrite Ea, Eb, Ec.
Qed.
