(* ===== verification/AuthzPermissions.v ===== *)
(** * Permissions

    The permission catalog and the built-in roles ([internal/domain/authz/catalog.go],
    [builtin.go]), the effective permissions of a user ([effective.go],
    [site_scope.go]) and the gates of the request handlers
    ([internal/handlers/middleware/permission.go]). A pointer to effective
    permissions is an [option]; a Go map from keys to [true] is a set. *)

From S2P Require Import Prelude GoSort Errors.
#[local] Open Scope string_scope.
#[local] Open Scope list_scope.
#[local] Open Scope Z_scope.
#[local] Open Scope go_scope.

(** ** The catalog *)

Definition PermFleetRead := "fleet:read".
Definition PermMinerRead := "miner:read".
Definition PermMinerBlinkLED := "miner:blink_led".
Definition PermMinerReboot := "miner:reboot".
Definition PermMinerStartMining := "miner:start_mining".
Definition PermMinerStopMining := "miner:stop_mining".
Definition PermMinerUpdatePools := "miner:update_pools".
Definition PermMinerUpdateWorkerName := "miner:update_worker_names".
Definition PermMinerRename := "miner:rename".
Definition PermMinerDelete := "miner:delete".
Definition PermMinerSetCoolingMode := "miner:set_cooling_mode".
Definition PermMinerSetPowerTarget := "miner:set_power_target".
Definition PermMinerFirmwareUpdate := "miner:firmware_update".
Definition PermMinerDownloadLogs := "miner:download_logs".
Definition PermMinerUpdatePassword := "miner:update_password".
Definition PermMinerUnpair := "miner:unpair".
Definition PermMinerPair := "miner:pair".
Definition PermMinerExportCSV := "miner:export_csv".
Definition PermRackRead := "rack:read".
Definition PermRackManage := "rack:manage".
Definition PermSiteRead := "site:read".
Definition PermSiteManage := "site:manage".
Definition PermActivityRead := "activity:read".
Definition PermServerlogRead := "serverlog:read".
Definition PermCurtailmentRead := "curtailment:read".
Definition PermCurtailmentManage := "curtailment:manage".
Definition PermCurtailmentIngest := "curtailment:ingest".
Definition PermPoolRead := "pool:read".
Definition PermPoolManage := "pool:manage".
Definition PermScheduleRead := "schedule:read".
Definition PermScheduleManage := "schedule:manage".
Definition PermFleetnodeRead := "fleetnode:read".
Definition PermFleetnodeManage := "fleetnode:manage".
Definition PermAlertRead := "alert:read".
Definition PermAlertManage := "alert:manage".
Definition PermAPIKeyManage := "apikey:manage".
Definition PermUserRead := "user:read".
Definition PermUserManage := "user:manage".
Definition PermRoleManage := "role:manage".
Definition PermInstanceUpdate := "instance:update".
Definition PermMaintenanceRead := "maintenance:read".
Definition PermMaintenanceManage := "maintenance:manage".

Definition ResourceFleet := "fleet".
Definition ResourceMiner := "miner".
Definition ResourceRack := "rack".
Definition ResourceSite := "site".
Definition ResourceActivity := "activity".
Definition ResourceServerLog := "serverlog".
Definition ResourceCurtailment := "curtailment".
Definition ResourcePool := "pool".
Definition ResourceSchedule := "schedule".
Definition ResourceFleetNode := "fleetnode".
Definition ResourceAlert := "alert".
Definition ResourceAPIKey := "apikey".
Definition ResourceUser := "user".
Definition ResourceRole := "role".
Definition ResourceInstance := "instance".
Definition ResourceMaintenance := "maintenance".

Record CatalogEntry := { ce_Key : string; ce_Description : string; ce_Resource : string }.

#[local] Notation entry k r d := {| ce_Key := k; ce_Description := d; ce_Resource := r |}.

Definition catalog : list CatalogEntry :=
  [ entry PermFleetRead ResourceFleet
      "View the dashboard, live telemetry, and fleet diagnostics."
  ; entry PermMinerRead ResourceMiner
      "View a miner's details, status, and the fleet-wide miner list. Required for every other miner action."
  ; entry PermMinerBlinkLED ResourceMiner
      "Flash a miner's locator LED."
  ; entry PermMinerReboot ResourceMiner
      "Reboot a miner."
  ; entry PermMinerStartMining ResourceMiner
      "Start mining on a miner."
  ; entry PermMinerStopMining ResourceMiner
      "Stop mining on a miner."
  ; entry PermMinerUpdatePools ResourceMiner
      "Change a miner's mining pool configuration."
  ; entry PermMinerUpdateWorkerName ResourceMiner
      "Change a miner's worker names."
  ; entry PermMinerRename ResourceMiner
      "Rename a miner."
  ; entry PermMinerDelete ResourceMiner
      "Delete a miner from the fleet, unpairing the physical device."
  ; entry PermMinerSetCoolingMode ResourceMiner
      "Change a miner's cooling mode."
  ; entry PermMinerSetPowerTarget ResourceMiner
      "Change a miner's power target."
  ; entry PermMinerFirmwareUpdate ResourceMiner
      "Install firmware on a miner. Installs can reboot the device, so this also needs reboot access."
  ; entry PermMinerDownloadLogs ResourceMiner
      "Download diagnostic logs from a miner."
  ; entry PermMinerUpdatePassword ResourceMiner
      "Change a miner's local web interface password."
  ; entry PermMinerUnpair ResourceMiner
      "Unpair a miner from the fleet."
  ; entry PermMinerPair ResourceMiner
      "Discover, pair, and bulk-import miners into the fleet."
  ; entry PermMinerExportCSV ResourceMiner
      "Export the miner list as CSV."
  ; entry PermRackRead ResourceRack
      "View racks and device groups, including their members and layout."
  ; entry PermRackManage ResourceRack
      "Create, edit, and delete racks and device groups, and move miners between them."
  ; entry PermSiteRead ResourceSite
      "View sites and buildings."
  ; entry PermSiteManage ResourceSite
      "Create, edit, and delete sites and buildings, and assign racks and miners to them."
  ; entry PermActivityRead ResourceActivity
      "View the organization-wide activity log and export it as CSV."
  ; entry PermServerlogRead ResourceServerLog
      "View recent server logs across all organizations."
  ; entry PermCurtailmentRead ResourceCurtailment
      "View curtailment events and active status."
  ; entry PermCurtailmentManage ResourceCurtailment
      "Preview, start, stop, and override curtailment events, and manage profiles, automation rules, and dispatch sources."
  ; entry PermCurtailmentIngest ResourceCurtailment
      "Accept external curtailment dispatch signals. Not yet implemented."
  ; entry PermPoolRead ResourcePool
      "View saved mining pool configurations."
  ; entry PermPoolManage ResourcePool
      "Create, edit, delete, and validate saved mining pool configurations. Validation makes the server connect to a supplied address."
  ; entry PermScheduleRead ResourceSchedule
      "View scheduled miner actions."
  ; entry PermScheduleManage ResourceSchedule
      "Create, edit, pause, resume, reorder, and delete scheduled miner actions. Scheduling an action also needs permission to perform it."
  ; entry PermFleetnodeRead ResourceFleetNode
      "View fleet nodes, their paired miners, and discovered unpaired devices."
  ; entry PermFleetnodeManage ResourceFleetNode
      "Enroll, confirm, and revoke fleet nodes, pair miners on them, and run network scans."
  ; entry PermAlertRead ResourceAlert
      "View alert channels, rules, maintenance windows, and alert history."
  ; entry PermAlertManage ResourceAlert
      "Create, edit, test, and delete alert channels; create, edit, delete, pause, resume, and route alert rules; create, edit, and delete maintenance windows."
  ; entry PermAPIKeyManage ResourceAPIKey
      "List, create, and revoke API keys for the organization."
  ; entry PermUserRead ResourceUser
      "List users in the organization."
  ; entry PermUserManage ResourceUser
      "Create, deactivate, reset passwords, and reassign roles for users in the organization."
  ; entry PermRoleManage ResourceRole
      "Create, edit, and delete custom roles, and view all roles and permissions. Built-in roles cannot be modified."
  ; entry PermInstanceUpdate ResourceInstance
      "See available server updates, change the release channel, and apply server upgrades."
  ; entry PermMaintenanceRead ResourceMaintenance
      "View repair tickets, maintenance history, and parts inventory."
  ; entry PermMaintenanceManage ResourceMaintenance
      "Create, assign, update, and close repair tickets; manage parts inventory." ].

Definition AllPermissions : list string := map ce_Key catalog.

Definition AllPermissionsSorted : list string := stable_sort String.ltb AllPermissions.

Definition CatalogByResource : gmap string (list CatalogEntry) :=
  fold_left (λ groups e, <[ce_Resource e := default [] (groups !! ce_Resource e) ++ [e]]> groups) catalog ∅.

Fixpoint resource_order (seen : gset string) (entries : list CatalogEntry) : list string :=
  match entries with
  | [] => []
  | e :: rest =>
      if bool_decide (ce_Resource e ∈ seen) then resource_order seen rest
      else ce_Resource e :: resource_order ({[ ce_Resource e ]} ∪ seen) rest
  end.

Definition ResourceOrder : list string := resource_order ∅ catalog.

Definition Lookup (key : string) : option CatalogEntry := List.find (λ e, ce_Key e == key) catalog.

(** ** Built-in roles *)

Definition BuiltinKeySuperAdmin := "SUPER_ADMIN".
Definition BuiltinKeyAdmin := "ADMIN".
Definition BuiltinKeyFieldTech := "FIELD_TECH".

Inductive BuiltinReconcileMode := ReconcileFull | ReconcileAdditive.

#[export] Instance BuiltinReconcileMode_eq_dec : EqDecision BuiltinReconcileMode.
Proof. solve_decision. Defined.

Record BuiltinRoleSpec := {
  bs_Key : string;
  bs_Name : string;
  bs_Description : string;
  bs_Mode : BuiltinReconcileMode;
  bs_SeedPermissions : list string
}.

Definition adminSeedPermissions : list string :=
  List.filter (λ k, negb (bool_decide (k ∈ [PermRoleManage; PermInstanceUpdate]))) AllPermissions.

Definition fieldTechSeedPermissions : list string :=
  [PermFleetRead; PermMinerRead; PermMinerBlinkLED; PermMinerDownloadLogs; PermRackRead; PermRackManage;
   PermMaintenanceRead; PermMaintenanceManage].

Definition BuiltinRoles : list BuiltinRoleSpec :=
  [ {| bs_Key := BuiltinKeySuperAdmin; bs_Name := "SUPER_ADMIN";
       bs_Description := "Full system access. Cannot be modified.";
       bs_Mode := ReconcileFull; bs_SeedPermissions := AllPermissions |}
  ; {| bs_Key := BuiltinKeyAdmin; bs_Name := "ADMIN";
       bs_Description := "Org admin. Built-in role; cannot be modified.";
       bs_Mode := ReconcileAdditive; bs_SeedPermissions := adminSeedPermissions |}
  ; {| bs_Key := BuiltinKeyFieldTech; bs_Name := "FIELD_TECH";
       bs_Description := "Field tech. Read fleet data, blink the locator LED, download logs, manage racks. Built-in role; cannot be modified.";
       bs_Mode := ReconcileAdditive; bs_SeedPermissions := fieldTechSeedPermissions |} ].

(** ** Effective permissions *)

Definition ScopeOrg := "org".
Definition ScopeSite := "site".

Record Assignment := {
  as_AssignmentID : Z;
  as_ScopeType : string;
  as_SiteID : option Z;
  as_Permissions : list string
}.

#[export] Instance eta_Assignment : Eta Assignment := λ a,
  {| as_AssignmentID := as_AssignmentID a; as_ScopeType := as_ScopeType a; as_SiteID := as_SiteID a;
     as_Permissions := as_Permissions a |}.

(** The request's resource: no site is an action on the organization. *)
Definition ResourceContext : Type := option Z.

Record EffectivePermissions := { orgScope : gset string; bySite : gmap Z (gset string) }.

#[export] Instance eta_EffectivePermissions : Eta EffectivePermissions := λ e,
  {| orgScope := orgScope e; bySite := bySite e |}.

Definition add_assignment (out : EffectivePermissions) (a : Assignment) : EffectivePermissions :=
  if as_ScopeType a == ScopeOrg then
    out <| orgScope := orgScope out ∪ list_to_set (as_Permissions a) |>
  else if as_ScopeType a == ScopeSite then
    match as_SiteID a with
    | None => out
    | Some s =>
        out <| bySite := <[s := default ∅ (bySite out !! s) ∪ list_to_set (as_Permissions a)]> (bySite out) |>
    end
  else out.

Definition NewEffectivePermissions (assignments : list Assignment) : EffectivePermissions :=
  fold_left add_assignment assignments {| orgScope := ∅; bySite := ∅ |}.

Definition Has (e : option EffectivePermissions) (key : string) (rc : ResourceContext) : bool :=
  match e with
  | None => false
  | Some e =>
      match rc with
      | None => bool_decide (key ∈ orgScope e)
      | Some s =>
          match bySite e !! s with
          | Some siteKeys => bool_decide (key ∈ siteKeys)
          | None => bool_decide (key ∈ orgScope e)
          end
      end
  end.

(** Go visits the sites in an unspecified order and sorts what it collected. *)
Definition SiteScopeFor (e : option EffectivePermissions) (key : string) : bool * list Z :=
  match e with
  | None => (false, [])
  | Some e =>
      let orgWide := bool_decide (key ∈ orgScope e) in
      let listed (p : Z * gset string) :=
        let granted := bool_decide (key ∈ p.2) in
        (orgWide && negb granted) || (negb orgWide && granted) in
      (orgWide, stable_sort Z.ltb (map fst (List.filter listed (map_to_list (bySite e)))))
  end.

Definition HasOrgWide (e : option EffectivePermissions) (key : string) : bool :=
  match e with
  | None => false
  | Some e' =>
      bool_decide (key ∈ orgScope e')
      && forallb (λ p, Has e key (Some p.1)) (map_to_list (bySite e'))
  end.

(** [None] is the panic of reading the sites of a nil pointer. *)
Definition IsSubsumedBy (e other : option EffectivePermissions) : option bool :=
  match e with
  | None => Some true
  | Some e =>
      if negb (forallb (λ key, Has other key None) (elements (orgScope e))) then Some false
      else match other with
      | None => None
      | Some o =>
          let relevantSites := dom (bySite e) ∪ dom (bySite o) in
          Some (forallb (λ s,
            forallb (λ key, Has (Some o) key (Some s)) (elements (default (orgScope e) (bySite e !! s))))
            (elements relevantSites))
      end
  end.

Definition StrictlyDominates (e other : option EffectivePermissions) : option bool :=
  covers ← IsSubsumedBy other e;
  if covers : bool then negb <$> IsSubsumedBy e other else Some false.

Definition Keys (e : option EffectivePermissions) : list string :=
  match e with None => [] | Some e => stable_sort String.ltb (elements (orgScope e)) end.

(** ** Site scopes *)

Record AuthorizedSiteScope := { OrgWide : bool; SiteIDs : list Z }.

Definition Allows (s : AuthorizedSiteScope) (siteID : option Z) : bool :=
  match siteID with
  | None => OrgWide s
  | Some id =>
      let listed := existsb (λ x, x =? id) (SiteIDs s) in
      if OrgWide s then negb listed else listed
  end.

(** ** Gates *)

(** [session.Info]: the fields the gates and the services read. *)
Record Info := {
  in_AuthMethod : string;
  in_SessionID : string;
  in_UserID : Z;
  in_OrganizationID : Z;
  in_Actor : string
}.

#[export] Instance eta_Info : Eta Info := λ i,
  {| in_AuthMethod := in_AuthMethod i; in_SessionID := in_SessionID i; in_UserID := in_UserID i;
     in_OrganizationID := in_OrganizationID i; in_Actor := in_Actor i |}.

(** What the interceptor put in the request's context. *)
Record RequestContext := { cx_Info : option Info; cx_Effective : option EffectivePermissions }.

Definition internal_actors : list string := ["scheduler"; "curtailment"; "rollout_enforcement"].

(** The prefix the gates share: the session and, unless an internal actor is
    let through, the permissions of its user. *)
Definition gate (ctx : RequestContext) : result FleetError (Info * option EffectivePermissions) :=
  match cx_Info ctx with
  | None => Err NewUnauthenticatedError
  | Some info =>
      if in_Actor info != "" then
        if bool_decide (in_Actor info ∈ internal_actors) then Ok (info, None) else Err NewInternalError
      else match cx_Effective ctx with
      | None => Err NewInternalError
      | Some eff => Ok (info, Some eff)
      end
  end.

(** A gate that passes internal actors and otherwise asks [allowed]. *)
Definition require (ctx : RequestContext) (allowed : EffectivePermissions → bool) : result FleetError Info :=
  p ← gate ctx;
  match p.2 with
  | None => Ok p.1
  | Some eff => if allowed eff then Ok p.1 else Err NewForbiddenError
  end.

Definition RequirePermission (ctx : RequestContext) (key : string) (rc : ResourceContext) : result FleetError Info :=
  require ctx (λ eff, Has (Some eff) key rc).

Definition RequireOrgWidePermission (ctx : RequestContext) (key : string) : result FleetError Info :=
  require ctx (λ eff, HasOrgWide (Some eff) key).

Definition RequireAnyPermission (ctx : RequestContext) (keys : list string) (rc : ResourceContext) : result FleetError Info :=
  match keys with
  | [] => Err NewInternalError
  | _ => require ctx (λ eff, existsb (λ key, Has (Some eff) key rc) keys)
  end.

Definition HasPermission (ctx : RequestContext) (key : string) (rc : ResourceContext) : result FleetError bool :=
  p ← gate ctx;
  Ok (match p.2 with None => true | Some eff => Has (Some eff) key rc end).

Definition HasOrgWidePermission (ctx : RequestContext) (key : string) : result FleetError bool :=
  p ← gate ctx;
  Ok (match p.2 with None => true | Some eff => HasOrgWide (Some eff) key end).

Definition SiteScopeForPermission (ctx : RequestContext) (key : string) : result FleetError (bool * list Z) :=
  p ← gate ctx;
  Ok (match p.2 with None => (true, []) | Some eff => SiteScopeFor (Some eff) key end).

Definition RequirePermissionAtAnySite (ctx : RequestContext) (key : string) : result FleetError Info :=
  match cx_Info ctx with
  | None => Err NewUnauthenticatedError
  | Some info =>
      scope ← SiteScopeForPermission ctx key;
      if negb scope.1 && (length scope.2 =? 0)%nat then Err NewForbiddenError else Ok info
  end.

Definition BindAuthorizedSiteScope (ctx : RequestContext) (key : string) : result FleetError AuthorizedSiteScope :=
  scope ← SiteScopeForPermission ctx key;
  Ok {| OrgWide := scope.1; SiteIDs := scope.2 |}.

Example admin_seed_ex : length AllPermissions = 42%nat ∧ length adminSeedPermissions = 40%nat.
Proof. split; vm_compute; reflexivity. Qed.
Example resource_order_ex : length ResourceOrder = 16%nat.
Proof. vm_compute. reflexivity. Qed.

(** * Permissions: theorems

    A grant as a relation ([grants]): the narrowing rule on effective permissions. The
    projection to site scopes, the gates and the comparison of two users are decided by
    it. *)

From S2P Require Import RolloutBehaviorFacts CommandFilter.

From Stdlib Require Import Sorting.Sorted.

(** ** What effective permissions grant *)

(** The keys that count at a resource: the site's own where a site assignment
    narrows, the organization's elsewhere. *)
Definition keys_at (e : EffectivePermissions) (rc : ResourceContext) : gset string :=
  match rc with None => orgScope e | Some s => default (orgScope e) (bySite e !! s) end.

Definition grants (e : EffectivePermissions) (key : string) (rc : ResourceContext) : Prop := key ∈ keys_at e rc.

#[export] Instance grants_dec e key rc : Decision (grants e key rc).
Proof. unfold grants. apply _. Defined.

Lemma Has_true e key rc : Has (Some e) key rc = true ↔ grants e key rc.
Proof.
  destruct rc as [s|]; [|apply bool_decide_eq_true]. unfold Has, grants, keys_at.
  destruct (bySite e !! s); apply bool_decide_eq_true.
Qed.

Lemma Has_false e key rc : Has (Some e) key rc = false ↔ ¬ grants e key rc.
Proof. by rewrite <- Has_true, not_true_iff_false. Qed.

(** [at_least o e]: whatever [e] grants, [o] grants. *)
Definition at_least (o e : EffectivePermissions) : Prop := ∀ key rc, grants e key rc → grants o key rc.

#[export] Instance at_least_refl : Reflexive at_least.
Proof. by intros e key rc. Qed.
#[export] Instance at_least_trans : Transitive at_least.
Proof. intros a b c Hab Hbc key rc Hc. auto. Qed.

(** ** Comparison *)

Definition covered (e o : EffectivePermissions) : bool :=
  forallb (λ key, Has (Some o) key None) (elements (orgScope e))
  && forallb (λ s, forallb (λ key, Has (Some o) key (Some s)) (elements (keys_at e (Some s))))
       (elements (dom (bySite e) ∪ dom (bySite o))).

Lemma IsSubsumedBy_covered e o : IsSubsumedBy (Some e) (Some o) = Some (covered e o).
Proof.
  unfold IsSubsumedBy, covered. by destruct (forallb _ (elements (orgScope e))).
Qed.

Lemma forallb_elements {A} `{Countable A} (f : A → bool) (X : gset A) :
  forallb f (elements X) = true ↔ ∀ x, x ∈ X → f x = true.
Proof. rewrite forallb_elem. by setoid_rewrite elem_of_elements. Qed.

Lemma covered_spec e o : covered e o = true ↔ at_least o e.
Proof.
  unfold covered. rewrite andb_true_iff, !forallb_elements. split.
  - intros [Horg Hsite] key [s|] Hg; [|by apply Has_true, Horg].
    destruct (decide (s ∈ dom (bySite e) ∪ dom (bySite o))) as [Hs|Hs].
    + specialize (Hsite s Hs). rewrite forallb_elements in Hsite. by apply Has_true, Hsite.
    + apply not_elem_of_union in Hs as [He%not_elem_of_dom Ho%not_elem_of_dom].
      unfold grants, keys_at in *. rewrite He in Hg. rewrite Ho. simpl in *.
      by apply (Has_true o key None), Horg.
  - intros Hle. split; [intros key Hk; by apply Has_true, Hle|].
    intros s _. apply forallb_elements. intros key Hk. by apply Has_true, Hle.
Qed.

Lemma not_covered e o : covered e o = false ↔ ∃ key rc, grants e key rc ∧ ¬ grants o key rc.
Proof.
  rewrite <- not_true_iff_false. split.
  - unfold covered. rewrite andb_true_iff. intros Hn.
    destruct (forallb _ (elements (orgScope e))) eqn:Horg.
    + destruct (decide (Exists (λ s, Exists (λ key, ¬ grants o key (Some s)) (elements (keys_at e (Some s))))
        (elements (dom (bySite e) ∪ dom (bySite o))))) as [Hx|Hx].
      * apply Exists_exists in Hx as (s & _ & (key & Hk & Hg)%Exists_exists).
        exists key, (Some s). by rewrite elem_of_elements in Hk.
      * exfalso. apply Hn. split; [done|]. apply forallb_elements. intros s Hs. apply forallb_elements.
        intros key Hk. apply Has_true. destruct (decide (grants o key (Some s))); [done|].
        exfalso. apply Hx. apply Exists_exists. exists s. rewrite elem_of_elements. split; [done|].
        apply Exists_exists. exists key. by rewrite elem_of_elements.
    + clear Hn. destruct (decide (Exists (λ key, ¬ grants o key None) (elements (orgScope e)))) as [Hx|Hx].
      * apply Exists_exists in Hx as (key & Hk & Hg). exists key, None. by rewrite elem_of_elements in Hk.
      * exfalso. apply not_true_iff_false in Horg. apply Horg, forallb_elements. intros key Hk. apply Has_true.
        destruct (decide (grants o key None)); [done|]. exfalso. apply Hx, Exists_exists.
        exists key. by rewrite elem_of_elements.
  - intros (key & rc & He & Ho) Hc. apply covered_spec in Hc. auto.
Qed.

Lemma StrictlyDominates_covered e o :
  StrictlyDominates (Some e) (Some o) = Some (covered o e && negb (covered e o)).
Proof.
  unfold StrictlyDominates. rewrite !IsSubsumedBy_covered. simpl. by destruct (covered o e).
Qed.


(** ** Site scopes *)

Lemma elem_of_denied (e : EffectivePermissions) (p : Z * gset string → bool) s :
  s ∈ stable_sort Z.ltb (map fst (List.filter p (map_to_list (bySite e))))
  ↔ ∃ keys, bySite e !! s = Some keys ∧ p (s, keys) = true.
Proof.
  rewrite stable_sort_elem, list_elem_of_fmap. split.
  - intros ([s' keys] & -> & [Hk Hp]%elem_of_List_filter). apply elem_of_map_to_list in Hk. eauto.
  - intros (keys & Hk & Hp). exists (s, keys). split; [done|]. apply elem_of_List_filter.
    split; [by apply elem_of_map_to_list|done].
Qed.

Lemma existsb_eqb l (x : Z) : existsb (λ y, y =? x) l = bool_decide (x ∈ l).
Proof.
  apply eq_bool_prop_intro. rewrite bool_decide_spec. unfold Is_true at 1.
  destruct (existsb _ l) eqn:E; split; try done.
  - intros _. apply existsb_exists in E as (y & Hy & ->%Z.eqb_eq). by apply list_elem_of_In.
  - intros Hx. apply not_true_iff_false in E. apply E, existsb_exists. exists x.
    split; [by apply list_elem_of_In|apply Z.eqb_refl].
Qed.

Lemma scope_allows e key rc :
  Allows {| OrgWide := (SiteScopeFor (Some e) key).1; SiteIDs := (SiteScopeFor (Some e) key).2 |} rc
  = Has (Some e) key rc.
Proof.
  destruct rc as [s|]; [|done]. unfold Allows, SiteScopeFor, Has.
  cbn [OrgWide SiteIDs fst snd]. rewrite existsb_eqb.
  destruct (bool_decide (key ∈ orgScope e)) eqn:Eo; simpl.
  - destruct (bySite e !! s) as [keys|] eqn:Es; simpl.
    + rewrite <- bool_decide_not. apply bool_decide_ext. rewrite elem_of_denied. rewrite Es. split.
      * intros Hn. destruct (decide (key ∈ keys)) as [|Hk]; [done|]. exfalso. apply Hn. exists keys.
        split; [done|]. simpl. by rewrite bool_decide_eq_false_2.
      * intros Hk (keys' & [= <-] & Hp). simpl in Hp. by rewrite bool_decide_eq_true_2 in Hp.
    + rewrite <- bool_decide_not. apply bool_decide_eq_true. rewrite elem_of_denied, Es. by intros (? & ? & _).
  - destruct (bySite e !! s) as [keys|] eqn:Es; simpl.
    + apply bool_decide_ext. rewrite elem_of_denied, Es. split.
      * intros (keys' & [= <-] & Hp). simpl in Hp. by apply bool_decide_eq_true in Hp.
      * intros Hk. exists keys. simpl. by rewrite bool_decide_eq_true_2.
    + apply bool_decide_eq_false. rewrite elem_of_denied, Es. by intros (? & ? & _).
Qed.

Lemma HasOrgWide_spec e key : HasOrgWide (Some e) key = true ↔ ∀ rc, grants e key rc.
Proof.
  unfold HasOrgWide. rewrite andb_true_iff, bool_decide_eq_true, forallb_forall. split.
  - intros [Ho Hs] [s|]; [|done]. unfold grants, keys_at. destruct (bySite e !! s) as [keys|] eqn:Es; [|done].
    specialize (Hs (s, keys)). rewrite <- list_elem_of_In, elem_of_map_to_list in Hs.
    specialize (Hs Es). apply (Has_true e key (Some s)) in Hs. unfold grants, keys_at in Hs. by rewrite Es in Hs.
  - intros Hg. split; [apply (Hg None)|]. intros [s keys] _. by apply Has_true.
Qed.

(** A request of a user, not of an internal actor. *)
Definition user_context (info : Info) (e : EffectivePermissions) : RequestContext :=
  {| cx_Info := Some (info <| in_Actor := "" |>); cx_Effective := Some e |}.

Lemma require_user info e allowed :
  require (user_context info e) allowed =
  if allowed e then Ok (info <| in_Actor := "" |>) else Err NewForbiddenError.
Proof. done. Qed.

Lemma any_site_user info e key :
  is_ok (RequirePermissionAtAnySite (user_context info e) key) = true ↔ ∃ rc, grants e key rc.
Proof.
  transitivity (negb (SiteScopeFor (Some e) key).1 && (length (SiteScopeFor (Some e) key).2 =? 0)%nat = false).
  { change (RequirePermissionAtAnySite (user_context info e) key) with
      (if negb (SiteScopeFor (Some e) key).1 && (length (SiteScopeFor (Some e) key).2 =? 0)%nat
       then Err NewForbiddenError else Ok (info <| in_Actor := "" |>) : result FleetError Info).
    by destruct (negb _ && _). }
  setoid_rewrite <- Has_true. setoid_rewrite <- scope_allows.
  destruct (SiteScopeFor (Some e) key) as [w sites]. cbn [fst snd]. unfold Allows. cbn [OrgWide SiteIDs]. split.
  - intros Hn. destruct w; [by exists None|]. destruct sites as [|s sites]; [done|].
    exists (Some s). simpl. by rewrite Z.eqb_refl.
  - intros ([s|] & Hg); destruct w; try done. by destruct sites.
Qed.

(** The projected site scope of a key admits exactly the resources at which Has holds, its
    site list is sorted without duplicates, HasOrgWide is Has at every resource, and the any-site
    gate lets a user through exactly when Has holds somewhere. *)
Theorem site_scopes_are_exact info e key :
  let scope := SiteScopeFor (Some e) key in
  (∀ rc, Allows {| OrgWide := scope.1; SiteIDs := scope.2 |} rc = Has (Some e) key rc) ∧
  StronglySorted Z.lt scope.2 ∧
  (HasOrgWide (Some e) key = true ↔ ∀ rc, Has (Some e) key rc = true) ∧
  (is_ok (RequirePermissionAtAnySite (user_context info e) key) = true ↔ ∃ rc, Has (Some e) key rc = true).
Proof.
  intros scope. split_and!.
  - intros rc. apply scope_allows.
  - apply sort_ids_strict. eapply sublist_NoDup; [apply (NoDup_fst_map_to_list (bySite e))|].
    apply fmap_sublist, list_filter_sublist.
  - rewrite HasOrgWide_spec. by setoid_rewrite Has_true.
  - rewrite any_site_user. by setoid_rewrite Has_true.
Qed.
