(* ===== verification/AuthzStore.v ===== *)
(** * The tables of users, roles and assignments

    The tables of [migrations/000002], [000052] and [000074] and the statements of
    [sqlc/queries/user.sql], [role.sql], [permission.sql], [organization.sql],
    [user_organization.sql], [user_organization_role.sql] and [session.sql], one
    function per statement with the constraints it can violate. A table is a map from
    its primary key (or the key of its unique constraint); rows are never removed, so
    the next identifier of a sequence lies beyond the stored ones. A locking read is the
    read itself: the lock is held by the transaction. Creation and update times, user
    agents and addresses are left out. *)

From S2P Require Import Prelude GoSort Errors RolloutBehavior AuthzPermissions.
#[local] Open Scope string_scope.
#[local] Open Scope list_scope.
#[local] Open Scope Z_scope.
#[local] Open Scope go_scope.

(** ** Rows *)

Record UserRow := {
  us_UserID : string;
  us_Username : string;
  us_PasswordHash : string;
  us_PasswordUpdatedAt : option Z;
  us_LastLoginAt : option Z;
  us_RequiresPasswordChange : bool;
  us_Deleted : bool
}.

#[export] Instance eta_UserRow : Eta UserRow := λ u,
  {| us_UserID := us_UserID u; us_Username := us_Username u; us_PasswordHash := us_PasswordHash u;
     us_PasswordUpdatedAt := us_PasswordUpdatedAt u; us_LastLoginAt := us_LastLoginAt u;
     us_RequiresPasswordChange := us_RequiresPasswordChange u; us_Deleted := us_Deleted u |}.

Record OrganizationRow := { og_OrgID : string; og_Name : string; og_Deleted : bool }.

Record RoleRow := {
  rl_Name : string;
  rl_Description : option string;
  rl_IsBuiltin : bool;
  rl_BuiltinKey : option string;
  rl_OrganizationID : option Z;
  rl_Deleted : bool
}.

#[export] Instance eta_RoleRow : Eta RoleRow := λ r,
  {| rl_Name := rl_Name r; rl_Description := rl_Description r; rl_IsBuiltin := rl_IsBuiltin r;
     rl_BuiltinKey := rl_BuiltinKey r; rl_OrganizationID := rl_OrganizationID r; rl_Deleted := rl_Deleted r |}.

Record PermissionRow := { pe_Key : string; pe_Description : string }.

(** A row of [user_organization], keyed by user and organization. *)
Record MembershipRow := { mb_RoleID : Z; mb_Deleted : bool }.

#[export] Instance eta_MembershipRow : Eta MembershipRow := λ m,
  {| mb_RoleID := mb_RoleID m; mb_Deleted := mb_Deleted m |}.

(** A row of [user_organization_role]. *)
Record AssignmentRow := {
  ar_UserID : Z;
  ar_OrganizationID : Z;
  ar_RoleID : Z;
  ar_ScopeType : string;
  ar_ScopeID : option Z;
  ar_Deleted : bool
}.

#[export] Instance eta_AssignmentRow : Eta AssignmentRow := λ a,
  {| ar_UserID := ar_UserID a; ar_OrganizationID := ar_OrganizationID a; ar_RoleID := ar_RoleID a;
     ar_ScopeType := ar_ScopeType a; ar_ScopeID := ar_ScopeID a; ar_Deleted := ar_Deleted a |}.

Record SessionRow := {
  se_UserID : Z;
  se_OrganizationID : Z;
  se_LastActivity : Z;
  se_ExpiresAt : Z;
  se_RevokedAt : option Z
}.

#[export] Instance eta_SessionRow : Eta SessionRow := λ x,
  {| se_UserID := se_UserID x; se_OrganizationID := se_OrganizationID x; se_LastActivity := se_LastActivity x;
     se_ExpiresAt := se_ExpiresAt x; se_RevokedAt := se_RevokedAt x |}.

Record AuthDB := {
  au_users : gmap Z UserRow;
  au_organizations : gmap Z OrganizationRow;
  au_roles : gmap Z RoleRow;
  au_permissions : gmap Z PermissionRow;
  au_role_permissions : gset (Z * Z);
  au_memberships : gmap (Z * Z) MembershipRow;
  au_assignments : gmap Z AssignmentRow;
  au_sessions : gmap string SessionRow
}.

#[export] Instance eta_AuthDB : Eta AuthDB := λ db,
  {| au_users := au_users db; au_organizations := au_organizations db; au_roles := au_roles db;
     au_permissions := au_permissions db; au_role_permissions := au_role_permissions db;
     au_memberships := au_memberships db; au_assignments := au_assignments db; au_sessions := au_sessions db |}.

(** ** Statements *)

Inductive DbError :=
| ErrNoRows
| UniqueViolation (constraint : string)
| CheckViolation (constraint : string)
| ForeignKeyViolation (constraint : string).

Definition Stmt (A : Type) : Type := M AuthDB DbError A.

Definition next_id {A} (m : gmap Z A) : Z := map_fold (λ k _ n, Z.max k n) 0 m + 1.

(** Exactly one row, or [sql.ErrNoRows]. *)
Definition one {A} (o : option A) : Stmt A := λ db,
  match o with Some a => (Ok a, db) | None => (Err ErrNoRows, db) end.

(** The first row a predicate holds of; the callers' predicates are keys. *)
Definition find_row {K A} `{Countable K} (p : K → A → bool) (m : gmap K A) : option (K * A) :=
  List.find (λ kv, p kv.1 kv.2) (map_to_list m).

Definition has_row {K A} `{Countable K} (p : K → A → bool) (m : gmap K A) : bool :=
  bool_decide (find_row p m ≠ None).

(** The keys that satisfy a predicate, in ascending order. *)
Definition select_ids {A} (p : Z → A → bool) (m : gmap Z A) : list Z :=
  stable_sort Z.ltb (map fst (List.filter (λ kv, p kv.1 kv.2) (map_to_list m))).

(** [UPDATE ... WHERE id = k AND p]. *)
Definition update_row {K A} `{Countable K} (k : K) (p : A → bool) (f : A → A) (m : gmap K A) : gmap K A :=
  alter (λ a, if p a then f a else a) k m.

(** ** Users *)

Definition live_user (db : AuthDB) (id : Z) : option UserRow :=
  match au_users db !! id with Some u => if us_Deleted u then None else Some u | None => None end.

Definition GetUserById (id : Z) : Stmt UserRow := λ db, one (live_user db id) db.
Definition GetUserByIdForUpdate (id : Z) : Stmt UserRow := GetUserById id.

Definition GetUserByUsername (username : string) : Stmt (Z * UserRow) := λ db,
  one (find_row (λ _ u, (us_Username u == username) && negb (us_Deleted u)) (au_users db)) db.

Definition GetUserByExternalId (userID : string) : Stmt (Z * UserRow) := λ db,
  one (find_row (λ _ u, (us_UserID u == userID) && negb (us_Deleted u)) (au_users db)) db.

Definition HasUser : Stmt bool := gets (λ db, negb (bool_decide (au_users db = ∅))).

Definition CreateUser_row (userID username passwordHash : string) (requiresChange : bool) : Stmt Z := λ db,
  if has_row (λ _ u, us_Username u == username) (au_users db) then (Err (UniqueViolation "uq_user_username"), db)
  else if has_row (λ _ u, us_UserID u == userID) (au_users db) then (Err (UniqueViolation "uq_user_user_id"), db)
  else
    let id := next_id (au_users db) in
    (Ok id, db <| au_users := <[id := {| us_UserID := userID; us_Username := username;
       us_PasswordHash := passwordHash; us_PasswordUpdatedAt := None; us_LastLoginAt := None;
       us_RequiresPasswordChange := requiresChange; us_Deleted := false |}]> (au_users db) |>).

Definition update_user (id : Z) (p : UserRow → bool) (f : UserRow → UserRow) : Stmt unit :=
  modify (λ db, db <| au_users := update_row id p f (au_users db) |>).

Definition UpdateUserUsername (id : Z) (username : string) : Stmt unit := λ db,
  if has_row (λ k u, negb (k =? id) && (us_Username u == username)) (au_users db)
  then (Err (UniqueViolation "uq_user_username"), db)
  else update_user id (λ _, true) (λ u, u <| us_Username := username |>) db.

Definition SoftDeleteUser (id : Z) : Stmt unit :=
  update_user id (λ u, negb (us_Deleted u)) (λ u, u <| us_Deleted := true |>).

Definition UpdateLastLogin (now id : Z) : Stmt unit :=
  update_user id (λ _, true) (λ u, u <| us_LastLoginAt := Some now |>).

Definition UpdateUserPasswordAndFlag (now id : Z) (hash : string) : Stmt unit :=
  update_user id (λ _, true) (λ u, u <| us_PasswordHash := hash |> <| us_RequiresPasswordChange := false |>
    <| us_PasswordUpdatedAt := Some now |>).

(** The number of rows it changed. *)
Definition AdminResetUserPassword (now id : Z) (hash : string) : Stmt Z := λ db,
  (Ok (match live_user db id with Some _ => 1 | None => 0 end),
   db <| au_users := update_row id (λ u, negb (us_Deleted u))
     (λ u, u <| us_PasswordHash := hash |> <| us_RequiresPasswordChange := true |>
             <| us_PasswordUpdatedAt := Some now |>) (au_users db) |>).

(** ** Organizations and memberships *)

Definition CreateOrganization (orgID name : string) : Stmt Z := λ db,
  if has_row (λ _ o, og_OrgID o == orgID) (au_organizations db)
  then (Err (UniqueViolation "uq_organization_org_id"), db)
  else
    let id := next_id (au_organizations db) in
    (Ok id, db <| au_organizations :=
       <[id := {| og_OrgID := orgID; og_Name := name; og_Deleted := false |}]> (au_organizations db) |>).

Definition ListActiveOrganizationIDs : Stmt (list Z) :=
  gets (λ db, select_ids (λ _ o, negb (og_Deleted o)) (au_organizations db)).

(** The organizations of a user's memberships, deleted or not. *)
Definition GetOrganizationsForUser (user : Z) : Stmt (list Z) :=
  gets (λ db, map (λ kv, kv.1.2) (List.filter (λ kv, (kv.1.1 =? user)
    && bool_decide (is_Some (au_organizations db !! kv.1.2))) (map_to_list (au_memberships db)))).

Definition CreateUserOrganization (user org role : Z) : Stmt unit := λ db,
  match au_memberships db !! (user, org) with
  | Some _ => (Err (UniqueViolation "uq_user_organization"), db)
  | None => (Ok tt, db <| au_memberships :=
      <[(user, org) := {| mb_RoleID := role; mb_Deleted := false |}]> (au_memberships db) |>)
  end.

Definition GetUserRoleName (user org : Z) : Stmt string := λ db,
  one (m ← au_memberships db !! (user, org);
       if mb_Deleted m then None else rl_Name <$> au_roles db !! mb_RoleID m) db.

Definition UpdateUserRole_row (role user org : Z) : Stmt unit :=
  modify (λ db, db <| au_memberships :=
    update_row (user, org) (λ _, true) (λ m, m <| mb_RoleID := role |>) (au_memberships db) |>).

(** ** Roles *)

Definition live_role (db : AuthDB) (id : Z) : option RoleRow :=
  match au_roles db !! id with Some r => if rl_Deleted r then None else Some r | None => None end.

Definition GetRoleByID (id : Z) : Stmt (Z * RoleRow) := λ db, one ((λ r, (id, r)) <$> live_role db id) db.
Definition GetRoleByIDForUpdate (id : Z) : Stmt (Z * RoleRow) := GetRoleByID id.

Definition is_builtin_of (org : Z) (key : string) (r : RoleRow) : bool :=
  rl_IsBuiltin r && bool_decide (rl_OrganizationID r = Some org) && bool_decide (rl_BuiltinKey r = Some key)
  && negb (rl_Deleted r).

Definition GetBuiltinRoleForOrg (org : Z) (key : string) : Stmt (Z * RoleRow) := λ db,
  one (find_row (λ _ r, is_builtin_of org key r) (au_roles db)) db.

(** [INSERT ... ON CONFLICT DO UPDATE] on the index of live built-ins. *)
Definition UpsertBuiltinRoleForOrg (org : Z) (name description key : string) : Stmt (Z * RoleRow) := λ db,
  match find_row (λ _ r, is_builtin_of org key r) (au_roles db) with
  | Some (id, r) =>
      let r' := r <| rl_Name := name |> <| rl_Description := Some description |> in
      (Ok (id, r'), db <| au_roles := <[id := r']> (au_roles db) |>)
  | None =>
      let id := next_id (au_roles db) in
      let r := {| rl_Name := name; rl_Description := Some description; rl_IsBuiltin := true;
                  rl_BuiltinKey := Some key; rl_OrganizationID := Some org; rl_Deleted := false |} in
      (Ok (id, r), db <| au_roles := <[id := r]> (au_roles db) |>)
  end.

(** What the database server supplies: [LOWER], which depends on the collation. *)
Class Collation := { sql_LOWER : string → string }.

(** [BTRIM]: spaces only. *)
Fixpoint drop_spaces (l : list Z) : list Z :=
  match l with 32 :: rest => drop_spaces rest | _ => l end.

Definition sql_BTRIM (s : string) : string :=
  string_of_bytes (rev (drop_spaces (rev (drop_spaces (bytes s))))).

Section Names.
Context `{Collation}.

Definition name_key (name : string) : string := sql_LOWER (sql_BTRIM name).

(** [chk_role_custom_name_not_reserved], for a custom role of an organization. *)
Definition reserved_name (name : string) : bool :=
  bool_decide (name_key name ∈ ["super_admin"; "admin"; "field_tech"]).

(** The partial unique index on the names of live custom roles. *)
Definition name_taken (self : option Z) (org : Z) (name : string) (db : AuthDB) : bool :=
  has_row (λ id r, negb (bool_decide (Some id = self)) && negb (rl_IsBuiltin r) && negb (rl_Deleted r)
    && bool_decide (rl_OrganizationID r = Some org) && (name_key (rl_Name r) == name_key name)) (au_roles db).

Definition CreateCustomRole_row (org : Z) (name : string) (description : option string) : Stmt (Z * RoleRow) := λ db,
  if reserved_name name then (Err (CheckViolation "chk_role_custom_name_not_reserved"), db)
  else if name_taken None org name db then (Err (UniqueViolation "uq_role_org_custom_name"), db)
  else
    let id := next_id (au_roles db) in
    let r := {| rl_Name := name; rl_Description := description; rl_IsBuiltin := false; rl_BuiltinKey := None;
                rl_OrganizationID := Some org; rl_Deleted := false |} in
    (Ok (id, r), db <| au_roles := <[id := r]> (au_roles db) |>).

Definition UpdateCustomRoleName (id : Z) (name : string) (description : option string) : Stmt unit := λ db,
  match live_role db id with
  | Some r =>
      if rl_IsBuiltin r then (Ok tt, db)
      else if bool_decide (rl_OrganizationID r ≠ None) && reserved_name name
      then (Err (CheckViolation "chk_role_custom_name_not_reserved"), db)
      else if match rl_OrganizationID r with Some org => name_taken (Some id) org name db | None => false end
      then (Err (UniqueViolation "uq_role_org_custom_name"), db)
      else (Ok tt, db <| au_roles := <[id := r <| rl_Name := name |> <| rl_Description := description |>]> (au_roles db) |>)
  | None => (Ok tt, db)
  end.

End Names.

Definition SoftDeleteCustomRole (id : Z) : Stmt unit :=
  modify (λ db, db <| au_roles := update_row id (λ r, negb (rl_Deleted r) && negb (rl_IsBuiltin r))
    (λ r, r <| rl_Deleted := true |>) (au_roles db) |>).

(** ** Permissions *)

Definition UpsertPermission (key description : string) : Stmt Z := λ db,
  match find_row (λ _ p, pe_Key p == key) (au_permissions db) with
  | Some (id, p) => (Ok id, db <| au_permissions :=
      <[id := {| pe_Key := pe_Key p; pe_Description := description |}]> (au_permissions db) |>)
  | None =>
      let id := next_id (au_permissions db) in
      (Ok id, db <| au_permissions := <[id := {| pe_Key := key; pe_Description := description |}]> (au_permissions db) |>)
  end.

Definition GetPermissionsByKeys (keys : list string) : Stmt (list (Z * PermissionRow)) :=
  gets (λ db, List.filter (λ kv, bool_decide (pe_Key kv.2 ∈ keys)) (map_to_list (au_permissions db))).

(** The permissions of a role: [role_permission] joined with [permission]. *)
Definition permission_keys_of (role : Z) (db : AuthDB) : list (option string) :=
  map (λ rp, pe_Key <$> au_permissions db !! rp.2)
    (List.filter (λ rp, rp.1 =? role) (elements (au_role_permissions db))).

Definition role_keys (role : Z) (db : AuthDB) : list string :=
  stable_sort String.ltb (omap (λ k, k) (permission_keys_of role db)).

Definition ListRolePermissionKeys (role : Z) : Stmt (list string) := gets (role_keys role).

Definition AssignPermissionToRole (role permission : Z) : Stmt unit :=
  modify (λ db, db <| au_role_permissions := {[ (role, permission) ]} ∪ au_role_permissions db |>).

Definition ClearRolePermissions (role : Z) : Stmt unit :=
  modify (λ db, db <| au_role_permissions := filter (λ rp, rp.1 ≠ role) (au_role_permissions db) |>).

#[local] Instance from_option_dec {A} (P : A → Prop) (o : option A) :
  (∀ a, Decision (P a)) → Decision (from_option P False o).
Proof. intros HP. destruct o; simpl; [apply HP|right; tauto]. Defined.

Definition PrunePermissionsOutsideKeys (role : Z) (keys : list string) : Stmt unit :=
  modify (λ db, db <| au_role_permissions :=
    filter (λ rp, rp.1 ≠ role ∨ from_option (λ p, pe_Key p ∈ keys) False (au_permissions db !! rp.2))
      (au_role_permissions db) |>).

(** ** Assignments *)

(** An assignment that counts: it, its role in the same organization and its user
    are not deleted. *)
Definition active_assignment (db : AuthDB) (a : AssignmentRow) : bool :=
  negb (ar_Deleted a) && bool_decide (is_Some (live_user db (ar_UserID a)))
  && match live_role db (ar_RoleID a) with
     | Some r => bool_decide (rl_OrganizationID r = Some (ar_OrganizationID a)) | None => false end.

Definition AssignRole (user org role : Z) (scope : string) (site : option Z) : Stmt Z := λ db,
  if negb ((scope == ScopeOrg) && bool_decide (site = None) || (scope == ScopeSite) && bool_decide (site ≠ None))
  then (Err (CheckViolation "chk_user_org_role_scope_id_matches_type"), db)
  else if negb (bool_decide (rl_OrganizationID <$> au_roles db !! role = Some (Some org)))
  then (Err (ForeignKeyViolation "fk_user_org_role_role"), db)
  else if (scope == ScopeOrg) && has_row (λ _ a, (ar_UserID a =? user) && (ar_OrganizationID a =? org)
         && (ar_ScopeType a == ScopeOrg) && negb (ar_Deleted a)) (au_assignments db)
  then (Err (UniqueViolation "uq_user_org_single_live_org_scope"), db)
  else if (scope == ScopeSite) && has_row (λ _ a, (ar_UserID a =? user) && (ar_OrganizationID a =? org)
         && (ar_RoleID a =? role) && (ar_ScopeType a == ScopeSite) && bool_decide (ar_ScopeID a = site)
         && negb (ar_Deleted a)) (au_assignments db)
  then (Err (UniqueViolation "uq_user_org_role_site_scope"), db)
  else
    let id := next_id (au_assignments db) in
    (Ok id, db <| au_assignments := <[id := {| ar_UserID := user; ar_OrganizationID := org; ar_RoleID := role;
       ar_ScopeType := scope; ar_ScopeID := site; ar_Deleted := false |}]> (au_assignments db) |>).

Definition UnassignRole (id : Z) : Stmt unit :=
  modify (λ db, db <| au_assignments := update_row id (λ a, negb (ar_Deleted a))
    (λ a, a <| ar_Deleted := true |>) (au_assignments db) |>).

(** The live assignment at organization scope: its identifier, role and the role's
    built-in key. *)
Definition GetOrgScopeAssignmentForUser (user org : Z) : Stmt (Z * Z * option string) := λ db,
  one (p ← find_row (λ _ a, (ar_UserID a =? user) && (ar_OrganizationID a =? org)
             && (ar_ScopeType a == ScopeOrg) && active_assignment db a) (au_assignments db);
       r ← au_roles db !! ar_RoleID p.2;
       Some (p.1, ar_RoleID p.2, rl_BuiltinKey r)) db.

(** The assignments of a role that are live and whose user is. *)
Definition members_of (role : Z) (db : AuthDB) : Z :=
  Z.of_nat (length (select_ids (λ _ a, (ar_RoleID a =? role) && negb (ar_Deleted a)
    && bool_decide (is_Some (live_user db (ar_UserID a)))) (au_assignments db))).

Definition CountActiveAssignmentsForRole (role : Z) : Stmt Z := gets (members_of role).

Definition is_super_admin (db : AuthDB) (a : AssignmentRow) : bool :=
  (ar_ScopeType a == ScopeOrg) && active_assignment db a
  && bool_decide ((au_roles db !! ar_RoleID a ≫= rl_BuiltinKey) = Some BuiltinKeySuperAdmin).

Definition LockAndCountOrgScopeSuperAdmins (org : Z) : Stmt Z :=
  gets (λ db, Z.of_nat (length (select_ids (λ _ a, (ar_OrganizationID a =? org) && is_super_admin db a)
    (au_assignments db)))).

(** The users of the live super administrator seats with a live membership: user
    identifier and organization. The rows are ordered by user. *)
Definition LockActiveSuperAdminUsers : Stmt (list (Z * Z)) :=
  gets (λ db, stable_sort (λ x y, x.1 <? y.1) (map (λ kv, (ar_UserID kv.2, ar_OrganizationID kv.2))
    (List.filter (λ kv, is_super_admin db kv.2 && bool_decide (ar_ScopeID kv.2 = None)
       && match au_memberships db !! (ar_UserID kv.2, ar_OrganizationID kv.2) with
          | Some m => negb (mb_Deleted m) | None => false end) (map_to_list (au_assignments db))))).

(** A row of the resolver's query; [ORDER BY uor.id, p.key NULLS FIRST]. *)
Record PermissionGrantRow := {
  gr_AssignmentID : Z;
  gr_ScopeType : string;
  gr_ScopeID : option Z;
  gr_PermissionKey : option string
}.

Definition nulls_first (x y : option string) : bool :=
  match x, y with
  | None, Some _ => true
  | Some a, Some b => String.ltb a b
  | _, None => false
  end.

(** The LEFT JOIN: a role without permissions gives one row without a key. *)
Definition left_join_keys (role : Z) (db : AuthDB) : list (option string) :=
  match stable_sort nulls_first (permission_keys_of role db) with [] => [None] | keys => keys end.

Definition grant_rows (db : AuthDB) (id : Z) : list PermissionGrantRow :=
  match au_assignments db !! id with
  | None => []
  | Some a => map (λ k, {| gr_AssignmentID := id; gr_ScopeType := ar_ScopeType a; gr_ScopeID := ar_ScopeID a;
                           gr_PermissionKey := k |}) (left_join_keys (ar_RoleID a) db)
  end.

Definition assignments_of (user org : Z) (db : AuthDB) : list Z :=
  select_ids (λ _ a, (ar_UserID a =? user) && (ar_OrganizationID a =? org) && active_assignment db a)
    (au_assignments db).

Definition ListEffectivePermissionsForUser (user org : Z) : Stmt (list PermissionGrantRow) :=
  gets (λ db, flat_map (grant_rows db) (assignments_of user org db)).

Definition ListEffectivePermissionsForUserForUpdate (user org : Z) : Stmt (list PermissionGrantRow) :=
  ListEffectivePermissionsForUser user org.

(** ** Role listings *)

Record RoleDetailRow := {
  rd_ID : Z;
  rd_Role : RoleRow;
  rd_PermissionKeys : list string;
  rd_MemberCount : Z
}.

(** [ORDER BY is_builtin DESC, builtin_key, name]; a null key sorts last. *)
Definition role_listing_order (x y : RoleDetailRow) : bool :=
  let a := rd_Role x in let b := rd_Role y in
  if rl_IsBuiltin a != rl_IsBuiltin b then rl_IsBuiltin a
  else match rl_BuiltinKey a, rl_BuiltinKey b with
  | Some k, Some l => String.ltb k l || ((k == l) && String.ltb (rl_Name a) (rl_Name b))
  | Some _, None => true
  | None, Some _ => false
  | None, None => String.ltb (rl_Name a) (rl_Name b)
  end.

Definition role_details (db : AuthDB) (id : Z) (r : RoleRow) : RoleDetailRow :=
  {| rd_ID := id; rd_Role := r;
     rd_PermissionKeys := role_keys id db; rd_MemberCount := members_of id db |}.

Definition ListRolesWithDetailsForOrg (org : Z) : Stmt (list RoleDetailRow) :=
  gets (λ db, stable_sort role_listing_order (map (λ kv, role_details db kv.1 kv.2)
    (List.filter (λ kv, bool_decide (rl_OrganizationID kv.2 = Some org) && negb (rl_Deleted kv.2))
       (map_to_list (au_roles db))))).

(** ** Sessions *)

Definition CreateSession (sessionID : string) (row : SessionRow) : Stmt unit := λ db,
  match au_sessions db !! sessionID with
  | Some _ => (Err (UniqueViolation "uq_session_session_id"), db)
  | None => (Ok tt, db <| au_sessions := <[sessionID := row]> (au_sessions db) |>)
  end.

Definition GetSessionByID (sessionID : string) : Stmt SessionRow := λ db,
  one (x ← au_sessions db !! sessionID; if bool_decide (se_RevokedAt x = None) then Some x else None) db.

Definition UpdateSessionActivity (sessionID : string) (lastActivity expiresAt : Z) : Stmt unit :=
  modify (λ db, db <| au_sessions := update_row sessionID (λ x, bool_decide (se_RevokedAt x = None))
    (λ x, x <| se_LastActivity := lastActivity |> <| se_ExpiresAt := expiresAt |>) (au_sessions db) |>).

Definition RevokeSession (sessionID : string) (now : Z) : Stmt unit :=
  modify (λ db, db <| au_sessions := update_row sessionID (λ _, true)
    (λ x, x <| se_RevokedAt := Some now |>) (au_sessions db) |>).

Definition RevokeAllSessionsByUserID (user now : Z) : Stmt unit :=
  modify (λ db, db <| au_sessions := (λ x, if (se_UserID x =? user) && bool_decide (se_RevokedAt x = None)
    then x <| se_RevokedAt := Some now |> else x) <$> au_sessions db |>).

Definition DeleteExpiredSessions (cutoff : Z) : Stmt Z := λ db,
  let kept := filter (λ kv, ¬ (se_ExpiresAt kv.2 < cutoff ∨ se_RevokedAt kv.2 ≠ None)) (au_sessions db) in
  (Ok (Z.of_nat (size (au_sessions db)) - Z.of_nat (size kept)), db <| au_sessions := kept |>).
