(* ===== verification/AuthzService.v ===== *)
(** * Roles

    [internal/domain/authz]: the resolver of effective permissions ([resolver.go]), the
    role service ([service.go]), the reconciliation of the built-in roles at boot
    ([reconcile.go]) and role identifiers on the wire ([roleid.go]). A transaction is one
    atomic step over the tables. The activity log is not modelled. *)

From S2P Require Import Prelude GoSort Errors RolloutBehavior GoTime AuthzPermissions AuthzStore.
#[local] Open Scope string_scope.
#[local] Open Scope list_scope.
#[local] Open Scope Z_scope.
#[local] Open Scope go_scope.

(** A domain error, an error without a code, or a panic. *)
Inductive AuthError := Fleet (e : FleetError) | Plain | Panicked.

Definition AOp (A : Type) : Type := M AuthDB AuthError A.

(** A statement, with what its failure is turned into. *)
Definition query {A} (s : Stmt A) (wrap_error : DbError → AuthError) : AOp A := λ db,
  match s db with (Ok a, db') => (Ok a, db') | (Err e, db') => (Err (wrap_error e), db') end.

Definition internal (_ : DbError) : AuthError := Fleet NewInternalError.
Definition plain (_ : DbError) : AuthError := Plain.
Definition refuse {A} (e : FleetError) : AOp A := fail (Fleet e).

(** No row is the caller's mistake, anything else the server's. *)
Definition no_rows_is_invalid (e : DbError) : AuthError :=
  match e with ErrNoRows => Fleet NewInvalidArgumentError | _ => Fleet NewInternalError end.

(** A loop over a slice that stops at the first error. *)
Fixpoint for_each {S E A} (f : A → M S E unit) (l : list A) : M S E unit :=
  match l with [] => mret tt | x :: rest => _ ← f x; for_each f rest end.

(** ** Runes *)

Definition second_byte_ok (b0 b1 : Z) : bool :=
  if b0 =? 224 then between 160 191 b1 else if b0 =? 237 then between 128 159 b1
  else if b0 =? 240 then between 144 191 b1 else if b0 =? 244 then between 128 143 b1
  else continuation b1.

(** [utf8.RuneCountInString]: a byte that starts no valid sequence is one rune. *)
Fixpoint rune_count (l : list Z) : Z :=
  match l with
  | [] => 0
  | b0 :: l1 => 1 +
    match l1 with
    | b1 :: l2 =>
      if between 194 223 b0 && second_byte_ok b0 b1 then rune_count l2
      else match l2 with
      | b2 :: l3 =>
        if between 224 239 b0 && second_byte_ok b0 b1 && continuation b2 then rune_count l3
        else match l3 with
        | b3 :: l4 =>
          if between 240 244 b0 && second_byte_ok b0 b1 && continuation b2 && continuation b3 then rune_count l4
          else rune_count l1
        | [] => rune_count l1
        end
      | [] => rune_count l1
      end
    | [] => rune_count l1
    end
  end.

Definition RuneCountInString (s : string) : Z := rune_count (bytes s).

(** ** Role identifiers *)

(** [roleIDPattern]: a digit from one to nine, then digits. *)
Definition roleIDPattern (s : string) : bool :=
  match bytes s with
  | b :: rest => between 49 57 b && forallb (between 48 57) rest
  | [] => false
  end.

Definition ParseRoleID (s : string) : result FleetError Z :=
  if negb (roleIDPattern s) then Err NewInvalidArgumentError
  else match ParseInt s with Some id => Ok id | None => Err NewInvalidArgumentError end.

(** ** The resolver *)

Definition newAssignmentFromRow (row : PermissionGrantRow) : Assignment :=
  {| as_AssignmentID := gr_AssignmentID row; as_ScopeType := gr_ScopeType row; as_SiteID := gr_ScopeID row;
     as_Permissions := [] |}.

Definition append_permission (row : PermissionGrantRow) (a : Assignment) : Assignment :=
  match gr_PermissionKey row with
  | Some k => a <| as_Permissions := as_Permissions a ++ [k] |>
  | None => a
  end.

(** The loop: [done_] are the finished assignments and [current] the last one. *)
Fixpoint group_rows (done_ : list Assignment) (current : Assignment) (rows : list PermissionGrantRow) : list Assignment :=
  match rows with
  | [] => done_ ++ [current]
  | row :: rest =>
      if negb (gr_AssignmentID row =? as_AssignmentID current)
      then group_rows (done_ ++ [current]) (append_permission row (newAssignmentFromRow row)) rest
      else group_rows done_ (append_permission row current) rest
  end.

Definition assignmentsFromRows (rows : list PermissionGrantRow) : EffectivePermissions :=
  match rows with
  | [] => NewEffectivePermissions []
  | first :: _ => NewEffectivePermissions (group_rows [] (newAssignmentFromRow first) rows)
  end.

Definition assignmentsForUpdateFromRows (rows : list PermissionGrantRow) : EffectivePermissions :=
  assignmentsFromRows rows.

Definition LoadEffective (user org : Z) : AOp EffectivePermissions :=
  rows ← query (ListEffectivePermissionsForUser user org) plain;
  mret (assignmentsFromRows rows).

Definition LoadEffectiveForUpdate (user org : Z) : AOp EffectivePermissions :=
  rows ← query (ListEffectivePermissionsForUserForUpdate user org) plain;
  mret (assignmentsForUpdateFromRows rows).

(** ** Validation *)

Definition maxRoleNameLength : Z := 255.

Definition validateRoleName (name : string) : result AuthError unit :=
  if name == "" then Err (Fleet NewInvalidArgumentError)
  else if maxRoleNameLength <? RuneCountInString name then Err (Fleet NewInvalidArgumentError)
  else Ok tt.

Fixpoint dedup_keys (seen : gset string) (keys : list string) : option (list string) :=
  match keys with
  | [] => Some []
  | k :: rest =>
      match Lookup k with
      | None => None
      | Some _ =>
          if bool_decide (k ∈ seen) then dedup_keys seen rest
          else cons k <$> dedup_keys ({[ k ]} ∪ seen) rest
      end
  end.

Definition validateAndDedupKeys (keys : list string) : result AuthError (list string) :=
  match dedup_keys ∅ keys with
  | None => Err (Fleet NewInvalidArgumentError)
  | Some out => Ok (stable_sort String.ltb out)
  end.

(** Every action needs the read permission of its resource, where there is one, and
    every miner action [fleet:read]. *)
Definition pairing_ok (have : list string) (k : string) : bool :=
  let resource := match Lookup k with Some e => ce_Resource e | None => "" end in
  let readKey := resource +:+ ":read" in
  if k == readKey then true
  else negb (bool_decide (is_Some (Lookup readKey)) && negb (bool_decide (readKey ∈ have)))
       && negb ((resource == ResourceMiner) && negb (bool_decide (PermFleetRead ∈ have))).

Definition validateReadPairing (keys : list string) : result AuthError unit :=
  if forallb (pairing_ok keys) keys then Ok tt else Err (Fleet NewInvalidArgumentError).

Definition validateAndNormalizeKeys (keys : list string) : result AuthError (list string) :=
  normalized ← validateAndDedupKeys keys;
  _ ← validateReadPairing normalized;
  Ok normalized.

Definition nullStringIfNonEmpty (s : string) : option string := if s == "" then None else Some s.

Definition mapRolePersistError (e : DbError) : AuthError :=
  match e with
  | UniqueViolation c => if c == "uq_role_org_custom_name" then Fleet NewInvalidArgumentError else Fleet NewInternalError
  | CheckViolation c =>
      if c == "chk_role_custom_name_not_reserved" then Fleet NewInvalidArgumentError else Fleet NewInternalError
  | _ => Fleet NewInternalError
  end.

(** ** The role service *)

Record RoleView := {
  rv_ID : Z;
  rv_Name : string;
  rv_Description : string;
  rv_PermissionKeys : list string;
  rv_Builtin : bool;
  rv_BuiltinKey : string;
  rv_MemberCount : Z
}.

Definition role_view (id : Z) (r : RoleRow) (keys : list string) (count : Z) : RoleView :=
  {| rv_ID := id; rv_Name := rl_Name r; rv_Description := default "" (rl_Description r);
     rv_PermissionKeys := keys; rv_Builtin := rl_IsBuiltin r; rv_BuiltinKey := default "" (rl_BuiltinKey r);
     rv_MemberCount := int32 count |}.

Definition roleDetailRowToView (d : RoleDetailRow) : RoleView :=
  role_view (rd_ID d) (rd_Role d) (rd_PermissionKeys d) (rd_MemberCount d).

Definition display_priority (d : RoleDetailRow) : Z :=
  let key := default "" (rl_BuiltinKey (rd_Role d)) in
  if key == BuiltinKeySuperAdmin then 0 else if key == BuiltinKeyAdmin then 1
  else if key == BuiltinKeyFieldTech then 2 else 0.

Definition display_less (x y : RoleDetailRow) : bool :=
  if rl_IsBuiltin (rd_Role x) != rl_IsBuiltin (rd_Role y) then rl_IsBuiltin (rd_Role x)
  else if rl_IsBuiltin (rd_Role x) then display_priority x <? display_priority y
  else false.

Definition applyBuiltinDisplayOrder (rows : list RoleDetailRow) : list RoleDetailRow := stable_sort display_less rows.

Definition ListRoles (org : Z) : AOp (list RoleView) :=
  rows ← query (ListRolesWithDetailsForOrg org) internal;
  mret (map roleDetailRowToView (applyBuiltinDisplayOrder rows)).

Definition authorizeCallerCanGrant (caller org : Z) (keys : list string) : AOp unit :=
  callerEff ← LoadEffectiveForUpdate caller org;
  if negb (Has (Some callerEff) PermRoleManage None) then refuse NewForbiddenError
  else if negb (forallb (λ k, Has (Some callerEff) k None) keys) then refuse NewForbiddenError
  else mret tt.

Definition getRoleInOrg (org id : Z) : AOp (Z * RoleRow) :=
  role ← query (GetRoleByID id) no_rows_is_invalid;
  if negb (bool_decide (rl_OrganizationID role.2 = Some org)) then refuse NewInvalidArgumentError else mret role.

Definition getRoleInOrgForUpdate (org id : Z) : AOp (Z * RoleRow) :=
  role ← query (GetRoleByIDForUpdate id) no_rows_is_invalid;
  if negb (bool_decide (rl_OrganizationID role.2 = Some org)) then refuse NewInvalidArgumentError else mret role.

Definition setRolePermissions (role : Z) (keys : list string) : AOp unit :=
  if (length keys =? 0)%nat then mret tt
  else
    perms ← query (GetPermissionsByKeys keys) internal;
    if negb (length perms =? length keys)%nat then refuse NewInternalError
    else for_each (λ p, query (AssignPermissionToRole role p.1) internal) perms.

Definition hydrateRole (role : Z * RoleRow) : AOp RoleView :=
  keys ← query (ListRolePermissionKeys role.1) internal;
  count ← query (CountActiveAssignmentsForRole role.1) internal;
  mret (role_view role.1 role.2 keys count).

Section Roles.
Context `{Collation}.

Definition create_role_tx (caller org : Z) (name description : string) (keys : list string) : AOp RoleView :=
  _ ← authorizeCallerCanGrant caller org keys;
  role ← query (CreateCustomRole_row org name (nullStringIfNonEmpty description)) mapRolePersistError;
  _ ← setRolePermissions role.1 keys;
  hydrateRole role.

Definition CreateCustomRole (caller org : Z) (name description : string) (permissionKeys : list string) : AOp RoleView :=
  let trimmedName := TrimSpace name in
  _ ← lift (validateRoleName trimmedName);
  normalized ← lift (validateAndNormalizeKeys permissionKeys);
  RunInTx (create_role_tx caller org trimmedName (TrimSpace description) normalized).

Definition update_role_tx (caller org id : Z) (name description : string) (keys : list string) : AOp RoleView :=
  existing ← getRoleInOrg org id;
  if rl_IsBuiltin existing.2 then refuse NewForbiddenError
  else
    _ ← authorizeCallerCanGrant caller org keys;
    _ ← query (UpdateCustomRoleName id name (nullStringIfNonEmpty description)) mapRolePersistError;
    _ ← query (ClearRolePermissions id) internal;
    _ ← setRolePermissions id keys;
    updated ← query (GetRoleByID id) no_rows_is_invalid;
    hydrateRole updated.

Definition UpdateCustomRole (caller org id : Z) (name description : string) (permissionKeys : list string) : AOp RoleView :=
  let trimmedName := TrimSpace name in
  _ ← lift (validateRoleName trimmedName);
  normalized ← lift (validateAndNormalizeKeys permissionKeys);
  RunInTx (update_role_tx caller org id trimmedName (TrimSpace description) normalized).

End Roles.

Definition delete_role_tx (caller org id : Z) : AOp unit :=
  _ ← authorizeCallerCanGrant caller org [];
  existing ← getRoleInOrgForUpdate org id;
  if rl_IsBuiltin existing.2 then refuse NewForbiddenError
  else
    count ← query (CountActiveAssignmentsForRole id) internal;
    if 0 <? count then refuse NewFailedPreconditionError
    else query (SoftDeleteCustomRole id) internal.

Definition DeleteCustomRole (caller org id : Z) : AOp unit := RunInTx (delete_role_tx caller org id).

(** ** Reconciliation at boot *)

Definition lookupSeedPermissions (spec : BuiltinRoleSpec) : AOp (list (Z * PermissionRow)) :=
  perms ← query (GetPermissionsByKeys (bs_SeedPermissions spec)) plain;
  if negb (length perms =? length (bs_SeedPermissions spec))%nat then fail Plain else mret perms.

Definition assignSeedPermissions (role : Z) (spec : BuiltinRoleSpec) : AOp unit :=
  perms ← lookupSeedPermissions spec;
  for_each (λ p, query (AssignPermissionToRole role p.1) plain) perms.

Definition fullyReconcilePermissions (role : Z) (spec : BuiltinRoleSpec) : AOp unit :=
  _ ← assignSeedPermissions role spec;
  query (PrunePermissionsOutsideKeys role (bs_SeedPermissions spec)) plain.

(** The role of one specification: reconciled if it exists, created otherwise. *)
Definition seed_builtin (org : Z) (spec : BuiltinRoleSpec) : AOp Z := λ db,
  match GetBuiltinRoleForOrg org (bs_Key spec) db with
  | (Ok existing, db) =>
      (_ ← when (bool_decide (bs_Mode spec = ReconcileFull)) (fullyReconcilePermissions existing.1 spec);
       mret existing.1) db
  | (Err ErrNoRows, db) =>
      (role ← query (UpsertBuiltinRoleForOrg org (bs_Name spec) (bs_Description spec) (bs_Key spec)) plain;
       _ ← assignSeedPermissions role.1 spec;
       mret role.1) db
  | (Err _, db) => (Err Plain, db)
  end.

Fixpoint seed_builtins (org : Z) (ids : gmap string Z) (specs : list BuiltinRoleSpec) : AOp (gmap string Z) :=
  match specs with
  | [] => mret ids
  | spec :: rest => id ← seed_builtin org spec; seed_builtins org (<[bs_Key spec := id]> ids) rest
  end.

Definition SeedOrgBuiltins (org : Z) : AOp (gmap string Z) := seed_builtins org ∅ BuiltinRoles.

Definition upsertCatalog : AOp unit :=
  for_each (λ e, _ ← query (UpsertPermission (ce_Key e) (ce_Description e)) plain; mret tt) catalog.

Definition reconcile_tx : AOp unit :=
  _ ← upsertCatalog;
  orgIDs ← query ListActiveOrganizationIDs plain;
  for_each (λ org, _ ← SeedOrgBuiltins org; mret tt) orgIDs.

Definition Reconcile : AOp unit := RunInTx reconcile_tx.
