(* ===== verification/AuthService.v ===== *)
(** * Users, passwords and sessions

    [internal/domain/auth] (service.go, password.go, password_attempts.go,
    break_glass.go), the session service ([internal/domain/session/service.go]) and the
    parts of [stores/sqlstores/user.go] that run several statements. Clock readings,
    random bytes, generated identifiers and the caller's session are arguments; bcrypt
    and the table of repair tickets are the class [AuthEnv]. The activity log, cookies
    and transient failures of the database are not modelled. *)

From S2P Require Import Prelude GoSort Errors RolloutBehavior GoTime GoBase64.
From S2P Require Import AuthzPermissions AuthzStore AuthzService.
#[local] Open Scope string_scope.
#[local] Open Scope list_scope.
#[local] Open Scope Z_scope.
#[local] Open Scope go_scope.

(** ** Passwords *)

Definition minimumPasswordLength : Z := 8.
Definition maximumPasswordBytes : Z := 72.
Definition temporaryPasswordBytes : nat := 24.
Definition temporaryPasswordLength : nat := 32.

Definition ValidatePassword (password : string) : bool :=
  utf8_valid password && negb (RuneCountInString password <? minimumPasswordLength)
  && negb (maximumPasswordBytes <? Z.of_nat (length (bytes password))).

(** [random] are the bytes of the random source. *)
Definition GenerateTemporaryPassword (random : list Z) : string :=
  string_of_bytes (take temporaryPasswordLength (base64_raw (take temporaryPasswordBytes random))).

(** ** Attempts *)

Definition passwordAttemptWindow : Z := Minute.
Definition max_attempts : Z := 10.
Definition max_entries : Z := 10000.

(** An entry is the start of its window and its count; [None] is the zero time. *)
Record passwordAttempts := { pa_entries : gmap Z (Z * Z); pa_nextExpiry : option Z }.

Definition no_attempts : passwordAttempts := {| pa_entries := ∅; pa_nextExpiry := None |}.

Definition before (now : Z) (t : option Z) : bool := match t with Some t => now <? t | None => false end.

Definition earliest (t : option Z) (expires : Z) : option Z :=
  match t with Some t => Some (if expires <? t then expires else t) | None => Some expires end.

(** Drop the expired entries and recompute the next expiry from the others. *)
Definition sweep (l : passwordAttempts) (now : Z) : passwordAttempts :=
  let kept := filter (λ kv, now < kv.2.1 + passwordAttemptWindow) (pa_entries l) in
  {| pa_entries := kept;
     pa_nextExpiry := map_fold (λ _ e t, earliest t (e.1 + passwordAttemptWindow)) None kept |}.

Definition open_window (l : passwordAttempts) (user now : Z) : bool * passwordAttempts :=
  (true, {| pa_entries := <[user := (now, 1)]> (pa_entries l);
            pa_nextExpiry := earliest (pa_nextExpiry l) (now + passwordAttemptWindow) |}).

Definition open_or_sweep (l : passwordAttempts) (user now : Z) : bool * passwordAttempts :=
  if bool_decide (pa_entries l !! user = None) && (max_entries <=? Z.of_nat (size (pa_entries l))) then
    if before now (pa_nextExpiry l) then (false, l)
    else
      let l := sweep l now in
      if max_entries <=? Z.of_nat (size (pa_entries l)) then (false, l) else open_window l user now
  else open_window l user now.

Definition allow (l : passwordAttempts) (user now : Z) : bool * passwordAttempts :=
  match pa_entries l !! user with
  | Some (started, count) =>
      if now <? started + passwordAttemptWindow then
        if max_attempts <=? count then (false, l)
        else (true, {| pa_entries := <[user := (started, count + 1)]> (pa_entries l);
                       pa_nextExpiry := pa_nextExpiry l |})
      else open_or_sweep l user now
  | None => open_or_sweep l user now
  end.

(** ** Sessions *)

Section Sessions.
Context (duration : Z).

Definition session_Create (now : Z) (sessionID : string) (user org : Z) : AOp SessionRow :=
  let row := {| se_UserID := user; se_OrganizationID := org; se_LastActivity := now;
                se_ExpiresAt := now + duration; se_RevokedAt := None |} in
  _ ← query (CreateSession sessionID row) internal;
  mret row.

Definition session_Validate (now : Z) (sessionID : string) : AOp SessionRow :=
  row ← query (GetSessionByID sessionID) (λ _, Fleet NewUnauthenticatedError);
  if se_ExpiresAt row <? now then refuse NewUnauthenticatedError
  else
    _ ← query (UpdateSessionActivity sessionID now (now + duration)) internal;
    mret (row <| se_LastActivity := now |> <| se_ExpiresAt := now + duration |>).

End Sessions.

Definition session_Revoke (now : Z) (sessionID : string) : AOp unit := query (RevokeSession sessionID now) plain.

Definition RevokeAllSessions (now user : Z) : AOp unit := query (RevokeAllSessionsByUserID user now) internal.

Definition CleanupExpired (now : Z) : AOp Z := query (DeleteExpiredSessions now) plain.

(** ** User management *)

(** bcrypt, which refuses passwords past 72 bytes, and the number of open repair
    tickets of a user in an organization. *)
Class AuthEnv := {
  bcrypt_Generate : string → option string;
  bcrypt_Compare : string → string → bool;
  active_tickets : Z → Z → Z
}.

(** The hierarchy of user management. *)
Definition requireCallerCanManageTarget (callerEff targetEff : option EffectivePermissions) : result AuthError unit :=
  let allowed := if Has callerEff PermRoleManage None then IsSubsumedBy targetEff callerEff
                 else StrictlyDominates callerEff targetEff in
  match allowed with
  | None => Err Panicked
  | Some true => Ok tt
  | Some false => Err (Fleet NewForbiddenError)
  end.

(** The effective permissions of a user who holds one role at organization scope. *)
Definition role_effective (keys : list string) : EffectivePermissions :=
  NewEffectivePermissions [{| as_AssignmentID := 0; as_ScopeType := ScopeOrg; as_SiteID := None; as_Permissions := keys |}].

(** The one organization of the caller. *)
Definition caller_organization (user : Z) : AOp Z :=
  orgs ← query (GetOrganizationsForUser user) internal;
  match orgs with [org] => mret org | _ => refuse NewInternalError end.

(** The role of a wire identifier: live, of the organization, and not the super
    administrator's. *)
Definition assignable_role (org : Z) (roleID : string) : AOp (Z * RoleRow) :=
  match ParseRoleID roleID with
  | Err e => refuse e
  | Ok parsed =>
      role ← query (GetRoleByIDForUpdate parsed) no_rows_is_invalid;
      if negb (bool_decide (rl_OrganizationID role.2 = Some org)) then refuse NewInvalidArgumentError
      else if default "" (rl_BuiltinKey role.2) == BuiltinKeySuperAdmin then refuse NewInvalidArgumentError
      else mret role
  end.

Definition resolveCreateUserRole (caller org : Z) (roleID : string) : AOp (Z * RoleRow) :=
  if roleID == "" then refuse NewInvalidArgumentError
  else
    role ← assignable_role org roleID;
    targetKeys ← query (ListRolePermissionKeys role.1) internal;
    callerEff ← LoadEffective caller org;
    _ ← lift (requireCallerCanManageTarget (Some callerEff) (Some (role_effective targetKeys)));
    mret role.

Definition authorizeCallerForUser (caller org : Z) (targetExternalID : string) : AOp (Z * UserRow) :=
  target ← query (GetUserByExternalId targetExternalID) (λ _, Fleet NewInvalidArgumentError);
  _ ← query (GetUserRoleName target.1 org) no_rows_is_invalid;
  targetEff ← LoadEffective target.1 org;
  callerEff ← LoadEffective caller org;
  _ ← lift (requireCallerCanManageTarget (Some callerEff) (Some targetEff));
  mret target.

(** [SQLUserStore.CreateUserOrganizationRole]. *)
Definition CreateUserOrganizationRole (user org role : Z) : AOp unit :=
  _ ← query (CreateUserOrganization user org role) internal;
  _ ← query (AssignRole user org role ScopeOrg None) internal;
  mret tt.

(** [SQLUserStore.UpdateUserOrganizationRole]. *)
Definition UpdateUserOrganizationRole (user org oldAssignment newRole : Z) : AOp unit :=
  _ ← query (UpdateUserRole_row newRole user org) internal;
  _ ← query (UnassignRole oldAssignment) internal;
  _ ← query (AssignRole user org newRole ScopeOrg None) internal;
  mret tt.

(** Any failure becomes an internal error. *)
Definition or_internal {A} (m : AOp A) : AOp A := λ db,
  match m db with (Ok a, db') => (Ok a, db') | (Err _, db') => (Err (Fleet NewInternalError), db') end.

(** [SQLUserStore.CreateAdminUserWithOrganization]. *)
Definition CreateAdminUserWithOrganization (userID username hash orgName orgID : string) : AOp unit :=
  user ← query (CreateUser_row userID username hash false) internal;
  org ← query (CreateOrganization orgID orgName) internal;
  builtinIDs ← or_internal (SeedOrgBuiltins org);
  match builtinIDs !! BuiltinKeySuperAdmin with
  | None => refuse NewInternalError
  | Some role =>
      _ ← query (CreateUserOrganization user org role) internal;
      _ ← query (AssignRole user org role ScopeOrg None) internal;
      mret tt
  end.

Section Users.
Context `{AuthEnv}.

Definition hash_password (password : string) : AOp string :=
  match bcrypt_Generate password with Some h => mret h | None => refuse NewInternalError end.

(** A slice of the first eight bytes; it panics on a shorter identifier. *)
Definition generateDefaultOrgName (orgID : string) : result AuthError string :=
  if (length (bytes orgID) <? 8)%nat then Err Panicked
  else Ok ("Organization " +:+ string_of_bytes (take 8 (bytes orgID))).

Definition onboard_tx (userID username hash orgName orgID : string) : AOp unit :=
  hasUser ← query HasUser plain;
  if hasUser : bool then refuse (NewPlainError CodeAlreadyExists)
  else CreateAdminUserWithOrganization userID username hash orgName orgID.

Definition CreateAdminUser (userID orgID username password : string) : AOp unit :=
  if (username == "") || (password == "") || negb (ValidatePassword password) then refuse NewInvalidArgumentError
  else
    hash ← hash_password password;
    orgName ← lift (generateDefaultOrgName orgID);
    RunInTx (onboard_tx userID username hash orgName orgID).

Definition UpdateUsername (user : Z) (username : string) : AOp unit :=
  let trimmed := TrimSpace username in
  if trimmed == "" then refuse NewInvalidArgumentError
  else query (UpdateUserUsername user trimmed) plain.

(** A duplicate is the caller's mistake. *)
Definition duplicate_user (e : DbError) : AuthError :=
  match e with UniqueViolation _ => Fleet (NewPlainError CodeAlreadyExists) | _ => Fleet NewInternalError end.

Definition create_user_tx (caller org : Z) (userID username hash roleID : string) : AOp unit :=
  role ← resolveCreateUserRole caller org roleID;
  user ← query (CreateUser_row userID username hash true) duplicate_user;
  CreateUserOrganizationRole user org role.1.

Definition CreateUser (caller : Z) (random : list Z) (userID username roleID : string) : AOp string :=
  let trimmed := TrimSpace username in
  if trimmed == "" then refuse NewInvalidArgumentError
  else
    org ← caller_organization caller;
    let tempPassword := GenerateTemporaryPassword random in
    hash ← hash_password tempPassword;
    _ ← RunInTx (create_user_tx caller org userID trimmed hash roleID);
    mret tempPassword.

(** Password and sessions, together. *)
Definition reset_password_tx (now user : Z) (hash : string) : AOp unit :=
  _ ← query (AdminResetUserPassword now user hash) internal;
  RevokeAllSessions now user.

Definition ResetUserPassword (caller now : Z) (random : list Z) (targetID : string) : AOp string :=
  if targetID == "" then refuse NewInvalidArgumentError
  else
    org ← caller_organization caller;
    user ← authorizeCallerForUser caller org targetID;
    let tempPassword := GenerateTemporaryPassword random in
    hash ← hash_password tempPassword;
    _ ← RunInTx (reset_password_tx now user.1 hash);
    mret tempPassword.

(** The guard of the last super administrator; it reads what the transaction locked. *)
Definition super_admin_guard (org : Z) (builtinKey : option string) : AOp unit :=
  if default "" builtinKey == BuiltinKeySuperAdmin then
    total ← query (LockAndCountOrgScopeSuperAdmins org) internal;
    if total <=? 1 then refuse NewFailedPreconditionError else mret tt
  else mret tt.

(** The guard when the target has an assignment; the missing row is not an error. *)
Definition deactivation_guard (org user : Z) : AOp unit := λ db,
  match GetOrgScopeAssignmentForUser user org db with
  | (Ok current, db) => (_ ← query (GetUserByIdForUpdate user) internal; super_admin_guard org current.2) db
  | (Err ErrNoRows, db) => (_ ← query (GetUserByIdForUpdate user) internal; mret tt) db
  | (Err _, db) => (Err (Fleet NewInternalError), db)
  end.

Definition deactivate_tx (org user : Z) : AOp unit :=
  _ ← deactivation_guard org user;
  if 0 <? active_tickets org user then refuse NewFailedPreconditionError
  else query (SoftDeleteUser user) plain.

Definition DeactivateUser (caller : Z) (targetID : string) : AOp unit :=
  if targetID == "" then refuse NewInvalidArgumentError
  else
    org ← caller_organization caller;
    currentUser ← query (GetUserById caller) internal;
    if us_UserID currentUser == targetID then refuse NewInvalidArgumentError
    else
      user ← authorizeCallerForUser caller org targetID;
      RunInTx (deactivate_tx org user.1).

Definition update_user_role_tx (caller org target : Z) (roleID : string) : AOp bool :=
  newRole ← assignable_role org roleID;
  current ← query (GetOrgScopeAssignmentForUser target org) no_rows_is_invalid;
  if current.1.2 =? newRole.1 then mret false
  else
    targetCurrentEff ← LoadEffectiveForUpdate target org;
    newRoleKeys ← query (ListRolePermissionKeys newRole.1) internal;
    callerEff ← LoadEffectiveForUpdate caller org;
    _ ← lift (requireCallerCanManageTarget (Some callerEff) (Some targetCurrentEff));
    _ ← lift (requireCallerCanManageTarget (Some callerEff) (Some (role_effective newRoleKeys)));
    _ ← super_admin_guard org current.2;
    _ ← UpdateUserOrganizationRole target org current.1.1 newRole.1;
    mret true.

Definition UpdateUserRole (caller : Z) (targetID roleID : string) : AOp bool :=
  if (targetID == "") || (roleID == "") then refuse NewInvalidArgumentError
  else
    org ← caller_organization caller;
    target ← query (GetUserByExternalId targetID) (λ _, Fleet NewInvalidArgumentError);
    RunInTx (update_user_role_tx caller org target.1 roleID).

(** ** Break glass *)

Definition break_glass_tx (now : Z) (hash : string) : AOp Z :=
  admins ← query LockActiveSuperAdminUsers plain;
  match admins with
  | [(user, org)] =>
      rowsAffected ← query (AdminResetUserPassword now user hash) plain;
      if negb (rowsAffected =? 1) then fail Plain
      else
        _ ← RevokeAllSessions now user;
        mret user
  | _ => fail Plain
  end.

Definition ResetSuperAdminPassword (now : Z) (password : string) : AOp Z :=
  if negb (ValidatePassword password) then fail Plain
  else match bcrypt_Generate password with
  | None => fail Plain
  | Some hash => RunInTx (break_glass_tx now hash)
  end.

End Users.

(** * Login

    The operations of [internal/domain/auth/service.go] that check a password: login,
    verification and change of password. Their state is the tables and the two counters
    of attempts. A login reads the user without a lock, compares the password, and opens
    the session in a transaction that reads the user again. *)

Record AuthState := {
  at_db : AuthDB;
  at_loginAttempts : passwordAttempts;
  at_stepUpAttempts : passwordAttempts
}.

#[export] Instance eta_AuthState : Eta AuthState := λ s,
  {| at_db := at_db s; at_loginAttempts := at_loginAttempts s; at_stepUpAttempts := at_stepUpAttempts s |}.

Definition LOp (A : Type) : Type := M AuthState AuthError A.

(** An operation on the tables. *)
Definition on_db {A} (m : AOp A) : LOp A := λ s,
  let '(r, db) := m (at_db s) in (r, s <| at_db := db |>).

Definition denied : AuthError := Fleet NewUnauthenticatedError.
Definition throttled : AuthError := Fleet NewResourceExhaustedError.

Definition check_login (user now : Z) (refusal : AuthError) : LOp unit := λ s,
  let '(ok, l) := allow (at_loginAttempts s) user now in
  (if ok then Ok tt else Err refusal, s <| at_loginAttempts := l |>).

Definition check_stepUp (user now : Z) : LOp unit := λ s,
  let '(ok, l) := allow (at_stepUpAttempts s) user now in
  (if ok then Ok tt else Err throttled, s <| at_stepUpAttempts := l |>).

(** What a login knows when it opens its transaction. *)
Record LoginSnapshot := { sn_User : Z; sn_Org : Z; sn_PasswordUpdatedAt : option Z }.

Record LoginResponse := {
  lr_SessionExpiry : Z;
  lr_Role : string;
  lr_RequiresPasswordChange : bool;
  lr_Permissions : list string
}.

Section Login.
Context `{AuthEnv} (duration : Z).

Definition not_found_is_denied (e : DbError) : AuthError :=
  match e with ErrNoRows => denied | _ => Fleet NewInternalError end.

(** Steps 1 and 2: the optimistic read and the comparison. *)
Definition login_read (now : Z) (username password : string) : LOp (LoginSnapshot * UserRow) :=
  if (username == "") || (255 <? RuneCountInString username) then fail denied
  else
    user ← on_db (query (GetUserByUsername username) not_found_is_denied);
    _ ← check_login user.1 now denied;
    org ← on_db (caller_organization user.1);
    if negb (bcrypt_Compare (us_PasswordHash user.2) password) then fail denied
    else mret ({| sn_User := user.1; sn_Org := org; sn_PasswordUpdatedAt := us_PasswordUpdatedAt user.2 |}, user.2).

(** Step 3: the user again, under a lock, and the session. *)
Definition login_tx (now : Z) (sessionID : string) (snap : LoginSnapshot) : AOp SessionRow :=
  freshUser ← query (GetUserByIdForUpdate (sn_User snap)) plain;
  if negb (bool_decide (us_PasswordUpdatedAt freshUser = sn_PasswordUpdatedAt snap)) then fail denied
  else
    _ ← query (UpdateLastLogin now (sn_User snap)) plain;
    session_Create duration now sessionID (sn_User snap) (sn_Org snap).

Definition AuthenticateUser (now : Z) (sessionID username password : string) : LOp LoginResponse :=
  p ← login_read now username password;
  sess ← on_db (RunInTx (login_tx now sessionID p.1));
  roleName ← on_db (query (GetUserRoleName (sn_User p.1) (sn_Org p.1)) internal);
  eff ← on_db (LoadEffective (sn_User p.1) (sn_Org p.1));
  mret {| lr_SessionExpiry := se_ExpiresAt sess; lr_Role := roleName;
          lr_RequiresPasswordChange := us_RequiresPasswordChange p.2; lr_Permissions := Keys (Some eff) |}.

Definition AuthMethodAPIKey := "api_key".

Definition Logout (now : Z) (info : Info) : AOp unit :=
  if in_AuthMethod info == AuthMethodAPIKey then refuse NewFailedPreconditionError
  else or_internal (session_Revoke now (in_SessionID info)).

Definition VerifyCredentials (now : Z) (username password : string) : LOp unit :=
  if (username == "") || (password == "") then fail (Fleet NewInvalidArgumentError)
  else
    user ← on_db (query (GetUserByUsername username) (λ _, Fleet NewForbiddenError));
    _ ← check_login user.1 now (Fleet NewForbiddenError);
    if negb (bcrypt_Compare (us_PasswordHash user.2) password) then fail (Fleet NewForbiddenError) else mret tt.

Definition VerifySessionCredentials (now : Z) (info : Info) (username password : string) : LOp unit :=
  if (username == "") || (password == "") then fail (Fleet NewInvalidArgumentError)
  else
    _ ← check_stepUp (in_UserID info) now;
    user ← on_db (query (GetUserById (in_UserID info)) internal);
    if negb (us_Username user == username) || negb (bcrypt_Compare (us_PasswordHash user) password)
    then fail (Fleet NewForbiddenError) else mret tt.

Definition update_password_tx (now : Z) (sessionID hash : string) (info : Info) (snapshot : option Z) : AOp SessionRow :=
  freshUser ← query (GetUserByIdForUpdate (in_UserID info)) (λ _, Fleet NewForbiddenError);
  if negb (bool_decide (us_PasswordUpdatedAt freshUser = snapshot)) then refuse NewInvalidArgumentError
  else
    _ ← query (UpdateUserPasswordAndFlag now (in_UserID info) hash) internal;
    _ ← RevokeAllSessions now (in_UserID info);
    or_internal (session_Create duration now sessionID (in_UserID info) (in_OrganizationID info)).

Definition UpdatePassword (now : Z) (sessionID : string) (info : Info) (current new : string) : LOp Z :=
  if (current == new) || negb (ValidatePassword new) then fail (Fleet NewInvalidArgumentError)
  else
    _ ← check_stepUp (in_UserID info) now;
    user ← on_db (query (GetUserById (in_UserID info)) (λ _, Fleet NewForbiddenError));
    if negb (bcrypt_Compare (us_PasswordHash user) current) then fail (Fleet NewInvalidArgumentError)
    else
      hash ← on_db (hash_password new);
      sess ← on_db (RunInTx (update_password_tx now sessionID hash info (us_PasswordUpdatedAt user)));
      mret (se_ExpiresAt sess).

End Login.
