(* ===== verification/AuthzResolverFacts.v ===== *)
(** * The tables decide what a user may do

    Reads of the tables as relations, and the narrowing rule stated on the tables
    ([may]); the resolver's query, its grouping of rows and [Has] compute it. *)

From S2P Require Import Prelude GoSort Errors RolloutBehaviorFacts CommandFilter.
From S2P Require Import AuthzPermissions AuthzStore AuthzService.
#[local] Open Scope string_scope.
#[local] Open Scope list_scope.
#[local] Open Scope Z_scope.
#[local] Open Scope go_scope.

(** ** Reads *)

Lemma find_row_Some {K A} `{Countable K} (p : K → A → bool) (m : gmap K A) k a :
  find_row p m = Some (k, a) → m !! k = Some a ∧ p k a = true.
Proof.
  unfold find_row. intros [Hin Hp]%List.find_some. apply list_elem_of_In, elem_of_map_to_list in Hin. done.
Qed.

Lemma find_row_None {K A} `{Countable K} (p : K → A → bool) (m : gmap K A) :
  find_row p m = None ↔ ∀ k a, m !! k = Some a → p k a = false.
Proof.
  unfold find_row. split.
  - intros Hf k a Hk. apply (List.find_none _ _ Hf (k, a)). by apply list_elem_of_In, elem_of_map_to_list.
  - intros Hn. destruct (List.find _ _) as [[k a]|] eqn:E; [|done].
    apply List.find_some in E as [Hin Hp]. apply list_elem_of_In, elem_of_map_to_list in Hin.
    simpl in Hp. by rewrite (Hn _ _ Hin) in Hp.
Qed.

Lemma find_row_is_Some {K A} `{Countable K} (p : K → A → bool) (m : gmap K A) k a :
  m !! k = Some a → p k a = true → ∃ kv, find_row p m = Some kv.
Proof.
  intros Hk Hp. destruct (find_row p m) as [kv|] eqn:E; [by eexists|].
  rewrite (proj1 (find_row_None p m) E k a Hk) in Hp. done.
Qed.

Lemma has_row_false {K A} `{Countable K} (p : K → A → bool) (m : gmap K A) :
  has_row p m = false ↔ ∀ k a, m !! k = Some a → p k a = false.
Proof.
  unfold has_row. rewrite bool_decide_eq_false, <- find_row_None. split; [|congruence].
  destruct (find_row p m); [|done]. intros Hn. by destruct Hn.
Qed.

Lemma elem_of_select_ids {A} (p : Z → A → bool) (m : gmap Z A) k :
  k ∈ select_ids p m ↔ ∃ a, m !! k = Some a ∧ p k a = true.
Proof.
  unfold select_ids. rewrite stable_sort_elem, list_elem_of_fmap. split.
  - intros ([k' a] & -> & [Hk Hp]%elem_of_List_filter). apply elem_of_map_to_list in Hk. eauto.
  - intros (a & Hk & Hp). exists (k, a). split; [done|]. apply elem_of_List_filter.
    split; [by apply elem_of_map_to_list|done].
Qed.

Lemma select_ids_NoDup {A} (p : Z → A → bool) (m : gmap Z A) : NoDup (select_ids p m).
Proof.
  unfold select_ids. rewrite stable_sort_perm. eapply sublist_NoDup; [apply (NoDup_fst_map_to_list m)|].
  apply fmap_sublist, list_filter_sublist.
Qed.

Lemma next_id_bound {A} (m : gmap Z A) k a : m !! k = Some a → k < next_id m.
Proof.
  unfold next_id. intros Hk. enough (k <= map_fold (λ k _ n, Z.max k n) 0 m) by lia. revert Hk.
  apply (map_fold_weak_ind (λ n m, m !! k = Some a → k <= n)).
  - by rewrite lookup_empty.
  - intros i x m' n Hi IH. rewrite lookup_insert_Some. intros [[-> _]|[Hne Hk]]; [lia|]. specialize (IH Hk). lia.
Qed.

Lemma next_id_fresh {A} (m : gmap Z A) : m !! next_id m = None.
Proof. destruct (m !! next_id m) as [a|] eqn:E; [|done]. apply next_id_bound in E. lia. Qed.

Lemma live_user_Some db id u : live_user db id = Some u ↔ au_users db !! id = Some u ∧ us_Deleted u = false.
Proof.
  unfold live_user. destruct (au_users db !! id) as [v|]; [|naive_solver].
  destruct (us_Deleted v) eqn:E; split; [done|intros [[= ->] ?]; congruence|by intros [= ->]|by intros [? _]].
Qed.

Lemma live_role_Some db id r : live_role db id = Some r ↔ au_roles db !! id = Some r ∧ rl_Deleted r = false.
Proof.
  unfold live_role. destruct (au_roles db !! id) as [v|]; [|naive_solver].
  destruct (rl_Deleted v) eqn:E; split; [done|intros [[= ->] ?]; congruence|by intros [= ->]|by intros [? _]].
Qed.

(** ** The narrowing rule on the tables *)

(** The role has the permission. *)
Definition role_grants (db : AuthDB) (role : Z) (key : string) : Prop :=
  ∃ p row, (role, p) ∈ au_role_permissions db ∧ au_permissions db !! p = Some row ∧ pe_Key row = key.

(** The scope of an assignment: the organization, or a site. *)
Definition at_scope (a : AssignmentRow) (rc : ResourceContext) : Prop :=
  match rc with
  | None => ar_ScopeType a = ScopeOrg
  | Some s => ar_ScopeType a = ScopeSite ∧ ar_ScopeID a = Some s
  end.

(** The user holds the role at the scope, by a live assignment of a live role. *)
Definition holds_role (db : AuthDB) (user org : Z) (rc : ResourceContext) (role : Z) : Prop :=
  ∃ id a, au_assignments db !! id = Some a ∧ ar_UserID a = user ∧ ar_OrganizationID a = org
    ∧ active_assignment db a = true ∧ at_scope a rc ∧ ar_RoleID a = role.

Definition granted_at (db : AuthDB) (user org : Z) (rc : ResourceContext) (key : string) : Prop :=
  ∃ role, holds_role db user org rc role ∧ role_grants db role key.

(** A site assignment narrows the organization's grant at its site. *)
Definition may (db : AuthDB) (user org : Z) (key : string) (rc : ResourceContext) : Prop :=
  match rc with
  | None => granted_at db user org None key
  | Some s => granted_at db user org (Some s) key
      ∨ (¬ ∃ role, holds_role db user org (Some s) role) ∧ granted_at db user org None key
  end.

(** ** Building the permissions *)

Definition org_assignment (a : Assignment) : Prop := as_ScopeType a = ScopeOrg.
Definition site_assignment (s : Z) (a : Assignment) : Prop := as_ScopeType a = ScopeSite ∧ as_SiteID a = Some s.

Lemma add_assignment_org out a key :
  key ∈ orgScope (add_assignment out a) ↔ key ∈ orgScope out ∨ (org_assignment a ∧ key ∈ as_Permissions a).
Proof.
  unfold add_assignment, org_assignment. case_bool_decide as Eo; simpl.
  - rewrite elem_of_union, elem_of_list_to_set. naive_solver.
  - repeat case_match; naive_solver.
Qed.

Lemma add_assignment_site out a s key :
  (is_Some (bySite (add_assignment out a) !! s) ↔ is_Some (bySite out !! s) ∨ site_assignment s a)
  ∧ (key ∈ default ∅ (bySite (add_assignment out a) !! s)
     ↔ key ∈ default ∅ (bySite out !! s) ∨ (site_assignment s a ∧ key ∈ as_Permissions a)).
Proof.
  unfold add_assignment, site_assignment. case_bool_decide as Eo; simpl.
  { rewrite Eo. naive_solver. }
  case_bool_decide as Es; simpl; [|naive_solver]. rewrite Es.
  destruct (as_SiteID a) as [s'|] eqn:Ei; simpl; [|naive_solver].
  destruct (decide (s' = s)) as [->|Hne].
  - rewrite lookup_insert_eq. simpl. rewrite elem_of_union, elem_of_list_to_set. naive_solver.
  - rewrite lookup_insert_ne by done. naive_solver.
Qed.

Lemma fold_assignments l out s key :
  (key ∈ orgScope (fold_left add_assignment l out)
   ↔ key ∈ orgScope out ∨ ∃ a, a ∈ l ∧ org_assignment a ∧ key ∈ as_Permissions a)
  ∧ (is_Some (bySite (fold_left add_assignment l out) !! s)
     ↔ is_Some (bySite out !! s) ∨ ∃ a, a ∈ l ∧ site_assignment s a)
  ∧ (key ∈ default ∅ (bySite (fold_left add_assignment l out) !! s)
     ↔ key ∈ default ∅ (bySite out !! s) ∨ ∃ a, a ∈ l ∧ site_assignment s a ∧ key ∈ as_Permissions a).
Proof.
  revert out. induction l as [|a l IH]; intros out; simpl.
  { setoid_rewrite elem_of_nil. naive_solver. }
  destruct (IH (add_assignment out a)) as (-> & -> & ->). rewrite add_assignment_org.
  destruct (add_assignment_site out a s key) as [-> ->]. setoid_rewrite elem_of_cons. naive_solver.
Qed.

(** What a list of assignments grants. *)
Lemma NewEffectivePermissions_grants l key rc :
  grants (NewEffectivePermissions l) key rc ↔
  match rc with
  | None => ∃ a, a ∈ l ∧ org_assignment a ∧ key ∈ as_Permissions a
  | Some s => (∃ a, a ∈ l ∧ site_assignment s a ∧ key ∈ as_Permissions a)
      ∨ (¬ ∃ a, a ∈ l ∧ site_assignment s a) ∧ ∃ a, a ∈ l ∧ org_assignment a ∧ key ∈ as_Permissions a
  end.
Proof.
  unfold NewEffectivePermissions. set (out := {| orgScope := ∅; bySite := ∅ |}).
  destruct rc as [s|]; unfold grants, keys_at.
  - destruct (fold_assignments l out s key) as (Ho & Hs & Hk). simpl in Ho, Hs, Hk.
    rewrite lookup_empty in Hs, Hk. simpl in Hk.
    destruct (bySite _ !! s) as [keys|]; simpl in *.
    + split; [intros Hkey; left; set_solver|]. intros [H|[Hn _]]; [set_solver|].
      exfalso. apply Hn. destruct (proj1 Hs) as [[? [=]]|?]; [by eexists|done].
    + assert (¬ ∃ a, a ∈ l ∧ site_assignment s a) as Hn.
      { intros Hx. destruct (proj2 Hs) as [? [=]]. by right. }
      split; [intros Hkey; right; split; [done|]; set_solver|]. intros [(a & ? & ? & _)|[_ H]]; [|set_solver].
      exfalso. eauto.
  - destruct (fold_assignments l out 0 key) as (Ho & _). simpl in Ho. set_solver.
Qed.

(** ** The rows of the resolver *)

Lemma permission_keys_of_Some db role key :
  Some key ∈ permission_keys_of role db ↔ role_grants db role key.
Proof.
  unfold permission_keys_of, role_grants. rewrite list_elem_of_fmap. split.
  - intros ([r p] & Hk & [Hin Hr]%elem_of_List_filter). simpl in *. apply Z.eqb_eq in Hr as ->.
    rewrite elem_of_elements in Hin. symmetry in Hk. apply fmap_Some in Hk as (row & Hp & ->). eauto.
  - intros (p & row & Hin & Hp & <-). exists (role, p). simpl. rewrite Hp. split; [done|].
    apply elem_of_List_filter. by rewrite elem_of_elements, Z.eqb_refl.
Qed.

Lemma left_join_keys_Some db role key :
  Some key ∈ left_join_keys role db ↔ role_grants db role key.
Proof.
  rewrite <- permission_keys_of_Some, <- (stable_sort_elem nulls_first (Some key) (permission_keys_of role db)).
  unfold left_join_keys. destruct (stable_sort nulls_first _) as [|k ks]; [|reflexivity]. set_solver.
Qed.

Lemma left_join_keys_cons role db : ∃ k ks, left_join_keys role db = k :: ks.
Proof. unfold left_join_keys. destruct (stable_sort _ _); eauto. Qed.

Lemma role_keys_spec role db key : key ∈ role_keys role db ↔ role_grants db role key.
Proof.
  unfold role_keys. rewrite stable_sort_elem, list_elem_of_omap, <- permission_keys_of_Some. naive_solver.
Qed.

(** The assignment a run of rows adds up to. *)
Definition assignment_of (db : AuthDB) (id : Z) (a : AssignmentRow) : Assignment :=
  {| as_AssignmentID := id; as_ScopeType := ar_ScopeType a; as_SiteID := ar_ScopeID a;
     as_Permissions := omap (λ k, k) (left_join_keys (ar_RoleID a) db) |}.

Definition row_for (id : Z) (a : AssignmentRow) (k : option string) : PermissionGrantRow :=
  {| gr_AssignmentID := id; gr_ScopeType := ar_ScopeType a; gr_ScopeID := ar_ScopeID a; gr_PermissionKey := k |}.

(** Rows of the current assignment extend it. *)
Lemma group_same id a keys acc cur rest :
  as_AssignmentID cur = id →
  group_rows acc cur (map (row_for id a) keys ++ rest)
  = group_rows acc (cur <| as_Permissions := as_Permissions cur ++ omap (λ k, k) keys |>) rest.
Proof.
  revert cur. induction keys as [|k keys IH]; intros cur Hid; simpl.
  - rewrite app_nil_r. by destruct cur.
  - rewrite Hid, Z.eqb_refl. simpl. rewrite IH; [|by destruct k].
    destruct k; simpl; [rewrite <- app_assoc|unfold append_permission; simpl]; by rewrite Hid.
Qed.

(** Every assignment of the listing has its row. *)
Definition stored (db : AuthDB) (ids : list Z) : Prop := ∀ id, id ∈ ids → is_Some (au_assignments db !! id).

Definition listed_assignments (db : AuthDB) (ids : list Z) : list Assignment :=
  flat_map (λ id, match au_assignments db !! id with Some a => [assignment_of db id a] | None => [] end) ids.

Lemma group_next db ids acc cur :
  NoDup (as_AssignmentID cur :: ids) → stored db ids →
  group_rows acc cur (flat_map (grant_rows db) ids) = acc ++ cur :: listed_assignments db ids.
Proof.
  revert acc cur. induction ids as [|id ids IH]; intros acc cur Hn Hst; simpl; [done|].
  destruct (Hst id ltac:(left)) as [a Ha]. unfold grant_rows at 1. rewrite Ha. cbn [app].
  destruct (left_join_keys_cons (ar_RoleID a) db) as (k & ks & Hk). rewrite Hk. cbn [map app group_rows].
  apply NoDup_cons in Hn as [Hc Hn]. cbn [gr_AssignmentID].
  rewrite (proj2 (Z.eqb_neq _ _)) by (intros Heq; apply Hc; rewrite <- Heq; left). cbn [negb].
  pose proof (group_same id a ks) as Hs. unfold row_for in Hs. rewrite Hs by (by destruct k).
  rewrite IH; [|by destruct k|intros x Hx; apply Hst; by right].
  rewrite <- app_assoc. cbn [app]. repeat f_equal. unfold assignment_of. rewrite Hk. by destruct k.
Qed.

Lemma assignmentsFromRows_listed db ids :
  NoDup ids → stored db ids →
  assignmentsFromRows (flat_map (grant_rows db) ids) = NewEffectivePermissions (listed_assignments db ids).
Proof.
  intros Hn Hst. destruct ids as [|id ids]; [done|]. simpl.
  destruct (Hst id ltac:(left)) as [a Ha]. unfold grant_rows at 1. rewrite Ha. cbn [app].
  destruct (left_join_keys_cons (ar_RoleID a) db) as (k & ks & Hk). rewrite Hk. cbn [map app assignmentsFromRows].
  f_equal. pose proof (group_same id a (k :: ks) [] (newAssignmentFromRow (row_for id a k))) as Hs.
  unfold row_for in Hs. cbn [map app] in Hs. rewrite Hs by done.
  rewrite group_next; [|by rewrite <- Hk|intros x Hx; apply Hst; by right].
  cbn [app]. f_equal. unfold assignment_of. by rewrite Hk.
Qed.

(** ** The resolver computes the rule *)

(** The permissions the resolver loads. *)
Definition effective (db : AuthDB) (user org : Z) : EffectivePermissions :=
  assignmentsFromRows (flat_map (grant_rows db) (assignments_of user org db)).

Lemma LoadEffective_eq user org db : LoadEffective user org db = (Ok (effective db user org), db).
Proof. done. Qed.

Lemma LoadEffectiveForUpdate_eq user org db : LoadEffectiveForUpdate user org db = (Ok (effective db user org), db).
Proof. done. Qed.

Lemma elem_of_assignments_of user org db id :
  id ∈ assignments_of user org db ↔ ∃ a, au_assignments db !! id = Some a
    ∧ ar_UserID a = user ∧ ar_OrganizationID a = org ∧ active_assignment db a = true.
Proof.
  unfold assignments_of. rewrite elem_of_select_ids. split; intros (a & Ha & Hp); exists a; split; try done.
  - apply andb_prop in Hp as [[Hu%Z.eqb_eq Ho%Z.eqb_eq]%andb_prop Hact]. done.
  - destruct Hp as (-> & -> & ->). by rewrite !Z.eqb_refl.
Qed.

Lemma elem_of_listed user org db x :
  x ∈ listed_assignments db (assignments_of user org db) ↔ ∃ id a, x = assignment_of db id a
    ∧ au_assignments db !! id = Some a
    ∧ ar_UserID a = user ∧ ar_OrganizationID a = org ∧ active_assignment db a = true.
Proof.
  unfold listed_assignments. rewrite list_elem_of_In, in_flat_map. setoid_rewrite <- list_elem_of_In. split.
  - intros (id & (a & Ha & Hu & Ho & Hact)%elem_of_assignments_of & Hx). rewrite Ha in Hx.
    apply list_elem_of_singleton in Hx. eauto 10.
  - intros (id & a & -> & Ha & Hrest). exists id. rewrite elem_of_assignments_of, Ha. split; [eauto|].
    by apply list_elem_of_singleton.
Qed.

Lemma assignment_of_key db id a key :
  key ∈ as_Permissions (assignment_of db id a) ↔ role_grants db (ar_RoleID a) key.
Proof. simpl. rewrite list_elem_of_omap, <- left_join_keys_Some. naive_solver. Qed.

Lemma listed_scope user org db rc :
  (∃ x, x ∈ listed_assignments db (assignments_of user org db)
     ∧ match rc with None => org_assignment x | Some s => site_assignment s x end)
  ↔ ∃ role, holds_role db user org rc role.
Proof.
  setoid_rewrite elem_of_listed. unfold holds_role. split.
  - intros (x & (id & a & -> & Ha & Hu & Ho & Hact) & Hs). exists (ar_RoleID a), id, a. by destruct rc.
  - intros (role & id & a & Ha & Hu & Ho & Hact & Hs & _). eexists. split; [by exists id, a|]. by destruct rc.
Qed.

Lemma listed_grant user org db rc key :
  (∃ x, x ∈ listed_assignments db (assignments_of user org db)
     ∧ match rc with None => org_assignment x | Some s => site_assignment s x end ∧ key ∈ as_Permissions x)
  ↔ granted_at db user org rc key.
Proof.
  setoid_rewrite elem_of_listed. unfold granted_at, holds_role. split.
  - intros (x & (id & a & -> & Ha & Hu & Ho & Hact) & Hs & Hk%assignment_of_key).
    exists (ar_RoleID a). split; [|done]. exists id, a. by destruct rc.
  - intros (role & (id & a & Ha & Hu & Ho & Hact & Hs & <-) & Hk). exists (assignment_of db id a).
    rewrite assignment_of_key. split; [eauto 10|]. split; [|done]. by destruct rc.
Qed.

Lemma effective_grants db user org key rc : grants (effective db user org) key rc ↔ may db user org key rc.
Proof.
  unfold effective. rewrite assignmentsFromRows_listed; [|apply select_ids_NoDup|].
  2: { intros id (a & Ha & _)%elem_of_assignments_of. eauto. }
  rewrite NewEffectivePermissions_grants. unfold may. destruct rc as [s|].
  - rewrite (listed_grant user org db (Some s)), (listed_grant user org db None), (listed_scope user org db (Some s)).
    done.
  - apply (listed_grant user org db None).
Qed.

(** C4: Both resolvers succeed on any tables, and Has on what they load is the narrowing rule on
    the rows: a key is held at a site when a live site assignment there grants it, or when no live
    site assignment exists there and an organization-wide one grants it; without a site, when an
    organization-wide one does. *)
Theorem access_follows_the_tables db user org :
  ∃ e, LoadEffective user org db = (Ok e, db) ∧ LoadEffectiveForUpdate user org db = (Ok e, db) ∧
    ∀ key rc, Has (Some e) key rc = true ↔ may db user org key rc.
Proof.
  exists (effective db user org). split_and!; [done..|]. intros key rc. rewrite Has_true. apply effective_grants.
Qed.
