(* ===== verification/AuthRequests.v ===== *)
(** * Requests on users and roles

    One transaction of the role service, of user management, of login or of the boot
    reconciliation, as a step over the tables; what each successful operation read and
    wrote. *)

From S2P Require Import Prelude GoSort Errors RolloutBehavior RolloutBehaviorFacts CommandFilter.
From S2P Require Import AuthzPermissions AuthzStore AuthzService AuthService.
From S2P Require Import AuthzResolverFacts.
#[local] Open Scope string_scope.
#[local] Open Scope list_scope.
#[local] Open Scope Z_scope.
#[local] Open Scope go_scope.

(** ** Inversion of successful operations *)

Lemma query_ok {A} (s : Stmt A) w db a db' : query s w db = (Ok a, db') ↔ s db = (Ok a, db').
Proof. unfold query. destruct (s db) as [[b|e] s']; naive_solver. Qed.

Lemma lift_ok {S E A} (r : result E A) (db : S) a db' : lift r db = (Ok a, db') ↔ r = Ok a ∧ db' = db.
Proof. unfold lift. naive_solver. Qed.

Lemma gets_ok {S E A} (f : S → A) (db : S) a db' :
  (gets f : M S E A) db = (Ok a, db') ↔ a = f db ∧ db' = db.
Proof. unfold gets. naive_solver. Qed.

Lemma one_ok {A} (o : option A) db a db' : one o db = (Ok a, db') ↔ o = Some a ∧ db' = db.
Proof. unfold one. destruct o; naive_solver. Qed.

Lemma or_internal_ok {A} (m : AOp A) db a db' : or_internal m db = (Ok a, db') ↔ m db = (Ok a, db').
Proof. unfold or_internal. destruct (m db) as [[b|e] s']; naive_solver. Qed.

(** Splits a successful run into the successful runs of its parts. *)
Ltac op_inv H :=
  cbv zeta in H;
  lazymatch type of H with
  | (mbind _ _) _ = (Ok _, _) =>
      let a := fresh "a" in let s := fresh "db" in let H1 := fresh "H" in
      apply M_bind_ok in H as (a & s & H1 & H); op_inv H1; op_inv H
  | query _ _ _ = (Ok _, _) => apply (proj1 (query_ok _ _ _ _ _)) in H
  | or_internal _ _ = (Ok _, _) => apply (proj1 (or_internal_ok _ _ _ _)) in H; op_inv H
  | lift _ _ = (Ok _, _) => apply lift_ok in H as [H ->]
  | (mret _) _ = (Ok _, _) => apply M_ret_ok in H as [H ->]
  | (refuse _) _ = (Ok _, _) => discriminate H
  | (fail _) _ = (Ok _, _) => discriminate H
  | (if ?b then _ else _) _ = (Ok _, _) => let E := fresh "E" in destruct b eqn:E; op_inv H
  | RunInTx _ _ = (Ok _, _) => apply (proj1 (RunInTx_ok _ _ _ _)) in H; op_inv H
  | _ => idtac
  end.

(** ** Requests *)

(** What a client or the boot sequence may ask for. The transactions of a login and of
    a password change take the snapshot their optimistic read made, whatever happened
    since. *)
Inductive AuthRequest :=
| ReqCreateRole (name description : string) (keys : list string)
| ReqUpdateRole (id : Z) (name description : string) (keys : list string)
| ReqDeleteRole (id : Z)
| ReqCreateUser (random : list Z) (userID username roleID : string)
| ReqResetPassword (now : Z) (random : list Z) (targetID : string)
| ReqDeactivate (targetID : string)
| ReqUpdateUserRole (targetID roleID : string)
| ReqUpdateUsername (username : string)
| ReqUpdatePassword (now : Z) (sessionID hash : string) (snapshot : option Z)
| ReqLogin (now : Z) (sessionID : string) (snapshot : LoginSnapshot)
| ReqValidateSession (now : Z) (sessionID : string)
| ReqLogout (now : Z) (info : Info)
| ReqCleanup (now : Z).

Section Requests.
Context `{Collation} `{AuthEnv} (duration : Z).

(** The tables after a request of [caller], whose session names [org]. *)
Definition serve (caller org : Z) (req : AuthRequest) (db : AuthDB) : AuthDB :=
  match req with
  | ReqCreateRole name description keys => (CreateCustomRole caller org name description keys db).2
  | ReqUpdateRole id name description keys => (UpdateCustomRole caller org id name description keys db).2
  | ReqDeleteRole id => (DeleteCustomRole caller org id db).2
  | ReqCreateUser random userID username roleID => (CreateUser caller random userID username roleID db).2
  | ReqResetPassword now random targetID => (ResetUserPassword caller now random targetID db).2
  | ReqDeactivate targetID => (DeactivateUser caller targetID db).2
  | ReqUpdateUserRole targetID roleID => (UpdateUserRole caller targetID roleID db).2
  | ReqUpdateUsername username => (UpdateUsername caller username db).2
  | ReqUpdatePassword now sessionID hash snapshot =>
      (RunInTx (update_password_tx duration now sessionID hash
        {| in_AuthMethod := "session"; in_SessionID := sessionID; in_UserID := caller;
           in_OrganizationID := org; in_Actor := "" |} snapshot) db).2
  | ReqLogin now sessionID snapshot => (RunInTx (login_tx duration now sessionID snapshot) db).2
  | ReqValidateSession now sessionID => (session_Validate duration now sessionID db).2
  | ReqLogout now info => (Logout now info db).2
  | ReqCleanup now => (CleanupExpired now db).2
  end.

(** A step of the server: a request, or a maintenance operation of the operator. *)
Inductive auth_step (db : AuthDB) : AuthDB → Prop :=
| step_request caller org req : auth_step db (serve caller org req db)
| step_reconcile : auth_step db (Reconcile db).2
| step_onboard userID orgID username password : auth_step db (CreateAdminUser userID orgID username password db).2
| step_break_glass now password : auth_step db (ResetSuperAdminPassword now password db).2.

Inductive auth_history (db : AuthDB) : AuthDB → Prop :=
| history_start : auth_history db db
| history_step db1 db2 : auth_history db db1 → auth_step db1 db2 → auth_history db db2.

(** ** Reads *)

Definition member (db : AuthDB) (user org : Z) : Prop := caller_organization user db = (Ok org, db).

Lemma caller_organization_ok user db org db' :
  caller_organization user db = (Ok org, db') → db' = db ∧ member db user org.
Proof.
  intros Hc. pose proof Hc as Hc'. unfold caller_organization in Hc. op_inv Hc.
  apply gets_ok in H1 as [-> ->]. destruct (map _ _) as [|o [|]] eqn:Eo; [discriminate Hc| |discriminate Hc].
  op_inv Hc. by subst.
Qed.

Lemma authorizeCallerCanGrant_ok caller org keys db u db' :
  authorizeCallerCanGrant caller org keys db = (Ok u, db') →
  db' = db ∧ may db caller org PermRoleManage None ∧ ∀ k, k ∈ keys → may db caller org k None.
Proof.
  intros Hc. unfold authorizeCallerCanGrant in Hc. op_inv Hc.
  rewrite LoadEffectiveForUpdate_eq in H1. simplify_eq. apply negb_false_iff in E, E0.
  split; [done|]. rewrite <- effective_grants. split; [by apply Has_true|].
  intros k Hk. apply effective_grants, Has_true. by apply (proj1 (forallb_elem _ _) E0).
Qed.

Lemma getRoleInOrg_ok org id db role db' :
  getRoleInOrg org id db = (Ok role, db') →
  db' = db ∧ role.1 = id ∧ live_role db id = Some role.2 ∧ rl_OrganizationID role.2 = Some org.
Proof.
  intros Hc. unfold getRoleInOrg in Hc. op_inv Hc. apply one_ok in H1 as [(r & Hr & ->)%fmap_Some ->].
  crush_bools. by subst.
Qed.

Lemma assignable_role_ok org roleID db role db' :
  assignable_role org roleID db = (Ok role, db') →
  db' = db ∧ live_role db role.1 = Some role.2 ∧ rl_OrganizationID role.2 = Some org
  ∧ rl_BuiltinKey role.2 ≠ Some BuiltinKeySuperAdmin.
Proof.
  intros Hc. unfold assignable_role in Hc. destruct (ParseRoleID roleID) as [parsed|e]; [|done]. op_inv Hc.
  apply one_ok in H1 as [(r & Hr & ->)%fmap_Some ->]. crush_bools. subst role. split_and!; try done.
  intros Hk. rewrite Hk in E0. done.
Qed.

Lemma role_effective_grants keys key rc : grants (role_effective keys) key rc ↔ key ∈ keys.
Proof.
  unfold role_effective. rewrite NewEffectivePermissions_grants.
  destruct rc as [s|]; setoid_rewrite list_elem_of_singleton; unfold org_assignment, site_assignment; split.
  - intros [(a & -> & [? _] & _)|[_ (a & -> & _ & Hk)]]; [done|exact Hk].
  - intros Hk. right. split; [by intros (a & -> & ? & _)|]. by eexists.
  - intros (a & -> & _ & Hk). exact Hk.
  - intros Hk. by eexists.
Qed.

(** Whoever may manage a target may do all it may. *)
Lemma manage_at_least callerEff targetEff u :
  requireCallerCanManageTarget (Some callerEff) (Some targetEff) = Ok u → at_least callerEff targetEff.
Proof.
  unfold requireCallerCanManageTarget. rewrite IsSubsumedBy_covered, StrictlyDominates_covered.
  destruct (Has _ _ _), (covered targetEff callerEff) eqn:E; simpl; try done; intros _; by apply covered_spec.
Qed.

(** ** Failures change nothing *)

Definition reads {A} (m : AOp A) : Prop := ∀ db, (m db).2 = db.
Definition all_or_nothing {A} (m : AOp A) : Prop := ∀ db e db', m db = (Err e, db') → db' = db.

Lemma reads_all_or_nothing {A} (m : AOp A) : reads m → all_or_nothing m.
Proof. intros Hm db e db' He. specialize (Hm db). by rewrite He in Hm. Qed.

Lemma RunInTx_all_or_nothing {A} (m : AOp A) : all_or_nothing (RunInTx m).
Proof. intros db e db'. apply RunInTx_err. Qed.

Lemma bind_all_or_nothing {A B} (m : AOp A) (f : A → AOp B) :
  reads m → (∀ a, all_or_nothing (f a)) → all_or_nothing (m ≫= f).
Proof.
  intros Hm Hf db e db'. unfold mbind, M_bind. specialize (Hm db). destruct (m db) as [[a|e'] db1]; simpl in Hm; subst.
  - apply Hf.
  - congruence.
Qed.

Lemma bind_last {A B} (m : AOp A) (g : A → B) : all_or_nothing m → all_or_nothing (a ← m; mret (g a)).
Proof.
  intros Hm db e db'. unfold mbind, M_bind. destruct (m db) as [[a|e'] db1] eqn:Em; [done|].
  intros [= <- <-]. by eapply Hm.
Qed.

Lemma query_reads {A} (s : Stmt A) w : (∀ db, (s db).2 = db) → reads (query s w).
Proof. intros Hs db. unfold query. specialize (Hs db). by destruct (s db) as [[a|e] db']. Qed.

Lemma one_reads {A} (o : option A) db : (one o db).2 = db.
Proof. unfold one. by destruct o. Qed.

Lemma bind_reads {A B} (m : AOp A) (f : A → AOp B) : reads m → (∀ a, reads (f a)) → reads (m ≫= f).
Proof.
  intros Hm Hf db. unfold mbind, M_bind. specialize (Hm db). destruct (m db) as [[a|e] db1]; simpl in Hm; subst; [apply Hf|done].
Qed.

Lemma LoadEffective_reads user org : reads (LoadEffective user org).
Proof. by intros db. Qed.

Lemma lift_reads {A} (r : result AuthError A) : reads (lift r).
Proof. by intros db. Qed.

(** Unfolds an operation that only reads. *)
Ltac read_only :=
  repeat first
    [ done
    | progress intros
    | apply LoadEffective_reads
    | apply lift_reads
    | apply bind_reads
    | apply query_reads
    | apply one_reads
    | match goal with
      | |- reads (if ?b then _ else _) => destruct b
      | |- reads (match ?x with _ => _ end) => destruct x
      | |- (GetUserByExternalId _ _).2 = _ => unfold GetUserByExternalId
      | |- (GetUserRoleName _ _ _).2 = _ => unfold GetUserRoleName
      | |- (GetUserById _ _).2 = _ => unfold GetUserById
      end ].

Lemma caller_organization_reads user : reads (caller_organization user).
Proof. unfold caller_organization. read_only. Qed.

Lemma authorizeCallerForUser_reads caller org targetID : reads (authorizeCallerForUser caller org targetID).
Proof. unfold authorizeCallerForUser. read_only. Qed.

Lemma hash_password_reads password : reads (hash_password password).
Proof. unfold hash_password. read_only. Qed.

(** A request either leaves the tables as they are or it succeeded. *)
Lemma keeps_or_succeeds {A} (m : AOp A) db : all_or_nothing m → (m db).2 = db ∨ ∃ a, m db = (Ok a, (m db).2).
Proof.
  intros Hm. destruct (m db) as [[a|e] db'] eqn:E; simpl; [right; by eexists|left]. by apply (Hm db e).
Qed.

Lemma CreateCustomRole_atomic caller org name description keys :
  all_or_nothing (CreateCustomRole caller org name description keys).
Proof.
  unfold CreateCustomRole. repeat (apply bind_all_or_nothing; [by intros db|intros ?]). apply RunInTx_all_or_nothing.
Qed.

Lemma UpdateCustomRole_atomic caller org id name description keys :
  all_or_nothing (UpdateCustomRole caller org id name description keys).
Proof.
  unfold UpdateCustomRole. repeat (apply bind_all_or_nothing; [by intros db|intros ?]). apply RunInTx_all_or_nothing.
Qed.

Lemma DeleteCustomRole_atomic caller org id : all_or_nothing (DeleteCustomRole caller org id).
Proof. apply RunInTx_all_or_nothing. Qed.

Lemma CreateUser_atomic caller random userID username roleID :
  all_or_nothing (CreateUser caller random userID username roleID).
Proof.
  unfold CreateUser. destruct (_ == _); [by apply reads_all_or_nothing; intros db|].
  apply bind_all_or_nothing; [apply caller_organization_reads|intros org].
  apply bind_all_or_nothing; [apply hash_password_reads|intros h]. apply bind_last, RunInTx_all_or_nothing.
Qed.

Lemma ResetUserPassword_atomic caller now random targetID :
  all_or_nothing (ResetUserPassword caller now random targetID).
Proof.
  unfold ResetUserPassword. destruct (_ == _); [by apply reads_all_or_nothing; intros db|].
  apply bind_all_or_nothing; [apply caller_organization_reads|intros org].
  apply bind_all_or_nothing; [apply authorizeCallerForUser_reads|intros u].
  apply bind_all_or_nothing; [apply hash_password_reads|intros h]. apply bind_last, RunInTx_all_or_nothing.
Qed.

Lemma DeactivateUser_atomic caller targetID : all_or_nothing (DeactivateUser caller targetID).
Proof.
  unfold DeactivateUser. destruct (_ == _); [by apply reads_all_or_nothing; intros db|].
  apply bind_all_or_nothing; [apply caller_organization_reads|intros org].
  apply bind_all_or_nothing; [read_only|intros cu].
  destruct (_ == _); [by apply reads_all_or_nothing; intros db|].
  apply bind_all_or_nothing; [apply authorizeCallerForUser_reads|intros u]. apply RunInTx_all_or_nothing.
Qed.

Lemma UpdateUserRole_atomic caller targetID roleID : all_or_nothing (UpdateUserRole caller targetID roleID).
Proof.
  unfold UpdateUserRole. destruct (_ || _); [by apply reads_all_or_nothing; intros db|].
  apply bind_all_or_nothing; [apply caller_organization_reads|intros org].
  apply bind_all_or_nothing; [read_only|intros u]. apply RunInTx_all_or_nothing.
Qed.

Lemma CreateAdminUser_atomic userID orgID username password :
  all_or_nothing (CreateAdminUser userID orgID username password).
Proof.
  unfold CreateAdminUser. destruct (_ || _); [by apply reads_all_or_nothing; intros db|].
  apply bind_all_or_nothing; [apply hash_password_reads|intros h].
  apply bind_all_or_nothing; [by intros db|intros name]. apply RunInTx_all_or_nothing.
Qed.

Lemma ResetSuperAdminPassword_atomic now password : all_or_nothing (ResetSuperAdminPassword now password).
Proof.
  unfold ResetSuperAdminPassword. destruct (negb _); [by apply reads_all_or_nothing; intros db|].
  destruct (bcrypt_Generate password); [apply RunInTx_all_or_nothing|by apply reads_all_or_nothing; intros db].
Qed.

End Requests.
