(* ===== verification/AuthEffects.v ===== *)
(** * What successful requests write

    For each operation on users and roles, the tables it leaves when it succeeds and
    what it checked before. *)

From S2P Require Import Prelude GoSort Errors RolloutBehavior RolloutBehaviorFacts CommandFilter.
From S2P Require Import AuthzPermissions AuthzStore AuthzService AuthService.
From S2P Require Import AuthzResolverFacts AuthRequests.
#[local] Open Scope string_scope.
#[local] Open Scope list_scope.
#[local] Open Scope Z_scope.
#[local] Open Scope go_scope.

(** ** Updates of one row *)

Lemma update_row_found {K A} `{Countable K} (k : K) (p : A → bool) (f : A → A) (m : gmap K A) a :
  m !! k = Some a → p a = true → update_row k p f m = <[k := f a]> m.
Proof.
  intros Hk Hp. apply map_eq. intros k'. unfold update_row. destruct (decide (k' = k)) as [->|Hne].
  - rewrite lookup_alter_eq, lookup_insert_eq, Hk. simpl. by rewrite Hp.
  - by rewrite lookup_alter_ne, lookup_insert_ne.
Qed.

Lemma lookup_update_row {K A} `{Countable K} (k : K) (p : A → bool) (f : A → A) (m : gmap K A) k' :
  update_row k p f m !! k' = if decide (k' = k) then (λ a, if p a then f a else a) <$> m !! k' else m !! k'.
Proof.
  unfold update_row. destruct (decide (k' = k)) as [->|Hne]; [by rewrite lookup_alter_eq|by rewrite lookup_alter_ne].
Qed.

(** ** Permissions of a role *)

(** The rows that give a role the keys. *)
Definition key_rows (role : Z) (keys : list string) (db : AuthDB) : gset (Z * Z) :=
  list_to_set (map (λ kv, (role, kv.1)) (List.filter (λ kv, bool_decide (pe_Key kv.2 ∈ keys))
    (map_to_list (au_permissions db)))).

Lemma elem_of_key_rows role keys db rp :
  rp ∈ key_rows role keys db ↔
  rp.1 = role ∧ ∃ row, au_permissions db !! rp.2 = Some row ∧ pe_Key row ∈ keys.
Proof.
  unfold key_rows. rewrite elem_of_list_to_set, list_elem_of_fmap. split.
  - intros ([p row] & -> & [Hin Hk]%elem_of_List_filter). simpl in *. apply elem_of_map_to_list in Hin. crush_bools. eauto.
  - intros [Hr (row & Hp & Hk)]. exists (rp.2, row). destruct rp as [r p]; simpl in *; subst. split; [done|].
    apply elem_of_List_filter. rewrite elem_of_map_to_list. split; [done|]. by apply bool_decide_eq_true.
Qed.

Lemma for_each_assign role w (l : list (Z * PermissionRow)) db :
  for_each (λ p, query (AssignPermissionToRole role p.1) w) l db
  = (Ok tt, db <| au_role_permissions := list_to_set (map (λ kv, (role, kv.1)) l) ∪ au_role_permissions db |>).
Proof.
  revert db. induction l as [|kv l IH]; intros db.
  - simpl. rewrite union_empty_l_L. by destruct db.
  - cbn [for_each]. unfold mbind, M_bind, query, AssignPermissionToRole, modify. rewrite IH. simpl.
    f_equal. f_equal. set_solver.
Qed.

(** The count of the rows found is the count of the keys. *)
Definition all_found (keys : list string) (db : AuthDB) : Prop :=
  length (List.filter (λ kv, bool_decide (pe_Key kv.2 ∈ keys)) (map_to_list (au_permissions db))) = length keys.

#[export] Instance all_found_dec keys db : Decision (all_found keys db).
Proof. unfold all_found. apply _. Defined.

(** Every key has its own permission row. *)
Definition unique_permissions (db : AuthDB) : Prop :=
  ∀ i j p q, au_permissions db !! i = Some p → au_permissions db !! j = Some q → pe_Key p = pe_Key q → i = j.

Lemma all_found_spec keys db k :
  all_found keys db → NoDup keys → unique_permissions db → k ∈ keys →
  ∃ p row, au_permissions db !! p = Some row ∧ pe_Key row = k.
Proof.
  intros Hlen Hn Hu Hk. set (rows := List.filter (λ kv, bool_decide (pe_Key kv.2 ∈ keys)) (map_to_list (au_permissions db))).
  assert (∀ kv, kv ∈ rows → au_permissions db !! kv.1 = Some kv.2 ∧ pe_Key kv.2 ∈ keys) as Hrows.
  { intros [p row] [Hin Hp]%elem_of_List_filter. apply elem_of_map_to_list in Hin. by crush_bools. }
  assert (NoDup rows) as Hnr by (eapply sublist_NoDup; [apply NoDup_map_to_list|apply list_filter_sublist]).
  assert (map (λ kv, pe_Key kv.2) rows ≡ₚ keys) as Hperm.
  { apply submseteq_length_Permutation; [|rewrite length_map; unfold all_found in Hlen; fold rows in Hlen; lia].
    apply NoDup_submseteq; [|intros x (kv & -> & Hkv)%list_elem_of_fmap; by apply Hrows].
    apply NoDup_fmap_2_strong; [|done]. intros [i p] [j q] Hi Hj He. apply Hrows in Hi as [Hi _]. apply Hrows in Hj as [Hj _].
    simpl in *. assert (i = j) as -> by (eapply Hu; eauto). congruence. }
  rewrite <- Hperm in Hk. apply list_elem_of_fmap in Hk as ([p row] & -> & Hin). apply Hrows in Hin as [Hin _]. eauto.
Qed.

Lemma setRolePermissions_ok role keys db u db' :
  setRolePermissions role keys db = (Ok u, db') →
  db' = db <| au_role_permissions := key_rows role keys db ∪ au_role_permissions db |> ∧ all_found keys db.
Proof.
  intros Hc. unfold setRolePermissions in Hc. destruct (length keys =? 0)%nat eqn:El.
  - op_inv Hc. apply Nat.eqb_eq, nil_length_inv in El as ->. split; [|unfold all_found; by rewrite filter_false by (intros; by apply bool_decide_eq_false_2, not_elem_of_nil)].
    assert (key_rows role [] db = ∅) as ->.
    { apply set_eq. intros rp. rewrite elem_of_key_rows. set_solver. }
    rewrite union_empty_l_L. by destruct db.
  - op_inv Hc. apply gets_ok in H as [-> ->]. apply negb_false_iff, Nat.eqb_eq in E.
    rewrite for_each_assign in Hc. injection Hc as _ <-. done.
Qed.

Lemma hydrateRole_ok role db v db' : hydrateRole role db = (Ok v, db') → db' = db.
Proof. intros Hc. unfold hydrateRole in Hc. op_inv Hc. apply gets_ok in H as [_ ->]. by apply gets_ok in H0 as [_ ->]. Qed.

(** ** Validated keys *)

Lemma dedup_keys_spec seen keys out :
  dedup_keys seen keys = Some out →
  NoDup out ∧ (∀ k, k ∈ out ↔ k ∈ keys ∧ (k ∉ seen) ∧ is_Some (Lookup k)).
Proof.
  revert seen out. induction keys as [|k keys IH]; intros seen out; simpl.
  { intros [= <-]. split; [constructor|]. set_solver. }
  destruct (Lookup k) as [e|] eqn:El; [|done]. case_bool_decide as Hk.
  - intros [Hn Hs]%IH. split; [done|]. intros x. rewrite Hs, elem_of_cons. set_solver.
  - intros (rest & [Hn Hs]%IH & ->)%fmap_Some. split.
    + apply NoDup_cons. split; [|done]. rewrite Hs. set_solver.
    + intros x. rewrite !elem_of_cons, Hs. destruct (decide (x = k)) as [->|]; [|set_solver].
      split; [|by left]. intros _. rewrite El. eauto.
Qed.

Lemma dedup_keys_known seen keys out k : dedup_keys seen keys = Some out → k ∈ keys → is_Some (Lookup k).
Proof.
  revert seen out. induction keys as [|x keys IH]; intros seen out; simpl; [by intros _ ?%elem_of_nil|].
  destruct (Lookup x) as [e|] eqn:El; [|done]. intros Hd [->|Hk]%elem_of_cons; [eauto|].
  case_bool_decide; [by eapply IH|]. apply fmap_Some in Hd as (rest & Hd & ->). by eapply IH.
Qed.

(** Keys a custom role may have: of the catalog, each action with its read permission. *)
Definition paired (have : list string) : Prop := ∀ k, k ∈ have → is_Some (Lookup k) ∧ pairing_ok have k = true.

Lemma validated_keys keys norm :
  validateAndNormalizeKeys keys = Ok norm → NoDup norm ∧ (∀ k, k ∈ norm ↔ k ∈ keys) ∧ paired norm.
Proof.
  unfold validateAndNormalizeKeys, validateAndDedupKeys, validateReadPairing, mbind, result_bind.
  destruct (dedup_keys ∅ keys) as [out|] eqn:Ed; [|done].
  destruct (forallb _ _) eqn:Ep; [|done]. intros [= <-]. destruct (dedup_keys_spec _ _ _ Ed) as [Hn Hs]. split_and!.
  - by rewrite stable_sort_perm.
  - intros k. rewrite stable_sort_elem, Hs. split; [set_solver|]. intros Hk. split_and!; [done|set_solver|].
    by eapply dedup_keys_known.
  - intros k Hk. split; [rewrite stable_sort_elem in Hk; by apply Hs|]. by apply (proj1 (forallb_elem _ _) Ep).
Qed.

(** ** Roles *)

Section Roles.
Context `{Collation}.

Definition custom_row (org : Z) (name : string) (description : option string) : RoleRow :=
  {| rl_Name := name; rl_Description := description; rl_IsBuiltin := false; rl_BuiltinKey := None;
     rl_OrganizationID := Some org; rl_Deleted := false |}.

Lemma create_role_ok caller org name description keys db v db' :
  CreateCustomRole caller org name description keys db = (Ok v, db') →
  ∃ norm desc, validateAndNormalizeKeys keys = Ok norm ∧ (∀ k, k ∈ norm → may db caller org k None) ∧
    all_found norm db ∧ reserved_name (TrimSpace name) = false ∧ name_taken None org (TrimSpace name) db = false ∧
    db' = db <| au_roles := <[next_id (au_roles db) := custom_row org (TrimSpace name) desc]> (au_roles db) |>
             <| au_role_permissions := key_rows (next_id (au_roles db)) norm db ∪ au_role_permissions db |>.
Proof.
  intros Hc. unfold CreateCustomRole, create_role_tx in Hc. op_inv Hc.
  apply authorizeCallerCanGrant_ok in H2 as (-> & _ & Hkeys). unfold CreateCustomRole_row in H3.
  destruct (reserved_name _) eqn:Er; [done|]. destruct (name_taken _ _ _ _) eqn:Et; [done|].
  injection H3 as <- <-. apply setRolePermissions_ok in H4 as [-> Hall]. apply hydrateRole_ok in Hc as ->. eauto 15.
Qed.

Lemma update_role_ok caller org id name description keys db v db' :
  UpdateCustomRole caller org id name description keys db = (Ok v, db') →
  ∃ norm r desc, validateAndNormalizeKeys keys = Ok norm ∧ (∀ k, k ∈ norm → may db caller org k None) ∧
    live_role db id = Some r ∧ rl_OrganizationID r = Some org ∧ rl_IsBuiltin r = false ∧
    all_found norm db ∧ reserved_name (TrimSpace name) = false ∧ name_taken (Some id) org (TrimSpace name) db = false ∧
    db' = db <| au_roles := <[id := r <| rl_Name := TrimSpace name |> <| rl_Description := desc |>]> (au_roles db) |>
             <| au_role_permissions :=
                  key_rows id norm db ∪ filter (λ rp, rp.1 ≠ id) (au_role_permissions db) |>.
Proof.
  intros Hc. unfold UpdateCustomRole, update_role_tx in Hc. op_inv Hc.
  apply getRoleInOrg_ok in H2 as (-> & Hid & Hr & Ho). subst.
  apply authorizeCallerCanGrant_ok in H3 as (-> & _ & Hkeys). unfold UpdateCustomRoleName in H4.
  rewrite Hr, E, Ho in H4. rewrite bool_decide_eq_true_2 in H4 by done. simpl in H4.
  destruct (reserved_name _) eqn:Er; [done|]. destruct (name_taken _ _ _ _) eqn:Et; [done|].
  injection H4 as _ <-. unfold ClearRolePermissions, modify in H5. injection H5 as _ <-. apply setRolePermissions_ok in H6 as [-> Hall].
  apply one_ok in H7 as [_ ->]. apply hydrateRole_ok in Hc as ->.
  exists a0, a1.2, (nullStringIfNonEmpty (TrimSpace description)). split_and!; done.
Qed.

Lemma delete_role_ok caller org id db v db' :
  DeleteCustomRole caller org id db = (Ok v, db') →
  ∃ r, live_role db id = Some r ∧ rl_OrganizationID r = Some org ∧ rl_IsBuiltin r = false ∧
    (∀ i a, au_assignments db !! i = Some a → ar_RoleID a = id → ar_Deleted a = false →
       live_user db (ar_UserID a) = None) ∧
    db' = db <| au_roles := <[id := r <| rl_Deleted := true |>]> (au_roles db) |>.
Proof.
  intros Hc. unfold DeleteCustomRole, delete_role_tx in Hc. op_inv Hc.
  apply authorizeCallerCanGrant_ok in H0 as (-> & _ & _). apply (getRoleInOrg_ok org id) in H1 as (-> & Hid & Hr & Ho).
  apply gets_ok in H2 as [-> ->]. subst id.
  pose proof (proj1 (live_role_Some _ _ _) Hr) as [Hrow Hd]. unfold SoftDeleteCustomRole, modify in Hc.
  rewrite (update_row_found _ _ _ _ a0.2 Hrow) in Hc by (by rewrite Hd, E). injection Hc as _ <-.
  exists a0.2. split_and!; try done.
  intros i x Ha Hrole Hx. destruct (live_user db (ar_UserID x)) as [u0|] eqn:Eu; [|done]. exfalso.
  apply Z.ltb_ge in E0. unfold members_of in E0.
  assert (i ∈ select_ids (λ _ a, (ar_RoleID a =? a0.1) && negb (ar_Deleted a)
    && bool_decide (is_Some (live_user db (ar_UserID a)))) (au_assignments db)) as Hi.
  { apply elem_of_select_ids. exists x. by rewrite Hrole, Z.eqb_refl, Hx, Eu. }
  destruct (select_ids _ _); [by apply elem_of_nil in Hi|]. simpl in E0. lia.
Qed.

End Roles.

(** ** Users *)

Section Users.
Context `{Collation} `{AuthEnv} (duration : Z).

Lemma user_by_external_id_ok userID db u db' :
  GetUserByExternalId userID db = (Ok u, db') → db' = db ∧ live_user db u.1 = Some u.2 ∧ us_UserID u.2 = userID.
Proof.
  intros [Hf ->]%one_ok. destruct u as [id u]. apply find_row_Some in Hf as [Hu Hp]. crush_bools.
  split; [done|]. split; [|done]. by apply live_user_Some.
Qed.

(** The row of a live assignment at organization scope. *)
Lemma org_scope_assignment_ok user org db current db' :
  GetOrgScopeAssignmentForUser user org db = (Ok current, db') →
  db' = db ∧ ∃ a r, au_assignments db !! current.1.1 = Some a ∧ ar_UserID a = user ∧ ar_OrganizationID a = org
    ∧ ar_ScopeType a = ScopeOrg ∧ active_assignment db a = true
    ∧ ar_RoleID a = current.1.2 ∧ au_roles db !! ar_RoleID a = Some r ∧ rl_BuiltinKey r = current.2.
Proof.
  intros [Hf ->]%one_ok. split; [done|].
  apply bind_Some in Hf as ([id a] & Hf & (r & Hr & [= <-])%bind_Some).
  apply find_row_Some in Hf as [Ha Hp]. simpl in *. crush_bools. eauto 15.
Qed.

Lemma org_scope_assignment_none user org db db' :
  GetOrgScopeAssignmentForUser user org db = (Err ErrNoRows, db') →
  ∀ id a, au_assignments db !! id = Some a → ar_UserID a = user → ar_OrganizationID a = org →
    ar_ScopeType a = ScopeOrg → active_assignment db a = false.
Proof.
  unfold GetOrgScopeAssignmentForUser, one. intros Hf id a Ha Hu Ho Hs.
  destruct (active_assignment db a) eqn:Eact; [exfalso|done].
  destruct (find_row_is_Some (λ _ a, (ar_UserID a =? user) && (ar_OrganizationID a =? org)
    && (ar_ScopeType a == ScopeOrg) && active_assignment db a) (au_assignments db) id a Ha) as [[id' a'] Hfind].
  { rewrite Hu, Ho, Hs, Eact, !Z.eqb_refl. done. }
  rewrite Hfind in Hf. simpl in Hf. apply find_row_Some in Hfind as [_ Hp].
  apply andb_prop in Hp as [_ Hact]. unfold active_assignment in Hact. apply andb_prop in Hact as [_ Hrole].
  destruct (live_role db (ar_RoleID a')) as [r|] eqn:Er; [|done]. apply live_role_Some in Er as [Er _].
  by rewrite Er in Hf.
Qed.

(** The seats of the super administrators of an organization. *)
Definition seats (db : AuthDB) (org : Z) : list Z :=
  select_ids (λ _ a, (ar_OrganizationID a =? org) && is_super_admin db a) (au_assignments db).

Lemma super_admin_guard_ok org key db u db' :
  super_admin_guard org key db = (Ok u, db') →
  db' = db ∧ (key = Some BuiltinKeySuperAdmin → (1 < length (seats db org))%nat).
Proof.
  intros Hc. unfold super_admin_guard in Hc. op_inv Hc.
  - apply gets_ok in H1 as [-> ->]. split; [done|]. intros _. apply Z.leb_gt in E0. unfold seats. lia.
  - split; [done|]. intros ->. done.
Qed.

Lemma AssignRole_ok user org role db id db' :
  AssignRole user org role ScopeOrg None db = (Ok id, db') →
  id = next_id (au_assignments db) ∧ rl_OrganizationID <$> au_roles db !! role = Some (Some org) ∧
  (∀ i a, au_assignments db !! i = Some a → ar_UserID a = user → ar_OrganizationID a = org →
     ar_ScopeType a = ScopeOrg → ar_Deleted a = true) ∧
  db' = db <| au_assignments := <[id := {| ar_UserID := user; ar_OrganizationID := org; ar_RoleID := role;
    ar_ScopeType := ScopeOrg; ar_ScopeID := None; ar_Deleted := false |}]> (au_assignments db) |>.
Proof.
  unfold AssignRole. cbn [negb bool_decide]. destruct (negb (_ && _ || _)); [done|].
  destruct (negb (bool_decide _)) eqn:Er; [done|]. apply negb_false_iff, bool_decide_eq_true in Er.
  destruct ((ScopeOrg == ScopeOrg) && _) eqn:Eh; [done|]. destruct ((ScopeOrg == ScopeSite) && _); [done|].
  intros [= <- <-]. split_and!; try done. intros i a Ha Hu Ho Hs.
  rewrite (bool_decide_eq_true_2 (ScopeOrg = ScopeOrg)) in Eh by done. simpl in Eh.
  pose proof (proj1 (has_row_false _ _) Eh i a Ha) as Hp. cbv beta in Hp. rewrite Hu, Ho, Hs, !Z.eqb_refl in Hp. simpl in Hp.
  by apply negb_false_iff in Hp.
Qed.

Definition new_assignment (user org role : Z) : AssignmentRow :=
  {| ar_UserID := user; ar_OrganizationID := org; ar_RoleID := role; ar_ScopeType := ScopeOrg;
     ar_ScopeID := None; ar_Deleted := false |}.

(** What a role grants the caller of a management request holds too. *)
Definition may_grant (db : AuthDB) (caller org role : Z) : Prop :=
  ∀ key, role_grants db role key → ∀ rc, may db caller org key rc.

Lemma manage_role caller org role db u :
  requireCallerCanManageTarget (Some (effective db caller org)) (Some (role_effective (role_keys role db))) = Ok u →
  may_grant db caller org role.
Proof.
  intros Hm%manage_at_least key Hk rc. apply effective_grants, Hm, role_effective_grants, role_keys_spec, Hk.
Qed.

Definition new_user (userID username hash : string) : UserRow :=
  {| us_UserID := userID; us_Username := username; us_PasswordHash := hash; us_PasswordUpdatedAt := None;
     us_LastLoginAt := None; us_RequiresPasswordChange := true; us_Deleted := false |}.

Lemma hash_password_ok password db h db' : hash_password password db = (Ok h, db') → db' = db.
Proof. unfold hash_password. destruct (bcrypt_Generate _); [|done]. intros Hh. by op_inv Hh. Qed.

Lemma create_user_ok caller random userID username roleID db pw db' :
  CreateUser caller random userID username roleID db = (Ok pw, db') →
  ∃ org role r hash, let user := next_id (au_users db) in
    member db caller org ∧ live_role db role = Some r ∧ rl_OrganizationID r = Some org ∧
    rl_BuiltinKey r ≠ Some BuiltinKeySuperAdmin ∧ may_grant db caller org role ∧
    has_row (λ _ u, us_UserID u == userID) (au_users db) = false ∧
    db' = db <| au_users := <[user := new_user userID (TrimSpace username) hash]> (au_users db) |>
             <| au_memberships := <[(user, org) := {| mb_RoleID := role; mb_Deleted := false |}]> (au_memberships db) |>
             <| au_assignments := <[next_id (au_assignments db) := new_assignment user org role]> (au_assignments db) |>.
Proof.
  intros Hc. unfold CreateUser, create_user_tx, resolveCreateUserRole, CreateUserOrganizationRole in Hc. op_inv Hc.
  apply caller_organization_ok in H1 as [-> Hm].
  apply hash_password_ok in H2 as ->.
  apply assignable_role_ok in H5 as (-> & Hr & Ho & Hb). apply gets_ok in H6 as [-> ->].
  rewrite LoadEffective_eq in H7. injection H7 as <- <-. apply manage_role in H8. subst a2.
  unfold CreateUser_row in H9. destruct (has_row _ _); [done|]. destruct (has_row _ _) eqn:Eid; [done|].
  injection H9 as <- <-. unfold CreateUserOrganization in H10. cbn [au_memberships set_field setter] in H10.
  destruct (au_memberships db !! _); [done|]. injection H10 as _ <-.
  apply AssignRole_ok in H11 as (-> & _ & _ & ->). exists a, a3.1, a3.2, a0. cbv zeta. split_and!; done.
Qed.

Lemma update_user_role_ok caller targetID roleID db swapped db' :
  UpdateUserRole caller targetID roleID db = (Ok swapped, db') →
  db' = db ∨ ∃ org target id a role r new,
    member db caller org ∧ is_Some (live_user db target) ∧
    au_assignments db !! id = Some a ∧ ar_UserID a = target ∧ ar_OrganizationID a = org ∧
    ar_ScopeType a = ScopeOrg ∧ active_assignment db a = true ∧
    live_role db role = Some r ∧ rl_OrganizationID r = Some org ∧ rl_BuiltinKey r ≠ Some BuiltinKeySuperAdmin ∧
    may_grant db caller org role ∧ at_least (effective db caller org) (effective db target org) ∧
    (is_super_admin db a = true → (1 < length (seats db org))%nat) ∧ au_assignments db !! new = None ∧ new ≠ id ∧
    db' = db <| au_memberships := update_row (target, org) (λ _, true) (λ m, m <| mb_RoleID := role |>) (au_memberships db) |>
             <| au_assignments := <[new := new_assignment target org role]>
                  (<[id := a <| ar_Deleted := true |>]> (au_assignments db)) |>.
Proof.
  intros Hc. unfold UpdateUserRole, update_user_role_tx, UpdateUserOrganizationRole in Hc. op_inv Hc.
  { left. apply caller_organization_ok in H1 as [-> _]. apply user_by_external_id_ok in H2 as [-> _].
    apply assignable_role_ok in H3 as (-> & _). by apply org_scope_assignment_ok in H4 as [-> _]. }
  right. apply caller_organization_ok in H1 as [-> Hm]. apply user_by_external_id_ok in H2 as (-> & Ht & _).
  apply assignable_role_ok in H3 as (-> & Hr & Ho & Hb).
  apply org_scope_assignment_ok in H4 as (-> & x & r & Hx & Hu & Hxo & Hs & Hact & Hrole & Hxr & Hkey).
  rewrite LoadEffectiveForUpdate_eq in H5. injection H5 as <- <-. apply gets_ok in H6 as [-> ->].
  rewrite LoadEffectiveForUpdate_eq in H7. injection H7 as <- <-. apply manage_at_least in H8. apply manage_role in H9.
  apply super_admin_guard_ok in H10 as [-> Hseat].
  unfold UpdateUserRole_row, modify in H12. injection H12 as _ <-.
  unfold UnassignRole, modify in H13. cbn [au_assignments set_field setter] in H13.
  assert (ar_Deleted x = false) as Hlive.
  { unfold active_assignment in Hact. apply andb_prop in Hact as [[Hd _]%andb_prop _]. by apply negb_true_iff in Hd. }
  rewrite (update_row_found _ _ _ _ x Hx) in H13 by (by rewrite Hlive). injection H13 as _ <-.
  apply AssignRole_ok in H14 as (Hid & _ & _ & ->). cbn [au_assignments set_field setter] in Hid.
  pose proof (next_id_fresh (<[a2.1.1 := x <| ar_Deleted := true |>]> (au_assignments db))) as Hfresh.
  simpl in Hfresh. rewrite <- Hid in Hfresh. apply lookup_insert_None in Hfresh as [Hfresh Hne].
  exists a, a0.1, a2.1.1, x, a1.1, a1.2, a12. split_and!; try done.
  unfold is_super_admin. intros [_ Hk]%andb_prop. apply bool_decide_eq_true in Hk. apply Hseat.
  rewrite <- Hkey. by rewrite Hxr in Hk.
Qed.

Lemma authorizeCallerForUser_ok caller org targetID db target db' :
  authorizeCallerForUser caller org targetID db = (Ok target, db') →
  db' = db ∧ live_user db target.1 = Some target.2 ∧ us_UserID target.2 = targetID ∧
  is_Some (au_memberships db !! (target.1, org)) ∧ at_least (effective db caller org) (effective db target.1 org).
Proof.
  intros Hc. unfold authorizeCallerForUser in Hc. op_inv Hc.
  apply user_by_external_id_ok in H1 as (-> & Ht & Hid). apply one_ok in H2 as [Hn ->].
  rewrite LoadEffective_eq in H3. injection H3 as <- <-. rewrite LoadEffective_eq in H4. injection H4 as <- <-.
  apply manage_at_least in H5. subst. split_and!; try done.
  apply bind_Some in Hn as (m & Hm & _). by exists m.
Qed.

(** The user has no live assignment at organization scope, or one that is not the last
    super administrator's. *)
Definition may_leave (db : AuthDB) (org user : Z) : Prop :=
  (∀ id a, au_assignments db !! id = Some a → ar_UserID a = user → ar_OrganizationID a = org →
     ar_ScopeType a = ScopeOrg → active_assignment db a = false)
  ∨ ∃ id a, au_assignments db !! id = Some a ∧ ar_UserID a = user ∧ ar_OrganizationID a = org ∧
      ar_ScopeType a = ScopeOrg ∧ active_assignment db a = true ∧
      (is_super_admin db a = true → (1 < length (seats db org))%nat).

Lemma deactivation_guard_ok org user db u db' :
  deactivation_guard org user db = (Ok u, db') → db' = db ∧ may_leave db org user.
Proof.
  intros Hg. unfold deactivation_guard in Hg.
  destruct (GetOrgScopeAssignmentForUser user org db) as [[cur|[]] db4] eqn:Eg; try done.
  - pose proof Eg as (-> & x & r & Hx & Hu & Ho & Hs & Hact & _ & Hr & Hkey)%org_scope_assignment_ok.
    op_inv Hg. apply one_ok in H1 as [_ ->]. apply super_admin_guard_ok in Hg as [-> Hseat]. split; [done|].
    right. exists cur.1.1, x. split_and!; try done. unfold is_super_admin. intros [_ Hk]%andb_prop.
    apply bool_decide_eq_true in Hk. apply Hseat. rewrite <- Hkey. by rewrite Hr in Hk.
  - assert (db4 = db) as ->. { unfold GetOrgScopeAssignmentForUser, one in Eg. destruct (_ ≫= _); by simplify_eq. }
    op_inv Hg. apply one_ok in H1 as [_ ->]. split; [done|]. left. by eapply org_scope_assignment_none.
Qed.

Lemma deactivate_ok caller targetID db u db' :
  DeactivateUser caller targetID db = (Ok u, db') →
  ∃ org target row, member db caller org ∧ live_user db target = Some row ∧ us_UserID row = targetID ∧
    is_Some (au_memberships db !! (target, org)) ∧ at_least (effective db caller org) (effective db target org) ∧
    (∀ callerRow, live_user db caller = Some callerRow → us_UserID callerRow ≠ targetID) ∧
    active_tickets org target <= 0 ∧
    may_leave db org target ∧
    db' = db <| au_users := <[target := row <| us_Deleted := true |>]> (au_users db) |>.
Proof.
  intros Hc. unfold DeactivateUser, deactivate_tx in Hc. op_inv Hc.
  apply caller_organization_ok in H1 as [-> Hm]. apply one_ok in H2 as [Hcu ->].
  apply authorizeCallerForUser_ok in H3 as (-> & Ht & Hid & Hmb & Hal).
  apply deactivation_guard_ok in H4 as [-> Hguard].
  apply live_user_Some in Ht as [Hrow Hd]. unfold SoftDeleteUser, update_user, modify in Hc.
  rewrite (update_row_found _ _ _ _ a1.2 Hrow) in Hc by (by rewrite Hd). injection Hc as _ <-.
  exists a, a1.1, a1.2. split_and!; try done.
  - by apply live_user_Some.
  - intros callerRow Hcr He. rewrite Hcu in Hcr. injection Hcr as <-. by rewrite He, bool_decide_eq_true_2 in E0.
  - by apply Z.ltb_ge in E1.
Qed.

End Users.
