(* ===== verification/AuthFrame.v ===== *)
(** * Operations on credentials and sessions

    Login, password and session operations change passwords, times, usernames and
    sessions, and nothing that decides access ([same_access]). *)

From S2P Require Import Prelude GoSort Errors RolloutBehavior RolloutBehaviorFacts CommandFilter.
From S2P Require Import AuthzPermissions AuthzStore AuthzService AuthService.
From S2P Require Import AuthzResolverFacts AuthRequests AuthEffects.
#[local] Open Scope string_scope.
#[local] Open Scope list_scope.
#[local] Open Scope Z_scope.
#[local] Open Scope go_scope.

(** What access depends on of a user. *)
Definition identity (u : UserRow) : string * bool := (us_UserID u, us_Deleted u).

Record same_access (db db' : AuthDB) : Prop := {
  sa_users : identity <$> au_users db' = identity <$> au_users db;
  sa_orgs : au_organizations db' = au_organizations db;
  sa_roles : au_roles db' = au_roles db;
  sa_permissions : au_permissions db' = au_permissions db;
  sa_role_permissions : au_role_permissions db' = au_role_permissions db;
  sa_memberships : au_memberships db' = au_memberships db;
  sa_assignments : au_assignments db' = au_assignments db
}.

#[export] Instance same_access_refl : Reflexive same_access.
Proof. by intros db. Qed.
#[export] Instance same_access_trans : Transitive same_access.
Proof. intros a b c [] []. split; congruence. Qed.

(** ** Composition *)

(** Every run is in the relation. *)
Definition keeps {E A} (R : relation AuthDB) (m : M AuthDB E A) : Prop := ∀ db, R db (m db).2.

(** The password of a user and when it was set. *)
Definition credential (u : UserRow) : string * option Z := (us_PasswordHash u, us_PasswordUpdatedAt u).

(** The relations every operation on credentials at time [now] is in: they allow any
    sessions, and users that keep their identity and whose password is the old one or was
    set at [now]. *)
Class CredentialFrame (now : Z) (R : relation AuthDB) := {
  cf_preorder :: PreOrder R;
  cf_sessions db ss : R db (db <| au_sessions := ss |>);
  cf_users db id p f :
    (∀ u, identity (f u) = identity u ∧ (credential (f u) = credential u ∨ us_PasswordUpdatedAt (f u) = Some now)) →
    R db (db <| au_users := update_row id p f (au_users db) |>)
}.

Section Composition.
Context (now : Z) (R : relation AuthDB) `{HR : CredentialFrame now R}.

Lemma frame_bind {E A B} (m : M AuthDB E A) (f : A → M AuthDB E B) :
  keeps R m → (∀ a, keeps R (f a)) → keeps R (m ≫= f).
Proof.
  intros Hm Hf s. unfold mbind, M_bind. specialize (Hm s). destruct (m s) as [[a|e] s1]; simpl in *; [|done].
  etrans; [exact Hm|apply Hf].
Qed.

Lemma frame_tx {A} (m : AOp A) : keeps R m → keeps R (RunInTx m).
Proof. intros Hm s. unfold RunInTx. specialize (Hm s). by destruct (m s) as [[a|e] s1]. Qed.

Lemma frame_query {A} (s : Stmt A) w : keeps R s → keeps R (query s w).
Proof. intros Hs db. unfold query. specialize (Hs db). by destruct (s db) as [[a|e] db1]. Qed.

Lemma frame_or_internal {A} (m : AOp A) : keeps R m → keeps R (or_internal m).
Proof. intros Hm db. unfold or_internal. specialize (Hm db). by destruct (m db) as [[a|e] db1]. Qed.

Lemma frame_reads {A} (m : AOp A) : reads m → keeps R m.
Proof. intros Hm db. by rewrite Hm. Qed.

Lemma frame_one {A} (o : AuthDB → option A) : keeps R (λ db, one (o db) db : result DbError A * AuthDB).
Proof. intros db. unfold one. by destruct (o db). Qed.

(** *** Statements *)

Lemma frame_update_user id p f :
  (∀ u, identity (f u) = identity u ∧ (credential (f u) = credential u ∨ us_PasswordUpdatedAt (f u) = Some now)) →
  keeps R (update_user id p f).
Proof. intros Hf db. by apply cf_users. Qed.

Lemma frame_UpdateUserUsername id name : keeps R (UpdateUserUsername id name).
Proof.
  intros db. unfold UpdateUserUsername. destruct (has_row _ _); [done|].
  apply (frame_update_user id (λ _, true) (λ u, u <| us_Username := name |>)). by intros u; split; [|left].
Qed.

Lemma frame_UpdateLastLogin at_ id : keeps R (UpdateLastLogin at_ id).
Proof. apply frame_update_user. by intros u; split; [|left]. Qed.

Lemma frame_UpdatePassword id hash : keeps R (UpdateUserPasswordAndFlag now id hash).
Proof. apply frame_update_user. by intros u; split; [|right]. Qed.

Lemma frame_AdminReset id hash : keeps R (AdminResetUserPassword now id hash).
Proof. intros db. apply cf_users. by intros u; split; [|right]. Qed.

Lemma frame_CreateSession sid row : keeps R (CreateSession sid row).
Proof. intros db. unfold CreateSession. destruct (au_sessions db !! sid); [done|]. apply cf_sessions. Qed.

Lemma frame_sessions {A} (f : AuthDB → result DbError A) (g : AuthDB → gmap string SessionRow) :
  keeps R (λ db, (f db, db <| au_sessions := g db |>)).
Proof. intros db. apply cf_sessions. Qed.

End Composition.

(** Walks an operation down to its statements. *)
Ltac walk now :=
  repeat first
    [ match goal with
      | |- ∀ _, _ => intro
      | |- CredentialFrame _ _ => assumption
      | |- keeps _ (caller_organization _) => apply (frame_reads now), caller_organization_reads
      | |- keeps _ (authorizeCallerForUser _ _ _) => apply (frame_reads now), authorizeCallerForUser_reads
      | |- keeps _ (hash_password _) => apply (frame_reads now), hash_password_reads
      | |- keeps _ (if ?b then _ else _) => destruct b
      | |- keeps _ (one _) => apply (frame_one now _ (λ _, _))
      | |- keeps _ (GetUserById _) => apply (frame_one now)
      | |- keeps _ (GetUserByIdForUpdate _) => apply (frame_one now)
      | |- keeps _ (GetSessionByID _) => apply (frame_one now)
      | |- keeps _ (UpdateUserUsername _ _) => apply (frame_UpdateUserUsername now)
      | |- keeps _ (UpdateLastLogin _ _) => apply (frame_UpdateLastLogin now)
      | |- keeps _ (UpdateUserPasswordAndFlag _ _ _) => apply (frame_UpdatePassword now)
      | |- keeps _ (AdminResetUserPassword _ _ _) => apply (frame_AdminReset now)
      | |- keeps _ (CreateSession _ _) => apply (frame_CreateSession now)
      | |- keeps _ (RevokeAllSessionsByUserID _ _) => apply (frame_sessions now _ (λ _, _))
      | |- keeps _ (RevokeSession _ _) => apply (frame_sessions now _ (λ _, _))
      | |- keeps _ (UpdateSessionActivity _ _ _) => apply (frame_sessions now _ (λ _, _))
      | |- keeps _ (DeleteExpiredSessions _) => apply (frame_sessions now _ (λ _, _))
      | |- keeps _ (mret _) => by intros db
      | |- keeps _ (fail _) => by intros db
      | |- keeps _ (refuse _) => by intros db
      end
    | apply (frame_bind now) | apply (frame_tx now) | apply frame_or_internal | apply frame_query ].

(** ** Access *)

Lemma identity_update_row (id : Z) p f m :
  (∀ u, identity (f u) = identity u) → identity <$> update_row id p f m = identity <$> m.
Proof.
  intros Hf. apply map_eq. intros k. rewrite !lookup_fmap, lookup_update_row.
  destruct (decide _); [|done]. destruct (m !! k) as [u|]; [|done]. simpl. destruct (p u); [|done]. by rewrite Hf.
Qed.

#[export] Instance same_access_frame now : CredentialFrame now same_access.
Proof.
  split; [by split; apply _|done|]. intros db id p f Hf. split; try done. simpl. apply identity_update_row.
  intros u. apply Hf.
Qed.

(** ** Operations *)

Section Operations.
Context `{Collation} `{AuthEnv} (duration : Z).

Section Frames.
Context (now : Z) (R : relation AuthDB) `{HR : CredentialFrame now R}.

Lemma frame_session_Create sid user org : keeps R (session_Create duration now sid user org).
Proof. unfold session_Create. walk now. Qed.

Lemma frame_login_tx sid snap : keeps R (login_tx duration now sid snap).
Proof. unfold login_tx, session_Create. walk now. Qed.

Lemma frame_update_password_tx sid hash info snap : keeps R (update_password_tx duration now sid hash info snap).
Proof. unfold update_password_tx, RevokeAllSessions, session_Create. walk now. Qed.

Lemma frame_ResetUserPassword caller random targetID : keeps R (ResetUserPassword caller now random targetID).
Proof. unfold ResetUserPassword, reset_password_tx, RevokeAllSessions. walk now. Qed.

Lemma frame_UpdateUsername caller username : keeps R (UpdateUsername caller username).
Proof. unfold UpdateUsername. walk now. Qed.

Lemma frame_session_Validate sid : keeps R (session_Validate duration now sid).
Proof. unfold session_Validate. walk now. Qed.

Lemma frame_Logout info : keeps R (Logout now info).
Proof. unfold Logout, session_Revoke. walk now. Qed.

Lemma frame_CleanupExpired : keeps R (CleanupExpired now).
Proof. unfold CleanupExpired. walk now. Qed.

Lemma frame_ResetSuperAdminPassword password : keeps R (ResetSuperAdminPassword now password).
Proof.
  unfold ResetSuperAdminPassword. destruct (negb _); [by intros db|]. destruct (bcrypt_Generate password); [|by intros db].
  apply (frame_tx now R). unfold break_glass_tx, RevokeAllSessions. apply (frame_bind now R); [apply (frame_query R); by intros db|].
  intros admins. destruct admins as [|[user org] [|]]; [by intros db| |by intros db]. walk now.
Qed.

End Frames.

(** The requests that do not manage users or roles. *)
Definition credential_request (req : AuthRequest) : bool :=
  match req with
  | ReqCreateRole _ _ _ | ReqUpdateRole _ _ _ _ | ReqDeleteRole _ | ReqCreateUser _ _ _ _ | ReqDeactivate _
  | ReqUpdateUserRole _ _ => false
  | _ => true
  end.

(** The clock of a request. *)
Definition request_time (req : AuthRequest) : option Z :=
  match req with
  | ReqResetPassword now _ _ | ReqUpdatePassword now _ _ _ | ReqLogin now _ _ | ReqValidateSession now _
  | ReqLogout now _ | ReqCleanup now => Some now
  | _ => None
  end.

Lemma credential_requests_keep now R caller org req db :
  CredentialFrame now R → from_option (eq now) True (request_time req) → credential_request req = true →
  R db (serve duration caller org req db).
Proof.
  intros HR Ht. destruct req; try done; intros _; unfold serve; simpl in Ht; subst.
  - by apply (frame_ResetUserPassword now0 R).
  - by apply (frame_UpdateUsername now R).
  - by apply (frame_tx now0 R), (frame_update_password_tx now0 R).
  - by apply (frame_tx now0 R), (frame_login_tx now0 R).
  - by apply (frame_session_Validate now0 R).
  - by apply (frame_Logout now0 R).
  - by apply (frame_CleanupExpired now0 R).
Qed.

(** What a request leaves: the tables as they were for access, or what a successful
    management request writes. *)
Lemma serve_cases (P : AuthDB → Prop) caller org req db :
  (∀ db', same_access db db' → P db') →
  (∀ name description keys v db', CreateCustomRole caller org name description keys db = (Ok v, db') → P db') →
  (∀ id name description keys v db', UpdateCustomRole caller org id name description keys db = (Ok v, db') → P db') →
  (∀ id v db', DeleteCustomRole caller org id db = (Ok v, db') → P db') →
  (∀ random userID username roleID v db', CreateUser caller random userID username roleID db = (Ok v, db') → P db') →
  (∀ targetID v db', DeactivateUser caller targetID db = (Ok v, db') → P db') →
  (∀ targetID roleID v db', UpdateUserRole caller targetID roleID db = (Ok v, db') → P db') →
  P (serve duration caller org req db).
Proof.
  intros Hsame H1 H2 H3 H4 H5 H6. destruct (credential_request req) eqn:Ec.
  { apply Hsame, (credential_requests_keep (default 0 (request_time req)) same_access);
    [apply _|by destruct (request_time req)|done]. }
  assert (∀ A (m : AOp A), all_or_nothing m → (∀ v db', m db = (Ok v, db') → P db') → P (m db).2) as Hrun.
  { intros A m Hm Hok. destruct (keeps_or_succeeds m db Hm) as [->|[v Hv]]; [by apply Hsame|by eapply Hok]. }
  destruct req; try done; unfold serve; (eapply Hrun; [|by eauto]).
  - apply CreateCustomRole_atomic.
  - apply UpdateCustomRole_atomic.
  - apply DeleteCustomRole_atomic.
  - apply CreateUser_atomic.
  - apply DeactivateUser_atomic.
  - apply UpdateUserRole_atomic.
Qed.

End Operations.

(** ** Access that stays *)

Lemma live_user_same db db' id : same_access db db' → is_Some (live_user db' id) ↔ is_Some (live_user db id).
Proof.
  intros [Hu _ _ _ _ _ _]. apply (f_equal (lookup id)) in Hu. rewrite !lookup_fmap in Hu. unfold live_user.
  destruct (au_users db' !! id) as [u'|], (au_users db !! id) as [u|]; simpl in Hu; try done.
  injection Hu as _ Hd. rewrite Hd. destruct (us_Deleted u); split; intros [? ?]; try done; eauto.
Qed.

Lemma active_same db db' a : same_access db db' → active_assignment db' a = active_assignment db a.
Proof.
  intros Hs. unfold active_assignment, live_role. rewrite (sa_roles _ _ Hs). do 2 f_equal.
  apply bool_decide_ext. by apply live_user_same.
Qed.

Lemma may_same db db' u o key rc : same_access db db' → may db' u o key rc ↔ may db u o key rc.
Proof.
  intros Hs.
  assert (∀ rc role, holds_role db' u o rc role ↔ holds_role db u o rc role) as Hh.
  { intros rc' role. unfold holds_role. rewrite (sa_assignments _ _ Hs). by setoid_rewrite (active_same _ _ _ Hs). }
  assert (∀ rc, granted_at db' u o rc key ↔ granted_at db u o rc key) as Hg.
  { intros rc'. unfold granted_at, role_grants. setoid_rewrite Hh.
    by rewrite (sa_permissions _ _ Hs), (sa_role_permissions _ _ Hs). }
  unfold may. destruct rc as [s|]; [|apply Hg]. setoid_rewrite Hh. by rewrite !Hg.
Qed.
