(* ===== verification/AuthInvariant.v ===== *)
(** * Well-formed tables of users and roles

    Two groups of conditions: [roles_ok] on roles and their permissions (built-ins
    identified and unique, custom roles with names of their own and keys that passed
    validation) and [people_ok] on users, memberships and assignments (references,
    one organization per user, one role at organization scope). Every request, the
    boot reconciliation, onboarding and recovery preserve them. *)

From S2P Require Import Prelude GoSort Errors RolloutBehavior RolloutBehaviorFacts CommandFilter.
From S2P Require Import AuthzPermissions AuthzStore AuthzService AuthService.
From S2P Require Import AuthzResolverFacts AuthRequests AuthEffects AuthFrame.
#[local] Open Scope string_scope.
#[local] Open Scope list_scope.
#[local] Open Scope Z_scope.
#[local] Open Scope go_scope.

(** ** The conditions *)

Section Conditions.
Context `{Collation}.

(** A custom role of the organization. *)
Definition custom_of (org : Z) (r : RoleRow) : Prop := rl_IsBuiltin r = false ∧ rl_OrganizationID r = Some org.

Record roles_ok (db : AuthDB) : Prop := {
  ro_builtin id r : au_roles db !! id = Some r → rl_IsBuiltin r = true ↔ rl_BuiltinKey r ≠ None;
  ro_unique i j r s org key : au_roles db !! i = Some r → au_roles db !! j = Some s →
    is_builtin_of org key r = true → is_builtin_of org key s = true → i = j;
  ro_permissions : unique_permissions db;
  ro_references role p : (role, p) ∈ au_role_permissions db → is_Some (au_roles db !! role) ∧ is_Some (au_permissions db !! p);
  ro_custom id r org : au_roles db !! id = Some r → custom_of org r →
    paired (role_keys id db) ∧ reserved_name (rl_Name r) = false;
  ro_names i j r s org : au_roles db !! i = Some r → au_roles db !! j = Some s → custom_of org r → custom_of org s →
    rl_Deleted r = false → rl_Deleted s = false → name_key (rl_Name r) = name_key (rl_Name s) → i = j
}.

Record people_ok (db : AuthDB) : Prop := {
  po_role i a : au_assignments db !! i = Some a →
    rl_OrganizationID <$> au_roles db !! ar_RoleID a = Some (Some (ar_OrganizationID a));
  po_user i a : au_assignments db !! i = Some a → is_Some (au_users db !! ar_UserID a);
  po_member i a : au_assignments db !! i = Some a →
    mb_Deleted <$> au_memberships db !! (ar_UserID a, ar_OrganizationID a) = Some false;
  po_membership u o : is_Some (au_memberships db !! (u, o)) → is_Some (au_users db !! u);
  po_single u o o' : is_Some (au_memberships db !! (u, o)) → is_Some (au_memberships db !! (u, o')) → o = o';
  po_org_scope i j a b : au_assignments db !! i = Some a → au_assignments db !! j = Some b →
    ar_Deleted a = false → ar_Deleted b = false → ar_ScopeType a = ScopeOrg → ar_ScopeType b = ScopeOrg →
    ar_UserID a = ar_UserID b → ar_OrganizationID a = ar_OrganizationID b → i = j;
  po_scope i a : au_assignments db !! i = Some a →
    ar_ScopeType a = ScopeOrg ∧ ar_ScopeID a = None ∨ ar_ScopeType a = ScopeSite ∧ ar_ScopeID a ≠ None;
  po_external i j u v : au_users db !! i = Some u → au_users db !! j = Some v → us_UserID u = us_UserID v → i = j
}.

Definition auth_ok (db : AuthDB) : Prop := roles_ok db ∧ people_ok db.

(** ** Roles *)

Lemma pairing_ok_ext l l' k : (∀ x, x ∈ l ↔ x ∈ l') → pairing_ok l k = pairing_ok l' k.
Proof.
  intros He. unfold pairing_ok. destruct (k == _); [done|].
  rewrite (bool_decide_ext _ _ (He _)), (bool_decide_ext _ _ (He PermFleetRead)). done.
Qed.

Lemma paired_ext l l' : (∀ x, x ∈ l ↔ x ∈ l') → paired l → paired l'.
Proof. intros He Hp k Hk. rewrite <- (pairing_ok_ext l l' k He). apply Hp. by apply He. Qed.

Lemma role_grants_frame db db' role key :
  au_permissions db' = au_permissions db →
  (∀ p, (role, p) ∈ au_role_permissions db' ↔ (role, p) ∈ au_role_permissions db) →
  role_grants db' role key ↔ role_grants db role key.
Proof. intros Hp Hr. unfold role_grants. rewrite Hp. by setoid_rewrite Hr. Qed.

Lemma role_keys_frame db db' role :
  (∀ k, role_grants db' role k ↔ role_grants db role k) → paired (role_keys role db) → paired (role_keys role db').
Proof. intros Hg. apply paired_ext. intros k. by rewrite !role_keys_spec. Qed.

(** One role row is written, with its permissions. *)
Lemma roles_ok_write db db' id r :
  roles_ok db → au_permissions db' = au_permissions db → au_roles db' = <[id := r]> (au_roles db) →
  (∀ role p, role ≠ id → (role, p) ∈ au_role_permissions db' ↔ (role, p) ∈ au_role_permissions db) →
  (∀ p, (id, p) ∈ au_role_permissions db' → is_Some (au_permissions db !! p)) →
  (rl_IsBuiltin r = true ↔ rl_BuiltinKey r ≠ None) →
  (∀ org key j s, j ≠ id → au_roles db !! j = Some s → is_builtin_of org key r = true → is_builtin_of org key s = false) →
  (∀ org, custom_of org r → paired (role_keys id db') ∧ reserved_name (rl_Name r) = false) →
  (∀ org j s, j ≠ id → au_roles db !! j = Some s → custom_of org r → custom_of org s → rl_Deleted r = false →
     rl_Deleted s = false → name_key (rl_Name s) ≠ name_key (rl_Name r)) →
  roles_ok db'.
Proof.
  intros [Hb Hu Hp Href Hc Hn] Ep Er Hrp Hrpid Hbr Hur Hcr Hnr. split; rewrite ?Er, ?Ep.
  - intros i s [[-> <-]|[Hne Hs]]%lookup_insert_Some; [done|by eapply Hb].
  - intros i j s t org key [[<- <-]|[Hi Hs]]%lookup_insert_Some [[<- <-]|[Hj Ht]]%lookup_insert_Some Bs Bt; try done.
    + by rewrite (Hur _ _ j t) in Bt.
    + by rewrite (Hur _ _ i s) in Bs.
    + by eapply Hu.
  - unfold unique_permissions. by rewrite Ep.
  - intros role p Hin. destruct (decide (role = id)) as [->|Hne].
    + rewrite lookup_insert_eq. split; [done|]. by apply Hrpid.
    + rewrite lookup_insert_ne by done. by apply Href, Hrp.
  - intros i s org [[<- <-]|[Hne Hs]]%lookup_insert_Some Hco; [by apply (Hcr org)|].
    destruct (Hc i s org Hs Hco) as [Hk Hres]. split; [|done]. eapply role_keys_frame; [|done].
    intros k. apply role_grants_frame; [done|]. intros p. by apply Hrp.
  - intros i j s t org [[<- <-]|[Hi Hs]]%lookup_insert_Some [[<- <-]|[Hj Ht]]%lookup_insert_Some Cs Ct Ds Dt He; try done.
    + exfalso. by eapply (Hnr org j t).
    + exfalso. by eapply (Hnr org i s).
    + by eapply (Hn i j s t org).
Qed.

(** A role whose permissions are the rows of valid keys has those keys. *)
Lemma written_keys db db' id keys :
  unique_permissions db → NoDup keys → all_found keys db → paired keys →
  au_permissions db' = au_permissions db → (∀ p, (id, p) ∈ au_role_permissions db' ↔ (id, p) ∈ key_rows id keys db) →
  (∀ k, role_grants db' id k ↔ k ∈ keys) ∧ paired (role_keys id db').
Proof.
  intros Hu Hn Hall Hp Ep Hrp.
  assert (∀ k, role_grants db' id k ↔ k ∈ keys) as Hg.
  { intros k. unfold role_grants. rewrite Ep. setoid_rewrite Hrp. setoid_rewrite elem_of_key_rows. simpl. split.
    - intros (p & row & (_ & row' & Hr' & Hk) & Hr & <-). congruence.
    - intros Hk. destruct (all_found_spec keys db k Hall Hn Hu Hk) as (p & row & Hr & <-). exists p, row. naive_solver. }
  split; [done|]. eapply paired_ext; [|done]. intros k. by rewrite role_keys_spec, Hg.
Qed.

(** Replacing a row that keeps its identity. *)
Lemma roles_ok_rewrite db id r r' :
  roles_ok db → au_roles db !! id = Some r → rl_IsBuiltin r' = rl_IsBuiltin r → rl_BuiltinKey r' = rl_BuiltinKey r →
  rl_OrganizationID r' = rl_OrganizationID r → rl_Name r' = rl_Name r → (rl_Deleted r' = false → rl_Deleted r = false) →
  roles_ok (db <| au_roles := <[id := r']> (au_roles db) |>).
Proof.
  intros Hok Hr Eb Ek Eo En Ed. destruct Hok as [Hb Hu Hp Href Hc Hn] eqn:Hdup. clear Hdup.
  apply (roles_ok_write db _ id r'); try done; rewrite ?Eb, ?Ek.
  - intros p Hin. by apply (Href id p).
  - by eapply Hb.
  - intros org key j s Hj Hs. unfold is_builtin_of at 1. rewrite Eb, Ek, Eo. intros Hbr.
    apply not_true_iff_false. intros Hbs. apply Hj. apply andb_prop in Hbr as [Hbr Hd%negb_true_iff].
    eapply Hu; [done..|]. unfold is_builtin_of. by rewrite Hbr, Ed.
  - intros org [C1 C2]. rewrite Eb in C1. rewrite Eo in C2. rewrite En. destruct (Hc id r org Hr) as [Hk Hres]; done.
  - intros org j s Hj Hs [C1 C2] Hcs Hd Hds He. rewrite Eb in C1. rewrite Eo in C2. rewrite En in He.
    apply Hj. by eapply (Hn j id s r org); auto.
Qed.

Lemma name_free self org name db j s :
  name_taken self org name db = false → au_roles db !! j = Some s → Some j ≠ self → custom_of org s →
  rl_Deleted s = false → name_key (rl_Name s) ≠ name_key name.
Proof.
  intros Ht Hs Hj [C1 C2] Hd He. pose proof (proj1 (has_row_false _ _) Ht j s Hs) as Hf. cbv beta in Hf.
  rewrite C1, Hd, (bool_decide_eq_false_2 (Some j = self)), (bool_decide_eq_true_2 _ C2), (bool_decide_eq_true_2 _ He) in Hf; done.
Qed.

Lemma role_keys_ext db db' role :
  au_permissions db' = au_permissions db → au_role_permissions db' = au_role_permissions db →
  role_keys role db' = role_keys role db.
Proof. intros Ep Er. unfold role_keys, permission_keys_of. by rewrite Ep, Er. Qed.

Lemma roles_ok_ext db db' :
  au_roles db' = au_roles db → au_permissions db' = au_permissions db →
  au_role_permissions db' = au_role_permissions db → roles_ok db → roles_ok db'.
Proof.
  intros Er Ep Erp [Hb Hu Hp Href Hc Hn]. split; unfold unique_permissions; rewrite ?Er, ?Ep, ?Erp; try done.
  intros id r org Hr Hco. rewrite (role_keys_ext db db' id Ep Erp). by eapply Hc.
Qed.

Lemma people_ok_roles db db' :
  people_ok db → us_UserID <$> au_users db' = us_UserID <$> au_users db → au_memberships db' = au_memberships db →
  au_assignments db' = au_assignments db →
  (∀ id o, rl_OrganizationID <$> au_roles db !! id = Some (Some o) → rl_OrganizationID <$> au_roles db' !! id = Some (Some o)) →
  people_ok db'.
Proof.
  intros [H1 H2 H3 H4 H5 H6 H7 H8] Eu Em Ea Hr.
  assert (∀ id, is_Some (au_users db !! id) → is_Some (au_users db' !! id)) as Hu.
  { intros id Hid. apply (f_equal (lookup id)) in Eu. rewrite !lookup_fmap in Eu.
    apply fmap_is_Some with (f := us_UserID). rewrite Eu. by apply fmap_is_Some. }
  split; rewrite ?Em, ?Ea; eauto.
  intros i j u v Hi Hj He.
  assert (∀ k x, au_users db' !! k = Some x → ∃ y, au_users db !! k = Some y ∧ us_UserID y = us_UserID x) as Hback.
  { intros k x Hx. apply (f_equal (lookup k)) in Eu. rewrite !lookup_fmap, Hx in Eu.
    destruct (au_users db !! k) as [y|]; [|done]. injection Eu as Ei. eauto. }
  destruct (Hback i u Hi) as (y & Hy & Ey). destruct (Hback j v Hj) as (z & Hz & Ez).
  eapply (H8 i j y z); congruence.
Qed.

Lemma same_access_ok db db' : same_access db db' → auth_ok db → auth_ok db'.
Proof.
  intros [Eu Eo Er Ep Erp Em Ea] [Hr Hp]. split.
  - by apply (roles_ok_ext db).
  - apply (people_ok_roles db); try done; [|by rewrite Er].
    apply (f_equal (fmap fst)) in Eu. by rewrite <- !map_fmap_compose in Eu.
Qed.

(** *** Role requests *)

Lemma key_rows_other role keys db r p : (r, p) ∈ key_rows role keys db → r = role.
Proof. by intros [? _]%elem_of_key_rows. Qed.

Lemma key_rows_known role keys db p : (role, p) ∈ key_rows role keys db → is_Some (au_permissions db !! p).
Proof. intros [_ (row & Hr & _)]%elem_of_key_rows. by exists row. Qed.

Lemma insert_org db id r k o :
  (is_Some (au_roles db !! id) → rl_OrganizationID <$> au_roles db !! id = Some (rl_OrganizationID r)) →
  rl_OrganizationID <$> au_roles db !! k = Some (Some o) →
  rl_OrganizationID <$> <[id := r]> (au_roles db) !! k = Some (Some o).
Proof.
  intros Hr Hk. destruct (decide (k = id)) as [->|Hne]; [|by rewrite lookup_insert_ne].
  rewrite lookup_insert_eq. rewrite <- Hk. symmetry. apply Hr. by apply fmap_is_Some with (f := rl_OrganizationID); rewrite Hk.
Qed.

Lemma create_role_auth_ok caller org name description keys db v db' :
  CreateCustomRole caller org name description keys db = (Ok v, db') → auth_ok db → auth_ok db'.
Proof.
  intros (norm & desc & Hv & _ & Hall & Hres & Hname & ->)%create_role_ok [Hr Hp].
  apply validated_keys in Hv as (Hn & _ & Hpair). pose proof (next_id_fresh (au_roles db)) as Hfresh.
  set (id := next_id (au_roles db)) in *. split.
  - apply (roles_ok_write db _ id (custom_row org (TrimSpace name) desc)); try done; cbn [au_role_permissions au_permissions set_field setter].
    + intros role p Hne. rewrite elem_of_union. split; [intros [Hk|]; [|done]|by right].
      by apply key_rows_other in Hk.
    + intros p [Hk|Hk]%elem_of_union; [by eapply key_rows_known|]. by apply (ro_references _ Hr) in Hk as [_ ?].
    + intros o [_ Ho]. split; [|done]. apply (written_keys db _ id norm); try done; [apply (ro_permissions _ Hr)|].
      intros p. simpl. rewrite elem_of_union. split; [intros [?|Hk]; [done|]|by left].
      apply (ro_references _ Hr) in Hk as [[r Hk] _]. by rewrite Hfresh in Hk.
    + intros o j s Hj Hs [_ Ho] Hcs _ Hd. injection Ho as <-. by eapply name_free.
  - apply (people_ok_roles db); try done. intros k o. apply insert_org. rewrite Hfresh. by intros [? ?].
Qed.

Lemma update_role_auth_ok caller org id name description keys db v db' :
  UpdateCustomRole caller org id name description keys db = (Ok v, db') → auth_ok db → auth_ok db'.
Proof.
  intros (norm & r & desc & Hv & _ & [Hid Hdel]%live_role_Some & Ho & Hb & Hall & Hres & Hname & ->)%update_role_ok [Hr Hp].
  apply validated_keys in Hv as (Hn & _ & Hpair). split.
  - eapply (roles_ok_write db _ id); try done; cbn [au_role_permissions au_permissions set_field setter rl_IsBuiltin rl_BuiltinKey rl_Name rl_Deleted].
    + intros role p Hne. rewrite elem_of_union, elem_of_filter. split; [intros [Hk|[_ ?]]; [|done]|by right].
      by apply key_rows_other in Hk.
    + intros p. rewrite elem_of_union, elem_of_filter. intros [Hk|[? _]]; [by eapply key_rows_known|done].
    + by eapply (ro_builtin _ Hr).
    + intros o key j s _ _. unfold is_builtin_of at 1. simpl. by rewrite Hb.
    + intros o [_ Hro]. split; [|done]. apply (written_keys db _ id norm); try done; [apply (ro_permissions _ Hr)|].
      intros p. simpl. rewrite elem_of_union, elem_of_filter. split; [intros [?|[? _]]; done|by left].
    + intros o j s Hj Hs [_ Hro] Hcs _ Hd. simpl in Hro. rewrite Ho in Hro. injection Hro as <-.
      eapply name_free; [done..| |done|done]. congruence.
  - apply (people_ok_roles db); try done. intros k o. apply insert_org. by rewrite Hid.
Qed.

Lemma delete_role_auth_ok caller org id db v db' :
  DeleteCustomRole caller org id db = (Ok v, db') → auth_ok db → auth_ok db'.
Proof.
  intros (r & [Hid Hdel]%live_role_Some & Ho & Hb & _ & ->)%delete_role_ok [Hr Hp]. split.
  - by apply (roles_ok_rewrite db id r).
  - apply (people_ok_roles db); try done. intros k o. apply insert_org. by rewrite Hid.
Qed.

(** ** People *)

Lemma people_ok_user db id u :
  people_ok db → au_users db !! id = None → (∀ j v, au_users db !! j = Some v → us_UserID v ≠ us_UserID u) →
  people_ok (db <| au_users := <[id := u]> (au_users db) |>).
Proof.
  intros [H1 H2 H3 H4 H5 H6 H7 H8] Hid Hu.
  assert (∀ k, is_Some (au_users db !! k) → is_Some (<[id := u]> (au_users db) !! k)) as Hgrow.
  { intros k Hk. apply lookup_insert_is_Some'. by right. }
  split; cbn [au_users au_memberships au_assignments au_roles set_field setter]; eauto.
  intros i j v w [[<- <-]|[Hi Hv]]%lookup_insert_Some [[<- <-]|[Hj Hw]]%lookup_insert_Some He; try done.
  - by destruct (Hu j w Hw).
  - by destruct (Hu i v Hv).
  - by eapply H8.
Qed.

(** A user without memberships joins an organization. *)
Lemma people_ok_join db user org role aid :
  people_ok db → is_Some (au_users db !! user) → (∀ o, au_memberships db !! (user, o) = None) →
  rl_OrganizationID <$> au_roles db !! role = Some (Some org) → au_assignments db !! aid = None →
  people_ok (db <| au_memberships := <[(user, org) := {| mb_RoleID := role; mb_Deleted := false |}]> (au_memberships db) |>
                <| au_assignments := <[aid := new_assignment user org role]> (au_assignments db) |>).
Proof.
  intros [H1 H2 H3 H4 H5 H6 H7 H8] Hu Hm Hr Ha.
  assert (∀ i a, au_assignments db !! i = Some a → ar_UserID a ≠ user) as Hno.
  { intros i a Hi He. specialize (H3 i a Hi). by rewrite He, Hm in H3. }
  split; cbn [au_users au_memberships au_assignments au_roles set_field setter].
  - intros i a [[<- <-]|[_ Hi]]%lookup_insert_Some; [done|by eapply H1].
  - intros i a [[<- <-]|[_ Hi]]%lookup_insert_Some; [done|by eapply H2].
  - intros i a [[<- <-]|[_ Hi]]%lookup_insert_Some; [by rewrite lookup_insert_eq|].
    rewrite lookup_insert_ne; [by eapply H3|]. intros [= He _]. by destruct (Hno i a Hi).
  - intros v o [[= <- <-]|[_ Hv]]%lookup_insert_is_Some; [done|by eapply H4].
  - intros v o o' [E1|[Hne Hv]]%lookup_insert_is_Some [E2|[Hne' Hv']]%lookup_insert_is_Some; simplify_eq; try done.
    + rewrite Hm in Hv'. by destruct Hv'.
    + rewrite Hm in Hv. by destruct Hv.
    + by eapply H5.
  - intros i j a b [[<- <-]|[_ Hi]]%lookup_insert_Some [[<- <-]|[_ Hj]]%lookup_insert_Some; try done.
    + intros _ _ _ _ He. by destruct (Hno j b Hj).
    + intros _ _ _ _ He. by destruct (Hno i a Hi).
    + by eapply H6.
  - intros i a [[<- <-]|[_ Hi]]%lookup_insert_Some; [by left|by eapply H7].
  - done.
Qed.

Lemma people_ok_swap db target org id a role new :
  people_ok db → au_assignments db !! id = Some a → ar_UserID a = target → ar_OrganizationID a = org →
  ar_ScopeType a = ScopeOrg → ar_Deleted a = false → rl_OrganizationID <$> au_roles db !! role = Some (Some org) →
  au_assignments db !! new = None → new ≠ id →
  people_ok (db <| au_memberships := update_row (target, org) (λ _, true) (λ m, m <| mb_RoleID := role |>) (au_memberships db) |>
                <| au_assignments := <[new := new_assignment target org role]>
                     (<[id := a <| ar_Deleted := true |>]> (au_assignments db)) |>).
Proof.
  intros [H1 H2 H3 H4 H5 H6 H7 H8] Ha Hu Ho Hs Hd Hr Hnew Hne.
  set (ms := update_row _ _ _ _).
  assert (∀ k, mb_Deleted <$> ms !! k = mb_Deleted <$> au_memberships db !! k) as Hms.
  { intros k. unfold ms. rewrite lookup_update_row. destruct (decide _); [|done]. by destruct (au_memberships db !! k). }
  assert (∀ k, is_Some (ms !! k) → is_Some (au_memberships db !! k)) as Hms'.
  { intros k Hk. apply fmap_is_Some with (f := mb_Deleted). rewrite <- Hms. by apply fmap_is_Some. }
  assert (∀ i b, <[new := new_assignment target org role]> (<[id := a <| ar_Deleted := true |>]> (au_assignments db)) !! i = Some b →
    (i = new ∧ b = new_assignment target org role) ∨ (i = id ∧ b = a <| ar_Deleted := true |>)
    ∨ (i ≠ new ∧ i ≠ id ∧ au_assignments db !! i = Some b)) as Hcase.
  { intros i b [[-> <-]|[Hn [[-> <-]|[Hi Hb]]%lookup_insert_Some]]%lookup_insert_Some; auto 10. }
  split; cbn [au_users au_memberships au_assignments au_roles set_field setter]; fold ms.
  - intros i b [[-> ->]|[[-> ->]|(_ & _ & Hb)]]%Hcase; [done|by apply (H1 id a)|by eapply H1].
  - intros i b [[-> ->]|[[-> ->]|(_ & _ & Hb)]]%Hcase; [simpl; rewrite <- Hu; by apply (H2 id a)|by apply (H2 id a)|by eapply H2].
  - intros i b [[-> ->]|[[-> ->]|(_ & _ & Hb)]]%Hcase; rewrite Hms;
      [simpl; rewrite <- Hu, <- Ho; by apply (H3 id a)|by apply (H3 id a)|by eapply H3].
  - intros v o Hv. by eapply H4, Hms'.
  - intros v o o' Hv Hv'. eapply H5; by apply Hms'.
  - intros i j b c [[-> ->]|[[-> ->]|(Hi1 & Hi2 & Hb)]]%Hcase [[-> ->]|[[-> ->]|(Hj1 & Hj2 & Hc)]]%Hcase Db Dc Sb Sc Eu Eo;
      try done; simpl in *.
    + destruct Hj2. eapply (H6 j id c a); congruence.
    + destruct Hi2. eapply (H6 i id b a); congruence.
    + by eapply (H6 i j b c).
  - intros i b [[-> ->]|[[-> ->]|(_ & _ & Hb)]]%Hcase; [by left|by apply (H7 id a)|by eapply H7].
  - done.
Qed.

(** *** User requests *)

Section Requests.
Context `{AuthEnv} (duration : Z).

Lemma active_live db a : active_assignment db a = true → ar_Deleted a = false.
Proof. unfold active_assignment. intros [[Hd _]%andb_prop _]%andb_prop. by apply negb_true_iff in Hd. Qed.

Lemma create_user_auth_ok caller random userID username roleID db pw db' :
  CreateUser caller random userID username roleID db = (Ok pw, db') → auth_ok db → auth_ok db'.
Proof.
  intros (org & role & r & hash & _ & [Hr _]%live_role_Some & Ho & _ & _ & Hid & ->)%create_user_ok [Hro Hp].
  split; [by apply (roles_ok_ext db)|].
  pose proof (next_id_fresh (au_users db)) as Hfresh.
  pose proof (people_ok_join (db <| au_users := <[next_id (au_users db) := new_user userID (TrimSpace username) hash]> (au_users db) |>)
    (next_id (au_users db)) org role (next_id (au_assignments db))) as Hj.
  cbn in Hj |- *. apply Hj; clear Hj.
  - apply (people_ok_user db); [done..|]. intros j v Hv. pose proof (proj1 (has_row_false _ _) Hid j v Hv) as Hf.
    by apply bool_decide_eq_false in Hf.
  - rewrite lookup_insert_eq. by eexists.
  - intros o. destruct (au_memberships db !! _) as [m|] eqn:Em; [|done].
    destruct (po_membership _ Hp (next_id (au_users db)) o) as [u Hu]; [by eexists|]. by rewrite Hfresh in Hu.
  - rewrite Hr. simpl. by rewrite Ho.
  - apply next_id_fresh.
Qed.

Lemma update_user_role_auth_ok caller targetID roleID db swapped db' :
  UpdateUserRole caller targetID roleID db = (Ok swapped, db') → auth_ok db → auth_ok db'.
Proof.
  intros [->|(org & target & id & a & role & r & new & _ & _ & Ha & Hu & Ho & Hs & Hact & [Hr _]%live_role_Some & Hro
    & _ & _ & _ & _ & Hnew & Hne & ->)]%update_user_role_ok [Hrok Hp]; [done|].
  split; [by apply (roles_ok_ext db)|]. apply people_ok_swap; try done; [by eapply active_live|].
  rewrite Hr. simpl. by rewrite Hro.
Qed.

Lemma deactivate_auth_ok caller targetID db u db' :
  DeactivateUser caller targetID db = (Ok u, db') → auth_ok db → auth_ok db'.
Proof.
  intros (org & target & row & _ & [Hrow Hd]%live_user_Some & _ & _ & _ & _ & _ & _ & ->)%deactivate_ok [Hrok Hp].
  split; [by apply (roles_ok_ext db)|]. apply (people_ok_roles db); try done. cbn [au_users set_field setter].
  rewrite fmap_insert. by apply insert_id; rewrite lookup_fmap, Hrow.
Qed.

Lemma serve_auth_ok caller org req db : auth_ok db → auth_ok (serve duration caller org req db).
Proof.
  intros Hok. apply serve_cases; intros.
  - by eapply same_access_ok.
  - by eapply create_role_auth_ok.
  - by eapply update_role_auth_ok.
  - by eapply delete_role_auth_ok.
  - by eapply create_user_auth_ok.
  - by eapply deactivate_auth_ok.
  - by eapply update_user_role_auth_ok.
Qed.

End Requests.
End Conditions.
