(* ===== verification/AuthzReconcileFacts.v ===== *)
(** * Reconciliation of the built-in roles

    One seeding step as a relation ([seeded]): which row and which permissions it
    leaves. On a loaded catalog every step succeeds; a whole reconciliation is a chain of
    steps over the active organizations and the three specifications. *)

From S2P Require Import Prelude GoSort Errors RolloutBehavior RolloutBehaviorFacts CommandFilter.
From S2P Require Import AuthzPermissions AuthzStore AuthzService AuthService.
From S2P Require Import AuthzResolverFacts AuthRequests AuthEffects AuthFrame AuthInvariant.
#[local] Open Scope string_scope.
#[local] Open Scope list_scope.
#[local] Open Scope Z_scope.
#[local] Open Scope go_scope.

(** ** The catalog *)

(** Every key of the catalog has its permission row. *)
Definition loaded (db : AuthDB) : Prop :=
  ∀ k, k ∈ AllPermissions → ∃ p row, au_permissions db !! p = Some row ∧ pe_Key row = k.

Lemma all_found_intro keys db :
  NoDup keys → unique_permissions db → (∀ k, k ∈ keys → ∃ p row, au_permissions db !! p = Some row ∧ pe_Key row = k) →
  all_found keys db.
Proof.
  intros Hn Hu Hk. unfold all_found.
  set (rows := List.filter (λ kv, bool_decide (pe_Key kv.2 ∈ keys)) (map_to_list (au_permissions db))).
  assert (∀ kv, kv ∈ rows ↔ au_permissions db !! kv.1 = Some kv.2 ∧ pe_Key kv.2 ∈ keys) as Hrows.
  { intros [p row]. unfold rows. rewrite elem_of_List_filter, elem_of_map_to_list. simpl. by rewrite bool_decide_eq_true. }
  assert (NoDup rows) as Hnr by (eapply sublist_NoDup; [apply NoDup_map_to_list|apply list_filter_sublist]).
  rewrite <- (length_map (λ kv, pe_Key kv.2)). apply Permutation_length, NoDup_Permutation; [|done|].
  - apply NoDup_fmap_2_strong; [|done]. intros [i p] [j q] [Hi _]%Hrows [Hj _]%Hrows He.
    simpl in *. assert (i = j) as -> by (eapply Hu; eauto). congruence.
  - intros k. rewrite list_elem_of_fmap. split.
    + intros (kv & -> & Hin%Hrows). tauto.
    + intros Hin. destruct (Hk k Hin) as (p & row & Hp & <-). exists (p, row). split; [done|]. by apply Hrows.
Qed.

(** The seeds of the built-in roles are keys of the catalog, each once. *)
Lemma builtin_seeds spec :
  spec ∈ BuiltinRoles → NoDup (bs_SeedPermissions spec) ∧ ∀ k, k ∈ bs_SeedPermissions spec → k ∈ AllPermissions.
Proof.
  assert (Forall (λ spec, NoDup (bs_SeedPermissions spec) ∧ Forall (λ k, k ∈ AllPermissions) (bs_SeedPermissions spec))
    BuiltinRoles) as Hall.
  { apply (bool_decide_unpack _). vm_compute. exact I. }
  intros Hs. rewrite Forall_forall in Hall. destruct (Hall spec Hs) as [Hn Hk]. split; [done|]. by apply Forall_forall.
Qed.

Lemma seeds_found spec db :
  spec ∈ BuiltinRoles → unique_permissions db → loaded db → all_found (bs_SeedPermissions spec) db.
Proof. intros [Hn Hk]%builtin_seeds Hu Hl. apply all_found_intro; auto. Qed.

Lemma assignSeedPermissions_eq role spec db :
  all_found (bs_SeedPermissions spec) db →
  assignSeedPermissions role spec db
  = (Ok tt, db <| au_role_permissions := key_rows role (bs_SeedPermissions spec) db ∪ au_role_permissions db |>).
Proof.
  intros Hall. unfold assignSeedPermissions, lookupSeedPermissions.
  change (query (GetPermissionsByKeys (bs_SeedPermissions spec)) plain) with
    (gets (λ db, List.filter (λ kv, bool_decide (pe_Key kv.2 ∈ bs_SeedPermissions spec)) (map_to_list (au_permissions db))) : AOp _).
  unfold mbind, M_bind, gets. unfold all_found in Hall. rewrite Hall, Nat.eqb_refl. cbn [negb]. unfold mret, M_ret.
  by rewrite for_each_assign.
Qed.

(** ** One step *)

(** What seeding one role does. [existed]: the role was there. *)
Record seeded (org : Z) (spec : BuiltinRoleSpec) (db : AuthDB) (id : Z) (db' : AuthDB) : Prop := {
  sd_frame : db' = db <| au_roles := au_roles db' |> <| au_role_permissions := au_role_permissions db' |>;
  sd_role : ∃ r, au_roles db' = <[id := r]> (au_roles db) ∧ is_builtin_of org (bs_Key spec) r = true
    ∧ rl_BuiltinKey r = Some (bs_Key spec)
    ∧ (au_roles db !! id = Some r
       ∨ au_roles db !! id = None ∧ ∀ j s, au_roles db !! j = Some s → is_builtin_of org (bs_Key spec) s = false);
  sd_others role p : role ≠ id → (role, p) ∈ au_role_permissions db' ↔ (role, p) ∈ au_role_permissions db;
  sd_kept : bs_Mode spec = ReconcileAdditive → is_Some (au_roles db !! id) →
    ∀ p, (id, p) ∈ au_role_permissions db' ↔ (id, p) ∈ au_role_permissions db;
  sd_seeds : bs_Mode spec = ReconcileFull ∨ au_roles db !! id = None →
    ∀ p, (id, p) ∈ au_role_permissions db' ↔ (id, p) ∈ key_rows id (bs_SeedPermissions spec) db
}.

Section Seed.
Context `{Collation}.

Lemma builtin_key_of org key r : is_builtin_of org key r = true →
  rl_IsBuiltin r = true ∧ rl_OrganizationID r = Some org ∧ rl_BuiltinKey r = Some key ∧ rl_Deleted r = false.
Proof. unfold is_builtin_of. intros Hb. by crush_bools. Qed.

(** A built-in that exists and is fully reconciled. *)
Lemma seeded_full org spec db id r :
  au_roles db !! id = Some r → is_builtin_of org (bs_Key spec) r = true → bs_Mode spec = ReconcileFull →
  all_found (bs_SeedPermissions spec) db →
  ∃ db', fullyReconcilePermissions id spec db = (Ok tt, db') ∧ seeded org spec db id db'.
Proof.
  intros Hr Hb Hm Hall. unfold fullyReconcilePermissions, mbind, M_bind. rewrite (assignSeedPermissions_eq id spec db Hall).
  eexists. split; [reflexivity|]. split; cbn [au_roles au_role_permissions au_permissions set_field setter].
  - by destruct db.
  - exists r. split_and!; [by rewrite insert_id|done|by apply builtin_key_of in Hb as (_ & _ & ? & _)|by left].
  - intros role p Hne. rewrite elem_of_filter, elem_of_union. split; [|by auto].
    intros [_ [Hk%key_rows_other|?]]; done.
  - by rewrite Hm.
  - intros _ p. rewrite elem_of_filter, elem_of_union. split; [|intros Hk; split; [|by left]].
    + intros [[?|Hp] _]; [done|]. apply elem_of_key_rows. split; [done|]. simpl in *.
      destruct (au_permissions db !! p) as [row|]; [|done]. by exists row.
    + right. apply elem_of_key_rows in Hk as [_ (row & Hp & Hk)]. simpl in *. by rewrite Hp.
Qed.

Lemma seed_builtin_total org spec db :
  roles_ok db → all_found (bs_SeedPermissions spec) db →
  ∃ id db', seed_builtin org spec db = (Ok id, db') ∧ seeded org spec db id db'.
Proof.
  intros Hr Hall. unfold seed_builtin, GetBuiltinRoleForOrg, one.
  destruct (find_row (λ _ r, is_builtin_of org (bs_Key spec) r) (au_roles db)) as [[id r]|] eqn:Ef.
  - apply find_row_Some in Ef as [Hid Hb]. exists id. destruct (bs_Mode spec) eqn:Em.
    + destruct (seeded_full org spec db id r Hid Hb Em Hall) as (db' & Hf & Hsd). exists db'. split; [|done].
      cbn [fst when bool_decide]. unfold mbind, M_bind. rewrite (bool_decide_eq_true_2 (ReconcileFull = ReconcileFull)) by done.
      cbn [when]. by rewrite Hf.
    + exists db. split; [done|]. split; try done.
      * by destruct db.
      * exists r. rewrite insert_id by done. apply builtin_key_of in Hb as Hk. destruct Hk as (_ & _ & ? & _). auto 10.
      * intros [?|Hn]; [congruence|]. by rewrite Hid in Hn.
  - pose proof (proj1 (find_row_None _ _) Ef) as Hnone. cbv beta in Hnone.
    pose proof (next_id_fresh (au_roles db)) as Hfresh. set (id := next_id (au_roles db)) in *.
    exists id. unfold UpsertBuiltinRoleForOrg, query, mbind, M_bind. rewrite Ef. fold id. cbn [fst].
    eexists. split; [rewrite assignSeedPermissions_eq by done; reflexivity|].
    split; cbn [au_roles au_role_permissions au_permissions set_field setter].
    + by destruct db.
    + eexists. split_and!; [reflexivity| |done|by right]. unfold is_builtin_of. simpl. by rewrite !bool_decide_eq_true_2.
    + intros role p Hne. rewrite elem_of_union. split; [intros [Hk%key_rows_other|?]|]; auto. done.
    + intros _ [x Hx]. by rewrite Hfresh in Hx.
    + intros _ p. rewrite elem_of_union. split; [intros [?|Hk]; [done|]|by left].
      apply (ro_references _ Hr) in Hk as [[x Hx] _]. by rewrite Hfresh in Hx.
Qed.

(** A seeding that succeeds is a step, whatever the catalog holds. *)
Lemma seed_builtin_ok org spec db id db' :
  roles_ok db → seed_builtin org spec db = (Ok id, db') → seeded org spec db id db'.
Proof.
  intros Hr Hs. destruct (decide (all_found (bs_SeedPermissions spec) db)) as [Hall|Hall].
  { destruct (seed_builtin_total org spec db Hr Hall) as (id0 & db0 & Hs0 & Hsd). rewrite Hs in Hs0. by injection Hs0 as -> ->. }
  assert (∀ role db0, au_permissions db0 = au_permissions db → assignSeedPermissions role spec db0 = (Err Plain, db0)) as Hfail.
  { intros role db0 Ep. unfold assignSeedPermissions, lookupSeedPermissions.
    change (query (GetPermissionsByKeys (bs_SeedPermissions spec)) plain) with
      (gets (λ db, List.filter (λ kv, bool_decide (pe_Key kv.2 ∈ bs_SeedPermissions spec)) (map_to_list (au_permissions db))) : AOp _).
    unfold mbind, M_bind, gets. rewrite Ep. by rewrite (proj2 (Nat.eqb_neq _ _) Hall). }
  unfold seed_builtin, GetBuiltinRoleForOrg, one in Hs.
  destruct (find_row (λ _ r, is_builtin_of org (bs_Key spec) r) (au_roles db)) as [[i r]|] eqn:Ef.
  - apply find_row_Some in Ef as [Hid Hb]. destruct (bs_Mode spec) eqn:Em.
    + unfold when, fullyReconcilePermissions, mbind, M_bind in Hs. rewrite bool_decide_eq_true_2, Hfail in Hs by done. done.
    + injection Hs as <- <-. split; try done.
      * by destruct db.
      * exists r. rewrite insert_id by done. apply builtin_key_of in Hb as Hk. destruct Hk as (_ & _ & ? & _). auto 10.
      * intros [?|Hn]; [congruence|]. by rewrite Hid in Hn.
  - unfold UpsertBuiltinRoleForOrg, query, mbind, M_bind in Hs. rewrite Ef in Hs. by rewrite Hfail in Hs.
Qed.

Lemma seeded_auth_ok org spec db id db' : seeded org spec db id db' → auth_ok db → auth_ok db'.
Proof.
  intros [Hf (r & Er & Hb & Hkey & Hold) Hoth Hkept Hseeds] [Hr Hp].
  apply builtin_key_of in Hb as Hb'. destruct Hb' as (Hbu & Ho & _ & Hdel). split.
  - eapply (roles_ok_write db db' id r); try done.
    + by rewrite Hf.
    + intros p Hin. destruct (bs_Mode spec) eqn:Em.
      * apply Hseeds in Hin; [|by left]. by eapply key_rows_known.
      * destruct Hold as [Hold|[Hold _]].
        -- apply Hkept in Hin; [|done|by rewrite Hold]. by apply (ro_references _ Hr) in Hin as [_ ?].
        -- apply Hseeds in Hin; [|by right]. by eapply key_rows_known.
    + by rewrite Hbu, Hkey.
    + intros o key j s Hj Hs Hbk. apply builtin_key_of in Hbk as (_ & Ho' & Hk' & _).
      assert (o = org) as -> by congruence. assert (key = bs_Key spec) as -> by congruence.
      destruct Hold as [Hold|[_ Hold]]; [|by eapply Hold]. apply not_true_iff_false. intros Hbs. apply Hj.
      by eapply (ro_unique _ Hr).
    + intros o [Hc _]. congruence.
    + intros o j s _ _ [Hc _]. congruence.
  - apply (people_ok_roles db); try done; try (by rewrite Hf). intros k o. rewrite Er. apply insert_org.
    intros [x Hx]. destruct Hold as [Hold|[Hold _]]; [|by rewrite Hx in Hold]. by rewrite Hold.
Qed.

(** ** A chain of steps *)

Inductive seeding : list (Z * BuiltinRoleSpec) → AuthDB → AuthDB → Prop :=
| seeding_nil db : seeding [] db db
| seeding_cons org spec pairs db id db1 db2 :
    seeded org spec db id db1 → seeding pairs db1 db2 → seeding ((org, spec) :: pairs) db db2.

(** The role rows a pair identifies. *)
Definition pair_key (os : Z * BuiltinRoleSpec) : Z * string := (os.1, bs_Key os.2).

(** The outcome for one pair: its role, reconciled, created or left alone. *)
Definition settled (db db' : AuthDB) (org : Z) (spec : BuiltinRoleSpec) : Prop :=
  ∃ id r, au_roles db' !! id = Some r ∧ is_builtin_of org (bs_Key spec) r = true ∧
    (bs_Mode spec = ReconcileFull ∨ au_roles db !! id = None →
       ∀ p, (id, p) ∈ au_role_permissions db' ↔ (id, p) ∈ key_rows id (bs_SeedPermissions spec) db) ∧
    (bs_Mode spec = ReconcileAdditive → is_Some (au_roles db !! id) →
       ∀ p, (id, p) ∈ au_role_permissions db' ↔ (id, p) ∈ au_role_permissions db).

Record chained (pairs : list (Z * BuiltinRoleSpec)) (db db' : AuthDB) : Prop := {
  ch_frame : db' = db <| au_roles := au_roles db' |> <| au_role_permissions := au_role_permissions db' |>;
  ch_rows id r : au_roles db !! id = Some r → au_roles db' !! id = Some r;
  ch_settled org spec : (org, spec) ∈ pairs → settled db db' org spec;
  ch_others id r : au_roles db !! id = Some r →
    (∀ org spec, (org, spec) ∈ pairs → bs_Mode spec = ReconcileFull → is_builtin_of org (bs_Key spec) r = false) →
    ∀ p, (id, p) ∈ au_role_permissions db' ↔ (id, p) ∈ au_role_permissions db
}.

Lemma builtin_of_one org key org' key' r :
  is_builtin_of org key r = true → is_builtin_of org' key' r = true → (org, key) = (org', key').
Proof. intros (_ & H1 & H2 & _)%builtin_key_of (_ & H3 & H4 & _)%builtin_key_of. congruence. Qed.

Lemma key_rows_frame role keys db db' : au_permissions db' = au_permissions db → key_rows role keys db' = key_rows role keys db.
Proof. intros Ep. unfold key_rows. by rewrite Ep. Qed.

(** The head of a chain stays settled along its tail. *)
Lemma chained_head org spec pairs db id db1 db2 :
  seeded org spec db id db1 → chained pairs db1 db2 → pair_key (org, spec) ∉ map pair_key pairs → settled db db2 org spec.
Proof.
  intros [Hf (r & Er & Hb & Hkey & Hold) Hoth Hkept Hseeds] [Cf Cr Cs Co] Hpk.
  assert (au_roles db1 !! id = Some r) as Hr1 by (by rewrite Er, lookup_insert_eq).
  assert (∀ p, (id, p) ∈ au_role_permissions db2 ↔ (id, p) ∈ au_role_permissions db1) as Hsame.
  { apply (Co id r Hr1). intros org' spec' Hin _. apply not_true_iff_false. intros Hb'. apply Hpk.
    apply list_elem_of_fmap. exists (org', spec'). split; [|done]. by apply (builtin_of_one _ _ _ _ r). }
  exists id, r. split_and!; [by apply Cr|done| |]; setoid_rewrite Hsame; auto.
Qed.

(** An outcome of the tail, seen from before the head. *)
Lemma settled_before org spec db id db1 db2 org' spec' :
  seeded org spec db id db1 → (∀ i r, au_roles db1 !! i = Some r → au_roles db2 !! i = Some r) →
  pair_key (org', spec') ≠ pair_key (org, spec) → settled db1 db2 org' spec' → settled db db2 org' spec'.
Proof.
  intros [Hf (r & Er & Hb & Hkey & Hold) Hoth Hkept Hseeds] Cr Hpk (id' & r' & Hr' & Hb' & Hfull & Hadd).
  assert (id' ≠ id) as Hne.
  { intros ->. rewrite (Cr id r) in Hr' by (by rewrite Er, lookup_insert_eq). injection Hr' as <-.
    apply Hpk. symmetry. by apply (builtin_of_one _ _ _ _ r). }
  rewrite Er in Hfull, Hadd. rewrite lookup_insert_ne in Hfull, Hadd by done.
  assert (au_permissions db1 = au_permissions db) as Ep by (by rewrite Hf).
  exists id', r'. split_and!; [done..| |].
  - intros Hc p. rewrite (Hfull Hc p). by rewrite (key_rows_frame _ _ db db1 Ep).
  - intros Hm Hs p. rewrite (Hadd Hm Hs p). by apply Hoth.
Qed.

Lemma seeding_chained pairs db db' : seeding pairs db db' → NoDup (map pair_key pairs) → chained pairs db db'.
Proof.
  induction 1 as [db|org spec pairs db id db1 db2 Hsd Hrest IH]; intros Hn.
  { split; try done; [by destruct db|by intros ? ? ?%elem_of_nil]. }
  cbn [map] in Hn. apply NoDup_cons in Hn as [Hpk Hn]. specialize (IH Hn). pose proof IH as [Cf Cr Cs Co].
  pose proof Hsd as [Hf (r & Er & Hb & Hkey & Hold) Hoth Hkept Hseeds].
  assert (∀ i s, au_roles db !! i = Some s → au_roles db1 !! i = Some s) as Hr1.
  { intros i s Hs. rewrite Er. destruct (decide (i = id)) as [->|Hne]; [|by rewrite lookup_insert_ne].
    rewrite lookup_insert_eq. destruct Hold as [Hold|[Hold _]]; congruence. }
  split.
  - rewrite Cf, Hf. by destruct db.
  - auto.
  - intros org' spec' [[= -> ->]|Hin]%elem_of_cons; [by eapply chained_head|].
    eapply settled_before; [done|done| |by apply Cs]. intros He. apply Hpk. rewrite <- He.
    apply list_elem_of_fmap. by exists (org', spec').
  - intros i s Hs Hno p. rewrite (Co i s (Hr1 i s Hs)); [|intros org' spec' Hin; apply Hno; by right].
    destruct (decide (i = id)) as [->|Hne]; [|by apply Hoth].
    apply Hkept; [|by rewrite Hs]. destruct (bs_Mode spec) eqn:Em; [|done]. exfalso.
    assert (s = r) as -> by (destruct Hold as [Hold|[Hold _]]; congruence).
    by rewrite (Hno org spec) in Hb; [|left|].
Qed.

Lemma seeding_auth_ok pairs db db' : seeding pairs db db' → auth_ok db → auth_ok db'.
Proof. induction 1; [done|]. eauto using seeded_auth_ok. Qed.

Lemma seeded_loaded org spec db id db' : seeded org spec db id db' → loaded db → loaded db'.
Proof. intros Hsd Hl. unfold loaded. by rewrite (sd_frame _ _ _ _ _ Hsd). Qed.

Lemma seeding_app p1 p2 db db1 db2 : seeding p1 db db1 → seeding p2 db1 db2 → seeding (p1 ++ p2) db db2.
Proof. induction 1; [done|]. intros Hs. simpl. econstructor; eauto. Qed.

(** The roles of an organization are seeded. *)
Lemma seed_builtins_total org specs ids db :
  (∀ spec, spec ∈ specs → spec ∈ BuiltinRoles) → auth_ok db → loaded db →
  ∃ ids' db', seed_builtins org ids specs db = (Ok ids', db') ∧ seeding (map (λ spec, (org, spec)) specs) db db' ∧ loaded db'.
Proof.
  revert ids db. induction specs as [|spec specs IH]; intros ids db Hin Hok Hl.
  { exists ids, db. split_and!; [done|constructor|done]. }
  pose proof (seeds_found spec db (Hin spec ltac:(left)) (ro_permissions _ (proj1 Hok)) Hl) as Hall.
  destruct (seed_builtin_total org spec db (proj1 Hok) Hall) as (id & db1 & Hs & Hsd).
  destruct (IH (<[bs_Key spec := id]> ids) db1) as (ids' & db' & Hr & Hch & Hl').
  { intros x Hx. apply Hin. by right. }
  { by eapply seeded_auth_ok. }
  { by eapply seeded_loaded. }
  exists ids', db'. cbn [seed_builtins map]. unfold mbind, M_bind. rewrite Hs, Hr.
  split_and!; [done|by econstructor|done].
Qed.

Lemma seed_builtins_ok org specs ids db ids' db' :
  auth_ok db → seed_builtins org ids specs db = (Ok ids', db') → seeding (map (λ spec, (org, spec)) specs) db db'.
Proof.
  revert ids db. induction specs as [|spec specs IH]; intros ids db Hok Hs; cbn [seed_builtins] in Hs.
  { injection Hs as _ <-. constructor. }
  op_inv Hs. pose proof (seed_builtin_ok _ _ _ _ _ (proj1 Hok) H0) as Hsd.
  econstructor; [done|]. eapply IH; [by eapply seeded_auth_ok|done].
Qed.

(** Every specification for every organization. *)
Definition builtin_pairs (orgs : list Z) : list (Z * BuiltinRoleSpec) :=
  flat_map (λ org, map (λ spec, (org, spec)) BuiltinRoles) orgs.

(** The organizations of a reconciliation, one after the other. *)
Lemma seed_orgs_total orgs db :
  auth_ok db → loaded db →
  ∃ db', for_each (λ org, _ ← SeedOrgBuiltins org; mret tt) orgs db = (Ok tt, db')
    ∧ seeding (builtin_pairs orgs) db db'.
Proof.
  revert db. induction orgs as [|org orgs IH]; intros db Hok Hl.
  { exists db. split; [done|constructor]. }
  destruct (seed_builtins_total org BuiltinRoles ∅ db (λ _ Hin, Hin) Hok Hl) as (ids & db1 & Hs & Hch & Hl1).
  destruct (IH db1 (seeding_auth_ok _ _ _ Hch Hok) Hl1) as (db' & Hr & Hch').
  exists db'. split; [|by eapply (seeding_app _ (builtin_pairs orgs))].
  cbn [for_each]. unfold SeedOrgBuiltins, mbind, M_bind in *. rewrite Hs. exact Hr.
Qed.

End Seed.

(** ** The catalog is written *)

Definition entry_row (e : CatalogEntry) : PermissionRow := {| pe_Key := ce_Key e; pe_Description := ce_Description e |}.

(** Rows of the given keys may be added or get new descriptions. *)
Record grown (keys : list string) (db db' : AuthDB) : Prop := {
  gw_frame : db' = db <| au_permissions := au_permissions db' |>;
  gw_keep p row : au_permissions db !! p = Some row → pe_Key <$> au_permissions db' !! p = Some (pe_Key row);
  gw_same p row : au_permissions db !! p = Some row → pe_Key row ∉ keys → au_permissions db' !! p = Some row;
  gw_unique : unique_permissions db → unique_permissions db'
}.

Lemma upsert_grown key d db :
  ∃ id db', UpsertPermission key d db = (Ok id, db') ∧ grown [key] db db'
    ∧ au_permissions db' !! id = Some {| pe_Key := key; pe_Description := d |}.
Proof.
  unfold UpsertPermission. destruct (find_row _ _) as [[id p]|] eqn:Ef.
  - apply find_row_Some in Ef as [Hp Hk%bool_decide_eq_true]. subst key. eexists _, _. split; [reflexivity|].
    cbn [au_permissions set_field setter]. split; [split|by rewrite lookup_insert_eq].
    + by destruct db.
    + intros q row Hq. simpl. destruct (decide (q = id)) as [->|Hne]; [rewrite lookup_insert_eq|rewrite lookup_insert_ne by done].
      * simpl. congruence.
      * by rewrite Hq.
    + intros q row Hq Hn. simpl. rewrite lookup_insert_ne; [done|]. intros ->. rewrite Hp in Hq. injection Hq as <-. set_solver.
    + intros Hu i j x y. simpl. rewrite !lookup_insert_Some.
      intros [[<- <-]|[Hi Hx]] [[<- <-]|[Hj Hy]] He; try done; simpl in *; eapply Hu; eauto.
  - pose proof (proj1 (find_row_None _ _) Ef) as Hnone. cbv beta in Hnone. pose proof (next_id_fresh (au_permissions db)) as Hfresh.
    eexists _, _. split; [reflexivity|]. cbn [au_permissions set_field setter]. split; [split|by rewrite lookup_insert_eq].
    + by destruct db.
    + intros q row Hq. simpl. rewrite lookup_insert_ne by congruence. by rewrite Hq.
    + intros q row Hq Hn. simpl. by rewrite lookup_insert_ne by congruence.
    + intros Hu i j x y. simpl. rewrite !lookup_insert_Some.
      intros [[<- <-]|[Hi Hx]] [[<- <-]|[Hj Hy]] He; try done; simpl in *.
      * specialize (Hnone j y Hy). apply bool_decide_eq_false in Hnone. congruence.
      * specialize (Hnone i x Hx). by apply bool_decide_eq_false in Hnone.
      * by eapply Hu.
Qed.

Lemma grown_trans k1 k2 db db1 db2 : grown k1 db db1 → grown k2 db1 db2 → grown (k1 ++ k2) db db2.
Proof.
  intros [F1 K1 S1 U1] [F2 K2 S2 U2]. split.
  - rewrite F2, F1. by destruct db.
  - intros p row Hp. specialize (K1 p row Hp). apply fmap_Some in K1 as (row1 & H1 & ->). by apply K2.
  - intros p row Hp Hn. apply S2; [apply S1; [done|]|]; set_solver.
  - auto.
Qed.

Lemma upsert_entries entries db :
  NoDup (map ce_Key entries) →
  ∃ db', for_each (λ e, _ ← query (UpsertPermission (ce_Key e) (ce_Description e)) plain; mret tt) entries db = (Ok tt, db')
    ∧ grown (map ce_Key entries) db db' ∧ ∀ e, e ∈ entries → ∃ p, au_permissions db' !! p = Some (entry_row e).
Proof.
  revert db. induction entries as [|e entries IH]; intros db Hn.
  { exists db. split; [done|]. split; [|by intros ? ?%elem_of_nil]. split; try done; [by destruct db|].
    intros p row Hp. by rewrite Hp. }
  cbn [map] in Hn. apply NoDup_cons in Hn as [Hk Hn].
  destruct (upsert_grown (ce_Key e) (ce_Description e) db) as (id & db1 & Hu & Hg & Hrow).
  destruct (IH db1 Hn) as (db' & Hr & Hg' & Hrows). exists db'. split_and!.
  - cbn [for_each]. unfold query, mbind, M_bind in *. rewrite Hu. exact Hr.
  - by apply (grown_trans [ce_Key e] _ db db1).
  - intros x [->|Hx]%elem_of_cons; [|by apply Hrows]. exists id. by apply (gw_same _ _ _ Hg').
Qed.

Lemma catalog_keys_distinct : NoDup (map ce_Key catalog).
Proof. apply (bool_decide_unpack _). vm_compute. exact I. Qed.

(** The permission rows are those of the catalog, text included. *)
Definition synced (db : AuthDB) : Prop := ∀ e, e ∈ catalog → ∃ p, au_permissions db !! p = Some (entry_row e).

Lemma synced_loaded db : synced db → loaded db.
Proof.
  intros Hs k Hk. unfold AllPermissions in Hk. apply list_elem_of_fmap in Hk as (e & -> & He).
  destruct (Hs e He) as [p Hp]. by exists p, (entry_row e).
Qed.

Lemma upsert_synced entries db :
  unique_permissions db → (∀ e, e ∈ entries → ∃ p, au_permissions db !! p = Some (entry_row e)) →
  for_each (λ e, _ ← query (UpsertPermission (ce_Key e) (ce_Description e)) plain; mret tt) entries db = (Ok tt, db).
Proof.
  intros Hu. induction entries as [|e entries IH]; intros Hs; [done|].
  cbn [for_each]. unfold query, mbind, M_bind in *.
  enough (∃ id, UpsertPermission (ce_Key e) (ce_Description e) db = (Ok id, db)) as [id ->].
  { apply IH. intros x Hx. apply Hs. by right. }
  destruct (Hs e ltac:(left)) as [p Hp]. unfold UpsertPermission.
  destruct (find_row_is_Some (λ _ q, pe_Key q == ce_Key e) (au_permissions db) p (entry_row e) Hp) as [[id q] Hf].
  { by apply bool_decide_eq_true. }
  rewrite Hf. apply find_row_Some in Hf as [Hq Hk%bool_decide_eq_true]. exists id.
  assert (id = p) as -> by (eapply (Hu id p q (entry_row e)); done). rewrite Hq in Hp. injection Hp as ->. f_equal.
  destruct db. simpl in *. f_equal. by apply insert_id.
Qed.

Section Grow.
Context `{Collation}.

Lemma grown_grants keys db db' role k : grown keys db db' → roles_ok db → role_grants db' role k ↔ role_grants db role k.
Proof.
  intros [Hf Hk _ _] Hr. unfold role_grants. rewrite Hf. cbn [au_role_permissions au_permissions set_field setter].
  split; intros (p & row & Hin & Hp & <-).
  - destruct (ro_references _ Hr _ _ Hin) as [_ [row0 H0]]. specialize (Hk p row0 H0). rewrite Hp in Hk. injection Hk as Hk.
    exists p, row0. auto.
  - specialize (Hk p row Hp). apply fmap_Some in Hk as (row' & H' & He). exists p, row'. auto.
Qed.

Lemma grown_auth_ok keys db db' : grown keys db db' → auth_ok db → auth_ok db'.
Proof.
  intros Hg [Hr Hp]. pose proof Hg as [Hf Hk _ Hu]. split.
  - pose proof Hr as [H1 H2 H3 H4 H5 H6]. split; try (rewrite Hf; assumption); [auto| |].
    + rewrite Hf. cbn [au_role_permissions au_roles set_field setter]. intros role p Hin.
      destruct (H4 role p Hin) as [Hro [row Hrow]]. split; [done|]. cbn [au_permissions set_field setter].
      specialize (Hk p row Hrow). apply fmap_Some in Hk as (row' & -> & _). by eexists.
    + intros id r org Hid Hc. rewrite Hf in Hid. destruct (H5 id r org Hid Hc) as [Hpa Hres]. split; [|done].
      eapply role_keys_frame; [|done]. intros k. by eapply grown_grants.
  - apply (people_ok_roles db); try done; by rewrite Hf.
Qed.

End Grow.

(** ** The whole reconciliation *)

Section Reconcile.
Context `{Collation}.

Lemma builtin_keys_distinct : NoDup (map bs_Key BuiltinRoles).
Proof. apply (bool_decide_unpack _). vm_compute. exact I. Qed.

Lemma pairs_distinct orgs :
  NoDup orgs → NoDup (map pair_key (builtin_pairs orgs)).
Proof.
  induction 1 as [|org orgs Hin Hn IH]; [constructor|]. cbn [builtin_pairs flat_map]. fold (builtin_pairs orgs). rewrite map_app. apply NoDup_app. split_and!; [| |done].
  - rewrite map_map. unfold pair_key. cbn [fst snd]. rewrite <- (map_map bs_Key (λ k, (org, k))).
    apply NoDup_fmap_2; [|apply builtin_keys_distinct]. by intros x y [= ->].
  - intros k (os & -> & (spec & -> & _)%list_elem_of_fmap)%list_elem_of_fmap (os' & He & Hos')%list_elem_of_fmap.
    unfold builtin_pairs in Hos'. rewrite list_elem_of_In, in_flat_map in Hos'. destruct Hos' as (org' & Horg' & Hp).
    apply list_elem_of_In, list_elem_of_fmap in Hp as (spec' & -> & _). unfold pair_key in He. injection He as -> _.
    by apply Hin, list_elem_of_In.
Qed.

Lemma elem_of_pairs orgs org spec :
  (org, spec) ∈ builtin_pairs orgs ↔ org ∈ orgs ∧ spec ∈ BuiltinRoles.
Proof.
  unfold builtin_pairs. rewrite list_elem_of_In, in_flat_map. setoid_rewrite <- list_elem_of_In.
  setoid_rewrite list_elem_of_fmap. split.
  - intros (o & Ho & s & [= -> ->] & Hs). done.
  - intros [Ho Hs]. exists org. split; [done|]. by exists spec.
Qed.

(** Seeding a settled role changes nothing. *)
Lemma seeded_again org spec db id db' :
  seeded org spec db id db' → roles_ok db → settled db db org spec → db' = db.
Proof.
  intros [Hf (r & Er & Hb & Hkey & Hold) Hoth Hkept Hseeds] Hr (id0 & r0 & Hr0 & Hb0 & Hfull & _).
  assert (au_roles db !! id = Some r) as Hid.
  { destruct Hold as [?|[_ Hno]]; [done|]. by rewrite (Hno id0 r0 Hr0) in Hb0. }
  assert (id = id0) as -> by (by eapply (ro_unique _ Hr)). rewrite insert_id in Er by done.
  assert (au_role_permissions db' = au_role_permissions db) as Erp.
  { apply set_eq. intros [role p]. destruct (decide (role = id0)) as [->|Hne]; [|by apply Hoth].
    destruct (bs_Mode spec) eqn:Em; [|by apply Hkept; [|by eexists]].
    rewrite (Hseeds (or_introl eq_refl)), (Hfull (or_introl eq_refl)). done. }
  rewrite Hf, Er, Erp. by destruct db.
Qed.

Lemma seeding_again pairs db db' :
  seeding pairs db db' → roles_ok db → (∀ org spec, (org, spec) ∈ pairs → settled db db org spec) → db' = db.
Proof.
  induction 1 as [|org spec pairs db id db1 db2 Hsd Hrest IH]; intros Hr Hs; [done|].
  assert (db1 = db) as -> by (eapply seeded_again; [done|done|]; apply Hs; left).
  apply IH; [done|]. intros o s Hin. apply Hs. by right.
Qed.

Lemma settled_self db db' org spec :
  au_permissions db' = au_permissions db → settled db db' org spec → settled db' db' org spec.
Proof.
  intros Ep (id & r & Hr & Hb & Hfull & Hadd). exists id, r. split_and!; try done.
  intros [Hm|Hn]; [|by rewrite Hr in Hn]. intros p. rewrite (key_rows_frame _ _ db db' Ep). apply Hfull. by left.
Qed.

Definition active_orgs (db : AuthDB) : list Z := select_ids (λ _ o, negb (og_Deleted o)) (au_organizations db).

(** A reconciliation: the catalog, then every pair. *)
Lemma reconcile_runs db :
  auth_ok db → ∃ db1 db', Reconcile db = (Ok tt, db') ∧ grown (map ce_Key catalog) db db1 ∧ synced db1 ∧
    seeding (builtin_pairs (active_orgs db)) db1 db'.
Proof.
  intros Hok. destruct (upsert_entries catalog db catalog_keys_distinct) as (db1 & Hu & Hg & Hs).
  pose proof (grown_auth_ok _ _ _ Hg Hok) as Hok1.
  destruct (seed_orgs_total (active_orgs db1) db1 Hok1 (synced_loaded _ Hs)) as (db' & Hr & Hch).
  assert (active_orgs db1 = active_orgs db) as Eo by (unfold active_orgs; by rewrite (gw_frame _ _ _ Hg)).
  exists db1, db'. split_and!; [|done|done|by rewrite <- Eo].
  unfold Reconcile. apply RunInTx_ok. unfold reconcile_tx, mbind, M_bind at 1. unfold upsertCatalog. rewrite Hu. exact Hr.
Qed.

(** On reconciled tables a reconciliation changes nothing. *)
Lemma reconcile_synced db :
  auth_ok db → synced db → (∀ org spec, (org, spec) ∈ builtin_pairs (active_orgs db) → settled db db org spec) →
  Reconcile db = (Ok tt, db).
Proof.
  intros Hok Hs Hset.
  destruct (seed_orgs_total (active_orgs db) db Hok (synced_loaded _ Hs)) as (db' & Hr & Hch).
  assert (db' = db) as -> by (by eapply seeding_again; [|apply Hok|]).
  unfold Reconcile. apply RunInTx_ok. unfold reconcile_tx, mbind, M_bind at 1. unfold upsertCatalog.
  rewrite (upsert_synced catalog db (ro_permissions _ (proj1 Hok)) Hs). exact Hr.
Qed.

Lemma full_is_super_admin spec : spec ∈ BuiltinRoles → bs_Mode spec = ReconcileFull → bs_Key spec = BuiltinKeySuperAdmin.
Proof.
  assert (Forall (λ spec, bs_Mode spec = ReconcileFull → bs_Key spec = BuiltinKeySuperAdmin) BuiltinRoles) as Hall.
  { by repeat constructor. }
  intros Hs. rewrite Forall_forall in Hall. by apply Hall.
Qed.

Lemma seed_grants spec db db' id :
  spec ∈ BuiltinRoles → au_permissions db' = au_permissions db → loaded db →
  (∀ p, (id, p) ∈ au_role_permissions db' ↔ (id, p) ∈ key_rows id (bs_SeedPermissions spec) db) →
  ∀ key, role_grants db' id key ↔ key ∈ bs_SeedPermissions spec.
Proof.
  intros Hs Ep Hl Hrp key. unfold role_grants. rewrite Ep. setoid_rewrite Hrp. setoid_rewrite elem_of_key_rows. simpl. split.
  - intros (p & row & (_ & row' & Hr' & Hk) & Hr & <-). congruence.
  - intros Hk. apply builtin_seeds in Hs as [_ Hs]. destruct (Hl key (Hs key Hk)) as (p & row & Hp & <-).
    exists p, row. naive_solver.
Qed.


End Reconcile.
