(* ===== verification/AuthSafety.v ===== *)
(** * Safety of user and role management

    No request gives anybody a permission its caller does not hold, no request reaches
    another organization, and the last super administrator cannot be removed. *)

From S2P Require Import Prelude GoSort Errors RolloutBehavior RolloutBehaviorFacts CommandFilter.
From S2P Require Import AuthzPermissions AuthzStore AuthzService AuthService.
From S2P Require Import AuthzResolverFacts AuthRequests AuthEffects AuthFrame AuthInvariant.
From S2P Require Import AuthzReconcileFacts.
#[local] Open Scope string_scope.
#[local] Open Scope list_scope.
#[local] Open Scope Z_scope.
#[local] Open Scope go_scope.

(** ** When an assignment counts *)

(** What an assignment's weight depends on of its role. *)
Definition role_card (r : RoleRow) : option Z * bool * option string :=
  (rl_OrganizationID r, rl_Deleted r, rl_BuiltinKey r).

(** The user and the role of an assignment are as they were. *)
Definition same_parts (db db' : AuthDB) (a : AssignmentRow) : Prop :=
  (is_Some (live_user db' (ar_UserID a)) ↔ is_Some (live_user db (ar_UserID a)))
  ∧ role_card <$> au_roles db' !! ar_RoleID a = role_card <$> au_roles db !! ar_RoleID a.

Lemma same_parts_active db db' a : same_parts db db' a → active_assignment db' a = active_assignment db a.
Proof.
  intros [Hu Hr]. unfold active_assignment, live_role. rewrite (bool_decide_ext _ _ Hu). f_equal.
  destruct (au_roles db' !! ar_RoleID a) as [r'|], (au_roles db !! ar_RoleID a) as [r|]; simpl in Hr; try done.
  injection Hr as E1 E2 E3. rewrite E2. destruct (rl_Deleted r); [done|]. by rewrite E1.
Qed.

Lemma same_parts_super_admin db db' a : same_parts db db' a → is_super_admin db' a = is_super_admin db a.
Proof.
  intros Hs. unfold is_super_admin. rewrite (same_parts_active _ _ _ Hs). f_equal. destruct Hs as [_ Hr].
  destruct (au_roles db' !! ar_RoleID a) as [r'|], (au_roles db !! ar_RoleID a) as [r|]; simpl in Hr |- *; try done.
  by injection Hr as _ _ ->.
Qed.

(** ** When access stays *)

Definition same_holders (db db' : AuthDB) (u o : Z) : Prop :=
  ∀ rc role, holds_role db' u o rc role ↔ holds_role db u o rc role.

Lemma same_holders_intro db db' u o :
  au_assignments db' = au_assignments db →
  (∀ i a, au_assignments db !! i = Some a → ar_UserID a = u → ar_OrganizationID a = o →
     active_assignment db' a = active_assignment db a) →
  same_holders db db' u o.
Proof.
  intros Ea Hact rc role. unfold holds_role. rewrite Ea.
  split; intros (i & a & Hi & Hu & Ho & Hac & Hs & Hr); exists i, a; split_and!; try done;
    [by rewrite <- (Hact i a)|by rewrite (Hact i a)].
Qed.

(** The roles held are the same and what they newly grant satisfies [P]. *)
Lemma may_bound db db' u o key rc (P : Prop) :
  same_holders db db' u o →
  (∀ rc role, holds_role db u o rc role → role_grants db' role key → role_grants db role key ∨ P) →
  may db' u o key rc → may db u o key rc ∨ P.
Proof.
  intros Hh Hg.
  assert (∀ rc', granted_at db' u o rc' key → granted_at db u o rc' key ∨ P) as Hgr.
  { intros rc' (role & Hr%Hh & Hk). destruct (Hg rc' role Hr Hk) as [Hk'|HP]; [left|by right]. by exists role. }
  unfold may. destruct rc as [s|]; [|apply Hgr]. intros [Hs|[Hn Ho]].
  - destruct (Hgr _ Hs); auto.
  - destruct (Hgr _ Ho); auto. left. right. split; [|done]. intros [role Hr%Hh]. by apply Hn; exists role.
Qed.

Lemma may_equiv db db' u o key rc :
  same_holders db db' u o →
  (∀ rc role, holds_role db u o rc role → role_grants db' role key ↔ role_grants db role key) →
  may db' u o key rc ↔ may db u o key rc.
Proof.
  intros Hh Hg. split; intros Hm.
  - destruct (may_bound db db' u o key rc False Hh) as [?|[]]; [|done..]. intros rc' role Hr Hk. left. by eapply Hg.
  - destruct (may_bound db' db u o key rc False) as [?|[]]; [| |done..].
    + intros rc' role. symmetry. apply Hh.
    + intros rc' role Hr%Hh Hk. left. by eapply Hg.
Qed.

Section Safety.
Context `{Collation} `{AuthEnv} (duration : Z).

Lemma held_role_known db u o rc role :
  people_ok db → holds_role db u o rc role → rl_OrganizationID <$> au_roles db !! role = Some (Some o).
Proof. intros Hp (i & a & Hi & _ & <- & _ & _ & <-). by eapply (po_role _ Hp). Qed.

Lemma held_by_known db u o rc role : people_ok db → holds_role db u o rc role → is_Some (au_users db !! u).
Proof. intros Hp (i & a & Hi & <- & _). by eapply (po_user _ Hp). Qed.

Lemma held_by_member db u o rc role : people_ok db → holds_role db u o rc role → is_Some (au_memberships db !! (u, o)).
Proof.
  intros Hp (i & a & Hi & <- & <- & _). pose proof (po_member _ Hp i a Hi) as Hm.
  by apply fmap_Some in Hm as (m & -> & _).
Qed.

(** ** What each request may change *)

(** The bound of a request: who gains what. *)
Definition bounded (caller org : Z) (db db' : AuthDB) : Prop := ∀ u o key rc,
  (may db' u o key rc → may db u o key rc ∨ o = org ∧ (may db caller org key rc ∨ may db caller org key None))
  ∧ (o ≠ org → may db u o key rc → may db' u o key rc).

Lemma bounded_refl caller org db : bounded caller org db db.
Proof. intros u o key rc. auto. Qed.

Lemma bounded_equiv caller org db db' : (∀ u o key rc, may db' u o key rc ↔ may db u o key rc) → bounded caller org db db'.
Proof. intros He u o key rc. rewrite He. auto. Qed.

Lemma insert_role_parts db id r perms a i :
  people_ok db → au_assignments db !! i = Some a →
  (is_Some (au_roles db !! id) → role_card <$> au_roles db !! id = Some (role_card r)) →
  same_parts db (db <| au_roles := <[id := r]> (au_roles db) |> <| au_role_permissions := perms |>) a.
Proof.
  intros Hp Hi Hr. split; [done|]. cbn [au_roles set_field setter].
  destruct (decide (ar_RoleID a = id)) as [He|Hne]; [|by rewrite lookup_insert_ne].
  rewrite <- He in *. rewrite lookup_insert_eq. symmetry. apply Hr.
  pose proof (po_role _ Hp i a Hi) as Ho. by apply fmap_Some in Ho as (x & -> & _).
Qed.

Lemma create_role_bounded caller org name description keys db v db' :
  CreateCustomRole caller org name description keys db = (Ok v, db') → auth_ok db → bounded caller org db db'.
Proof.
  intros (norm & desc & _ & _ & _ & _ & _ & ->)%create_role_ok [Hr Hp].
  pose proof (next_id_fresh (au_roles db)) as Hfresh. apply bounded_equiv. intros u o key rc. apply may_equiv.
  - apply same_holders_intro; [done|]. intros i a Hi _ _. apply same_parts_active. eapply insert_role_parts; [done..|].
    rewrite Hfresh. by intros [? ?].
  - intros rc' role Hh. apply role_grants_frame; [done|]. intros p. cbn [au_role_permissions set_field setter].
    rewrite elem_of_union. split; [intros [Hk%key_rows_other|?]; [|done]|by right].
    pose proof (held_role_known _ _ _ _ _ Hp Hh) as Ho. by rewrite Hk, Hfresh in Ho.
Qed.

Lemma update_role_bounded caller org id name description keys db v db' :
  UpdateCustomRole caller org id name description keys db = (Ok v, db') → auth_ok db → bounded caller org db db'.
Proof.
  intros (norm & r & desc & Hv & Hgrant & [Hid Hdel]%live_role_Some & Ho & _ & _ & _ & _ & ->)%update_role_ok [Hr Hp].
  set (db' := db <| au_roles := _ |> <| au_role_permissions := _ |>).
  assert (∀ u o, same_holders db db' u o) as Hh.
  { intros u o. apply same_holders_intro; [done|]. intros i a Hi _ _. apply same_parts_active.
    eapply insert_role_parts; [done..|]. rewrite Hid. done. }
  assert (∀ role key, role ≠ id → role_grants db' role key ↔ role_grants db role key) as Hother.
  { intros role key Hne. apply role_grants_frame; [done|]. intros p. unfold db'. cbn [au_role_permissions set_field setter].
    rewrite elem_of_union, elem_of_filter. split; [intros [Hk%key_rows_other|[_ ?]]; done|by auto]. }
  intros u o key rc. split.
  - apply may_bound; [done|]. intros rc' role Hhold Hk. destruct (decide (role = id)) as [->|Hne]; [|left; by apply Hother].
    right. pose proof (held_role_known _ _ _ _ _ Hp Hhold) as Hro. rewrite Hid in Hro. injection Hro as Hro.
    split; [congruence|]. right. apply Hgrant. destruct Hk as (p & row & Hin & Hrow & <-). unfold db' in Hin, Hrow.
    cbn [au_role_permissions au_permissions set_field setter] in Hin, Hrow. rewrite elem_of_union, elem_of_filter in Hin.
    destruct Hin as [[_ (row' & Hr' & Hk)]%elem_of_key_rows|[? _]]; [simpl in *; congruence|done].
  - intros Hne. apply may_equiv; [done|]. intros rc' role Hhold. apply Hother. intros ->.
    pose proof (held_role_known _ _ _ _ _ Hp Hhold) as Hro. rewrite Hid in Hro. injection Hro as Hro. congruence.
Qed.

(** A role without members counts for nobody. *)
Lemma delete_role_active caller org id db v db' i a :
  DeleteCustomRole caller org id db = (Ok v, db') → au_assignments db !! i = Some a →
  active_assignment db' a = active_assignment db a.
Proof.
  intros (r & [Hid Hdel]%live_role_Some & _ & _ & Hnone & ->)%delete_role_ok Hi.
  destruct (decide (ar_RoleID a = id)) as [He|Hne].
  - unfold active_assignment, live_role. cbn [au_roles au_users set_field setter]. rewrite He, lookup_insert_eq. simpl.
    destruct (ar_Deleted a) eqn:Ed; [done|]. rewrite (Hnone i a Hi He Ed). by rewrite !andb_false_r.
  - apply same_parts_active. split; [done|]. cbn [au_roles set_field setter]. by rewrite lookup_insert_ne.
Qed.

Lemma delete_role_bounded caller org id db v db' :
  DeleteCustomRole caller org id db = (Ok v, db') → bounded caller org db db'.
Proof.
  intros Hd. pose proof Hd as (r & _ & _ & _ & _ & ->)%delete_role_ok. apply bounded_equiv.
  intros u o key rc. apply may_equiv; [|done]. apply same_holders_intro; [done|]. intros i a Hi _ _.
  by eapply delete_role_active.
Qed.
Lemma member_unique db caller org org' : member db caller org → member db caller org' → org = org'.
Proof. unfold member. congruence. Qed.

Lemma may_holds db u o key rc : may db u o key rc → ∃ rc' role, holds_role db u o rc' role ∧ role_grants db role key.
Proof. destruct rc as [s|]; simpl; [intros [(r & ? & ?)|[_ (r & ? & ?)]]|intros (r & ? & ?)]; eauto. Qed.

(** Who holds only roles the caller may grant is within the bound. *)
Lemma may_granted db db' u org caller key rc :
  (∀ key role, role_grants db' role key → role_grants db role key) →
  (∀ rc role, holds_role db' u org rc role → may_grant db caller org role) →
  may db' u org key rc → may db caller org key rc.
Proof. intros Hg Hh (rc' & role & Hr & Hk)%may_holds. apply (Hh rc' role Hr). by apply Hg. Qed.

Lemma same_bound caller org db db' u o key rc :
  same_holders db db' u o → (∀ role, role_grants db' role key ↔ role_grants db role key) →
  (may db' u o key rc → may db u o key rc ∨ o = org ∧ (may db caller org key rc ∨ may db caller org key None))
  ∧ (o ≠ org → may db u o key rc → may db' u o key rc).
Proof. intros Hh Hg. rewrite (may_equiv db db' u o key rc) by done. auto. Qed.

Lemma create_user_bounded caller org random userID username roleID db pw db' :
  CreateUser caller random userID username roleID db = (Ok pw, db') → auth_ok db → member db caller org →
  bounded caller org db db'.
Proof.
  intros (org' & role & r & hash & Hm' & _ & _ & _ & Hgrant & _ & ->)%create_user_ok [_ Hp] Hm u o key rc.
  rewrite (member_unique _ _ _ _ Hm Hm') in *. clear Hm org.
  set (user := next_id (au_users db)) in *. pose proof (next_id_fresh (au_users db)) as Hfresh. fold user in Hfresh.
  set (db' := db <| au_users := _ |> <| au_memberships := _ |> <| au_assignments := _ |>).
  assert (∀ i a, au_assignments db !! i = Some a → ar_UserID a ≠ user) as Hold.
  { intros i a Hi He. destruct (po_user _ Hp i a Hi) as [x Hx]. by rewrite He, Hfresh in Hx. }
  assert (∀ i a, au_assignments db !! i = Some a → active_assignment db' a = active_assignment db a) as Hact.
  { intros i a Hi. apply same_parts_active. split; [|done]. unfold live_user, db'. cbn [au_users set_field setter].
    rewrite lookup_insert_ne; [done|]. intros He. by destruct (Hold i a Hi). }
  assert (∀ rc' role', holds_role db' u o rc' role' ↔ holds_role db u o rc' role'
    ∨ u = user ∧ o = org' ∧ rc' = None ∧ role' = role ∧ active_assignment db' (new_assignment user org' role) = true) as Hh.
  { intros rc' role'. unfold holds_role, db' at 1. cbn [au_assignments set_field setter]. split.
    - intros (i & a & [[<- <-]|[_ Hi]]%lookup_insert_Some & Hu & Ho & Hac & Hs & Hr).
      + right. destruct rc'; [by destruct Hs|]. done.
      + left. exists i, a. rewrite (Hact i a Hi) in Hac. done.
    - intros [(i & a & Hi & Hu & Ho & Hac & Hs & Hr)|(-> & -> & -> & -> & Hac)].
      + exists i, a. rewrite (Hact i a Hi). split_and!; try done. rewrite lookup_insert_ne; [done|].
        intros He. pose proof (next_id_fresh (au_assignments db)) as Hf. by rewrite He, Hi in Hf.
      + exists (next_id (au_assignments db)), (new_assignment user org' role). by rewrite lookup_insert_eq. }
  destruct (decide (u = user)) as [->|Hne].
  - assert (∀ rc' role', ¬ holds_role db user o rc' role') as Hno.
    { intros rc' role' Hx. destruct (held_by_known _ _ _ _ _ Hp Hx) as [x Hx']. by rewrite Hfresh in Hx'. }
    split; [|intros _ (rc' & role' & Hx & _)%may_holds; by destruct (Hno rc' role')].
    intros Hmay. right. destruct (may_holds _ _ _ _ _ Hmay) as (rc' & role' & Hx & _).
    assert (o = org') as -> by (apply Hh in Hx as [Hx|(_ & ? & _)]; [by destruct (Hno rc' role')|done]).
    split; [done|]. left. apply (may_granted db db' user); [done| |done].
    intros rc2 role2 [Hx2|(_ & _ & _ & -> & _)]%Hh; [by destruct (Hno rc2 role2)|done].
  - apply same_bound; [|done]. intros rc' role'. rewrite Hh. split; [intros [?|[? _]]; done|by left].
Qed.

Lemma deactivate_bounded caller org targetID db x db' :
  DeactivateUser caller targetID db = (Ok x, db') → auth_ok db → member db caller org → bounded caller org db db'.
Proof.
  intros (org' & target & row & Hm' & _ & _ & Hmb & _ & _ & _ & _ & ->)%deactivate_ok [_ Hp] Hm u o key rc.
  rewrite (member_unique _ _ _ _ Hm Hm') in *. clear Hm org.
  set (db' := db <| au_users := _ |>). destruct (decide (u = target)) as [->|Hne].
  - assert (∀ rc' role', ¬ holds_role db' target o rc' role') as Hno.
    { intros rc' role' (i & a & _ & Hu & _ & Hac & _). unfold active_assignment, live_user, db' in Hac.
      cbn [au_users set_field setter] in Hac. rewrite Hu, lookup_insert_eq in Hac. simpl in Hac.
      by rewrite andb_false_r in Hac. }
    split; [intros (rc' & role' & Hx & _)%may_holds; by destruct (Hno rc' role')|].
    intros Ho (rc' & role' & Hx & _)%may_holds. destruct Ho.
    eapply (po_single _ Hp target); [by eapply held_by_member|done].
  - apply same_bound; [|done]. apply same_holders_intro; [done|]. intros i a Hi Hu _. apply same_parts_active.
    split; [|done]. unfold live_user, db'. cbn [au_users set_field setter]. rewrite lookup_insert_ne; [done|congruence].
Qed.

Lemma update_user_role_bounded caller org targetID roleID db x db' :
  UpdateUserRole caller targetID roleID db = (Ok x, db') → auth_ok db → member db caller org → bounded caller org db db'.
Proof.
  intros [->|(org' & target & id & a & role & r & new & Hm' & _ & Ha & Hu & Ho & Hs & Hac & _ & _ & _ & Hgrant & _ & _
    & Hnew & Hne & ->)]%update_user_role_ok [_ Hp] Hm; [apply bounded_refl|].
  rewrite (member_unique _ _ _ _ Hm Hm') in *. clear Hm org. intros u o key rc.
  set (db' := db <| au_memberships := _ |> <| au_assignments := _ |>).
  assert (∀ b, active_assignment db' b = active_assignment db b) as Hact by done.
  assert (∀ rc' role', holds_role db' u o rc' role' →
    (u = target ∧ o = org' ∧ rc' = None ∧ role' = role)
    ∨ ((u, o) ≠ (target, org') ∨ rc' ≠ None) ∧ holds_role db u o rc' role') as Hfwd.
  { intros rc' role' (i & b & Hi & Hbu & Hbo & Hb & Hbs & Hr). unfold db' in Hi. cbn [au_assignments set_field setter] in Hi.
    apply lookup_insert_Some in Hi as [[<- <-]|[Hi1 Hi]].
    { left. destruct rc'; [by destruct Hbs|done]. }
    apply lookup_insert_Some in Hi as [[<- <-]|[Hi2 Hi]].
    { apply active_live in Hb. done. }
    right. split; [|by exists i, b]. destruct rc' as [s|]; [by right|left]. intros [= -> ->]. apply Hi2.
    eapply (po_org_scope _ Hp id i a b); try done; [by eapply active_live..|congruence|congruence]. }
  assert (∀ rc' role', (u, o) ≠ (target, org') ∨ rc' ≠ None → holds_role db u o rc' role' → holds_role db' u o rc' role') as Hbwd.
  { intros rc' role' Hor (i & b & Hi & Hbu & Hbo & Hb & Hbs & Hr). exists i, b. split_and!; try done.
    unfold db'. cbn [au_assignments set_field setter]. rewrite lookup_insert_ne by congruence. rewrite lookup_insert_ne; [done|].
    intros ->. rewrite Ha in Hi. injection Hi as <-. destruct Hor as [Hor|Hor]; [destruct Hor; congruence|].
    destruct rc' as [s|]; [|done]. destruct Hbs as [Hbs _]. rewrite Hs in Hbs. done. }
  destruct (decide ((u, o) = (target, org'))) as [[= -> ->]|Hoth].
  - split; [|done]. intros Hmay. destruct rc as [s|].
    + destruct Hmay as [(role' & Hh & Hk)|[Hn (role' & Hh & Hk)]].
      * apply Hfwd in Hh as [(_ & _ & ? & _)|[_ Hh]]; [done|]. left. left. by exists role'.
      * right. split; [done|]. left. apply Hfwd in Hh as [(_ & _ & _ & ->)|[[?|?] _]]; [|done..]. by apply (Hgrant key Hk (Some s)).
    + right. split; [done|]. left. destruct Hmay as (role' & Hh & Hk).
      apply Hfwd in Hh as [(_ & _ & _ & ->)|[[?|?] _]]; [|done..]. by apply (Hgrant key Hk None).
  - apply same_bound; [|done]. intros rc' role'. split; [|apply Hbwd; by left].
    intros [(-> & -> & _)|[_ ?]]%Hfwd; done.
Qed.

Lemma serve_bounded caller org req db :
  auth_ok db → member db caller org → bounded caller org db (serve duration caller org req db).
Proof.
  intros Hok Hm. apply serve_cases; intros.
  - apply bounded_equiv. intros u o key rc. by apply may_same.
  - by eapply create_role_bounded.
  - by eapply update_role_bounded.
  - by eapply delete_role_bounded.
  - by eapply create_user_bounded.
  - by eapply deactivate_bounded.
  - by eapply update_user_role_bounded.
Qed.

(** C2: After any request of a member of an organization (custom roles, users, role changes,
    deactivations, passwords, logins), a permission somebody holds was held before, or it is in
    the caller's organization and the caller held it at the same site or for the whole
    organization: nobody can give themselves or others more than they have. *)
Theorem no_privilege_escalation caller org req db u o key rc :
  auth_ok db → member db caller org → may (serve duration caller org req db) u o key rc →
  may db u o key rc ∨ o = org ∧ (may db caller org key rc ∨ may db caller org key None).
Proof. intros Hok Hm. by apply (serve_bounded caller org req db). Qed.

(** C11: No request of a member of one organization gives or takes a permission in another
    organization. *)
Theorem organizations_are_isolated caller org req db u o key rc :
  auth_ok db → member db caller org → o ≠ org → may (serve duration caller org req db) u o key rc ↔ may db u o key rc.
Proof.
  intros Hok Hm Ho. destruct (serve_bounded caller org req db Hok Hm u o key rc) as [Hg Hk].
  split; [intros [?|[? _]]%Hg; done|by apply Hk].
Qed.

End Safety.

(** * Histories of users and roles

    Along any history of requests, boots, onboardings and recoveries the tables stay
    well formed, and the only super administrator stays in place, so that the
    break-glass reset finds it. *)

Section History.
Context `{Collation} `{AuthEnv} (duration : Z).

(** ** Onboarding *)

Lemma HasUser_ok db b db' : HasUser db = (Ok b, db') → db' = db ∧ (b = false → au_users db = ∅).
Proof.
  intros [-> ->]%gets_ok. split; [done|]. intros Hb%negb_false_iff. by apply bool_decide_eq_true in Hb.
Qed.

Lemma people_ok_orgs db orgs : people_ok db → people_ok (db <| au_organizations := orgs |>).
Proof. by intros []. Qed.

(** The roles of a built-in seeding: the identifier returned for a key is its role. *)
Lemma seed_builtins_ids org specs ids db ids' db' key role :
  auth_ok db → seed_builtins org ids specs db = (Ok ids', db') → ids' !! key = Some role →
  ids !! key = Some role ∨ rl_OrganizationID <$> au_roles db' !! role = Some (Some org).
Proof.
  revert ids db. induction specs as [|spec specs IH]; intros ids db Hok Hs Hk; cbn [seed_builtins] in Hs.
  { injection Hs as -> _. by left. }
  op_inv Hs. pose proof (seed_builtin_ok _ _ _ _ _ (proj1 Hok) H1) as Hsd.
  pose proof (seeded_auth_ok _ _ _ _ _ Hsd Hok) as Hok1.
  destruct (IH _ _ Hok1 Hs Hk) as [Hin|?]; [|by right].
  apply lookup_insert_Some in Hin as [[_ <-]|[_ ?]]; [right|by left].
  destruct (sd_role _ _ _ _ _ Hsd) as (r & Er & Hb & _). apply builtin_key_of in Hb as (_ & Ho & _ & _).
  assert (au_roles db0 !! a = Some r) as Ha by (by rewrite Er, lookup_insert_eq).
  assert (seeding (map (λ s, (org, s)) specs) db0 db') as Hrest by (by eapply seed_builtins_ok).
  assert (∀ pairs d d', seeding pairs d d' → au_roles d !! a = Some r → au_roles d' !! a = Some r) as Hkeep.
  { induction 1 as [|o s pairs d i d1 d2 Hsd1 Hr IHs]; [done|]. intros Hd. apply IHs.
    destruct (sd_role _ _ _ _ _ Hsd1) as (x & Ex & _ & _ & Hold). rewrite Ex.
    destruct (decide (a = i)) as [<-|Hne]; [|by rewrite lookup_insert_ne].
    rewrite lookup_insert_eq. destruct Hold as [Hold|[Hold _]]; congruence. }
  rewrite (Hkeep _ _ _ Hrest Ha). simpl. by rewrite Ho.
Qed.

(** A user with an organization of its own. *)
Lemma admin_organization_auth_ok userID username hash orgName orgID db u db' :
  CreateAdminUserWithOrganization userID username hash orgName orgID db = (Ok u, db') → auth_ok db → auth_ok db'.
Proof.
  intros Hc [Hr Hp]. unfold CreateAdminUserWithOrganization in Hc. op_inv Hc.
  unfold CreateUser_row in H1. destruct (has_row (λ _ u, us_Username u == _) _); [done|].
  destruct (has_row (λ _ u, us_UserID u == _) _) eqn:Eid; [done|]. injection H1 as <- <-.
  unfold CreateOrganization in H2. destruct (has_row (λ _ o, og_OrgID o == _) _); [done|].
  injection H2 as <- <-.
  set (user := next_id (au_users db)) in *. pose proof (next_id_fresh (au_users db)) as Hfresh. fold user in Hfresh.
  match type of H3 with _ ?d = _ => set (dbs := d) in * end.
  assert (auth_ok dbs) as Hok0.
  { split; [by apply (roles_ok_ext db)|]. unfold dbs.
    match goal with |- context [<[user := ?row]> _] => pose proof (people_ok_user db user row Hp Hfresh) as Hu end.
    apply (people_ok_orgs _ (au_organizations dbs)) in Hu; [done|].
    intros j v Hv. pose proof (proj1 (has_row_false _ _) Eid j v Hv) as Hf. by apply bool_decide_eq_false in Hf. }
  pose proof (seed_builtins_ok _ _ _ _ _ _ Hok0 H3) as Hch. pose proof (seeding_auth_ok _ _ _ Hch Hok0) as [Hr1 Hp1].
  destruct (a1 !! BuiltinKeySuperAdmin) as [role|] eqn:Ek; [|done]. op_inv Hc.
  destruct (seed_builtins_ids _ _ _ _ _ _ _ _ Hok0 H3 Ek) as [Hn|Ho]; [by rewrite lookup_empty in Hn|].
  assert (chained (map (λ spec, (next_id (au_organizations db), spec)) BuiltinRoles) dbs db2) as Hfr.
  { apply seeding_chained; [done|]. pose proof (pairs_distinct [next_id (au_organizations db)]) as Hd.
    cbn [builtin_pairs flat_map] in Hd. rewrite app_nil_r in Hd. apply Hd, NoDup_singleton. }
  apply ch_frame in Hfr. unfold CreateUserOrganization in H1. destruct (au_memberships db2 !! _) eqn:Em; [done|].
  injection H1 as _ <-. apply AssignRole_ok in H2 as (-> & _ & _ & ->).
  split; [by apply (roles_ok_ext db2)|].
  pose proof (people_ok_join db2 user (next_id (au_organizations db)) role (next_id (au_assignments db2))) as Hj.
  apply Hj; clear Hj; try done.
  - rewrite Hfr. unfold dbs. cbn [au_users set_field setter]. rewrite lookup_insert_eq. by eexists.
  - intros o. destruct (au_memberships db2 !! (user, o)) as [m|] eqn:Eo; [|done]. exfalso.
    rewrite Hfr in Eo. unfold dbs in Eo. cbn [au_memberships set_field setter] in Eo.
    destruct (po_membership _ Hp user o) as [x Hx]; [by eexists|]. by rewrite Hfresh in Hx.
  - apply next_id_fresh.
Qed.

Lemma onboard_auth_ok userID orgID username password db u db' :
  CreateAdminUser userID orgID username password db = (Ok u, db') → auth_ok db → auth_ok db'.
Proof.
  intros Hc Hok. unfold CreateAdminUser, onboard_tx in Hc. op_inv Hc.
  apply hash_password_ok in H1 as ->. apply HasUser_ok in H3 as [-> _]. by eapply admin_organization_auth_ok.
Qed.

(** ** The invariant *)

Lemma reconcile_auth_ok db : auth_ok db → auth_ok (Reconcile db).2.
Proof.
  intros Hok. destruct (reconcile_runs db Hok) as (db4 & db' & -> & Hg & _ & Hch). simpl.
  eapply seeding_auth_ok; [done|]. by eapply grown_auth_ok.
Qed.

Lemma step_auth_ok db db' : auth_step duration db db' → auth_ok db → auth_ok db'.
Proof.
  intros [caller org req| |userID orgID username password|now password] Hok.
  - by apply serve_auth_ok.
  - by apply reconcile_auth_ok.
  - destruct (keeps_or_succeeds _ db (CreateAdminUser_atomic userID orgID username password)) as [->|[v Hv]]; [done|].
    by eapply onboard_auth_ok.
  - eapply same_access_ok; [|done]. apply (frame_ResetSuperAdminPassword now same_access).
Qed.

Lemma history_auth_ok db db' : auth_history duration db db' → auth_ok db → auth_ok db'.
Proof. induction 1; [done|]. eauto using step_auth_ok. Qed.

(** C20: Along any history the tables stay well formed: built-ins unique per organization, custom
    roles with free names and paired catalog keys, references intact, roles of the assignment's
    own organization, one organization per user and one live organization-wide role per
    membership. *)
Theorem auth_tables_stay_well_formed db db' : auth_ok db → auth_history duration db db' → auth_ok db'.
Proof. intros Hok Hh. by eapply history_auth_ok. Qed.

End History.
