(* ===== verification/AuthRecovery.v ===== *)
(** * The last super administrator

    Who holds the seat of a super administrator, and why an organization's only one is
    still there, and can be reset by the operator, after any history. *)

From S2P Require Import Prelude GoSort Errors RolloutBehavior RolloutBehaviorFacts CommandFilter.
From S2P Require Import AuthzPermissions AuthzStore AuthzService AuthService.
From S2P Require Import AuthzResolverFacts AuthRequests AuthEffects AuthFrame AuthInvariant.
From S2P Require Import AuthzReconcileFacts AuthSafety.
#[local] Open Scope string_scope.
#[local] Open Scope list_scope.
#[local] Open Scope Z_scope.
#[local] Open Scope go_scope.

(** The assignment is the seat of a super administrator. *)
Definition seat_row (db : AuthDB) (id : Z) (a : AssignmentRow) : Prop :=
  au_assignments db !! id = Some a ∧ is_super_admin db a = true.

Definition seat (db : AuthDB) (u o : Z) : Prop :=
  ∃ id a, seat_row db id a ∧ ar_UserID a = u ∧ ar_OrganizationID a = o.

Definition sole_seat (db : AuthDB) (user org : Z) : Prop := ∀ u o, seat db u o ↔ u = user ∧ o = org.

Section Recovery.
Context `{Collation} `{AuthEnv} (duration : Z).

Lemma is_super_admin_spec db a : is_super_admin db a = true ↔
  ar_ScopeType a = ScopeOrg ∧ active_assignment db a = true
  ∧ (au_roles db !! ar_RoleID a ≫= rl_BuiltinKey) = Some BuiltinKeySuperAdmin.
Proof. unfold is_super_admin. rewrite !andb_true_iff, !bool_decide_eq_true. tauto. Qed.

(** Two seats of one user in one organization are the same row. *)
Lemma seat_row_unique db i j a b :
  people_ok db → seat_row db i a → seat_row db j b → ar_UserID a = ar_UserID b → ar_OrganizationID a = ar_OrganizationID b → i = j.
Proof.
  intros Hp [Hi (Si & Ai & _)%is_super_admin_spec] [Hj (Sj & Aj & _)%is_super_admin_spec].
  apply (po_org_scope _ Hp i j a b Hi Hj); [by eapply active_live..|done|done].
Qed.

Lemma sole_seat_one db user org : people_ok db → sole_seat db user org → (length (seats db org) <= 1)%nat.
Proof.
  intros Hp Hs. pose proof (select_ids_NoDup (λ _ a, (ar_OrganizationID a =? org) && is_super_admin db a) (au_assignments db)) as Hn.
  fold (seats db org) in Hn. assert (∀ i, i ∈ seats db org → ∃ a, seat_row db i a ∧ ar_UserID a = user ∧ ar_OrganizationID a = org) as Hrow.
  { intros i (a & Ha & [Ho%Z.eqb_eq Hsa]%andb_prop)%elem_of_select_ids. exists a.
    destruct (proj1 (Hs (ar_UserID a) (ar_OrganizationID a))) as [? ?]; [by exists i, a|]. done. }
  destruct (seats db org) as [|i [|j l]]; simpl; [lia..|]. exfalso.
  destruct (Hrow i ltac:(left)) as (a & Ha & Ua & Oa). destruct (Hrow j ltac:(right; left)) as (b & Hb & Ub & Ob).
  apply NoDup_cons in Hn as [Hn _]. apply Hn. rewrite (seat_row_unique db i j a b); [left|done..| |]; congruence.
Qed.

(** ** Seats that do not move *)

Definition same_seats (db db' : AuthDB) : Prop := ∀ u o, seat db' u o ↔ seat db u o.

Lemma same_seats_intro db db' :
  au_assignments db' = au_assignments db →
  (∀ i a, au_assignments db !! i = Some a → is_super_admin db' a = is_super_admin db a) → same_seats db db'.
Proof.
  intros Ea Hs u o. unfold seat, seat_row. rewrite Ea.
  split; intros (i & a & [Hi Hsa] & ?); exists i, a; [rewrite <- (Hs i a Hi)|rewrite (Hs i a Hi)]; done.
Qed.

Lemma same_access_seats db db' : same_access db db' → same_seats db db'.
Proof.
  intros Hsame. apply same_seats_intro; [apply (sa_assignments _ _ Hsame)|]. intros i a Hi.
  apply same_parts_super_admin. split; [by apply live_user_same|]. by rewrite (sa_roles _ _ Hsame).
Qed.

Lemma create_role_seats caller org name description keys db v db' :
  CreateCustomRole caller org name description keys db = (Ok v, db') → people_ok db → same_seats db db'.
Proof.
  intros (norm & desc & _ & _ & _ & _ & _ & ->)%create_role_ok Hp. apply same_seats_intro; [done|]. intros i a Hi.
  apply same_parts_super_admin. eapply insert_role_parts; [done..|]. rewrite next_id_fresh. by intros [? ?].
Qed.

Lemma update_role_seats caller org id name description keys db v db' :
  UpdateCustomRole caller org id name description keys db = (Ok v, db') → people_ok db → same_seats db db'.
Proof.
  intros (norm & r & desc & _ & _ & [Hid _]%live_role_Some & _ & _ & _ & _ & _ & ->)%update_role_ok Hp.
  apply same_seats_intro; [done|]. intros i a Hi.
  apply same_parts_super_admin. eapply insert_role_parts; [done..|]. by rewrite Hid.
Qed.

Lemma delete_role_seats caller org id db v db' :
  DeleteCustomRole caller org id db = (Ok v, db') → same_seats db db'.
Proof.
  intros Hd. pose proof Hd as (r & [Hid _]%live_role_Some & _ & _ & _ & ->)%delete_role_ok.
  apply same_seats_intro; [done|]. intros i a Hi. unfold is_super_admin.
  rewrite (delete_role_active _ _ _ _ _ _ i a Hd Hi). f_equal. apply bool_decide_ext. cbn [au_roles set_field setter].
  destruct (decide (ar_RoleID a = id)) as [->|Hne]; [by rewrite lookup_insert_eq, Hid|by rewrite lookup_insert_ne].
Qed.

Lemma create_user_seats caller random userID username roleID db v db' :
  CreateUser caller random userID username roleID db = (Ok v, db') → people_ok db → same_seats db db'.
Proof.
  intros (org & role & r & hash & _ & [Hr _]%live_role_Some & _ & Hk & _ & _ & ->)%create_user_ok Hp u o.
  pose proof (next_id_fresh (au_users db)) as Hfresh.
  set (db' := db <| au_users := _ |> <| au_memberships := _ |> <| au_assignments := _ |>).
  assert (∀ i a, au_assignments db !! i = Some a → is_super_admin db' a = is_super_admin db a) as Hsame.
  { intros i a Hi. apply same_parts_super_admin. split; [|done]. unfold live_user, db'. cbn [au_users set_field setter].
    rewrite lookup_insert_ne; [done|]. intros He. destruct (po_user _ Hp i a Hi) as [x Hx]. by rewrite <- He, Hfresh in Hx. }
  unfold seat, seat_row. split.
  - intros (i & a & [Hi Hs] & Hu & Ho). unfold db' in Hi. cbn [au_assignments set_field setter] in Hi.
    apply lookup_insert_Some in Hi as [[<- <-]|[_ Hi]].
    + apply is_super_admin_spec in Hs as (_ & _ & Hb). unfold db' in Hb. cbn in Hb. rewrite Hr in Hb. by destruct Hk.
    + exists i, a. by rewrite (Hsame i a Hi) in Hs.
  - intros (i & a & [Hi Hs] & Hu & Ho). exists i, a. rewrite (Hsame i a Hi). split_and!; try done.
    unfold db'. cbn [au_assignments set_field setter]. rewrite lookup_insert_ne; [done|].
    intros He. pose proof (next_id_fresh (au_assignments db)) as Hf. by rewrite He, Hi in Hf.
Qed.

(** ** Seats that the guard protects *)

Lemma deactivate_seats caller targetID db v db' user org :
  DeactivateUser caller targetID db = (Ok v, db') → people_ok db → sole_seat db user org → sole_seat db' user org.
Proof.
  intros (o & target & row & _ & [Hrow Hd]%live_user_Some & _ & Hmb & _ & _ & _ & Hleave & ->)%deactivate_ok Hp Hs.
  set (db' := db <| au_users := _ |>).
  assert (target ≠ user) as Hne.
  { intros ->. destruct (proj2 (Hs user org) (conj eq_refl eq_refl)) as (i & a & [Hi Hsa] & Hu & Ho).
    assert (o = org) as ->.
    { eapply (po_single _ Hp user); [done|]. subst. pose proof (po_member _ Hp i a Hi) as Hm.
      by apply fmap_Some in Hm as (m & -> & _). }
    pose proof Hsa as (Hsc & Hac & _)%is_super_admin_spec. destruct Hleave as [Hno|(j & b & Hj & Ub & Ob & Sb & Ab & Hcount)].
    - by rewrite (Hno i a Hi Hu Ho Hsc) in Hac.
    - assert (i = j) as <- by (eapply (po_org_scope _ Hp i j a b); try done; [by eapply active_live..|congruence|congruence]).
      rewrite Hi in Hj. injection Hj as <-. specialize (Hcount Hsa). pose proof (sole_seat_one db user org Hp Hs). lia. }
  assert (∀ a, ar_UserID a ≠ target → is_super_admin db' a = is_super_admin db a) as Hsame.
  { intros a Ha. apply same_parts_super_admin. split; [|done]. unfold live_user, db'. cbn [au_users set_field setter].
    by rewrite lookup_insert_ne. }
  intros u o'. rewrite <- (Hs u o'). unfold seat, seat_row. split; intros (i & a & [Hi Hsa] & Hu & Ho); exists i, a.
  - assert (ar_UserID a ≠ target) as Ht.
    { intros Ht. apply is_super_admin_spec in Hsa as (_ & Hac & _). unfold active_assignment, live_user, db' in Hac.
      cbn [au_users set_field setter] in Hac. rewrite Ht, lookup_insert_eq in Hac. simpl in Hac. by rewrite andb_false_r in Hac. }
    by rewrite (Hsame a Ht) in Hsa.
  - assert (ar_UserID a = user) as Ha by (by destruct (proj1 (Hs (ar_UserID a) (ar_OrganizationID a))); [exists i, a|]).
    rewrite (Hsame a) by congruence. done.
Qed.

Lemma update_user_role_seats caller targetID roleID db v db' user org :
  UpdateUserRole caller targetID roleID db = (Ok v, db') → people_ok db → sole_seat db user org → sole_seat db' user org.
Proof.
  intros [->|(o & target & id & a & role & r & new & _ & _ & Ha & Hu & Ho & _ & Hac & [Hr _]%live_role_Some & _ & Hk & _ & _
    & Hcount & Hnew & Hne & ->)]%update_user_role_ok Hp Hs; [done|].
  set (db' := db <| au_memberships := _ |> <| au_assignments := _ |>).
  assert (is_super_admin db a = false) as Hnot.
  { apply not_true_iff_false. intros Hsa. destruct (proj1 (Hs (ar_UserID a) (ar_OrganizationID a))) as [_ Eo]; [by exists id, a|].
    rewrite Ho in Eo. subst o. specialize (Hcount Hsa). pose proof (sole_seat_one db user org Hp Hs) as Hone. rewrite Eo in Hcount. lia. }
  intros u o'. rewrite <- (Hs u o'). unfold seat, seat_row. split; intros (i & b & [Hi Hsb] & Eu & Eo); exists i, b.
  - unfold db' in Hi. cbn [au_assignments set_field setter] in Hi. apply lookup_insert_Some in Hi as [[<- <-]|[_ Hi]].
    { apply is_super_admin_spec in Hsb as (_ & _ & Hb). unfold db' in Hb. cbn in Hb. rewrite Hr in Hb. by destruct Hk. }
    apply lookup_insert_Some in Hi as [[<- <-]|[_ Hi]]; [|done].
    by apply is_super_admin_spec in Hsb as (_ & Hb%active_live & _).
  - split_and!; try done. unfold db'. cbn [au_assignments set_field setter]. rewrite lookup_insert_ne by congruence.
    rewrite lookup_insert_ne; [done|]. intros ->. rewrite Ha in Hi. injection Hi as <-. congruence.
Qed.

(** ** Every step *)

Lemma reconcile_seats db : auth_ok db → same_seats db (Reconcile db).2.
Proof.
  intros Hok. destruct (reconcile_runs db Hok) as (db1 & db' & -> & Hg & _ & Hch). simpl.
  pose proof (seeding_chained _ _ _ Hch (pairs_distinct _ (select_ids_NoDup _ _))) as [Cf Cr _ _].
  assert (au_users db' = au_users db) as Eu by (by rewrite Cf, (gw_frame _ _ _ Hg)).
  apply same_seats_intro; [by rewrite Cf, (gw_frame _ _ _ Hg)|]. intros i a Hi. apply same_parts_super_admin.
  split; [unfold live_user; by rewrite Eu|]. pose proof (po_role _ (proj2 Hok) i a Hi) as Hr.
  apply fmap_Some in Hr as (r & Hr & _). rewrite Hr, (Cr (ar_RoleID a) r); [done|]. by rewrite (gw_frame _ _ _ Hg).
Qed.

(** With a user in the table onboarding is closed. *)
Lemma onboard_closed userID orgID username password db :
  au_users db ≠ ∅ → (CreateAdminUser userID orgID username password db).2 = db.
Proof.
  intros Hne. destruct (keeps_or_succeeds _ db (CreateAdminUser_atomic userID orgID username password)) as [->|[v Hv]]; [done|].
  exfalso. unfold CreateAdminUser, onboard_tx in Hv. op_inv Hv. apply hash_password_ok in H1 as ->.
  apply HasUser_ok in H3 as [_ Hb]. by apply Hne, Hb.
Qed.

Lemma sole_seat_same db db' user org : same_seats db db' → sole_seat db user org → sole_seat db' user org.
Proof. intros He Hs u o. by rewrite (He u o). Qed.

Lemma step_sole_seat db db' user org :
  auth_step duration db db' → auth_ok db → sole_seat db user org → sole_seat db' user org.
Proof.
  intros [caller o req| |userID orgID username password|now password] Hok Hs; pose proof (proj2 Hok) as Hp.
  - apply serve_cases; intros.
    + by eapply sole_seat_same; [eapply same_access_seats|].
    + by eapply sole_seat_same; [eapply create_role_seats|].
    + by eapply sole_seat_same; [eapply update_role_seats|].
    + by eapply sole_seat_same; [eapply delete_role_seats|].
    + by eapply sole_seat_same; [eapply create_user_seats|].
    + by eapply deactivate_seats.
    + by eapply update_user_role_seats.
  - by eapply sole_seat_same; [apply reconcile_seats|].
  - rewrite onboard_closed; [done|]. destruct (proj2 (Hs user org) (conj eq_refl eq_refl)) as (i & a & [Hi _] & _).
    destruct (po_user _ Hp i a Hi) as [x Hx]. intros He. by rewrite He, lookup_empty in Hx.
  - eapply sole_seat_same; [|done]. apply same_access_seats, (frame_ResetSuperAdminPassword now same_access).
Qed.

Lemma history_sole_seat db db' user org :
  auth_history duration db db' → auth_ok db → sole_seat db user org → sole_seat db' user org.
Proof.
  induction 1; [done|]. intros Hok Hs. eapply step_sole_seat; [done|by eapply history_auth_ok|auto].
Qed.

(** ** Recovery *)

(** The lock query finds exactly the sole seat. *)
Lemma lock_sole_seat db user org :
  people_ok db → sole_seat db user org → LockActiveSuperAdminUsers db = (Ok [(user, org)], db).
Proof.
  intros Hp Hs. unfold LockActiveSuperAdminUsers, gets. do 2 f_equal.
  destruct (proj2 (Hs user org) (conj eq_refl eq_refl)) as (i & a & Hrow & Hu & Ho). pose proof Hrow as [Hi Hsa].
  set (p := λ kv : Z * AssignmentRow, _ : bool).
  assert (∀ kv, kv ∈ List.filter p (map_to_list (au_assignments db)) ↔ kv = (i, a)) as Hall.
  { intros [j b]. rewrite elem_of_List_filter, elem_of_map_to_list. split.
    - intros [Hj [[Hb _]%andb_prop _]%andb_prop]. simpl in *.
      destruct (proj1 (Hs (ar_UserID b) (ar_OrganizationID b))) as [Eu Eo]; [by exists j, b|].
      rewrite (seat_row_unique db j i b a) in * by (done || congruence). congruence.
    - intros [= -> ->]. split; [done|]. unfold p. cbn [fst snd]. rewrite Hsa.
      pose proof Hsa as (Hsc & _)%is_super_admin_spec.
      destruct (po_scope _ Hp i a Hi) as [[_ ->]|[He _]]; [|by rewrite Hsc in He].
      pose proof (po_member _ Hp i a Hi) as Hm. apply fmap_Some in Hm as (m & -> & <-). done. }
  assert (NoDup (List.filter p (map_to_list (au_assignments db)))) as Hn
    by (eapply sublist_NoDup; [apply NoDup_map_to_list|apply list_filter_sublist]).
  destruct (List.filter p _) as [|x [|y l]].
  - destruct (proj1 (elem_of_nil (i, a)) (proj2 (Hall (i, a)) eq_refl)).
  - rewrite (proj1 (Hall x) ltac:(left)). simpl. by rewrite Hu, Ho.
  - exfalso. apply NoDup_cons in Hn as [Hn _]. apply Hn.
    rewrite (proj1 (Hall x) ltac:(left)), (proj1 (Hall y) ltac:(right; left)). left.
Qed.

(** C8: From well-formed tables with one super administrator, after any history of requests,
    boots, onboardings and recoveries that person is still the one super administrator, and a
    break-glass reset with an acceptable password succeeds: it sets the password, requires a
    change, revokes every session of that user and leaves access as it was. *)
Theorem recovery_always_works db db' user org now password hash :
  auth_ok db → sole_seat db user org → auth_history duration db db' →
  ValidatePassword password = true → bcrypt_Generate password = Some hash →
  sole_seat db' user org ∧
  ∃ db2 row, ResetSuperAdminPassword now password db' = (Ok user, db2) ∧
    live_user db2 user = Some row ∧ us_PasswordHash row = hash ∧ us_RequiresPasswordChange row = true ∧
    (∀ sid s, au_sessions db2 !! sid = Some s → se_UserID s = user → se_RevokedAt s ≠ None) ∧ same_access db' db2.
Proof.
  intros Hok Hs Hh Hv Hb. pose proof (history_auth_ok _ _ _ Hh Hok) as [_ Hp].
  pose proof (history_sole_seat _ _ _ _ Hh Hok Hs) as Hs'. split; [done|].
  destruct (proj2 (Hs' user org) (conj eq_refl eq_refl)) as (i & a & [Hi Hsa] & Hu & _).
  apply is_super_admin_spec in Hsa as (_ & Hac & _). unfold active_assignment in Hac.
  apply andb_prop in Hac as [[_ Hl%bool_decide_eq_true]%andb_prop _]. rewrite Hu in Hl. destruct Hl as [row Hl].
  pose proof (frame_ResetSuperAdminPassword now same_access password db') as Hsame.
  assert (∃ db2, ResetSuperAdminPassword now password db' = (Ok user, db2) ∧
    db2 = (RevokeAllSessionsByUserID user now (AdminResetUserPassword now user hash db').2).2) as (db2 & Hrun & Edb).
  { eexists. split; [|reflexivity]. unfold ResetSuperAdminPassword. rewrite Hv, Hb. cbn [negb].
    apply RunInTx_ok. unfold break_glass_tx, mbind, M_bind, query. rewrite (lock_sole_seat db' user org Hp Hs').
    unfold AdminResetUserPassword. rewrite Hl. done. }
  rewrite Hrun in Hsame. exists db2. apply live_user_Some in Hl as [Hl Hd].
  assert (au_users db2 !! user = Some (row <| us_PasswordHash := hash |> <| us_RequiresPasswordChange := true |>
             <| us_PasswordUpdatedAt := Some now |>)) as Hrow.
  { rewrite Edb. cbn. rewrite lookup_update_row, decide_True by done. rewrite Hl. simpl. by rewrite Hd. }
  eexists. split_and!; [done|by apply live_user_Some|done|done| |done].
  intros sid s Hsid Hus. rewrite Edb in Hsid. cbn in Hsid. rewrite lookup_fmap in Hsid.
  apply fmap_Some in Hsid as (s0 & _ & ->). revert Hus.
  destruct (se_UserID s0 =? user) eqn:Eq; simpl; [|by intros Hx%Z.eqb_neq].
  by case_bool_decide.
Qed.

End Recovery.

(** * Logins that race with a change of password

    A login compares the password before its transaction opens. Whatever happened in
    between, the session it opens is one for the password the user has then. *)

(** A clock reading after the time a password was set. *)
Definition later (stamp : option Z) (now : Z) : Prop := from_option (λ t, t < now) True stamp.

(** Every user keeps the password, or has one set later. *)
Definition evolved (stamp : option Z) (db db' : AuthDB) : Prop := ∀ id row, au_users db !! id = Some row →
  ∃ row', au_users db' !! id = Some row' ∧
    (credential row' = credential row ∨ ∃ n, us_PasswordUpdatedAt row' = Some n ∧ later stamp n).

#[export] Instance evolved_preorder stamp : PreOrder (evolved stamp).
Proof.
  split; [intros db id row Hr; by exists row; auto|]. intros a b c Hab Hbc id row Hr.
  destruct (Hab id row Hr) as (r1 & H1 & Hc1). destruct (Hbc id r1 H1) as (r2 & H2 & Hc2). exists r2. split; [done|].
  destruct Hc2 as [Hc2|?]; [|by right]. destruct Hc1 as [Hc1|(n & Hn & Hl)]; [left; congruence|right].
  exists n. split; [|done]. unfold credential in Hc2. injection Hc2 as _ ->. done.
Qed.

Lemma evolved_users stamp db db' : au_users db' = au_users db → evolved stamp db db'.
Proof. intros E id row Hr. exists row. rewrite E. auto. Qed.

Lemma evolved_frame stamp now : later stamp now → CredentialFrame now (evolved stamp).
Proof.
  intros Hl. split; [apply _|by intros; apply evolved_users|]. intros db id p f Hf k row Hr. simpl.
  rewrite lookup_update_row, Hr. destruct (decide (k = id)); [|by exists row; auto]. simpl. eexists. split; [reflexivity|].
  destruct (p row); [|by left]. destruct (Hf row) as [_ [?|Hn]]; [by left|right]. by exists now.
Qed.

Section Rotation.
Context `{Collation} `{AuthEnv} (duration : Z).

(** A step of the server whose clock reads later than [stamp]. *)
Inductive later_step (stamp : option Z) (db : AuthDB) : AuthDB → Prop :=
| later_request caller org req :
    (∀ now, request_time req = Some now → later stamp now) → later_step stamp db (serve duration caller org req db)
| later_reconcile : later_step stamp db (Reconcile db).2
| later_onboard userID orgID username password : later_step stamp db (CreateAdminUser userID orgID username password db).2
| later_break_glass now password :
    later stamp now → later_step stamp db (ResetSuperAdminPassword now password db).2.

Inductive later_history (stamp : option Z) (db : AuthDB) : AuthDB → Prop :=
| later_start : later_history stamp db db
| later_more db1 db2 : later_history stamp db db1 → later_step stamp db1 db2 → later_history stamp db db2.

Lemma later_is_step stamp db db' : later_step stamp db db' → auth_step duration db db'.
Proof. by destruct 1; constructor. Qed.

Lemma exists_later stamp : ∃ now, later stamp now.
Proof. destruct stamp as [t|]; [exists (t + 1); simpl; lia|by exists 0]. Qed.

Lemma serve_evolved stamp caller org req db :
  (∀ now, request_time req = Some now → later stamp now) → evolved stamp db (serve duration caller org req db).
Proof.
  intros Ht. destruct (credential_request req) eqn:Ec.
  { destruct (exists_later stamp) as [now0 Hnow0]. destruct (request_time req) as [now|] eqn:Er.
    - by apply (credential_requests_keep duration now (evolved stamp));
        [apply evolved_frame, Ht|rewrite Er|].
    - by apply (credential_requests_keep duration now0 (evolved stamp)); [apply evolved_frame|rewrite Er|]. }
  assert (∀ A (m : AOp A), all_or_nothing m → (∀ v db', m db = (Ok v, db') → evolved stamp db db') → evolved stamp db (m db).2) as Hrun.
  { intros A m Hm Hok. destruct (keeps_or_succeeds m db Hm) as [->|[v Hv]]; [reflexivity|by eapply Hok]. }
  destruct req; try done; unfold serve; clear Ht; apply Hrun; clear Hrun.
  - apply CreateCustomRole_atomic.
  - by intros v db' (norm & desc & _ & _ & _ & _ & _ & ->)%create_role_ok; apply evolved_users.
  - apply UpdateCustomRole_atomic.
  - by intros v db' (norm & r & desc & _ & _ & _ & _ & _ & _ & _ & _ & ->)%update_role_ok; apply evolved_users.
  - apply DeleteCustomRole_atomic.
  - by intros v db' (r & _ & _ & _ & _ & ->)%delete_role_ok; apply evolved_users.
  - apply CreateUser_atomic.
  - intros v db' (o & role & r & hash & _ & _ & _ & _ & _ & _ & ->)%create_user_ok id row Hr. exists row. split; [|by left].
    simpl. rewrite lookup_insert_ne; [done|]. intros He. pose proof (next_id_fresh (au_users db)) as Hf. by rewrite He, Hr in Hf.
  - apply DeactivateUser_atomic.
  - intros v db' (o & target & row0 & _ & [Hrow _]%live_user_Some & _ & _ & _ & _ & _ & _ & ->)%deactivate_ok id row Hr. simpl.
    destruct (decide (id = target)) as [->|Hne]; [|exists row; rewrite lookup_insert_ne; auto].
    rewrite lookup_insert_eq. eexists. split; [reflexivity|]. left. by assert (row0 = row) as -> by congruence.
  - apply UpdateUserRole_atomic.
  - by intros v db' [->|(o & target & i & a & role & r & new & _ & _ & _ & _ & _ & _ & _ & _ & _ & _ & _ & _ & _ & _ & _ & ->)]%update_user_role_ok;
      apply evolved_users.
Qed.

Lemma step_evolved stamp db db' :
  later_step stamp db db' → auth_ok db → au_users db ≠ ∅ → evolved stamp db db' ∧ au_users db' ≠ ∅.
Proof.
  intros Hs Hok Hne. assert (evolved stamp db db') as He.
  { destruct Hs as [caller org req Ht| |userID orgID username password|now password Ht].
    - by apply serve_evolved.
    - destruct (reconcile_runs db Hok) as (db1 & db' & -> & Hg & _ & Hch). simpl. apply evolved_users.
      pose proof (seeding_chained _ _ _ Hch (pairs_distinct _ (select_ids_NoDup _ _))) as [Cf _ _ _].
      by rewrite Cf, (gw_frame _ _ _ Hg).
    - by rewrite onboard_closed.
    - by apply (frame_ResetSuperAdminPassword now), evolved_frame. }
  split; [done|]. apply map_choose in Hne as (id & row & Hr). destruct (He id row Hr) as (row' & Hr' & _).
  intros E. by rewrite E, lookup_empty in Hr'.
Qed.

Lemma history_evolved stamp db db' :
  later_history stamp db db' → auth_ok db → au_users db ≠ ∅ → evolved stamp db db' ∧ au_users db' ≠ ∅ ∧ auth_ok db'.
Proof.
  induction 1 as [|db1 db2 _ IH Hs]; intros Hok Hne; [done|]. destruct (IH Hok Hne) as (He & Hne1 & Hok1).
  destruct (step_evolved _ _ _ Hs Hok1 Hne1) as [He2 Hne2]. split_and!; [by etrans|done|].
  by eapply step_auth_ok, Hok1; eapply later_is_step.
Qed.

(** What the optimistic read established. *)
Lemma login_read_ok now username password s snap row s' :
  login_read now username password s = (Ok (snap, row), s') →
  live_user (at_db s) (sn_User snap) = Some row ∧ sn_PasswordUpdatedAt snap = us_PasswordUpdatedAt row ∧
  us_Username row = username ∧ bcrypt_Compare (us_PasswordHash row) password = true ∧ at_db s' = at_db s.
Proof.
  unfold login_read. destruct (_ || _); [done|]. intros (user & s1 & H1 & Hc)%M_bind_ok.
  apply M_bind_ok in Hc as ([] & s2 & H2 & Hc). apply M_bind_ok in Hc as (org & s3 & H3 & Hc).
  destruct (negb (bcrypt_Compare _ _)) eqn:Eb; [done|]. apply negb_false_iff in Eb. injection Hc as <- <- <-.
  unfold on_db in H1. destruct (query _ _ (at_db s)) as [r db1] eqn:Eq. injection H1 as -> <-.
  apply query_ok, one_ok in Eq as [Hf ->]. destruct user as [id u]. apply find_row_Some in Hf as [Hu Hp].
  apply andb_prop in Hp as [Hn%bool_decide_eq_true Hd%negb_true_iff]. simpl in *.
  unfold check_login in H2. simpl in H2. destruct (allow _ _ _) as [ok l]. injection H2 as _ <-.
  unfold on_db in H3. destruct (caller_organization id _) as [r db1] eqn:Eo. injection H3 as -> <-.
  apply caller_organization_ok in Eo as [-> _]. split_and!; try done. by apply live_user_Some.
Qed.

(** C12: A login compares the password before its transaction. Whatever happened in between
    (requests, resets and recoveries with later clock readings), a session it opens is one for the
    user whose password at that moment is the one given; otherwise the tables are unchanged. *)
Theorem session_needs_the_current_password s s' db username password snap row now0 now sessionID :
  auth_ok (at_db s) → login_read now0 username password s = (Ok (snap, row), s') →
  later_history (us_PasswordUpdatedAt row) (at_db s') db →
  match RunInTx (login_tx duration now sessionID snap) db with
  | (Ok sess, db') => se_UserID sess = sn_User snap ∧ au_sessions db' = <[sessionID := sess]> (au_sessions db) ∧
      ∃ current, live_user db (sn_User snap) = Some current ∧ bcrypt_Compare (us_PasswordHash current) password = true
  | (Err _, db') => db' = db
  end.
Proof.
  intros Hok Hread Hh. apply login_read_ok in Hread as ([Hrow Hd]%live_user_Some & Hsnap & _ & Hcmp & Edb). rewrite Edb in Hh.
  destruct (history_evolved _ _ _ Hh Hok) as (He & _); [intros E; by rewrite E, lookup_empty in Hrow|].
  destruct (RunInTx _ db) as [[sess|e] db'] eqn:Erun; [|by apply RunInTx_err in Erun].
  apply RunInTx_ok in Erun. unfold login_tx, session_Create in Erun. op_inv Erun.
  apply one_ok in H1 as [Hcur ->]. apply negb_false_iff, bool_decide_eq_true in E.
  unfold UpdateLastLogin, update_user, modify in H2. injection H2 as _ <-.
  unfold CreateSession in H3. cbn [au_sessions set_field setter] in H3. destruct (au_sessions db !! sessionID); [done|].
  injection H3 as _ <-. subst sess. split_and!; [done..|]. exists a. split; [done|].
  apply live_user_Some in Hcur as [Hcur _]. destruct (He _ _ Hrow) as (row' & Hrow' & [Hc|(n & Hn & Hl)]).
  - assert (a = row') as -> by congruence. unfold credential in Hc. injection Hc as -> _. done.
  - exfalso. assert (a = row') as -> by congruence. rewrite Hn, Hsnap in E. rewrite <- E in Hl. simpl in Hl. lia.
Qed.

End Rotation.
