(* ===== verification/AuthAttempts.v ===== *)
(** * Throttling of password attempts

    The counter of [password_attempts.go] run over a sequence of calls with a clock that
    does not go back: how many attempts of one user it lets through, how large it grows
    and why it refuses. *)

From S2P Require Import Prelude GoTime AuthService CommandFilter.
#[local] Open Scope list_scope.
#[local] Open Scope Z_scope.
#[local] Open Scope go_scope.

(** The calls it allowed, and the counter they leave. *)
Fixpoint attempts (l : passwordAttempts) (calls : list (Z * Z)) : list (Z * Z) * passwordAttempts :=
  match calls with
  | [] => ([], l)
  | (user, now) :: rest =>
      let '(ok, l') := allow l user now in
      let '(log, l'') := attempts l' rest in
      (if ok then (user, now) :: log else log, l'')
  end.

(** The times of a user's allowed calls in a window that opens at [t]. *)
Definition within (user t : Z) (log : list (Z * Z)) : list (Z * Z) :=
  List.filter (λ c, (c.1 =? user) && (t <=? c.2) && (c.2 <? t + passwordAttemptWindow)) log.

(** The users whose windows are open. *)
Definition open_windows (l : passwordAttempts) (now : Z) : gmap Z (Z * Z) :=
  filter (λ kv, now < kv.2.1 + passwordAttemptWindow) (pa_entries l).

Lemma window_positive : 0 < passwordAttemptWindow.
Proof. done. Qed.

(** ** Windows of one user *)

Notation Window := (Z * list Z)%type (only parsing).

(** Its times, the first of which opened it. *)
Definition window_ok (w : Window) : Prop :=
  Forall (λ x, w.1 <= x < w.1 + passwordAttemptWindow) w.2 ∧ (∃ rest, w.2 = w.1 :: rest) ∧ Z.of_nat (length w.2) <= max_attempts.

(** Newest first; each opens after the one before has closed. *)
Inductive windows_ok : list Window → Prop :=
| windows_nil : windows_ok []
| windows_cons w ws : window_ok w → Forall (λ v, v.1 + passwordAttemptWindow <= w.1) ws → windows_ok ws → windows_ok (w :: ws).

Definition hits (t : Z) (l : list Z) : Z :=
  Z.of_nat (length (List.filter (λ x, (t <=? x) && (x <? t + passwordAttemptWindow)) l)).

Lemma hits_app t l k : hits t (l ++ k) = hits t l + hits t k.
Proof. unfold hits. rewrite List.filter_app, length_app. lia. Qed.

Lemma hits_perm t l k : l ≡ₚ k → hits t l = hits t k.
Proof.
  unfold hits. induction 1 as [|x l k _ IH|x y l|l k m _ IH1 _ IH2]; simpl; [done| | |congruence].
  - destruct (_ && _); simpl; lia.
  - destruct ((t <=? x) && _), ((t <=? y) && _); simpl; lia.
Qed.

Lemma hits_length t l : hits t l <= Z.of_nat (length l).
Proof. unfold hits. pose proof (List.filter_length_le (λ x, (t <=? x) && (x <? t + passwordAttemptWindow)) l). lia. Qed.

Lemma hits_none t l : Forall (λ x, ¬ (t <= x < t + passwordAttemptWindow)) l → hits t l = 0.
Proof.
  unfold hits. induction 1 as [|x l Hx _ IH]; [done|]. simpl.
  rewrite (proj2 (andb_false_iff _ _)); [done|]. rewrite Z.leb_gt, Z.ltb_ge. lia.
Qed.

(** A window that opened in the interval, or just before it. *)
Definition opened (a : Z) (w : Window) : bool := (a <=? w.1) && (w.1 <? a + passwordAttemptWindow).
Definition opened_in (a : Z) (ws : list Window) : Z := Z.of_nat (length (List.filter (opened a) ws)).

Lemma opened_once a ws : windows_ok ws → opened_in a ws <= 1.
Proof.
  unfold opened_in. induction 1 as [|w ws Hw Hgap _ IH]; [simpl; lia|]. simpl.
  destruct (opened a w) eqn:Eo; [|done]. rewrite (filter_false (opened a) ws); [simpl; lia|].
  intros v Hv. rewrite Forall_forall in Hgap. specialize (Hgap v Hv). unfold opened in *.
  apply andb_prop in Eo as [_ Ew%Z.ltb_lt]. apply andb_false_iff. left. apply Z.leb_gt. lia.
Qed.

Lemma window_hits t w :
  window_ok w → hits t w.2 <= (if opened t w then max_attempts else if opened (t - passwordAttemptWindow) w then max_attempts - 1 else 0).
Proof.
  destruct w as [s l]. intros (Hin & [rest He] & Hlen). unfold opened. cbn [fst snd] in *. subst l.
  destruct ((t <=? s) && (s <? t + passwordAttemptWindow)) eqn:E1.
  { pose proof (hits_length t (s :: rest)). lia. }
  destruct ((t - passwordAttemptWindow <=? s) && _) eqn:E2.
  - change (s :: rest) with ([s] ++ rest) in *. rewrite hits_app. rewrite length_app in Hlen. simpl length in Hlen.
    pose proof (hits_length t rest). rewrite (hits_none t [s]); [lia|]. constructor; [|constructor].
    apply andb_false_iff in E1 as [?%Z.leb_gt|?%Z.ltb_ge]; lia.
  - rewrite hits_none; [done|]. eapply Forall_impl; [exact Hin|]. intros x Hx. simpl in Hx.
    apply andb_false_iff in E1. apply andb_false_iff in E2.
    rewrite Z.leb_gt, Z.ltb_ge in E1, E2. unfold passwordAttemptWindow in *. lia.
Qed.

Lemma windows_hits t ws : windows_ok ws →
  hits t (concat (map snd ws)) <= max_attempts * opened_in t ws + (max_attempts - 1) * opened_in (t - passwordAttemptWindow) ws.
Proof.
  unfold opened_in. induction 1 as [|w ws Hw _ _ IH]; [done|]. cbn [map concat List.filter]. rewrite hits_app.
  pose proof (window_hits t w Hw) as Hh. unfold max_attempts in *.
  destruct (opened t w), (opened (t - passwordAttemptWindow) w); simpl length; lia.
Qed.

Lemma windows_bound t ws : windows_ok ws → hits t (concat (map snd ws)) <= 19.
Proof.
  intros Hok. pose proof (windows_hits t ws Hok). pose proof (opened_once t ws Hok).
  pose proof (opened_once (t - passwordAttemptWindow) ws Hok). unfold max_attempts in *. lia.
Qed.

(** ** The counter tracks the windows *)

Definition tracks (user clock : Z) (l : passwordAttempts) (ws : list Window) : Prop :=
  windows_ok ws ∧ Forall (λ w, w.1 <= clock) ws ∧
  match pa_entries l !! user with
  | Some (s, n) => ∃ times rest, ws = (s, times) :: rest ∧ n = Z.of_nat (length times)
  | None => Forall (λ w, w.1 + passwordAttemptWindow <= clock) ws
  end.

Lemma tracks_clock user c c' l ws : tracks user c l ws → c <= c' → tracks user c' l ws.
Proof.
  intros (Hok & Hc & He) Hle. split_and!; [done|eapply Forall_impl; [done|simpl; lia]|].
  destruct (pa_entries l !! user) as [[s n]|]; [done|]. eapply Forall_impl; [done|]. simpl. lia.
Qed.

(** Every window has closed by now. *)
Lemma closed_before s times rest c :
  windows_ok ((s, times) :: rest) → s + passwordAttemptWindow <= c →
  Forall (λ w, w.1 + passwordAttemptWindow <= c) ((s, times) :: rest).
Proof.
  intros Hok Hs. inversion Hok as [|w ws _ Hgap _]; subst. constructor; [done|].
  eapply Forall_impl; [exact Hgap|]. intros v Hv. simpl in *. pose proof window_positive. lia.
Qed.

Lemma new_window now ws :
  windows_ok ws → Forall (λ w, w.1 + passwordAttemptWindow <= now) ws → windows_ok ((now, [now]) :: ws).
Proof.
  intros Hok Hc. constructor; [|done|done]. split_and!; [|by exists []|done].
  pose proof window_positive. constructor; [simpl; lia|constructor].
Qed.

Lemma sweep_lookup l now user :
  pa_entries (sweep l now) !! user =
  match pa_entries l !! user with
  | Some e => if bool_decide (now < e.1 + passwordAttemptWindow) then Some e else None | None => None end.
Proof.
  simpl. rewrite map_lookup_filter. destruct (pa_entries l !! user) as [e|]; [|done]. simpl.
  case_bool_decide; [by rewrite option_guard_True|by rewrite option_guard_False].
Qed.

Lemma tracks_sweep user l now ws : tracks user now l ws → tracks user now (sweep l now) ws.
Proof.
  intros (Hok & Hc & He). split_and!; [done..|]. rewrite sweep_lookup.
  destruct (pa_entries l !! user) as [[s n]|]; [|done]. cbn [fst]. case_bool_decide as Hs; [done|].
  destruct He as (times & rest & -> & ->). apply (closed_before s times rest); [done|lia].
Qed.

Lemma tracks_open user l now ws who :
  tracks user now l ws →
  (who = user → Forall (λ w, w.1 + passwordAttemptWindow <= now) ws) →
  tracks user now (open_window l who now).2 (if bool_decide (who = user) then (now, [now]) :: ws else ws).
Proof.
  intros (Hok & Hc & He) Hclosed. unfold tracks. cbn [open_window snd pa_entries]. case_bool_decide as Hw.
  - subst who. rewrite lookup_insert_eq. split_and!; [by apply new_window; auto|by constructor; [simpl; lia|]|].
    by exists [now], ws.
  - rewrite lookup_insert_ne by done. done.
Qed.

(** One call: the windows afterwards, with the call in the newest one if it was allowed. *)
Lemma tracks_allow user l now ws who :
  tracks user now l ws →
  ∃ ws', tracks user now (allow l who now).2 ws' ∧
    concat (map snd ws') ≡ₚ (if (allow l who now).1 && (who =? user) then [now] else []) ++ concat (map snd ws).
Proof.
  intros Ht. pose proof Ht as (Hok & Hc & He).
  assert (∀ l0, tracks user now l0 ws → (who = user → Forall (λ w, w.1 + passwordAttemptWindow <= now) ws) →
    ∃ ws', tracks user now (open_window l0 who now).2 ws' ∧
      concat (map snd ws') ≡ₚ (if (open_window l0 who now).1 && (who =? user) then [now] else []) ++ concat (map snd ws)) as Hopen.
  { intros l0 H0 Hcl. exists (if bool_decide (who = user) then (now, [now]) :: ws else ws).
    split; [by apply tracks_open|]. simpl. by destruct (Z.eqb_spec who user); case_bool_decide. }
  assert (∀ l0, tracks user now l0 ws → ∃ ws', tracks user now l0 ws' ∧ concat (map snd ws') ≡ₚ [] ++ concat (map snd ws)) as Hstay.
  { intros l0 H0. by exists ws. }
  assert ((who = user → Forall (λ w, w.1 + passwordAttemptWindow <= now) ws) → ∃ ws', tracks user now (open_or_sweep l who now).2 ws' ∧
      concat (map snd ws') ≡ₚ (if (open_or_sweep l who now).1 && (who =? user) then [now] else []) ++ concat (map snd ws)) as Hos.
  { intros Hcl. unfold open_or_sweep. destruct (_ && _); [|by apply Hopen]. destruct (before _ _); [by apply Hstay|].
    destruct (max_entries <=? _); [by apply Hstay, tracks_sweep|]. by apply Hopen; [apply tracks_sweep|]. }
  unfold allow. destruct (pa_entries l !! who) as [[s n]|] eqn:Ew.
  - destruct (now <? s + passwordAttemptWindow) eqn:Eo.
    + destruct (max_attempts <=? n) eqn:En; [by apply Hstay|]. cbn [fst snd andb]. unfold tracks. cbn [pa_entries].
      destruct (who =? user) eqn:Eu; [apply Z.eqb_eq in Eu; subst who|apply Z.eqb_neq in Eu].
      * rewrite Ew in He. destruct He as (times & rest & -> & ->). exists ((s, times ++ [now]) :: rest).
        rewrite lookup_insert_eq. inversion Hok as [|w ws (Hin & [tl Htl] & Hlen) Hgap Hrest]; subst.
        inversion Hc as [|? ? Hs Hc']; subst. simpl in *. apply Z.ltb_lt in Eo. apply Z.leb_gt in En. split.
        -- split_and!; [|by constructor|eexists _, _; split; [done|rewrite length_app; simpl; lia]].
           constructor; [|done|done]. split_and!; simpl.
           ++ apply Forall_app. split; [done|]. constructor; [lia|constructor].
           ++ exists (tl ++ [now]). by rewrite Htl.
           ++ rewrite length_app. simpl. lia.
        -- rewrite <- app_assoc. by rewrite (Permutation_middle times (concat (map snd rest)) now).
      * exists ws. rewrite lookup_insert_ne by done. done.
    + apply Hos. intros ->. rewrite Ew in He. destruct He as (times & rest & -> & ->).
      apply (closed_before s times rest); [done|]. by apply Z.ltb_ge in Eo.
  - apply Hos. intros ->. by rewrite Ew in He.
Qed.

(** ** The size of the counter and its next expiry *)

(** No entry expires before the next expiry, and the capacity is kept. *)
Definition counter_ok (l : passwordAttempts) : Prop :=
  Z.of_nat (size (pa_entries l)) <= max_entries ∧
  ∀ u e, pa_entries l !! u = Some e → ∃ t, pa_nextExpiry l = Some t ∧ t <= e.1 + passwordAttemptWindow.

Lemma earliest_le t expires : ∃ t', earliest t expires = Some t' ∧ t' <= expires ∧ ∀ t0, t = Some t0 → t' <= t0.
Proof.
  destruct t as [t|]; simpl; eexists; (split; [reflexivity|]).
  - destruct (Z.ltb_spec expires t); split; try lia; intros t0 [= <-]; lia.
  - split; [lia|done].
Qed.

Lemma sweep_ok l now : counter_ok l → counter_ok (sweep l now).
Proof.
  intros [Hsize _]. split.
  - simpl. pose proof (map_size_filter (λ kv : Z * (Z * Z), now < kv.2.1 + passwordAttemptWindow) (pa_entries l)). lia.
  - simpl. set (kept := filter _ (pa_entries l)). clearbody kept. clear.
    induction kept as [|k x m Hk Hfirst IH] using map_first_key_ind; [by intros u e; rewrite lookup_empty|].
    intros u e. rewrite map_fold_insert_first_key by done.
    set (rest := map_fold _ None m) in *.
    destruct (earliest_le rest (x.1 + passwordAttemptWindow)) as (t' & -> & Hx & Ht).
    intros [[<- <-]|[_ He]]%lookup_insert_Some; [by exists t'|].
    destruct (IH u e He) as (t0 & H0 & Hle). exists t'. split; [done|]. specialize (Ht t0 H0). lia.
Qed.

Lemma open_window_ok l user now :
  counter_ok l → is_Some (pa_entries l !! user) ∨ Z.of_nat (size (pa_entries l)) < max_entries →
  counter_ok (open_window l user now).2.
Proof.
  intros [Hsize Hexp] Hroom. split; simpl.
  - rewrite map_size_insert. destruct (pa_entries l !! user); [done|]. destruct Hroom as [[? ?]|?]; [done|lia].
  - intros u e. destruct (earliest_le (pa_nextExpiry l) (now + passwordAttemptWindow)) as (t' & -> & Hx & Ht).
    intros [[<- <-]|[_ He]]%lookup_insert_Some; [by exists t'|].
    destruct (Hexp u e He) as (t0 & H0 & Hle). exists t'. split; [done|]. specialize (Ht t0 H0). lia.
Qed.

Lemma open_or_sweep_ok l user now : counter_ok l → counter_ok (open_or_sweep l user now).2.
Proof.
  intros Hok. unfold open_or_sweep. destruct (_ && _) eqn:Efull.
  - destruct (before _ _); [done|]. destruct (max_entries <=? Z.of_nat (size (pa_entries (sweep l now)))) eqn:Es.
    + by apply sweep_ok.
    + apply open_window_ok; [by apply sweep_ok|]. right. by apply Z.leb_gt in Es.
  - apply open_window_ok; [done|]. apply andb_false_iff in Efull as [Hn%bool_decide_eq_false|Hs%Z.leb_gt]; [left|by right].
    destruct (pa_entries l !! user); [by eexists|done].
Qed.

Lemma allow_ok l user now : counter_ok l → counter_ok (allow l user now).2.
Proof.
  intros Hok. unfold allow. destruct (pa_entries l !! user) as [[s n]|] eqn:Eu; [|by apply open_or_sweep_ok].
  destruct (now <? _); [|by apply open_or_sweep_ok]. destruct (max_attempts <=? n); [done|]. destruct Hok as [Hsize Hexp].
  split; simpl.
  - rewrite map_size_insert. by rewrite Eu.
  - intros u e [[<- <-]|[_ He]]%lookup_insert_Some; [by apply (Hexp user (s, n))|by eapply Hexp].
Qed.

(** A refusal: the user's attempts are used up, or every entry is of an open window. *)
Lemma allow_refuses l user now :
  counter_ok l → (allow l user now).1 = false →
  (∃ s n, pa_entries l !! user = Some (s, n) ∧ now < s + passwordAttemptWindow ∧ max_attempts <= n)
  ∨ max_entries <= Z.of_nat (size (open_windows l now)).
Proof.
  intros [Hsize Hexp]. assert ((open_or_sweep l user now).1 = false → max_entries <= Z.of_nat (size (open_windows l now))) as Hfull.
  { unfold open_or_sweep. destruct (_ && _) eqn:Efull; [|done]. apply andb_prop in Efull as [_ Hs%Z.leb_le].
    destruct (before now (pa_nextExpiry l)) eqn:Eb.
    - intros _. unfold open_windows. rewrite map_filter_id; [done|]. intros u e He. simpl.
      destruct (Hexp u e He) as (t & Ht & Hle). rewrite Ht in Eb. simpl in Eb. apply Z.ltb_lt in Eb. lia.
    - destruct (max_entries <=? Z.of_nat (size (pa_entries (sweep l now)))) eqn:Es; [|done].
      intros _. by apply Z.leb_le in Es. }
  unfold allow. destruct (pa_entries l !! user) as [[s n]|] eqn:Eu; [|by auto].
  destruct (now <? s + passwordAttemptWindow) eqn:Eo; [|by auto]. destruct (max_attempts <=? n) eqn:En; [|done].
  intros _. left. exists s, n. apply Z.ltb_lt in Eo. apply Z.leb_le in En. done.
Qed.

(** ** Runs *)

Definition times_of (user : Z) (log : list (Z * Z)) : list Z := map snd (List.filter (λ c, c.1 =? user) log).

Lemma within_hits user t log : Z.of_nat (length (within user t log)) = hits t (times_of user log).
Proof.
  unfold within, hits, times_of. f_equal. induction log as [|[u x] log IH]; [done|]. simpl.
  destruct (u =? user); simpl; [|done]. destruct (_ && _); simpl; by rewrite IH.
Qed.

Lemma run_tracks user calls clock l ws :
  tracks user clock l ws → counter_ok l → Forall (λ c, clock <= c.2) calls → StronglySorted (λ x y, x.2 <= y.2) calls →
  ∃ ws', (∀ now, clock <= now → Forall (λ c, c.2 <= now) calls → tracks user now (attempts l calls).2 ws') ∧
    counter_ok (attempts l calls).2 ∧
    concat (map snd ws') ≡ₚ times_of user (attempts l calls).1 ++ concat (map snd ws).
Proof.
  revert clock l ws. induction calls as [|[who now] calls IH]; intros clock l ws Ht Hok Hle Hsort.
  { exists ws. split_and!; [|done|done]. intros now Hnow _. by eapply tracks_clock. }
  apply Forall_cons in Hle as [Hnow Hle]. inversion Hsort as [|? ? Hsort' Hlate]; subst.
  destruct (tracks_allow user l now ws who (tracks_clock _ _ _ _ _ Ht Hnow)) as (ws1 & Ht1 & Hp1).
  pose proof (allow_ok l who now Hok) as Hok1. cbn [attempts].
  destruct (allow l who now) as [ok l1]. cbn [fst snd] in *.
  destruct (IH now l1 ws1 Ht1 Hok1 Hlate Hsort') as (ws' & Hrun & Hok' & Hp).
  destruct (attempts l1 calls) as [log l2]. cbn [fst snd] in *. exists ws'. split_and!; [|done|].
  - intros now' _ Hall. apply Forall_cons in Hall as [? ?]. by apply Hrun.
  - rewrite Hp, Hp1. unfold times_of. destruct ok; [|done]. simpl. destruct (who =? user); [|done]. simpl.
    by rewrite <- Permutation_middle.
Qed.

Lemma attempts_log_sub l calls c : c ∈ (attempts l calls).1 → c ∈ calls.
Proof.
  revert l. induction calls as [|[who now] calls IH]; intros l; [done|]. simpl. destruct (allow l who now) as [ok l1].
  specialize (IH l1). destruct (attempts l1 calls) as [log l2]. simpl in *. destruct ok; [|by right; auto].
  intros [->|Hin]%elem_of_cons; [left|right; auto].
Qed.

(** C33: Over any calls with a clock that does not go back, the counter allows a user at most 19
    attempts in any minute and holds at most 10000 entries; a refusal means that the user made ten
    allowed attempts in the last minute or that 10000 windows are open. *)
Theorem password_attempts_bound calls user t now :
  StronglySorted (λ x y, x.2 <= y.2) calls → Forall (λ c, c.2 <= now) calls →
  let '(log, l) := attempts no_attempts calls in
  Z.of_nat (length (within user t log)) <= 19 ∧ Z.of_nat (size (pa_entries l)) <= max_entries ∧
  ((allow l user now).1 = false →
     max_attempts <= Z.of_nat (length (within user (now - passwordAttemptWindow + 1) log))
     ∨ max_entries <= Z.of_nat (size (open_windows l now))).
Proof.
  intros Hsort Hnow. set (c0 := match calls with [] => now | c :: _ => c.2 end).
  assert (Forall (λ c, c0 <= c.2) calls) as Hc0.
  { subst c0. destruct calls as [|c calls]; [constructor|]. inversion Hsort; subst. by constructor; [lia|]. }
  assert (c0 <= now) as Hle by (subst c0; destruct calls; [lia|by apply Forall_cons in Hnow as [? _]]).
  destruct (run_tracks user calls c0 no_attempts []) as (ws & Hrun & Hok & Hp); [|split; [done|]| |done|].
  { split_and!; [constructor..|]. unfold no_attempts. cbn [pa_entries]. rewrite lookup_empty. constructor. }
  { intros u e. unfold no_attempts. cbn [pa_entries]. by rewrite lookup_empty. }
  { done. }
  pose proof (attempts_log_sub no_attempts calls) as Hsub. specialize (Hrun now Hle Hnow).
  destruct (attempts no_attempts calls) as [log l]. cbn [fst snd map concat] in *. rewrite app_nil_r in Hp.
  pose proof Hrun as (Hws & _ & Hent). split_and!.
  - rewrite within_hits, <- (hits_perm t _ _ Hp). by apply windows_bound.
  - apply Hok.
  - intros [(s & n & Hu & Hopen & Hn)|?]%allow_refuses; [left|by right|done]. rewrite Hu in Hent.
    destruct Hent as (times & rest & -> & ->). inversion Hws as [|w ws' (Hin & _ & _) _ _]; subst. simpl in Hin.
    rewrite within_hits, <- (hits_perm _ _ _ Hp). cbn [map concat snd]. rewrite hits_app.
    assert (hits (now - passwordAttemptWindow + 1) times = Z.of_nat (length times)) as ->.
    { unfold hits. rewrite List.forallb_filter_id; [done|]. apply forallb_forall. intros x Hx%list_elem_of_In.
      rewrite Forall_forall in Hin. specialize (Hin x Hx). assert (x ∈ times_of user log) as Hl.
      { rewrite <- Hp. simpl. apply elem_of_app. by left. }
      apply list_elem_of_fmap in Hl as (c & -> & [Hc _]%elem_of_List_filter). apply Hsub in Hc.
      rewrite Forall_forall in Hnow. specialize (Hnow c Hc). apply andb_true_intro. rewrite Z.leb_le, Z.ltb_lt. simpl in *. lia. }
    unfold hits. lia.
Qed.
