(* ===== verification/AuthTokenFacts.v ===== *)
(** * Role identifiers on the wire and temporary passwords

    Role identifiers travel as decimal strings: parsing accepts exactly what formatting
    produces. Temporary passwords satisfy the rule for passwords. *)

From stdpp Require Import pretty.
From S2P Require Import Prelude Errors RolloutBehavior RolloutBehaviorFacts GoTime ScheduleFleetFacts.
From S2P Require Import ScheduleStoreFacts GoBase64 AuthzService AuthService.
#[local] Open Scope string_scope.
#[local] Open Scope list_scope.
#[local] Open Scope Z_scope.
#[local] Open Scope go_scope.

(** ** Decimal digits *)

Definition char_code (c : Ascii.ascii) : Z := Z.of_nat (Ascii.nat_of_ascii c).

Lemma pretty_char_code x : (x < 10)%N → char_code (pretty_N_char x) = 48 + Z.of_N x.
Proof. intros Hx. destruct x as [|[[[[]|[]|]|[[]|[]|]|]|[[[]|[]|]|[[]|[]|]|]|]]; try reflexivity; lia. Qed.

Lemma isDigit_code d : 0 <= d < 10 → isDigit (48 + d) = true ∧ digit (48 + d) = d.
Proof. intros Hd. unfold isDigit, between, digit. split; [|lia]. apply andb_true_intro. rewrite !Z.leb_le. lia. Qed.

(** Formatting writes what decimal parsing reads. *)
Lemma decimal_pretty x s : decimal 0 (bytes (pretty_N_go x s)) = decimal (Z.of_N x) (bytes s).
Proof.
  revert s. induction (N.lt_wf_0 x) as [x _ IH]; intros s. destruct (decide (x = 0%N)) as [->|Hx]; [done|].
  rewrite pretty_N_go_step by lia. rewrite IH by (apply N.div_lt; lia).
  pose proof (N.mod_lt x 10 ltac:(done)) as Hm. pose proof (N.div_mod x 10 ltac:(done)) as Hdiv.
  change (bytes (String (pretty_N_char (x `mod` 10)) s)) with (char_code (pretty_N_char (x `mod` 10)) :: bytes s).
  revert Hm Hdiv. generalize (x `div` 10)%N (x `mod` 10)%N. intros q r Hm Hdiv.
  rewrite pretty_char_code by done. cbn [decimal].
  destruct (isDigit_code (Z.of_N r)) as [-> ->]; [lia|].
  f_equal. lia.
Qed.

Lemma pretty_head x s : (0 < x)%N → ∃ d rest, bytes (pretty_N_go x s) = d :: rest ∧ between 49 57 d = true.
Proof.
  revert s. induction (N.lt_wf_0 x) as [x _ IH]; intros s Hx. rewrite pretty_N_go_step by lia.
  destruct (decide (x < 10)%N) as [Hlt|Hge].
  - rewrite N.div_small, N.mod_small by done. rewrite pretty_N_go_0. exists (48 + Z.of_N x), (bytes s).
    change (bytes (String (pretty_N_char x) s)) with (char_code (pretty_N_char x) :: bytes s). rewrite pretty_char_code by done.
    split; [done|]. unfold between. apply andb_true_intro. rewrite !Z.leb_le. lia.
  - apply IH; [apply N.div_lt; lia|]. apply N.div_str_pos. lia.
Qed.

Lemma decimal_snoc acc l d z : decimal acc (l ++ [d]) = Some z → ∃ v, decimal acc l = Some v ∧ isDigit d = true ∧ z = v * 10 + digit d.
Proof.
  revert acc. induction l as [|b l IH]; intros acc; simpl.
  - destruct (isDigit d) eqn:Ed; [|done]. intros [= <-]. by exists acc.
  - destruct (isDigit b); [|done]. apply IH.
Qed.

Lemma decimal_positive d l z : between 49 57 d = true → decimal 0 (d :: l) = Some z → 0 < z.
Proof.
  intros Hd. simpl. destruct (isDigit d); [|done]. intros Hz. apply andb_prop in Hd as [H1%Z.leb_le H2%Z.leb_le].
  enough (∀ acc l z, 0 < acc → decimal acc l = Some z → 0 < z) as Hgo by (eapply Hgo, Hz; unfold digit; lia).
  clear. intros acc l. revert acc. induction l as [|b l IH]; intros acc z Hacc; simpl; [congruence|].
  destruct (isDigit b) eqn:Eb; [|done]. apply IH. unfold digit. unfold isDigit, between in Eb. crush_bools. lia.
Qed.

Lemma string_of_list_app (k m : list Ascii.ascii) s :
  String.string_of_list_ascii k +:+ (String.string_of_list_ascii m +:+ s) = String.string_of_list_ascii (k ++ m) +:+ s.
Proof. induction k as [|c k IH]; [done|]. exact (f_equal (String c) IH). Qed.

(** Digits without a leading zero are the formatting of their value. *)
Lemma pretty_decimal l z : 
  decimal 0 l = Some z → match l with d :: _ => between 49 57 d = true | [] => False end →
  ∀ s, pretty_N_go (Z.to_N z) s = string_of_bytes l +:+ s.
Proof.
  revert z. induction l as [|d l IH] using rev_ind; intros z Hz Hh s; [done|].
  destruct (decimal_snoc 0 l d z Hz) as (v & Hv & Hd & ->).
  assert (0 <= digit d < 10) as Hdd by (unfold digit; unfold isDigit, between in Hd; crush_bools; lia).
  assert (String (pretty_N_char (Z.to_N (digit d))) s = string_of_bytes [d] +:+ s) as Hc.
  { simpl. f_equal. assert (d = 48 + digit d) as -> by (unfold digit; lia). set (n := digit d) in *.
    replace (digit (48 + n)) with n by (unfold digit; lia). clearbody n. clear -Hdd.
    assert (n = 0 ∨ n = 1 ∨ n = 2 ∨ n = 3 ∨ n = 4 ∨ n = 5 ∨ n = 6 ∨ n = 7 ∨ n = 8 ∨ n = 9) as Hn by lia.
    naive_solver. }
  destruct l as [|b l'].
  - simpl in Hv. injection Hv as <-. simpl in Hh. apply andb_prop in Hh as [H1%Z.leb_le H2%Z.leb_le].
    assert (0 < digit d) by (unfold digit; lia).
    rewrite pretty_N_go_step by lia. rewrite Z.add_0_l, N.div_small, N.mod_small, pretty_N_go_0 by lia. exact Hc.
  - pose proof (decimal_positive b l' v Hh Hv) as Hpos. rewrite pretty_N_go_step by lia.
    replace (Z.to_N (v * 10 + digit d) `div` 10)%N with (Z.to_N v) by (apply (N.div_unique _ _ _ (Z.to_N (digit d))); lia).
    replace (Z.to_N (v * 10 + digit d) `mod` 10)%N with (Z.to_N (digit d)) by (apply (N.mod_unique _ _ (Z.to_N v)); lia).
    rewrite (IH v Hv Hh), Hc. unfold string_of_bytes. rewrite map_app.
    apply string_of_list_app.
Qed.

(** ** Role identifiers *)

Lemma FormatInt_positive id : 0 < id → FormatInt id = pretty_N_go (Z.to_N id) "".
Proof. intros Hid. unfold FormatInt, pretty, pretty_Z. destruct id as [|p|p]; [lia|done|lia]. Qed.

(** A string that starts with a digit has no sign to parse. *)
Lemma ParseInt_digits s d rest :
  bytes s = d :: rest → between 49 57 d = true →
  ParseInt s = z ← decimal 0 (d :: rest); if (- 2 ^ 63 <=? z) && (z <? 2 ^ 63) then Some z else None.
Proof.
  intros Hs [H1%Z.leb_le H2%Z.leb_le]%andb_prop. unfold ParseInt. rewrite Hs.
  destruct d as [|d|d]; try done. do 6 (destruct d as [d|d|]; try done); lia.
Qed.

(** Formatting a positive 64-bit integer and parsing it back. *)
Lemma ParseInt_FormatInt id : 0 < id < 2 ^ 63 → ParseInt (FormatInt id) = Some id.
Proof.
  intros Hid. rewrite FormatInt_positive by lia. destruct (pretty_head (Z.to_N id) "") as (d & rest & Hb & Hd); [lia|].
  pose proof (decimal_pretty (Z.to_N id) "") as Hdec. rewrite Hb in Hdec. rewrite Z2N.id in Hdec by lia.
  rewrite (ParseInt_digits _ d rest Hb Hd), Hdec. change (decimal id (bytes "")) with (Some id). cbn [mbind option_bind].
  rewrite (proj2 (Z.leb_le _ _)) by lia. rewrite (proj2 (Z.ltb_lt _ _)) by lia. done.
Qed.

(** A role identifier on the wire parses exactly when it is the decimal formatting of a
    positive 64-bit integer, to that integer: no other spelling is accepted. *)
Theorem role_ids_round_trip s id :
  ParseRoleID s = Ok id ↔ 0 < id < 2 ^ 63 ∧ s = FormatInt id.
Proof.
  split.
  - unfold ParseRoleID, roleIDPattern. destruct (bytes s) as [|d rest] eqn:Es; [done|].
    destruct (between 49 57 d) eqn:Ed; [|done]. destruct (forallb _ rest); [|done]. cbn [negb andb].
    rewrite (ParseInt_digits s d rest Es Ed). destruct (decimal 0 (d :: rest)) as [z|] eqn:Ez; [|done]. cbn [mbind option_bind].
    destruct (_ && (z <? 2 ^ 63)) eqn:Ef; [|done]. intros [= <-]. apply andb_prop in Ef as [_ Hlt%Z.ltb_lt].
    pose proof (decimal_positive d rest z Ed Ez) as Hpos. split; [done|].
    rewrite FormatInt_positive, (pretty_decimal (d :: rest) z Ez Ed) by done.
    rewrite <- Es, string_of_bytes_bytes. clear. induction s as [|c s IH]; [done|]. exact (f_equal (String c) IH).
  - intros [Hid ->]. rewrite FormatInt_positive by lia.
    destruct (pretty_head (Z.to_N id) "") as (d & rest & Hb & Hd); [lia|].
    pose proof (decimal_pretty (Z.to_N id) "") as Hdec. rewrite Hb in Hdec. rewrite Z2N.id in Hdec by lia.
    unfold ParseRoleID, roleIDPattern. rewrite (ParseInt_digits _ d rest Hb Hd), Hb, Hd, Hdec. cbn [bytes map decimal mbind option_bind].
    apply decimal_digits in Hdec as [Hdig _]. simpl in Hdig. apply andb_prop in Hdig as [_ Hdig].
    change (forallb isDigit rest) with (forallb (between 48 57) rest) in Hdig. rewrite Hdig. cbn [negb andb].
    change (decimal id (bytes "")) with (Some id). cbn [mbind option_bind].
    rewrite (proj2 (Z.leb_le _ _)) by lia. rewrite (proj2 (Z.ltb_lt _ _)) by lia. done.
Qed.

(** ** Temporary passwords *)

Definition ascii_list (l : list Z) : Prop := Forall (λ b, 0 <= b < 128) l.

Lemma ascii_valid l : ascii_list l → utf8_valid_bytes l = true.
Proof.
  induction 1 as [|b l Hb _ IH]; [done|]. simpl. by rewrite (proj2 (Z.ltb_lt _ _)) by lia.
Qed.

Lemma ascii_count l : ascii_list l → rune_count l = Z.of_nat (length l).
Proof.
  induction 1 as [|b l Hb Hl IH]; [done|]. cbn [length].
  assert (∀ lo hi, 128 <= lo → between lo hi b = false) as Hno.
  { intros lo hi Hlo. unfold between. apply andb_false_iff. left. apply Z.leb_gt. lia. }
  transitivity (1 + rune_count l); [|lia]. cbn [rune_count]. f_equal.
  destruct l as [|b1 [|b2 [|b3 l]]]; rewrite ?Hno by lia; done.
Qed.

Lemma base64_digit_ascii d : 0 <= d → 0 <= base64_digit d < 128.
Proof. intros Hd. unfold base64_digit. repeat case_match; lia. Qed.

(** Three bytes become four digits. *)
Lemma base64_raw_groups n l :
  length l = (3 * n)%nat → Forall (λ b, 0 <= b) l → ascii_list (base64_raw l) ∧ length (base64_raw l) = (4 * n)%nat.
Proof.
  revert l. induction n as [|n IH]; intros l Hlen Hl.
  { apply nil_length_inv in Hlen as ->. split; [constructor|done]. }
  destruct l as [|a [|b [|c rest]]]; try (simpl in Hlen; lia). cbn [length] in Hlen.
  apply Forall_cons in Hl as [Ha Hl]. apply Forall_cons in Hl as [Hb Hl]. apply Forall_cons in Hl as [Hc Hl].
  destruct (IH rest) as [Hr Hrl]; [lia|done|]. cbn [base64_raw]. split; [|rewrite length_app, Hrl; simpl; lia].
  apply Forall_app. split; [|done]. repeat (constructor; [apply base64_digit_ascii|]); [..|constructor];
    rewrite ?Z.lor_nonneg, ?Z.shiftl_nonneg, ?Z.shiftr_nonneg, ?Z.land_nonneg; lia.
Qed.

(** A generated password is 32 bytes long and satisfies the rule for passwords. *)
Theorem temporary_passwords_are_valid random :
  (temporaryPasswordBytes <= length random)%nat → Forall (λ b, 0 <= b < 256) random →
  ValidatePassword (GenerateTemporaryPassword random) = true
  ∧ length (bytes (GenerateTemporaryPassword random)) = temporaryPasswordLength.
Proof.
  intros Hlen Hr. unfold GenerateTemporaryPassword, temporaryPasswordBytes, temporaryPasswordLength in *.
  destruct (base64_raw_groups 8 (take 24 random)) as [Ha Hl].
  { rewrite length_take. lia. }
  { apply Forall_take. eapply Forall_impl; [done|]. simpl. lia. }
  rewrite take_ge by lia. set (out := base64_raw (take 24 random)) in *.
  assert (bytes (string_of_bytes out) = out) as Hb.
  { apply bytes_string_of_bytes. eapply Forall_impl; [exact Ha|]. simpl. lia. }
  unfold ValidatePassword, utf8_valid, RuneCountInString. rewrite Hb, (ascii_valid out Ha), (ascii_count out Ha), Hl. done.
Qed.
