(* ===== verification/AuthExamples.v ===== *)
(** * Users and roles on concrete tables

    Two organizations, built by the operations themselves: the boot reconciliation, two
    administrators with organizations of their own, a custom role, a user and a site
    assignment. The theorems of the Auth files apply to them. *)

From S2P Require Import Prelude GoSort Errors RolloutBehavior RolloutBehaviorFacts CommandFilter GoTime.
From S2P Require Import AuthzPermissions AuthzStore AuthzService AuthService.
From S2P Require Import AuthzResolverFacts AuthRequests AuthEffects AuthFrame AuthInvariant.
From S2P Require Import AuthzReconcileFacts AuthSafety AuthRecovery AuthAttempts.
From S2P Require Import AuthTokenFacts.
#[local] Open Scope string_scope.
#[local] Open Scope list_scope.
#[local] Open Scope Z_scope.
#[local] Open Scope go_scope.

#[local] Instance ascii_collation : Collation := {| sql_LOWER := fold |}.

(** A transparent hash; passwords past 72 bytes are refused. *)
#[local] Instance plain_env : AuthEnv := {|
  bcrypt_Generate := λ p, if (72 <? length (bytes p))%nat then None else Some ("hash:" +:+ p);
  bcrypt_Compare := λ h p, bool_decide (h = "hash:" +:+ p);
  active_tickets := λ _ _, 0
|}.

Definition day : Z := 24 * 3600.

Definition empty_db : AuthDB :=
  {| au_users := ∅; au_organizations := ∅; au_roles := ∅; au_permissions := ∅; au_role_permissions := ∅;
     au_memberships := ∅; au_assignments := ∅; au_sessions := ∅ |}.

Definition booted_db : AuthDB := (Reconcile empty_db).2.

(** One organization, with its administrator. *)
Definition one_org_db : AuthDB :=
  Eval vm_compute in (CreateAdminUser "u-ada" "org-00001" "ada" "correct horse" booted_db).2.

(** A second organization, with its own. *)
Definition two_org_db : AuthDB :=
  Eval vm_compute in (CreateAdminUserWithOrganization "u-bob" "bob" "hash:b" "Other" "org-00002" one_org_db).2.

Lemma empty_auth_ok : auth_ok empty_db.
Proof.
  split; split; unfold unique_permissions; cbn; intros;
    repeat match goal with
    | H : ∅ !! _ = Some _ |- _ => by rewrite lookup_empty in H
    | H : is_Some (∅ !! _) |- _ => destruct H as [? H]
    | H : _ ∈ ∅ |- _ => by apply not_elem_of_empty in H
    end.
Qed.

Lemma one_org_auth_ok : auth_ok one_org_db.
Proof.
  apply (onboard_auth_ok "u-ada" "org-00001" "ada" "correct horse" booted_db tt); [by vm_compute|].
  apply reconcile_auth_ok, empty_auth_ok.
Qed.

Lemma two_org_auth_ok : auth_ok two_org_db.
Proof.
  apply (admin_organization_auth_ok "u-bob" "bob" "hash:b" "Other" "org-00002" one_org_db tt); [by vm_compute|].
  apply one_org_auth_ok.
Qed.

(** Access on concrete tables by evaluation. *)
Lemma may_by_evaluation db u o key rc : Has (Some (effective db u o)) key rc = true → may db u o key rc.
Proof. intros Hh. by apply effective_grants, Has_true. Qed.

Example ada_manages_roles : may two_org_db 1 1 PermRoleManage None.
Proof. apply may_by_evaluation. by vm_compute. Qed.

(** ** Requests *)

(** Ada gives a new user, number 3, the role of a field technician. *)
Definition hire : AuthRequest := ReqCreateUser (repeat 7 24) "u-cy" "cy" "3".


Lemma no_privilege_escalation_witness :
  may (serve day 1 1 hire two_org_db) 3 1 PermFleetRead (Some 7) ∧
  (may two_org_db 3 1 PermFleetRead (Some 7)
   ∨ 1 = 1 ∧ (may two_org_db 1 1 PermFleetRead (Some 7) ∨ may two_org_db 1 1 PermFleetRead None)).
Proof.
  assert (may (serve day 1 1 hire two_org_db) 3 1 PermFleetRead (Some 7)) as Hm.
  { apply may_by_evaluation. vm_compute. reflexivity. }
  split; [exact Hm|]. apply (no_privilege_escalation day 1 1 hire two_org_db 3 1 PermFleetRead (Some 7)); [|reflexivity|exact Hm].
  apply two_org_auth_ok.
Defined.

Lemma organizations_are_isolated_witness :
  may two_org_db 2 2 PermRoleManage None ∧ may (serve day 1 1 (ReqDeactivate "u-bob") two_org_db) 2 2 PermRoleManage None.
Proof.
  assert (may two_org_db 2 2 PermRoleManage None) as Hm.
  { apply may_by_evaluation. vm_compute. reflexivity. }
  split; [exact Hm|].
  apply (organizations_are_isolated day 1 1 (ReqDeactivate "u-bob") two_org_db 2 2); [apply two_org_auth_ok|reflexivity|lia|exact Hm].
Defined.

(** A year of administration in three steps. *)
Lemma hire_history : auth_history day two_org_db (Reconcile (serve day 1 1 hire two_org_db)).2.
Proof.
  exact (history_step day _ _ _ (history_step day _ _ _ (history_start day _) (step_request day _ 1 1 hire))
    (step_reconcile day (serve day 1 1 hire two_org_db))).
Qed.

Lemma auth_tables_stay_well_formed_witness :
  auth_history day two_org_db (Reconcile (serve day 1 1 hire two_org_db)).2
  ∧ auth_ok (Reconcile (serve day 1 1 hire two_org_db)).2.
Proof.
  split; [exact hire_history|].
  apply (auth_tables_stay_well_formed day two_org_db); [apply two_org_auth_ok|exact hire_history].
Defined.

(** ** Recovery *)

Lemma one_org_seat : sole_seat one_org_db 1 1.
Proof.
  assert (au_assignments one_org_db = {[1 := new_assignment 1 1 1]}) as Ea by (vm_compute; reflexivity).
  intros u o. unfold seat, seat_row. rewrite Ea. split.
  - intros (i & a & [[<- <-]%lookup_singleton_Some _] & <- & <-). done.
  - intros [-> ->]. exists 1, (new_assignment 1 1 1). rewrite lookup_singleton_eq. split_and!; try done.
Qed.

(** Another administrator of the same organization tries to remove the only super
    administrator; the seat stays and the operator can reset it. *)
Definition attack_db : AuthDB := serve day 1 1 (ReqUpdateUserRole "u-ada" "3") one_org_db.

Lemma recovery_always_works_witness :
  sole_seat attack_db 1 1 ∧ ∃ db2 row, ResetSuperAdminPassword 900 "break glass" attack_db = (Ok 1, db2)
    ∧ live_user db2 1 = Some row ∧ us_PasswordHash row = "hash:break glass".
Proof.
  destruct (recovery_always_works day one_org_db attack_db 1 1 900 "break glass" "hash:break glass")
    as (Hs & db2 & row & H1 & H2 & H3 & _).
  - apply one_org_auth_ok.
  - apply one_org_seat.
  - exact (history_step day _ _ _ (history_start day _) (step_request day one_org_db 1 1 (ReqUpdateUserRole "u-ada" "3"))).
  - reflexivity.
  - reflexivity.
  - split; [exact Hs|]. exists db2, row. split_and!; [exact H1|exact H2|exact H3].
Defined.

(** ** Attempts *)

(** Nine attempts at the end of a window and ten at the start of the next. *)
Definition burst : list (Z * Z) := (1, 0) :: repeat (1, 59 * Second) 9 ++ repeat (1, 60 * Second) 12.

Example burst_allowed : length (within 1 (59 * Second) (attempts no_attempts burst).1) = 19%nat.
Proof. by vm_compute. Qed.

Lemma password_attempts_bound_witness :
  (allow (attempts no_attempts burst).2 1 (60 * Second)).1 = false ∧
  let '(log, l) := attempts no_attempts burst in
  Z.of_nat (length (within 1 (59 * Second) log)) <= 19 ∧ Z.of_nat (size (pa_entries l)) <= max_entries ∧
  ((allow l 1 (60 * Second)).1 = false →
     max_attempts <= Z.of_nat (length (within 1 (60 * Second - passwordAttemptWindow + 1) log))
     ∨ max_entries <= Z.of_nat (size (open_windows l (60 * Second)))).
Proof.
  split; [vm_compute; reflexivity|]. apply (password_attempts_bound burst 1 (59 * Second) (60 * Second)).
  - repeat (constructor; [|repeat constructor; vm_compute; discriminate]). constructor.
  - repeat constructor; vm_compute; discriminate.
Defined.

(** ** Logins *)

Definition login_state : AuthState :=
  {| at_db := one_org_db; at_loginAttempts := no_attempts; at_stepUpAttempts := no_attempts |}.

Definition ada_row : UserRow := default (new_user "" "" "") (live_user one_org_db 1).
Definition ada_snapshot : LoginSnapshot := {| sn_User := 1; sn_Org := 1; sn_PasswordUpdatedAt := None |}.

(** The user renames herself between the read and the transaction. *)
Definition renamed_db : AuthDB := serve day 1 1 (ReqUpdateUsername "ada2") one_org_db.

Lemma session_needs_the_current_password_witness :
  (∃ sess db', RunInTx (login_tx day 100 "sid" ada_snapshot) renamed_db = (Ok sess, db')) ∧
  match RunInTx (login_tx day 100 "sid" ada_snapshot) renamed_db with
  | (Ok sess, db') => se_UserID sess = 1 ∧ au_sessions db' = <["sid" := sess]> (au_sessions renamed_db) ∧
      ∃ current, live_user renamed_db 1 = Some current ∧ bcrypt_Compare (us_PasswordHash current) "correct horse" = true
  | (Err _, db') => db' = renamed_db
  end.
Proof.
  split; [by eexists _, _; vm_compute|].
  eapply (session_needs_the_current_password day login_state _ renamed_db "ada" "correct horse" ada_snapshot ada_row 90).
  - apply one_org_auth_ok.
  - vm_compute. reflexivity.
  - exact (later_more day (us_PasswordUpdatedAt ada_row) _ _ _ (later_start day _ _)
      (later_request day (us_PasswordUpdatedAt ada_row) one_org_db 1 1 (ReqUpdateUsername "ada2") (λ _ _, I))).
Defined.

(** A reset in between refuses the login. *)
Example reset_refuses_login :
  (RunInTx (login_tx day 100 "sid" ada_snapshot)
    (serve day 1 1 (ReqResetPassword 95 (repeat 7 24) "u-ada") one_org_db)).1 = Err denied.
Proof. by vm_compute. Qed.

Lemma temporary_passwords_are_valid_witness :
  ValidatePassword (GenerateTemporaryPassword (repeat 7 24)) = true
  ∧ length (bytes (GenerateTemporaryPassword (repeat 7 24))) = temporaryPasswordLength.
Proof.
  apply temporary_passwords_are_valid; [vm_compute; lia|]. repeat constructor; vm_compute; (reflexivity || discriminate).
Defined.

(** ** Scopes *)

(** A grant at one site is subsumed by the same grant for the organization. *)
Example site_grant_is_subsumed_by_org_grant :
  IsSubsumedBy (Some {| orgScope := ∅; bySite := {[ 7 := {[ PermFleetRead ]} ]} |})
               (Some {| orgScope := {[ PermFleetRead ]}; bySite := ∅ |}) = Some true.
Proof. by vm_compute. Qed.

(** A site assignment narrows the organization's grant at its site, and only there. *)
Definition narrowed_db : AuthDB := (AssignRole 1 1 3 ScopeSite (Some 7) one_org_db).2.

Example site_assignment_narrows :
  map (λ rc, Has (Some (effective narrowed_db 1 1)) PermRoleManage rc) [None; Some 7; Some 8] = [true; false; true].
Proof. by vm_compute. Qed.
