(* ===== verification/ChannelStore.v ===== *)
(** * Release channels: tables, views and statements

    The channel half of [sqlc/queries/release_channel*.sql] and the views of
    [migrations/000148_release_channels.up.sql]: placements of devices, the selectors
    that match them, the channel each miner belongs to, and the statements channel
    editing runs. The device tables are read only ([ChannelFleet]); the rollout tables
    are those of [RolloutStore], which deleting a channel cascades to. The order in which
    a query returns its rows is left out where its callers use them as a set. *)

From S2P Require Import Prelude GoSort Float64 Errors RolloutBehavior RolloutStore.
#[local] Open Scope string_scope.
#[local] Open Scope list_scope.
#[local] Open Scope Z_scope.
#[local] Open Scope go_scope.

(** ** Devices *)

(** [device] joined with its [discovered_device]. *)
Record FleetDevice := {
  fd_ID : Z;
  fd_OrgID : Z;
  fd_Identifier : string;
  fd_SiteID : option Z;
  fd_BuildingID : option Z;
  fd_Deleted : bool;
  fd_DiscoveredDeleted : bool;
  fd_Manufacturer : string;
  fd_Model : string;
  fd_FirmwareVersion : string
}.

Record FleetSet := { fs_ID : Z; fs_OrgID : Z; fs_Type : string; fs_Deleted : bool }.

Record SetMember := { sm_SetID : Z; sm_SetType : string; sm_OrgID : Z; sm_DeviceID : Z }.

Record FleetRack := { fk_SetID : Z; fk_BuildingID : option Z }.

(** A site or a building. *)
Record FleetPlace := { fp_ID : Z; fp_OrgID : Z; fp_Deleted : bool }.

Record ChannelFleet := {
  fl_devices : list FleetDevice;
  fl_sets : list FleetSet;
  fl_members : list SetMember;
  fl_racks : list FleetRack;
  fl_sites : list FleetPlace;
  fl_buildings : list FleetPlace
}.

(** A row of the view [release_channel_placement]. *)
Record Placement := {
  pl_OrgID : Z;
  pl_DeviceID : Z;
  pl_DeviceIdentifier : string;
  pl_SiteID : option Z;
  pl_BuildingID : option Z;
  pl_RackID : option Z
}.

(** ** Channels *)

(** A [release_channel_target] row: a place or set by id, or a miner by identifier. *)
Record ChannelTarget := {
  ct_ChannelID : Z;
  ct_TargetType : string;
  ct_TargetID : option Z;
  ct_DeviceIdentifier : option string
}.

(** The columns of a channel the rollouts do not read. *)
Record ChannelInfo := { ci_Description : string; ci_CreatedBy : Z }.

Record ChannelState := {
  cs_db : DB;
  cs_info : gmap Z ChannelInfo;
  cs_targets : list ChannelTarget;
  cs_nextChannelID : Z
}.

#[export] Instance eta_ChannelState : Eta ChannelState := λ s,
  {| cs_db := cs_db s; cs_info := cs_info s; cs_targets := cs_targets s; cs_nextChannelID := cs_nextChannelID s |}.

(** ** Views *)

Section Views.
Context (fl : ChannelFleet).

(** The LEFT JOINs of a device with its rack: the rack's set if it is live. *)
Definition rack_rows (d : FleetDevice) : list (option Z) :=
  match List.filter (λ m, (sm_OrgID m =? fd_OrgID d) && (sm_DeviceID m =? fd_ID d) && (sm_SetType m == "rack")) (fl_members fl) with
  | [] => [None]
  | ms => flat_map (λ m,
      match List.filter (λ rs, (fs_ID rs =? sm_SetID m) && negb (fs_Deleted rs)) (fl_sets fl) with
      | [] => [None]
      | sets => map (λ rs, Some (fs_ID rs)) sets
      end) ms
  end.

(** The building of a rack, of which there is one row. *)
Definition rack_building (rack : option Z) : option Z :=
  r ← rack; k ← List.find (λ k, fk_SetID k =? r) (fl_racks fl); fk_BuildingID k.

Definition placements_of (d : FleetDevice) : list Placement :=
  if fd_Deleted d || fd_DiscoveredDeleted d then []
  else map (λ rack,
    {| pl_OrgID := fd_OrgID d; pl_DeviceID := fd_ID d; pl_DeviceIdentifier := fd_Identifier d;
       pl_SiteID := fd_SiteID d;
       pl_BuildingID := match rack_building rack with Some b => Some b | None => fd_BuildingID d end;
       pl_RackID := rack |}) (rack_rows d).

Definition release_channel_placement : list Placement := flat_map placements_of (fl_devices fl).

(** Placements of the organization that satisfy a predicate. *)
Definition placed (org : Z) (p : Placement → bool) : list Z :=
  map pl_DeviceID (List.filter (λ x, (pl_OrgID x =? org) && p x) release_channel_placement).

(** The devices of the live group of the organization. *)
Definition grouped (org : Z) (ids : list Z) : list Z :=
  flat_map (λ gs, flat_map (λ gm,
      map pl_DeviceID (List.filter (λ p, pl_DeviceID p =? sm_DeviceID gm) release_channel_placement))
    (List.filter (λ gm, (sm_SetID gm =? fs_ID gs) && (sm_SetType gm == "group")) (fl_members fl)))
  (List.filter (λ gs, bool_decide (fs_ID gs ∈ ids) && (fs_OrgID gs =? org) && (fs_Type gs == "group")
     && negb (fs_Deleted gs)) (fl_sets fl)).

(** [x = ANY(ids)]; null is in no array. *)
Definition any_of (x : option Z) (ids : list Z) : bool :=
  match x with Some i => bool_decide (i ∈ ids) | None => false end.

(** A row of [release_channel_match]. *)
Record Match := { mt_ChannelID : Z; mt_OrgID : Z; mt_DeviceID : Z; mt_Specificity : Z }.

#[global] Instance Match_eq_dec : EqDecision Match.
Proof. solve_decision. Defined.

(** The devices one selector matches, and its specificity. *)
Definition selected (org : Z) (t : ChannelTarget) : list Z * Z :=
  let id := option_list (ct_TargetID t) in
  if ct_TargetType t == TargetTypeMiner then
    (placed org (λ p, bool_decide (Some (pl_DeviceIdentifier p) = ct_DeviceIdentifier t)), 1)
  else if ct_TargetType t == TargetTypeGroup then (grouped org id, 2)
  else if ct_TargetType t == TargetTypeRack then (placed org (λ p, any_of (pl_RackID p) id), 3)
  else if ct_TargetType t == TargetTypeBuilding then (placed org (λ p, any_of (pl_BuildingID p) id), 4)
  else if ct_TargetType t == TargetTypeSite then (placed org (λ p, any_of (pl_SiteID p) id), 5)
  else ([], 0).

Definition release_channel_match (s : ChannelState) : list Match :=
  flat_map (λ t,
    match db_channels (cs_db s) !! ct_ChannelID t with
    | None => []
    | Some c =>
        let '(devices, specificity) := selected (rc_OrgID c) t in
        map (λ d, {| mt_ChannelID := ct_ChannelID t; mt_OrgID := rc_OrgID c; mt_DeviceID := d;
                     mt_Specificity := specificity |}) devices
    end) (cs_targets s).

(** [GROUP BY channel_id, org_id, device_id] with the least specificity. *)
Definition group_key (m : Match) : Z * Z * Z := (mt_ChannelID m, mt_OrgID m, mt_DeviceID m).

Definition minimum (l : list Z) : Z := match l with [] => 0 | x :: rest => fold_left Z.min rest x end.

Definition per_channel (s : ChannelState) : list Match :=
  map (λ k, {| mt_ChannelID := k.1.1; mt_OrgID := k.1.2; mt_DeviceID := k.2;
               mt_Specificity := minimum (map mt_Specificity
                 (List.filter (λ m, bool_decide (group_key m = k)) (release_channel_match s))) |})
    (remove_dups (map group_key (release_channel_match s))).

(** The window functions of [release_channel_resolution]. *)
Definition rivals (s : ChannelState) (m : Match) : list Match :=
  List.filter (λ x, (mt_OrgID x =? mt_OrgID m) && (mt_DeviceID x =? mt_DeviceID m)) (per_channel s).

Definition best (s : ChannelState) (m : Match) : Z := minimum (map mt_Specificity (rivals s m)).
Definition at_level (s : ChannelState) (m : Match) : Z :=
  Z.of_nat (length (List.filter (λ x, mt_Specificity x =? mt_Specificity m) (rivals s m))).
Definition channels (s : ChannelState) (m : Match) : Z := Z.of_nat (length (rivals s m)).

Record Member := { mm_ChannelID : Z; mm_OrgID : Z; mm_DeviceID : Z; mm_Conflicted : bool }.

Definition release_channel_member (s : ChannelState) : list Member :=
  map (λ m, {| mm_ChannelID := mt_ChannelID m; mm_OrgID := mt_OrgID m; mm_DeviceID := mt_DeviceID m;
               mm_Conflicted := 1 <? channels s m |})
    (List.filter (λ m, (mt_Specificity m =? best s m) && (at_level s m =? 1)) (per_channel s)).

Definition ResolutionWinner := "winner".
Definition ResolutionLoser := "loser".
Definition ResolutionExcludedTie := "excluded_tie".

Definition release_channel_conflict (s : ChannelState) : list (Match * string) :=
  map (λ m, (m, if (mt_Specificity m =? best s m) && (at_level s m =? 1) then ResolutionWinner
                else if mt_Specificity m =? best s m then ResolutionExcludedTie else ResolutionLoser))
    (List.filter (λ m, 1 <? channels s m) (per_channel s)).

(** ** Reads of the device tables *)

Definition places_by_ids (places : list FleetPlace) (org : Z) (ids : list Z) : list Z :=
  map fp_ID (List.filter (λ p, (fp_OrgID p =? org) && negb (fp_Deleted p) && bool_decide (fp_ID p ∈ ids)) places).

Definition SitesByIDs (org : Z) (ids : list Z) : list Z := places_by_ids (fl_sites fl) org ids.
Definition BuildingsByIDs (org : Z) (ids : list Z) : list Z := places_by_ids (fl_buildings fl) org ids.

Definition DeviceSetsByIDs (org : Z) (set_type : string) (ids : list Z) : list Z :=
  map fs_ID (List.filter (λ s, (fs_OrgID s =? org) && (fs_Type s == set_type) && negb (fs_Deleted s)
    && bool_decide (fs_ID s ∈ ids)) (fl_sets fl)).

Definition ListDeviceIDsByIdentifiers (org : Z) (identifiers : list string) : list (Z * string) :=
  map (λ p, (pl_DeviceID p, pl_DeviceIdentifier p))
    (List.filter (λ p, (pl_OrgID p =? org) && bool_decide (pl_DeviceIdentifier p ∈ identifiers)) release_channel_placement).

(** A row of [ResolveReleaseChannelScope], without the firmware version. *)
Record ScopeRow := {
  sr_DeviceID : Z;
  sr_Manufacturer : string;
  sr_Model : string;
  sr_OwnerChannelID : Z;
  sr_OwnerChannelName : string
}.

(** The miners a candidate scope covers: the common table expression [scoped]. *)
Definition scoped (org : Z) (scope : Scope) : list Z :=
  remove_dups
    (placed org (λ p, bool_decide (pl_DeviceIdentifier p ∈ DeviceIdentifiers scope)
       || any_of (pl_RackID p) (RackIDs scope) || any_of (pl_BuildingID p) (BuildingIDs scope)
       || any_of (pl_SiteID p) (SiteIDs scope))
     ++ grouped org (GroupIDs scope)).

(** The other channels that match a device. *)
Definition owners (s : ChannelState) (org exclude device : Z) : list Z :=
  remove_dups (map mt_ChannelID (List.filter (λ m, (mt_OrgID m =? org) && (mt_DeviceID m =? device)
    && negb (mt_ChannelID m =? exclude)) (release_channel_match s))).

Definition channel_name (s : ChannelState) (id : Z) : string := default "" (rc_Name <$> db_channels (cs_db s) !! id).

Definition ResolveReleaseChannelScope (s : ChannelState) (org : Z) (scope : Scope) (exclude : Z) : list ScopeRow :=
  flat_map (λ device,
    flat_map (λ d,
      let row owner name := {| sr_DeviceID := device; sr_Manufacturer := fd_Manufacturer d; sr_Model := fd_Model d;
                               sr_OwnerChannelID := owner; sr_OwnerChannelName := name |} in
      match owners s org exclude device with
      | [] => [row 0 ""]
      | os => map (λ o, row o (channel_name s o)) os
      end) (List.filter (λ d, fd_ID d =? device) (fl_devices fl)))
  (scoped org scope).

End Views.

(** ** Statements *)

Definition channel_row (id org : Z) (name : string) (b : Behavior) : ReleaseChannel :=
  {| rc_ID := id; rc_OrgID := org; rc_Name := name; rc_Method := Method b; rc_OrderBy := Order b;
     rc_BatchSize := BatchSize b; rc_PilotSize := PilotSize b;
     rc_WaitBetweenBatchesSeconds := WaitBetweenBatchesSeconds b;
     rc_ReviewAfterEachBatch := ReviewAfterEachBatch b; rc_AutoContinue := AutoContinue b;
     rc_StabilizationSeconds := StabilizationSeconds b;
     rc_MaxHashrateDropPercent := MaxHashrateDropPercent (BThresholds b);
     rc_MaxEfficiencyIncreasePercent := MaxEfficiencyIncreasePercent (BThresholds b);
     rc_MaxTempIncreaseC := MaxTempIncreaseC (BThresholds b);
     rc_MaxNewErrors := MaxNewErrors (BThresholds b);
     rc_MinSampleCoveragePercent := MinSampleCoveragePercent (BThresholds b);
     rc_MaxConcurrentOffline := MaxConcurrentOffline b;
     rc_ControllerTimeoutSeconds := ControllerTimeoutSeconds b |}.

(** [UNIQUE (org_id, name)], but for the row itself. *)
Definition channel_name_taken (self org : Z) (name : string) (s : ChannelState) : bool :=
  existsb (λ kv, negb (kv.1 =? self) && (rc_OrgID kv.2 =? org) && (rc_Name kv.2 == name))
    (map_to_list (db_channels (cs_db s))).

Inductive ChannelDbError := ErrNoChannel | ErrNameTaken.

Definition put_channel (id : Z) (row : ReleaseChannel) (info : ChannelInfo) (s : ChannelState) : ChannelState :=
  s <| cs_db := (cs_db s) <| db_channels := <[id := row]> (db_channels (cs_db s)) |> |>
    <| cs_info := <[id := info]> (cs_info s) |>.

Definition CreateReleaseChannel (org : Z) (name description : string) (createdBy : Z) (b : Behavior) :
    M ChannelState ChannelDbError Z := λ s,
  let id := cs_nextChannelID s in
  if channel_name_taken id org name s then (Err ErrNameTaken, s)
  else (Ok id, (put_channel id (channel_row id org name b)
                  {| ci_Description := description; ci_CreatedBy := createdBy |} s)
                 <| cs_nextChannelID := id + 1 |>).

Definition UpdateReleaseChannel (id org : Z) (name description : string) (b : Behavior) :
    M ChannelState ChannelDbError unit := λ s,
  match db_channels (cs_db s) !! id with
  | Some c =>
      if negb (rc_OrgID c =? org) then (Err ErrNoChannel, s)
      else if channel_name_taken id org name s then (Err ErrNameTaken, s)
      else (Ok tt, put_channel id (channel_row id org name b)
             {| ci_Description := description;
                ci_CreatedBy := default 0 (ci_CreatedBy <$> cs_info s !! id) |} s)
  | None => (Err ErrNoChannel, s)
  end.

Definition DeleteReleaseChannelTargets (id : Z) (s : ChannelState) : ChannelState :=
  s <| cs_targets := List.filter (λ t, negb (ct_ChannelID t =? id)) (cs_targets s) |>.

(** [INSERT ... ON CONFLICT DO NOTHING] on the unique indexes of the targets. *)
Definition same_target (t u : ChannelTarget) : bool :=
  (ct_ChannelID t =? ct_ChannelID u) && (ct_TargetType t == ct_TargetType u)
  && bool_decide (ct_TargetID t = ct_TargetID u) && bool_decide (ct_DeviceIdentifier t = ct_DeviceIdentifier u).

Definition insert_target (s : ChannelState) (t : ChannelTarget) : ChannelState :=
  if existsb (same_target t) (cs_targets s) then s else s <| cs_targets := cs_targets s ++ [t] |>.

Definition InsertReleaseChannelTargets (id : Z) (pairs : list (string * Z)) (s : ChannelState) : ChannelState :=
  fold_left insert_target (map (λ p, {| ct_ChannelID := id; ct_TargetType := p.1; ct_TargetID := Some p.2;
                                        ct_DeviceIdentifier := None |}) pairs) s.

Definition InsertReleaseChannelMinerTargets (id : Z) (identifiers : list string) (s : ChannelState) : ChannelState :=
  fold_left insert_target (map (λ x, {| ct_ChannelID := id; ct_TargetType := TargetTypeMiner; ct_TargetID := None;
                                        ct_DeviceIdentifier := Some x |}) identifiers) s.

(** The targets of one channel of the organization. *)
Definition ListReleaseChannelPageTargets (org id : Z) (s : ChannelState) : list TargetRow :=
  match db_channels (cs_db s) !! id with
  | Some c =>
      if rc_OrgID c =? org then
        map (λ t, {| TargetType := ct_TargetType t; TargetID := default 0 (ct_TargetID t);
                     RowDeviceIdentifier := default "" (ct_DeviceIdentifier t) |})
          (List.filter (λ t, ct_ChannelID t =? id) (cs_targets s))
      else []
  | None => []
  end.

(** *** Deletion *)

Definition rollout_of_channel (db : DB) (id rollout : Z) : bool :=
  match db_rollouts db !! rollout with Some r => fr_ChannelID r =? id | None => false end.

Definition ActiveRollouts (id : Z) (db : DB) : bool :=
  existsb (λ kv, (fr_ChannelID kv.2 =? id) && (fr_Status kv.2 == StatusActive)) (map_to_list (db_rollouts db)).

(** An outstanding update of a target of the channel, or one it reserves for. *)
Definition PendingCommands (id : Z) (db : DB) : bool :=
  existsb (λ d, rollout_of_channel db id (dr_RolloutID d)
      && match dr_LastDispatchedBatchUuid d with
         | Some batch => w_pending (db_world db) (dr_DeviceID d) batch | None => false end) (db_devices db)
  || existsb (λ r, (rs_ChannelID r =? id) && w_pending (db_world db) (rs_DeviceID r) (rs_BatchUuid r)) (db_reservations db).

(** The row and what references it: [ON DELETE CASCADE] everywhere, [SET NULL] for the
    provenance of devices. The triggers would touch only rollouts that are gone. *)
Definition DeleteReleaseChannel (id org : Z) (s : ChannelState) : ChannelState :=
  match db_channels (cs_db s) !! id with
  | Some c =>
      if negb (rc_OrgID c =? org) then s
      else
        let db := cs_db s in
        let gone := rollout_of_channel db id in
        s <| cs_targets := List.filter (λ t, negb (ct_ChannelID t =? id)) (cs_targets s) |>
          <| cs_info := delete id (cs_info s) |>
          <| cs_db := db <| db_channels := delete id (db_channels db) |>
                         <| db_rollouts := filter (λ kv, fr_ChannelID kv.2 ≠ id) (db_rollouts db) |>
                         <| db_devices := List.filter (λ d, negb (gone (dr_RolloutID d))) (db_devices db) |>
                         <| db_deployments := (λ dep,
                              if match dep_RolloutID dep with Some r => gone r | None => false end
                              then {| dep_FirmwareChecksum := dep_FirmwareChecksum dep;
                                      dep_FirmwareVersion := dep_FirmwareVersion dep;
                                      dep_RolloutID := None; dep_DeployedAt := dep_DeployedAt dep |}
                              else dep) <$> db_deployments db |>
                         <| db_assignments := List.filter (λ a, negb (as_ChannelID a =? id)) (db_assignments db) |>
                         <| db_reservations := List.filter (λ r, negb (rs_ChannelID r =? id)) (db_reservations db) |>
                         <| db_events := List.filter (λ e, negb (ev_ChannelID e =? id) && negb (gone (ev_RolloutID e)))
                              (db_events db) |> |>
  | None => s
  end.
