(* ===== verification/ChannelService.v ===== *)
(** * Release channels: editing

    The channel half of [internal/domain/rollout/service.go]: creation, replacement and
    deletion of channels, validation of their selectors, rejection of overlaps, and the
    preview of a scope. Every edit holds [LockReleaseChannelScopes] for its whole
    transaction, so an edit is one step on the state. Errors of the database other than
    the ones the code tells apart are left out, as is the text of messages. *)

From S2P Require Import Prelude GoSort Float64 Errors RolloutBehavior RolloutStore RolloutTargets.
From S2P Require Import RolloutEngine ChannelStore.
#[local] Open Scope string_scope.
#[local] Open Scope list_scope.
#[local] Open Scope Z_scope.
#[local] Open Scope go_scope.

Definition ReasonScopeOverlap := "scope_overlap".
Definition PreviewListLimit : nat := 100.

Definition NewAlreadyExistsError : FleetError := NewPlainError CodeAlreadyExists.

Record ChannelSpec := {
  cp_Name : string;
  cp_Description : string;
  cp_Scope : Scope;
  cp_Behavior : Behavior
}.

Record ModelCount := { mc_Manufacturer : string; mc_Model : string; mc_MinerCount : Z }.
Record ScopeConflict := { sc_ChannelID : Z; sc_ChannelName : string; sc_MinerCount : Z }.

Record ScopePreview := {
  sv_MinerCount : Z;
  sv_Models : list ModelCount;
  sv_Conflicts : list ScopeConflict;
  sv_ModelCount : Z;
  sv_ConflictCount : Z
}.

(** A channel as callers see it, without its timestamps. *)
Record Channel := {
  ch_ID : Z;
  ch_Name : string;
  ch_Description : string;
  ch_Scope : Scope;
  ch_Behavior : Behavior;
  ch_MinerCount : Z;
  ch_ModelGroupCount : Z
}.

#[export] Instance eta_Channel : Eta Channel := λ c,
  {| ch_ID := ch_ID c; ch_Name := ch_Name c; ch_Description := ch_Description c; ch_Scope := ch_Scope c;
     ch_Behavior := ch_Behavior c; ch_MinerCount := ch_MinerCount c; ch_ModelGroupCount := ch_ModelGroupCount c |}.

Definition COp : Type → Type := M ChannelState FleetError.

Definition spec_validate (spec : ChannelSpec) : result FleetError ChannelSpec :=
  let name := TrimSpace (cp_Name spec) in
  if name == "" then Err NewInvalidArgumentError
  else
    b ← validate (cp_Behavior spec);
    Ok {| cp_Name := name; cp_Description := TrimSpace (cp_Description spec);
          cp_Scope := normalize (cp_Scope spec); cp_Behavior := b |}.

(** [GetReleaseChannel] and [channelLookupError]. *)
Definition find_channel (org id : Z) (s : ChannelState) : option ReleaseChannel :=
  c ← db_channels (cs_db s) !! id; if rc_OrgID c =? org then Some c else None.

Definition get_channel (org id : Z) : COp ReleaseChannel :=
  found ← gets (find_channel org id);
  match found with Some c => mret c | None => fail channelLookupError end.

Definition loadChannelScope (org id : Z) (s : ChannelState) : Scope :=
  scopeFromTargets (ListReleaseChannelPageTargets org id s).

Section Service.
Context (fl : ChannelFleet).

(** ** Selectors *)

(** The live rows of one dimension among the ids asked for. *)
Definition found_selectors (org : Z) (kind : string) (ids : list Z) : list Z :=
  if kind == TargetTypeSite then SitesByIDs fl org ids
  else if kind == TargetTypeBuilding then BuildingsByIDs fl org ids
  else DeviceSetsByIDs fl org kind ids.

Definition added_ids (kind : string) (ids : list Z) (saved : Scope) : list Z :=
  List.filter (λ id, negb (bool_decide ((kind, id) ∈ targets saved))) ids.

Definition dimension_ok (org : Z) (saved : Scope) (dimension : string * list Z) : bool :=
  let '(kind, ids) := dimension in
  let additions := added_ids kind ids saved in
  bool_decide (additions = []) || bool_decide (length (found_selectors org kind additions) = length additions).

Definition dimensions (scope : Scope) : list (string * list Z) :=
  [(TargetTypeSite, SiteIDs scope); (TargetTypeBuilding, BuildingIDs scope);
   (TargetTypeRack, RackIDs scope); (TargetTypeGroup, GroupIDs scope)].

Definition added_miners (scope saved : Scope) : list string :=
  List.filter (λ x, negb (bool_decide (x ∈ DeviceIdentifiers saved))) (DeviceIdentifiers scope).

Definition miners_ok (org : Z) (added : list string) : bool :=
  bool_decide (added = [])
  || let devices := ListDeviceIDsByIdentifiers fl org added in
     bool_decide (length devices = length added) || forallb (λ x, bool_decide (x ∈ map snd devices)) added.

Definition validateScopeTargets (org : Z) (scope saved : Scope) : result FleetError unit :=
  if IsEmpty scope then Ok tt
  else if negb (forallb (dimension_ok org saved) (dimensions scope)) then Err NewInvalidArgumentError
  else if negb (miners_ok org (added_miners scope saved)) then Err NewInvalidArgumentError
  else Ok tt.

Definition replaceTargets (id : Z) (scope : Scope) (s : ChannelState) : ChannelState :=
  let s := DeleteReleaseChannelTargets id s in
  let s := if bool_decide (targets scope = []) then s else InsertReleaseChannelTargets id (targets scope) s in
  if bool_decide (DeviceIdentifiers scope = []) then s
  else InsertReleaseChannelMinerTargets id (DeviceIdentifiers scope) s.

(** ** Overlaps *)

Definition resolveScope (s : ChannelState) (org : Z) (scope : Scope) (exclude : Z) : list ScopeRow :=
  if IsEmpty scope then [] else ResolveReleaseChannelScope fl s org scope exclude.

Definition conflictKey (r : ScopeRow) : Z * Z := (sr_DeviceID r, sr_OwnerChannelID r).

Definition owned (r : ScopeRow) : bool := negb (sr_OwnerChannelID r =? 0).

(** The conflict relations the scope has and the saved scope has not. *)
Definition new_conflicts (rows previous : list ScopeRow) : list ScopeRow :=
  let retained := map conflictKey (List.filter owned previous) in
  List.filter (λ r, owned r && negb (bool_decide (conflictKey r ∈ retained))) rows.

Definition rejectOverlap (s : ChannelState) (org : Z) (scope : Scope) (exclude : Z) (saved : Scope) :
    result FleetError unit :=
  let rows := resolveScope s org scope exclude in
  if negb (existsb owned rows) then Ok tt
  else
    let previous := resolveScope s org saved exclude in
    if bool_decide (length (new_conflicts rows previous) = 0%nat) then Ok tt
    else Err (reason CodeFailedPrecondition
                {| Reason := ReasonScopeOverlap; CurrentRevision := 0; ErrDeviceIdentifiers := [] |}).

(** ** Summaries *)

(** The observed manufacturer and model of each member of the channel. *)
Definition member_models (org id : Z) (s : ChannelState) : list (string * string) :=
  flat_map (λ m, map (λ d, (fd_Manufacturer d, fd_Model d))
      (List.filter (λ d, fd_ID d =? mm_DeviceID m) (fl_devices fl)))
    (List.filter (λ m, (mm_OrgID m =? org) && (mm_ChannelID m =? id)) (release_channel_member fl s)).

(** [GROUP BY channel_id, manufacturer, model], for one channel. *)
Definition ListReleaseChannelPageMemberModels (org id : Z) (s : ChannelState) : list (string * string * Z) :=
  let all := member_models org id s in
  map (λ k, (k, Z.of_nat (length (List.filter (λ x, bool_decide (x = k)) all)))) (remove_dups all).

Definition ListReleaseChannelPageFirmware (org id : Z) (s : ChannelState) : list ReleaseChannelFirmware :=
  match find_channel org id s with
  | None => []
  | Some _ => List.filter (λ f, (as_ChannelID f =? id) && (as_FirmwareChecksum f != "")) (db_assignments (cs_db s))
  end.

Definition buildChannelSummary (org : Z) (s : ChannelState) (row : ReleaseChannel) : Channel :=
  let members := ListReleaseChannelPageMemberModels org (rc_ID row) s in
  let firmware := ListReleaseChannelPageFirmware org (rc_ID row) s in
  let observed := remove_dups (map fst members) in
  let foldeds := map (λ m, folded {| Manufacturer := TrimSpace m.1.1; Model := TrimSpace m.1.2 |}) members in
  let unobserved := List.filter (λ f, (as_FirmwareChecksum f != "")
    && negb (bool_decide (folded {| Manufacturer := as_Manufacturer f; Model := as_Model f |} ∈ foldeds))) firmware in
  {| ch_ID := rc_ID row; ch_Name := rc_Name row;
     ch_Description := default "" (ci_Description <$> cs_info s !! rc_ID row);
     ch_Scope := empty_scope; ch_Behavior := behaviorFromChannel row;
     ch_MinerCount := fold_left (λ n m, int32 (n + m.2)) members 0;
     ch_ModelGroupCount := fold_left (λ n _, int32 (n + 1)) unobserved (int32 (Z.of_nat (length observed))) |}.

Definition buildChannelSummaries (org : Z) (rows : list ReleaseChannel) (s : ChannelState) : list Channel :=
  map (buildChannelSummary org s) rows.

Definition GetChannel (org id : Z) : COp Channel :=
  row ← get_channel org id;
  gets (λ s, (buildChannelSummary org s row) <| ch_Scope := loadChannelScope org id s |>).

(** ** Edits *)

Definition dbError (e : ChannelDbError) : FleetError :=
  match e with ErrNoChannel => channelLookupError | ErrNameTaken => NewAlreadyExistsError end.

(** A statement whose failures the service maps to its own. *)
Definition channel_query {A} (m : M ChannelState ChannelDbError A) : COp A := λ s,
  match m s with (Ok a, s') => (Ok a, s') | (Err e, s') => (Err (dbError e), s') end.

Definition create_channel_tx (org user : Z) (spec : ChannelSpec) : COp Z :=
  _ ← lift (validateScopeTargets org (cp_Scope spec) empty_scope);
  overlap ← gets (λ s, rejectOverlap s org (cp_Scope spec) 0 empty_scope);
  _ ← lift overlap;
  id ← channel_query (CreateReleaseChannel org (cp_Name spec) (cp_Description spec) user (cp_Behavior spec));
  _ ← modify (replaceTargets id (cp_Scope spec));
  mret id.

Definition CreateChannel (org user : Z) (spec : ChannelSpec) : COp Channel :=
  spec ← lift (spec_validate spec);
  id ← RunInTx (create_channel_tx org user spec);
  GetChannel org id.

Definition update_channel_tx (org id : Z) (spec : ChannelSpec) : COp unit :=
  _ ← get_channel org id;
  saved ← gets (loadChannelScope org id);
  _ ← lift (validateScopeTargets org (cp_Scope spec) saved);
  overlap ← gets (λ s, rejectOverlap s org (cp_Scope spec) id saved);
  _ ← lift overlap;
  _ ← channel_query (UpdateReleaseChannel id org (cp_Name spec) (cp_Description spec) (cp_Behavior spec));
  modify (replaceTargets id (cp_Scope spec)).

Definition UpdateChannel (org id : Z) (spec : ChannelSpec) : COp Channel :=
  spec ← lift (spec_validate spec);
  _ ← RunInTx (update_channel_tx org id spec);
  GetChannel org id.

Definition delete_channel_tx (org id : Z) : COp unit :=
  _ ← get_channel org id;
  active ← gets (λ s, ActiveRollouts id (cs_db s));
  pending ← gets (λ s, PendingCommands id (cs_db s));
  if active : bool then fail NewFailedPreconditionError
  else if pending : bool then fail NewFailedPreconditionError
  else modify (DeleteReleaseChannel id org).

Definition DeleteChannel (org id : Z) : COp unit := RunInTx (delete_channel_tx org id).

(** ** Previews *)

(** [m.MinerCount++] in a map of counts that starts without the key. *)
Fixpoint bump {A} (same : A → bool) (incr : A → A) (new : A) (l : list A) : list A :=
  match l with
  | [] => [incr new]
  | a :: rest => if same a then incr a :: rest else a :: bump same incr new rest
  end.

Definition model_key (m : ModelCount) : PairKey := {| Manufacturer := mc_Manufacturer m; Model := mc_Model m |}.

Definition bump_model (manufacturer model : string) : list ModelCount → list ModelCount :=
  bump (λ m, model_key m == {| Manufacturer := manufacturer; Model := model |})
    (λ m, {| mc_Manufacturer := mc_Manufacturer m; mc_Model := mc_Model m; mc_MinerCount := int32 (mc_MinerCount m + 1) |})
    {| mc_Manufacturer := manufacturer; mc_Model := model; mc_MinerCount := 0 |}.

Definition bump_conflict (id : Z) (name : string) : list ScopeConflict → list ScopeConflict :=
  bump (λ c, sc_ChannelID c == id)
    (λ c, {| sc_ChannelID := sc_ChannelID c; sc_ChannelName := sc_ChannelName c; sc_MinerCount := int32 (sc_MinerCount c + 1) |})
    {| sc_ChannelID := id; sc_ChannelName := name; sc_MinerCount := 0 |}.

(** The maps and counters of the loop over the rows. *)
Record PreviewLoop := {
  vl_counted : list Z;
  vl_miners : Z;
  vl_models : list ModelCount;
  vl_conflicts : list ScopeConflict
}.

Definition preview_row (v : PreviewLoop) (r : ScopeRow) : PreviewLoop :=
  let fresh := negb (bool_decide (sr_DeviceID r ∈ vl_counted v)) in
  {| vl_counted := if fresh then sr_DeviceID r :: vl_counted v else vl_counted v;
     vl_miners := if fresh then int32 (vl_miners v + 1) else vl_miners v;
     vl_models := if fresh then bump_model (sr_Manufacturer r) (sr_Model r) (vl_models v) else vl_models v;
     vl_conflicts := if owned r then bump_conflict (sr_OwnerChannelID r) (sr_OwnerChannelName r) (vl_conflicts v)
                     else vl_conflicts v |}.

Definition preview_rows (rows : list ScopeRow) : PreviewLoop :=
  fold_left preview_row rows {| vl_counted := []; vl_miners := 0; vl_models := []; vl_conflicts := [] |}.

Definition model_less (a b : ModelCount) : bool :=
  if mc_Manufacturer a != mc_Manufacturer b then String.ltb (mc_Manufacturer a) (mc_Manufacturer b)
  else String.ltb (mc_Model a) (mc_Model b).

Definition conflict_less (a b : ScopeConflict) : bool := sc_ChannelID a <? sc_ChannelID b.

(** The keys of a map are distinct, so the order Go iterates it in does not show. *)
Definition summarize (rows : list ScopeRow) : ScopePreview :=
  let v := preview_rows rows in
  let models := stable_sort model_less (vl_models v) in
  let conflicts := stable_sort conflict_less (vl_conflicts v) in
  {| sv_MinerCount := vl_miners v;
     sv_Models := take PreviewListLimit models; sv_Conflicts := take PreviewListLimit conflicts;
     sv_ModelCount := int32 (Z.of_nat (length models)); sv_ConflictCount := int32 (Z.of_nat (length conflicts)) |}.

Definition PreviewScope (org : Z) (scope : Scope) (exclude : Z) : COp ScopePreview :=
  _ ← (if exclude =? 0 then mret tt else _ ← get_channel org exclude; mret tt);
  gets (λ s, summarize (resolveScope s org (normalize scope) exclude)).

End Service.
