(* ===== verification/ChannelFacts.v ===== *)
(** * What release channels match

    The relation [matches] behind the views: which channel's selectors hit which miner,
    and how specifically. Storing a scope and resolving it agree, an edit changes the
    matches of its own channel only, and membership is decided by specificity alone. *)

From S2P Require Import Prelude GoSort Float64 Errors RolloutBehavior RolloutBehaviorFacts RolloutStore.
From S2P Require Import RolloutTargets RolloutEngine ChannelStore ChannelService.
#[local] Open Scope string_scope.
#[local] Open Scope list_scope.
#[local] Open Scope Z_scope.
#[local] Open Scope go_scope.

(** ** The match relation *)

(** Channel [c] of organization [o] has a selector of specificity [k] that hits [d]. *)
Definition hits (fl : ChannelFleet) (s : ChannelState) (c o d k : Z) : Prop :=
  {| mt_ChannelID := c; mt_OrgID := o; mt_DeviceID := d; mt_Specificity := k |} ∈ release_channel_match fl s.

Definition matches (fl : ChannelFleet) (s : ChannelState) (c o d : Z) : Prop := ∃ k, hits fl s c o d k.

(** Two channels of one organization that both match a miner. *)
Definition conflict (fl : ChannelFleet) (s : ChannelState) (o d c1 c2 : Z) : Prop :=
  c1 ≠ c2 ∧ matches fl s c1 o d ∧ matches fl s c2 o d.

Lemma elem_of_flat_map {A B} (f : A → list B) l y : y ∈ flat_map f l ↔ ∃ x, x ∈ l ∧ y ∈ f x.
Proof. rewrite list_elem_of_In, in_flat_map. by setoid_rewrite <- list_elem_of_In. Qed.

Lemma elem_of_List_map {A B} (f : A → B) l y : y ∈ map f l ↔ ∃ x, y = f x ∧ x ∈ l.
Proof. apply list_elem_of_fmap. Qed.

Lemma hits_spec fl s c o d k :
  hits fl s c o d k ↔
  ∃ t row, t ∈ cs_targets s ∧ ct_ChannelID t = c ∧ db_channels (cs_db s) !! c = Some row ∧ rc_OrgID row = o
    ∧ d ∈ (selected fl o t).1 ∧ k = (selected fl o t).2.
Proof.
  unfold hits, release_channel_match. rewrite elem_of_flat_map. split.
  - intros (t & Ht & Hm). destruct (db_channels (cs_db s) !! ct_ChannelID t) as [row|] eqn:E; [|by apply elem_of_nil in Hm].
    destruct (selected fl (rc_OrgID row) t) as [ds sp] eqn:Es. apply elem_of_List_map in Hm as (x & Hx & Hd).
    injection Hx as -> -> -> ->. exists t, row. by rewrite Es.
  - intros (t & row & Ht & Hc & Hrow & Ho & Hd & ->). exists t. split; [done|]. rewrite Hc, Hrow, Ho.
    destruct (selected fl o t) as [ds sp]. apply elem_of_List_map. by exists d.
Qed.

Lemma hits_channel fl s c o d k : hits fl s c o d k → ∃ row, db_channels (cs_db s) !! c = Some row ∧ rc_OrgID row = o.
Proof. intros (t & row & _ & _ & ? & ? & _)%hits_spec. eauto. Qed.

(** Matches depend on the organizations of the channels and on the targets. *)
Lemma hits_frame fl s s' c o d k :
  (rc_OrgID <$> db_channels (cs_db s') !! c) = (rc_OrgID <$> db_channels (cs_db s) !! c) →
  (∀ t, ct_ChannelID t = c → t ∈ cs_targets s' ↔ t ∈ cs_targets s) →
  hits fl s' c o d k ↔ hits fl s c o d k.
Proof.
  intros Hc Ht. rewrite !hits_spec. split; intros (t & row & Hin & Hid & Hrow & Ho & Hd); exists t;
    rewrite Hrow in Hc; simpl in Hc.
  - destruct (db_channels (cs_db s) !! c) as [row'|]; [|done]. injection Hc as Hc. exists row'.
    rewrite <- Hc. apply (Ht t Hid) in Hin. naive_solver.
  - destruct (db_channels (cs_db s') !! c) as [row'|]; [|done]. injection Hc as Hc. exists row'.
    rewrite Hc. apply (Ht t Hid) in Hin. naive_solver.
Qed.

(** ** Scopes as selectors *)

Definition place_target (id : Z) (p : string * Z) : ChannelTarget :=
  {| ct_ChannelID := id; ct_TargetType := p.1; ct_TargetID := Some p.2; ct_DeviceIdentifier := None |}.
Definition miner_target (id : Z) (x : string) : ChannelTarget :=
  {| ct_ChannelID := id; ct_TargetType := TargetTypeMiner; ct_TargetID := None; ct_DeviceIdentifier := Some x |}.

(** The rows that store a scope. *)
Definition target_rows (id : Z) (scope : Scope) : list ChannelTarget :=
  map (place_target id) (targets scope) ++ map (miner_target id) (DeviceIdentifiers scope).

Lemma placed_elem fl org p d :
  d ∈ placed fl org p ↔ ∃ x, x ∈ release_channel_placement fl ∧ pl_OrgID x = org ∧ p x = true ∧ pl_DeviceID x = d.
Proof.
  unfold placed. rewrite elem_of_List_map. setoid_rewrite elem_of_List_filter. split.
  - intros (x & -> & Hx & Hb). crush_bools. naive_solver.
  - intros (x & Hx & <- & Hp & <-). exists x. by rewrite Z.eqb_refl, Hp.
Qed.

Lemma grouped_elem fl org ids d :
  d ∈ grouped fl org ids ↔
  ∃ g, g ∈ ids ∧ d ∈ grouped fl org [g].
Proof.
  unfold grouped. setoid_rewrite elem_of_flat_map. setoid_rewrite elem_of_List_filter. split.
  - intros (gs & [Hgs Hb] & Hd). exists (fs_ID gs). crush_bools. split; [done|]. exists gs. split; [|done].
    split; [done|]. rewrite bool_decide_true by set_solver. simpl. rewrite !andb_true_iff, negb_true_iff, Z.eqb_eq, bool_decide_eq_true. done.
  - intros (g & Hg & gs & [Hgs Hb] & Hd). exists gs. crush_bools. split; [|done]. split; [done|].
    rewrite bool_decide_true by set_solver. simpl. rewrite !andb_true_iff, negb_true_iff, Z.eqb_eq, bool_decide_eq_true. done.
Qed.

Lemma any_of_elem x ids : any_of x ids = true ↔ ∃ i, x = Some i ∧ i ∈ ids.
Proof. destruct x as [i|]; simpl; [rewrite bool_decide_eq_true|]; naive_solver. Qed.

(** What each kind of selector selects. *)
Lemma selected_miner fl org id x :
  (selected fl org (miner_target id x)).1 = placed fl org (λ p, bool_decide (Some (pl_DeviceIdentifier p) = Some x)).
Proof. reflexivity. Qed.

Lemma selected_group fl org id g : (selected fl org (place_target id (TargetTypeGroup, g))).1 = grouped fl org [g].
Proof. reflexivity. Qed.

(** The column of a placement that a kind of place compares with its id. *)
Definition place_column (kind : string) (p : Placement) : option Z :=
  if kind == TargetTypeRack then pl_RackID p else if kind == TargetTypeBuilding then pl_BuildingID p else pl_SiteID p.

Lemma selected_place fl org id kind i d :
  kind = TargetTypeRack ∨ kind = TargetTypeBuilding ∨ kind = TargetTypeSite →
  d ∈ (selected fl org (place_target id (kind, i))).1 ↔
  ∃ x, x ∈ release_channel_placement fl ∧ pl_OrgID x = org ∧ place_column kind x = Some i ∧ pl_DeviceID x = d.
Proof.
  intros Hk. transitivity (d ∈ placed fl org (λ p, any_of (place_column kind p) [i])).
  { by destruct Hk as [->|[->| ->]]. }
  rewrite placed_elem. setoid_rewrite any_of_elem. split.
  - intros (x & ? & ? & (j & ? & ->%list_elem_of_singleton) & ?). eauto.
  - intros (x & ? & ? & ? & ?). exists x. split_and!; try done. exists i. split; [done|by apply list_elem_of_singleton].
Qed.

(** The kinds of places of a scope and their ids. *)
Lemma targets_places s kind i :
  (kind, i) ∈ targets s ↔
  (kind = TargetTypeGroup ∧ i ∈ GroupIDs s)
  ∨ ((kind = TargetTypeRack ∨ kind = TargetTypeBuilding ∨ kind = TargetTypeSite)
     ∧ i ∈ (if kind == TargetTypeRack then RackIDs s else if kind == TargetTypeBuilding then BuildingIDs s else SiteIDs s)).
Proof. rewrite targets_elem. split; [naive_solver|]. intros [?|[[->|[->| ->]] ?]]; naive_solver. Qed.

(** A scope covers what one of its selectors selects. *)
Lemma scoped_elem fl org id scope d :
  d ∈ scoped fl org scope ↔ ∃ t, t ∈ target_rows id scope ∧ d ∈ (selected fl org t).1.
Proof.
  unfold scoped. rewrite elem_of_remove_dups, elem_of_app, placed_elem, grouped_elem.
  unfold target_rows. setoid_rewrite elem_of_app. setoid_rewrite elem_of_List_map. split.
  - intros [(x & Hx & Ho & Hp & Hd)|(g & Hg & Hd)].
    + rewrite !orb_true_iff, bool_decide_eq_true, !any_of_elem in Hp.
      assert (∀ kind i, kind = TargetTypeRack ∨ kind = TargetTypeBuilding ∨ kind = TargetTypeSite →
        (kind, i) ∈ targets scope → place_column kind x = Some i →
        ∃ t, ((∃ y, t = place_target id y ∧ y ∈ targets scope) ∨ (∃ y, t = miner_target id y ∧ y ∈ DeviceIdentifiers scope))
             ∧ d ∈ (selected fl org t).1) as Hplace.
      { intros kind i Hk Ht Hc. exists (place_target id (kind, i)). split; [eauto|]. apply selected_place; eauto. }
      destruct Hp as [[[Hp|(i & Hi & Hp)]|(i & Hi & Hp)]|(i & Hi & Hp)].
      * exists (miner_target id (pl_DeviceIdentifier x)). split; [eauto|]. rewrite selected_miner. apply placed_elem.
        exists x. split_and!; try done. by apply bool_decide_eq_true.
      * apply (Hplace TargetTypeRack i); auto. apply targets_places. auto.
      * apply (Hplace TargetTypeBuilding i); auto. apply targets_places. auto.
      * apply (Hplace TargetTypeSite i); auto. apply targets_places. auto.
    + exists (place_target id (TargetTypeGroup, g)). split; [|by rewrite selected_group].
      left. eexists. split; [done|]. apply targets_places. auto.
  - intros (t & [([kind i] & -> & Ht)|(x & -> & Hx)] & Hd).
    + apply targets_places in Ht as [[-> Hi]|[Hk Hi]]; [right; by exists i|left].
      apply (selected_place fl org id kind i d Hk) in Hd as (p & Hp & Ho & Hb & <-). exists p. split_and!; try done.
      rewrite !orb_true_iff, !any_of_elem. unfold place_column in Hb.
      destruct Hk as [->|[->| ->]]; simpl in Hb, Hi; eauto 6.
    + left. rewrite selected_miner in Hd. apply placed_elem in Hd as (p & Hp & Ho & Hb & <-). exists p. split_and!; try done.
      apply bool_decide_eq_true in Hb. injection Hb as Hb. by rewrite Hb, bool_decide_true.
Qed.

(** ** Storing a scope *)

Lemma same_target_eq t u : same_target t u = true ↔ t = u.
Proof.
  unfold same_target. split.
  - intros H. crush_bools. destruct t, u; simpl in *; congruence.
  - intros ->. rewrite Z.eqb_refl, !bool_decide_true; done.
Qed.

Lemma insert_target_other s t :
  cs_db (insert_target s t) = cs_db s ∧ cs_info (insert_target s t) = cs_info s
  ∧ cs_nextChannelID (insert_target s t) = cs_nextChannelID s.
Proof. unfold insert_target. by case_if. Qed.

Lemma insert_target_elem s t u : u ∈ cs_targets (insert_target s t) ↔ u = t ∨ u ∈ cs_targets s.
Proof.
  unfold insert_target. destruct (existsb _ _) eqn:E; simpl.
  - apply existsb_elem in E as (v & Hv & Hs%same_target_eq). subst v. naive_solver.
  - rewrite elem_of_app, list_elem_of_singleton. tauto.
Qed.

Lemma insert_target_NoDup s t : NoDup (cs_targets s) → NoDup (cs_targets (insert_target s t)).
Proof.
  unfold insert_target. destruct (existsb _ _) eqn:E; simpl; [done|]. intros Hn.
  apply NoDup_app. split_and!; [done| |apply NoDup_singleton]. intros u Hu ->%list_elem_of_singleton.
  enough (existsb (same_target t) (cs_targets s) = true) by congruence.
  apply existsb_elem. exists t. split; [done|]. by apply same_target_eq.
Qed.

Lemma fold_insert_other l s :
  cs_db (fold_left insert_target l s) = cs_db s ∧ cs_info (fold_left insert_target l s) = cs_info s
  ∧ cs_nextChannelID (fold_left insert_target l s) = cs_nextChannelID s.
Proof.
  revert s. induction l as [|t l IH]; intros s; simpl; [done|].
  destruct (IH (insert_target s t)) as (-> & -> & ->). apply insert_target_other.
Qed.

Lemma fold_insert_elem l s u : u ∈ cs_targets (fold_left insert_target l s) ↔ u ∈ l ∨ u ∈ cs_targets s.
Proof.
  revert s. induction l as [|t l IH]; intros s; simpl; [rewrite elem_of_nil; tauto|].
  rewrite IH, insert_target_elem, elem_of_cons. tauto.
Qed.

Lemma fold_insert_NoDup l s : NoDup (cs_targets s) → NoDup (cs_targets (fold_left insert_target l s)).
Proof. revert s. induction l as [|t l IH]; intros s Hn; simpl; [done|]. by apply IH, insert_target_NoDup. Qed.

(** Both insertions at once; with no values they insert nothing. *)
Lemma replaceTargets_eq id scope s :
  replaceTargets id scope s = fold_left insert_target (target_rows id scope) (DeleteReleaseChannelTargets id s).
Proof.
  unfold replaceTargets, target_rows, InsertReleaseChannelTargets, InsertReleaseChannelMinerTargets.
  rewrite fold_left_app. case_bool_decide as E1; case_bool_decide as E2; rewrite ?E1, ?E2; done.
Qed.

Lemma target_rows_channel id scope t : t ∈ target_rows id scope → ct_ChannelID t = id.
Proof. unfold target_rows. rewrite elem_of_app, !elem_of_List_map. by intros [(x & -> & _)|(x & -> & _)]. Qed.

Lemma replaceTargets_other id scope s :
  cs_db (replaceTargets id scope s) = cs_db s ∧ cs_info (replaceTargets id scope s) = cs_info s
  ∧ cs_nextChannelID (replaceTargets id scope s) = cs_nextChannelID s.
Proof. rewrite replaceTargets_eq. exact (fold_insert_other _ (DeleteReleaseChannelTargets id s)). Qed.

Lemma replaceTargets_elem id scope s t :
  t ∈ cs_targets (replaceTargets id scope s) ↔
  (ct_ChannelID t = id ∧ t ∈ target_rows id scope) ∨ (ct_ChannelID t ≠ id ∧ t ∈ cs_targets s).
Proof.
  rewrite replaceTargets_eq, fold_insert_elem. simpl. rewrite elem_of_List_filter, negb_true_iff, Z.eqb_neq.
  split; [|tauto]. intros [H|[? ?]]; [left|tauto]. split; [by eapply target_rows_channel|done].
Qed.

Lemma NoDup_List_filter {A} (p : A → bool) l : NoDup l → NoDup (List.filter p l).
Proof. rewrite !NoDup_ListNoDup. apply List.NoDup_filter. Qed.

Lemma replaceTargets_NoDup id scope s : NoDup (cs_targets s) → NoDup (cs_targets (replaceTargets id scope s)).
Proof. intros Hn. rewrite replaceTargets_eq. apply fold_insert_NoDup. simpl. by apply NoDup_List_filter. Qed.

(** After the targets of a channel are replaced, it matches what the scope resolves to,
    and the other channels match what they did. *)
Lemma replaceTargets_matches fl id scope s row o d :
  db_channels (cs_db s) !! id = Some row → rc_OrgID row = o →
  matches fl (replaceTargets id scope s) id o d ↔ d ∈ scoped fl o scope.
Proof.
  intros Hrow Ho. unfold matches. setoid_rewrite hits_spec. rewrite (proj1 (replaceTargets_other id scope s)).
  rewrite (scoped_elem fl o id). split.
  - intros (k & t & row' & Ht & Hc & Hr & _ & Hd & _). apply replaceTargets_elem in Ht. exists t. naive_solver.
  - intros (t & Ht & Hd). exists (selected fl o t).2, t, row.
    rewrite replaceTargets_elem. pose proof (target_rows_channel _ _ _ Ht). naive_solver.
Qed.

Lemma replaceTargets_hits_other fl id scope s c o d k :
  c ≠ id → hits fl (replaceTargets id scope s) c o d k ↔ hits fl s c o d k.
Proof.
  intros Hc. apply hits_frame; [by rewrite (proj1 (replaceTargets_other id scope s))|].
  intros t Ht. rewrite replaceTargets_elem. naive_solver.
Qed.
