(* ===== verification/ChannelEdits.v ===== *)
(** * Edits of release channels

    What a successful edit does to the tables, the invariant of the channel tables, and
    that no edit makes two channels fight over a miner they did not already share. *)

From S2P Require Import Prelude GoSort Float64 Errors RolloutBehavior RolloutBehaviorFacts RolloutStore.
From S2P Require Import RolloutTargets RolloutEngine ChannelStore ChannelService ChannelFacts.
#[local] Open Scope string_scope.
#[local] Open Scope list_scope.
#[local] Open Scope Z_scope.
#[local] Open Scope go_scope.

(** ** The invariant *)

(** The CHECK constraint of [release_channel_target], with identifiers the service stores. *)
Definition stored_target_ok (t : ChannelTarget) : Prop :=
  (∃ kind i, t = place_target (ct_ChannelID t) (kind, i) ∧ 0 < i
     ∧ (kind = TargetTypeSite ∨ kind = TargetTypeBuilding ∨ kind = TargetTypeRack ∨ kind = TargetTypeGroup))
  ∨ (∃ x, t = miner_target (ct_ChannelID t) x ∧ x ≠ "").

Definition row_valid (row : ReleaseChannel) : Prop :=
  rc_Name row ≠ "" ∧ behavior_valid (behaviorFromChannel row)
  ∧ validate (behaviorFromChannel row) = Ok (behaviorFromChannel row).

Record channels_ok (s : ChannelState) : Prop := {
  co_ids c row : db_channels (cs_db s) !! c = Some row → rc_ID row = c ∧ 0 < c < cs_nextChannelID s;
  co_next : 0 < cs_nextChannelID s;
  co_rows c row : db_channels (cs_db s) !! c = Some row → row_valid row;
  co_names c1 c2 r1 r2 : db_channels (cs_db s) !! c1 = Some r1 → db_channels (cs_db s) !! c2 = Some r2 →
    rc_OrgID r1 = rc_OrgID r2 → rc_Name r1 = rc_Name r2 → c1 = c2;
  co_info c : is_Some (cs_info s !! c) ↔ is_Some (db_channels (cs_db s) !! c);
  co_targets t : t ∈ cs_targets s → is_Some (db_channels (cs_db s) !! ct_ChannelID t) ∧ stored_target_ok t;
  co_unique : NoDup (cs_targets s)
}.

(** ** What the overlap check sees *)

Lemma scoped_empty fl org scope d : IsEmpty scope = true → d ∉ scoped fl org scope.
Proof.
  unfold IsEmpty. intros He%bool_decide_eq_true. rewrite (scoped_elem fl org 0). intros (t & Ht & _).
  destruct scope as [[|] [|] [|] [|] [|]]; simpl in He; try lia. by apply elem_of_nil in Ht.
Qed.

Lemma placement_device fl p :
  p ∈ release_channel_placement fl → ∃ d, d ∈ fl_devices fl ∧ fd_ID d = pl_DeviceID p.
Proof.
  intros (d & Hd & Hp)%elem_of_flat_map. exists d. split; [done|]. unfold placements_of in Hp.
  destruct (_ || _); [by apply elem_of_nil in Hp|]. by apply elem_of_List_map in Hp as (r & -> & _).
Qed.

Lemma scoped_device fl org scope d : d ∈ scoped fl org scope → ∃ x, x ∈ fl_devices fl ∧ fd_ID x = d.
Proof.
  unfold scoped. rewrite elem_of_remove_dups, elem_of_app, placed_elem.
  intros [(p & Hp & _ & _ & <-)|Hd]; [by apply placement_device|].
  unfold grouped in Hd. apply elem_of_flat_map in Hd as (g & _ & Hd). apply elem_of_flat_map in Hd as (m & _ & Hd).
  apply elem_of_List_map in Hd as (p & -> & [Hp _]%elem_of_List_filter). by apply placement_device.
Qed.

Lemma owners_elem fl s org exclude d c :
  c ∈ owners fl s org exclude d ↔ c ≠ exclude ∧ matches fl s c org d.
Proof.
  unfold owners, matches, hits. rewrite elem_of_remove_dups, elem_of_List_map. setoid_rewrite elem_of_List_filter. split.
  - intros ([c' o' d' k] & -> & Hm & Hb). simpl in *. crush_bools. subst. eauto.
  - intros (Hc & k & Hk). eexists. split; [|split; [exact Hk|]]; [done|]. simpl.
    rewrite !Z.eqb_refl. simpl. by apply negb_true_iff, Z.eqb_neq.
Qed.

(** The owned rows of a resolved scope are its conflict relations. *)
Lemma resolveScope_owned fl s org scope exclude d c :
  channels_ok s →
  (∃ r, r ∈ resolveScope fl s org scope exclude ∧ owned r = true ∧ conflictKey r = (d, c)) ↔
  d ∈ scoped fl org scope ∧ c ≠ exclude ∧ matches fl s c org d.
Proof.
  intros Hok. unfold resolveScope. destruct (IsEmpty scope) eqn:He.
  { split; [intros (r & Hr & _); by apply elem_of_nil in Hr|]. intros [Hd _]. by apply scoped_empty in Hd. }
  unfold ResolveReleaseChannelScope. setoid_rewrite elem_of_flat_map. setoid_rewrite elem_of_flat_map. split.
  - intros (r & (d' & Hd & x & Hx & Hr) & Ho & Hk).
    destruct (owners fl s org exclude d') as [|o os] eqn:Eo.
    { apply list_elem_of_singleton in Hr as ->. done. }
    rewrite <- Eo in Hr. apply elem_of_List_map in Hr as (o' & -> & Ho'). injection Hk as -> ->.
    split; [done|]. by apply owners_elem in Ho'.
  - intros (Hd & Hc). apply owners_elem in Hc as Ho. destruct (scoped_device _ _ _ _ Hd) as (x & Hx & Hid).
    eexists {| sr_DeviceID := d; sr_Manufacturer := fd_Manufacturer x; sr_Model := fd_Model x;
               sr_OwnerChannelID := c; sr_OwnerChannelName := channel_name s c |}. split_and!; [|..].
    + exists d. split; [done|]. exists x. rewrite elem_of_List_filter, Z.eqb_eq. split; [done|].
      destruct (owners fl s org exclude d) as [|o os] eqn:Eo; [by apply elem_of_nil in Ho|].
      rewrite <- Eo in *. apply elem_of_List_map. by exists c.
    + unfold owned. simpl. apply negb_true_iff, Z.eqb_neq. destruct Hc as (_ & k & (row & Hrow & _)%hits_channel).
      apply (co_ids _ Hok) in Hrow. lia.
    + done.
Qed.

Lemma new_conflicts_nil rows previous :
  length (new_conflicts rows previous) = 0%nat ↔
  ∀ r, r ∈ rows → owned r = true → ∃ r', r' ∈ previous ∧ owned r' = true ∧ conflictKey r' = conflictKey r.
Proof.
  assert (∀ r, conflictKey r ∈ map conflictKey (List.filter owned previous) ↔
    ∃ r', r' ∈ previous ∧ owned r' = true ∧ conflictKey r' = conflictKey r) as Hk.
  { intros r. rewrite elem_of_List_map. setoid_rewrite elem_of_List_filter. split; intros (r' & ?); exists r'; intuition. }
  unfold new_conflicts. rewrite length_zero_iff_nil. split.
  - intros Hnil r Hr Ho. apply Hk. destruct (decide (conflictKey r ∈ map conflictKey (List.filter owned previous))); [done|].
    exfalso. apply (not_elem_of_nil r). rewrite <- Hnil. apply elem_of_List_filter. split; [done|].
    by rewrite Ho, bool_decide_false.
  - intros Hall. match goal with |- ?x = [] => destruct x as [|r l] eqn:Ef end; [done|]. exfalso.
    assert (r ∈ r :: l) as Hr by left. rewrite <- Ef in Hr. apply elem_of_List_filter in Hr as [Hr [Ho Hn]%andb_prop].
    apply negb_true_iff, bool_decide_eq_false in Hn. apply Hn, Hk. eauto.
Qed.

(** The check passes exactly when every conflict relation of the scope is one the saved
    scope has already. *)
Lemma rejectOverlap_ok fl s org scope exclude saved :
  channels_ok s →
  rejectOverlap fl s org scope exclude saved = Ok tt ↔
  ∀ d c, d ∈ scoped fl org scope → c ≠ exclude → matches fl s c org d → d ∈ scoped fl org saved.
Proof.
  intros Hok. pose proof (λ d c, resolveScope_owned fl s org scope exclude d c Hok) as Hrows.
  pose proof (λ d c, resolveScope_owned fl s org saved exclude d c Hok) as Hprev.
  transitivity (length (new_conflicts (resolveScope fl s org scope exclude) (resolveScope fl s org saved exclude)) = 0%nat).
  - unfold rejectOverlap. destruct (existsb owned _) eqn:Ee; simpl; [by case_bool_decide|]. split; [|done]. intros _.
    apply new_conflicts_nil. intros r Hr Ho.
    enough (existsb owned (resolveScope fl s org scope exclude) = true) by congruence. apply existsb_elem. eauto.
  - rewrite new_conflicts_nil. split.
    + intros Hall d c Hd Hc Hm. destruct (proj2 (Hrows d c) (conj Hd (conj Hc Hm))) as (r & Hr & Ho & Hk).
      destruct (Hall r Hr Ho) as (r' & Hr' & Ho' & Hk'). apply (Hprev d c). exists r'. rewrite Hk'. done.
    + intros Hall r Hr Ho. destruct (conflictKey r) as [d c] eqn:Ek.
      destruct (proj1 (Hrows d c) ltac:(eauto)) as (Hd & Hc & Hm).
      apply (Hprev d c). split_and!; [by eapply Hall|done|done].
Qed.

Lemma target_cases s t id :
  channels_ok s → t ∈ cs_targets s → ct_ChannelID t = id →
  (∃ kind i, t = place_target id (kind, i) ∧ 0 < i
     ∧ (kind = TargetTypeSite ∨ kind = TargetTypeBuilding ∨ kind = TargetTypeRack ∨ kind = TargetTypeGroup))
  ∨ (∃ x, t = miner_target id x ∧ x ≠ "").
Proof. intros Hok Ht <-. exact (proj2 (co_targets _ Hok t Ht)). Qed.

(** The stored selectors of a channel read back as they are. *)
Lemma loaded_rows s org id row t :
  channels_ok s → db_channels (cs_db s) !! id = Some row → rc_OrgID row = org →
  t ∈ target_rows id (loadChannelScope org id s) ↔ t ∈ cs_targets s ∧ ct_ChannelID t = id.
Proof.
  intros Hok Hrow Ho. unfold loadChannelScope, ListReleaseChannelPageTargets. rewrite Hrow, Ho, Z.eqb_refl.
  set (rows := map _ _).
  assert (∀ ty i x, {| TargetType := ty; TargetID := i; RowDeviceIdentifier := x |} ∈ rows ↔
    ∃ u, u ∈ cs_targets s ∧ ct_ChannelID u = id ∧ ct_TargetType u = ty
         ∧ default 0 (ct_TargetID u) = i ∧ default "" (ct_DeviceIdentifier u) = x) as Hrows.
  { intros ty i x. unfold rows. rewrite elem_of_List_map. setoid_rewrite elem_of_List_filter. setoid_rewrite Z.eqb_eq.
    split; [intros (u & [= -> -> ->] & ? & ?); eauto 8|]. intros (u & ? & ? & <- & <- & <-). eauto. }
  assert (∀ kind i, kind ≠ TargetTypeMiner →
    (∃ x, {| TargetType := kind; TargetID := i; RowDeviceIdentifier := x |} ∈ rows) ↔ place_target id (kind, i) ∈ cs_targets s) as Hplace.
  { intros kind i Hk. setoid_rewrite Hrows. split.
    - intros (x & u & Hu & Hc & Ht & Hi & _). destruct (target_cases s u id Hok Hu Hc) as [(k & j & -> & _)|(y & -> & _)]; simpl in *; by subst.
    - intros Hin. exists "". eauto 8. }
  unfold target_rows. rewrite elem_of_app, !elem_of_List_map, scopeFromTargets_eq. simpl. split.
  - intros [([kind i] & -> & Hin)|(x & -> & Hin)]; split; try done.
    + apply targets_elem in Hin. simpl in Hin.
      destruct Hin as [[-> Hi]|[[-> Hi]|[[-> Hi]|[-> Hi]]]]; apply rows_of_elem in Hi; by apply Hplace.
    + destruct (decide (x = "")) as [->|Hx].
      { exfalso. unfold rows_miners in Hin. apply list_elem_of_fmap in Hin as (r & Hr & Hin%elem_of_List_filter).
        destruct Hin as [_ Hb]. crush_bools. by rewrite <- Hr in *. }
      apply rows_miners_elem in Hin as (i & Hin); [|done]. apply Hrows in Hin as (u & Hu & Hc & Ht & _ & Hd).
      destruct (target_cases s u id Hok Hu Hc) as [(k & j & -> & _ & Hk)|(y & -> & _)]; simpl in *; [naive_solver|by subst].
  - intros [Ht Hc]. destruct (target_cases s t id Hok Ht Hc) as [(k & j & -> & Hj & Hk)|(y & -> & Hy)].
    + left. exists (k, j). split; [done|]. apply targets_elem. simpl. rewrite !rows_of_elem.
      destruct Hk as [->|[->|[->| ->]]]; [left|right; left|do 2 right; left|do 3 right]; split; try done; by apply Hplace.
    + right. exists y. split; [done|]. apply rows_miners_elem; [done|]. exists 0. apply Hrows. eauto 8.
Qed.

Lemma loaded_matches fl s org id row d :
  channels_ok s → db_channels (cs_db s) !! id = Some row → rc_OrgID row = org →
  d ∈ scoped fl org (loadChannelScope org id s) ↔ matches fl s id org d.
Proof.
  intros Hok Hrow Ho. rewrite (scoped_elem fl org id). unfold matches. setoid_rewrite hits_spec.
  setoid_rewrite (loaded_rows s org id row _ Hok Hrow Ho). split.
  - intros (t & [Ht Hc] & Hd). eauto 10.
  - intros (k & t & row' & Ht & Hc & _ & _ & Hd & _). eauto.
Qed.

(** ** Effects *)

Inductive ChannelRequest :=
| CreateRequest (org user : Z) (spec : ChannelSpec)
| UpdateRequest (org id : Z) (spec : ChannelSpec)
| DeleteRequest (org id : Z).

(** The state after a request; the answer is dropped. *)
Definition edit (fl : ChannelFleet) (r : ChannelRequest) (s : ChannelState) : ChannelState :=
  match r with
  | CreateRequest org user spec => (CreateChannel fl org user spec s).2
  | UpdateRequest org id spec => (UpdateChannel fl org id spec s).2
  | DeleteRequest org id => (DeleteChannel org id s).2
  end.

Definition edits (fl : ChannelFleet) (rs : list ChannelRequest) (s : ChannelState) : ChannelState :=
  fold_left (λ s r, edit fl r s) rs s.

(** The channel row and its targets are written together. *)
Definition saved (id org : Z) (info : ChannelInfo) (spec : ChannelSpec) (s : ChannelState) : ChannelState :=
  replaceTargets id (cp_Scope spec) (put_channel id (channel_row id org (cp_Name spec) (cp_Behavior spec)) info s).

Definition advanced (s : ChannelState) : ChannelState := s <| cs_nextChannelID := cs_nextChannelID s + 1 |>.

Lemma find_channel_Some org id s c :
  find_channel org id s = Some c ↔ db_channels (cs_db s) !! id = Some c ∧ rc_OrgID c = org.
Proof.
  unfold find_channel. destruct (db_channels (cs_db s) !! id) as [c'|]; simpl; [|naive_solver].
  destruct (Z.eqb_spec (rc_OrgID c') org); naive_solver.
Qed.

Lemma get_channel_ok org id s c s' :
  get_channel org id s = (Ok c, s') ↔ s' = s ∧ db_channels (cs_db s) !! id = Some c ∧ rc_OrgID c = org.
Proof.
  rewrite <- find_channel_Some. unfold get_channel, mbind, M_bind, gets, mret, M_ret, fail.
  destruct (find_channel org id s); naive_solver.
Qed.

Lemma GetChannel_ok fl org id s c :
  db_channels (cs_db s) !! id = Some c → rc_OrgID c = org →
  GetChannel fl org id s = (Ok ((buildChannelSummary fl org s c) <| ch_Scope := loadChannelScope org id s |>), s).
Proof.
  intros Hc Ho. pose proof (proj2 (get_channel_ok org id s c s) (conj eq_refl (conj Hc Ho))) as Hg.
  unfold GetChannel, mbind, M_bind, gets. by rewrite Hg.
Qed.

Lemma channel_lift_ok {A} (r : result FleetError A) (s s' : ChannelState) a : lift r s = (Ok a, s') ↔ r = Ok a ∧ s' = s.
Proof. unfold lift. naive_solver. Qed.

Lemma channel_gets_ok {A} (f : ChannelState → A) (s s' : ChannelState) a : (gets f : COp A) s = (Ok a, s') ↔ a = f s ∧ s' = s.
Proof. unfold gets. naive_solver. Qed.

Lemma channel_query_ok {A} (m : M ChannelState ChannelDbError A) s a s' : channel_query m s = (Ok a, s') ↔ m s = (Ok a, s').
Proof. unfold channel_query. destruct (m s) as [[]]; naive_solver. Qed.

Lemma modify_ok (f : ChannelState → ChannelState) (s s' : ChannelState) u : (modify f : COp unit) s = (Ok u, s') ↔ s' = f s.
Proof. unfold modify. destruct u. naive_solver. Qed.

(** A statement read by its outcome; a rejected step leaves the transaction without effect. *)
Ltac run_tx H :=
  repeat (apply M_bind_ok in H as (? & ? & ?H & H));
  repeat match goal with
  | H : lift _ _ = (Ok _, _) |- _ => apply channel_lift_ok in H as [? ->]
  | H : gets _ _ = (Ok _, _) |- _ => apply channel_gets_ok in H as [-> ->]
  | H : get_channel _ _ _ = (Ok _, _) |- _ => apply get_channel_ok in H as (-> & ? & ?)
  | H : channel_query _ _ = (Ok _, _) |- _ => apply channel_query_ok in H
  | H : modify _ _ = (Ok _, _) |- _ => apply modify_ok in H as ->
  | H : mret _ _ = (Ok _, _) |- _ => apply M_ret_ok in H as [<- ->]
  end.

Definition created (fl : ChannelFleet) (org user : Z) (spec : ChannelSpec) (s s' : ChannelState) : Prop :=
  let id := cs_nextChannelID s in
  validateScopeTargets fl org (cp_Scope spec) empty_scope = Ok tt
  ∧ rejectOverlap fl s org (cp_Scope spec) 0 empty_scope = Ok tt
  ∧ channel_name_taken id org (cp_Name spec) s = false
  ∧ s' = saved id org {| ci_Description := cp_Description spec; ci_CreatedBy := user |} spec (advanced s).

Lemma create_channel_tx_ok fl org user spec s id s' :
  create_channel_tx fl org user spec s = (Ok id, s') → id = cs_nextChannelID s ∧ created fl org user spec s s'.
Proof.
  unfold create_channel_tx. intros H. run_tx H.
  unfold CreateReleaseChannel in H3. case_match; [done|]. injection H3 as <- <-.
  destruct x, x3. split; [done|]. unfold created. split_and!; done.
Qed.

Definition updated (fl : ChannelFleet) (org id : Z) (spec : ChannelSpec) (s s' : ChannelState) : Prop :=
  ∃ c, db_channels (cs_db s) !! id = Some c ∧ rc_OrgID c = org
  ∧ validateScopeTargets fl org (cp_Scope spec) (loadChannelScope org id s) = Ok tt
  ∧ rejectOverlap fl s org (cp_Scope spec) id (loadChannelScope org id s) = Ok tt
  ∧ channel_name_taken id org (cp_Name spec) s = false
  ∧ s' = saved id org {| ci_Description := cp_Description spec;
                         ci_CreatedBy := default 0 (ci_CreatedBy <$> cs_info s !! id) |} spec s.

Lemma update_channel_tx_ok fl org id spec s s' : update_channel_tx fl org id spec s = (Ok tt, s') → updated fl org id spec s s'.
Proof.
  unfold update_channel_tx. intros H. run_tx H. unfold UpdateReleaseChannel in H5.
  rewrite H0, H1, Z.eqb_refl in H5. simpl in H5. case_match; [done|]. injection H5 as _ <-.
  destruct x3, x7. exists x. split_and!; done.
Qed.

Definition deleted (org id : Z) (s s' : ChannelState) : Prop :=
  ∃ c, db_channels (cs_db s) !! id = Some c ∧ rc_OrgID c = org
  ∧ ActiveRollouts id (cs_db s) = false ∧ PendingCommands id (cs_db s) = false ∧ s' = DeleteReleaseChannel id org s.

Lemma delete_channel_tx_ok org id s s' : delete_channel_tx org id s = (Ok tt, s') ↔ deleted org id s s'.
Proof.
  unfold deleted. split.
  - unfold delete_channel_tx. intros H. run_tx H. destruct (ActiveRollouts id (cs_db s)); [done|].
    destruct (PendingCommands id (cs_db s)); [done|]. apply modify_ok in H as ->. eauto 6.
  - intros (c & Hc & Ho & Ha & Hp & ->). unfold delete_channel_tx.
    apply M_bind_ok. exists c, s. split; [by apply get_channel_ok|].
    apply M_bind_ok. eexists _, s. split; [done|]. apply M_bind_ok. eexists _, s. split; [done|].
    by rewrite Ha, Hp.
Qed.

Lemma saved_channels id org info spec s :
  db_channels (cs_db (saved id org info spec s)) = <[id := channel_row id org (cp_Name spec) (cp_Behavior spec)]> (db_channels (cs_db s))
  ∧ cs_info (saved id org info spec s) = <[id := info]> (cs_info s)
  ∧ cs_nextChannelID (saved id org info spec s) = cs_nextChannelID s.
Proof. unfold saved. destruct (replaceTargets_other id (cp_Scope spec) (put_channel id (channel_row id org (cp_Name spec) (cp_Behavior spec)) info s)) as (-> & -> & ->). done. Qed.

(** After the transaction the channel is found, so its summary is returned. *)
Lemma GetChannel_saved fl id org info spec s :
  ∃ ch, GetChannel fl org id (saved id org info spec s) = (Ok ch, saved id org info spec s).
Proof.
  eexists. apply GetChannel_ok with (c := channel_row id org (cp_Name spec) (cp_Behavior spec)); [|done].
  rewrite (proj1 (saved_channels id org info spec s)). apply lookup_insert_eq.
Qed.

Lemma CreateChannel_cases fl org user spec s :
  (∃ e, CreateChannel fl org user spec s = (Err e, s))
  ∨ ∃ spec' ch s', spec_validate spec = Ok spec' ∧ created fl org user spec' s s'
      ∧ GetChannel fl org (cs_nextChannelID s) s' = (Ok ch, s') ∧ CreateChannel fl org user spec s = (Ok ch, s').
Proof.
  unfold CreateChannel, mbind, M_bind, lift. destruct (spec_validate spec) as [spec'|e]; [|eauto].
  unfold RunInTx. destruct (create_channel_tx fl org user spec' s) as [[id|e] s'] eqn:E; [|eauto]. right.
  apply create_channel_tx_ok in E as [-> Hc]. pose proof Hc as (_ & _ & _ & Hs).
  destruct (GetChannel_saved fl (cs_nextChannelID s) org {| ci_Description := cp_Description spec'; ci_CreatedBy := user |} spec' (advanced s)) as [ch Hch].
  rewrite <- Hs in Hch. exists spec', ch, s'. done.
Qed.

Lemma UpdateChannel_cases fl org id spec s :
  (∃ e, UpdateChannel fl org id spec s = (Err e, s))
  ∨ ∃ spec' ch s', spec_validate spec = Ok spec' ∧ updated fl org id spec' s s'
      ∧ GetChannel fl org id s' = (Ok ch, s') ∧ UpdateChannel fl org id spec s = (Ok ch, s').
Proof.
  unfold UpdateChannel, mbind, M_bind, lift. destruct (spec_validate spec) as [spec'|e]; [|eauto].
  unfold RunInTx. destruct (update_channel_tx fl org id spec' s) as [[[]|e] s'] eqn:E; [|eauto]. right.
  apply update_channel_tx_ok in E. pose proof E as (c & _ & _ & _ & _ & _ & Hs).
  destruct (GetChannel_saved fl id org {| ci_Description := cp_Description spec';
    ci_CreatedBy := default 0 (ci_CreatedBy <$> cs_info s !! id) |} spec' s) as [ch Hch].
  rewrite <- Hs in Hch. exists spec', ch, s'. done.
Qed.

Lemma DeleteChannel_cases org id s :
  (∃ e, DeleteChannel org id s = (Err e, s)) ∨ ∃ s', deleted org id s s' ∧ DeleteChannel org id s = (Ok tt, s').
Proof.
  unfold DeleteChannel, RunInTx. destruct (delete_channel_tx org id s) as [[[]|e] s'] eqn:E; [|eauto].
  right. exists s'. by rewrite <- delete_channel_tx_ok.
Qed.
