(* ===== verification/ChannelSafety.v ===== *)
(** * Release channels stay well formed and do not fight over miners

    The invariant of the channel tables holds along every history of edits; a saved
    channel matches exactly the miners its scope resolves to; and no edit creates a
    conflict between channels that was not there before it. *)

From S2P Require Import Prelude GoSort Float64 Errors RolloutBehavior RolloutBehaviorFacts RolloutStore.
From S2P Require Import RolloutTargets RolloutEngine ChannelStore ChannelService ChannelFacts ChannelEdits.
#[local] Open Scope string_scope.
#[local] Open Scope list_scope.
#[local] Open Scope Z_scope.
#[local] Open Scope go_scope.

(** ** Validated specifications *)

Definition spec_ok (spec : ChannelSpec) : Prop :=
  cp_Name spec ≠ "" ∧ behavior_valid (cp_Behavior spec) ∧ validate (cp_Behavior spec) = Ok (cp_Behavior spec)
  ∧ ∀ id t, t ∈ target_rows id (cp_Scope spec) → stored_target_ok t.

Lemma normalize_valid scope id t : t ∈ target_rows id (normalize scope) → stored_target_ok t.
Proof.
  intros Ht. pose proof (target_rows_channel _ _ _ Ht) as Hc. unfold target_rows in Ht.
  rewrite elem_of_app, !elem_of_List_map in Ht. unfold stored_target_ok. rewrite Hc.
  destruct Ht as [([kind i] & -> & Hin)|(x & -> & Hin)].
  - left. exists kind, i. apply targets_elem in Hin. unfold normalize in Hin. simpl in Hin.
    rewrite !(proj2 (uniquePositive_spec _)) in Hin. naive_solver.
  - right. exists x. split; [done|]. change (x ∈ sorted_unique (λ v, v != "") String.ltb (DeviceIdentifiers scope)) in Hin.
    apply sorted_unique_elem in Hin as [_ Hx]. by crush_bools.
Qed.

Lemma spec_validate_ok spec spec' :
  spec_validate spec = Ok spec' → spec_ok spec' ∧ cp_Scope spec' = normalize (cp_Scope spec).
Proof.
  unfold spec_validate. case_bool_decide as En; [done|].
  destruct (validate (cp_Behavior spec)) as [b|e] eqn:Eb; [|done]. intros [= <-]. split; [|done].
  apply validate_sound in Eb as [Hv Hf]. unfold spec_ok. simpl. split_and!; try done.
  intros id t. apply normalize_valid.
Qed.

Lemma channel_row_behavior id org name b : behaviorFromChannel (channel_row id org name b) = b.
Proof. by destruct b as [? ? ? ? ? ? ? ? []]. Qed.

(** ** The invariant is kept *)

Lemma channel_name_free s self org name c row :
  channel_name_taken self org name s = false → db_channels (cs_db s) !! c = Some row →
  rc_OrgID row = org → rc_Name row = name → c = self.
Proof.
  intros Hf Hrow Ho Hn. destruct (decide (c = self)) as [|Hne]; [done|]. exfalso.
  enough (channel_name_taken self org name s = true) by congruence.
  apply existsb_elem. exists (c, row). rewrite elem_of_map_to_list. split; [done|]. simpl.
  rewrite Ho, Z.eqb_refl, Hn, bool_decide_true by done. by rewrite (proj2 (Z.eqb_neq c self) Hne).
Qed.

Lemma saved_ok id org info spec s :
  channels_ok s → spec_ok spec → 0 < id < cs_nextChannelID s → channel_name_taken id org (cp_Name spec) s = false →
  channels_ok (saved id org info spec s).
Proof.
  intros Hok (Hn & Hb & Hv & Ht) Hid Hfree. destruct (saved_channels id org info spec s) as (Hc & Hi & Hx).
  split; rewrite ?Hc, ?Hi, ?Hx.
  - intros c row [[<- <-]|[Hne Hrow]]%lookup_insert_Some; [done|by apply (co_ids _ Hok)].
  - apply (co_next _ Hok).
  - intros c row [[<- <-]|[Hne Hrow]]%lookup_insert_Some; [|by apply (co_rows _ Hok c)].
    unfold row_valid. by rewrite channel_row_behavior.
  - intros c1 c2 r1 r2 [[<- <-]|[Hne1 H1]]%lookup_insert_Some [[<- <-]|[Hne2 H2]]%lookup_insert_Some Ho Hname; [done| | |].
    + symmetry. by apply (channel_name_free s id org (cp_Name spec) c2 r2).
    + by apply (channel_name_free s id org (cp_Name spec) c1 r1).
    + by apply (co_names _ Hok c1 c2 r1 r2).
  - intros c. rewrite !lookup_insert_is_Some, (co_info _ Hok c). done.
  - intros t. unfold saved. rewrite replaceTargets_elem. intros [[Hch Hin]|[Hch Hin]].
    + split; [rewrite Hch, lookup_insert_eq; eauto|by apply (Ht id)].
    + apply (co_targets _ Hok) in Hin as [? ?]. split; [|done]. rewrite lookup_insert_ne by done. done.
  - unfold saved. apply replaceTargets_NoDup. apply (co_unique _ Hok).
Qed.

Lemma advanced_ok s : channels_ok s → channels_ok (advanced s).
Proof.
  intros [H1 H2 H3 H4 H5 H6 H7]. split; simpl; try done; [|lia].
  intros c row Hr. destruct (H1 c row Hr). split; [done|lia].
Qed.

Lemma DeleteReleaseChannel_fields id org s c :
  db_channels (cs_db s) !! id = Some c → rc_OrgID c = org →
  let s' := DeleteReleaseChannel id org s in
  db_channels (cs_db s') = delete id (db_channels (cs_db s)) ∧ cs_info s' = delete id (cs_info s)
  ∧ cs_targets s' = List.filter (λ t, negb (ct_ChannelID t =? id)) (cs_targets s)
  ∧ cs_nextChannelID s' = cs_nextChannelID s.
Proof. intros Hc Ho. unfold DeleteReleaseChannel. by rewrite Hc, Ho, Z.eqb_refl. Qed.

Lemma deleted_ok org id s s' : channels_ok s → deleted org id s s' → channels_ok s'.
Proof.
  intros Hok (c & Hc & Ho & _ & _ & ->). destruct (DeleteReleaseChannel_fields id org s c Hc Ho) as (Ec & Ei & Et & En).
  split; rewrite ?Ec, ?Ei, ?Et, ?En.
  - intros k row [_ H]%lookup_delete_Some. by apply (co_ids _ Hok).
  - apply (co_next _ Hok).
  - intros k row [_ H]%lookup_delete_Some. by apply (co_rows _ Hok k).
  - intros c1 c2 r1 r2 [_ H1]%lookup_delete_Some [_ H2]%lookup_delete_Some. by apply (co_names _ Hok).
  - intros k. rewrite !lookup_delete_is_Some, (co_info _ Hok k). done.
  - intros t [Hin Hb]%elem_of_List_filter. crush_bools. apply (co_targets _ Hok) in Hin as [? ?].
    split; [|done]. by rewrite lookup_delete_ne.
  - apply NoDup_List_filter, (co_unique _ Hok).
Qed.

(** What one request does: nothing, or a checked save, or a checked deletion. *)
Lemma edit_cases fl r s :
  edit fl r s = s
  ∨ (∃ org user spec, spec_ok spec ∧ created fl org user spec s (edit fl r s))
  ∨ (∃ org id spec, spec_ok spec ∧ updated fl org id spec s (edit fl r s))
  ∨ (∃ org id, deleted org id s (edit fl r s)).
Proof.
  destruct r as [org user spec|org id spec|org id]; simpl.
  - destruct (CreateChannel_cases fl org user spec s) as [[e ->]|(spec' & ch & s' & Hv & Hc & _ & ->)]; [by left|right; left].
    apply spec_validate_ok in Hv as [Hv _]. eauto.
  - destruct (UpdateChannel_cases fl org id spec s) as [[e ->]|(spec' & ch & s' & Hv & Hc & _ & ->)]; [by left|right; right; left].
    apply spec_validate_ok in Hv as [Hv _]. eauto 6.
  - destruct (DeleteChannel_cases org id s) as [[e ->]|(s' & Hd & ->)]; [by left|right; right; right]. eauto.
Qed.

Lemma edit_ok fl r s : channels_ok s → channels_ok (edit fl r s).
Proof.
  intros Hok. destruct (edit_cases fl r s) as [->|[(org & user & spec & Hs & _ & _ & Hf & ->)|[(org & id & spec & Hs & Hu)|(org & id & Hd)]]].
  - done.
  - apply saved_ok; [by apply advanced_ok|done| |done]. simpl. pose proof (co_next _ Hok). lia.
  - destruct Hu as (c & Hc & Ho & _ & _ & Hf & ->). apply saved_ok; try done. by apply (co_ids _ Hok) in Hc as [_ ?].
  - by eapply deleted_ok.
Qed.

Lemma edits_ok fl rs s : channels_ok s → channels_ok (edits fl rs s).
Proof. revert s. unfold edits. induction rs as [|r rs IH]; intros s Hok; simpl; [done|]. by apply IH, edit_ok. Qed.

(** ** Matches after an edit *)

Lemma saved_hits_other fl id org info spec s c o d k :
  c ≠ id → hits fl (saved id org info spec s) c o d k ↔ hits fl s c o d k.
Proof.
  intros Hc. unfold saved. rewrite replaceTargets_hits_other by done. apply hits_frame; [|done].
  unfold put_channel. simpl. by rewrite lookup_insert_ne.
Qed.

Lemma saved_matches fl id org info spec s o d :
  matches fl (saved id org info spec s) id o d ↔ o = org ∧ d ∈ scoped fl org (cp_Scope spec).
Proof.
  destruct (decide (o = org)) as [->|Hne].
  - unfold saved. rewrite (replaceTargets_matches fl id _ _ (channel_row id org (cp_Name spec) (cp_Behavior spec))); [naive_solver| |done].
    unfold put_channel. simpl. apply lookup_insert_eq.
  - split; [|naive_solver]. intros (k & (row & Hrow & Ho)%hits_channel).
    rewrite (proj1 (saved_channels id org info spec s)), lookup_insert_eq in Hrow. by injection Hrow as <-.
Qed.

(** A saved channel shares a miner only with the channels it shared it with before. *)
Lemma saved_no_conflict fl id org info spec s o d c1 c2 :
  (∀ d c, d ∈ scoped fl org (cp_Scope spec) → c ≠ id → matches fl s c org d → matches fl s id org d) →
  c1 ≠ c2 → matches fl (saved id org info spec s) c1 o d → matches fl (saved id org info spec s) c2 o d →
  matches fl s c1 o d ∧ matches fl s c2 o d.
Proof.
  intros Hcheck. enough (∀ c1 c2, c1 = id → c2 ≠ id → matches fl (saved id org info spec s) c1 o d →
    matches fl (saved id org info spec s) c2 o d → matches fl s c1 o d ∧ matches fl s c2 o d) as Hgo.
  { intros Hne H1 H2. destruct (decide (c1 = id)) as [E1|E1]; [by apply Hgo; try congruence|].
    destruct (decide (c2 = id)) as [E2|E2]; [apply and_comm; by apply Hgo|].
    destruct H1 as [k1 H1], H2 as [k2 H2]. rewrite saved_hits_other in H1, H2 by done. by split; eexists. }
  clear c1 c2. intros c1 c2 -> Hc [-> Hd]%saved_matches [k Hk%saved_hits_other]; [|done].
  assert (matches fl s c2 org d) as Hm by (by exists k). split; [|done]. by eapply Hcheck.
Qed.

Lemma hits_advanced fl s c o d k : hits fl (advanced s) c o d k ↔ hits fl s c o d k.
Proof. by apply hits_frame. Qed.

Lemma deleted_hits fl org id s s' c o d k : deleted org id s s' → hits fl s' c o d k → hits fl s c o d k.
Proof.
  intros (row & Hc & Ho & _ & _ & ->). destruct (DeleteReleaseChannel_fields id org s row Hc Ho) as (Ec & _ & Et & _).
  rewrite !hits_spec. rewrite Ec, Et. intros (t & r & [Ht _]%elem_of_List_filter & Hid & [_ Hr]%lookup_delete_Some & H). eauto 6.
Qed.

Lemma edit_conflict fl r s o d c1 c2 :
  channels_ok s → conflict fl (edit fl r s) o d c1 c2 → conflict fl s o d c1 c2.
Proof.
  intros Hok. enough (∀ c1 c2, c1 ≠ c2 → matches fl (edit fl r s) c1 o d → matches fl (edit fl r s) c2 o d →
    matches fl s c1 o d ∧ matches fl s c2 o d) as Hgo by (intros (Hne & H1 & H2); split; [done|by apply Hgo]).
  clear c1 c2. intros c1 c2 Hne H1 H2.
  destruct (edit_cases fl r s) as [E|[(org & user & spec & Hs & _ & Hr & _ & E)|[(org & id & spec & Hs & Hu)|(org & id & Hd)]]].
  - by rewrite E in *.
  - rewrite E in H1, H2. pose proof (proj1 (rejectOverlap_ok fl s org _ _ _ Hok) Hr) as Hfit.
    assert (∀ d c, d ∈ scoped fl org (cp_Scope spec) → c ≠ cs_nextChannelID s → matches fl (advanced s) c org d →
      matches fl (advanced s) (cs_nextChannelID s) org d) as Hcheck.
    { intros d' c Hd' _ [k Hk%hits_advanced]. assert (matches fl s c org d') as Hm by (by exists k).
      exfalso. apply (scoped_empty fl org empty_scope d'); [done|]. apply (Hfit d' c); try done.
      apply hits_channel in Hk as (row & Hrow & _). apply (co_ids _ Hok) in Hrow. lia. }
    destruct (saved_no_conflict fl _ _ _ _ _ _ _ _ _ Hcheck Hne H1 H2) as [[k1 H1'%hits_advanced] [k2 H2'%hits_advanced]].
    by split; eexists.
  - destruct Hu as (row & Hrow & Ho & _ & Hr & _ & E). rewrite E in H1, H2.
    pose proof (proj1 (rejectOverlap_ok fl s org _ _ _ Hok) Hr) as Hfit. setoid_rewrite (loaded_matches fl s org id row _ Hok Hrow Ho) in Hfit.
    exact (saved_no_conflict fl _ _ _ _ _ _ _ _ _ Hfit Hne H1 H2).
  - destruct H1 as [k1 H1], H2 as [k2 H2]. split; eexists; by eapply deleted_hits.
Qed.

(** C9: Whatever sequence of channel creations, edits and deletions is requested, two channels
    share a miner afterwards only if the same two channels shared it before: edits never add a
    conflict, and a new channel overlaps nothing. *)
Theorem channel_edits_add_no_conflict fl rs s o d c1 c2 :
  channels_ok s → conflict fl (edits fl rs s) o d c1 c2 → conflict fl s o d c1 c2.
Proof.
  revert s. unfold edits. induction rs as [|r rs IH]; intros s Hok; simpl; [done|].
  intros H%IH; [|by apply edit_ok]. by apply edit_conflict in H.
Qed.

(** placeholder *)
Theorem channel_tables_stay_well_formed fl rs s : channels_ok s → channels_ok (edits fl rs s).
Proof. apply edits_ok. Qed.

(** ** What is saved is what was asked for *)

Lemma same_rows_same_scope id s1 s2 :
  (∀ t, t ∈ target_rows id s1 ↔ t ∈ target_rows id s2) → normalize s1 = normalize s2.
Proof.
  intros Hext.
  assert (∀ kind i, (kind, i) ∈ targets s1 ↔ (kind, i) ∈ targets s2) as Hp.
  { assert (∀ s kind i, (kind, i) ∈ targets s ↔ place_target id (kind, i) ∈ target_rows id s) as Hs.
    { intros s kind i. unfold target_rows. rewrite elem_of_app, !elem_of_List_map. split; [eauto|].
      intros [([k j] & [= -> ->] & ?)|(x & [=] & _)]; done. }
    intros kind i. by rewrite !Hs, Hext. }
  assert (∀ x, x ∈ DeviceIdentifiers s1 ↔ x ∈ DeviceIdentifiers s2) as Hm.
  { assert (∀ s x, x ∈ DeviceIdentifiers s ↔ miner_target id x ∈ target_rows id s) as Hs.
    { intros s x. unfold target_rows. rewrite elem_of_app, !elem_of_List_map. split; [eauto|].
      intros [([k j] & [=] & ?)|(y & [= ->] & ?)]; done. }
    intros x. by rewrite !Hs, Hext. }
  unfold normalize. f_equal; [..|by apply uniqueNonEmpty_ext]; apply uniquePositive_ext; intros x _.
  - specialize (Hp TargetTypeSite x). rewrite !targets_elem in Hp. naive_solver.
  - specialize (Hp TargetTypeBuilding x). rewrite !targets_elem in Hp. naive_solver.
  - specialize (Hp TargetTypeRack x). rewrite !targets_elem in Hp. naive_solver.
  - specialize (Hp TargetTypeGroup x). rewrite !targets_elem in Hp. naive_solver.
Qed.

Lemma normalize_idemp scope : normalize (normalize scope) = normalize scope.
Proof.
  unfold normalize. simpl.
  f_equal; [apply uniquePositive_ext; intros x Hx; rewrite (proj2 (uniquePositive_spec _)); tauto..|].
  apply uniqueNonEmpty_ext. intros x Hx.
  change (x ∈ sorted_unique (λ v, v != "") String.ltb (DeviceIdentifiers scope) ↔ x ∈ DeviceIdentifiers scope).
  rewrite sorted_unique_elem, negb_true_iff, bool_decide_eq_false. tauto.
Qed.

Lemma saved_summary fl id org info spec s ch s' :
  channels_ok (saved id org info spec s) → GetChannel fl org id (saved id org info spec s) = (Ok ch, s') →
  ch_ID ch = id ∧ normalize (ch_Scope ch) = normalize (cp_Scope spec).
Proof.
  intros Hok. set (row := channel_row id org (cp_Name spec) (cp_Behavior spec)).
  assert (db_channels (cs_db (saved id org info spec s)) !! id = Some row) as Hrow.
  { rewrite (proj1 (saved_channels id org info spec s)). apply lookup_insert_eq. }
  rewrite (GetChannel_ok fl org id _ row Hrow eq_refl). intros [= <- _]. split; [done|]. simpl.
  apply (same_rows_same_scope id). intros t. rewrite (loaded_rows _ org id row t Hok Hrow eq_refl).
  unfold saved. rewrite replaceTargets_elem. split; [naive_solver|].
  intros Ht. pose proof (target_rows_channel _ _ _ Ht). naive_solver.
Qed.

(** C26: A channel that was created or updated reads back with the scope that was asked for, in
    normal form; its stored selectors match exactly the miners that scope resolves to; and no
    other channel's matches change. *)
Theorem saved_channel_covers_its_scope fl org spec s ch s' :
  channels_ok s →
  (∃ user, CreateChannel fl org user spec s = (Ok ch, s')) ∨ (∃ id, UpdateChannel fl org id spec s = (Ok ch, s')) →
  normalize (ch_Scope ch) = normalize (cp_Scope spec)
  ∧ (∀ d, matches fl s' (ch_ID ch) org d ↔ d ∈ scoped fl org (normalize (cp_Scope spec)))
  ∧ (∀ c o d k, c ≠ ch_ID ch → hits fl s' c o d k ↔ hits fl s c o d k).
Proof.
  intros Hok Hcall.
  assert (∃ id info spec' s0, spec_validate spec = Ok spec' ∧ s' = saved id org info spec' s0 ∧ channels_ok s'
    ∧ GetChannel fl org id s' = (Ok ch, s') ∧ ∀ c o d k, hits fl s0 c o d k ↔ hits fl s c o d k)
    as (id & info & spec' & s0 & Hv & -> & Hok' & Hget & Hs0).
  { destruct Hcall as [[user Hc]|[id Hc]].
    - pose proof (edit_ok fl (CreateRequest org user spec) s Hok) as Hok'. simpl in Hok'. rewrite Hc in Hok'.
      destruct (CreateChannel_cases fl org user spec s) as [[e He]|(spec' & ch' & s1 & Hv & (_ & _ & _ & Hs) & Hg & Hc')]; [congruence|].
      rewrite Hc' in Hc. injection Hc as -> ->. eexists _, _, _, _. split_and!; [done|done|done|done|intros; apply hits_advanced].
    - pose proof (edit_ok fl (UpdateRequest org id spec) s Hok) as Hok'. simpl in Hok'. rewrite Hc in Hok'.
      destruct (UpdateChannel_cases fl org id spec s) as [[e He]|(spec' & ch' & s1 & Hv & (c & _ & _ & _ & _ & _ & Hs) & Hg & Hc')]; [congruence|].
      rewrite Hc' in Hc. injection Hc as -> ->. eexists _, _, _, _. split_and!; done. }
  apply spec_validate_ok in Hv as [_ Hscope].
  destruct (saved_summary fl id org info spec' s0 ch _ Hok' Hget) as [-> Hch]. split_and!.
  - by rewrite Hch, Hscope, normalize_idemp.
  - intros d. rewrite saved_matches, Hscope. naive_solver.
  - intros c o d k Hc. by rewrite saved_hits_other, Hs0.
Qed.
