(* ===== verification/ChannelMembership.v ===== *)
(** * Membership, deletion and previews of release channels

    Membership is decided by the most specific selector alone; a channel is deleted only
    when nothing of it is in flight, with all it owns and nothing else; and the preview
    of a scope counts the miners and conflicts that saving it would meet. *)

From Stdlib Require Import Sorting.Sorted.
From S2P Require Import Prelude GoSort Float64 Errors RolloutBehavior RolloutBehaviorFacts RolloutStore.
From S2P Require Import RolloutTargets RolloutEngine ChannelStore ChannelService ChannelFacts ChannelEdits.
From S2P Require Import ChannelSafety.
#[local] Open Scope string_scope.
#[local] Open Scope list_scope.
#[local] Open Scope Z_scope.
#[local] Open Scope go_scope.

(** ** The least element of a list *)

Lemma fold_min_least l x : (fold_left Z.min l x = x ∨ fold_left Z.min l x ∈ l) ∧ fold_left Z.min l x <= x ∧ ∀ y, y ∈ l → fold_left Z.min l x <= y.
Proof.
  revert x. induction l as [|z l IH]; intros x; simpl.
  { split_and!; [by left|lia|]. intros y Hy. by apply elem_of_nil in Hy. }
  destruct (IH (Z.min x z)) as (Hin & Hx & Hall). split_and!; [|lia|].
  - destruct Hin as [->|Hin]; [|right; by right]. destruct (Z.min_spec x z) as [[_ ->]|[_ ->]]; [by left|right; by left].
  - intros y [->|Hy]%elem_of_cons; [lia|by apply Hall].
Qed.

Lemma minimum_least l k : l ≠ [] → minimum l = k ↔ k ∈ l ∧ ∀ y, y ∈ l → k <= y.
Proof.
  intros Hl. destruct l as [|x l]; [done|]. unfold minimum. destruct (fold_min_least l x) as (Hin & Hx & Hall).
  assert (fold_left Z.min l x ∈ x :: l) as Hm by (destruct Hin as [->|?]; set_solver).
  assert (∀ y, y ∈ x :: l → fold_left Z.min l x <= y) as Hle by (intros y [->|Hy]%elem_of_cons; auto).
  split; [intros <-; done|]. intros [Hk Hleast]. specialize (Hle k Hk). specialize (Hleast _ Hm). lia.
Qed.

Lemma NoDup_single {A} (l : list A) x : NoDup l → x ∈ l → length l = 1%nat ↔ ∀ y, y ∈ l → y = x.
Proof.
  intros Hn Hx. split.
  - destruct l as [|a [|b l]]; simpl; try done. intros _ y Hy. set_solver.
  - intros Hall. destruct l as [|a [|b l]]; [by apply elem_of_nil in Hx|done|]. exfalso.
    apply NoDup_cons in Hn as [Ha _]. apply Ha. rewrite (Hall a), <- (Hall b) by set_solver. left.
Qed.

(** ** Membership *)

(** The specificity of a channel for a miner: that of its most specific selector. *)
Definition ranks (fl : ChannelFleet) (s : ChannelState) (c o d k : Z) : Prop :=
  hits fl s c o d k ∧ ∀ k', hits fl s c o d k' → k <= k'.

Section Members.
Context (fl : ChannelFleet) (s : ChannelState).

Lemma per_channel_elem m :
  m ∈ per_channel fl s ↔ ranks fl s (mt_ChannelID m) (mt_OrgID m) (mt_DeviceID m) (mt_Specificity m).
Proof.
  set (levels := λ key, map mt_Specificity (List.filter (λ x, bool_decide (group_key x = key)) (release_channel_match fl s))).
  assert (∀ c o d k, k ∈ levels (c, o, d) ↔ hits fl s c o d k) as Hlev.
  { intros c o d k. unfold levels. rewrite elem_of_List_map. setoid_rewrite elem_of_List_filter.
    setoid_rewrite bool_decide_eq_true. unfold hits, group_key. split.
    - intros ([c' o' d' k'] & -> & Hin & [= -> -> ->]). done.
    - intros Hh. eexists. split; [|split; [exact Hh|]]; done. }
  assert (∀ c o d k, levels (c, o, d) ≠ [] → minimum (levels (c, o, d)) = k ↔ ranks fl s c o d k) as Hmin.
  { intros c o d k Hne. rewrite minimum_least by done. unfold ranks. setoid_rewrite Hlev. done. }
  unfold per_channel. rewrite elem_of_List_map. setoid_rewrite elem_of_remove_dups. setoid_rewrite elem_of_List_map. split.
  - intros ([[c o] d] & -> & [c' o' d' k'] & [= -> -> ->] & Hin). simpl. apply Hmin; [|done].
    intros Hnil. apply (not_elem_of_nil k'). rewrite <- Hnil. by apply Hlev.
  - destruct m as [c o d k]. simpl. intros Hr. pose proof Hr as [Hh _]. exists (c, o, d). split.
    + simpl. f_equal. symmetry. apply Hmin; [|done].
      intros Hnil. apply (not_elem_of_nil k). rewrite <- Hnil. by apply Hlev.
    + eexists. split; [|exact Hh]. done.
Qed.

Lemma per_channel_NoDup : NoDup (per_channel fl s).
Proof.
  unfold per_channel. apply NoDup_fmap_2_strong; [|apply NoDup_remove_dups].
  intros [[c o] d] [[c' o'] d'] _ _ [= -> -> -> _]. done.
Qed.

Lemma rivals_elem m x : x ∈ rivals fl s m ↔ x ∈ per_channel fl s ∧ mt_OrgID x = mt_OrgID m ∧ mt_DeviceID x = mt_DeviceID m.
Proof. unfold rivals. rewrite elem_of_List_filter, andb_true_iff, !Z.eqb_eq. done. Qed.

Lemma rivals_NoDup m : NoDup (rivals fl s m).
Proof. apply NoDup_List_filter, per_channel_NoDup. Qed.

Lemma best_spec m : m ∈ per_channel fl s →
  mt_Specificity m = best fl s m ↔ ∀ x, x ∈ rivals fl s m → mt_Specificity m <= mt_Specificity x.
Proof.
  intros Hm. assert (m ∈ rivals fl s m) as Hself by (by apply rivals_elem).
  unfold best. transitivity (minimum (map mt_Specificity (rivals fl s m)) = mt_Specificity m); [split; congruence|].
  rewrite minimum_least.
  - setoid_rewrite elem_of_List_map. split; [intros [_ H] x Hx; apply H; eauto|].
    intros H. split; [eauto|]. intros y (x & -> & Hx). auto.
  - intros Hnil%map_eq_nil. rewrite Hnil in Hself. by apply elem_of_nil in Hself.
Qed.

Lemma at_level_one m : m ∈ per_channel fl s →
  at_level fl s m = 1 ↔ ∀ x, x ∈ rivals fl s m → mt_Specificity x = mt_Specificity m → x = m.
Proof.
  intros Hm. assert (m ∈ List.filter (λ x, mt_Specificity x =? mt_Specificity m) (rivals fl s m)) as Hself.
  { apply elem_of_List_filter. rewrite Z.eqb_refl, rivals_elem. done. }
  unfold at_level. transitivity (length (List.filter (λ x, mt_Specificity x =? mt_Specificity m) (rivals fl s m)) = 1%nat); [lia|].
  rewrite (NoDup_single _ m) by (done || apply NoDup_List_filter, rivals_NoDup).
  split.
  - intros H x Hx He. apply H, elem_of_List_filter. by rewrite Z.eqb_eq.
  - intros H x [Hx He%Z.eqb_eq]%elem_of_List_filter. by apply H.
Qed.

Lemma channels_many m : m ∈ per_channel fl s → 1 < channels fl s m ↔ ∃ x, x ∈ rivals fl s m ∧ x ≠ m.
Proof.
  intros Hm. assert (m ∈ rivals fl s m) as Hself by (by apply rivals_elem).
  pose proof (NoDup_single _ m (rivals_NoDup m) Hself) as Hone. unfold channels. split.
  - intros Hlen. destruct (decide (Forall (λ x, x = m) (rivals fl s m))) as [Hall|Hex].
    + rewrite Forall_forall in Hall. apply Hone in Hall. lia.
    + apply not_Forall_Exists, Exists_exists in Hex; [|apply _]. done.
  - intros (x & Hx & Hne). assert (length (rivals fl s m) ≠ 1%nat) by (intros Hl; by apply Hne, (proj1 Hone Hl)).
    destruct (rivals fl s m) as [|a [|b l]]; simpl in *; try done; [by apply elem_of_nil in Hself|lia].
Qed.

(** A row that decides membership: more specific than every other channel. *)
Definition leads (m : Match) : Prop :=
  m ∈ per_channel fl s ∧ ∀ x, x ∈ rivals fl s m → x ≠ m → mt_Specificity m < mt_Specificity x.

Lemma leads_spec m : m ∈ per_channel fl s →
  (mt_Specificity m =? best fl s m) && (at_level fl s m =? 1) = true ↔ leads m.
Proof.
  intros Hm. rewrite andb_true_iff, !Z.eqb_eq, best_spec, at_level_one by done. unfold leads. split.
  - intros [Hb Ho]. split; [done|]. intros x Hx Hne. specialize (Hb x Hx). specialize (Ho x Hx).
    destruct (decide (mt_Specificity x = mt_Specificity m)); [by apply Ho in e|lia].
  - intros [_ Hl]. split; intros x Hx.
    + destruct (decide (x = m)) as [->|Hne]; [lia|]. specialize (Hl x Hx Hne). lia.
    + intros He. destruct (decide (x = m)) as [|Hne]; [done|]. specialize (Hl x Hx Hne). lia.
Qed.

(** A channel has one row per miner. *)
Lemma per_channel_functional m x : m ∈ per_channel fl s → x ∈ rivals fl s m → mt_ChannelID x = mt_ChannelID m → x = m.
Proof.
  intros [Hm1 Hm2]%per_channel_elem [[Hx1 Hx2]%per_channel_elem [Ho Hd]]%rivals_elem Hc. rewrite Ho, Hd, Hc in *.
  destruct m as [c o d k], x as [c' o' d' k']. simpl in *. subst. f_equal. specialize (Hm2 k' Hx1). specialize (Hx2 k Hm1). lia.
Qed.

Lemma leads_ranks m : leads m ↔
  ranks fl s (mt_ChannelID m) (mt_OrgID m) (mt_DeviceID m) (mt_Specificity m)
  ∧ ∀ c k, c ≠ mt_ChannelID m → ranks fl s c (mt_OrgID m) (mt_DeviceID m) k → mt_Specificity m < k.
Proof.
  unfold leads. rewrite per_channel_elem. split; intros [Hr H]; (split; [done|]).
  - intros c k Hc Hk. apply (H {| mt_ChannelID := c; mt_OrgID := mt_OrgID m; mt_DeviceID := mt_DeviceID m; mt_Specificity := k |}).
    + apply rivals_elem. rewrite per_channel_elem. done.
    + intros E%(f_equal mt_ChannelID). done.
  - intros x Hx Hne. pose proof Hx as [Hin [Ho Hd]]%rivals_elem. apply (H (mt_ChannelID x)).
    + intros Hc. apply Hne, per_channel_functional; [by apply per_channel_elem|done|done].
    + apply per_channel_elem in Hin. by rewrite Ho, Hd in Hin.
Qed.

Lemma rival_matches m : m ∈ per_channel fl s →
  (∃ x, x ∈ rivals fl s m ∧ x ≠ m) ↔ ∃ c, c ≠ mt_ChannelID m ∧ matches fl s c (mt_OrgID m) (mt_DeviceID m).
Proof.
  intros Hm. split.
  - intros (x & Hx & Hne). pose proof Hx as [[Hh _]%per_channel_elem [Ho Hd]]%rivals_elem. exists (mt_ChannelID x). split.
    + intros Hc. by apply Hne, per_channel_functional.
    + exists (mt_Specificity x). by rewrite Ho, Hd in Hh.
  - intros (c & Hc & k & Hk).
    assert (∃ x, x ∈ per_channel fl s ∧ mt_ChannelID x = c ∧ mt_OrgID x = mt_OrgID m ∧ mt_DeviceID x = mt_DeviceID m) as (x & Hx & Hxc & Ho & Hd).
    { eexists {| mt_ChannelID := c; mt_OrgID := mt_OrgID m; mt_DeviceID := mt_DeviceID m; mt_Specificity := _ |}.
      split; [|done]. unfold per_channel. apply elem_of_List_map. exists (c, mt_OrgID m, mt_DeviceID m). split; [done|].
      apply elem_of_remove_dups, elem_of_List_map. eexists. split; [|exact Hk]. done. }
    exists x. split; [by apply rivals_elem|]. intros ->. done.
Qed.

End Members.

Lemma member_elem fl s c o d b :
  {| mm_ChannelID := c; mm_OrgID := o; mm_DeviceID := d; mm_Conflicted := b |} ∈ release_channel_member fl s ↔
  ∃ m, m ∈ per_channel fl s ∧ leads fl s m ∧ mt_ChannelID m = c ∧ mt_OrgID m = o ∧ mt_DeviceID m = d ∧ b = (1 <? channels fl s m).
Proof.
  unfold release_channel_member. rewrite elem_of_List_map. setoid_rewrite elem_of_List_filter. split.
  - intros (m & [= -> -> -> ->] & Hm & Hl). exists m. apply leads_spec in Hl; [|done]. done.
  - intros (m & Hm & Hl & <- & <- & <- & ->). exists m. split; [done|]. split; [done|]. by apply leads_spec.
Qed.

(** C25: The membership view, defined with grouping and window functions, lists a miner in a
    channel exactly when the channel's most specific selector for it is strictly more specific
    than every other channel's, flags it as conflicted exactly when another channel matches it
    too, and so puts a miner in at most one channel. *)
Theorem miners_belong_to_their_most_specific_channel fl s :
  (∀ c o d b, {| mm_ChannelID := c; mm_OrgID := o; mm_DeviceID := d; mm_Conflicted := b |} ∈ release_channel_member fl s ↔
     (∃ k, ranks fl s c o d k ∧ ∀ c' k', c' ≠ c → ranks fl s c' o d k' → k < k')
     ∧ (b = true ↔ ∃ c', c' ≠ c ∧ matches fl s c' o d))
  ∧ (∀ c c' o d b b', {| mm_ChannelID := c; mm_OrgID := o; mm_DeviceID := d; mm_Conflicted := b |} ∈ release_channel_member fl s →
     {| mm_ChannelID := c'; mm_OrgID := o; mm_DeviceID := d; mm_Conflicted := b' |} ∈ release_channel_member fl s → c = c').
Proof.
  assert (∀ c o d b, {| mm_ChannelID := c; mm_OrgID := o; mm_DeviceID := d; mm_Conflicted := b |} ∈ release_channel_member fl s ↔
     (∃ k, ranks fl s c o d k ∧ ∀ c' k', c' ≠ c → ranks fl s c' o d k' → k < k')
     ∧ (b = true ↔ ∃ c', c' ≠ c ∧ matches fl s c' o d)) as Hiff.
  { intros c o d b. rewrite member_elem. split.
    - intros (m & Hm & Hl & <- & <- & <- & ->). split; [exists (mt_Specificity m); by apply leads_ranks|].
      by rewrite Z.ltb_lt, channels_many, rival_matches.
    - intros [(k & Hr & Hlead) Hb]. set (m := {| mt_ChannelID := c; mt_OrgID := o; mt_DeviceID := d; mt_Specificity := k |}).
      assert (m ∈ per_channel fl s) as Hm by (by apply per_channel_elem). exists m.
      split_and!; [done|by apply leads_ranks|done|done|done|].
      destruct (1 <? channels fl s m) eqn:E.
      + apply Hb. apply Z.ltb_lt in E. by apply channels_many, rival_matches in E.
      + destruct b; [|done]. exfalso. apply Z.ltb_ge in E.
        pose proof (proj2 (channels_many fl s m Hm) (proj2 (rival_matches fl s m Hm) (proj1 Hb eq_refl))). lia. }
  split; [done|]. intros c c' o d b b' [(k & Hk & Hl) _]%Hiff [(k' & Hk' & Hl') _]%Hiff.
  destruct (decide (c = c')) as [|Hne]; [done|]. specialize (Hl c' k' ltac:(congruence) Hk'). specialize (Hl' c k Hne Hk). lia.
Qed.

(** ** Deletion *)

