(* ===== verification/ChannelPreview.v ===== *)
(** * Previews of a scope

    The counts of [PreviewScope]: each covered miner once, each conflicting channel with
    the number of covered miners it already matches, and no conflict exactly when the
    overlap check of a creation passes. *)

From Stdlib Require Import Sorting.Sorted.
From S2P Require Import Prelude GoSort Float64 Errors RolloutBehavior RolloutBehaviorFacts RolloutStore.
From S2P Require Import RolloutTargets RolloutEngine ChannelStore ChannelService ChannelFacts ChannelEdits.
#[local] Open Scope string_scope.
#[local] Open Scope list_scope.
#[local] Open Scope Z_scope.
#[local] Open Scope go_scope.

(** ** Counting by key *)

Definition occurrences {K} `{EqDecision K} (k : K) (l : list K) : Z :=
  Z.of_nat (length (List.filter (λ x, bool_decide (x = k)) l)).

Lemma occurrences_app {K} `{EqDecision K} (k : K) l1 l2 : occurrences k (l1 ++ l2) = occurrences k l1 + occurrences k l2.
Proof. unfold occurrences. rewrite List.filter_app, length_app. lia. Qed.

Lemma occurrences_zero {K} `{EqDecision K} (k : K) l : k ∉ l → occurrences k l = 0.
Proof.
  intros Hk. unfold occurrences. induction l as [|x l IH]; simpl; [done|].
  rewrite bool_decide_false by set_solver. apply IH. set_solver.
Qed.

Section Counts.
Context {K A : Type} `{EqDecision K} (key : A → K) (cnt : A → Z) (incr : A → A).
Hypotheses (incr_key : ∀ a, key (incr a) = key a) (incr_cnt : ∀ a, cnt (incr a) = int32 (cnt a + 1)).

(** The table [l] counts the keys of [done]. *)
Definition counts (done : list K) (l : list A) : Prop :=
  NoDup (map key l) ∧ (∀ k, k ∈ map key l ↔ k ∈ done) ∧ ∀ a, a ∈ l → cnt a = int32 (occurrences (key a) done).

Lemma bump_keys k new l : key new = k →
  map key (bump (λ a, bool_decide (key a = k)) incr new l) = if bool_decide (k ∈ map key l) then map key l else map key l ++ [k].
Proof.
  intros Hn. induction l as [|a l IH]; simpl; [by rewrite incr_key, Hn|].
  destruct (decide (key a = k)) as [Ea|Ea];
    [rewrite (bool_decide_true (key a = k)) by done|rewrite (bool_decide_false (key a = k)) by done]; simpl.
  - rewrite incr_key, bool_decide_true by set_solver. done.
  - rewrite IH. destruct (bool_decide (k ∈ map key l)) eqn:E; crush_bools.
    + by rewrite bool_decide_true by set_solver.
    + rewrite bool_decide_false by set_solver. done.
Qed.

Lemma bump_elem k new l x : NoDup (map key l) → key new = k →
  x ∈ bump (λ a, bool_decide (key a = k)) incr new l →
  (x ∈ l ∧ key x ≠ k) ∨ (∃ a, a ∈ l ∧ key a = k ∧ x = incr a) ∨ (x = incr new ∧ k ∉ map key l).
Proof.
  intros Hd Hn. induction l as [|a l IH]; simpl.
  { intros ->%list_elem_of_singleton. do 2 right. split; [done|]. by intros ?%elem_of_nil. }
  simpl in Hd. apply NoDup_cons in Hd as [Ha Hd]. case_bool_decide as Ea.
  - intros [->|Hx]%elem_of_cons; [right; left; exists a; set_solver|]. left. split; [by right|].
    intros Hk. apply Ha. rewrite Ea, <- Hk. apply list_elem_of_fmap. eauto.
  - intros [->|Hx]%elem_of_cons; [left; split; [left|done]|].
    destruct (IH Hd Hx) as [[? ?]|[(b & ? & ? & ?)|[? ?]]]; [left; set_solver|right; left; exists b; set_solver|].
    do 2 right. set_solver.
Qed.

Lemma bump_counts k new done l : key new = k → cnt new = 0 →
  counts done l → counts (done ++ [k]) (bump (λ a, bool_decide (key a = k)) incr new l).
Proof.
  intros Hn H0 (Hd & Hk & Hc). split_and!.
  - rewrite bump_keys by done. destruct (bool_decide (k ∈ map key l)) eqn:E; [done|]. crush_bools.
    apply NoDup_app. split_and!; [done|set_solver|apply NoDup_singleton].
  - intros k'. rewrite bump_keys by done. destruct (bool_decide (k ∈ map key l)) eqn:E; crush_bools; rewrite ?elem_of_app, Hk, list_elem_of_singleton.
    + split; [tauto|]. intros [?| ->]; [done|by apply Hk].
    + tauto.
  - assert (∀ k', occurrences k' [k] = if bool_decide (k = k') then 1 else 0) as Hone.
    { intros k'. unfold occurrences. simpl. by case_bool_decide. }
    intros x Hx. rewrite occurrences_app, Hone.
    destruct (bump_elem k new l x Hd Hn Hx) as [[Hin Hne]|[(a & Hin & Ha & ->)|[-> Hnot]]].
    + rewrite bool_decide_false, Z.add_0_r by congruence. auto.
    + rewrite incr_cnt, incr_key, (Hc a Hin), int32_add_l, bool_decide_true by congruence. done.
    + rewrite incr_cnt, incr_key, Hn, H0, bool_decide_true by done. rewrite occurrences_zero; [done|]. by rewrite <- Hk.
Qed.
End Counts.

(** ** The loop over the rows *)

Definition conflict_counts := counts sc_ChannelID sc_MinerCount.

(** The miners counted, and the owners of the rows seen so far. *)
Definition preview_inv (done : list ScopeRow) (v : PreviewLoop) : Prop :=
  NoDup (vl_counted v) ∧ (∀ d, d ∈ vl_counted v ↔ d ∈ map sr_DeviceID done)
  ∧ vl_miners v = int32 (Z.of_nat (length (vl_counted v)))
  ∧ conflict_counts (map sr_OwnerChannelID (List.filter owned done)) (vl_conflicts v).

Lemma preview_row_inv done v r : preview_inv done v → preview_inv (done ++ [r]) (preview_row v r).
Proof.
  intros (Hn & Hc & Hm & Hk). unfold preview_inv, preview_row. simpl. rewrite map_app, List.filter_app, map_app. split_and!.
  - case_bool_decide as E; simpl; [done|]. by constructor.
  - intros d. rewrite elem_of_app, <- Hc. simpl. case_bool_decide as E; simpl; rewrite ?elem_of_cons, ?elem_of_nil.
    + split; [tauto|]. naive_solver.
    + tauto.
  - case_bool_decide as E; simpl; [done|]. rewrite Hm, int32_add_l. f_equal. lia.
  - simpl. destruct (owned r); simpl; [|by rewrite app_nil_r].
    refine (bump_counts sc_ChannelID sc_MinerCount _ _ _ (sr_OwnerChannelID r) _ _ (vl_conflicts v) _ _ Hk); done.
Qed.

Lemma preview_rows_inv rows : preview_inv rows (preview_rows rows).
Proof.
  unfold preview_rows. set (v0 := {| vl_counted := []; vl_miners := 0; vl_models := []; vl_conflicts := [] |}).
  enough (∀ done v, preview_inv done v → preview_inv (done ++ rows) (fold_left preview_row rows v)) as Hgo.
  { apply (Hgo [] v0). split_and!; simpl; try done; [constructor|split_and!; [constructor|done|]].
    intros a Ha. by apply elem_of_nil in Ha. }
  induction rows as [|r rows IH]; intros done v Hv; simpl; [by rewrite app_nil_r|].
  rewrite (cons_middle r done rows). rewrite app_assoc. apply IH. by apply preview_row_inv.
Qed.

(** ** The rows of a scope *)

Lemma occurrences_NoDup {K} `{EqDecision K} (k : K) l : NoDup l → occurrences k l = if bool_decide (k ∈ l) then 1 else 0.
Proof.
  induction 1 as [|x l Hx Hn IH]; [done|]. change (x :: l) with ([x] ++ l). rewrite occurrences_app, IH.
  unfold occurrences at 1. simpl. destruct (decide (x = k)) as [->|Hne].
  - rewrite (bool_decide_true (k = k)), (bool_decide_false (k ∈ l)), (bool_decide_true (k ∈ k :: l)) by set_solver. done.
  - rewrite (bool_decide_false (x = k)) by done. simpl. destruct (decide (k ∈ l)).
    + rewrite !bool_decide_true by set_solver. done.
    + rewrite !bool_decide_false by set_solver. done.
Qed.

(** A primary key selects one row. *)
Lemma unique_device fl d :
  NoDup (map fd_ID (fl_devices fl)) → d ∈ map fd_ID (fl_devices fl) →
  ∃ x, List.filter (λ x, fd_ID x =? d) (fl_devices fl) = [x] ∧ fd_ID x = d.
Proof.
  induction (fl_devices fl) as [|y l IH]; simpl; intros Hn Hd; [by apply elem_of_nil in Hd|].
  apply NoDup_cons in Hn as [Hy Hn]. destruct (Z.eqb_spec (fd_ID y) d) as [E|E].
  - exists y. split; [|done]. f_equal.
    clear IH Hd Hn. induction l as [|z l IH]; simpl; [done|]. simpl in Hy.
    destruct (Z.eqb_spec (fd_ID z) d) as [E'|E']; [exfalso; apply Hy, elem_of_cons; left; congruence|]. apply IH. intros ?. apply Hy. by right.
  - apply elem_of_cons in Hd as [Hd|Hd]; [congruence|]. by apply IH.
Qed.

(** The rows of one miner: one without owner, or one per owner. *)
Definition device_rows (fl : ChannelFleet) (s : ChannelState) (org exclude d : Z) (x : FleetDevice) : list ScopeRow :=
  let row owner name := {| sr_DeviceID := d; sr_Manufacturer := fd_Manufacturer x; sr_Model := fd_Model x;
                           sr_OwnerChannelID := owner; sr_OwnerChannelName := name |} in
  match owners fl s org exclude d with [] => [row 0 ""] | os => map (λ o, row o (channel_name s o)) os end.

Lemma owners_nonzero fl s org exclude d : channels_ok s → 0 ∉ owners fl s org exclude d.
Proof.
  intros Hok [_ [k (row & Hrow & _)%hits_channel]]%owners_elem. apply (co_ids _ Hok) in Hrow. lia.
Qed.

Lemma device_rows_owners fl s org exclude d x : channels_ok s →
  map sr_OwnerChannelID (List.filter owned (device_rows fl s org exclude d x)) = owners fl s org exclude d.
Proof.
  intros Hok. pose proof (owners_nonzero fl s org exclude d Hok) as H0. unfold device_rows.
  destruct (owners fl s org exclude d) as [|o os]; [done|]. clear -H0. revert H0. generalize (o :: os). clear o os. intros l H0.
  induction l as [|o l IH]; simpl; [done|]. unfold owned at 1. simpl.
  destruct (Z.eqb_spec o 0) as [->|_]; [exfalso; apply H0; left|]. simpl. f_equal. apply IH. set_solver.
Qed.

Lemma device_rows_device fl s org exclude d x d' : d' ∈ map sr_DeviceID (device_rows fl s org exclude d x) ↔ d' = d.
Proof.
  unfold device_rows. destruct (owners fl s org exclude d) as [|o os]; simpl.
  - by rewrite list_elem_of_singleton.
  - rewrite elem_of_cons, elem_of_List_map. setoid_rewrite elem_of_List_map. naive_solver.
Qed.

Section Rows.
Context (fl : ChannelFleet) (s : ChannelState) (org exclude : Z).
Hypotheses (Hok : channels_ok s) (Hids : NoDup (map fd_ID (fl_devices fl))).

Definition rows_of_devices (l : list Z) : list ScopeRow :=
  flat_map (λ d, flat_map (device_rows fl s org exclude d) (List.filter (λ x, fd_ID x =? d) (fl_devices fl))) l.

Lemma resolveScope_rows scope : resolveScope fl s org scope exclude = rows_of_devices (scoped fl org scope).
Proof.
  unfold resolveScope. destruct (IsEmpty scope) eqn:E; [|done].
  by rewrite (elem_of_nil_inv (scoped fl org scope)) by (intros d; by apply scoped_empty).
Qed.

Lemma rows_of_devices_owners l c : (∀ d, d ∈ l → d ∈ map fd_ID (fl_devices fl)) →
  occurrences c (map sr_OwnerChannelID (List.filter owned (rows_of_devices l)))
  = Z.of_nat (length (List.filter (λ d, bool_decide (c ∈ owners fl s org exclude d)) l)).
Proof.
  induction l as [|d l IH]; intros Hl; simpl; [done|].
  destruct (unique_device fl d Hids (Hl d ltac:(left))) as (x & Hx & _). rewrite Hx. simpl. rewrite app_nil_r.
  rewrite List.filter_app, map_app, occurrences_app, IH by set_solver. rewrite device_rows_owners by done.
  rewrite occurrences_NoDup by (apply NoDup_remove_dups). case_bool_decide; simpl; lia.
Qed.

Lemma rows_of_devices_devices l d : (∀ d, d ∈ l → d ∈ map fd_ID (fl_devices fl)) →
  d ∈ map sr_DeviceID (rows_of_devices l) ↔ d ∈ l.
Proof.
  induction l as [|d' l IH]; intros Hl; simpl; [done|].
  destruct (unique_device fl d' Hids (Hl d' ltac:(left))) as (x & Hx & _). rewrite Hx. simpl. rewrite app_nil_r.
  rewrite map_app, elem_of_app, device_rows_device, IH, elem_of_cons by set_solver. done.
Qed.
End Rows.

Lemma conflict_less_swo : strict_weak_on conflict_less (λ _, True).
Proof. unfold conflict_less. split; intros; crush_bools; first [apply Z.ltb_ge|idtac]; lia. Qed.

Lemma StronglySorted_take {A} (R : A → A → Prop) l n : StronglySorted R l → StronglySorted R (take n l).
Proof.
  intros Hs. revert n. induction Hs as [|x l Hs IH Hall]; intros [|n]; simpl; try constructor; [done|].
  by apply Forall_take.
Qed.

Lemma elem_length_pos {A} (x : A) l : x ∈ l → 0 < Z.of_nat (length l).
Proof. destruct l; [by intros ?%elem_of_nil|simpl; lia]. Qed.

Lemma take_nil_iff {A} (l : list A) n : (0 < n)%nat → take n l = [] ↔ l = [].
Proof. intros Hn. destruct l, n; simpl; try lia; done. Qed.

(** A listed conflict is with a channel that matches a covered miner. *)
Lemma listed_conflict fl s org scope exclude x :
  channels_ok s → x ∈ vl_conflicts (preview_rows (resolveScope fl s org scope exclude)) →
  ∃ d, d ∈ scoped fl org scope ∧ sc_ChannelID x ∈ owners fl s org exclude d.
Proof.
  intros Hok Hx. pose proof (preview_rows_inv (resolveScope fl s org scope exclude)) as (_ & _ & _ & _ & Hk & _).
  apply (list_elem_of_fmap_2 sc_ChannelID) in Hx. apply Hk, elem_of_List_map in Hx as (r & Hid & [Hr Hrow]%elem_of_List_filter).
  destruct (conflictKey r) as [d c] eqn:Ek.
  destruct (proj1 (resolveScope_owned fl s org scope exclude d c Hok)) as (Hd & Hc); [eauto|].
  exists d. split; [done|]. apply owners_elem. injection Ek as _ <-. by rewrite Hid.
Qed.

