(* ===== verification/ChannelListing.v ===== *)
(** * Pages of release channels

    The paged listings of [internal/domain/rollout/service.go]: channels by id, the miners
    of a channel by identifier, and membership conflicts. A cursor is the sort key of the
    last row of a page; the next page resumes strictly after it. [collate] is the order of
    the database's text collation. *)

From S2P Require Import Prelude GoSort Float64 Errors RolloutBehavior RolloutStore RolloutTargets.
From S2P Require Import RolloutEngine RolloutAssign GoTime GoBase64 ChannelStore ChannelService.
#[local] Open Scope string_scope.
#[local] Open Scope list_scope.
#[local] Open Scope Z_scope.
#[local] Open Scope go_scope.

Definition ModelGroupPageSize : Z := 100.

(** ** Cursors *)

(** [strings.Join] and [strings.Split] with a zero byte. *)
Fixpoint join_zero (parts : list (list Z)) : list Z :=
  match parts with
  | [] => []
  | [p] => p
  | p :: rest => p ++ 0 :: join_zero rest
  end.

Fixpoint split_zero (l : list Z) : list (list Z) :=
  match l with
  | [] => [[]]
  | b :: rest =>
      if b =? 0 then [] :: split_zero rest
      else match split_zero rest with p :: ps => (b :: p) :: ps | [] => [[b]] end
  end.

Definition encodeCursor (parts : list string) : string := string_of_bytes (base64_raw (join_zero (map bytes parts))).

Definition decodeCursor (cursor : string) (n : nat) : result FleetError (list string) :=
  match base64_decode (bytes cursor) with
  | None => Err NewInvalidArgumentError
  | Some raw =>
      if negb (utf8_valid_bytes raw) then Err NewInvalidArgumentError
      else
        let parts := split_zero raw in
        if negb (bool_decide (length parts = n)) then Err NewInvalidArgumentError
        else Ok (map string_of_bytes parts)
  end.

(** A positive id of a cursor. *)
Definition cursor_id (s : string) : result FleetError Z :=
  match ParseInt s with
  | Some id => if 0 <? id then Ok id else Err NewInvalidArgumentError
  | None => Err NewInvalidArgumentError
  end.

(** The rows of a page, of [limit + 1] fetched ones, and the cursor after it. *)
Definition page_of {R} (limit : Z) (cursor : R → string) (rows : list R) : list R * string :=
  if limit <? Z.of_nat (length rows) then
    let rows := take (Z.to_nat limit) rows in
    (rows, match last rows with Some r => cursor r | None => "" end)
  else (rows, "").

(** ** Channels *)

Definition channels_by_id (org : Z) (s : ChannelState) : list ReleaseChannel :=
  stable_sort (λ a b, rc_ID a <? rc_ID b)
    (List.filter (λ c, rc_OrgID c =? org) (map snd (map_to_list (db_channels (cs_db s))))).

Definition ListReleaseChannelsPage (org after limit : Z) (s : ChannelState) : list ReleaseChannel :=
  take (Z.to_nat limit) (List.filter (λ c, after <? rc_ID c) (channels_by_id org s)).

Section Listing.
Context (fl : ChannelFleet) (collate : string → string → bool).

Definition channel_cursor (cursor : string) : result FleetError Z :=
  if cursor == "" then Ok 0
  else
    parts ← decodeCursor cursor 1;
    match parts with p :: _ => cursor_id p | [] => Err NewInvalidArgumentError end.

Definition ListChannels (org pageSize : Z) (cursor : string) : COp (list Channel * string) :=
  after ← lift (channel_cursor cursor);
  let limit := clampPageSize pageSize in
  rows ← gets (ListReleaseChannelsPage org after (limit + 1));
  let '(rows, next) := page_of limit (λ c, encodeCursor [FormatInt (rc_ID c)]) rows in
  channels ← gets (buildChannelSummaries fl org rows);
  mret (channels, next).

(** ** Miners of a channel *)

Record ChannelMiner := {
  cm_DeviceID : Z;
  cm_DeviceIdentifier : string;
  cm_Manufacturer : string;
  cm_Model : string;
  cm_FirmwareVersion : string;
  cm_Conflicted : bool;
  cm_LastDeployedFirmwareChecksum : string
}.

(** Row comparison of [(device_identifier, id)]. *)
Definition miner_less (a b : string * Z) : bool :=
  collate a.1 b.1 || ((a.1 == b.1) && (a.2 <? b.2)).

Definition miner_key (m : ChannelMiner) : string * Z := (cm_DeviceIdentifier m, cm_DeviceID m).

Definition channel_miners (org channel : Z) (s : ChannelState) : list ChannelMiner :=
  flat_map (λ m, map (λ d,
      {| cm_DeviceID := fd_ID d; cm_DeviceIdentifier := fd_Identifier d; cm_Manufacturer := fd_Manufacturer d;
         cm_Model := fd_Model d; cm_FirmwareVersion := fd_FirmwareVersion d; cm_Conflicted := mm_Conflicted m;
         cm_LastDeployedFirmwareChecksum := default "" (dep_FirmwareChecksum <$> db_deployments (cs_db s) !! fd_ID d) |})
      (List.filter (λ d, fd_ID d =? mm_DeviceID m) (fl_devices fl)))
    (List.filter (λ m, (mm_OrgID m =? org) && (mm_ChannelID m =? channel)) (release_channel_member fl s)).

(** A filter that is absent admits everything. *)
Definition admits (wanted value : string) : bool := (wanted == "") || (value == wanted).

Definition miners_by_identifier (org channel : Z) (manufacturer model : string) (s : ChannelState) : list ChannelMiner :=
  stable_sort (λ a b, miner_less (miner_key a) (miner_key b))
    (List.filter (λ m, admits manufacturer (cm_Manufacturer m) && admits model (cm_Model m)) (channel_miners org channel s)).

Definition is_after {K} (less : K → K → bool) (after : option K) (k : K) : bool :=
  match after with Some a => less a k | None => true end.

Definition ListReleaseChannelMinersPage (org channel : Z) (manufacturer model : string) (after : option (string * Z))
    (limit : Z) (s : ChannelState) : list ChannelMiner :=
  take (Z.to_nat limit)
    (List.filter (λ m, is_after miner_less after (miner_key m)) (miners_by_identifier org channel manufacturer model s)).

Definition miner_cursor (cursor : string) : result FleetError (option (string * Z)) :=
  if cursor == "" then Ok None
  else
    parts ← decodeCursor cursor 2;
    match parts with
    | [identifier; id] => id ← cursor_id id; Ok (Some (identifier, id))
    | _ => Err NewInvalidArgumentError
    end.

Definition ListChannelMiners (org channel : Z) (manufacturer model : string) (pageSize : Z) (cursor : string) :
    COp (list ChannelMiner * string) :=
  _ ← get_channel org channel;
  after ← lift (miner_cursor cursor);
  let limit := clampPageSize pageSize in
  rows ← gets (ListReleaseChannelMinersPage org channel manufacturer model after (limit + 1));
  mret (page_of limit (λ m, encodeCursor [cm_DeviceIdentifier m; FormatInt (cm_DeviceID m)]) rows).

(** ** Conflicts *)

Record MembershipConflict := {
  mf_DeviceID : Z;
  mf_DeviceIdentifier : string;
  mf_Manufacturer : string;
  mf_Model : string;
  mf_ChannelID : Z;
  mf_ChannelName : string;
  mf_Specificity : Z;
  mf_Resolution : string
}.

Definition conflict_less_key (a b : string * Z * Z) : bool :=
  miner_less a.1 b.1 || (bool_decide (a.1 = b.1) && (a.2 <? b.2)).

Definition conflict_key (c : MembershipConflict) : string * Z * Z := (mf_DeviceIdentifier c, mf_DeviceID c, mf_ChannelID c).

(** [channel] is zero to list the conflicts of every channel. *)
Definition conflicts_by_identifier (org channel : Z) (s : ChannelState) : list MembershipConflict :=
  stable_sort (λ a b, conflict_less_key (conflict_key a) (conflict_key b))
    (flat_map (λ k, map (λ d,
        {| mf_DeviceID := mt_DeviceID k.1; mf_DeviceIdentifier := fd_Identifier d; mf_Manufacturer := fd_Manufacturer d;
           mf_Model := fd_Model d; mf_ChannelID := mt_ChannelID k.1; mf_ChannelName := channel_name s (mt_ChannelID k.1);
           mf_Specificity := mt_Specificity k.1; mf_Resolution := k.2 |})
        (List.filter (λ d, fd_ID d =? mt_DeviceID k.1) (fl_devices fl)))
      (List.filter (λ k, (mt_OrgID k.1 =? org) && ((channel =? 0) || (mt_ChannelID k.1 =? channel))) (release_channel_conflict fl s))).

Definition ListReleaseChannelMembershipConflictsPage (org channel : Z) (after : option (string * Z * Z)) (limit : Z)
    (s : ChannelState) : list MembershipConflict :=
  take (Z.to_nat limit)
    (List.filter (λ c, is_after conflict_less_key after (conflict_key c)) (conflicts_by_identifier org channel s)).

Definition conflict_cursor (cursor : string) : result FleetError (option (string * Z * Z)) :=
  if cursor == "" then Ok None
  else
    parts ← decodeCursor cursor 3;
    match parts with
    | [identifier; device; channel] =>
        device ← cursor_id device; channel ← cursor_id channel; Ok (Some (identifier, device, channel))
    | _ => Err NewInvalidArgumentError
    end.

Definition ListMembershipConflicts (org channel pageSize : Z) (cursor : string) : COp (list MembershipConflict * string) :=
  _ ← (if channel =? 0 then mret tt else _ ← get_channel org channel; mret tt);
  after ← lift (conflict_cursor cursor);
  let limit := Z.min (clampPageSize pageSize) ModelGroupPageSize in
  rows ← gets (ListReleaseChannelMembershipConflictsPage org channel after (limit + 1));
  mret (page_of limit (λ c, encodeCursor [mf_DeviceIdentifier c; FormatInt (mf_DeviceID c); FormatInt (mf_ChannelID c)]) rows).

(** ** Model groups *)

Record ModelGroup := {
  mg_Manufacturer : string;
  mg_Model : string;
  mg_FirmwareFileID : string;
  mg_FirmwareAvailable : bool;
  mg_FirmwareChecksum : string;
  mg_FirmwareVersion : string;
  mg_FirmwareTargetManufacturer : string;
  mg_FirmwareTargetModel : string;
  mg_AssignmentGeneration : Z;
  mg_MinerCount : Z;
  mg_OnTargetCount : Z;
  mg_ReportedVersions : list string;
  mg_ReportedVersionCount : Z;
  mg_ActiveRolloutID : Z
}.

#[global] Instance eta_ModelGroup : Eta ModelGroup := λ g,
  {| mg_Manufacturer := mg_Manufacturer g; mg_Model := mg_Model g; mg_FirmwareFileID := mg_FirmwareFileID g;
     mg_FirmwareAvailable := mg_FirmwareAvailable g; mg_FirmwareChecksum := mg_FirmwareChecksum g;
     mg_FirmwareVersion := mg_FirmwareVersion g; mg_FirmwareTargetManufacturer := mg_FirmwareTargetManufacturer g;
     mg_FirmwareTargetModel := mg_FirmwareTargetModel g; mg_AssignmentGeneration := mg_AssignmentGeneration g;
     mg_MinerCount := mg_MinerCount g; mg_OnTargetCount := mg_OnTargetCount g; mg_ReportedVersions := mg_ReportedVersions g;
     mg_ReportedVersionCount := mg_ReportedVersionCount g; mg_ActiveRolloutID := mg_ActiveRolloutID g |}.

Definition observed_pair (m : ChannelMiner) : string * string := (cm_Manufacturer m, cm_Model m).

Definition pair_less (a b : string * string) : bool := collate a.1 b.1 || ((a.1 == b.1) && collate a.2 b.2).

(** The observed pairs, and the assigned ones that no member has. *)
Definition group_pairs (channel : Z) (members : list ChannelMiner) (db : DB) : list (string * string) :=
  remove_dups (map observed_pair members)
  ++ map (λ f, (as_Manufacturer f, as_Model f))
       (List.filter (λ f, (as_ChannelID f =? channel) && (as_FirmwareChecksum f != "")
          && negb (existsb (λ m, same_pair (cm_Manufacturer m) (cm_Model m) (as_Manufacturer f) (as_Model f)) members))
          (db_assignments db)).

(** One row of [ListReleaseChannelModelGroupsPage]: the group with its assignment and
    active rollout, of which the unique indexes allow one each. *)
Definition group_row (channel : Z) (members : list ChannelMiner) (db : DB) (g : string * string) : ModelGroup :=
  let mine := List.filter (λ m, bool_decide (observed_pair m = g)) members in
  let versions := stable_sort collate (remove_dups (map cm_FirmwareVersion mine)) in
  let f := GetReleaseChannelFirmware channel g.1 g.2 db in
  let checksum := default "" (as_FirmwareChecksum <$> f) in
  let version := default "" (as_FirmwareVersion <$> f) in
  let rollout := List.find (λ r, (fr_ChannelID r =? channel) && (fr_Status r == StatusActive)
                   && same_pair (fr_Manufacturer r) (fr_Model r) g.1 g.2) (map snd (map_to_list (db_rollouts db))) in
  {| mg_Manufacturer := g.1; mg_Model := g.2; mg_FirmwareFileID := ""; mg_FirmwareAvailable := false;
     mg_FirmwareChecksum := checksum; mg_FirmwareVersion := version;
     mg_FirmwareTargetManufacturer := default "" (as_TargetManufacturer <$> f);
     mg_FirmwareTargetModel := default "" (as_TargetModel <$> f);
     mg_AssignmentGeneration := default 0 (as_AssignmentGeneration <$> f);
     mg_MinerCount := Z.of_nat (length mine);
     mg_OnTargetCount := if checksum == "" then 0 else Z.of_nat (length (List.filter (λ m,
       (cm_FirmwareVersion m == version) && (cm_LastDeployedFirmwareChecksum m == checksum)) mine));
     mg_ReportedVersions := take 10 versions; mg_ReportedVersionCount := Z.of_nat (length versions);
     mg_ActiveRolloutID := default 0 (fr_ID <$> rollout) |}.

Definition groups_by_pair (org channel : Z) (s : ChannelState) : list (string * string) :=
  stable_sort pair_less (group_pairs channel (channel_miners org channel s) (cs_db s)).

Definition ListReleaseChannelModelGroupsPage (org channel : Z) (after : option (string * string)) (limit : Z)
    (s : ChannelState) : list ModelGroup :=
  map (group_row channel (channel_miners org channel s) (cs_db s))
    (take (Z.to_nat limit) (List.filter (is_after pair_less after) (groups_by_pair org channel s))).

Definition group_cursor (cursor : string) : result FleetError (option (string * string)) :=
  if cursor == "" then Ok None
  else
    parts ← decodeCursor cursor 2;
    match parts with
    | [manufacturer; model] => Ok (Some (manufacturer, model))
    | _ => Err NewInvalidArgumentError
    end.

(** The file that holds the assigned artifact, looked up once per checksum. *)
Definition with_availability `{Env} (g : ModelGroup) : ModelGroup :=
  if mg_FirmwareChecksum g == "" then g
  else match FindCachedFirmwareFileIDByChecksum (mg_FirmwareChecksum g) with
       | Some file => g <| mg_FirmwareFileID := file |> <| mg_FirmwareAvailable := true |>
       | None => g
       end.

Definition ListChannelModelGroups `{Env} (org channel pageSize : Z) (cursor : string) : COp (list ModelGroup * string) :=
  _ ← get_channel org channel;
  after ← lift (group_cursor cursor);
  let limit := Z.min (clampPageSize pageSize) ModelGroupPageSize in
  rows ← gets (ListReleaseChannelModelGroupsPage org channel after (limit + 1));
  let '(rows, next) := page_of limit (λ g, encodeCursor [mg_Manufacturer g; mg_Model g]) rows in
  mret (map with_availability rows, next).

End Listing.
