(* ===== verification/ChannelListingFacts.v ===== *)
(** * Paged listings are complete

    A cursor decodes to the sort key it encodes; following the cursors of a listing from
    the start returns every row once, in order, and ends after finitely many pages. *)

From Stdlib Require Import Sorting.Sorted.
From stdpp Require Import pretty.
From S2P Require Import Prelude GoSort Float64 Errors RolloutBehavior RolloutBehaviorFacts RolloutStore.
From S2P Require Import RolloutTargets RolloutEngine RolloutAssign RolloutAssignFacts GoTime GoBase64.
From S2P Require Import ScheduleFleetFacts ScheduleStoreFacts AuthTokenFacts.
From S2P Require Import ChannelStore ChannelService ChannelFacts ChannelEdits ChannelListing.
#[local] Open Scope string_scope.
#[local] Open Scope list_scope.
#[local] Open Scope Z_scope.
#[local] Open Scope go_scope.

(** ** Cursors *)

Definition no_zero (l : list Z) : bool := forallb (λ b, negb (b =? 0)) l.

Lemma split_zero_part p : no_zero p = true → split_zero p = [p].
Proof.
  induction p as [|b p IH]; simpl; [done|]. intros [Hb Hp]%andb_prop. apply negb_true_iff in Hb. by rewrite Hb, IH.
Qed.

Lemma split_zero_cons p rest : no_zero p = true → split_zero (p ++ 0 :: rest) = p :: split_zero rest.
Proof.
  induction p as [|b p IH]; simpl; [done|]. intros [Hb Hp]%andb_prop. apply negb_true_iff in Hb. by rewrite Hb, IH.
Qed.

Lemma split_join_zero parts : parts ≠ [] → Forall (λ p, no_zero p = true) parts → split_zero (join_zero parts) = parts.
Proof.
  induction parts as [|p parts IH]; intros Hne Hp; [done|]. apply Forall_cons in Hp as [Hp Hrest].
  destruct parts as [|q parts]; [by apply split_zero_part|].
  change (join_zero (p :: q :: parts)) with (p ++ 0 :: join_zero (q :: parts)).
  rewrite split_zero_cons by done. by rewrite IH.
Qed.

(** Valid text followed by valid text is valid. *)
Lemma utf8_valid_app l1 l2 : utf8_valid_bytes l1 = true → utf8_valid_bytes l2 = true → utf8_valid_bytes (l1 ++ l2) = true.
Proof.
  intros H1 H2. revert H1. induction l1 as [l IH] using (induction_ltof1 _ (@length Z)). intros H1.
  destruct l as [|b0 l]; [done|]. cbn [utf8_valid_bytes app] in *. destruct (b0 <? 128).
  { apply IH; [unfold ltof; simpl; lia|done]. }
  destruct l as [|b1 l]; [done|]. cbn [app]. destruct (between 194 223 b0).
  { apply andb_prop in H1 as [-> H1]. apply IH; [unfold ltof; simpl; lia|done]. }
  destruct l as [|b2 l]; [done|]. cbn [app]. destruct (between 224 239 b0).
  { apply andb_prop in H1 as [H1 H3]. rewrite H1. apply IH; [unfold ltof; simpl; lia|done]. }
  destruct l as [|b3 l]; [done|]. cbn [app]. destruct (between 240 244 b0); [|done].
  apply andb_prop in H1 as [H1 H3]. rewrite H1. apply IH; [unfold ltof; simpl; lia|done].
Qed.

(** Text a database column holds: valid and without zero bytes. *)
Definition column_text (s : string) : bool := utf8_valid s && no_zero (bytes s).

Lemma join_zero_valid parts : Forall (λ s, column_text s = true) parts → utf8_valid_bytes (join_zero (map bytes parts)) = true.
Proof.
  induction parts as [|p parts IH]; intros Hp; [done|]. apply Forall_cons in Hp as [[Hv _]%andb_prop Hrest].
  destruct parts as [|q parts]; [done|]. cbn [map join_zero] in *. apply utf8_valid_app; [done|]. by apply IH.
Qed.

Lemma bytes_byte s : Forall byte (bytes s).
Proof.
  unfold bytes. apply Forall_forall. intros b (c & -> & _)%list_elem_of_fmap. unfold byte.
  pose proof (Ascii.nat_ascii_bounded c). lia.
Qed.

Lemma join_zero_byte parts : Forall byte (join_zero (map bytes parts)).
Proof.
  induction parts as [|p parts IH]; [constructor|]. destruct parts as [|q parts]; [apply bytes_byte|].
  cbn [map join_zero] in *. apply Forall_app. split; [apply bytes_byte|]. constructor; [unfold byte; lia|done].
Qed.

Lemma base64_raw_byte l : Forall byte l → Forall (λ b, 0 <= b < 256) (base64_raw l).
Proof.
  induction l as [l IH] using (induction_ltof1 _ (@length Z)). intros Hl.
  assert (∀ d, 0 <= d → 0 <= base64_digit d < 256) as Hd by (intros d Hd; pose proof (base64_digit_ascii d Hd); lia).
  destruct l as [|a [|b [|c rest]]]; [constructor|..]; repeat (apply Forall_cons in Hl as [? Hl]); unfold byte in *; cbn [base64_raw map app];
    repeat (constructor; [apply Hd; rewrite ?Z.lor_nonneg, ?Z.shiftl_nonneg, ?Z.shiftr_nonneg, ?Z.land_nonneg; lia|]); try constructor.
  apply IH; [unfold ltof; simpl; lia|done].
Qed.

Lemma cursor_round_trip parts :
  parts ≠ [] → Forall (λ s, column_text s = true) parts → decodeCursor (encodeCursor parts) (length parts) = Ok parts.
Proof.
  intros Hne Hp. unfold decodeCursor, encodeCursor.
  rewrite bytes_string_of_bytes by (apply base64_raw_byte, join_zero_byte).
  rewrite base64_raw_decode by apply join_zero_byte. rewrite join_zero_valid by done. simpl.
  rewrite split_join_zero.
  - rewrite length_map, bool_decide_true by done. simpl. rewrite map_map. f_equal.
    rewrite <- (map_id parts) at 2. apply map_ext. apply string_of_bytes_bytes.
  - by destruct parts.
  - apply Forall_map. eapply Forall_impl; [exact Hp|]. simpl. by intros s [_ ?]%andb_prop.
Qed.

Lemma cursor_nonempty parts :
  parts ≠ [] → parts ≠ [""] → Forall (λ s, column_text s = true) parts → encodeCursor parts ≠ "".
Proof.
  intros Hne Hone Hp He. pose proof (cursor_round_trip parts Hne Hp) as Hr. rewrite He in Hr.
  unfold decodeCursor in Hr. simpl in Hr. destruct (bool_decide _); [|done]. injection Hr as Hr. by subst.
Qed.

Lemma FormatInt_digits id : 0 < id → decimal 0 (bytes (FormatInt id)) = Some id.
Proof.
  intros Hid. rewrite FormatInt_positive by lia. rewrite (decimal_pretty (Z.to_N id) ""), Z2N.id by lia. done.
Qed.

Lemma FormatInt_text id : 0 < id → column_text (FormatInt id) = true.
Proof.
  intros Hid. apply FormatInt_digits in Hid as Hd. apply decimal_digits in Hd as [Hd _].
  unfold column_text, utf8_valid, no_zero. rewrite forallb_forall in Hd. apply andb_true_intro. split.
  - apply ascii_valid, Forall_forall. intros b Hb%list_elem_of_In%Hd. unfold isDigit, between in Hb. crush_bools. lia.
  - apply forallb_forall. intros b Hb%Hd. unfold isDigit, between in Hb. crush_bools. apply negb_true_iff, Z.eqb_neq. lia.
Qed.

Lemma FormatInt_nonempty id : 0 < id → FormatInt id ≠ "".
Proof. intros Hid He. apply FormatInt_digits in Hid as Hd. rewrite He in Hd. simpl in Hd. injection Hd as <-. lia. Qed.

Lemma cursor_id_FormatInt id : 0 < id < 2 ^ 63 → cursor_id (FormatInt id) = Ok id.
Proof. intros Hid. unfold cursor_id. rewrite ParseInt_FormatInt by done. by rewrite (proj2 (Z.ltb_lt _ _)) by lia. Qed.

(** ** Following cursors *)

(** The rows of all pages from a cursor on, if the listing ends within [fuel] pages. *)
Fixpoint follow {O} (fetch : string → result FleetError (list O * string)) (fuel : nat) (cursor : string) : option (list O) :=
  match fuel with
  | O => None
  | S fuel =>
      match fetch cursor with
      | Ok (rows, next) => if next == "" then Some rows else app rows <$> follow fetch fuel next
      | Err _ => None
      end
  end.

Section Keyset.
Context {R K O : Type} (key : R → K) (less : K → K → bool) (cur : R → string) (out : R → O).
Context (decode : string → result FleetError (option K)) (rows : list R) (limit : Z).
Hypotheses (less_trans : ∀ a b c, less a b = true → less b c = true → less a c = true)
  (less_irrefl : ∀ a, less a a = false)
  (sorted : StronglySorted (λ a b, less (key a) (key b) = true) rows)
  (decodes : ∀ r, r ∈ rows → cur r ≠ "" ∧ decode (cur r) = Ok (Some (key r)))
  (limit_pos : 1 <= limit).

Definition rest (after : option K) : list R := List.filter (λ r, is_after less after (key r)) rows.

Definition fetch (cursor : string) : result FleetError (list O * string) :=
  after ← decode cursor;
  let '(page, next) := page_of limit cur (take (Z.to_nat (limit + 1)) (rest after)) in Ok (map out page, next).

Lemma sorted_filter (p : R → bool) l :
  StronglySorted (λ a b, less (key a) (key b) = true) l → StronglySorted (λ a b, less (key a) (key b) = true) (List.filter p l).
Proof.
  induction 1 as [|x l Hs IH Hall]; simpl; [constructor|]. destruct (p x); [|done]. constructor; [done|].
  rewrite Forall_forall in *. intros y [Hy _]%elem_of_List_filter. auto.
Qed.

(** Past the last row of a page are the rows after the page. *)
Lemma filter_past a r b :
  StronglySorted (λ a b, less (key a) (key b) = true) (a ++ r :: b) →
  List.filter (λ x, less (key r) (key x)) (a ++ r :: b) = b.
Proof.
  intros Hs. rewrite List.filter_app. simpl. rewrite less_irrefl.
  assert (List.filter (λ x, less (key r) (key x)) a = [] ∧ StronglySorted (λ a b, less (key a) (key b) = true) (r :: b)) as [-> Hs'].
  { induction a as [|x a IH]; simpl in *; [done|]. inversion Hs as [|? ? Hs' Hall]; subst. destruct (IH Hs') as [-> ?].
    rewrite Forall_forall in Hall. assert (less (key x) (key r) = true) as Hx by (apply Hall; set_solver).
    destruct (less (key r) (key x)) eqn:E; [|done]. pose proof (less_trans _ _ _ Hx E) as Hb. by rewrite less_irrefl in Hb. }
  inversion Hs' as [|? ? _ Hall]; subst. rewrite Forall_forall in Hall. simpl.
  apply List.forallb_filter_id, forallb_elem. done.
Qed.

Lemma rest_past after a r b : rest after = a ++ r :: b → rest (Some (key r)) = b.
Proof.
  intros Hr. rewrite <- (filter_past a r b); [|rewrite <- Hr; by apply sorted_filter].
  rewrite <- Hr. unfold rest. assert (is_after less after (key r) = true) as Ha.
  { assert (r ∈ rest after) as Hin by (rewrite Hr; set_solver). by apply elem_of_List_filter in Hin as [_ ?]. }
  clear Hr. cbn [is_after]. generalize rows as l. induction l as [|x l IH]; simpl; [done|].
  destruct (is_after less after (key x)) eqn:Ex; [by rewrite IH|].
  destruct (less (key r) (key x)) eqn:E; [|done]. destruct after as [k|]; [|done]. simpl in *.
  by rewrite (less_trans _ _ _ Ha E) in Ex.
Qed.

(** One page: the last one, or the first [limit] rows and a cursor to the others. *)
Lemma fetch_page cursor after :
  decode cursor = Ok after →
  fetch cursor = Ok (map out (rest after), "")
  ∨ ∃ page others next after', rest after = page ++ others ∧ page ≠ [] ∧ next ≠ ""
      ∧ fetch cursor = Ok (map out page, next) ∧ decode next = Ok after' ∧ rest after' = others.
Proof.
  intros Hd. unfold fetch. rewrite Hd. cbn [mbind result_bind]. unfold page_of.
  destruct (Z.ltb_spec limit (Z.of_nat (length (take (Z.to_nat (limit + 1)) (rest after))))) as [Hlt|Hge]; rewrite length_take in *.
  - right. rewrite take_take. replace (Z.to_nat limit `min` Z.to_nat (limit + 1))%nat with (Z.to_nat limit) by lia.
    set (page := take (Z.to_nat limit) (rest after)). destruct (last page) as [r|] eqn:El; cycle 1.
    { apply last_None in El. exfalso. apply (f_equal length) in El. unfold page in El. rewrite length_take in El. simpl in El. lia. }
    apply last_Some in El as [a Ha]. pose proof (take_drop (Z.to_nat limit) (rest after)) as Hsplit. fold page in Hsplit.
    rewrite Ha, <- app_assoc in Hsplit. simpl in Hsplit.
    assert (r ∈ rows) as Hin.
    { assert (r ∈ rest after) as Hr by (rewrite <- Hsplit; set_solver). by apply elem_of_List_filter in Hr as [? _]. }
    destruct (decodes r Hin) as [Hcur Hdec].
    exists page, (drop (Z.to_nat limit) (rest after)), (cur r), (Some (key r)). split_and!; try done.
    + by rewrite <- Hsplit at 1; rewrite Ha, <- app_assoc.
    + rewrite Ha. by destruct a.
    + by apply (rest_past after a).
  - left. by rewrite take_ge by lia.
Qed.

(** Following the cursors returns all the rows after the first one, within as many pages
    as there are rows, and one. *)
Lemma follow_rest fuel cursor after :
  decode cursor = Ok after → (length (rest after) < fuel)%nat →
  follow fetch fuel cursor = Some (map out (rest after)).
Proof.
  revert cursor after. induction fuel as [|fuel IH]; intros cursor after Hd Hlen; [lia|]. cbn [follow].
  destruct (fetch_page cursor after Hd) as [->|(page & others & next & after' & Hr & Hne & Hnext & -> & Hd' & Hr')]; [done|].
  rewrite bool_decide_false by done. rewrite (IH next after' Hd'), Hr'.
  - simpl. by rewrite Hr, map_app.
  - rewrite Hr', Hr, length_app in *. destruct page; [done|]. simpl in Hlen. lia.
Qed.
End Keyset.

Lemma follow_ext {O} (f g : string → result FleetError (list O * string)) fuel cursor :
  (∀ c, f c = g c) → follow f fuel cursor = follow g fuel cursor.
Proof.
  intros Hfg. revert cursor. induction fuel as [|fuel IH]; intros cursor; simpl; [done|]. rewrite Hfg.
  destruct (g cursor) as [[rows next]|e]; [|done]. by rewrite IH.
Qed.

(** Sorting rows whose keys are distinct orders them strictly. *)
Lemma sort_strict {R K} `{EqDecision K} (key : R → K) (less : K → K → bool) l :
  (∀ a b, less a b = true → less b a = false) → (∀ a b c, less a b = true → less b c = true → less a c = true) →
  (∀ a b, less a b = false → less b a = false → a = b) → NoDup (map key l) →
  StronglySorted (λ a b, less (key a) (key b) = true) (stable_sort (λ a b, less (key a) (key b)) l).
Proof.
  intros Hasym Htrans Htotal Hn. set (lt := λ a b : R, less (key a) (key b)).
  assert (strict_weak_on lt (λ _, True)) as Hswo.
  { split; unfold lt; [intros x y _ _; apply Hasym|]. intros x y z _ _ _ Hyx Hzy.
    destruct (less (key z) (key x)) eqn:E; [|done].
    destruct (less (key x) (key y)) eqn:E2; [by rewrite (Htrans _ _ _ E E2) in Hzy|].
    rewrite (Htotal _ _ Hyx E2) in Hzy. congruence. }
  pose proof (stable_sort_sorted lt (λ _, True) Hswo l ltac:(by apply Forall_true)) as Hs.
  assert (NoDup (map key (stable_sort lt l))) as Hn' by (by rewrite (stable_sort_perm lt l)).
  revert Hn'. induction Hs as [|x l' Hs IH Hall]; intros Hn'; constructor; apply NoDup_cons in Hn' as [Hx Hn']; [by apply IH|].
  rewrite Forall_forall in *. intros y Hy. specialize (Hall y Hy). unfold not_after, lt in Hall.
  destruct (less (key x) (key y)) eqn:E; [done|]. exfalso. apply Hx. rewrite (Htotal _ _ E Hall). by apply list_elem_of_fmap_2.
Qed.

(** ** Channels *)

Lemma channels_by_id_elem org s c : channels_ok s →
  c ∈ channels_by_id org s ↔ db_channels (cs_db s) !! rc_ID c = Some c ∧ rc_OrgID c = org.
Proof.
  intros Hok. unfold channels_by_id. rewrite stable_sort_elem, elem_of_List_filter, Z.eqb_eq, elem_of_List_map. split.
  - intros [([k c'] & -> & Hk%elem_of_map_to_list) Ho]. simpl. destruct (co_ids _ Hok _ _ Hk) as [-> _]. done.
  - intros [Hc Ho]. split; [|done]. exists (rc_ID c, c). split; [done|]. by apply elem_of_map_to_list.
Qed.

Lemma NoDup_fst_filter {A B} (f : A → B) (p : A → bool) l : NoDup (map f l) → NoDup (map f (List.filter p l)).
Proof.
  induction l as [|x l IH]; simpl; [done|]. intros [Hx Hn]%NoDup_cons. destruct (p x); [|by apply IH].
  simpl. constructor; [|by apply IH]. rewrite elem_of_List_map in *. intros (y & Hy & [Hin _]%elem_of_List_filter). eauto.
Qed.

Lemma channels_by_id_sorted org s : channels_ok s →
  StronglySorted (λ a b, (rc_ID a <? rc_ID b) = true) (channels_by_id org s).
Proof.
  intros Hok. apply (sort_strict rc_ID Z.ltb); try (intros; crush_bools; first [apply Z.ltb_ge|apply Z.ltb_lt|idtac]; lia).
  apply NoDup_fst_filter. rewrite map_map.
  rewrite (map_ext_in _ fst); [apply NoDup_fst_map_to_list|].
  intros [k c] Hin%list_elem_of_In%elem_of_map_to_list. by destruct (co_ids _ Hok _ _ Hin).
Qed.

Definition channel_key_cursor (c : ReleaseChannel) : string := encodeCursor [FormatInt (rc_ID c)].

Lemma channel_key_cursor_ok c : 0 < rc_ID c < 2 ^ 63 →
  channel_key_cursor c ≠ "" ∧ channel_cursor (channel_key_cursor c) = Ok (rc_ID c).
Proof.
  intros Hc. pose proof (FormatInt_text (rc_ID c) ltac:(lia)) as Ht. pose proof (FormatInt_nonempty (rc_ID c) ltac:(lia)) as Hn.
  assert (channel_key_cursor c ≠ "") as Hne.
  { apply cursor_nonempty; [done|congruence|]. by constructor. }
  split; [done|]. unfold channel_cursor. rewrite bool_decide_false by done. unfold channel_key_cursor.
  pose proof (cursor_round_trip [FormatInt (rc_ID c)] ltac:(done) ltac:(by constructor)) as Hr. cbn [length] in Hr.
  rewrite Hr. simpl. by apply cursor_id_FormatInt.
Qed.

Lemma ListChannels_fetch fl org size s cursor :
  (ListChannels fl org size cursor s).1 =
  fetch rc_ID Z.ltb channel_key_cursor (buildChannelSummary fl org s) (λ c, channel_cursor c ≫= λ id, Ok (Some id))
    (channels_by_id org s) (clampPageSize size) cursor.
Proof.
  unfold ListChannels, fetch, mbind, M_bind, lift, gets. destruct (channel_cursor cursor) as [after|e]; [|done].
  unfold ListReleaseChannelsPage, rest, is_after. simpl. fold channel_key_cursor. by destruct (page_of _ _ _) as [page next].
Qed.

(** placeholder *)
Theorem channel_pages_list_every_channel fl org size s :
  channels_ok s → cs_nextChannelID s <= 2 ^ 63 →
  follow (λ cursor, (ListChannels fl org size cursor s).1) (S (length (channels_by_id org s))) ""
    = Some (map (buildChannelSummary fl org s) (channels_by_id org s))
  ∧ (∀ c, c ∈ channels_by_id org s ↔ db_channels (cs_db s) !! rc_ID c = Some c ∧ rc_OrgID c = org)
  ∧ StronglySorted (λ a b, (rc_ID a <? rc_ID b) = true) (channels_by_id org s).
Proof.
  intros Hok Hnext. split_and!; [|intros c; by apply channels_by_id_elem|by apply channels_by_id_sorted].
  assert (∀ c, c ∈ channels_by_id org s → 0 < rc_ID c < 2 ^ 63) as Hids.
  { intros c [Hc _]%channels_by_id_elem; [|done]. destruct (co_ids _ Hok _ _ Hc). lia. }
  rewrite (follow_ext _ _ _ _ (ListChannels_fetch fl org size s)).
  assert (rest rc_ID Z.ltb (channels_by_id org s) (Some 0) = channels_by_id org s) as Hall.
  { apply List.forallb_filter_id, forallb_elem. intros c Hc%Hids. simpl. apply Z.ltb_lt. lia. }
  rewrite (follow_rest rc_ID Z.ltb) with (after := Some 0); rewrite ?Hall; try done.
  - intros; crush_bools; apply Z.ltb_lt; lia.
  - apply Z.ltb_irrefl.
  - by apply channels_by_id_sorted.
  - intros c Hc%Hids. destruct (channel_key_cursor_ok c Hc) as [? ->]. done.
  - pose proof (clampPageSize_pos size). lia.
  - lia.
Qed.

(** ** Miners of a channel *)

(** What paging relies on of the collation: text is totally ordered. *)
Class TextOrder (collate : string → string → bool) : Prop := {
  collate_asym a b : collate a b = true → collate b a = false;
  collate_trans a b c : collate a b = true → collate b c = true → collate a c = true;
  collate_total a b : collate a b = false → collate b a = false → a = b
}.

(** The byte order, collation "C". *)
#[export] Instance bytewise : TextOrder String.ltb.
Proof.
  split.
  - intros a b. apply string_ltb_swo; done.
  - intros a b c Hab Hbc. unfold String.ltb in *. destruct (String.compare a b) eqn:E1; try done.
    destruct (String.compare b c) eqn:E2; try done. by rewrite (string_compare_lt_trans a b c).
  - apply string_ltb_total.
Qed.

Section MinerOrder.
Context (collate : string → string → bool) `{!TextOrder collate}.

Lemma collate_irrefl a : collate a a = false.
Proof. destruct (collate a a) eqn:E; [|done]. by rewrite (collate_asym a a E) in E. Qed.

Lemma miner_less_spec a b : miner_less collate a b = true ↔ collate a.1 b.1 = true ∨ (a.1 = b.1 ∧ a.2 < b.2).
Proof. unfold miner_less. rewrite orb_true_iff, andb_true_iff, bool_decide_eq_true, Z.ltb_lt. done. Qed.

Lemma miner_less_asym a b : miner_less collate a b = true → miner_less collate b a = false.
Proof.
  intros H. destruct (miner_less collate b a) eqn:E; [|done]. apply miner_less_spec in H, E.
  destruct H as [H|[H1 H2]], E as [E|[E1 E2]]; [by rewrite (collate_asym _ _ H) in E|..|lia].
  - rewrite E1, collate_irrefl in H. done.
  - rewrite H1, collate_irrefl in E. done.
Qed.

Lemma miner_less_trans a b c : miner_less collate a b = true → miner_less collate b c = true → miner_less collate a c = true.
Proof.
  rewrite !miner_less_spec. intros [H|[H1 H2]] [E|[E1 E2]].
  - left. by eapply collate_trans.
  - left. by rewrite <- E1.
  - left. by rewrite H1.
  - right. split; [congruence|lia].
Qed.

Lemma miner_less_total a b : miner_less collate a b = false → miner_less collate b a = false → a = b.
Proof.
  destruct a as [x i], b as [y j]. unfold miner_less. simpl. intros [H1 H2]%orb_false_iff [E1 E2]%orb_false_iff.
  pose proof (collate_total x y H1 E1) as ->. rewrite bool_decide_true in * by done. simpl in *. crush_bools. f_equal. lia.
Qed.
End MinerOrder.

(** The device table: a primary key, positive ids, and identifiers that are text. *)
Record fleet_ok (fl : ChannelFleet) : Prop := {
  fo_ids : NoDup (map fd_ID (fl_devices fl));
  fo_range d : d ∈ fl_devices fl → 0 < fd_ID d < 2 ^ 63;
  fo_text d : d ∈ fl_devices fl → column_text (fd_Identifier d) = true
}.

Lemma member_keys_NoDup fl s :
  NoDup (map (λ m, (mm_ChannelID m, mm_OrgID m, mm_DeviceID m)) (release_channel_member fl s)).
Proof.
  unfold release_channel_member. rewrite map_map. simpl. apply NoDup_fst_filter. unfold per_channel. rewrite map_map. simpl.
  rewrite (map_ext _ (λ k, k)); [rewrite map_id; apply NoDup_remove_dups|]. by intros [[c o] d].
Qed.

Lemma members_of_channel_NoDup fl s org channel :
  NoDup (map mm_DeviceID (List.filter (λ m, (mm_OrgID m =? org) && (mm_ChannelID m =? channel)) (release_channel_member fl s))).
Proof.
  pose proof (member_keys_NoDup fl s) as Hn. induction (release_channel_member fl s) as [|m l IH]; simpl; [constructor|].
  apply NoDup_cons in Hn as [Hm Hn]. destruct (_ && _) eqn:E; [|by apply IH]. crush_bools. simpl. constructor; [|by apply IH].
  rewrite elem_of_List_map. intros (x & Hd & [Hx Hb]%elem_of_List_filter). crush_bools. apply Hm, elem_of_List_map.
  exists x. split; [|done]. congruence.
Qed.

Lemma filter_ids_at_most {A} (id : A → Z) l d : NoDup (map id l) → (length (List.filter (λ x, (id x =? d)%Z) l) <= 1)%nat.
Proof.
  induction l as [|x l IH]; simpl; [lia|]. intros [Hx Hn]%NoDup_cons. destruct (Z.eqb_spec (id x) d) as [E|E]; [|by apply IH].
  simpl. assert (List.filter (λ y, (id y =? d)%Z) l = []) as ->; [|simpl; lia].
  apply elem_of_nil_inv. intros y [Hy Hd%Z.eqb_eq]%elem_of_List_filter. apply Hx. rewrite E, <- Hd. by apply list_elem_of_fmap_2.
Qed.

Lemma channel_miners_ids fl org channel s : fleet_ok fl → NoDup (map cm_DeviceID (channel_miners fl org channel s)).
Proof.
  intros Hfl. unfold channel_miners. pose proof (members_of_channel_NoDup fl s org channel) as Hn.
  induction (List.filter _ (release_channel_member fl s)) as [|m l IH]; simpl; [constructor|].
  apply NoDup_cons in Hn as [Hm Hn]. rewrite map_app. apply NoDup_app. split_and!; [|..|by apply IH].
  - rewrite map_map. simpl. pose proof (filter_ids_at_most fd_ID (fl_devices fl) (mm_DeviceID m) (fo_ids _ Hfl)).
    destruct (List.filter _ (fl_devices fl)) as [|x [|y k]]; simpl in *; [constructor|apply NoDup_singleton|lia].
  - intros d Hd Hin. rewrite map_map in Hd. simpl in Hd. apply elem_of_List_map in Hd as (x & -> & [_ Hx%Z.eqb_eq]%elem_of_List_filter).
    apply Hm. rewrite <- Hx. apply elem_of_List_map in Hin as (y & Hy & Hin). apply elem_of_flat_map in Hin as (m' & Hm' & Hin).
    apply elem_of_List_map in Hin as (z & -> & [_ Hz%Z.eqb_eq]%elem_of_List_filter). simpl in Hy.
    apply elem_of_List_map. exists m'. split; [congruence|done].
Qed.

Lemma channel_miner_device fl org channel s m : m ∈ channel_miners fl org channel s →
  ∃ d, d ∈ fl_devices fl ∧ cm_DeviceID m = fd_ID d ∧ cm_DeviceIdentifier m = fd_Identifier d.
Proof.
  intros (x & _ & Hin)%elem_of_flat_map. apply elem_of_List_map in Hin as (d & -> & [Hd _]%elem_of_List_filter). eauto.
Qed.

Definition miner_key_cursor (m : ChannelMiner) : string := encodeCursor [cm_DeviceIdentifier m; FormatInt (cm_DeviceID m)].

Lemma miner_key_cursor_ok m : 0 < cm_DeviceID m < 2 ^ 63 → column_text (cm_DeviceIdentifier m) = true →
  miner_key_cursor m ≠ "" ∧ miner_cursor (miner_key_cursor m) = Ok (Some (miner_key m)).
Proof.
  intros Hid Ht. pose proof (FormatInt_text (cm_DeviceID m) ltac:(lia)) as Hf.
  assert (Forall (λ s, column_text s = true) [cm_DeviceIdentifier m; FormatInt (cm_DeviceID m)]) as Hparts by (by repeat constructor).
  assert (miner_key_cursor m ≠ "") as Hne by (by apply cursor_nonempty).
  split; [done|]. unfold miner_cursor. rewrite bool_decide_false by done. unfold miner_key_cursor.
  pose proof (cursor_round_trip [cm_DeviceIdentifier m; FormatInt (cm_DeviceID m)] ltac:(done) Hparts) as Hr.
  cbn [length] in Hr. rewrite Hr. cbn [mbind result_bind].
  by rewrite cursor_id_FormatInt.
Qed.

Lemma ListChannelMiners_fetch fl collate org channel manufacturer model size s cursor row :
  find_channel org channel s = Some row →
  (ListChannelMiners fl collate org channel manufacturer model size cursor s).1 =
  fetch miner_key (miner_less collate) miner_key_cursor (λ m, m) miner_cursor
    (miners_by_identifier fl collate org channel manufacturer model s) (clampPageSize size) cursor.
Proof.
  intros Hrow. unfold ListChannelMiners, get_channel, fetch, mbind, M_bind, lift, gets, mret, M_ret. rewrite Hrow.
  destruct (miner_cursor cursor) as [after|e]; [|done]. simpl.
  unfold ListReleaseChannelMinersPage, rest. fold miner_key_cursor. destruct (page_of _ _ _) as [page next]. by rewrite map_id.
Qed.

(** C40: Following the cursors of a channel's miner listing, at any page size and with any
    filters, ends within as many pages as there are rows and one, and returns every member that
    passes the filters once, in the order of the collation. *)
Theorem miner_pages_list_every_member fl collate org channel manufacturer model size s :
  TextOrder collate → fleet_ok fl → is_Some (find_channel org channel s) →
  let rows := miners_by_identifier fl collate org channel manufacturer model s in
  follow (λ cursor, (ListChannelMiners fl collate org channel manufacturer model size cursor s).1) (S (length rows)) "" = Some rows
  ∧ StronglySorted (λ a b, miner_less collate (miner_key a) (miner_key b) = true) rows
  ∧ ∀ m, m ∈ rows ↔ m ∈ channel_miners fl org channel s
      ∧ (manufacturer = "" ∨ cm_Manufacturer m = manufacturer) ∧ (model = "" ∨ cm_Model m = model).
Proof.
  intros Hcol Hfl [row Hrow] rows.
  assert (StronglySorted (λ a b, miner_less collate (miner_key a) (miner_key b) = true) rows) as Hs.
  { apply (sort_strict miner_key (miner_less collate)).
    - by apply miner_less_asym.
    - by apply miner_less_trans.
    - by apply miner_less_total.
    - apply NoDup_fst_filter. pose proof (channel_miners_ids fl org channel s Hfl) as Hn.
      apply (NoDup_fmap_1 snd). change (snd <$> map miner_key ?l) with (map snd (map miner_key l)). by rewrite map_map. }
  assert (∀ m, m ∈ rows ↔ m ∈ channel_miners fl org channel s
      ∧ (manufacturer = "" ∨ cm_Manufacturer m = manufacturer) ∧ (model = "" ∨ cm_Model m = model)) as Hin.
  { intros m. unfold rows, miners_by_identifier. rewrite stable_sort_elem, elem_of_List_filter. unfold admits.
    by rewrite andb_true_iff, !orb_true_iff, !bool_decide_eq_true. }
  split_and!; [|done|done].
  rewrite (follow_ext _ _ _ _ (λ c, ListChannelMiners_fetch fl collate org channel manufacturer model size s c row Hrow)). fold rows.
  assert (rest miner_key (miner_less collate) rows None = rows) as Hall by (by apply List.forallb_filter_id, forallb_elem).
  rewrite (follow_rest miner_key (miner_less collate)) with (after := None); rewrite ?Hall, ?map_id; try done.
  - by apply miner_less_trans.
  - intros a. destruct (miner_less collate a a) eqn:E; [|done]. by rewrite (miner_less_asym collate a a E) in E.
  - intros m [Hm _]%Hin. destruct (channel_miner_device _ _ _ _ _ Hm) as (d & Hd & Hid & Hident).
    apply miner_key_cursor_ok; [rewrite Hid; by apply (fo_range _ Hfl)|rewrite Hident; by apply (fo_text _ Hfl)].
  - pose proof (clampPageSize_pos size). lia.
  - lia.
Qed.
