(* ===== verification/ChannelExamples.v ===== *)
(** * Release channels on a small fleet

    Three miners on one site, two of them in a rack. The channels are created while the
    group they select is empty; a miner added to it later is matched by two channels. Each
    property of the channel files that has hypotheses is applied here. *)

From Stdlib Require Import Sorting.Sorted.
From S2P Require Import Prelude GoSort Float64 Errors RolloutBehavior RolloutStore RolloutTargets.
From S2P Require Import RolloutEngine RolloutAssign RolloutExamples ChannelStore ChannelService.
From S2P Require Import ChannelFacts ChannelEdits ChannelSafety ChannelMembership ChannelPreview.
From S2P Require Import ChannelListing ChannelListingFacts.
#[local] Open Scope string_scope.
#[local] Open Scope list_scope.
#[local] Open Scope Z_scope.
#[local] Open Scope go_scope.

Definition ex_device (id : Z) : FleetDevice :=
  {| fd_ID := id; fd_OrgID := 1; fd_Identifier := ex_name id; fd_SiteID := Some 1; fd_BuildingID := Some 2;
     fd_Deleted := false; fd_DiscoveredDeleted := false; fd_Manufacturer := "Proto"; fd_Model := "Rig";
     fd_FirmwareVersion := "1.0" |}.

(** [grouped] are the miners of group 11. *)
Definition ex_fleet (grouped : list Z) : ChannelFleet :=
  {| fl_devices := [ex_device 1; ex_device 2; ex_device 3];
     fl_sets := [{| fs_ID := 10; fs_OrgID := 1; fs_Type := "rack"; fs_Deleted := false |};
                 {| fs_ID := 11; fs_OrgID := 1; fs_Type := "group"; fs_Deleted := false |}];
     fl_members := {| sm_SetID := 10; sm_SetType := "rack"; sm_OrgID := 1; sm_DeviceID := 1 |}
       :: map (λ d, {| sm_SetID := 11; sm_SetType := "group"; sm_OrgID := 1; sm_DeviceID := d |}) grouped;
     fl_racks := [{| fk_SetID := 10; fk_BuildingID := Some 2 |}];
     fl_sites := [{| fp_ID := 1; fp_OrgID := 1; fp_Deleted := false |}];
     fl_buildings := [{| fp_ID := 2; fp_OrgID := 1; fp_Deleted := false |}] |}.

Definition ex_spec (name : string) (scope : Scope) : ChannelSpec :=
  {| cp_Name := name; cp_Description := ""; cp_Scope := scope; cp_Behavior := ex_behavior |}.

Definition rack_scope : Scope := empty_scope <| RackIDs := [10; 10] |>.
Definition group_scope : Scope := empty_scope <| GroupIDs := [11] |>.
Definition miner_scope : Scope := empty_scope <| DeviceIdentifiers := ["m3"; ""] |>.
Definition site_scope : Scope := empty_scope <| SiteIDs := [1] |>.

Definition no_channels : ChannelState :=
  {| cs_db := (ex_db ex_rollout [] []) <| db_channels := ∅ |> <| db_rollouts := ∅ |>; cs_info := ∅; cs_targets := [];
     cs_nextChannelID := 1 |}.

Lemma no_channels_ok : channels_ok no_channels.
Proof.
  split; simpl.
  - intros c row H. by rewrite lookup_empty in H.
  - lia.
  - intros c row H. by rewrite lookup_empty in H.
  - intros c1 c2 r1 r2 H. by rewrite lookup_empty in H.
  - intros c. by rewrite !lookup_empty.
  - intros t Ht. by apply elem_of_nil in Ht.
  - constructor.
Qed.

(** Channel 1 takes the rack, channel 2 the empty group. *)
Definition two_channels : ChannelState :=
  edits (ex_fleet []) [CreateRequest 1 9 (ex_spec "rack" rack_scope); CreateRequest 1 9 (ex_spec " group " group_scope)] no_channels.

Lemma two_channels_ok : channels_ok two_channels.
Proof. apply edits_ok, no_channels_ok. Qed.

(** Miner 1 joins the group: both channels match it. *)
Definition grown : ChannelFleet := ex_fleet [1; 2].

Definition edits_ex : list ChannelRequest :=
  [CreateRequest 1 9 (ex_spec "edge" miner_scope); CreateRequest 1 9 (ex_spec "all" site_scope);
   UpdateRequest 1 1 (ex_spec "rack" rack_scope); DeleteRequest 1 7].

Definition hit_b (fl : ChannelFleet) (s : ChannelState) (c o d k : Z) : bool :=
  bool_decide ({| mt_ChannelID := c; mt_OrgID := o; mt_DeviceID := d; mt_Specificity := k |} ∈ release_channel_match fl s).

Lemma hit_matches fl s c o d k : hit_b fl s c o d k = true → matches fl s c o d.
Proof. intros H%bool_decide_eq_true. by exists k. Qed.

(** The site scope is refused, the others are saved. *)
Example edits_ex_channels :
  map (λ c, (rc_ID c, rc_Name c)) (channels_by_id 1 (edits grown edits_ex two_channels)) = [(1, "rack"); (2, "group"); (3, "edge")].
Proof. vm_compute. reflexivity. Qed.

Lemma channel_edits_add_no_conflict_witness : conflict grown two_channels 1 1 1 2.
Proof.
  apply (channel_edits_add_no_conflict grown edits_ex two_channels 1 1 1 2 two_channels_ok).
  split; [discriminate|]. split; [apply (hit_matches _ _ _ _ _ 3)|apply (hit_matches _ _ _ _ _ 2)]; vm_compute; reflexivity.
Defined.

Lemma channel_tables_stay_well_formed_witness : channels_ok (edits grown edits_ex two_channels).
Proof. apply (channel_tables_stay_well_formed grown edits_ex two_channels two_channels_ok). Defined.

Definition edge_call := CreateChannel grown 1 9 (ex_spec "edge" miner_scope) two_channels.

Definition edge_channel : Channel :=
  {| ch_ID := 3; ch_Name := "edge"; ch_Description := ""; ch_Scope := empty_scope <| DeviceIdentifiers := ["m3"] |>;
     ch_Behavior := ex_behavior; ch_MinerCount := 1; ch_ModelGroupCount := 1 |}.

Lemma edge_call_ok : edge_call = (Ok edge_channel, edge_call.2).
Proof.
  enough (edge_call.1 = Ok edge_channel) as H by (rewrite <- H; apply surjective_pairing). vm_compute. reflexivity.
Qed.

Lemma saved_channel_covers_its_scope_witness :
  matches grown edge_call.2 3 1 3 ↔ 3 ∈ scoped grown 1 (normalize miner_scope).
Proof.
  exact (proj1 (proj2 (saved_channel_covers_its_scope grown 1 (ex_spec "edge" miner_scope) two_channels edge_channel edge_call.2
    two_channels_ok (or_introl (ex_intro _ 9 edge_call_ok)))) 3).
Defined.

(** Miner 1 belongs to the group's channel, which is more specific than the rack's. *)
Example members_ex :
  map (λ m, (mm_DeviceID m, mm_ChannelID m, mm_Conflicted m)) (release_channel_member grown two_channels) = [(1, 2, true); (2, 2, false)].
Proof. vm_compute. reflexivity. Qed.

Lemma grown_ids : NoDup (map fd_ID (fl_devices grown)).
Proof. apply (bool_decide_eq_true_1 _). vm_compute. reflexivity. Qed.


Example preview_ex :
  let p := summarize (resolveScope grown two_channels 1 site_scope 0) in
  sv_MinerCount p = 3 ∧ map (λ c, (sc_ChannelID c, sc_MinerCount c)) (sv_Conflicts p) = [(1, 1); (2, 2)].
Proof. vm_compute. split; reflexivity. Qed.

Lemma channel_pages_list_every_channel_witness :
  follow (λ cursor, (ListChannels grown 1 1 cursor two_channels).1) 3 ""
  = Some (map (buildChannelSummary grown 1 two_channels) (channels_by_id 1 two_channels)).
Proof.
  exact (proj1 (channel_pages_list_every_channel grown 1 1 two_channels two_channels_ok ltac:(vm_compute; discriminate))).
Defined.

Lemma grown_ok : fleet_ok grown.
Proof.
  split; [apply grown_ids|..]; intros d Hd; simpl in Hd; repeat (apply elem_of_cons in Hd as [->|Hd]);
    try (by apply elem_of_nil in Hd); (split; vm_compute; reflexivity) || (vm_compute; reflexivity).
Qed.

Lemma miner_pages_list_every_member_witness :
  follow (λ cursor, (ListChannelMiners grown String.ltb 1 2 "" "" 1 cursor two_channels).1) 3 ""
  = Some (miners_by_identifier grown String.ltb 1 2 "" "" two_channels).
Proof.
  exact (proj1 (miner_pages_list_every_member grown String.ltb 1 2 "" "" 1 two_channels bytewise grown_ok
    ltac:(vm_compute; eexists; reflexivity))).
Defined.
