(* ===== verification/CurtailmentEvents.v ===== *)
(** * Curtailment events and their targets

    The [curtailment_event] and [curtailment_target] tables of
    [internal/domain/curtailment/models/models.go], and the statements of
    [sqlc/queries/curtailment.sql] and [curtailment_confirmation.sql] with the
    transactions of [stores/sqlstores/curtailment.go] that move an event through its
    life cycle: one function per statement, with the guards that make a late writer
    lose.

    An event is found by its id; [event_uuid], a second key of the row, is identified
    with it. JSON columns are modelled by what the code decodes from them. Numeric
    columns keep a float64 exactly. [desired_state] has the two values its column
    takes. *)

From S2P Require Import Prelude GoSort Float64 Errors RolloutBehavior CurtailmentModes.
From S2P Require Import CurtailmentSelector CurtailmentPreview.
#[local] Open Scope string_scope.
#[local] Open Scope list_scope.
#[local] Open Scope Z_scope.
#[local] Open Scope go_scope.

(** ** Data *)

Inductive EventState :=
| EvPending | EvActive | EvRestoring
| EvCompleted | EvCompletedWithFailures | EvCancelled | EvFailed.

Inductive TargetState :=
| TgPending | TgDispatching | TgDispatched | TgConfirmed | TgDrifted | TgUnavailable
| TgResolved | TgReleased | TgRestoreFailed.

Inductive DesiredState := DsCurtailed | DsActive.

#[export] Instance EventState_eq_dec : EqDecision EventState.
Proof. solve_decision. Defined.
#[export] Instance TargetState_eq_dec : EqDecision TargetState.
Proof. solve_decision. Defined.
#[export] Instance DesiredState_eq_dec : EqDecision DesiredState.
Proof. solve_decision. Defined.

Definition IsTerminal (s : EventState) : bool :=
  match s with
  | EvCompleted | EvCompletedWithFailures | EvCancelled | EvFailed => true
  | EvPending | EvActive | EvRestoring => false
  end.

(** [state NOT IN ('resolved', 'restore_failed', 'released')] is the negation. *)
Definition settled (s : TargetState) : bool :=
  match s with TgResolved | TgRestoreFailed | TgReleased => true | _ => false end.

Record TargetPhaseSummary := {
  ph_State : TargetState;
  ph_StartedAt : option Z;
  ph_DispatchedAt : option Z;
  ph_BatchUUID : option string;
  ph_CompletedAt : option Z;
  ph_RetryCount : Z;
  ph_FailureCount : Z;
  ph_LastError : option string
}.

#[export] Instance eta_TargetPhaseSummary : Eta TargetPhaseSummary := λ p,
  {| ph_State := ph_State p; ph_StartedAt := ph_StartedAt p; ph_DispatchedAt := ph_DispatchedAt p;
     ph_BatchUUID := ph_BatchUUID p; ph_CompletedAt := ph_CompletedAt p;
     ph_RetryCount := ph_RetryCount p; ph_FailureCount := ph_FailureCount p;
     ph_LastError := ph_LastError p |}.

(** A target. The restore columns are all NULL until a restore begins: they are one
    optional summary, as the domain reads them. *)
Record Target := {
  tg_DeviceIdentifier : string;
  tg_State : TargetState;
  tg_DesiredState : DesiredState;
  tg_BaselinePowerW : option float64;
  tg_LastDispatchedAt : option Z;
  tg_LastBatchUUID : option string;
  tg_ObservedPowerW : option float64;
  tg_ObservedAt : option Z;
  tg_ConfirmedAt : option Z;
  tg_RetryCount : Z;
  tg_LastError : option string;
  tg_CurtailPhase : TargetPhaseSummary;
  tg_RestorePhase : option TargetPhaseSummary
}.

#[export] Instance eta_Target : Eta Target := λ t,
  {| tg_DeviceIdentifier := tg_DeviceIdentifier t; tg_State := tg_State t;
     tg_DesiredState := tg_DesiredState t; tg_BaselinePowerW := tg_BaselinePowerW t;
     tg_LastDispatchedAt := tg_LastDispatchedAt t; tg_LastBatchUUID := tg_LastBatchUUID t;
     tg_ObservedPowerW := tg_ObservedPowerW t; tg_ObservedAt := tg_ObservedAt t;
     tg_ConfirmedAt := tg_ConfirmedAt t; tg_RetryCount := tg_RetryCount t;
     tg_LastError := tg_LastError t; tg_CurtailPhase := tg_CurtailPhase t;
     tg_RestorePhase := tg_RestorePhase t |}.

(** [models.AuthorizationEnvelope]. *)
Record AuthorizationEnvelope := {
  ae_SelectedResourceSiteIDs : list Z;
  ae_CurrentMemberSiteIDs : list Z;
  ae_MinerScopeUnbounded : bool;
  ae_FacilityFanSiteIDs : list Z;
  ae_FacilityFanScopeUnbounded : bool
}.

Definition LoopTypeClosed := "closed".

(** The fields of [models.Event] the life cycle reads. [ce_Scope] is what
    [ScopeFromJSON] makes of the scope column (an error, no scope, or a scope) and
    [ce_ScopeSiteID] its site_id; [ce_Envelope] and the three [ce_Snapshot] fields are
    what the code decodes from the envelope and the decision snapshot. *)
Record CurtailmentEvent := {
  ce_ID : Z;
  ce_OrgID : Z;
  ce_State : EventState;
  ce_Reason : string;
  ce_Mode : string;
  ce_LoopType : string;
  ce_ScopeType : string;
  ce_Scope : result FleetError (option CurtailmentScope);
  ce_ScopeSiteID : option Z;
  ce_Envelope : option AuthorizationEnvelope;
  ce_SnapshotMinPowerW : option Z;
  ce_SnapshotCooldownSec : option Z;
  ce_SnapshotRequiresAdmin : result FleetError bool;
  ce_CurtailBatchSize : option Z;
  ce_CurtailBatchIntervalSec : Z;
  ce_LastCurtailPendingDispatchAt : option Z;
  ce_RestoreBatchSize : Z;
  ce_RestoreBatchIntervalSec : Z;
  ce_EffectiveBatchSize : option Z;
  ce_MinCurtailedDurationSec : Z;
  ce_MaxDurationSeconds : option Z;
  ce_AllowUnbounded : bool;
  ce_IncludeMaintenance : bool;
  ce_ForceIncludeMaintenance : bool;
  ce_ForceIncludeAllPairedMiners : bool;
  ce_FacilityFanDeviceIDs : list Z;
  ce_FacilityFanSiteIDs : list Z;
  ce_FanOffDelaySec : Z;
  ce_FanRestoreDelaySec : Z;
  ce_FanOffSentAt : option Z;
  ce_FanOnSentAt : option Z;
  ce_FanAirflowReopenedAt : option Z;
  ce_FanLastError : option string;
  ce_StartedAt : option Z;
  ce_EndedAt : option Z;
  ce_SourceActorType : string;
  ce_ExternalSource : option string;
  ce_CreatedByUserID : Z
}.

#[export] Instance eta_CurtailmentEvent : Eta CurtailmentEvent := λ e,
  {| ce_ID := ce_ID e; ce_OrgID := ce_OrgID e; ce_State := ce_State e;
     ce_Reason := ce_Reason e; ce_Mode := ce_Mode e;
     ce_LoopType := ce_LoopType e; ce_ScopeType := ce_ScopeType e; ce_Scope := ce_Scope e;
     ce_ScopeSiteID := ce_ScopeSiteID e; ce_Envelope := ce_Envelope e;
     ce_SnapshotMinPowerW := ce_SnapshotMinPowerW e; ce_SnapshotCooldownSec := ce_SnapshotCooldownSec e;
     ce_SnapshotRequiresAdmin := ce_SnapshotRequiresAdmin e; ce_CurtailBatchSize := ce_CurtailBatchSize e;
     ce_CurtailBatchIntervalSec := ce_CurtailBatchIntervalSec e;
     ce_LastCurtailPendingDispatchAt := ce_LastCurtailPendingDispatchAt e;
     ce_RestoreBatchSize := ce_RestoreBatchSize e; ce_RestoreBatchIntervalSec := ce_RestoreBatchIntervalSec e;
     ce_EffectiveBatchSize := ce_EffectiveBatchSize e; ce_MinCurtailedDurationSec := ce_MinCurtailedDurationSec e;
     ce_MaxDurationSeconds := ce_MaxDurationSeconds e;
     ce_AllowUnbounded := ce_AllowUnbounded e; ce_IncludeMaintenance := ce_IncludeMaintenance e;
     ce_ForceIncludeMaintenance := ce_ForceIncludeMaintenance e;
     ce_ForceIncludeAllPairedMiners := ce_ForceIncludeAllPairedMiners e;
     ce_FacilityFanDeviceIDs := ce_FacilityFanDeviceIDs e; ce_FacilityFanSiteIDs := ce_FacilityFanSiteIDs e;
     ce_FanOffDelaySec := ce_FanOffDelaySec e;
     ce_FanRestoreDelaySec := ce_FanRestoreDelaySec e; ce_FanOffSentAt := ce_FanOffSentAt e;
     ce_FanOnSentAt := ce_FanOnSentAt e; ce_FanAirflowReopenedAt := ce_FanAirflowReopenedAt e;
     ce_FanLastError := ce_FanLastError e; ce_StartedAt := ce_StartedAt e; ce_EndedAt := ce_EndedAt e;
     ce_SourceActorType := ce_SourceActorType e; ce_ExternalSource := ce_ExternalSource e;
     ce_CreatedByUserID := ce_CreatedByUserID e |}.

(** ** The tables *)

(** Targets by event and device, the primary key. *)
Record CurtailDB := {
  db_events : gmap Z CurtailmentEvent;
  db_targets : gmap Z (gmap string Target)
}.

#[export] Instance eta_CurtailDB : Eta CurtailDB := λ db,
  {| db_events := db_events db; db_targets := db_targets db |}.

Definition target_rows (db : CurtailDB) (id : Z) : gmap string Target := default ∅ (db_targets db !! id).

Definition put_rows (id : Z) (rows : gmap string Target) (db : CurtailDB) : CurtailDB :=
  db <| db_targets := <[id := rows]> (db_targets db) |>.

Definition put_event (id : Z) (e : CurtailmentEvent) (db : CurtailDB) : CurtailDB :=
  db <| db_events := <[id := e]> (db_events db) |>.

(** The errors a store method returns: the sentinels of
    [stores/interfaces/curtailment.go], or a fleet error. *)
Inductive StoreError :=
| ErrEventStateRaceLoss
| ErrAdminTerminateStateConflict
| ErrAdminTerminateActiveEvent
| ErrStore (e : FleetError).

Definition COp (A : Type) : Type := M CurtailDB StoreError A.

Definition op_fail {A} (e : FleetError) : COp A := fail (ErrStore e).

(** [uq_curtailment_target_one_non_terminal_per_device]: no other event has a live
    target for the device. *)
Definition device_free (db : CurtailDB) (id : Z) (device : string) : bool :=
  forallb (λ kr : Z * gmap string Target,
    (kr.1 =? id) || match kr.2 !! device with Some t => settled (tg_State t) | None => true end)
    (map_to_list (db_targets db)).

(** The condition of the claims: no live event other than [id] has a live target for the
    device. *)
Definition device_unclaimed (db : CurtailDB) (id : Z) (device : string) : bool :=
  forallb (λ kr : Z * gmap string Target,
    (kr.1 =? id)
    || match db_events db !! kr.1, kr.2 !! device with
       | Some e, Some t => IsTerminal (ce_State e) || settled (tg_State t)
       | _, _ => true
       end) (map_to_list (db_targets db)).

(** ** Target statements *)

(** [interfaces.UpdateCurtailmentTargetStateParams]. *)
Record UpdateTargetParams := {
  up_State : TargetState;
  up_LastDispatchedAt : option Z;
  up_LastBatchUUID : option string;
  up_ObservedPowerW : option float64;
  up_ObservedAt : option Z;
  up_ConfirmedAt : option Z;
  up_RetryCount : option Z;
  up_LastError : option string;
  up_ExpectedEventState : option EventState;
  up_ExpectedDesiredState : option DesiredState;
  up_ExpectedState : option TargetState;
  up_ExpectedDispatchBatchUUID : option string
}.

#[export] Instance eta_UpdateTargetParams : Eta UpdateTargetParams := λ p,
  {| up_State := up_State p; up_LastDispatchedAt := up_LastDispatchedAt p;
     up_LastBatchUUID := up_LastBatchUUID p; up_ObservedPowerW := up_ObservedPowerW p;
     up_ObservedAt := up_ObservedAt p; up_ConfirmedAt := up_ConfirmedAt p;
     up_RetryCount := up_RetryCount p; up_LastError := up_LastError p;
     up_ExpectedEventState := up_ExpectedEventState p;
     up_ExpectedDesiredState := up_ExpectedDesiredState p; up_ExpectedState := up_ExpectedState p;
     up_ExpectedDispatchBatchUUID := up_ExpectedDispatchBatchUUID p |}.

(** A patch that only sets the state. *)
Definition to_state (s : TargetState) : UpdateTargetParams :=
  {| up_State := s; up_LastDispatchedAt := None; up_LastBatchUUID := None; up_ObservedPowerW := None;
     up_ObservedAt := None; up_ConfirmedAt := None; up_RetryCount := None; up_LastError := None;
     up_ExpectedEventState := None; up_ExpectedDesiredState := None; up_ExpectedState := None;
     up_ExpectedDispatchBatchUUID := None |}.

(** An absent guard matches anything. *)
Definition matches {A} `{EqDecision A} (guard : option A) (a : A) : bool :=
  match guard with None => true | Some g => g == a end.

(** COALESCE of a parameter with the column. *)
Definition coalesce {A} (p col : option A) : option A := match p with Some v => Some v | None => col end.

(** NULLIF of an error text with the empty string. *)
Definition error_text (e : string) : option string := if e == "" then None else Some e.

Definition new_phase (s : TargetState) : TargetPhaseSummary :=
  {| ph_State := s; ph_StartedAt := None; ph_DispatchedAt := None; ph_BatchUUID := None;
     ph_CompletedAt := None; ph_RetryCount := 0; ph_FailureCount := 0; ph_LastError := None |}.

(** The batch of the phase the target is in. *)
Definition phase_batch (t : Target) : option string :=
  match tg_DesiredState t with
  | DsCurtailed => ph_BatchUUID (tg_CurtailPhase t)
  | DsActive => tg_RestorePhase t ≫= ph_BatchUUID
  end.

(** The columns of one phase after a patch; [ends] are the states that end it. *)
Definition patch_phase (now : Z) (ends : TargetState → bool) (p : UpdateTargetParams)
    (ph : TargetPhaseSummary) : TargetPhaseSummary :=
  let err := up_LastError p ≫= error_text in
  {| ph_State := up_State p; ph_StartedAt := ph_StartedAt ph;
     ph_DispatchedAt := coalesce (up_LastDispatchedAt p) (ph_DispatchedAt ph);
     ph_BatchUUID := coalesce (up_LastBatchUUID p) (ph_BatchUUID ph);
     ph_CompletedAt := if ends (up_State p) then coalesce (up_ConfirmedAt p) (Some now)
                       else ph_CompletedAt ph;
     ph_RetryCount := default (ph_RetryCount ph) (up_RetryCount p);
     ph_FailureCount := if is_set err then ph_FailureCount ph + 1 else ph_FailureCount ph;
     ph_LastError := coalesce err (ph_LastError ph) |}.

Definition curtail_ends (s : TargetState) : bool :=
  match s with TgConfirmed | TgReleased | TgRestoreFailed => true | _ => false end.

Definition patch_target (now : Z) (p : UpdateTargetParams) (t : Target) : Target :=
  let t' := t
    <| tg_State := up_State p |>
    <| tg_LastDispatchedAt := coalesce (up_LastDispatchedAt p) (tg_LastDispatchedAt t) |>
    <| tg_LastBatchUUID := coalesce (up_LastBatchUUID p) (tg_LastBatchUUID t) |>
    <| tg_ObservedPowerW := coalesce (up_ObservedPowerW p) (tg_ObservedPowerW t) |>
    <| tg_ObservedAt := coalesce (up_ObservedAt p) (tg_ObservedAt t) |>
    <| tg_ConfirmedAt := coalesce (up_ConfirmedAt p) (tg_ConfirmedAt t) |>
    <| tg_RetryCount := default (tg_RetryCount t) (up_RetryCount p) |>
    <| tg_LastError := match up_LastError p with None => tg_LastError t | Some e => error_text e end |> in
  match tg_DesiredState t with
  | DsCurtailed => t' <| tg_CurtailPhase := patch_phase now curtail_ends p (tg_CurtailPhase t) |>
  | DsActive =>
      t' <| tg_RestorePhase :=
              Some (patch_phase now settled p (default (new_phase (up_State p)) (tg_RestorePhase t))) |>
  end.

(** Which row the guards of a patch let through. *)
Definition patch_allowed (p : UpdateTargetParams) (e : CurtailmentEvent) (t : Target) : bool :=
  negb (IsTerminal (ce_State e)) && matches (up_ExpectedEventState p) (ce_State e)
  && matches (up_ExpectedDesiredState p) (tg_DesiredState t)
  && matches (up_ExpectedState p) (tg_State t)
  && match up_ExpectedDispatchBatchUUID p with
     | None => true
     | Some b => bool_decide (phase_batch t = Some b)
     end.

Definition UpdateTargetState (now id : Z) (device : string) (p : UpdateTargetParams) : COp unit := λ db,
  match db_events db !! id, target_rows db id !! device with
  | Some e, Some t =>
      if negb (patch_allowed p e t) then (Err ErrEventStateRaceLoss, db)
      else if negb (settled (up_State p)) && negb (device_free db id device) then
        (Err (ErrStore NewInternalError), db)
      else (Ok tt, put_rows id (<[device := patch_target now p t]> (target_rows db id)) db)
  | _, _ => (Err ErrEventStateRaceLoss, db)
  end.

Definition bump_retry (t : Target) : Target :=
  let t' := t <| tg_RetryCount := tg_RetryCount t + 1 |> in
  match tg_DesiredState t with
  | DsCurtailed => t' <| tg_CurtailPhase :=
      (tg_CurtailPhase t) <| ph_RetryCount := ph_RetryCount (tg_CurtailPhase t) + 1 |> |>
  | DsActive => t' <| tg_RestorePhase :=
      (λ ph, ph <| ph_RetryCount := ph_RetryCount ph + 1 |>) <$> tg_RestorePhase t |>
  end.

Definition BumpTargetRetry (id : Z) (device : string) : COp unit := λ db,
  match db_events db !! id, target_rows db id !! device with
  | Some e, Some t =>
      if IsTerminal (ce_State e) then (Err ErrEventStateRaceLoss, db)
      else (Ok tt, put_rows id (<[device := bump_retry t]> (target_rows db id)) db)
  | _, _ => (Err ErrEventStateRaceLoss, db)
  end.

(** [models.Target] of a row. *)
Definition loaded (device : string) (t : Target) : Target := t <| tg_DeviceIdentifier := device |>.

(** Ordered by device under the database's collation. *)
Definition ListTargetsByEvent (collate : string → string → bool) (org id : Z) (db : CurtailDB)
    : list Target :=
  match db_events db !! id with
  | Some e =>
      if ce_OrgID e =? org then
        stable_sort (λ a b, collate (tg_DeviceIdentifier a) (tg_DeviceIdentifier b))
          (map (λ kt, loaded kt.1 kt.2) (map_to_list (target_rows db id)))
      else []
  | None => []
  end.

(** ** Event statements *)

Definition GetEventByUUID (org id : Z) (db : CurtailDB) : option CurtailmentEvent :=
  match db_events db !! id with
  | Some e => if ce_OrgID e =? org then Some e else None
  | None => None
  end.

Definition ListNonTerminalEvents (db : CurtailDB) : list CurtailmentEvent :=
  stable_sort (λ a b, ce_ID a <? ce_ID b)
    (List.filter (λ e, negb (IsTerminal (ce_State e))) (map snd (map_to_list (db_events db)))).

Definition UpdateEventState (id : Z) (expected new : EventState) (startedAt endedAt : option Z) : COp unit :=
  λ db,
  match db_events db !! id with
  | Some e =>
      if (ce_State e == expected) && negb (IsTerminal (ce_State e)) then
        (Ok tt, put_event id (e <| ce_State := new |> <| ce_StartedAt := coalesce startedAt (ce_StartedAt e) |>
                                <| ce_EndedAt := coalesce endedAt (ce_EndedAt e) |>) db)
      else (Err ErrEventStateRaceLoss, db)
  | None => (Err ErrEventStateRaceLoss, db)
  end.

Definition RecordCurtailPendingDispatch (id : Z) (expected : EventState) (at_ : Z) : COp unit := λ db,
  match db_events db !! id with
  | Some e =>
      if (ce_State e == expected) && ((ce_State e == EvPending) || (ce_State e == EvActive)) then
        (Ok tt, put_event id (e <| ce_LastCurtailPendingDispatchAt := Some at_ |>) db)
      else (Err ErrEventStateRaceLoss, db)
  | None => (Err ErrEventStateRaceLoss, db)
  end.

(** [interfaces.UpdateCurtailmentFanStateParams]. *)
Record FanStateParams := {
  fp_ExpectedEventState : EventState;
  fp_FanOffSentAt : option Z;
  fp_FanOnSentAt : option Z;
  fp_FanAirflowReopenedAt : option Z;
  fp_FanAirflowReopenedAtOnSuccess : option Z;
  fp_ClearFanAirflowReopenedAt : bool
}.

#[export] Instance eta_FanStateParams : Eta FanStateParams := λ p,
  {| fp_ExpectedEventState := fp_ExpectedEventState p; fp_FanOffSentAt := fp_FanOffSentAt p;
     fp_FanOnSentAt := fp_FanOnSentAt p; fp_FanAirflowReopenedAt := fp_FanAirflowReopenedAt p;
     fp_FanAirflowReopenedAtOnSuccess := fp_FanAirflowReopenedAtOnSuccess p;
     fp_ClearFanAirflowReopenedAt := fp_ClearFanAirflowReopenedAt p |}.

(** [LockCurtailmentEventForFanCommand]. *)
Definition LockEventForFanCommand (id : Z) (expected : EventState) : COp unit := λ db,
  match db_events db !! id with
  | Some e => if ce_State e == expected then (Ok tt, db) else (Err ErrEventStateRaceLoss, db)
  | None => (Err ErrEventStateRaceLoss, db)
  end.

(** The second half of [commandFanStateWithQueries], after the command returned
    [lastError]: a successful command replaces the marker instead of clearing it. *)
Definition fan_params_after (lastError : option string) (p : FanStateParams) : FanStateParams :=
  match lastError, fp_FanAirflowReopenedAtOnSuccess p with
  | None, Some at_ => p <| fp_FanAirflowReopenedAt := Some at_ |> <| fp_ClearFanAirflowReopenedAt := false |>
  | _, _ => p
  end.

Definition apply_fan_state (lastError : option string) (p : FanStateParams) (e : CurtailmentEvent)
    : CurtailmentEvent :=
  e <| ce_FanOffSentAt := coalesce (fp_FanOffSentAt p) (ce_FanOffSentAt e) |>
    <| ce_FanOnSentAt := coalesce (fp_FanOnSentAt p) (ce_FanOnSentAt e) |>
    <| ce_FanAirflowReopenedAt := if fp_ClearFanAirflowReopenedAt p then None
         else coalesce (fp_FanAirflowReopenedAt p) (ce_FanAirflowReopenedAt e) |>
    <| ce_FanLastError := lastError |>.

Definition UpdateEventFanState (id : Z) (lastError : option string) (p : FanStateParams) : COp unit := λ db,
  match db_events db !! id with
  | Some e =>
      if ce_State e == fp_ExpectedEventState p then
        (Ok tt, put_event id (apply_fan_state lastError (fan_params_after lastError p) e) db)
      else (Err ErrEventStateRaceLoss, db)
  | None => (Err ErrEventStateRaceLoss, db)
  end.

(** ** Stop: [BeginRestoreTransition] *)

(** No Curtail was ever attempted on the target, in this life or an earlier one. *)
Definition never_attempted (t : Target) : bool :=
  negb (is_set (tg_LastDispatchedAt t)) && negb (is_set (ph_DispatchedAt (tg_CurtailPhase t)))
  && (tg_RetryCount t =? 0) && negb (is_set (tg_RestorePhase t ≫= ph_StartedAt)).

Definition released_undispatched := "released without restore: no curtail command dispatched".

Definition release_undispatched (now : Z) (t : Target) : Target :=
  let err := coalesce (tg_LastError t) (Some released_undispatched) in
  t <| tg_State := TgReleased |> <| tg_LastError := err |>
    <| tg_CurtailPhase := (tg_CurtailPhase t) <| ph_State := TgReleased |>
         <| ph_CompletedAt := coalesce (ph_CompletedAt (tg_CurtailPhase t)) (Some now) |>
         <| ph_LastError := coalesce (ph_LastError (tg_CurtailPhase t)) err |> |>.

(** The rows [ReleaseUndispatchedTargetsForRestore] takes. *)
Definition releasable (known_unsent : list string) (device : string) (t : Target) : bool :=
  (tg_DesiredState t == DsCurtailed)
  && ((tg_State t == TgPending) || (tg_State t == TgUnavailable)
      || ((tg_State t == TgDispatching) && bool_decide (device ∈ known_unsent)))
  && never_attempted t.

Definition ReleaseUndispatchedTargetsForRestore (now id : Z) (known_unsent : list string) (db : CurtailDB)
    : CurtailDB :=
  put_rows id (map_imap (λ device t,
    Some (if releasable known_unsent device t then release_undispatched now t else t)) (target_rows db id)) db.

Definition reset_for_restore (now : Z) (t : Target) : Target :=
  t <| tg_DesiredState := DsActive |> <| tg_State := TgPending |> <| tg_RetryCount := 0 |>
    <| tg_LastDispatchedAt := None |> <| tg_LastBatchUUID := None |> <| tg_ConfirmedAt := None |>
    <| tg_LastError := None |>
    <| tg_RestorePhase := Some ((new_phase TgPending) <| ph_StartedAt := Some now |>) |>.

Definition ResetCurtailmentTargetsForRestore (now id : Z) (db : CurtailDB) : CurtailDB :=
  put_rows id ((λ t, if settled (tg_State t) then t else reset_for_restore now t) <$> target_rows db id) db.

(** The guard of an automation that still demands the curtailment is decided by the
    automation tables: [demand] is what [guardAutomationDemandForRestore] answered, [Ok]
    for the callers that pass no guard. *)
Definition BeginRestoreTransition (now org id : Z) (demand : result FleetError unit)
    (known_unsent : list string) : COp CurtailmentEvent := λ db,
  match GetEventByUUID org id db with
  | None => (Err (ErrStore NewNotFoundError), db)
  | Some e =>
      if ce_State e == EvRestoring then (Ok e, db)
      else if IsTerminal (ce_State e) then (Err (ErrStore NewFailedPreconditionError), db)
      else match demand with
      | Err err => (Err (ErrStore err), db)
      | Ok _ =>
          if bool_decide (target_rows db id = ∅) && bool_decide (ce_FacilityFanDeviceIDs e = []) then
            let e' := e <| ce_State := EvCompleted |> <| ce_EndedAt := Some now |> in
            (Ok e', put_event id e' db)
          else
            let e' := e <| ce_State := EvRestoring |> in
            (Ok e', ResetCurtailmentTargetsForRestore now id
              (ReleaseUndispatchedTargetsForRestore now id known_unsent (put_event id e' db)))
      end
  end.

(** ** Recurtail: [BeginRecurtailTransition] *)

Definition resume_from_restoring (e : CurtailmentEvent) : CurtailmentEvent :=
  e <| ce_State := EvPending |>
    <| ce_FanAirflowReopenedAt := coalesce (ce_FanOnSentAt e) (ce_FanAirflowReopenedAt e) |>
    <| ce_FanOnSentAt := None |> <| ce_LastCurtailPendingDispatchAt := None |>.

Definition reset_for_recurtail (t : Target) : Target :=
  t <| tg_DesiredState := DsCurtailed |> <| tg_State := TgPending |> <| tg_RetryCount := 0 |>
    <| tg_LastDispatchedAt := None |> <| tg_LastBatchUUID := None |> <| tg_ConfirmedAt := None |>
    <| tg_LastError := None |>
    <| tg_CurtailPhase := (new_phase TgPending) <| ph_StartedAt := ph_StartedAt (tg_CurtailPhase t) |> |>.

Definition recurtail_candidate (t : Target) : bool :=
  (tg_DesiredState t == DsActive) && (tg_State t != TgReleased).

(** [fences]: what the profile and automation fences of the transaction answered. Every
    candidate row must be reset, and the index of live targets must hold. *)
Definition BeginRecurtailTransition (org id : Z) (fences : result FleetError unit)
    : COp CurtailmentEvent := λ db,
  match GetEventByUUID org id db with
  | None => (Err (ErrStore NewNotFoundError), db)
  | Some e =>
      if IsTerminal (ce_State e) then (Err (ErrStore NewFailedPreconditionError), db)
      else if ce_State e != EvRestoring then (Ok e, db)
      else match fences with
      | Err err => (Err (ErrStore err), db)
      | Ok _ =>
          let candidates := List.filter (λ kt : string * Target, recurtail_candidate kt.2)
            (map_to_list (target_rows db id)) in
          if forallb (λ kt : string * Target, device_free db id kt.1) candidates then
            let e' := resume_from_restoring e in
            (Ok e', put_rows id ((λ t, if recurtail_candidate t then reset_for_recurtail t else t)
                                   <$> target_rows db id) (put_event id e' db))
          else (Err (ErrStore (NewPlainError CodeAlreadyExists)), db)
      end
  end.

(** ** Topology departures *)

(** The first condition of every CASE of [BeginCurtailmentTopologyTargetRestore]. *)
Definition departs_unsent (t : Target) : bool :=
  ((tg_State t == TgPending) || (tg_State t == TgUnavailable) || (tg_State t == TgDispatching))
  && never_attempted t.

Definition released_departed := "released after leaving topology scope before Curtail dispatch".

Definition depart (now : Z) (t : Target) : Target :=
  let t' := t <| tg_RetryCount := 0 |> <| tg_LastDispatchedAt := None |> <| tg_LastBatchUUID := None |>
              <| tg_ConfirmedAt := None |> in
  if departs_unsent t then
    t' <| tg_State := TgReleased |> <| tg_LastError := coalesce (tg_LastError t) (Some released_departed) |>
       <| tg_CurtailPhase := (tg_CurtailPhase t) <| ph_State := TgReleased |>
            <| ph_CompletedAt := coalesce (ph_CompletedAt (tg_CurtailPhase t)) (Some now) |> |>
       <| tg_RestorePhase := (λ ph, (new_phase (ph_State ph)) <| ph_StartedAt := ph_StartedAt ph |>)
                               <$> tg_RestorePhase t |>
  else
    t' <| tg_DesiredState := DsActive |> <| tg_State := TgPending |> <| tg_LastError := None |>
       <| tg_RestorePhase := Some ((new_phase TgPending) <| ph_StartedAt := Some now |>) |>.

(** The statement, on the devices its transaction found to have left the scope; the
    rows it changed. *)
Definition BeginCurtailmentTopologyTargetRestore (now id : Z) (expected : EventState)
    (departed : list string) : COp Z := λ db,
  match db_events db !! id with
  | Some e =>
      if (ce_State e == expected) && ((ce_State e == EvPending) || (ce_State e == EvActive)) then
        let takes device t := bool_decide (device ∈ departed) && (tg_DesiredState t == DsCurtailed)
          && negb (settled (tg_State t)) in
        (Ok (Z.of_nat (length (List.filter (λ kt : string * Target, takes kt.1 kt.2)
                                 (map_to_list (target_rows db id))))),
         put_rows id (map_imap (λ device t, Some (if takes device t then depart now t else t))
           (target_rows db id)) db)
      else (Err ErrEventStateRaceLoss, db)
  | None => (Err ErrEventStateRaceLoss, db)
  end.

(** ** Readiness of all-paired targets *)

(** [interfaces.AllPairedReadinessUpdate]. *)
Record AllPairedReadinessUpdate := {
  ru_DeviceIdentifier : string;
  ru_ExpectedState : TargetState;
  ru_ExpectedDesiredState : DesiredState;
  ru_State : TargetState;
  ru_Reason : string;
  ru_BaselinePowerW : option float64
}.

Definition refresh_target (now : Z) (u : AllPairedReadinessUpdate) (t : Target) : Target :=
  let err := error_text (ru_Reason u) in
  let t' := t <| tg_State := ru_State u |> <| tg_LastError := err |> in
  match tg_DesiredState t with
  | DsCurtailed =>
      let ph := tg_CurtailPhase t in
      t' <| tg_BaselinePowerW := coalesce (tg_BaselinePowerW t) (ru_BaselinePowerW u) |>
         <| tg_CurtailPhase := ph <| ph_State := ru_State u |>
              <| ph_FailureCount := if is_set err then ph_FailureCount ph + 1 else ph_FailureCount ph |>
              <| ph_LastError := coalesce err (ph_LastError ph) |> |>
  | DsActive =>
      let ph := default (new_phase (ru_State u)) (tg_RestorePhase t) in
      let ph := ph <| ph_State := ru_State u |> <| ph_StartedAt := coalesce (ph_StartedAt ph) (Some now) |>
                   <| ph_CompletedAt := None |> <| ph_LastError := err |> in
      let t' := t' <| tg_ConfirmedAt := None |> in
      if ru_State u == TgPending then
        t' <| tg_RetryCount := 0 |> <| tg_LastDispatchedAt := None |> <| tg_LastBatchUUID := None |>
           <| tg_RestorePhase := Some (ph <| ph_DispatchedAt := None |> <| ph_BatchUUID := None |>
                <| ph_RetryCount := 0 |>) |>
      else t' <| tg_RestorePhase := Some ph |>
  end.

Definition refresh_allowed (db : CurtailDB) (id : Z) (u : AllPairedReadinessUpdate) (t : Target) : bool :=
  (tg_State t == ru_ExpectedState u) && (tg_DesiredState t == ru_ExpectedDesiredState u)
  && ((tg_State t != TgRestoreFailed) || device_unclaimed db id (ru_DeviceIdentifier u))
  && match tg_DesiredState t, tg_State t with
     | _, TgPending | _, TgUnavailable | DsActive, TgRestoreFailed => true
     | _, _ => false
     end
  && match ru_State u with TgPending | TgUnavailable => true | _ => false end.

(** The statement: the updates of an event whose rows still are what the caller saw.
    The devices of the applied rows are returned. *)
Definition refresh_rows (now id : Z) (expected : EventState) (updates : list AllPairedReadinessUpdate)
    : COp (list string) := λ db,
  match db_events db !! id with
  | Some e =>
      if negb (IsTerminal (ce_State e)) && (ce_State e == expected) then
        let applicable := List.filter (λ u, match target_rows db id !! ru_DeviceIdentifier u with
          | Some t => refresh_allowed db id u t | None => false end) updates in
        if forallb (λ u, device_free db id (ru_DeviceIdentifier u)) applicable then
          (Ok (map ru_DeviceIdentifier applicable),
           put_rows id (fold_left (λ rows u,
             alter (refresh_target now u) (ru_DeviceIdentifier u) rows) applicable (target_rows db id)) db)
        else (Err (ErrStore NewInternalError), db)
      else (Ok [], db)
  | None => (Ok [], db)
  end.

(** [lockCurtailmentAdmissionEvent] finds the event: it is a watcher still admitting. *)
Definition admission_event (org id : Z) (db : CurtailDB) : result FleetError bool :=
  match db_events db !! id with
  | Some e =>
      if ((ce_State e == EvPending) || (ce_State e == EvActive)) && (ce_Mode e == ModeFullFleet)
         && (ce_LoopType e == LoopTypeClosed) then
        if ce_OrgID e =? org then
          match ce_Scope e with Err _ => Err NewInternalError | Ok _ => Ok true end
        else Err NewInvalidArgumentError
      else Ok false
  | None => Ok false
  end.

(** The method: failed restores are refreshed only while the watcher admits, and only
    those [available], that is not reserved by an earlier event and still departed. *)
Definition BulkRefreshAllPairedTargetReadiness (now org id : Z) (expected : EventState)
    (available : list string) (updates : list AllPairedReadinessUpdate) : COp (list string) := λ db,
  let failed_restore u := ru_ExpectedState u == TgRestoreFailed in
  if negb (existsb failed_restore updates) then refresh_rows now id expected updates db
  else match admission_event org id db with
  | Err err => (Err (ErrStore err), db)
  | Ok false => (Ok [], db)
  | Ok true =>
      refresh_rows now id expected
        (List.filter (λ u, negb (failed_restore u) || bool_decide (ru_DeviceIdentifier u ∈ available))
           updates) db
  end.

(** ** The confirmation pulse *)

Inductive TargetPhase := PhaseCurtail | PhaseRestore.

#[export] Instance TargetPhase_eq_dec : EqDecision TargetPhase.
Proof. solve_decision. Defined.

(** [interfaces.ConfirmationUpdate]. *)
Record ConfirmationUpdate := {
  cu_DeviceDatabaseID : Z;
  cu_DeviceIdentifier : string;
  cu_Phase : TargetPhase;
  cu_BatchUUID : string;
  cu_ObservedPowerW : option float64;
  cu_ObservedAt : Z;
  cu_ConfirmedAt : Z
}.

Definition confirm_target (u : ConfirmationUpdate) (t : Target) : Target :=
  let t' := t <| tg_ObservedPowerW := coalesce (cu_ObservedPowerW u) (tg_ObservedPowerW t) |>
              <| tg_ObservedAt := Some (cu_ObservedAt u) |> <| tg_ConfirmedAt := Some (cu_ConfirmedAt u) |>
              <| tg_RetryCount := if tg_DesiredState t == DsCurtailed then 0 else tg_RetryCount t |> in
  match cu_Phase u with
  | PhaseCurtail => t' <| tg_State := TgConfirmed |>
      <| tg_CurtailPhase := (tg_CurtailPhase t) <| ph_State := TgConfirmed |>
           <| ph_CompletedAt := Some (cu_ConfirmedAt u) |> <| ph_RetryCount := 0 |> |>
  | PhaseRestore => t' <| tg_State := TgResolved |>
      <| tg_RestorePhase := (λ ph, ph <| ph_State := TgResolved |>
           <| ph_CompletedAt := Some (cu_ConfirmedAt u) |>) <$> tg_RestorePhase t |>
  end.

Definition confirm_allowed (owned paired : string → Z → bool) (e : CurtailmentEvent)
    (u : ConfirmationUpdate) (t : Target) : bool :=
  (tg_State t == TgDispatched)
  && match cu_Phase u, tg_DesiredState t with
     | PhaseCurtail, DsCurtailed | PhaseRestore, DsActive => true
     | _, _ => false
     end
  && bool_decide (phase_batch t = Some (cu_BatchUUID u))
  && owned (cu_DeviceIdentifier u) (cu_DeviceDatabaseID u)
  && ((tg_DesiredState t != DsCurtailed) || negb (ce_ForceIncludeAllPairedMiners e)
      || paired (cu_DeviceIdentifier u) (cu_DeviceDatabaseID u)).

(** [owned] and [paired] are what the device tables say of a device row at commit: live
    in the event's organization, and paired-like. The number of rows applied. *)
Definition BulkConfirmTargets (owned paired : string → Z → bool) (id : Z) (expected : EventState)
    (updates : list ConfirmationUpdate) : COp Z := λ db,
  match db_events db !! id with
  | Some e =>
      if negb (IsTerminal (ce_State e)) && (ce_State e == expected) then
        let applicable := List.filter (λ u, match target_rows db id !! cu_DeviceIdentifier u with
          | Some t => confirm_allowed owned paired e u t | None => false end) updates in
        (Ok (Z.of_nat (length applicable)),
         put_rows id (fold_left (λ rows u, alter (confirm_target u) (cu_DeviceIdentifier u) rows)
           applicable (target_rows db id)) db)
      else (Ok 0, db)
  | None => (Ok 0, db)
  end.

(** ** Admission of targets *)

Definition new_target (now : Z) (s : TargetState) (p : InsertTargetParams) : Target :=
  {| tg_DeviceIdentifier := it_DeviceIdentifier p; tg_State := s; tg_DesiredState := DsCurtailed;
     tg_BaselinePowerW := it_BaselinePowerW p; tg_LastDispatchedAt := None; tg_LastBatchUUID := None;
     tg_ObservedPowerW := None; tg_ObservedAt := None; tg_ConfirmedAt := None; tg_RetryCount := 0;
     tg_LastError := it_LastError p;
     tg_CurtailPhase := (new_phase s) <| ph_StartedAt := Some now |> <| ph_LastError := it_LastError p |>;
     tg_RestorePhase := None |}.

(** A settled row of the event that is admitted again; when it was observed last stays. *)
Definition reopen_target (s : TargetState) (p : InsertTargetParams) (t : Target) : Target :=
  (new_target 0 s p) <| tg_ObservedPowerW := tg_ObservedPowerW t |> <| tg_ObservedAt := tg_ObservedAt t |>
    <| tg_CurtailPhase := (new_phase s) <| ph_StartedAt := ph_StartedAt (tg_CurtailPhase t) |>
         <| ph_LastError := it_LastError p |> |>.

(** One row of the claim: a settled row is reopened when no live event holds the device
    (and the index of live targets lets it), a missing one is inserted when the index
    lets it, any other is left. [None] when the index rejects a reopened row. *)
Definition claim_one (now : Z) (db : CurtailDB) (id : Z) (enters : InsertTargetParams → TargetState)
    (acc : option (gmap string Target * list string)) (p : InsertTargetParams)
    : option (gmap string Target * list string) :=
  '(rows, claimed) ← acc;
  let device := it_DeviceIdentifier p in
  match target_rows db id !! device with
  | Some t =>
      if settled (tg_State t) && device_unclaimed db id device then
        if device_free db id device then
          Some (<[device := reopen_target (enters p) p t]> rows, claimed ++ [device])
        else None
      else Some (rows, claimed)
  | None =>
      if device_free db id device && negb (bool_decide (device ∈ claimed)) then
        Some (<[device := new_target now (enters p) p]> rows, claimed ++ [device])
      else Some (rows, claimed)
  end.

(** The claims of the watcher, on the targets their transaction found available: not
    reserved by an earlier event, in the current topology, at most the batch. *)
Definition claim_targets (now id : Z) (enters : InsertTargetParams → TargetState)
    (available : list InsertTargetParams) : COp (list Target) := λ db,
  match fold_left (claim_one now db id enters) available (Some (target_rows db id, [])) with
  | None => (Err (ErrStore NewInternalError), db)
  | Some (rows, claimed) =>
      (Ok (omap (λ device, loaded device <$> rows !! device) claimed), put_rows id rows db)
  end.

Definition admits (all_paired : bool) (e : CurtailmentEvent) : bool :=
  ((ce_State e == EvPending) || (ce_State e == EvActive)) && (ce_Mode e == ModeFullFleet)
  && (ce_LoopType e == LoopTypeClosed) && (negb all_paired || ce_ForceIncludeAllPairedMiners e).

(** [cooldown] says that a claimed device entered cooldown: the claim is undone. *)
Definition ClaimClosedLoopFullFleetTargets (now id : Z) (cooldown : bool)
    (available : list InsertTargetParams) : COp (list Target) := λ db,
  match db_events db !! id with
  | Some e =>
      if negb (admits false e) then (Ok [], db)
      else
        match claim_targets now id (λ _, TgDispatching) available db with
        | (Ok claimed, db') =>
            if cooldown then (Err (ErrStore NewFailedPreconditionError), db) else (Ok claimed, db')
        | (Err err, _) => (Err err, db)
        end
  | None => (Ok [], db)
  end.

(** The state column of an all-paired target. *)
Definition policy_state (s : string) : TargetState :=
  if s == TargetStatePending then TgPending else TgUnavailable.

Definition ClaimAllPairedPolicyTargets (now id : Z) (available : list InsertTargetParams) : COp Z := λ db,
  match db_events db !! id with
  | Some e =>
      if negb (admits true e) then (Ok 0, db)
      else
        match claim_targets now id (λ p, policy_state (it_State p)) available db with
        | (Ok claimed, db') => (Ok (Z.of_nat (length claimed)), db')
        | (Err err, _) => (Err err, db)
        end
  | None => (Ok 0, db)
  end.

(** ** Termination and release by an operator *)

(** [CurtailmentEventHasInFlightTargets]: a Curtail is outstanding. *)
Definition has_in_flight (id : Z) (db : CurtailDB) : bool :=
  existsb (λ kt : string * Target, (tg_DesiredState kt.2 == DsCurtailed)
    && match tg_State kt.2 with TgDispatching | TgDispatched | TgConfirmed | TgDrifted => true | _ => false end)
    (map_to_list (target_rows db id)).

Definition sweep_to_restore_failed (now : Z) (reason : string) (t : Target) : Target :=
  let close ph := ph <| ph_State := TgRestoreFailed |> <| ph_CompletedAt := Some now |>
    <| ph_FailureCount := ph_FailureCount ph + 1 |> <| ph_LastError := Some reason |> in
  let t' := t <| tg_State := TgRestoreFailed |> <| tg_LastError := Some reason |> in
  match tg_DesiredState t with
  | DsCurtailed => t' <| tg_CurtailPhase := close (tg_CurtailPhase t) |>
  | DsActive => t' <| tg_RestorePhase := close <$> tg_RestorePhase t |>
  end.

Definition sweep_to_released (now : Z) (reason : string) (t : Target) : Target :=
  let close ph := ph <| ph_State := TgReleased |>
    <| ph_CompletedAt := coalesce (ph_CompletedAt ph) (Some now) |> in
  let t' := t <| tg_State := TgReleased |> <| tg_LastError := Some reason |> in
  match tg_DesiredState t with
  | DsCurtailed => t' <| tg_CurtailPhase := close (tg_CurtailPhase t) |>
  | DsActive => t' <| tg_RestorePhase := close <$> tg_RestorePhase t |>
  end.

Definition sweep (f : Target → Target) (id : Z) (db : CurtailDB) : CurtailDB :=
  put_rows id ((λ t, if settled (tg_State t) then t else f t) <$> target_rows db id) db.

(** The event is returned with whether this call ended it. A conflicting state that the
    guarded statement would find is the one the transaction read. *)
Definition AdminTerminateEvent (now org id : Z) (target : EventState) (reason : string)
    : COp (CurtailmentEvent * bool) := λ db,
  match GetEventByUUID org id db with
  | None => (Err (ErrStore NewNotFoundError), db)
  | Some e =>
      if ce_State e == target then (Ok (e, false), db)
      else if IsTerminal (ce_State e) then (Err ErrAdminTerminateStateConflict, db)
      else if has_in_flight id db then (Err ErrAdminTerminateActiveEvent, db)
      else if ce_State e == EvActive then (Err ErrAdminTerminateActiveEvent, db)
      else
        let e' := e <| ce_State := target |> <| ce_EndedAt := Some now |> in
        (Ok (e', true), sweep (sweep_to_restore_failed now reason) id (put_event id e' db))
  end.

(** The event with whether ownership was released now. The automation rule that started
    the event, of other tables, is disabled in the same transaction. *)
Definition ForceReleaseEvent (now org id : Z) (reason : string) : COp (CurtailmentEvent * bool) := λ db,
  match GetEventByUUID org id db with
  | None => (Err (ErrStore NewNotFoundError), db)
  | Some e =>
      if IsTerminal (ce_State e) then (Ok (e, false), db)
      else
        let e' := e <| ce_State := EvCancelled |> <| ce_EndedAt := coalesce (ce_EndedAt e) (Some now) |> in
        (Ok (e', true), sweep (sweep_to_released now reason) id (put_event id e' db))
  end.

(** [UpdateCurtailmentEventOperatorFields]. *)
Definition UpdateOperatorFields (org id : Z) (reason : option string) (restoreBatchSize restoreBatchIntervalSec maxDurationSeconds
    : option Z) : COp CurtailmentEvent := λ db,
  match GetEventByUUID org id db with
  | Some e =>
      if (ce_State e == EvPending) || (ce_State e == EvActive) then
        let e' := e <| ce_Reason := default (ce_Reason e) reason |>
                    <| ce_RestoreBatchSize := default (ce_RestoreBatchSize e) restoreBatchSize |>
                    <| ce_RestoreBatchIntervalSec := default (ce_RestoreBatchIntervalSec e)
                         restoreBatchIntervalSec |>
                    <| ce_MaxDurationSeconds := coalesce maxDurationSeconds (ce_MaxDurationSeconds e) |> in
        (Ok e', put_event id e' db)
      else (Err ErrEventStateRaceLoss, db)
  | None => (Err ErrEventStateRaceLoss, db)
  end.

(** * Facts on the statements of curtailment events

    What a successful statement found and wrote, and which rows it left. *)

Lemma target_rows_put id rows db : target_rows (put_rows id rows db) id = rows.
Proof. unfold target_rows, put_rows. simpl. by rewrite lookup_insert_eq. Qed.

Lemma target_rows_put_ne id id' rows db : id ≠ id' → target_rows (put_rows id rows db) id' = target_rows db id'.
Proof. intros Hne. unfold target_rows, put_rows. simpl. by rewrite lookup_insert_ne. Qed.

Lemma put_rows_events id rows db : db_events (put_rows id rows db) = db_events db.
Proof. done. Qed.

Lemma target_rows_put_event id e db id' : target_rows (put_event id e db) id' = target_rows db id'.
Proof. done. Qed.

Lemma patch_target_state now p t : tg_State (patch_target now p t) = up_State p.
Proof. unfold patch_target. by destruct (tg_DesiredState t). Qed.

Lemma patch_target_desired now p t : tg_DesiredState (patch_target now p t) = tg_DesiredState t.
Proof. unfold patch_target. destruct (tg_DesiredState t) eqn:E; simpl; done. Qed.

Lemma patch_target_confirmed now p t :
  tg_ConfirmedAt (patch_target now p t) = coalesce (up_ConfirmedAt p) (tg_ConfirmedAt t).
Proof. unfold patch_target. by destruct (tg_DesiredState t). Qed.

Lemma UpdateTargetState_ok now id d p db u db' :
  UpdateTargetState now id d p db = (Ok u, db') →
  ∃ e t, db_events db !! id = Some e ∧ target_rows db id !! d = Some t ∧ patch_allowed p e t = true ∧
    db' = put_rows id (<[d := patch_target now p t]> (target_rows db id)) db.
Proof.
  unfold UpdateTargetState. intros H.
  destruct (db_events db !! id) as [e|] eqn:He; [|done].
  destruct (target_rows db id !! d) as [t|] eqn:Ht; [|done].
  destruct (negb (patch_allowed p e t)) eqn:Hp; [done|].
  destruct (_ && _); [done|]. injection H as _ <-. exists e, t. split_and!; try done.
  by apply negb_false_iff.
Qed.
