(* ===== verification/CurtailmentDecisions.v ===== *)
(** * Decisions of the curtailment reconciler

    The functions of [internal/domain/curtailment/reconciler/reconciler.go],
    reconciler_allpaired.go and dispatch_authorization.go that decide from an event,
    its targets and telemetry, without I/O: evidence of curtailment and of recovery,
    airflow, batches and their pacing, readiness of all-paired targets, admission and
    the authorization of a dispatch. *)

From S2P Require Import Prelude GoSort Float64 Errors RolloutBehavior AuthzPermissions.
From S2P Require Import CurtailmentModes CurtailmentSelector CurtailmentPreview CurtailmentEvents.
#[local] Open Scope string_scope.
#[local] Open Scope list_scope.
#[local] Open Scope Z_scope.
#[local] Open Scope go_scope.

(** ** Configuration *)

Record ReconcilerConfig := {
  cfg_TickInterval : Z;
  cfg_MaxRetries : Z;
  cfg_CurtailMaxRetries : Z;
  cfg_DriftThresholdFactor : float64;
  cfg_CurtailDispatchTimeoutSec : Z;
  cfg_RestoreDispatchTimeoutSec : Z
}.

#[export] Instance eta_ReconcilerConfig : Eta ReconcilerConfig := λ c,
  {| cfg_TickInterval := cfg_TickInterval c; cfg_MaxRetries := cfg_MaxRetries c;
     cfg_CurtailMaxRetries := cfg_CurtailMaxRetries c;
     cfg_DriftThresholdFactor := cfg_DriftThresholdFactor c;
     cfg_CurtailDispatchTimeoutSec := cfg_CurtailDispatchTimeoutSec c;
     cfg_RestoreDispatchTimeoutSec := cfg_RestoreDispatchTimeoutSec c |}.

(** The float64 constant 0.5. *)
Definition one_half : float64 := F64.div (F64.of_Z 1) (F64.of_Z 2).

Definition withDefaults (c : ReconcilerConfig) : ReconcilerConfig :=
  {| cfg_TickInterval := if cfg_TickInterval c <=? 0 then 30 * Second else cfg_TickInterval c;
     cfg_MaxRetries := if cfg_MaxRetries c <=? 0 then 10 else cfg_MaxRetries c;
     cfg_CurtailMaxRetries := if cfg_CurtailMaxRetries c <=? 0 then 50 else cfg_CurtailMaxRetries c;
     cfg_DriftThresholdFactor := if F64.le (cfg_DriftThresholdFactor c) F64.zero then one_half
                                 else cfg_DriftThresholdFactor c;
     cfg_CurtailDispatchTimeoutSec := if cfg_CurtailDispatchTimeoutSec c =? 0 then 5
                                      else cfg_CurtailDispatchTimeoutSec c;
     cfg_RestoreDispatchTimeoutSec := if cfg_RestoreDispatchTimeoutSec c <=? 0 then 30
                                      else cfg_RestoreDispatchTimeoutSec c |}.

(** The checks of [Start] on the settings. *)
Definition start_accepts (c : ReconcilerConfig) : bool :=
  (Second <=? cfg_TickInterval c) && (1 <=? cfg_CurtailDispatchTimeoutSec c).

(** ** Telemetry *)

(** A pointer to a finite float. *)
Definition finite_sample (p : option float64) : option float64 :=
  x ← p; if F64.is_finite x then Some x else None.

Definition isCurtailed (latestPowerW baselinePowerW latestHashRateHS : option float64)
    (driftThresholdFactor : float64) (requirePositiveEvidence : bool) : bool :=
  match finite_sample latestPowerW with
  | None =>
      if requirePositiveEvidence then false
      else match finite_sample latestHashRateHS with None => true | Some h => F64.le h F64.zero end
  | Some power =>
      match finite_sample baselinePowerW with
      | Some baseline =>
          if F64.gt baseline F64.zero then F64.le power (F64.mul baseline driftThresholdFactor)
          else match finite_sample latestHashRateHS with
               | None => negb requirePositiveEvidence | Some h => F64.le h F64.zero end
      | None =>
          match finite_sample latestHashRateHS with
          | None => negb requirePositiveEvidence | Some h => F64.le h F64.zero end
      end
  end.

Definition isRestored (latestPowerW baselinePowerW latestHashRateHS : option float64)
    (restoreThresholdFactor : float64) : bool :=
  let by_hash := match finite_sample latestHashRateHS with None => false | Some h => F64.gt h F64.zero end in
  match finite_sample latestPowerW, finite_sample baselinePowerW with
  | Some power, Some baseline =>
      if F64.gt baseline F64.zero then F64.gt power (F64.mul baseline restoreThresholdFactor) else by_hash
  | _, _ => by_hash
  end.

Definition hasFreshTelemetry (c : option MinerCandidate) : bool :=
  match c with
  | None => false
  | Some c => is_set (mc_LatestMetricsAt c)
      && (is_set (finite_sample (mc_LatestPowerW c)) || is_set (finite_sample (mc_LatestHashRateHS c)))
  end.

Definition hasFreshCurtailedFanEvidence (c : MinerCandidate) (t : Target) (factor : float64) : bool :=
  is_set (mc_LatestMetricsAt c)
  && isCurtailed (mc_LatestPowerW c) (tg_BaselinePowerW t) (mc_LatestHashRateHS c) factor true.

(** ** Targets *)

Definition isCurtailRetryTarget (t : Target) : bool := tg_DesiredState t == DsCurtailed.

Definition maxRetriesForTarget (cfg : ReconcilerConfig) (t : Target) : Z :=
  if isCurtailRetryTarget t then cfg_CurtailMaxRetries cfg else cfg_MaxRetries cfg.

Definition retryBudgetTerminalizes (cfg : ReconcilerConfig) (t : Target) (retryCount : Z) : bool :=
  negb (isCurtailRetryTarget t) && (maxRetriesForTarget cfg t <=? retryCount).

Definition loadedDispatchBatchUUID (t : Target) : option string := phase_batch t.

Definition hasInFlightCurtailDispatch (targets : list Target) : bool :=
  existsb (λ t, (tg_DesiredState t == DsCurtailed) && (tg_State t == TgDispatching)) targets.

Definition hasUnrecordedCurtailDispatch (targets : list Target) : bool :=
  existsb (λ t, (tg_State t == TgDispatching) && negb (is_set (ph_DispatchedAt (tg_CurtailPhase t)))) targets.

Definition hasTopologyRestoreWork (targets : list Target) : bool :=
  existsb (λ t, (tg_DesiredState t == DsActive)
    && (tg_State t != TgUnavailable) && (tg_State t != TgResolved) && (tg_State t != TgRestoreFailed)
    && (tg_State t != TgReleased)) targets.

Definition targetErrorString (t : Target) : string := default "" (tg_LastError t).

(** ** Airflow *)

Definition fan_confirm_one (acc : Z * bool) (t : Target) : Z * bool :=
  let '(confirmed, all) := acc in
  match tg_DesiredState t with
  | DsActive =>
      (confirmed, if (tg_State t != TgResolved) && (tg_State t != TgReleased) then false else all)
  | DsCurtailed =>
      if tg_State t != TgConfirmed then (confirmed, false) else (confirmed + 1, all)
  end.

(** How many are confirmed curtailed, and whether all are. *)
Definition activeFanTargetConfirmation (targets : list Target) : Z * bool :=
  fold_left fan_confirm_one targets (0, true).

Definition activeFanTargetsNeedAirflow (e : CurtailmentEvent) (targets : list Target) : bool :=
  is_set (ce_FanOffSentAt e)
  && let '(confirmed, all) := activeFanTargetConfirmation targets in negb all || (confirmed =? 0).

(** The loop over the curtailed targets: the latest confirmation, or [None] when one is
    missing or older than the reopening of airflow. *)
Fixpoint latest_confirmation (reopened : option Z) (targets : list Target) (latest : option Z)
    : option (option Z) :=
  match targets with
  | [] => Some latest
  | t :: rest =>
      match tg_DesiredState t with
      | DsActive => latest_confirmation reopened rest latest
      | DsCurtailed =>
          match tg_ConfirmedAt t with
          | None => None
          | Some at_ =>
              if tg_State t != TgConfirmed then None
              else if match reopened with Some r => at_ <? r | None => false end then None
              else latest_confirmation reopened rest
                     (Some (match latest with Some l => Z.max l at_ | None => at_ end))
          end
      end
  end.

Definition activeFanOffDelayElapsed (e : CurtailmentEvent) (targets : list Target) (now : Z) : bool :=
  if ce_FanOffDelaySec e <=? 0 then true
  else match latest_confirmation (ce_FanAirflowReopenedAt e) targets None with
  | Some (Some latest) =>
      let started := match ce_FanAirflowReopenedAt e with Some r => Z.max r latest | None => latest end in
      started + ce_FanOffDelaySec e * Second <=? now
  | _ => false
  end.

Definition fanAirflowNeedsReopen (e : CurtailmentEvent) : bool :=
  is_set (ce_FanOffSentAt e) && (negb (is_set (ce_FanAirflowReopenedAt e)) || is_set (ce_FanLastError e)).

Definition restoringFanAirflowStartedAt (e : CurtailmentEvent) : option Z :=
  on ← ce_FanOnSentAt e; re ← ce_FanAirflowReopenedAt e; if re <? on then None else Some re.

Definition restoreFanFailureAlertStartedAt (e : CurtailmentEvent) : option Z :=
  match restoringFanAirflowStartedAt e with
  | Some at_ => Some at_
  | None => coalesce (ce_FanOnSentAt e) (ce_FanAirflowReopenedAt e)
  end.

(** ** Batches and pacing *)

Definition batchSizeForEvent (e : CurtailmentEvent) : Z :=
  match ce_EffectiveBatchSize e with Some n => if 0 <? n then n else 1 | None => 1 end.

Definition MaxInt32 : Z := 2 ^ 31 - 1.

Definition curtailBatchSizeForEvent (e : CurtailmentEvent) (targetCount : Z) : Z :=
  let all := if targetCount <=? 0 then 1 else Z.min targetCount MaxInt32 in
  match ce_CurtailBatchSize e with Some n => if 0 <? n then n else all | None => all end.

Definition curtailBatchIntervalActive (e : CurtailmentEvent) : bool :=
  is_set (ce_CurtailBatchSize e) && (0 <? ce_CurtailBatchIntervalSec e).

Definition curtailBatchIntervalElapsed (e : CurtailmentEvent) (now : Z) : bool :=
  negb (curtailBatchIntervalActive e)
  || match ce_LastCurtailPendingDispatchAt e with
     | None => true
     | Some at_ => ce_CurtailBatchIntervalSec e * Second <=? time_Sub now at_
     end.

Definition restoreClaimBatchSize (e : CurtailmentEvent) : Z :=
  if ce_RestoreBatchSize e =? 0 then RestoreBatchSizeMax else batchSizeForEvent e.

(** The airflow gate of [maybeClaimRestoreBatch]: may a miner be restored now? *)
Definition restore_airflow_ready (e : CurtailmentEvent) (now : Z) : bool :=
  if negb (some (ce_FacilityFanDeviceIDs e)) then true
  else
    let after started := negb (now <? started + ce_FanRestoreDelaySec e * Second) in
    if (ce_State e == EvActive) || (ce_State e == EvPending) then
      match ce_FanOffSentAt e with
      | None => true
      | Some _ => match ce_FanAirflowReopenedAt e with None => false | Some at_ => after at_ end
      end
    else match coalesce (restoringFanAirflowStartedAt e) (ce_FanOnSentAt e) with
         | None => false | Some at_ => after at_ end.

(** Gate 1: no restore is in flight. *)
Definition restore_in_flight (targets : list Target) : bool :=
  existsb (λ t, (tg_DesiredState t == DsActive)
    && ((tg_State t == TgDispatched) || (tg_State t == TgDrifted))) targets.

(** The newest dispatch of a restore target. *)
Definition newest_restore_dispatch (targets : list Target) : option Z :=
  fold_left (λ newest t,
    match tg_DesiredState t, tg_LastDispatchedAt t with
    | DsActive, Some at_ => Some (match newest with Some n => Z.max n at_ | None => at_ end)
    | _, _ => newest
    end) targets None.

(** Gate 2: the interval between batches is over. *)
Definition restore_interval_elapsed (e : CurtailmentEvent) (targets : list Target) (now : Z) : bool :=
  if ce_RestoreBatchIntervalSec e <=? 0 then true
  else match newest_restore_dispatch targets with
  | Some at_ => ce_RestoreBatchIntervalSec e * Second <=? time_Sub now at_
  | None => true
  end.

(** ** Scopes of an event *)

Definition isAllPairedPolicyEvent (e : CurtailmentEvent) : bool := ce_ForceIncludeAllPairedMiners e.

Definition isAllPairedPolicyReleasedCurtailTarget (e : CurtailmentEvent) (t : Target) : bool :=
  isAllPairedPolicyEvent e && (tg_State t == TgReleased) && (tg_DesiredState t == DsCurtailed).

Definition isClosedLoopFullFleet (e : CurtailmentEvent) : bool :=
  (ce_Mode e == ModeFullFleet) && (ce_LoopType e == LoopTypeClosed).

Definition isTopologyCandidateFilter (f : ListCandidatesParams) : bool :=
  some (lc_BuildingIDs f) || some (lc_RackIDs f) || some (lc_GroupIDs f).

Definition listCandidatesParamsForEventScope (e : CurtailmentEvent) : option ListCandidatesParams :=
  if (ce_ScopeType e == ScopeTypeWholeOrg) || (ce_ScopeType e == "") then Some empty_filter
  else if ce_ScopeType e == ScopeTypeSite then
    site ← ce_ScopeSiteID e;
    if site <=? 0 then None else Some (empty_filter <| lc_SiteIDs := [site] |>)
  else if ce_ScopeType e == ScopeTypeMixed then
    match ce_Scope e with
    | Ok (Some s) => match resolveScope s with Ok f => Some f | Err _ => None end
    | _ => None
    end
  else None.

Definition isClosedLoopTopologyEvent (e : CurtailmentEvent) : bool :=
  isClosedLoopFullFleet e
  && match listCandidatesParamsForEventScope e with Some f => isTopologyCandidateFilter f | None => false end.

Definition isAllPairedTopologyPolicyEvent (e : CurtailmentEvent) : bool :=
  isAllPairedPolicyEvent e && isClosedLoopTopologyEvent e.

(** ** Admission *)

Definition candidateMinPowerWForEvent (e : CurtailmentEvent) (fallback : Z) : Z :=
  match ce_SnapshotMinPowerW e with Some w => if w <=? 0 then fallback else w | None => fallback end.

Definition postEventCooldownSecForEvent (e : CurtailmentEvent) : Z :=
  match ce_SnapshotCooldownSec e with Some c => if c <=? 0 then 0 else c | None => 0 end.

Definition isReopenableTargetState (s : TargetState) : bool := settled s.

(** The last in-memory target of a device wins, as in the map the code builds. *)
Definition excludeNonReopenableExistingTargetParams (targets : list InsertTargetParams)
    (existing : list Target) : list InsertTargetParams :=
  let states : gmap string TargetState :=
    fold_left (λ m t, <[tg_DeviceIdentifier t := tg_State t]> m) existing ∅ in
  List.filter (λ p, match states !! it_DeviceIdentifier p with
    | Some s => isReopenableTargetState s | None => true end) targets.

Definition excludeDeviceIdentifiers (targets : list InsertTargetParams) (devices : list string)
    : list InsertTargetParams :=
  List.filter (λ p, negb (bool_decide (it_DeviceIdentifier p ∈ devices))) targets.

Definition topology_member (e : CurtailmentEvent) (c : MinerCandidate) : bool :=
  (mc_DeviceIdentifier c != "")
  && (if isAllPairedPolicyEvent e then IsAllPairedPolicyPairingStatus (mc_PairingStatus c)
      else mc_PairingStatus c == "PAIRED").

(** The targets whose miner left the scope, of [reconcileClosedLoopTopologyDepartures]. *)
Definition topology_departures (e : CurtailmentEvent) (existing : list Target)
    (candidates : list MinerCandidate) : list string :=
  let members := map mc_DeviceIdentifier (List.filter (topology_member e) candidates) in
  map tg_DeviceIdentifier (List.filter (λ t, (tg_DesiredState t != DsActive) && negb (settled (tg_State t))
    && negb (bool_decide (tg_DeviceIdentifier t ∈ members))) existing).

(** ** All-paired readiness *)

Definition target_state_of (s : string) : TargetState := policy_state s.

(** [AllPairedPolicyRestoreTargetState] of a candidate that may be missing. *)
Definition restore_target_state (c : option MinerCandidate) : TargetState * string :=
  match c with
  | None => (TgUnavailable, "missing_status")
  | Some c => let '(s, why) := AllPairedPolicyRestoreTargetState c in (target_state_of s, why)
  end.

Definition refreshable_curtail (t : Target) : bool :=
  (tg_DesiredState t == DsCurtailed) && ((tg_State t == TgPending) || (tg_State t == TgUnavailable)).

Definition allPairedPolicyRefreshDeviceIdentifiers (targets : list Target) : list string :=
  map tg_DeviceIdentifier
    (List.filter (λ t, (tg_DeviceIdentifier t != "") && refreshable_curtail t) targets).

Definition readiness_update (t : Target) (s : TargetState) (reason : string) (baseline : option float64)
    : AllPairedReadinessUpdate :=
  {| ru_DeviceIdentifier := tg_DeviceIdentifier t; ru_ExpectedState := tg_State t;
     ru_ExpectedDesiredState := tg_DesiredState t; ru_State := s; ru_Reason := reason;
     ru_BaselinePowerW := baseline |}.

(** The update [refreshAllPairedPolicyTargets] makes of a target whose miner is still
    paired-like. *)
Definition curtail_readiness (e : CurtailmentEvent) (t : Target) (c : MinerCandidate)
    : option AllPairedReadinessUpdate :=
  let minPowerW := candidateMinPowerWForEvent e 0 in
  let '(next, reason) := AllPairedPolicyTargetState c (ce_IncludeMaintenance e && ce_ForceIncludeMaintenance e) in
  let next := target_state_of next in
  let baseline := if (next == TgPending) && negb (is_set (tg_BaselinePowerW t))
                  then AllPairedPromotionBaselinePowerW c minPowerW else None in
  if (next == tg_State t) && (reason == targetErrorString t) then
    match baseline with Some b => Some (readiness_update t next reason (Some b)) | None => None end
  else Some (readiness_update t next reason baseline).

Definition refreshable_restore (t : Target) : bool :=
  (tg_DeviceIdentifier t != "") && (tg_DesiredState t == DsActive)
  && match tg_State t with TgPending | TgUnavailable | TgRestoreFailed => true | _ => false end.

Definition shouldRefreshAllPairedRestoreTarget (t : Target) (next : TargetState) (reason : string) : bool :=
  match tg_State t with
  | TgPending | TgRestoreFailed => next != TgPending
  | TgUnavailable => (next != tg_State t) || (reason != targetErrorString t)
  | _ => false
  end.

(** What [applyAllPairedReadinessUpdates] mirrors of an applied update. *)
Definition mirror_readiness (u : AllPairedReadinessUpdate) (t : Target) : Target :=
  let err := error_text (ru_Reason u) in
  let t' := t <| tg_State := ru_State u |> <| tg_LastError := err |>
              <| tg_BaselinePowerW := coalesce (tg_BaselinePowerW t) (ru_BaselinePowerW u) |> in
  match tg_DesiredState t with
  | DsCurtailed => t'
  | DsActive =>
      let requeued := ru_State u == TgPending in
      let t' := t' <| tg_ConfirmedAt := None |>
        <| tg_RestorePhase := (λ ph, let ph := ph <| ph_State := ru_State u |> <| ph_CompletedAt := None |>
                 <| ph_LastError := err |> in
               if requeued then ph <| ph_RetryCount := 0 |> <| ph_DispatchedAt := None |> <| ph_BatchUUID := None |>
               else ph) <$> tg_RestorePhase t |> in
      if requeued then
        t' <| tg_RetryCount := 0 |> <| tg_LastDispatchedAt := None |> <| tg_LastBatchUUID := None |>
      else t'
  end.

(** ** Authorization of a dispatch *)

(** [interfaces.CurtailmentTopologyScopeCoverage]: the sites the scope's resources and
    their members are at now. *)
Record TopologyCoverage := {
  tc_SelectedResourceSiteIDs : list Z;
  tc_CurrentMemberSiteIDs : list Z;
  tc_RequireOrgWide : bool
}.

Definition siteIDsWithinEnvelope (current persisted : list Z) : bool :=
  forallb (λ s, bool_decide (s ∈ persisted)) current.

Definition topologyCoverageWithinEnvelope (c : TopologyCoverage) (env : AuthorizationEnvelope) : bool :=
  ae_MinerScopeUnbounded env
  || (negb (tc_RequireOrgWide c)
      && siteIDsWithinEnvelope (tc_SelectedResourceSiteIDs c) (ae_SelectedResourceSiteIDs env)
      && siteIDsWithinEnvelope (tc_CurrentMemberSiteIDs c) (ae_CurrentMemberSiteIDs env)).

Definition AuthorizationEnvelopeAllows (effective : option EffectivePermissions)
    (env : AuthorizationEnvelope) (c : TopologyCoverage) : bool :=
  is_set effective
  && negb ((ae_MinerScopeUnbounded env || ae_FacilityFanScopeUnbounded env || tc_RequireOrgWide c)
           && negb (HasOrgWide effective PermCurtailmentManage))
  && forallb (λ s, Has effective PermCurtailmentManage (Some s))
       (ae_SelectedResourceSiteIDs env ++ ae_CurrentMemberSiteIDs env ++ ae_FacilityFanSiteIDs env
        ++ tc_SelectedResourceSiteIDs c ++ tc_CurrentMemberSiteIDs c)
  && negb (ae_FacilityFanScopeUnbounded env && negb (HasOrgWide effective PermSiteRead))
  && forallb (λ s, Has effective PermSiteRead (Some s)) (ae_FacilityFanSiteIDs env).

Definition nonAdminRestoreBatchIntervalMax : Z := 5 * 60.

(** [orgMaxDuration] is the organization's default when it was read. *)
Definition EventRequiresAdminControls (e : CurtailmentEvent) (orgMaxDuration : option Z)
    : result FleetError bool :=
  if ce_AllowUnbounded e || ce_ForceIncludeMaintenance e || ce_ForceIncludeAllPairedMiners e
     || (nonAdminRestoreBatchIntervalMax <? ce_CurtailBatchIntervalSec e)
     || (nonAdminRestoreBatchIntervalMax <? ce_RestoreBatchIntervalSec e)
     || match ce_MaxDurationSeconds e, orgMaxDuration with
        | Some d, Some m => (0 <? m) && (m <? d) | _, _ => false end
  then Ok true
  else ce_SnapshotRequiresAdmin e.

Definition AdminRole := "ADMIN".
Definition SuperAdminRole := "SUPER_ADMIN".

Definition is_admin_role (role : string) : bool := (role == AdminRole) || (role == SuperAdminRole).

(** ** Settling an event *)

(** What [maybeMarkActive] finds of the targets of a pending event. *)
Record Tally := { ta_confirmed : Z; ta_failures : Z; ta_unavailable : Z; ta_released : Z }.

#[export] Instance eta_Tally : Eta Tally := λ t,
  {| ta_confirmed := ta_confirmed t; ta_failures := ta_failures t; ta_unavailable := ta_unavailable t;
     ta_released := ta_released t |}.

(** [None]: the target holds the event. *)
Definition tally_one (e : CurtailmentEvent) (acc : option Tally) (t : Target) : option Tally :=
  n ← acc;
  let watcher := isClosedLoopTopologyEvent e in
  match tg_State t with
  | TgConfirmed => Some (n <| ta_confirmed := ta_confirmed n + 1 |>)
  | TgRestoreFailed =>
      if watcher && (tg_DesiredState t == DsActive) then Some n
      else Some (n <| ta_failures := ta_failures n + 1 |>)
  | TgUnavailable =>
      if isAllPairedPolicyEvent e then Some (n <| ta_unavailable := ta_unavailable n + 1 |>) else None
  | TgPending | TgDispatching | TgDispatched | TgDrifted => None
  | TgReleased =>
      if isAllPairedPolicyReleasedCurtailTarget e t then Some (n <| ta_released := ta_released n + 1 |>)
      else if watcher then Some n else None
  | TgResolved => if (tg_DesiredState t != DsActive) || negb (isClosedLoopFullFleet e) then None else Some n
  end.

Definition pending_tally (e : CurtailmentEvent) (targets : list Target) : option Tally :=
  fold_left (tally_one e) targets (Some {| ta_confirmed := 0; ta_failures := 0; ta_unavailable := 0;
    ta_released := 0 |}).

(** The state a pending event moves to; [None] holds it. *)
Definition pending_outcome (e : CurtailmentEvent) (targets : list Target) : option EventState :=
  if negb (some targets) && isAllPairedPolicyEvent e then None
  else
    n ← pending_tally e targets;
    if (ta_confirmed n =? 0) && ((0 <? ta_unavailable n) || (0 <? ta_released n)) then None
    else if (ta_confirmed n =? 0) && (0 <? ta_failures n) then Some EvCompletedWithFailures
    else Some EvActive.

(** The state a restoring event ends in; [None] holds it. *)
Definition restoring_outcome (e : CurtailmentEvent) (targets : list Target) : option EventState :=
  if some (ce_FacilityFanDeviceIDs e) && negb (is_set (ce_FanOnSentAt e)) then None
  else if negb (forallb (λ t, settled (tg_State t)) targets) then None
  else if existsb (λ t, tg_State t == TgRestoreFailed) targets then Some EvCompletedWithFailures
  else Some EvCompleted.

(** [max_duration_seconds] is over, of [enforceMaxDuration]. *)
Definition max_duration_elapsed (e : CurtailmentEvent) (now : Z) : bool :=
  match ce_MaxDurationSeconds e, ce_StartedAt e with
  | Some max, Some started =>
      negb (ce_AllowUnbounded e) && (0 <? max) && (max * Second <=? time_Sub now started)
  | _, _ => false
  end.
