(* ===== verification/CurtailmentReconciler.v ===== *)
(** * The curtailment reconciler

    [internal/domain/curtailment/reconciler/reconciler.go], reconciler_allpaired.go and
    dispatch_authorization.go: one pass over an event. A pending event is dispatched and
    confirmed, an active one watched for drift, a restoring one restored in batches;
    facility fans are turned off once every miner is confirmed curtailed and on again
    before miners come back.

    The pass works on copies loaded at its start: the event, and the targets, which are
    objects shared by the slices of the code; here they are cells of a memory and slices
    are lists of cells. Each call to the store, the command service, the fans or the
    permission resolver takes one turn of a script: what others did to the tables before
    the call, the time that passed, whether it fails and what it answers. While a
    transaction holds the lock of the event's row, the others leave that row alone. What
    the pass did is recorded in a trace, each entry with the tables at that moment.

    Deadlines of contexts, metrics, logs, alerts and the wake-up of the confirmation
    pulse are not modelled; the SQL store implements every optional store interface. *)

From S2P Require Import Prelude GoSort Float64 Errors RolloutBehavior AuthzPermissions CommandFilter.
From S2P Require Import CurtailmentModes CurtailmentSelector CurtailmentPreview CurtailmentEvents.
From S2P Require Import CurtailmentDecisions.
#[local] Open Scope string_scope.
#[local] Open Scope list_scope.
#[local] Open Scope Z_scope.
#[local] Open Scope go_scope.

(** ** The script and the trace *)

Inductive PowerMode := PowerOn | PowerOff.

Inductive Action :=
| SawEvent
| LoadedTargets
| ReadCandidates (params : ListCandidatesParams) (candidates : list MinerCandidate)
| WroteTarget (device : string) (params : UpdateTargetParams)
| SentCurtail (devices : list string)
| SentUncurtail (devices : list string)
| CommandedFans (power : PowerMode) (failure : option string)
| ClaimedTargets
| MovedEvent (state : EventState)
| BeganRestore
| Heartbeat (events : Z).

Record Entry := { en_action : Action; en_now : Z; en_db : CurtailDB }.

(** One turn. [rt_error] makes the call fail, with the text [rt_message]; the others are
    what a call that returns answers. *)
Record RTurn := {
  rt_others : CurtailDB → CurtailDB;
  rt_elapsed : Z;
  rt_error : option FleetError;
  rt_message : string;
  rt_candidates : list MinerCandidate;
  rt_devices : list string;
  rt_result : option CommandOutcome;
  rt_fan : option string;
  rt_coverage : TopologyCoverage;
  rt_effective : option EffectivePermissions;
  rt_role : string;
  rt_minPowerW : Z;
  rt_maxDuration : Z;
  rt_flag : bool
}.

(** After the script nobody interferes and nothing fails. *)
Definition quiet_rturn : RTurn :=
  {| rt_others := λ db, db; rt_elapsed := 0; rt_error := None; rt_message := ""; rt_candidates := [];
     rt_devices := []; rt_result := None; rt_fan := None;
     rt_coverage := {| tc_SelectedResourceSiteIDs := []; tc_CurrentMemberSiteIDs := [];
       tc_RequireOrgWide := false |};
     rt_effective := None; rt_role := ""; rt_minPowerW := 0; rt_maxDuration := 0; rt_flag := false |}.

(** [rs_rejects]: the events whose dispatch was rejected and whose restore did not begin
    yet, with whether the miners keep their restore obligation. *)
Record RState := {
  rs_db : CurtailDB;
  rs_turns : list RTurn;
  rs_now : Z;
  rs_trace : list Entry;
  rs_event : CurtailmentEvent;
  rs_mem : list Target;
  rs_lock : option Z;
  rs_rejects : gmap Z bool
}.

#[export] Instance eta_RState : Eta RState := λ s,
  {| rs_db := rs_db s; rs_turns := rs_turns s; rs_now := rs_now s; rs_trace := rs_trace s;
     rs_event := rs_event s; rs_mem := rs_mem s; rs_lock := rs_lock s; rs_rejects := rs_rejects s |}.

Definition Rec (A : Type) : Type := RState → A * RState.
#[export] Instance Rec_ret : MRet Rec := λ A a s, (a, s).
#[export] Instance Rec_bind : MBind Rec := λ A B f m s, let '(a, s') := m s in f a s'.

(** The row of a locked event stays as it was. *)
Definition keep_event (id : Z) (before after : CurtailDB) : CurtailDB :=
  after <| db_events := match db_events before !! id with
    | Some e => <[id := e]> (db_events after) | None => delete id (db_events after) end |>.

Definition take_rturn : Rec RTurn := λ s,
  let turn := default quiet_rturn (head (rs_turns s)) in
  let db := rt_others turn (rs_db s) in
  let db := match rs_lock s with Some id => keep_event id (rs_db s) db | None => db end in
  (turn, s <| rs_db := db |> <| rs_now := rs_now s + Z.max 0 (rt_elapsed turn) |>
           <| rs_turns := tail (rs_turns s) |>).

Definition log (a : Action) : Rec unit := λ s,
  (tt, s <| rs_trace := rs_trace s ++ [{| en_action := a; en_now := rs_now s; en_db := rs_db s |}] |>).

Definition clock : Rec Z := λ s, (rs_now s, s).
Definition get_event : Rec CurtailmentEvent := λ s, (rs_event s, s).
Definition set_event (f : CurtailmentEvent → CurtailmentEvent) : Rec unit := λ s,
  (tt, s <| rs_event := f (rs_event s) |>).
Definition set_lock (l : option Z) : Rec unit := λ s, (tt, s <| rs_lock := l |>).

(** Run a statement or transaction of the store now. *)
Definition run_op {A} (op : Z → COp A) : Rec (result StoreError A) := λ s,
  let '(r, db) := op (rs_now s) (rs_db s) in (r, s <| rs_db := db |>).

(** A call to the store; [op] also sees the answers of the turn. *)
Definition store_with {A} (op : RTurn → Z → COp A) : Rec (result StoreError A) :=
  turn ← take_rturn;
  match rt_error turn with
  | Some err => mret (Err (ErrStore err))
  | None => run_op (op turn)
  end.

Definition store_call {A} (op : Z → COp A) : Rec (result StoreError A) := store_with (λ _, op).

(** A read outside the two tables: the turn answers. *)
Definition ask {A} (answer : RTurn → A) : Rec (result FleetError A) :=
  turn ← take_rturn;
  match rt_error turn with Some err => mret (Err err) | None => mret (Ok (answer turn)) end.

(** Repeat over a list, in order. *)
Fixpoint for_each {A} (l : list A) (body : A → Rec unit) : Rec unit :=
  match l with [] => mret tt | x :: rest => _ ← body x; for_each rest body end.

(** ** The memory of targets *)

Definition no_target : Target :=
  {| tg_DeviceIdentifier := ""; tg_State := TgPending; tg_DesiredState := DsCurtailed;
     tg_BaselinePowerW := None; tg_LastDispatchedAt := None; tg_LastBatchUUID := None;
     tg_ObservedPowerW := None; tg_ObservedAt := None; tg_ConfirmedAt := None; tg_RetryCount := 0;
     tg_LastError := None; tg_CurtailPhase := new_phase TgPending; tg_RestorePhase := None |}.

Definition cell (mem : list Target) (p : nat) : Target := default no_target (mem !! p).

Definition read (p : nat) : Rec Target := λ s, (cell (rs_mem s) p, s).
Definition reads (ps : list nat) : Rec (list Target) := λ s, (map (cell (rs_mem s)) ps, s).
Definition update (p : nat) (f : Target → Target) : Rec unit := λ s,
  (tt, s <| rs_mem := alter f p (rs_mem s) |>).

(** New cells for rows that were read. *)
Definition allocate (ts : list Target) : Rec (list nat) := λ s,
  (seq (length (rs_mem s)) (length ts), s <| rs_mem := rs_mem s ++ ts |>).

(** The candidate of a device: the last row of it, as in the map the code builds. *)
Definition candidate_of (cands : list MinerCandidate) (device : string) : option MinerCandidate :=
  last (List.filter (λ c, mc_DeviceIdentifier c == device) cands).

(** What is wired: the fans and the permission resolver may be absent. *)
Record Wiring := { w_fans : bool; w_permissions : bool }.

(** What the reconciler is built with: its settings, what is wired, the order the
    database gives devices and the text of a store error as it is recorded on a target. *)
Class ReconcilerEnv := {
  cfg : ReconcilerConfig;
  wiring : Wiring;
  collate : string → string → bool;
  store_message : StoreError → string
}.

Section Reconciler.
Context `{ReconcilerEnv}.

(** ** Reads *)

Definition ListTargets : Rec (result StoreError (list nat)) :=
  e ← get_event;
  r ← store_call (λ _, gets (ListTargetsByEvent collate (ce_OrgID e) (ce_ID e)));
  match r with
  | Err err => mret (Err err)
  | Ok ts => _ ← log LoadedTargets; ps ← allocate ts; mret (Ok ps)
  end.

Definition ListCandidatesCall (params : ListCandidatesParams) : Rec (result FleetError (list MinerCandidate)) :=
  r ← ask rt_candidates;
  match r with Ok cands => _ ← log (ReadCandidates params cands); mret (Ok cands) | Err err => mret (Err err) end.

(** The candidates of given devices of the event's organization. *)
Definition candidates_of_devices (devices : list string) : Rec (result FleetError (list MinerCandidate)) :=
  e ← get_event;
  ListCandidatesCall (empty_filter <| lc_OrgID := ce_OrgID e |> <| lc_DeviceIdentifiers := devices |>).

Definition eventStillDispatchable : Rec bool :=
  e ← get_event;
  r ← store_call (λ _, gets (GetEventByUUID (ce_OrgID e) (ce_ID e)));
  match r with
  | Ok (Some latest) =>
      if IsTerminal (ce_State latest) || (ce_State latest != ce_State e) then mret false
      else _ ← log SawEvent; mret true
  | _ => mret false
  end.

(** ** Writes of a target *)

Definition expectedDesiredStateForEventState (s : EventState) : option DesiredState :=
  match s with
  | EvPending | EvActive => Some DsCurtailed
  | EvRestoring => Some DsActive
  | _ => None
  end.

Definition writeTargetState (device : string) (p : UpdateTargetParams) : Rec (result StoreError unit) :=
  e ← get_event;
  let p := p <| up_ExpectedEventState := coalesce (up_ExpectedEventState p) (Some (ce_State e)) |>
             <| up_ExpectedDesiredState := coalesce (up_ExpectedDesiredState p)
                  (expectedDesiredStateForEventState (ce_State e)) |> in
  r ← store_call (λ now, UpdateTargetState now (ce_ID e) device p);
  match r with
  | Ok _ => _ ← log (WroteTarget device p); mret (Ok tt)
  | Err err => mret (Err err)
  end.

(** [guard]: the state, and the batch when it has one, that the row must still have. *)
Definition recordDispatchFailureGuarded (ptr : nat) (errMsg : string) (nonTerminalFailureState : TargetState)
    (guard : option (TargetState * option string)) : Rec unit :=
  e ← get_event;
  t ← read ptr;
  let newRetry := int32 (tg_RetryCount t + 1) in
  let state := if retryBudgetTerminalizes cfg t newRetry then TgRestoreFailed else nonTerminalFailureState in
  let params := (to_state state) <| up_LastError := Some errMsg |> <| up_RetryCount := Some newRetry |>
    <| up_ExpectedDesiredState := Some (tg_DesiredState t) |>
    <| up_ExpectedState := fst <$> guard |> <| up_ExpectedDispatchBatchUUID := guard ≫= snd |> in
  r ← writeTargetState (tg_DeviceIdentifier t) params;
  match r with
  | Ok _ => update ptr (λ t, t <| tg_State := state |> <| tg_RetryCount := newRetry |>
                                <| tg_LastError := Some errMsg |>)
  | Err ErrEventStateRaceLoss => mret tt
  | Err _ =>
      match guard with
      | Some _ => mret tt
      | None =>
          bump ← store_call (λ _, BumpTargetRetry (ce_ID e) (tg_DeviceIdentifier t));
          match bump with
          | Ok _ => update ptr (λ t, t <| tg_RetryCount := newRetry |>)
          | Err _ => mret tt
          end
      end
  end.

Definition recordDispatchFailure (ptr : nat) (errMsg : string) (nonTerminalFailureState : TargetState)
    : Rec unit := recordDispatchFailureGuarded ptr errMsg nonTerminalFailureState None.

Definition recordDispatchedObservationFailure (ptr : nat) (errMsg : string)
    (nonTerminalFailureState : TargetState) : Rec unit :=
  t ← read ptr;
  recordDispatchFailureGuarded ptr errMsg nonTerminalFailureState
    (Some (TgDispatched, loadedDispatchBatchUUID t)).

(** ** Fans *)

(** [CommandFanState]: the command runs while the event's row is locked in the expected
    state, and its result is stored. *)
Definition CommandFanState (p : FanStateParams) (command : Rec (option string))
    : Rec (result StoreError (option string)) :=
  e ← get_event;
  if IsTerminal (fp_ExpectedEventState p) then mret (Err (ErrStore NewInvalidArgumentError))
  else
    locked ← store_call (λ _, LockEventForFanCommand (ce_ID e) (fp_ExpectedEventState p));
    match locked with
    | Err err => mret (Err err)
    | Ok _ =>
        _ ← set_lock (Some (ce_ID e));
        lastError ← command;
        r ← store_call (λ _, UpdateEventFanState (ce_ID e) lastError p);
        _ ← set_lock None;
        match r with Err err => mret (Err err) | Ok _ => mret (Ok lastError) end
    end.

Definition set_fans (power : PowerMode) : Rec (option string) :=
  turn ← take_rturn;
  _ ← log (CommandedFans power (rt_fan turn));
  mret (rt_fan turn).

Definition commandAndPersistFanState (p : FanStateParams) (power : PowerMode)
    : Rec (result StoreError (option string)) := CommandFanState p (set_fans power).

Definition fan_expecting (s : EventState) : FanStateParams :=
  {| fp_ExpectedEventState := s; fp_FanOffSentAt := None; fp_FanOnSentAt := None;
     fp_FanAirflowReopenedAt := None; fp_FanAirflowReopenedAtOnSuccess := None;
     fp_ClearFanAirflowReopenedAt := false |}.

(** ON during a phase with airflow: the marker of the reopening is stamped on success,
    and on a first attempt whatever its result. *)
Definition reopen_params (s : EventState) (e : CurtailmentEvent) (now : Z) : FanStateParams :=
  (fan_expecting s) <| fp_FanAirflowReopenedAt := if is_set (ce_FanAirflowReopenedAt e) then None else Some now |>
                    <| fp_FanAirflowReopenedAtOnSuccess := Some now |>.

(** The event in memory after an ON command with these parameters. *)
Definition mirror_reopen (lastError : option string) (p : FanStateParams) (e : CurtailmentEvent)
    : CurtailmentEvent :=
  (match lastError with
   | None => e <| ce_FanAirflowReopenedAt := coalesce (fp_FanAirflowReopenedAtOnSuccess p)
                    (coalesce (fp_FanAirflowReopenedAt p) (ce_FanAirflowReopenedAt e)) |>
   | Some _ => e <| ce_FanAirflowReopenedAt := coalesce (fp_FanAirflowReopenedAt p) (ce_FanAirflowReopenedAt e) |>
   end) <| ce_FanLastError := lastError |>.

Definition fans_wired (e : CurtailmentEvent) : bool := w_fans wiring && some (ce_FacilityFanDeviceIDs e).

Definition reopen_fans (s : EventState) : Rec bool :=
  e ← get_event;
  now ← clock;
  let p := reopen_params s e now in
  r ← commandAndPersistFanState p PowerOn;
  match r with
  | Err _ => mret false
  | Ok lastError => _ ← set_event (mirror_reopen lastError p); mret (negb (is_set lastError))
  end.

Definition reconcilePendingFans : Rec bool :=
  e ← get_event;
  if negb (is_set (ce_FanOffSentAt e)) || negb (is_set (ce_FanLastError e)) then mret true
  else if negb (fans_wired e) then mret false
  else reopen_fans EvPending.

Definition reopenEventFans : Rec bool :=
  e ← get_event;
  if negb (fans_wired e) || negb (is_set (ce_FanOffSentAt e)) then mret false
  else reopen_fans (ce_State e).

(** What [reconcileActiveFans] wants of the fans; [None] to leave them. *)
Definition desired_power (e : CurtailmentEvent) (targets : list Target) (now : Z) : option PowerMode :=
  let '(confirmed, all) := activeFanTargetConfirmation targets in
  if negb all || (confirmed =? 0) then
    if is_set (ce_FanOffSentAt e) then Some PowerOn else None
  else if (negb (is_set (ce_FanOffSentAt e)) || is_set (ce_FanAirflowReopenedAt e))
          && negb (activeFanOffDelayElapsed e targets now) then None
  else Some PowerOff.

(** The first OFF is announced in the table before the hardware is commanded. *)
Definition announce_fans_off (now : Z) : Rec bool :=
  e ← get_event;
  if is_set (ce_FanOffSentAt e) then mret true
  else
    r ← CommandFanState ((fan_expecting EvActive) <| fp_FanOffSentAt := Some now |>) (mret (ce_FanLastError e));
    match r with
    | Err _ => mret false
    | Ok _ => _ ← set_event (λ e, e <| ce_FanOffSentAt := Some now |>); mret true
    end.

Definition turn_fans_off : Rec bool :=
  e ← get_event;
  let p := (fan_expecting EvActive) <| fp_ClearFanAirflowReopenedAt := is_set (ce_FanAirflowReopenedAt e) |> in
  r ← commandAndPersistFanState p PowerOff;
  match r with
  | Err _ => mret false
  | Ok lastError =>
      _ ← set_event (λ e, (if fp_ClearFanAirflowReopenedAt p then e <| ce_FanAirflowReopenedAt := None |> else e)
                          <| ce_FanLastError := lastError |>);
      mret (negb (is_set lastError))
  end.

Definition reconcileActiveFans (targets : list nat) : Rec bool :=
  e ← get_event;
  if negb (fans_wired e) then mret false
  else
    ts ← reads targets;
    now ← clock;
    match desired_power e ts now with
    | None => mret false
    | Some PowerOff => announced ← announce_fans_off now; if (announced : bool) then turn_fans_off else mret false
    | Some PowerOn => reopen_fans EvActive
    end.

Definition reconcileRestoringFans : Rec unit :=
  e ← get_event;
  if negb (fans_wired e) then mret tt
  else
    now ← clock;
    let first := negb (is_set (ce_FanOnSentAt e)) in
    let p := (fan_expecting EvRestoring)
      <| fp_FanOnSentAt := if first then Some now else None |> <| fp_ClearFanAirflowReopenedAt := first |>
      <| fp_FanAirflowReopenedAtOnSuccess := if is_set (restoringFanAirflowStartedAt e) then None else Some now |> in
    r ← commandAndPersistFanState p PowerOn;
    match r with
    | Err _ => mret tt
    | Ok lastError =>
        set_event (λ e,
          (match lastError, fp_FanAirflowReopenedAtOnSuccess p with
           | None, Some at_ => e <| ce_FanAirflowReopenedAt := Some at_ |>
           | _, _ => if first then e <| ce_FanAirflowReopenedAt := None |> else e
           end) <| ce_FanOnSentAt := coalesce (ce_FanOnSentAt e) (Some now) |> <| ce_FanLastError := lastError |>)
    end.

(** ** Authorization of a topology dispatch *)

(** A command: the text of its failure, or what the service returned. *)
Definition send (a : Action) : Rec (result string (option CommandOutcome)) :=
  turn ← take_rturn;
  _ ← log a;
  match rt_error turn with Some _ => mret (Err (rt_message turn)) | None => mret (Ok (rt_result turn)) end.

Definition begin_restore (known_unsent : list string) : Rec (result StoreError CurtailmentEvent) :=
  e ← get_event;
  r ← store_call (λ now, BeginRestoreTransition now (ce_OrgID e) (ce_ID e) (Ok tt) known_unsent);
  match r with Ok e' => _ ← log BeganRestore; mret (Ok e') | Err err => mret (Err err) end.

Definition rejectClosedLoopAdmission : Rec unit := _ ← begin_restore []; mret tt.

Definition get_rejects : Rec (gmap Z bool) := λ s, (rs_rejects s, s).
Definition set_rejects (f : gmap Z bool → gmap Z bool) : Rec unit := λ s,
  (tt, s <| rs_rejects := f (rs_rejects s) |>).

(** [reject]: the rejection is kept until the restore it asks for has begun. *)
Definition reject_dispatch (preserve : bool) (known_unsent : list string) : Rec unit :=
  e ← get_event;
  _ ← set_rejects <[ce_ID e := preserve]>;
  r ← begin_restore (if preserve then [] else known_unsent);
  match r with
  | Ok _ => set_rejects (delete (ce_ID e))
  | Err _ => mret tt
  end.

Definition eventCreatorCanUseRequiredAdminControls (e : CurtailmentEvent) : Rec (result FleetError bool) :=
  config ← (if is_set (ce_MaxDurationSeconds e) then ask (λ turn, Some (rt_maxDuration turn)) else mret (Ok None));
  match config with
  | Err err => mret (Err err)
  | Ok orgMaxDuration =>
      match EventRequiresAdminControls e orgMaxDuration with
      | Err err => mret (Err err)
      | Ok false => mret (Ok true)
      | Ok true =>
          role ← ask rt_role;
          match role with Err err => mret (Err err) | Ok role => mret (Ok (is_admin_role role)) end
      end
  end.

(** The checks of the dispatch fence on the locked event, the coverage and the members:
    [Ok tt] lets the command go. *)
Definition fence_checks (latest : CurtailmentEvent) (coverage : TopologyCoverage) (members devices : list string)
    : Rec bool :=
  match ce_Scope latest, ce_Envelope latest with
  | Ok (Some scope), Some env =>
      if negb (hasTopologySelectors scope) then mret false
      else if negb (topologyCoverageWithinEnvelope coverage env) then mret false
      else if negb (forallb (λ d, bool_decide (d ∈ members)) devices) then mret false
      else if negb (w_permissions wiring) then mret false
      else
        effective ← ask rt_effective;
        match effective with
        | Err _ => mret false
        | Ok effective =>
            if negb (AuthorizationEnvelopeAllows effective env coverage) then mret false
            else
              admin ← eventCreatorCanUseRequiredAdminControls latest;
              match admin with Ok true => mret true | _ => mret false end
        end
  | _, _ => mret false
  end.

(** How a fence ends: the event moved on, the dispatch was rejected before the command,
    the fence failed (after the command or before), or the command ran. *)
Inductive Fenced :=
| FenceRaceLoss
| FenceRejected
| FenceFailed (attempted : bool)
| FencePassed (r : result string (option CommandOutcome)).

Definition WithCurtailmentTopologyDispatchFence (devices : list string) : Rec Fenced :=
  e ← get_event;
  locked ← store_call (λ _, gets (GetEventByUUID (ce_OrgID e) (ce_ID e)));
  match locked with
  | Err _ => mret (FenceFailed false)
  | Ok None => mret FenceRaceLoss
  | Ok (Some latest) =>
      if (ce_State latest != ce_State e) || IsTerminal (ce_State latest) then mret FenceRaceLoss
      else
        _ ← set_lock (Some (ce_ID e));
        topology ← ask (λ turn, (rt_coverage turn, rt_devices turn));
        outcome ← match topology with
          | Err _ => mret (FenceFailed false)
          | Ok (coverage, members) =>
              allowed ← fence_checks latest coverage members devices;
              if negb (allowed : bool) then mret FenceRejected
              else
                r ← send (SentCurtail devices);
                commit ← ask (λ _, tt);
                match commit with Err _ => mret (FenceFailed true) | Ok _ => mret (FencePassed r) end
          end;
        _ ← set_lock None;
        mret outcome
  end.

(** [None]: the event is no topology event and the caller sends. [Some None]: the
    dispatch may not go. *)
Definition authorizeTopologyCurtailDispatch (devices known_unsent : list string)
    : Rec (option (option (result string (option CommandOutcome)))) :=
  e ← get_event;
  rejects ← get_rejects;
  if ce_ScopeType e != ScopeTypeMixed then mret None
  else match rejects !! ce_ID e with
  | Some preserve => _ ← reject_dispatch preserve known_unsent; mret (Some None)
  | None =>
      let reject preserve := _ ← reject_dispatch preserve known_unsent; mret (Some None) in
      match ce_Scope e with
      | Ok (Some scope) =>
          if negb (hasTopologySelectors scope) then mret None
          else match resolveScope scope with
          | Err _ => reject false
          | Ok _ =>
              outcome ← WithCurtailmentTopologyDispatchFence devices;
              match outcome with
              | FenceRejected => reject false
              | FenceRaceLoss => mret (Some None)
              | FenceFailed attempted => reject attempted
              | FencePassed r => mret (Some (Some r))
              end
          end
      | _ => reject false
      end
  end.

(** ** Dispatch of Curtail *)

Definition recordCurtailPendingDispatch (at_ : Z) : Rec bool :=
  e ← get_event;
  r ← store_call (λ _, RecordCurtailPendingDispatch (ce_ID e) (ce_State e) at_);
  match r with
  | Err _ => mret false
  | Ok _ => _ ← set_event (λ e, e <| ce_LastCurtailPendingDispatchAt := Some at_ |>); mret true
  end.

(** The DISPATCHING pre-writes. [None] when the event moved on. *)
Fixpoint prewrite_curtail (claim : list nat) (nonTerminalFailureState : TargetState)
    (dispatchSet : list nat) (unsent : list string) : Rec (option (list nat * list string)) :=
  match claim with
  | [] => mret (Some (dispatchSet, unsent))
  | p :: rest =>
      t ← read p;
      let unsent := if tg_State t == TgPending then unsent ++ [tg_DeviceIdentifier t] else unsent in
      r ← writeTargetState (tg_DeviceIdentifier t) (to_state TgDispatching);
      match r with
      | Err ErrEventStateRaceLoss => mret None
      | Err err =>
          _ ← recordDispatchFailure p (store_message err) nonTerminalFailureState;
          prewrite_curtail rest nonTerminalFailureState dispatchSet unsent
      | Ok _ =>
          _ ← update p (λ t, t <| tg_State := TgDispatching |>);
          prewrite_curtail rest nonTerminalFailureState (dispatchSet ++ [p]) unsent
      end
  end.

Definition skippedDeviceReason (s : CommandSkip) : string :=
  if ck_Reason s != "" then ck_Reason s
  else if ck_FilterName s != "" then "filtered by " +:+ ck_FilterName s
  else "filtered by command preflight".

(** The reason a device was skipped with; the last entry of it wins. *)
Definition skip_of (r : CommandOutcome) (device : string) : option string :=
  skippedDeviceReason <$> last (List.filter (λ s, ck_DeviceIdentifier s == device) (cr_Skipped r)).

(** Why a device of the command does not count as dispatched, if it does not. *)
Definition not_dispatched (r : CommandOutcome) (why device : string) : option string :=
  match skip_of r device with
  | Some reason => Some reason
  | None => if bool_decide (device ∈ cr_DispatchedDeviceIdentifiers r) then None else Some why
  end.

Definition record_curtail_dispatch (nonTerminalFailureState : TargetState) (now : Z) (r : CommandOutcome)
    (p : nat) : Rec unit :=
  t ← read p;
  let device := tg_DeviceIdentifier t in
  let batch := cr_BatchIdentifier r in
  match not_dispatched r "curtail command did not enqueue device" device with
  | Some reason => recordDispatchFailure p reason nonTerminalFailureState
  | None =>
      res ← writeTargetState device ((to_state TgDispatched) <| up_LastDispatchedAt := Some now |>
        <| up_LastError := Some "" |> <| up_LastBatchUUID := Some batch |>
        <| up_ExpectedDesiredState := Some DsCurtailed |>);
      match res with
      | Err ErrEventStateRaceLoss => mret tt
      | Err err => recordDispatchFailure p (store_message err) nonTerminalFailureState
      | Ok _ => update p (λ t, t <| tg_State := TgDispatched |> <| tg_LastDispatchedAt := Some now |>
          <| tg_LastError := None |> <| tg_LastBatchUUID := Some batch |>
          <| tg_CurtailPhase := (tg_CurtailPhase t) <| ph_State := TgDispatched |>
               <| ph_DispatchedAt := Some now |> <| ph_BatchUUID := Some batch |> |>)
      end
  end.

(** Record what a Curtail command returned for each target. *)
Definition record_curtail_result (nonTerminalFailureState : TargetState) (dispatchSet : list nat)
    (outcome : result string (option CommandOutcome)) : Rec unit :=
  match outcome with
  | Err errMsg => for_each dispatchSet (λ p, recordDispatchFailure p errMsg nonTerminalFailureState)
  | Ok None => for_each dispatchSet (λ p,
      recordDispatchFailure p "command produced no batch (no live devices to dispatch)" nonTerminalFailureState)
  | Ok (Some r) =>
      if cr_BatchIdentifier r == "" then
        for_each dispatchSet (λ p,
          t ← read p;
          recordDispatchFailure p (default "command produced no batch (no live devices to dispatch)"
            (skip_of r (tg_DeviceIdentifier t))) nonTerminalFailureState)
      else now ← clock; for_each dispatchSet (record_curtail_dispatch nonTerminalFailureState now r)
  end.

Definition devices_of (ps : list nat) : Rec (list string) :=
  ts ← reads ps; mret (map tg_DeviceIdentifier ts).

(** The command of a claimed set, fenced when the event has a topology scope. [None]
    when it may not be sent. *)
Definition send_curtail (dispatchSet : list nat) (unsent : list string)
    : Rec (option (result string (option CommandOutcome))) :=
  devices ← devices_of dispatchSet;
  authorized ← authorizeTopologyCurtailDispatch devices unsent;
  match authorized with
  | Some outcome => mret outcome
  | None =>
      alive ← eventStillDispatchable;
      if negb (alive : bool) then mret None
      else r ← send (SentCurtail devices); mret (Some r)
  end.

(** [dispatchCurtailBatchWithKnownUnsent]. *)
Definition dispatchCurtailBatchWithKnownUnsent (claim : list nat) (nonTerminalFailureState : TargetState)
    (recordPendingDispatch : bool) (preclaimed : list string) : Rec bool :=
  if negb (some claim) then mret true
  else
    alive ← eventStillDispatchable;
    if negb (alive : bool) then mret false
    else
      now ← clock;
      recorded ← (if recordPendingDispatch then recordCurtailPendingDispatch now else mret true);
      if negb (recorded : bool) then mret false
      else
        claimed ← prewrite_curtail claim nonTerminalFailureState [] preclaimed;
        match claimed with
        | None => mret false
        | Some ([], _) => mret true
        | Some (dispatchSet, unsent) =>
            alive ← eventStillDispatchable;
            if negb (alive : bool) then mret false
            else
              sent ← send_curtail dispatchSet unsent;
              match sent with
              | None => mret false
              | Some outcome => _ ← record_curtail_result nonTerminalFailureState dispatchSet outcome; mret true
              end
        end.

Definition dispatchCurtailBatch (claim : list nat) (nonTerminalFailureState : TargetState)
    (recordPendingDispatch : bool) : Rec bool :=
  dispatchCurtailBatchWithKnownUnsent claim nonTerminalFailureState recordPendingDispatch [].

Definition dispatchOneCurtail (p : nat) (nonTerminalFailureState : TargetState) : Rec unit :=
  _ ← dispatchCurtailBatch [p] nonTerminalFailureState false; mret tt.

Definition dispatch_claim (state : TargetState) (recordPendingDispatch : bool) (claim : list nat) : Rec bool :=
  ts ← reads claim;
  dispatchCurtailBatch claim state
    (if state == TgDispatching then recordPendingDispatch && hasUnrecordedCurtailDispatch ts
     else recordPendingDispatch).

(** [dispatchByState]: the targets in a state, batch after batch. *)
Fixpoint dispatch_by_state (batchSize : Z) (state : TargetState) (single recordPendingDispatch : bool)
    (targets claim : list nat) : Rec bool :=
  match targets with
  | [] => if negb (some claim) then mret true else dispatch_claim state recordPendingDispatch claim
  | p :: rest =>
      t ← read p;
      if (tg_State t != state) || negb (isCurtailRetryTarget t) then
        dispatch_by_state batchSize state single recordPendingDispatch rest claim
      else
        let claim := claim ++ [p] in
        if batchSize <=? Z.of_nat (length claim) then
          ok ← dispatch_claim state recordPendingDispatch claim;
          if negb (ok : bool) then mret false
          else if single then mret true
          else dispatch_by_state batchSize state single recordPendingDispatch rest []
        else dispatch_by_state batchSize state single recordPendingDispatch rest claim
  end.

Definition dispatchPendingCurtailBatches (targets : list nat) : Rec unit :=
  e ← get_event;
  let batchSize := curtailBatchSizeForEvent e (Z.of_nat (length targets)) in
  let intervalActive := curtailBatchIntervalActive e in
  ok ← dispatch_by_state batchSize TgDispatching intervalActive intervalActive targets [];
  if negb (ok : bool) then mret tt
  else
    e ← get_event;
    now ← clock;
    if intervalActive && negb (curtailBatchIntervalElapsed e now) then mret tt
    else _ ← dispatch_by_state batchSize TgPending intervalActive true targets []; mret tt.

Definition dispatchClaimedCurtailTargets (claimed : list nat) : Rec unit :=
  ts ← reads claimed;
  let dispatchable := omap (λ pt : nat * Target,
    if (tg_State pt.2 == TgPending) || (tg_State pt.2 == TgDispatching) then Some pt.1 else None)
    (zip claimed ts) in
  if negb (some dispatchable) then mret tt
  else
    devices ← devices_of dispatchable;
    _ ← dispatchCurtailBatchWithKnownUnsent dispatchable TgDispatching true devices;
    mret tt.

(** ** Observation of curtailed targets *)

(** The power a sample reports, when it is finite. *)
Definition observed_power (c : MinerCandidate) : option float64 := finite_sample (mc_LatestPowerW c).

Definition confirmedCurtailTargetParams (now : Z) (power : option float64) : UpdateTargetParams :=
  (to_state TgConfirmed) <| up_ConfirmedAt := Some now |> <| up_ObservedAt := Some now |>
    <| up_RetryCount := Some 0 |> <| up_ObservedPowerW := finite_sample power |>.

Definition resolvedRestoreTargetParams (now : Z) (power : option float64) : UpdateTargetParams :=
  (to_state TgResolved) <| up_ConfirmedAt := Some now |> <| up_ObservedAt := Some now |>
    <| up_ObservedPowerW := finite_sample power |>.

(** A dispatch has waited longer than its timeout for telemetry. *)
Definition dispatch_timed_out (timeoutSec : Z) (t : Target) (now : Z) : bool :=
  match tg_LastDispatchedAt t with
  | Some at_ => (0 <? timeoutSec) && (int64 (timeoutSec * Second) <? time_Sub now at_)
  | None => false
  end.

Definition confirmOneDispatched (p : nat) (c : option MinerCandidate) (nonTerminalState : TargetState) : Rec unit :=
  e ← get_event;
  t ← read p;
  match c with
  | None => recordDispatchedObservationFailure p "candidate row missing (device unpaired or deleted)" nonTerminalState
  | Some c =>
      if isAllPairedPolicyEvent e && negb (IsAllPairedPolicyPairingStatus (mc_PairingStatus c)) then
        recordDispatchedObservationFailure p "device is no longer paired-like" nonTerminalState
      else
        now ← clock;
        if negb (isCurtailed (mc_LatestPowerW c) (tg_BaselinePowerW t) (mc_LatestHashRateHS c)
                   (cfg_DriftThresholdFactor cfg) true) then
          if dispatch_timed_out (cfg_CurtailDispatchTimeoutSec cfg) t now then
            recordDispatchedObservationFailure p "curtail telemetry timeout" TgDispatching
          else mret tt
        else
          r ← writeTargetState (tg_DeviceIdentifier t)
            ((confirmedCurtailTargetParams now (mc_LatestPowerW c)) <| up_ExpectedState := Some TgDispatched |>
               <| up_ExpectedDispatchBatchUUID := loadedDispatchBatchUUID t |>);
          match r with
          | Err _ => mret tt
          | Ok _ => update p (λ t, t <| tg_State := TgConfirmed |> <| tg_ConfirmedAt := Some now |>
              <| tg_ObservedAt := Some now |> <| tg_RetryCount := 0 |>
              <| tg_ObservedPowerW := coalesce (observed_power c) (tg_ObservedPowerW t) |>)
          end
  end.

Definition confirmDispatched (targets : list nat) : Rec unit :=
  ts ← reads targets;
  let devices := map tg_DeviceIdentifier (List.filter (λ t, tg_State t == TgDispatched) ts) in
  if negb (some devices) then mret tt
  else
    r ← candidates_of_devices devices;
    match r with
    | Err _ => mret tt
    | Ok cands => for_each targets (λ p,
        t ← read p;
        if tg_State t != TgDispatched then mret tt
        else confirmOneDispatched p (candidate_of cands (tg_DeviceIdentifier t)) TgDispatched)
    end.

Definition checkDrift (p : nat) (c : option MinerCandidate) : Rec unit :=
  e ← get_event;
  t ← read p;
  match c with
  | None => recordDispatchFailure p "candidate row missing (device unpaired or deleted)" TgDrifted
  | Some c =>
      if isAllPairedPolicyEvent e && negb (IsAllPairedPolicyPairingStatus (mc_PairingStatus c)) then
        recordDispatchFailure p "device is no longer paired-like" TgDrifted
      else
        now ← clock;
        if negb (isCurtailed (mc_LatestPowerW c) (tg_BaselinePowerW t) (mc_LatestHashRateHS c)
                   (cfg_DriftThresholdFactor cfg) false) then
          r ← writeTargetState (tg_DeviceIdentifier t) ((to_state TgDrifted) <| up_ObservedAt := Some now |>
            <| up_ObservedPowerW := observed_power c |>);
          match r with
          | Err _ => mret tt
          | Ok _ =>
              _ ← update p (λ t, t <| tg_State := TgDrifted |> <| tg_ObservedAt := Some now |>
                <| tg_ObservedPowerW := coalesce (observed_power c) (tg_ObservedPowerW t) |>);
              if retryBudgetTerminalizes cfg t (tg_RetryCount t) || is_set (ce_FanOffSentAt e) then mret tt
              else dispatchOneCurtail p TgDrifted
          end
        else
          let reconfirmed := if is_set (ce_FanAirflowReopenedAt e)
              && match tg_ConfirmedAt t, ce_FanAirflowReopenedAt e with
                 | Some at_, Some re => at_ <? re | None, _ => true | _, None => false end
              && hasFreshCurtailedFanEvidence c t (cfg_DriftThresholdFactor cfg)
            then Some now else None in
          r ← writeTargetState (tg_DeviceIdentifier t) ((to_state TgConfirmed) <| up_ObservedAt := Some now |>
            <| up_ConfirmedAt := reconfirmed |> <| up_ObservedPowerW := observed_power c |>);
          match r with
          | Err _ => mret tt
          | Ok _ => update p (λ t, t <| tg_ObservedAt := Some now |>
              <| tg_ConfirmedAt := coalesce reconfirmed (tg_ConfirmedAt t) |>
              <| tg_ObservedPowerW := coalesce (observed_power c) (tg_ObservedPowerW t) |>)
          end
  end.

(** ** The state of an event *)

Definition move_event (new : EventState) (startedAt endedAt : option Z) : Rec bool :=
  e ← get_event;
  r ← store_call (λ _, UpdateEventState (ce_ID e) (ce_State e) new startedAt endedAt);
  match r with Ok _ => _ ← log (MovedEvent new); mret true | Err _ => mret false end.

Definition maybeMarkActive (targets : list nat) : Rec unit :=
  e ← get_event;
  ts ← reads targets;
  now ← clock;
  match pending_outcome e ts with
  | None => mret tt
  | Some EvActive => _ ← move_event EvActive (Some now) None; mret tt
  | Some s => _ ← move_event s None (Some now); mret tt
  end.

(** True when the event was found complete. *)
Definition maybeCompleteRestoring (targets : list nat) : Rec bool :=
  e ← get_event;
  ts ← reads targets;
  now ← clock;
  match restoring_outcome e ts with
  | None => mret false
  | Some s => _ ← move_event s None (Some now); mret true
  end.

Definition enforceMaxDuration : Rec bool :=
  e ← get_event;
  now ← clock;
  if negb (max_duration_elapsed e now) then mret false
  else _ ← begin_restore []; mret true.

End Reconciler.
