(* ===== verification/CurtailmentPasses.v ===== *)
(** * Passes of the curtailment reconciler

    The rest of [internal/domain/curtailment/reconciler/reconciler.go] and
    reconciler_allpaired.go over the operations of [CurtailmentReconciler]: readiness of
    all-paired targets, restores and their batches, topology departures and the
    admission of new members, and the passes over pending, active and restoring events
    that a tick makes. *)

From S2P Require Import Prelude GoSort Float64 Errors RolloutBehavior AuthzPermissions CommandFilter.
From S2P Require Import CurtailmentModes CurtailmentSelector CurtailmentPreview CurtailmentEvents.
From S2P Require Import CurtailmentDecisions CurtailmentReconciler.
#[local] Open Scope string_scope.
#[local] Open Scope list_scope.
#[local] Open Scope Z_scope.
#[local] Open Scope go_scope.

Section Passes.
Context `{ReconcilerEnv}.

(** ** All-paired targets *)

Definition select (f : Target → bool) (ps : list nat) : Rec (list nat) := λ s,
  (List.filter (λ p, f (cell (rs_mem s) p)) ps, s).

Definition releaseAllPairedPolicyTarget (p : nat) : Rec unit :=
  t ← read p;
  let reason := "released: device is no longer paired-like" in
  r ← writeTargetState (tg_DeviceIdentifier t) ((to_state TgReleased) <| up_LastError := Some reason |>);
  match r with
  | Err _ => mret tt
  | Ok _ => update p (λ t, t <| tg_State := TgReleased |> <| tg_LastError := Some reason |>)
  end.

(** Apply updates to the rows and mirror those that were applied to their cells. *)
Definition applyAllPairedReadinessUpdates (updates : list (nat * AllPairedReadinessUpdate)) : Rec bool :=
  e ← get_event;
  r ← store_with (λ turn now, BulkRefreshAllPairedTargetReadiness now (ce_OrgID e) (ce_ID e) (ce_State e)
        (rt_devices turn) (map snd updates));
  match r with
  | Err _ => mret false
  | Ok applied =>
      _ ← for_each updates (λ pu : nat * AllPairedReadinessUpdate,
        if bool_decide (ru_DeviceIdentifier pu.2 ∈ applied) then update pu.1 (mirror_readiness pu.2) else mret tt);
      mret true
  end.

(** One target of [refreshAllPairedPolicyTargets]: released, or its update. *)
Definition refresh_one (cands : list MinerCandidate) (p : nat) : Rec (list (nat * AllPairedReadinessUpdate)) :=
  e ← get_event;
  t ← read p;
  if negb (refreshable_curtail t) then mret []
  else match candidate_of cands (tg_DeviceIdentifier t) with
  | Some c =>
      if IsAllPairedPolicyPairingStatus (mc_PairingStatus c) then
        mret (match curtail_readiness e t c with Some u => [(p, u)] | None => [] end)
      else _ ← releaseAllPairedPolicyTarget p; mret []
  | None => _ ← releaseAllPairedPolicyTarget p; mret []
  end.

Fixpoint refresh_all (cands : list MinerCandidate) (targets : list nat)
    : Rec (list (nat * AllPairedReadinessUpdate)) :=
  match targets with
  | [] => mret []
  | p :: rest => us ← refresh_one cands p; us' ← refresh_all cands rest; mret (us ++ us')
  end.

Definition refreshAllPairedPolicyTargets (targets : list nat) (cands : list MinerCandidate) : Rec unit :=
  updates ← refresh_all cands targets;
  if negb (some updates) then mret tt
  else _ ← applyAllPairedReadinessUpdates updates; mret tt.

Definition restore_readiness (cands : list MinerCandidate) (t : Target) : option AllPairedReadinessUpdate :=
  let '(next, reason) := restore_target_state (candidate_of cands (tg_DeviceIdentifier t)) in
  if shouldRefreshAllPairedRestoreTarget t next reason then Some (readiness_update t next reason None) else None.

Definition refreshAllPairedTopologyRestoreTargets (targets : list nat) : Rec bool :=
  e ← get_event;
  if negb (isAllPairedTopologyPolicyEvent e) then mret true
  else
    refreshable ← select refreshable_restore targets;
    devices ← devices_of refreshable;
    if negb (some refreshable) then mret true
    else
      r ← candidates_of_devices devices;
      match r with
      | Err _ => mret false
      | Ok cands =>
          ts ← reads refreshable;
          let updates := omap (λ pt : nat * Target, (λ u, (pt.1, u)) <$> restore_readiness cands pt.2)
            (zip refreshable ts) in
          if negb (some updates) then mret true else applyAllPairedReadinessUpdates updates
      end.

(** ** Restores *)

(** True when the target was parked, or was found moved on. *)
Definition parkUncommandableTopologyRestore (p : nat) (c : option MinerCandidate) : Rec bool :=
  t ← read p;
  let '(next, reason) := restore_target_state c in
  if next != TgUnavailable then mret false
  else
    r ← writeTargetState (tg_DeviceIdentifier t) ((to_state TgUnavailable) <| up_LastError := Some reason |>
      <| up_ExpectedState := Some (tg_State t) |> <| up_ExpectedDesiredState := Some DsActive |>);
    match r with
    | Err ErrEventStateRaceLoss => mret true
    | Err _ => mret false
    | Ok _ =>
        _ ← update p (λ t, t <| tg_State := TgUnavailable |> <| tg_LastError := Some reason |>
          <| tg_RestorePhase := (λ ph, ph <| ph_State := TgUnavailable |> <| ph_LastError := Some reason |>)
                                  <$> tg_RestorePhase t |>);
        mret true
    end.

Definition confirm_restore (p : nat) (c : option MinerCandidate) : Rec unit :=
  t ← read p;
  match c with
  | None => recordDispatchedObservationFailure p "candidate row missing (device unpaired or deleted)" TgPending
  | Some c =>
      now ← clock;
      if negb (isRestored (mc_LatestPowerW c) (tg_BaselinePowerW t) (mc_LatestHashRateHS c)
                 (cfg_DriftThresholdFactor cfg)) then
        if dispatch_timed_out (cfg_RestoreDispatchTimeoutSec cfg) t now then
          recordDispatchedObservationFailure p "restore telemetry timeout" TgPending
        else mret tt
      else
        r ← writeTargetState (tg_DeviceIdentifier t)
          ((resolvedRestoreTargetParams now (mc_LatestPowerW c)) <| up_ExpectedDesiredState := Some DsActive |>
             <| up_ExpectedState := Some TgDispatched |>
             <| up_ExpectedDispatchBatchUUID := loadedDispatchBatchUUID t |>);
        match r with
        | Err _ => mret tt
        | Ok _ => update p (λ t, t <| tg_State := TgResolved |> <| tg_ConfirmedAt := Some now |>
            <| tg_ObservedAt := Some now |>
            <| tg_ObservedPowerW := coalesce (observed_power c) (tg_ObservedPowerW t) |>)
        end
  end.

Definition confirmOneRestore (p : nat) (c : option MinerCandidate) : Rec unit :=
  e ← get_event;
  parked ← (if isAllPairedTopologyPolicyEvent e then parkUncommandableTopologyRestore p c else mret false);
  if (parked : bool) then mret tt else confirm_restore p c.

Definition confirmDispatchedRestores (targets : list nat) : Rec unit :=
  let waiting t := (tg_DesiredState t == DsActive) && (tg_State t == TgDispatched) in
  dispatched ← select waiting targets;
  devices ← devices_of dispatched;
  if negb (some dispatched) then mret tt
  else
    r ← candidates_of_devices devices;
    match r with
    | Err _ => mret tt
    | Ok cands => for_each targets (λ p,
        t ← read p;
        if negb (waiting t) then mret tt else confirmOneRestore p (candidate_of cands (tg_DeviceIdentifier t)))
    end.

Fixpoint prewrite_restore (claim dispatchSet : list nat) : Rec (option (list nat)) :=
  match claim with
  | [] => mret (Some dispatchSet)
  | p :: rest =>
      t ← read p;
      r ← writeTargetState (tg_DeviceIdentifier t) ((to_state TgDispatching)
        <| up_ExpectedDesiredState := Some DsActive |> <| up_ExpectedState := Some (tg_State t) |>);
      match r with
      | Err ErrEventStateRaceLoss => mret None
      | Err err =>
          _ ← recordDispatchFailure p (store_message err) TgPending; prewrite_restore rest dispatchSet
      | Ok _ =>
          _ ← update p (λ t, t <| tg_State := TgDispatching |>); prewrite_restore rest (dispatchSet ++ [p])
      end
  end.

(** Those whose miner cannot be commanded are parked first. The cells are given by
    their device, as the parked set is. *)
Fixpoint park_failures (cands : list MinerCandidate) (failures : list (nat * string)) : Rec (list string) :=
  match failures with
  | [] => mret []
  | (p, _) :: rest =>
      t ← read p;
      parked ← parkUncommandableTopologyRestore p (candidate_of cands (tg_DeviceIdentifier t));
      others ← park_failures cands rest;
      mret (if (parked : bool) then tg_DeviceIdentifier t :: others else others)
  end.

Definition recordRestoreDispatchFailures (failures : list (nat * string)) : Rec unit :=
  if negb (some failures) then mret tt
  else
    e ← get_event;
    parked ← (if isAllPairedTopologyPolicyEvent e then
        devices ← devices_of (map fst failures);
        r ← candidates_of_devices (List.filter (λ d, d != "") devices);
        match r with Err _ => mret [] | Ok cands => park_failures cands failures end
      else mret []);
    for_each failures (λ f : nat * string,
      t ← read f.1;
      if bool_decide (tg_DeviceIdentifier t ∈ parked) then mret tt
      else recordDispatchFailureGuarded f.1 f.2 TgPending (Some (TgDispatching, None))).

Definition parked_returned := "restore paused: device returned to topology scope".

(** [ParkReturnedTargets], inside the fence's transaction. *)
Fixpoint park_returned (id : Z) (state : EventState) (devices : list string) : Rec (result StoreError unit) :=
  match devices with
  | [] => mret (Ok tt)
  | d :: rest =>
      r ← store_call (λ now, UpdateTargetState now id d ((to_state TgRestoreFailed)
        <| up_LastError := Some parked_returned |> <| up_ExpectedEventState := Some state |>
        <| up_ExpectedDesiredState := Some DsActive |> <| up_ExpectedState := Some TgDispatching |>));
      match r with Err err => mret (Err err) | Ok _ => park_returned id state rest end
  end.

(** Rollback of the rows a transaction wrote, which it had locked. *)
Definition put_back (id : Z) (devices : list string) (before : gmap string Target) : Rec unit := λ s,
  (tt, s <| rs_db := put_rows id (fold_left (λ rows d,
      match before !! d with Some t => <[d := t]> rows | None => rows end) devices (target_rows (rs_db s) id))
    (rs_db s) |>).

Definition current_rows (id : Z) : Rec (gmap string Target) := λ s, (target_rows (rs_db s) id, s).

(** How the fence of a restore ends. *)
Inductive RestoreFence :=
| RestoreNotFenced
| RestoreFenceRaceLoss
| RestoreFenceFailed (errMsg : string)
| RestoreFenced (commandTargets : list nat) (outcome : option (result string (option CommandOutcome))).

(** The callback of the fence, the row of the event locked. [members] are the devices in
    the topology now, none when the event is restoring. *)
Definition restore_in_fence (latest : CurtailmentEvent) (members : list string) (targets : list nat)
    : Rec RestoreFence :=
  if ce_State latest == EvRestoring then
    devices ← devices_of targets;
    r ← send (SentUncurtail devices);
    _ ← ask (λ _, tt);
    mret (RestoreFenced targets (Some r))
  else
    back ← select (λ t, bool_decide (tg_DeviceIdentifier t ∈ members)) targets;
    gone ← select (λ t, negb (bool_decide (tg_DeviceIdentifier t ∈ members))) targets;
    returned ← devices_of back;
    before ← current_rows (ce_ID latest);
    parked ← park_returned (ce_ID latest) (ce_State latest) returned;
    match parked with
    | Err _ => _ ← put_back (ce_ID latest) returned before; mret (RestoreFenced gone None)
    | Ok _ =>
        devices ← devices_of gone;
        outcome ← (if some gone then r ← send (SentUncurtail devices); mret (Some r) else mret None);
        commit ← ask (λ _, tt);
        _ ← match commit with Err _ => put_back (ce_ID latest) returned before | Ok _ => mret tt end;
        mret (RestoreFenced gone outcome)
    end.

(** The scope of a locked row still is a topology scope that resolves. *)
Definition still_topology (e : CurtailmentEvent) : bool :=
  match ce_Scope e with Ok (Some scope) => hasTopologySelectors scope && is_ok (resolveScope scope) | _ => false end.

Definition fenceTopologyRestoreDispatch (targets : list nat) : Rec RestoreFence :=
  e ← get_event;
  if ce_ScopeType e != ScopeTypeMixed then mret RestoreNotFenced
  else match ce_Scope e with
  | Err _ => mret (RestoreFenceFailed "parse persisted mixed restore scope")
  | Ok None => mret (RestoreFenceFailed "persisted mixed restore scope is missing")
  | Ok (Some scope) =>
      if negb (hasTopologySelectors scope) then mret RestoreNotFenced
      else
        locked ← store_call (λ _, gets (GetEventByUUID (ce_OrgID e) (ce_ID e)));
        match locked with
        | Err err => mret (RestoreFenceFailed (store_message err))
        | Ok None => mret RestoreFenceRaceLoss
        | Ok (Some latest) =>
            if (ce_State latest != ce_State e) || IsTerminal (ce_State latest) then mret RestoreFenceRaceLoss
            else if (ce_State latest != EvRestoring) && negb (still_topology latest) then
              mret (RestoreFenceFailed "persisted topology scope is no longer valid")
            else
              _ ← set_lock (Some (ce_ID e));
              topology ← ask rt_devices;
              outcome ← match topology with
                | Err err => mret (RestoreFenceFailed (store_message (ErrStore err)))
                | Ok members => restore_in_fence latest members targets
                end;
              _ ← set_lock None;
              mret outcome
        end
  end.

Definition record_restore_dispatch (now : Z) (batch : string) (p : nat) : Rec unit :=
  t ← read p;
  r ← writeTargetState (tg_DeviceIdentifier t) ((to_state TgDispatched) <| up_LastDispatchedAt := Some now |>
    <| up_LastBatchUUID := Some batch |> <| up_LastError := Some "" |>
    <| up_ExpectedDesiredState := Some DsActive |>);
  match r with
  | Err ErrEventStateRaceLoss => mret tt
  | Err err => recordDispatchFailure p (store_message err) TgPending
  | Ok _ => update p (λ t, t <| tg_State := TgDispatched |> <| tg_LastDispatchedAt := Some now |>
      <| tg_LastBatchUUID := Some batch |> <| tg_LastError := None |>)
  end.

(** The loop over the commanded targets: dispatched ones are written, the others are
    collected with their reason. *)
Fixpoint record_restores (now : Z) (r : CommandOutcome) (targets : list nat) : Rec (list (nat * string)) :=
  match targets with
  | [] => mret []
  | p :: rest =>
      t ← read p;
      match not_dispatched r "uncurtail command did not enqueue device" (tg_DeviceIdentifier t) with
      | Some reason => failures ← record_restores now r rest; mret ((p, reason) :: failures)
      | None => _ ← record_restore_dispatch now (cr_BatchIdentifier r) p; record_restores now r rest
      end
  end.

Definition no_restore_batch := "uncurtail command produced no batch (no live devices to dispatch)".

Definition restoreDispatchFailures (targets : list nat) (reason : string) : list (nat * string) :=
  map (λ p, (p, reason)) targets.

Definition record_restore_result (targets : list nat) (outcome : option (result string (option CommandOutcome)))
    : Rec unit :=
  match outcome with
  | Some (Err errMsg) => recordRestoreDispatchFailures (restoreDispatchFailures targets errMsg)
  | None | Some (Ok None) => recordRestoreDispatchFailures (restoreDispatchFailures targets no_restore_batch)
  | Some (Ok (Some r)) =>
      if cr_BatchIdentifier r == "" then
        recordRestoreDispatchFailures (restoreDispatchFailures targets no_restore_batch)
      else
        now ← clock;
        failures ← record_restores now r targets;
        recordRestoreDispatchFailures failures
  end.

Definition dispatchRestoreBatch (claim : list nat) : Rec unit :=
  alive ← eventStillDispatchable;
  if negb (alive : bool) then mret tt
  else
    claimed ← prewrite_restore claim [];
    match claimed with
    | None | Some [] => mret tt
    | Some dispatchSet =>
        alive ← eventStillDispatchable;
        if negb (alive : bool) then mret tt
        else
          fenced ← fenceTopologyRestoreDispatch dispatchSet;
          match fenced with
          | RestoreFenceRaceLoss => mret tt
          | RestoreFenceFailed errMsg => for_each dispatchSet (λ p, recordDispatchFailure p errMsg TgPending)
          | RestoreFenced [] _ => mret tt
          | RestoreFenced targets outcome => record_restore_result targets outcome
          | RestoreNotFenced =>
              devices ← devices_of dispatchSet;
              r ← send (SentUncurtail devices);
              record_restore_result dispatchSet (Some r)
          end
    end.

Definition maybeClaimRestoreBatch (targets : list nat) : Rec unit :=
  e ← get_event;
  ts ← reads targets;
  now ← clock;
  if negb (restore_airflow_ready e now) then mret tt
  else if restore_in_flight ts then mret tt
  else if negb (restore_interval_elapsed e ts now) then mret tt
  else
    let batch := Z.to_nat (restoreClaimBatchSize e) in
    orphans ← select (λ t, (tg_DesiredState t == DsActive) && (tg_State t == TgDispatching)) targets;
    if some orphans then dispatchRestoreBatch (take batch orphans)
    else
      pending ← select (λ t, (tg_DesiredState t == DsActive) && (tg_State t == TgPending)) targets;
      if some pending then dispatchRestoreBatch (take batch pending) else mret tt.

(** ** The closed loop *)

(** The classes of an error of the topology resolver that end the admission. *)
Definition invalidates_scope (err : FleetError) : bool :=
  match GRPCCode err with
  | CodeNotFound | CodeInvalidArgument | CodeFailedPrecondition | CodeResourceExhausted => true
  | _ => false
  end.

(** False defers the admission; some failures also begin the restore of the event. *)
Definition validateClosedLoopTopologyAdmission (params : ListCandidatesParams) : Rec bool :=
  e ← get_event;
  if negb (isTopologyCandidateFilter params) then mret true
  else
    let reject := _ ← rejectClosedLoopAdmission; mret false in
    coverage ← ask rt_coverage;
    match coverage with
    | Err err => if invalidates_scope err then reject else mret false
    | Ok coverage =>
        match ce_Envelope e with
        | None => reject
        | Some env =>
            if negb (topologyCoverageWithinEnvelope coverage env) then reject
            else if negb (w_permissions wiring) then reject
            else
              effective ← ask rt_effective;
              match effective with
              | Err _ => mret false
              | Ok effective =>
                  if negb (AuthorizationEnvelopeAllows effective env coverage) then reject
                  else
                    admin ← eventCreatorCanUseRequiredAdminControls e;
                    match admin with Err _ => mret false | Ok false => reject | Ok true => mret true end
              end
        end
    end.

(** Departed targets enter their restore: are there any, and did it go well? *)
Definition reconcileClosedLoopTopologyDepartures (targets : list nat) (candidates : list MinerCandidate)
    : Rec (bool * bool) :=
  e ← get_event;
  ts ← reads targets;
  let departures := topology_departures e ts candidates in
  if negb (some departures) then mret (false, true)
  else
    r ← store_with (λ turn now db,
      match GetEventByUUID (ce_OrgID e) (ce_ID e) db with
      | None => (Err ErrEventStateRaceLoss, db)
      | Some latest =>
          if (ce_State latest != ce_State e) || IsTerminal (ce_State latest) then (Err ErrEventStateRaceLoss, db)
          else if negb (still_topology latest) then (Err (ErrStore NewInternalError), db)
          else
            let departed := List.filter (λ d, negb (bool_decide (d ∈ rt_devices turn))) departures in
            if some departed then BeginCurtailmentTopologyTargetRestore now (ce_ID e) (ce_State e) departed db
            else (Ok 0, db)
      end);
    mret (true, is_ok r).

Record closedLoopTopologySnapshot := { sn_params : ListCandidatesParams; sn_candidates : list MinerCandidate }.

Definition too_many {A} (l : list A) : bool := ScopeResolvedMinerMax <? Z.of_nat (length l).

(** The snapshot of a topology event, and whether the tick ends here. *)
Definition prepareClosedLoopTopologyTick (targets : list nat)
    : Rec (option closedLoopTopologySnapshot * bool) :=
  e ← get_event;
  let stop := mret (None, true) in
  let reject := _ ← rejectClosedLoopAdmission; mret (None, true) in
  if negb (isClosedLoopFullFleet e) || negb ((ce_State e == EvPending) || (ce_State e == EvActive))
     || (ce_ScopeType e != ScopeTypeMixed) then mret (None, false)
  else match ce_Scope e with
  | Ok (Some scope) =>
      if negb (hasTopologySelectors scope) then mret (None, false)
      else match resolveScope scope with
      | Err _ => reject
      | Ok params =>
          let params := params <| lc_OrgID := ce_OrgID e |> in
          valid ← validateClosedLoopTopologyAdmission params;
          if negb (valid : bool) then stop
          else
            let params := params <| lc_ResultLimit := ScopeResolvedMinerMax + 1 |> in
            r ← ListCandidatesCall params;
            match r with
            | Err _ => stop
            | Ok candidates =>
                if too_many candidates then reject
                else
                  '(departures, ok) ← reconcileClosedLoopTopologyDepartures targets candidates;
                  if negb (ok : bool) || (departures : bool) then stop
                  else mret (Some {| sn_params := params; sn_candidates := candidates |}, false)
            end
      end
  | _ => reject
  end.

(** New members wait until airflow has been back for the restore delay. *)
Definition topologyAdmissionAirflowReady : Rec bool :=
  e ← get_event;
  now ← clock;
  if negb (is_set (ce_FanOffSentAt e)) || negb (some (ce_FacilityFanDeviceIDs e)) then mret true
  else if fanAirflowNeedsReopen e then _ ← reopenEventFans; mret false
  else match ce_FanAirflowReopenedAt e with
  | Some at_ => mret (negb (now <? at_ + Z.max (ce_FanRestoreDelaySec e) 0 * Second))
  | None => mret true
  end.

(** Pacing of admissions: the interval is over and no Curtail is in flight. *)
Definition admission_paced (e : CurtailmentEvent) (ts : list Target) (now : Z) : bool :=
  negb (curtailBatchIntervalActive e && negb (curtailBatchIntervalElapsed e now))
  && negb (hasInFlightCurtailDispatch ts).

(** True ends the tick. *)
Definition claimAllPairedPolicyTargets (targets : list nat) (candidates : list MinerCandidate)
    (params : ListCandidatesParams) : Rec bool :=
  e ← get_event;
  ts ← reads targets;
  config ← ask rt_minPowerW;
  match config with
  | Err _ => mret false
  | Ok orgMinPowerW =>
      r ← ask rt_devices;
      match r with
      | Err _ => mret false
      | Ok activeDevices =>
          let active : gset string := list_to_set activeDevices ∖ list_to_set (map tg_DeviceIdentifier ts) in
          let minPowerW := candidateMinPowerWForEvent e orgMinPowerW in
          let plan := BuildAllPairedPolicyPlan candidates active
            (ce_IncludeMaintenance e && ce_ForceIncludeMaintenance e) in
          let admitted := excludeNonReopenableExistingTargetParams
            (BuildInsertTargetParams (pn_Selected plan) ModeFullFleet minPowerW) ts in
          let topology := isTopologyCandidateFilter params in
          if negb (some admitted) then mret false
          else
            ready ← (if topology then topologyAdmissionAirflowReady else mret true);
            if negb (ready : bool) then mret true
            else
              now ← clock;
              e ← get_event;
              if topology && negb (admission_paced e ts now) then mret false
              else
                let batch := Z.to_nat (curtailBatchSizeForEvent e (Z.of_nat (length admitted))) in
                r ← store_with (λ turn now, ClaimAllPairedPolicyTargets now (ce_ID e)
                  (take batch (List.filter (λ p, bool_decide (it_DeviceIdentifier p ∈ rt_devices turn)) admitted)));
                match r with
                | Err _ => mret false
                | Ok claimed => mret ((0 <? claimed) && topology)
                end
      end
  end.

(** The admission of miners that are not targets yet: the cells of those claimed, and
    whether the tick ends here. *)
Definition admit_full_fleet (targets : list nat) (candidates : list MinerCandidate) (topology : bool)
    : Rec (list nat * bool) :=
  e ← get_event;
  ts ← reads targets;
  let none := mret ([], false) in
  config ← ask rt_minPowerW;
  match config with
  | Err _ => none
  | Ok orgMinPowerW =>
      let built := (BuildFullFleetAdmissionTargets candidates
        (ce_IncludeMaintenance e && ce_ForceIncludeMaintenance e)
        (candidateMinPowerWForEvent e orgMinPowerW)).1 in
      active ← ask rt_devices;
      match active with
      | Err _ => none
      | Ok activeDevices =>
          let admitted := excludeDeviceIdentifiers (excludeNonReopenableExistingTargetParams built ts) activeDevices in
          cooldown ← (if 0 <? postEventCooldownSecForEvent e then ask rt_devices else mret (Ok []));
          match cooldown with
          | Err _ => none
          | Ok cooldownDevices =>
              let admitted := excludeDeviceIdentifiers admitted cooldownDevices in
              if negb (some admitted) then none
              else
                ready ← (if topology then topologyAdmissionAirflowReady else mret true);
                if negb (ready : bool) then mret ([], true)
                else
                  now ← clock;
                  e ← get_event;
                  if topology && negb (admission_paced e ts now) then none
                  else
                    let batch := Z.to_nat (curtailBatchSizeForEvent e (Z.of_nat (length admitted))) in
                    r ← store_with (λ turn now, ClaimClosedLoopFullFleetTargets now (ce_ID e) (rt_flag turn)
                      (take batch (List.filter (λ p, bool_decide (it_DeviceIdentifier p ∈ rt_devices turn)) admitted)));
                    match r with
                    | Err _ => none
                    | Ok claimed => _ ← log ClaimedTargets; ps ← allocate claimed; mret (ps, false)
                    end
          end
      end
  end.

(** The candidates of the admission: those of the snapshot, or read now. [None] when
    there is nothing to admit from, with whether the tick ends. *)
Definition admission_candidates (targets : list nat) (snapshot : option closedLoopTopologySnapshot)
    : Rec (result bool (ListCandidatesParams * list MinerCandidate)) :=
  e ← get_event;
  ts ← reads targets;
  now ← clock;
  match snapshot with
  | Some sn =>
      if negb (isTopologyCandidateFilter (sn_params sn)) && negb (admission_paced e ts now) then mret (Err false)
      else mret (Ok (sn_params sn, sn_candidates sn))
  | None =>
      match listCandidatesParamsForEventScope e with
      | None => mret (Err false)
      | Some params =>
          let params := params <| lc_OrgID := ce_OrgID e |> in
          let topology := isTopologyCandidateFilter params in
          valid ← validateClosedLoopTopologyAdmission params;
          if negb (valid : bool) then mret (Err topology)
          else
            now ← clock;
            let params := params <| lc_ResultLimit := ScopeResolvedMinerMax + 1 |> in
            if negb topology && negb (admission_paced e ts now) then mret (Err false)
            else
              r ← ListCandidatesCall params;
              match r with
              | Err _ => mret (Err topology)
              | Ok candidates =>
                  if too_many candidates then _ ← rejectClosedLoopAdmission; mret (Err topology)
                  else if negb topology then mret (Ok (params, candidates))
                  else
                    '(departures, ok) ← reconcileClosedLoopTopologyDepartures targets candidates;
                    if negb (ok : bool) || (departures : bool) then mret (Err true) else mret (Ok (params, candidates))
              end
      end
  end.

Definition claimClosedLoopFullFleetTargetsFromSnapshot (targets : list nat)
    (snapshot : option closedLoopTopologySnapshot) : Rec (list nat * bool) :=
  e ← get_event;
  if negb (isClosedLoopFullFleet e) || negb ((ce_State e == EvPending) || (ce_State e == EvActive)) then
    mret ([], false)
  else
    found ← admission_candidates targets snapshot;
    match found with
    | Err ends => mret ([], ends)
    | Ok (params, candidates) =>
        if isAllPairedPolicyEvent e then
          ends ← claimAllPairedPolicyTargets targets candidates params; mret ([], ends)
        else admit_full_fleet targets candidates (isTopologyCandidateFilter params)
    end.

(** True while departed targets of a running event are still being restored. *)
Definition driveTopologyRestores (targets : list nat) : Rec bool :=
  e ← get_event;
  if negb ((ce_State e == EvPending) || (ce_State e == EvActive)) then mret false
  else
    refreshed ← refreshAllPairedTopologyRestoreTargets targets;
    if negb (refreshed : bool) then mret true
    else
      ts ← reads targets;
      if negb (hasTopologyRestoreWork ts) then mret false
      else
        _ ← confirmDispatchedRestores targets;
        ts ← reads targets;
        if negb (hasTopologyRestoreWork ts) then mret false
        else
          e ← get_event;
          reopened ← (if some (ce_FacilityFanDeviceIDs e) && fanAirflowNeedsReopen e
                      then reopenEventFans else mret true);
          if negb (reopened : bool) then mret true
          else
            _ ← maybeClaimRestoreBatch targets;
            ts ← reads targets;
            mret (hasTopologyRestoreWork ts).

(** ** Passes *)

Definition refresh_pending (targets : list nat) : Rec unit :=
  e ← get_event;
  ts ← reads targets;
  let devices := allPairedPolicyRefreshDeviceIdentifiers ts in
  if negb (isAllPairedPolicyEvent e) || negb (some devices) then mret tt
  else
    r ← candidates_of_devices devices;
    match r with Err _ => mret tt | Ok cands => refreshAllPairedPolicyTargets targets cands end.

(** [dispatchPending] once the topology of the event is known. *)
Definition dispatch_pending_targets (targets : list nat) (snapshot : option closedLoopTopologySnapshot)
    : Rec unit :=
  e ← get_event;
  if negb (some targets) && negb (isAllPairedPolicyEvent e) then
    if isClosedLoopFullFleet e then
      now ← clock; _ ← move_event EvActive (Some now) None; mret tt
    else mret tt
  else
    alive ← eventStillDispatchable;
    if negb (alive : bool) then mret tt
    else
      _ ← refresh_pending targets;
      _ ← dispatchPendingCurtailBatches targets;
      _ ← confirmDispatched targets;
      _ ← maybeMarkActive targets;
      if is_set snapshot || isAllPairedPolicyEvent e then
        '(claimed, ends) ← claimClosedLoopFullFleetTargetsFromSnapshot targets snapshot;
        if (ends : bool) then mret tt else dispatchClaimedCurtailTargets claimed
      else mret tt.

Definition dispatchPending : Rec unit :=
  loaded ← ListTargets;
  match loaded with
  | Err _ => mret tt
  | Ok targets =>
      ready ← reconcilePendingFans;
      if negb (ready : bool) then mret tt
      else
        restoring ← driveTopologyRestores targets;
        '(snapshot, stop) ← prepareClosedLoopTopologyTick targets;
        if (stop : bool) || (restoring : bool) then mret tt else dispatch_pending_targets targets snapshot
  end.

(** The reason a drifted all-paired target may not be curtailed again. *)
Definition drifted_unpaired (e : CurtailmentEvent) (c : option MinerCandidate) : option string :=
  if negb (isAllPairedPolicyEvent e) then None
  else match c with
  | None => Some "candidate row missing (device unpaired or deleted)"
  | Some c => if IsAllPairedPolicyPairingStatus (mc_PairingStatus c) then None
              else Some "device is no longer paired-like"
  end.

(** One target of an active event. [None] ends the tick: airflow had to be reopened and
    was not. Otherwise whether airflow was reopened, and the drifted targets that wait
    for airflow. *)
Definition observe_target (cands : list MinerCandidate) (p : nat) (reopened : bool) (deferred : list nat)
    : Rec (option (bool * list nat)) :=
  e ← get_event;
  t ← read p;
  let c := candidate_of cands (tg_DeviceIdentifier t) in
  let next := mret (Some (reopened, deferred)) in
  if negb (isCurtailRetryTarget t) then next
  else match tg_State t with
  | TgConfirmed =>
      if is_set (ce_FanOffSentAt e) && negb (hasFreshTelemetry c) then
        if reopened then next
        else ok ← reopenEventFans; if (ok : bool) then mret (Some (true, deferred)) else mret None
      else
        _ ← checkDrift p c;
        t ← read p;
        mret (Some (reopened,
          if (tg_State t == TgDrifted) && is_set (ce_FanOffSentAt e) then deferred ++ [p] else deferred))
  | TgDispatched => _ ← confirmOneDispatched p c TgDispatched; next
  | TgDispatching =>
      _ ← (if retryBudgetTerminalizes cfg t (tg_RetryCount t)
           then recordDispatchFailure p "retry budget exhausted from interrupted dispatch" TgDispatching
           else mret tt);
      next
  | TgDrifted =>
      if retryBudgetTerminalizes cfg t (tg_RetryCount t) then
        _ ← recordDispatchFailure p "retry budget exhausted on drifted target" TgDrifted; next
      else match drifted_unpaired e c with
      | Some reason => _ ← recordDispatchFailure p reason TgDrifted; next
      | None =>
          if is_set (ce_FanOffSentAt e) then mret (Some (reopened, deferred ++ [p]))
          else _ ← dispatchOneCurtail p TgDrifted; next
      end
  | _ => next
  end.

Fixpoint observe_targets (cands : list MinerCandidate) (targets : list nat) (reopened : bool)
    (deferred : list nat) : Rec (option (bool * list nat)) :=
  match targets with
  | [] => mret (Some (reopened, deferred))
  | p :: rest =>
      r ← observe_target cands p reopened deferred;
      match r with
      | None => mret None
      | Some (reopened, deferred) => observe_targets cands rest reopened deferred
      end
  end.

(** The targets of an active event: whether airflow was reopened, [None] to end the tick. *)
Definition observe_active_targets (targets : list nat) : Rec (option bool) :=
  e ← get_event;
  devices ← devices_of targets;
  if negb (some targets) then mret (Some false)
  else
    r ← candidates_of_devices devices;
    match r with
    | Err _ =>
        if is_set (ce_FanOffSentAt e) && some (ce_FacilityFanDeviceIDs e) then
          ok ← reopenEventFans; if (ok : bool) then mret (Some true) else mret None
        else mret (Some false)
    | Ok cands =>
        _ ← (if isAllPairedPolicyEvent e then refreshAllPairedPolicyTargets targets cands else mret tt);
        observed ← observe_targets cands targets false [];
        match observed with
        | None => mret None
        | Some (reopened, deferred) =>
            e ← get_event;
            ts ← reads targets;
            airflow ← (if activeFanTargetsNeedAirflow e ts then
                ok ← reconcileActiveFans targets; mret (if (ok : bool) then Some true else None)
              else mret (Some reopened));
            match airflow with
            | None => mret None
            | Some reopened =>
                _ ← for_each deferred (λ p, dispatchOneCurtail p TgDrifted);
                _ ← dispatchPendingCurtailBatches targets;
                mret (Some reopened)
            end
        end
    end.

(** The end of [observeActive]: admission, and the fans when nothing reopened them. *)
Definition admit_and_cool (targets : list nat) (snapshot : option closedLoopTopologySnapshot) (reopened : bool)
    : Rec unit :=
  '(claimed, ends) ← claimClosedLoopFullFleetTargetsFromSnapshot targets snapshot;
  if (ends : bool) then mret tt
  else
    e ← get_event;
    airflow ← (if some claimed && negb reopened && fanAirflowNeedsReopen e then
        ok ← reconcileActiveFans (targets ++ claimed); mret (if (ok : bool) then Some true else None)
      else mret (Some reopened));
    match airflow with
    | None => mret tt
    | Some reopened =>
        _ ← dispatchClaimedCurtailTargets claimed;
        if (reopened : bool) then mret tt else _ ← reconcileActiveFans (targets ++ claimed); mret tt
    end.

Definition observeActive : Rec unit :=
  loaded ← ListTargets;
  match loaded with
  | Err _ => mret tt
  | Ok targets =>
      over ← enforceMaxDuration;
      if (over : bool) then mret tt
      else
        restoring ← driveTopologyRestores targets;
        '(snapshot, stop) ← prepareClosedLoopTopologyTick targets;
        if (stop : bool) then mret tt
        else
          alive ← eventStillDispatchable;
          if negb (alive : bool) then mret tt
          else
            observed ← observe_active_targets targets;
            match observed with
            | None => mret tt
            | Some reopened =>
                if (restoring : bool) then
                  if (reopened : bool) then mret tt else _ ← reconcileActiveFans targets; mret tt
                else admit_and_cool targets snapshot reopened
            end
  end.

Definition observeRestoring : Rec unit :=
  loaded ← ListTargets;
  match loaded with
  | Err _ => mret tt
  | Ok targets =>
      _ ← reconcileRestoringFans;
      refreshed ← refreshAllPairedTopologyRestoreTargets targets;
      if negb (refreshed : bool) then mret tt
      else
        _ ← confirmDispatchedRestores targets;
        complete ← maybeCompleteRestoring targets;
        if (complete : bool) then mret tt else maybeClaimRestoreBatch targets
  end.

(** ** One tick *)

(** The pass over an event, whose copy and targets are new. *)
Definition processEvent (e : CurtailmentEvent) : Rec unit := λ s,
  (match ce_State e with
   | EvPending => dispatchPending
   | EvActive => observeActive
   | EvRestoring => observeRestoring
   | _ => mret tt
   end) (s <| rs_event := e |> <| rs_mem := [] |>).

(** The events in turn, until the deadline of the tick ([rt_flag]). *)
Fixpoint process_events (events : list CurtailmentEvent) : Rec unit :=
  match events with
  | [] => mret tt
  | e :: rest =>
      expired ← ask rt_flag;
      match expired with
      | Ok false => _ ← processEvent e; process_events rest
      | _ => mret tt
      end
  end.

Definition runTick : Rec unit :=
  r ← store_call (λ _, gets ListNonTerminalEvents);
  match r with
  | Err _ => log (Heartbeat 0)
  | Ok events => _ ← process_events events; log (Heartbeat (Z.of_nat (length events)))
  end.

End Passes.
