(* ===== verification/CurtailmentTrace.v ===== *)
(** * What a pass of the reconciler records

    The vocabulary of the theorems about traces: which commands a trace justifies, what
    a pass keeps of its memory, and the rules by which these facts go through the
    operations. *)

From S2P Require Import Prelude GoSort Float64 Errors RolloutBehavior AuthzPermissions CommandFilter.
From S2P Require Import CurtailmentModes CurtailmentSelector CurtailmentPreview CurtailmentEvents.
From S2P Require Import CurtailmentDecisions CurtailmentReconciler.
#[local] Open Scope string_scope.
#[local] Open Scope list_scope.
#[local] Open Scope Z_scope.
#[local] Open Scope go_scope.

(** ** Traces *)

Definition row_at (en : Entry) (id : Z) (device : string) : option Target := target_rows (en_db en) id !! device.
Definition event_at (en : Entry) (id : Z) : option CurtailmentEvent := db_events (en_db en) !! id.

Definition is_write (en : Entry) : Prop := match en_action en with WroteTarget _ _ => True | _ => False end.

(** The entry claims the device for a command: its row was written as being dispatched,
    with what is wanted of it, while the event was in the state it was loaded in. *)
Definition claims (wanted : DesiredState) (e : CurtailmentEvent) (en : Entry) (device : string) : Prop :=
  ∃ p r ev, en_action en = WroteTarget device p ∧ up_State p = TgDispatching ∧
    row_at en (ce_ID e) device = Some r ∧ tg_State r = TgDispatching ∧ tg_DesiredState r = wanted ∧
    event_at en (ce_ID e) = Some ev ∧ ce_State ev = ce_State e.

(** The entry saw the event in the state it was loaded in. *)
Definition sees (e : CurtailmentEvent) (en : Entry) : Prop :=
  en_action en = SawEvent ∧ ∃ ev, event_at en (ce_ID e) = Some ev ∧ ce_State ev = ce_State e.

(** A Curtail command is justified: there are devices, no more than the batch; each was
    claimed; and after the last of the claims the event was seen unchanged. *)
Definition owned (e : CurtailmentEvent) (before : list Entry) (devices : list string) : Prop :=
  devices ≠ [] ∧
  (∀ n, ce_CurtailBatchSize e = Some n → 0 < n → Z.of_nat (length devices) <= n) ∧
  ∃ tr1 en tr2, before = tr1 ++ en :: tr2 ∧ sees e en ∧ Forall (λ x, ¬ is_write x) tr2 ∧
    ∀ d, d ∈ devices → ∃ k, k ∈ tr1 ∧ claims DsCurtailed e k d.

(** An Uncurtail command is justified: there are devices, and each was claimed. *)
Definition owed (e : CurtailmentEvent) (before : list Entry) (devices : list string) : Prop :=
  devices ≠ [] ∧ ∀ d, d ∈ devices → ∃ k, k ∈ before ∧ claims DsActive e k d.

(** The row of a device was seen confirmed at [at_], to be curtailed. *)
Definition seen_confirmed (e : CurtailmentEvent) (tr : list Entry) (device : string) (at_ : option Z) : Prop :=
  ∃ en r, en ∈ tr ∧ row_at en (ce_ID e) device = Some r ∧ tg_State r = TgConfirmed ∧
    tg_DesiredState r = DsCurtailed ∧ tg_ConfirmedAt r = at_.

(** The row of a device was seen restored or released, to be active. *)
Definition seen_restored (e : CurtailmentEvent) (tr : list Entry) (device : string) : Prop :=
  ∃ en r, en ∈ tr ∧ row_at en (ce_ID e) device = Some r ∧ (tg_State r = TgResolved ∨ tg_State r = TgReleased) ∧
    tg_DesiredState r = DsActive.

(** The row of a device, of the event of the organization. *)
Definition target_at (e : CurtailmentEvent) (en : Entry) (device : string) (r : Target) : Prop :=
  row_at en (ce_ID e) device = Some r ∧ ∃ ev, event_at en (ce_ID e) = Some ev ∧ ce_OrgID ev = ce_OrgID e.

(** Airflow is not needed at [now]: the targets were loaded, each that is to be curtailed
    was seen confirmed and there is one, each other was seen restored; and unless the
    fans were off when the event was loaded, every confirmation is older than the delay. *)
Definition cool_enough (e : CurtailmentEvent) (before : list Entry) (now : Z) : Prop :=
  ∃ load, load ∈ before ∧ en_action load = LoadedTargets ∧
    (∃ d at_, seen_confirmed e before d at_) ∧
    (∀ d r, target_at e load d r → tg_DesiredState r = DsCurtailed →
       ∃ at_, seen_confirmed e before d at_ ∧
         (ce_FanOffSentAt e = None ∨ ce_FanAirflowReopenedAt e ≠ None → 0 < ce_FanOffDelaySec e →
            ∃ c, at_ = Some c ∧ c + ce_FanOffDelaySec e * Second <= now)) ∧
    (∀ d r, target_at e load d r → tg_DesiredState r = DsActive → seen_restored e before d).

(** The fans may be off at an entry: the event is active and airflow is not needed. *)
Definition cooled (e : CurtailmentEvent) (before : list Entry) (en : Entry) : Prop :=
  (∃ ev, event_at en (ce_ID e) = Some ev ∧ ce_State ev = EvActive) ∧ cool_enough e before (en_now en).

Definition justified (e : CurtailmentEvent) (before : list Entry) (en : Entry) : Prop :=
  match en_action en with
  | SentCurtail devices => owned e before devices
  | SentUncurtail devices => owed e before devices
  | CommandedFans PowerOff _ => cooled e before en
  | _ => True
  end.

(** Every command of a trace is justified by what came before it. *)
Definition all_justified (e : CurtailmentEvent) (tr : list Entry) : Prop :=
  ∀ i en, tr !! i = Some en → justified e (take i tr) en.

Lemma all_justified_nil e : all_justified e [].
Proof. intros i en. by rewrite lookup_nil. Qed.

Lemma all_justified_snoc e tr en : all_justified e tr → justified e tr en → all_justified e (tr ++ [en]).
Proof.
  intros Htr Hen i en' [Hl|[Hl Hs]]%lookup_app_Some.
  - rewrite take_app_le by (apply lookup_lt_Some in Hl; lia). by apply Htr.
  - destruct (i - length tr)%nat eqn:E; [|done]. simplify_eq/=.
    rewrite take_app_length' by lia. done.
Qed.

(** A trace of entries that are no commands is justified. *)
Definition plain (a : Action) : bool :=
  match a with SentCurtail _ | SentUncurtail _ | CommandedFans PowerOff _ => false | _ => true end.

Lemma plain_justified e tr en : plain (en_action en) = true → justified e tr en.
Proof. unfold justified. destruct (en_action en) as [| | | | | |[] ?| | | |]; done. Qed.

Lemma seen_confirmed_app e tr seg d at_ : seen_confirmed e tr d at_ → seen_confirmed e (tr ++ seg) d at_.
Proof. intros (en & r & Hin & H). exists en, r. split; [by apply elem_of_app; left|done]. Qed.

Lemma seen_restored_app e tr seg d : seen_restored e tr d → seen_restored e (tr ++ seg) d.
Proof. intros (en & r & Hin & H). exists en, r. split; [by apply elem_of_app; left|done]. Qed.

(** ** What an operation keeps *)

(** The event in memory only changes in its dispatch clock and what is known of its fans;
    the reopening mark may be set, and is cleared of a restoring event only. *)
Definition event_frame (e e' : CurtailmentEvent) : Prop :=
  ∃ clk re err on, e' = e <| ce_LastCurtailPendingDispatchAt := clk |> <| ce_FanAirflowReopenedAt := re |>
    <| ce_FanLastError := err |> <| ce_FanOnSentAt := on |> ∧
    (ce_State e ≠ EvRestoring → ce_FanAirflowReopenedAt e ≠ None → re ≠ None).

(** Cells stay, each for the same device in the same direction. *)
Definition mem_frame (m m' : list Target) : Prop :=
  ∀ p t, m !! p = Some t → ∃ t', m' !! p = Some t' ∧ tg_DeviceIdentifier t' = tg_DeviceIdentifier t ∧
    tg_DesiredState t' = tg_DesiredState t.

Record frame (s s' : RState) : Prop := {
  frame_trace : ∃ seg, rs_trace s' = rs_trace s ++ seg;
  frame_event : event_frame (rs_event s) (rs_event s');
  frame_mem : mem_frame (rs_mem s) (rs_mem s');
  frame_now : rs_now s <= rs_now s'
}.

Lemma event_frame_refl e : event_frame e e.
Proof.
  exists (ce_LastCurtailPendingDispatchAt e), (ce_FanAirflowReopenedAt e), (ce_FanLastError e), (ce_FanOnSentAt e).
  by destruct e.
Qed.

Lemma event_frame_trans e1 e2 e3 : event_frame e1 e2 → event_frame e2 e3 → event_frame e1 e3.
Proof.
  intros (a & b & c & d & -> & H) (a' & b' & c' & d' & -> & H'). exists a', b', c', d'. destruct e1; simpl in *. split; [done|]. auto.
Qed.

Lemma mem_frame_refl m : mem_frame m m.
Proof. intros p t H. by exists t. Qed.

Lemma mem_frame_trans m1 m2 m3 : mem_frame m1 m2 → mem_frame m2 m3 → mem_frame m1 m3.
Proof.
  intros H1 H2 p t (t' & (t'' & H & Hd'' & Hs'')%H2 & Hd' & Hs')%H1. exists t''. by rewrite Hd'', Hs''.
Qed.

Lemma frame_refl s : frame s s.
Proof.
  split; [exists []; by rewrite app_nil_r|apply event_frame_refl|apply mem_frame_refl|lia].
Qed.

Lemma frame_trans s1 s2 s3 : frame s1 s2 → frame s2 s3 → frame s1 s3.
Proof.
  intros [[seg1 H1] E1 M1 N1] [[seg2 H2] E2 M2 N2]. split.
  - exists (seg1 ++ seg2). by rewrite H2, H1, (assoc (++)).
  - by eapply event_frame_trans.
  - by eapply mem_frame_trans.
  - lia.
Qed.

(** What the code knows of a cell, the tables showed. *)
Definition backed (e : CurtailmentEvent) (tr : list Entry) (t : Target) : Prop :=
  match tg_DesiredState t, tg_State t with
  | DsCurtailed, TgConfirmed => seen_confirmed e tr (tg_DeviceIdentifier t) (tg_ConfirmedAt t)
  | DsActive, TgResolved | DsActive, TgReleased => seen_restored e tr (tg_DeviceIdentifier t)
  | _, _ => True
  end.

Lemma backed_app e tr seg t : backed e tr t → backed e (tr ++ seg) t.
Proof.
  unfold backed. destruct (tg_DesiredState t), (tg_State t); try done;
    [apply seen_confirmed_app|apply seen_restored_app..].
Qed.

(** The invariant of a pass over [e] whose targets are the cells [ps]. *)
Record Pass (e : CurtailmentEvent) (ps : list nat) (s : RState) : Prop := {
  pass_event : event_frame e (rs_event s);
  pass_mem : ∀ p t, rs_mem s !! p = Some t → backed e (rs_trace s) t;
  pass_loaded : ∃ load, load ∈ rs_trace s ∧ en_action load = LoadedTargets ∧
    ∀ d r, target_at e load d r →
      ∃ p t, p ∈ ps ∧ rs_mem s !! p = Some t ∧ tg_DeviceIdentifier t = d ∧ tg_DesiredState t = tg_DesiredState r;
  pass_valid : Forall (λ p, is_Some (rs_mem s !! p)) ps;
  pass_trace : all_justified e (rs_trace s)
}.

(** The invariants below only speak of the trace, the event and the memory. *)
Definition respects (I : RState → Prop) : Prop :=
  ∀ s s', rs_trace s' = rs_trace s → rs_event s' = rs_event s → rs_mem s' = rs_mem s → I s → I s'.

(** Running a step. *)
Lemma run_bind {A B} (m : Rec A) (f : A → Rec B) s : (m ≫= f) s = f (m s).1 (m s).2.
Proof. unfold mbind, Rec_bind. by destruct (m s). Qed.

Lemma run_ret {A} (a : A) s : (mret a : Rec A) s = (a, s).
Proof. done. Qed.

(** An operation that frames the state and keeps an invariant. *)
Definition Keeps (I : RState → Prop) {A} (m : Rec A) : Prop :=
  ∀ s, frame s (m s).2 ∧ (I s → I (m s).2).

Section Keeps.
Context (I : RState → Prop).

Lemma keep_ret {A} (a : A) : Keeps I (mret a).
Proof. intros s. split; [apply frame_refl|done]. Qed.

Lemma keep_bind {A B} (m : Rec A) (f : A → Rec B) : Keeps I m → (∀ a, Keeps I (f a)) → Keeps I (m ≫= f).
Proof.
  intros Hm Hf s. unfold mbind, Rec_bind. destruct (Hm s) as [F K]. destruct (m s) as [a s1]. simpl in *.
  destruct (Hf a s1) as [F' K']. split; [by eapply frame_trans|auto].
Qed.

(** What every result of the first operation satisfies helps the second. *)
Lemma keeps_bind_post {A B} (Q : A → Prop) (m : Rec A) (f : A → Rec B) :
  Keeps I m → (∀ s, Q (m s).1) → (∀ a, Q a → Keeps I (f a)) → Keeps I (m ≫= f).
Proof.
  intros Hm HQ Hf s. unfold mbind, Rec_bind. destruct (Hm s) as [F K]. specialize (HQ s).
  destruct (m s) as [a s1]. simpl in *. destruct (Hf a HQ s1) as [F' K']. split; [by eapply frame_trans|auto].
Qed.

(** An operation that leaves trace, event and memory alone. *)
Lemma keeps_quiet {A} (m : Rec A) :
  respects I →
  (∀ s, rs_trace (m s).2 = rs_trace s ∧ rs_event (m s).2 = rs_event s ∧ rs_mem (m s).2 = rs_mem s ∧
        rs_now s <= rs_now (m s).2) → Keeps I m.
Proof.
  intros HI H s. destruct (H s) as (Ht & He & Hm & Hn). split; [|by apply HI].
  split; [exists []; by rewrite app_nil_r|rewrite He; apply event_frame_refl|
          rewrite Hm; apply mem_frame_refl|done].
Qed.
End Keeps.

Lemma alter_lookup_cases {A} (f : A → A) p q (l : list A) x :
  alter f p l !! q = Some x → (q = p ∧ ∃ y, l !! q = Some y ∧ x = f y) ∨ (q ≠ p ∧ l !! q = Some x).
Proof.
  intros H. destruct (decide (q = p)) as [->|Hne].
  - rewrite list_lookup_alter_eq in H. destruct (l !! p) as [y|] eqn:E; simplify_eq/=. left. eauto.
  - rewrite list_lookup_alter_ne in H by done. by right.
Qed.

(** An update keeps the direction and device of a cell. *)
Definition steady (f : Target → Target) : Prop :=
  ∀ t, tg_DeviceIdentifier (f t) = tg_DeviceIdentifier t ∧ tg_DesiredState (f t) = tg_DesiredState t.

Lemma update_frame p f s : steady f → frame s (update p f s).2.
Proof.
  intros Hf. split; simpl; [exists []; by rewrite app_nil_r|apply event_frame_refl| |lia].
  intros q t H. destruct (decide (q = p)) as [->|Hne].
  - exists (f t). rewrite list_lookup_alter_eq, H. split; [done|apply Hf].
  - exists t. by rewrite list_lookup_alter_ne.
Qed.

Lemma update_pass e ps p f s :
  steady f → (∀ t, rs_mem s !! p = Some t → backed e (rs_trace s) t → backed e (rs_trace s) (f t)) →
  Pass e ps s → Pass e ps (update p f s).2.
Proof.
  intros Hf Hb [E M L V J]. pose proof (frame_mem _ _ (update_frame p f s Hf)) as F. split; try done.
  - simpl. intros q t [(-> & y & Hy & ->)|[Hne Hq]]%alter_lookup_cases; [|by eapply M].
    apply Hb; [done|by eapply M].
  - destruct L as (load & Hin & Ha & L). exists load. split_and!; try done. intros d r Hr.
    destruct (L d r Hr) as (q & t & Hq & Ht & Hd & Hs). destruct (F q t Ht) as (t' & Ht' & Hd' & Hs').
    exists q, t'. split_and!; try done; congruence.
  - eapply Forall_impl; [apply V|]. intros q [t Ht]. destruct (F q t Ht) as (t' & Ht' & _). by exists t'.
Qed.

(** [Pass] is such an invariant. *)
Lemma pass_respects e ps : respects (Pass e ps).
Proof. intros s s' Ht He Hm [E M L V J]. split; rewrite ?Ht, ?He, ?Hm; done. Qed.

Lemma log_frame a s : frame s (log a s).2.
Proof. split; simpl; [by eexists|apply event_frame_refl|apply mem_frame_refl|lia]. Qed.

Lemma log_pass e ps a s :
  justified e (rs_trace s) {| en_action := a; en_now := rs_now s; en_db := rs_db s |} →
  Pass e ps s → Pass e ps (log a s).2.
Proof.
  intros Ha [E M L V J]. split; simpl; try done.
  - intros p t H. by apply backed_app, (M p).
  - destruct L as (load & Hin & L). exists load. split; [by apply elem_of_app; left|done].
  - by apply all_justified_snoc.
Qed.

(** An update to a state that claims nothing of the tables. *)
Definition inert (st : TargetState) : bool :=
  match st with TgConfirmed | TgResolved | TgReleased => false | _ => true end.

Lemma inert_update e ps p f s :
  steady f → (∀ t, inert (tg_State (f t)) = true
                   ∨ tg_State (f t) = tg_State t ∧ tg_ConfirmedAt (f t) = tg_ConfirmedAt t) →
  Pass e ps s → Pass e ps (update p f s).2.
Proof.
  intros Hf Hs. apply update_pass; [done|].
  intros t _. unfold backed. destruct (Hf t) as [Hd Hds]. rewrite Hd, Hds.
  destruct (Hs t) as [H1|[H1 H2]]; [|by rewrite H1, H2].
  destruct (tg_DesiredState t), (tg_State (f t)); done.
Qed.

Lemma set_event_frame f s : (∀ e, event_frame e (f e)) → frame s (set_event f s).2.
Proof.
  intros Hf. split; simpl; [exists []; by rewrite app_nil_r|apply Hf|apply mem_frame_refl|lia].
Qed.

Lemma set_event_pass e ps f s :
  event_frame (rs_event s) (f (rs_event s)) → Pass e ps s → Pass e ps (set_event f s).2.
Proof. intros Hf [E M L V J]. split; try done. simpl. by eapply event_frame_trans. Qed.
