(* ===== verification/CurtailmentKeeps.v ===== *)
(** * What the operations of the reconciler keep

    Each operation frames the state; those that only read, ask or record a neutral entry
    keep any invariant on the trace, the event and the memory; those that write targets
    keep the invariant of a pass. *)

From S2P Require Import Prelude GoSort Float64 Errors RolloutBehavior AuthzPermissions CommandFilter.
From S2P Require Import CurtailmentModes CurtailmentSelector CurtailmentPreview CurtailmentEvents.
From S2P Require Import CurtailmentDecisions CurtailmentReconciler.
From S2P Require Import CurtailmentPasses CurtailmentTrace.
#[local] Open Scope string_scope.
#[local] Open Scope list_scope.
#[local] Open Scope Z_scope.
#[local] Open Scope go_scope.

Create HintDb keeps.

(** [keep] follows the structure of an operation down to the operations it calls. *)
Ltac keep_step :=
  match goal with
  | |- ∀ _, _ => intro
  | H : Keeps ?I ?m |- Keeps ?I ?m => exact H
  | |- Keeps _ (mret _) => apply keep_ret
  | |- Keeps _ (mbind _ _) => apply keep_bind
  | |- Keeps _ (match ?x with _ => _ end) => destruct x
  | |- Keeps _ _ => solve [eauto with keeps]
  end.
Ltac keep := repeat (keep_step; cbv beta zeta).

(** Entries that neither command nor write. *)
Definition neutral (a : Action) : bool :=
  match a with SentCurtail _ | SentUncurtail _ | CommandedFans PowerOff _ | WroteTarget _ _ => false | _ => true end.

Section Neutral.
Context `{ReconcilerEnv} (I : RState → Prop) (HI : respects I).
Context (HL : ∀ a, neutral a = true → Keeps I (log a)).

Lemma keeps_take_rturn : Keeps I take_rturn.
Proof. apply keeps_quiet; [done|]. intros s. simpl. split_and!; try done. lia. Qed.

Lemma keeps_clock : Keeps I clock.
Proof. apply keeps_quiet; [done|]. intros s. simpl. split_and!; done || lia. Qed.
Lemma keeps_get_event : Keeps I get_event.
Proof. apply keeps_quiet; [done|]. intros s. simpl. split_and!; done || lia. Qed.
Lemma keeps_set_lock l : Keeps I (set_lock l).
Proof. apply keeps_quiet; [done|]. intros s. simpl. split_and!; done || lia. Qed.
Lemma keeps_read p : Keeps I (read p).
Proof. apply keeps_quiet; [done|]. intros s. simpl. split_and!; done || lia. Qed.
Lemma keeps_reads p : Keeps I (reads p).
Proof. apply keeps_quiet; [done|]. intros s. simpl. split_and!; done || lia. Qed.
Lemma keeps_select f p : Keeps I (select f p).
Proof. apply keeps_quiet; [done|]. intros s. simpl. split_and!; done || lia. Qed.
Lemma keeps_get_rejects : Keeps I get_rejects.
Proof. apply keeps_quiet; [done|]. intros s. simpl. split_and!; done || lia. Qed.
Lemma keeps_set_rejects f : Keeps I (set_rejects f).
Proof. apply keeps_quiet; [done|]. intros s. simpl. split_and!; done || lia. Qed.
Lemma keeps_current_rows id : Keeps I (current_rows id).
Proof. apply keeps_quiet; [done|]. intros s. simpl. split_and!; done || lia. Qed.
Lemma keeps_put_back id ds rows : Keeps I (put_back id ds rows).
Proof. apply keeps_quiet; [done|]. intros s. simpl. split_and!; done || lia. Qed.

Lemma keeps_run_op {A} (op : Z → COp A) : Keeps I (run_op op).
Proof.
  apply keeps_quiet; [done|]. intros s. unfold run_op. destruct (op _ _). simpl. split_and!; done || lia.
Qed.

#[local] Hint Resolve keeps_take_rturn keeps_clock keeps_get_event keeps_set_lock keeps_read keeps_reads
  keeps_select keeps_get_rejects keeps_set_rejects keeps_current_rows keeps_put_back keeps_run_op : keeps.

Lemma keeps_store_with {A} (op : RTurn → Z → COp A) : Keeps I (store_with op).
Proof. unfold store_with. keep. Qed.
Lemma keeps_store_call {A} (op : Z → COp A) : Keeps I (store_call op).
Proof. apply keeps_store_with. Qed.
Lemma keeps_ask {A} (f : RTurn → A) : Keeps I (ask f).
Proof. unfold ask. keep. Qed.
Lemma keeps_devices_of l : Keeps I (devices_of l).
Proof. unfold devices_of. keep. Qed.
Lemma keeps_for_each {A} (l : list A) body : (∀ x, x ∈ l → Keeps I (body x)) → Keeps I (for_each l body).
Proof.
  induction l as [|x l IH]; simpl; intros Hb; [apply keep_ret|].
  apply keep_bind; [apply Hb; left|]. intros _. apply IH. intros y Hy. apply Hb. by right.
Qed.

#[local] Hint Resolve keeps_store_with keeps_store_call keeps_ask keeps_devices_of : keeps.
#[local] Hint Extern 1 (Keeps I (log _)) => apply HL; reflexivity : keeps.

Lemma keeps_ListCandidatesCall params : Keeps I (ListCandidatesCall params).
Proof. unfold ListCandidatesCall. keep. Qed.
#[local] Hint Resolve keeps_ListCandidatesCall : keeps.
Lemma keeps_candidates_of_devices ds : Keeps I (candidates_of_devices ds).
Proof. unfold candidates_of_devices. keep. Qed.
Lemma keeps_eventStillDispatchable : Keeps I eventStillDispatchable.
Proof. unfold eventStillDispatchable. keep. Qed.
Lemma keeps_begin_restore ds : Keeps I (begin_restore ds).
Proof. unfold begin_restore. keep. Qed.
#[local] Hint Resolve keeps_candidates_of_devices keeps_eventStillDispatchable keeps_begin_restore : keeps.
Lemma keeps_rejectClosedLoopAdmission : Keeps I rejectClosedLoopAdmission.
Proof. unfold rejectClosedLoopAdmission. keep. Qed.
Lemma keeps_reject_dispatch b ds : Keeps I (reject_dispatch b ds).
Proof. unfold reject_dispatch. keep. Qed.
Lemma keeps_admin_controls ev : Keeps I (eventCreatorCanUseRequiredAdminControls ev).
Proof. unfold eventCreatorCanUseRequiredAdminControls. keep. Qed.
#[local] Hint Resolve keeps_rejectClosedLoopAdmission keeps_reject_dispatch keeps_admin_controls : keeps.
Lemma keeps_fence_checks latest cov ms ds : Keeps I (fence_checks latest cov ms ds).
Proof. unfold fence_checks. keep. Qed.
Lemma keeps_move_event st a b : Keeps I (move_event st a b).
Proof. unfold move_event. keep. Qed.
#[local] Hint Resolve keeps_fence_checks keeps_move_event : keeps.
Lemma keeps_maybeMarkActive l : Keeps I (maybeMarkActive l).
Proof. unfold maybeMarkActive. keep. Qed.
Lemma keeps_maybeCompleteRestoring l : Keeps I (maybeCompleteRestoring l).
Proof. unfold maybeCompleteRestoring. keep. Qed.
Lemma keeps_enforceMaxDuration : Keeps I enforceMaxDuration.
Proof. unfold enforceMaxDuration. keep. Qed.
Lemma keeps_validateClosedLoopTopologyAdmission params :
  Keeps I (validateClosedLoopTopologyAdmission params).
Proof. unfold validateClosedLoopTopologyAdmission. keep. Qed.
Lemma keeps_reconcileClosedLoopTopologyDepartures l cs : Keeps I (reconcileClosedLoopTopologyDepartures l cs).
Proof. unfold reconcileClosedLoopTopologyDepartures. keep. Qed.
#[local] Hint Resolve keeps_validateClosedLoopTopologyAdmission keeps_reconcileClosedLoopTopologyDepartures : keeps.
Lemma keeps_prepareClosedLoopTopologyTick l : Keeps I (prepareClosedLoopTopologyTick l).
Proof. unfold prepareClosedLoopTopologyTick. keep. Qed.
Lemma keeps_admission_candidates l sn : Keeps I (admission_candidates l sn).
Proof. unfold admission_candidates. keep. Qed.

(** A command, when its entry is accepted. *)
Lemma keeps_send a : Keeps I (log a) → Keeps I (send a).
Proof. intros Ha. unfold send. keep. Qed.

Lemma keeps_dispatch_fence ds :
  Keeps I (log (SentCurtail ds)) → Keeps I (WithCurtailmentTopologyDispatchFence ds).
Proof. intros Ha. pose proof (keeps_send _ Ha). unfold WithCurtailmentTopologyDispatchFence. keep. Qed.

Lemma keeps_authorize ds unsent :
  Keeps I (log (SentCurtail ds)) → Keeps I (authorizeTopologyCurtailDispatch ds unsent).
Proof.
  intros Ha. pose proof (keeps_dispatch_fence _ Ha). unfold authorizeTopologyCurtailDispatch. keep.
Qed.

(** Fans turned on. *)
Lemma keeps_CommandFanState p command : Keeps I command → Keeps I (CommandFanState p command).
Proof. intros Hc. unfold CommandFanState. keep. Qed.
Lemma keeps_set_fans power : (∀ err, Keeps I (log (CommandedFans power err))) → Keeps I (set_fans power).
Proof. intros Hp. unfold set_fans. keep. Qed.

End Neutral.

#[export] Hint Resolve keeps_take_rturn keeps_clock keeps_get_event keeps_set_lock keeps_read keeps_reads
  keeps_select keeps_get_rejects keeps_set_rejects keeps_current_rows keeps_put_back keeps_run_op
  keeps_store_with keeps_store_call keeps_ask keeps_devices_of keeps_ListCandidatesCall
  keeps_candidates_of_devices keeps_eventStillDispatchable keeps_begin_restore
  keeps_rejectClosedLoopAdmission keeps_reject_dispatch keeps_admin_controls keeps_fence_checks
  keeps_move_event keeps_maybeMarkActive keeps_maybeCompleteRestoring keeps_enforceMaxDuration
  keeps_validateClosedLoopTopologyAdmission keeps_reconcileClosedLoopTopologyDepartures
  keeps_prepareClosedLoopTopologyTick keeps_admission_candidates : keeps.

(** ** The invariant of a pass *)

Lemma pass_log e ps a : plain a = true → Keeps (Pass e ps) (log a).
Proof. intros Ha s. split; [apply log_frame|]. by apply log_pass, plain_justified. Qed.

Lemma pass_neutral e ps a : neutral a = true → Keeps (Pass e ps) (log a).
Proof. intros Ha. apply pass_log. destruct a as [| | | | | |[] ?| | | |]; done. Qed.

#[export] Hint Resolve pass_respects pass_neutral : keeps.
#[export] Hint Extern 1 (Keeps (Pass _ _) (log _)) => apply pass_log; reflexivity : keeps.

(** The updates of the code name the device and direction nowhere. *)
Ltac steady := let t := fresh "t" in intros t; split; reflexivity.

Lemma pass_update e ps p f :
  steady f → (∀ t, inert (tg_State (f t)) = true
                   ∨ tg_State (f t) = tg_State t ∧ tg_ConfirmedAt (f t) = tg_ConfirmedAt t) →
  Keeps (Pass e ps) (update p f).
Proof. intros Hf Hs s. split; [by apply update_frame|]. by apply inert_update. Qed.

Lemma pass_set_event e ps f : (∀ e, event_frame e (f e)) → Keeps (Pass e ps) (set_event f).
Proof. intros Hf s. split; [by apply set_event_frame|by apply set_event_pass; auto]. Qed.

Section Pass.
Context `{ReconcilerEnv} (e : CurtailmentEvent) (ps : list nat).
Notation K := (Keeps (Pass e ps)).

Lemma pass_writeTargetState d p : K (writeTargetState d p).
Proof. unfold writeTargetState. keep. Qed.
#[local] Hint Resolve pass_writeTargetState : keeps.

Lemma pass_recordFailureGuarded ptr msg st g :
  inert st = true → K (recordDispatchFailureGuarded ptr msg st g).
Proof.
  intros Hst. unfold recordDispatchFailureGuarded. keep; apply pass_update; try steady.
  all: intros t; simpl; try (by right). left. by case_if.
Qed.
#[local] Hint Resolve pass_recordFailureGuarded : keeps.

Lemma pass_recordDispatchFailure ptr msg st : inert st = true → K (recordDispatchFailure ptr msg st).
Proof. apply pass_recordFailureGuarded. Qed.

Lemma pass_recordObservationFailure ptr msg st :
  inert st = true → K (recordDispatchedObservationFailure ptr msg st).
Proof. intros Hst. unfold recordDispatchedObservationFailure. keep. Qed.
#[local] Hint Resolve pass_recordDispatchFailure pass_recordObservationFailure : keeps.
#[local] Hint Extern 1 (inert _ = true) => first [reflexivity|assumption] : keeps.

(** *** Fans *)

Lemma mirror_frame err p e0 : event_frame e0 (mirror_reopen err p e0).
Proof.
  exists (ce_LastCurtailPendingDispatchAt e0), (ce_FanAirflowReopenedAt (mirror_reopen err p e0)), err,
    (ce_FanOnSentAt e0).
  unfold mirror_reopen, coalesce. destruct e0. simpl.
  destruct err, (fp_FanAirflowReopenedAtOnSuccess p), (fp_FanAirflowReopenedAt p); done.
Qed.

Lemma pass_command_on p : K (commandAndPersistFanState p PowerOn).
Proof. apply keeps_CommandFanState, keeps_set_fans; intros; eauto with keeps. Qed.
#[local] Hint Resolve pass_command_on : keeps.

Lemma pass_reopen_fans st : K (reopen_fans st).
Proof. unfold reopen_fans. keep. apply pass_set_event. intros. apply mirror_frame. Qed.
#[local] Hint Resolve pass_reopen_fans : keeps.

Lemma pass_reconcilePendingFans : K reconcilePendingFans.
Proof. unfold reconcilePendingFans. keep. Qed.
Lemma pass_reopenEventFans : K reopenEventFans.
Proof. unfold reopenEventFans. keep. Qed.
#[local] Hint Resolve pass_reconcilePendingFans pass_reopenEventFans : keeps.
Lemma pass_topologyAdmissionAirflowReady : K topologyAdmissionAirflowReady.
Proof. unfold topologyAdmissionAirflowReady. keep. Qed.
#[local] Hint Resolve pass_topologyAdmissionAirflowReady : keeps.

(** *** Restores *)

Lemma pass_for_each {A} (l : list A) body : (∀ x, K (body x)) → K (for_each l body).
Proof. intros Hb. apply keeps_for_each. auto. Qed.

(** A readiness update leaves a target pending or unavailable. *)
Definition ready_update (pu : nat * AllPairedReadinessUpdate) : Prop := inert (ru_State pu.2) = true.

Lemma policy_state_inert st : inert (policy_state st) = true.
Proof. unfold policy_state. by case_if. Qed.

Lemma mirror_readiness_steady u : steady (mirror_readiness u).
Proof. intros t. unfold mirror_readiness. destruct (tg_DesiredState t) eqn:E; [|case_if]; simpl; done. Qed.

Lemma mirror_readiness_state u t : tg_State (mirror_readiness u t) = ru_State u.
Proof. unfold mirror_readiness. destruct (tg_DesiredState t); [|case_if]; done. Qed.

Lemma pass_applyReadiness us : Forall ready_update us → K (applyAllPairedReadinessUpdates us).
Proof.
  intros Hus. unfold applyAllPairedReadinessUpdates. keep. apply keeps_for_each.
  intros pu Hpu. rewrite Forall_forall in Hus. keep.
  apply pass_update; [apply mirror_readiness_steady|]. intros t. left. rewrite mirror_readiness_state. by apply Hus.
Qed.

(** What a write of a target did: nothing that shows, or an entry with the row and the
    event it found. *)
Definition write_entry (ev0 : CurtailmentEvent) (d : string) (p : UpdateTargetParams) (en : Entry) : Prop :=
  ∃ p' r ev, en_action en = WroteTarget d p' ∧ up_State p' = up_State p ∧
    row_at en (ce_ID ev0) d = Some r ∧ tg_State r = up_State p ∧
    matches (coalesce (up_ExpectedDesiredState p) (expectedDesiredStateForEventState (ce_State ev0)))
      (tg_DesiredState r) = true ∧
    (up_ConfirmedAt p ≠ None → tg_ConfirmedAt r = up_ConfirmedAt p) ∧
    event_at en (ce_ID ev0) = Some ev ∧
    matches (coalesce (up_ExpectedEventState p) (Some (ce_State ev0))) (ce_State ev) = true.

Lemma write_result d p s :
  let '(r, s') := writeTargetState d p s in
  rs_mem s' = rs_mem s ∧ rs_event s' = rs_event s ∧
  match r with
  | Err _ => rs_trace s' = rs_trace s
  | Ok _ => ∃ en, rs_trace s' = rs_trace s ++ [en] ∧ write_entry (rs_event s) d p en
  end.
Proof.
  unfold writeTargetState, store_call, store_with, mbind, Rec_bind, get_event.
  destruct (take_rturn s) as [turn s1] eqn:Et.
  assert (Hs1 : rs_mem s1 = rs_mem s ∧ rs_event s1 = rs_event s ∧ rs_trace s1 = rs_trace s).
  { unfold take_rturn in Et. by injection Et as _ <-. }
  destruct Hs1 as (Hm & He & Ht). destruct (rt_error turn); simpl; [done|].
  unfold run_op.
  destruct (UpdateTargetState _ _ _ _ (rs_db s1)) as [[u|err] db'] eqn:Eu; simpl; [|done].
  apply UpdateTargetState_ok in Eu as (ev & t & Hev & Hrow & Hp & ->).
  split_and!; [done..|]. eexists. split; [by rewrite Ht|].
  exists (p <| up_ExpectedEventState := coalesce (up_ExpectedEventState p) (Some (ce_State (rs_event s))) |>
            <| up_ExpectedDesiredState := coalesce (up_ExpectedDesiredState p)
                 (expectedDesiredStateForEventState (ce_State (rs_event s))) |>).
  eexists (patch_target _ _ t), ev. unfold row_at, event_at; simpl.
  rewrite target_rows_put, lookup_insert_eq, patch_target_state, patch_target_desired, patch_target_confirmed.
  unfold patch_allowed in Hp. simpl in Hp. crush_bools. split_and!; try done.
  intros Hc. simpl. by destruct (up_ConfirmedAt p).
Qed.

(** A write whose success is mirrored in a cell. *)
Definition write_mirror (d : string) (p : UpdateTargetParams) (ptr : nat) (f : Target → Target) : Rec unit :=
  r ← writeTargetState d p; match r with Err _ => mret tt | Ok _ => update ptr f end.

Lemma pass_write_mirror d p ptr f s :
  steady f →
  (∀ t en, rs_mem s !! ptr = Some t → write_entry (rs_event s) d p en → backed e (rs_trace s) t →
     backed e (rs_trace s ++ [en]) (f t)) →
  Pass e ps s → Pass e ps (write_mirror d p ptr f s).2.
Proof.
  intros Hf Hb HP. unfold write_mirror, mbind, Rec_bind.
  pose proof (write_result d p s) as Hw. destruct (pass_writeTargetState d p s) as [_ HP'].
  destruct (writeTargetState d p s) as [[u|err] s']; simpl in *; [|auto].
  destruct Hw as (Hm & _ & en & Ht & Hen). apply update_pass; [done| |auto].
  intros t Hl _. rewrite Ht. rewrite Hm in Hl. apply Hb; [done..|]. by eapply pass_mem.
Qed.

Lemma frame_write_mirror d p ptr f s : steady f → frame s (write_mirror d p ptr f s).2.
Proof.
  intros Hf. unfold write_mirror, mbind, Rec_bind. destruct (pass_writeTargetState d p s) as [F _].
  destruct (writeTargetState d p s) as [[u|err] s']; simpl in *; [|done].
  eapply frame_trans; [done|by apply update_frame].
Qed.


Lemma cell_lookup (mem : list Target) p t : mem !! p = Some t → cell mem p = t.
Proof. unfold cell. by intros ->. Qed.

(** Keeping an invariant from one state. *)
Definition keeps_at (I : RState → Prop) {A} (m : Rec A) (s : RState) : Prop :=
  frame s (m s).2 ∧ (I s → I (m s).2).
Notation KA := (keeps_at (Pass e ps)).

Lemma keeps_at_ret {A} I (a : A) s : keeps_at I (mret a) s.
Proof. apply keep_ret. Qed.

Lemma keeps_at_then {A B} I (m : Rec A) (f : A → Rec B) s :
  keeps_at I m s → (∀ a, Keeps I (f a)) → keeps_at I (m ≫= f) s.
Proof.
  intros [F P] Hf. unfold keeps_at, mbind, Rec_bind in *. destruct (m s) as [a s1]. simpl in *.
  destruct (Hf a s1) as [F' P']. split; [by eapply frame_trans|auto].
Qed.

(** What looks at the state only. *)
Lemma at_look {A B} I (m : Rec A) (f : A → Rec B) a s :
  m s = (a, s) → keeps_at I (f a) s → keeps_at I (m ≫= f) s.
Proof. intros Hm. unfold keeps_at, mbind, Rec_bind. by rewrite Hm. Qed.

Lemma at_release p s :
  refreshable_curtail (cell (rs_mem s) p) = true → KA (releaseAllPairedPolicyTarget p) s.
Proof.
  intros Er. split.
  - apply (frame_write_mirror _ ((to_state TgReleased) <| up_LastError := Some "released: device is no longer paired-like" |>)
      p (λ t, t <| tg_State := TgReleased |> <| tg_LastError := Some "released: device is no longer paired-like" |>)). steady.
  - apply (pass_write_mirror _ ((to_state TgReleased) <| up_LastError := Some "released: device is no longer paired-like" |>)
      p (λ t, t <| tg_State := TgReleased |> <| tg_LastError := Some "released: device is no longer paired-like" |>)); [steady|].
    intros t en Hl _ _. unfold refreshable_curtail in Er. rewrite (cell_lookup _ _ _ Hl) in Er. crush_bools.
    unfold backed; simpl. by rewrite H0.
Qed.

Lemma pass_refresh_one cs p : K (refresh_one cs p).
Proof.
  intros s. change (KA (refresh_one cs p) s). unfold refresh_one.
  change (KA (let t := cell (rs_mem s) p in
    if negb (refreshable_curtail t) then mret []
    else match candidate_of cs (tg_DeviceIdentifier t) with
    | Some c => if IsAllPairedPolicyPairingStatus (mc_PairingStatus c)
        then mret (match curtail_readiness (rs_event s) t c with Some u => [(p, u)] | None => [] end)
        else _ ← releaseAllPairedPolicyTarget p; mret []
    | None => _ ← releaseAllPairedPolicyTarget p; mret [] end) s). cbv zeta.
  destruct (refreshable_curtail (cell (rs_mem s) p)) eqn:Er; cbn [negb]; [|apply keeps_at_ret].
  destruct (candidate_of _ _) as [c|]; [case_if; [apply keeps_at_ret|]|];
    (apply keeps_at_then; [by apply at_release|intros; apply keep_ret]).
Qed.
#[local] Hint Resolve pass_refresh_one : keeps.

Lemma pass_refresh_all cs l : K (refresh_all cs l).
Proof. induction l as [|p l IH]; simpl; keep. Qed.

Lemma curtail_readiness_ready ev t c u : curtail_readiness ev t c = Some u → inert (ru_State u) = true.
Proof.
  unfold curtail_readiness. destruct (AllPairedPolicyTargetState _ _) as [next why].
  case_if; [destruct (if _ : bool then _ else _)|]; intros; simplify_eq/=; apply policy_state_inert.
Qed.

Lemma refresh_one_updates cs p s : Forall ready_update (refresh_one cs p s).1.
Proof.
  unfold refresh_one, mbind, Rec_bind, get_event, read. case_if; [by constructor|].
  assert (Hrel : ∀ r, Forall ready_update (let '(_, s') := r : unit * RState in (mret [] : Rec _) s').1).
  { intros [? ?]. constructor. }
  destruct (candidate_of _ _) as [c|]; [|apply Hrel]. case_if; [|apply Hrel]. simpl.
  destruct (curtail_readiness _ _ _) as [u|] eqn:Eu; repeat constructor. by eapply curtail_readiness_ready.
Qed.

Lemma refresh_all_updates cs l s : Forall ready_update (refresh_all cs l s).1.
Proof.
  revert s. induction l as [|p l IH]; intros s; simpl; [constructor|]. unfold mbind, Rec_bind.
  pose proof (refresh_one_updates cs p s) as H1. destruct (refresh_one cs p s) as [us s1].
  pose proof (IH s1) as H2. destruct (refresh_all cs l s1) as [us' s2]. by apply Forall_app.
Qed.

Lemma pass_refreshAllPairedPolicyTargets l cs : K (refreshAllPairedPolicyTargets l cs).
Proof.
  apply (keeps_bind_post _ (Forall ready_update)); [apply pass_refresh_all|apply refresh_all_updates|].
  intros us Hus. case_if; [apply keep_ret|]. apply keep_bind; [by apply pass_applyReadiness|].
  intros; apply keep_ret.
Qed.

Lemma restore_target_inert c next why : restore_target_state c = (next, why) → inert next = true.
Proof.
  unfold restore_target_state. destruct c as [c|]; [|by intros [= <- _]].
  destruct (AllPairedPolicyRestoreTargetState c) as [st w]. intros [= <- _]. apply policy_state_inert.
Qed.

Lemma restore_readiness_ready cs t u : restore_readiness cs t = Some u → inert (ru_State u) = true.
Proof.
  unfold restore_readiness. destruct (restore_target_state _) as [next why] eqn:E. case_if; [|done].
  intros [= <-]. by eapply restore_target_inert.
Qed.

Lemma pass_refreshAllPairedTopologyRestoreTargets l : K (refreshAllPairedTopologyRestoreTargets l).
Proof.
  unfold refreshAllPairedTopologyRestoreTargets. keep. apply pass_applyReadiness, Forall_forall.
  intros pu ([p t] & _ & Hu)%list_elem_of_omap. simpl in Hu.
  destruct (restore_readiness _ t) as [u|] eqn:Eu; simplify_eq/=. by eapply restore_readiness_ready.
Qed.
#[local] Hint Resolve pass_refreshAllPairedPolicyTargets pass_refreshAllPairedTopologyRestoreTargets : keeps.
End Pass.

#[export] Hint Resolve pass_writeTargetState pass_recordFailureGuarded pass_recordDispatchFailure
  pass_recordObservationFailure pass_command_on pass_reopen_fans pass_reconcilePendingFans
  pass_reopenEventFans pass_topologyAdmissionAirflowReady pass_refreshAllPairedPolicyTargets
  pass_refreshAllPairedTopologyRestoreTargets : keeps.
#[export] Hint Extern 1 (inert _ = true) => first [reflexivity|assumption] : keeps.
