(* ===== verification/CurtailmentDispatch.v ===== *)
(** * What the dispatches of the reconciler keep

    Commands to restore, commands to curtail and the claims before them, confirmations
    and drift: each keeps the invariant of a pass. A Curtail is sent only for targets
    claimed by this pass, after the event was seen unchanged. *)

From S2P Require Import Prelude GoSort Float64 Errors RolloutBehavior AuthzPermissions CommandFilter.
From S2P Require Import CurtailmentModes CurtailmentSelector CurtailmentPreview CurtailmentEvents.
From S2P Require Import CurtailmentDecisions CurtailmentReconciler.
From S2P Require Import CurtailmentPasses CurtailmentTrace CurtailmentKeeps.
#[local] Open Scope string_scope.
#[local] Open Scope list_scope.
#[local] Open Scope Z_scope.
#[local] Open Scope go_scope.

(** What the pass knows of its event. *)
Lemma pass_same e ps s : Pass e ps s →
  ce_ID (rs_event s) = ce_ID e ∧ ce_State (rs_event s) = ce_State e ∧ ce_OrgID (rs_event s) = ce_OrgID e ∧
  ce_CurtailBatchSize (rs_event s) = ce_CurtailBatchSize e.
Proof. intros [(clk & re & err & on & -> & _) _ _ _ _]. by destruct e. Qed.

(** ** Claims *)

Section Claims.
Context `{ReconcilerEnv} (e : CurtailmentEvent) (ps : list nat).
Notation K := (Keeps (Pass e ps)).
Notation KA := (keeps_at (Pass e ps)).

Lemma at_write_mirror d p ptr f s :
  steady f →
  (Pass e ps s → ∀ t en, rs_mem s !! ptr = Some t → write_entry (rs_event s) d p en →
     backed e (rs_trace s) t → backed e (rs_trace s ++ [en]) (f t)) →
  KA (write_mirror d p ptr f) s.
Proof.
  intros Hf Hb. split; [by apply frame_write_mirror|]. intros HP. apply pass_write_mirror; [done| |done].
  intros t en. by apply Hb.
Qed.

(** The row an entry of a write shows, of a write that names what is desired. *)
Lemma write_entry_row d p en s :
  Pass e ps s → write_entry (rs_event s) d p en →
  ∃ r, row_at en (ce_ID e) d = Some r ∧ tg_State r = up_State p ∧
    (∀ w, coalesce (up_ExpectedDesiredState p) (expectedDesiredStateForEventState (ce_State e)) = Some w →
       tg_DesiredState r = w) ∧
    (up_ConfirmedAt p ≠ None → tg_ConfirmedAt r = up_ConfirmedAt p).
Proof.
  intros HP. destruct (pass_same _ _ _ HP) as (Hid & Hst & _).
  intros (p' & r & ev & _ & _ & Hr & Hs & Hd & Hc & _). rewrite Hid in Hr. rewrite Hst in Hd.
  exists r. split_and!; try done. intros w Hw. rewrite Hw in Hd. simpl in Hd. by crush_bools.
Qed.

Lemma elem_of_snoc {A} (l : list A) x : x ∈ l ++ [x].
Proof. apply elem_of_app. right. by left. Qed.

Context (wanted : DesiredState).

(** This pass claimed the target of the cell. *)
Definition claimed_cell (s : RState) (p : nat) : Prop :=
  ∃ t k, rs_mem s !! p = Some t ∧ k ∈ rs_trace s ∧ claims wanted e k (tg_DeviceIdentifier t).

Lemma claimed_frame s s' p : frame s s' → claimed_cell s p → claimed_cell s' p.
Proof.
  intros [[seg Ht] _ M _] (t & k & Hl & Hk & Hc). destruct (M p t Hl) as (t' & Hl' & Hd & _).
  exists t', k. rewrite Hd, Ht. split_and!; [done| |done]. apply elem_of_app. by left.
Qed.

Lemma claimed_set_frame s s' set : frame s s' → Forall (claimed_cell s) set → Forall (claimed_cell s') set.
Proof. intros F Hs. eapply Forall_impl; [done|]. intros x. by apply claimed_frame. Qed.

(** A patch that claims a target. *)
Definition claiming (p : UpdateTargetParams) : Prop :=
  up_State p = TgDispatching ∧ up_ExpectedEventState p = None ∧
  coalesce (up_ExpectedDesiredState p) (expectedDesiredStateForEventState (ce_State e)) = Some wanted.

Lemma write_claims d p s en :
  claiming p → Pass e ps s → write_entry (rs_event s) d p en → claims wanted e en d.
Proof.
  intros (Hp & Hp' & Hw) HP Hen. destruct (write_entry_row _ _ _ _ HP Hen) as (r & Hr & Hs & Hd & _).
  destruct (pass_same _ _ _ HP) as (Hid & Hst & _).
  destruct Hen as (p' & r' & ev & Ha & Hu & Hr' & _ & _ & _ & Hev & Hm).
  rewrite Hid in *. rewrite Hst, Hp' in *. simpl in Hm. crush_bools.
  exists p', r, ev. split_and!; try done; try congruence. by apply Hd.
Qed.

Lemma write_claims_cell p params s s1 en :
  let d := tg_DeviceIdentifier (cell (rs_mem s) p) in
  claiming params → rs_mem s1 = rs_mem s → rs_trace s1 = rs_trace s ++ [en] →
  write_entry (rs_event s) d params en → Pass e ps s → p ∈ ps → claimed_cell s1 p.
Proof.
  intros d Hcl Hm Ht Hen HP Hp. pose proof (pass_valid _ _ _ HP) as Hv. rewrite Forall_forall in Hv.
  destruct (Hv p Hp) as [t Hl]. exists t, en. rewrite Hm, Ht. split_and!; [done|apply elem_of_snoc|].
  subst d. rewrite (cell_lookup _ _ _ Hl) in Hen. by eapply write_claims.
Qed.

(** What pre-writes promise of the set they claimed. *)
Definition Prewritten (claim set : list nat) (s : RState) (claimed : option (list nat)) (s' : RState) : Prop :=
  frame s s' ∧
  (Pass e ps s → claim ⊆ ps → Forall (claimed_cell s) set →
   Pass e ps s' ∧
   match claimed with
   | Some set' => Forall (claimed_cell s') set' ∧ (length set' <= length set + length claim)%nat
   | None => True
   end).

Lemma prewritten_later p claim set set' s s' claimed s'' :
  frame s s' → (Pass e ps s → Pass e ps s') → (length set' <= S (length set))%nat →
  (Pass e ps s → p ∈ ps → Forall (claimed_cell s) set → Forall (claimed_cell s') set') →
  Prewritten claim set' s' claimed s'' → Prewritten (p :: claim) set s claimed s''.
Proof.
  intros F P Hlen Hset [F' P']. split; [by eapply frame_trans|]. intros HP Hsub Hall.
  assert (Hsub' : claim ⊆ ps) by (intros x Hx; apply Hsub; by right).
  destruct (P' (P HP) Hsub') as [HP' Hres].
  { apply Hset; [done| |done]. apply Hsub. by left. }
  split; [done|]. destruct claimed as [set''|]; [|done]. destruct Hres as [? ?]. split; [done|]. simpl. lia.
Qed.

Lemma prewritten_end set s : Prewritten [] set s (Some set) s.
Proof. split; [apply frame_refl|]. intros HP _ Hset. split_and!; [done..|simpl; lia]. Qed.

(** A claim that was written and mirrored. *)
Lemma prewritten_claim p params claim set s s1 claimed s' :
  claiming params → (writeTargetState (tg_DeviceIdentifier (cell (rs_mem s) p)) params s) = (Ok tt, s1) →
  Prewritten claim (set ++ [p]) (update p (λ t, t <| tg_State := TgDispatching |>) s1).2 claimed s' →
  Prewritten (p :: claim) set s claimed s'.
Proof.
  intros Hcl Hw. pose proof (write_result (tg_DeviceIdentifier (cell (rs_mem s) p)) params s) as Hr.
  destruct (pass_writeTargetState e ps (tg_DeviceIdentifier (cell (rs_mem s) p)) params s) as [F1 P1].
  rewrite Hw in *. simpl in F1, P1. destruct Hr as (Hm & _ & en & Ht & Hen).
  set (f := λ t : Target, t <| tg_State := TgDispatching |>).
  assert (Kup : K (update p f)) by (apply pass_update; [steady|intros; by left]). destruct (Kup s1) as [F2 P2].
  apply prewritten_later; [by eapply frame_trans|auto|rewrite length_app; simpl; lia|].
  intros HP Hp Hset. apply Forall_app. split; [eapply claimed_set_frame; [|done]; by eapply frame_trans|].
  constructor; [|constructor]. eapply claimed_frame; [done|]. by eapply write_claims_cell.
Qed.

(** A claim that failed, its failure recorded. *)
Lemma prewritten_failed p params claim set s err s1 msg st claimed s' :
  inert st = true → (writeTargetState (tg_DeviceIdentifier (cell (rs_mem s) p)) params s) = (Err err, s1) →
  Prewritten claim set (recordDispatchFailure p msg st s1).2 claimed s' → Prewritten (p :: claim) set s claimed s'.
Proof.
  intros Hst Hw. destruct (pass_writeTargetState e ps (tg_DeviceIdentifier (cell (rs_mem s) p)) params s) as [F1 P1].
  rewrite Hw in *. simpl in F1, P1. destruct (pass_recordDispatchFailure e ps p msg st Hst s1) as [F2 P2].
  apply prewritten_later; [by eapply frame_trans|auto|lia|].
  intros _ _. apply claimed_set_frame. by eapply frame_trans.
Qed.

Lemma prewritten_lost p params claim set s err s1 :
  (writeTargetState (tg_DeviceIdentifier (cell (rs_mem s) p)) params s) = (Err err, s1) →
  Prewritten (p :: claim) set s None s1.
Proof.
  intros Hw. destruct (pass_writeTargetState e ps (tg_DeviceIdentifier (cell (rs_mem s) p)) params s) as [F1 P1].
  rewrite Hw in *. split; [done|]. intros HP _ _. split; [by apply P1|done].
Qed.

End Claims.

Section Restores.
Context `{ReconcilerEnv} (e : CurtailmentEvent) (ps : list nat).
Notation K := (Keeps (Pass e ps)).
Notation KA := (keeps_at (Pass e ps)).

(** A state that claims nothing may be mirrored. *)
Lemma pass_inert_update p f :
  steady f → (∀ t, inert (tg_State (f t)) = true) → K (update p f).
Proof. intros Hf Hs. apply pass_update; [done|]. intros t. left. apply Hs. Qed.
#[local] Hint Extern 1 (Keeps (Pass _ _) (update _ _)) =>
  apply pass_inert_update; [steady|intros; reflexivity] : keeps.

Lemma pass_park p c : K (parkUncommandableTopologyRestore p c).
Proof. unfold parkUncommandableTopologyRestore. keep. Qed.
#[local] Hint Resolve pass_park : keeps.

Lemma pass_park_failures cs l : K (park_failures cs l).
Proof. induction l as [|[p why] l IH]; simpl; keep. Qed.
#[local] Hint Resolve pass_park_failures : keeps.

Lemma pass_recordRestoreDispatchFailures l : K (recordRestoreDispatchFailures l).
Proof. unfold recordRestoreDispatchFailures. keep. apply pass_for_each. keep. Qed.

(** The pass claimed the targets of the set for a restore. *)
Definition Owes (set : list nat) (s : RState) : Prop := Pass e ps s ∧ Forall (claimed_cell e DsActive s) set.

Lemma owes_keeps {A} set (m : Rec A) : K m → Keeps (Owes set) m.
Proof.
  intros Hm s. destruct (Hm s) as [F P]. split; [done|]. intros [HP Hset]. split; [auto|].
  by eapply claimed_set_frame.
Qed.

(** The devices of claimed targets may be sent an Uncurtail. *)
Lemma owes_send l set s :
  l ⊆ set → l ≠ [] →
  keeps_at (Owes set) (send (SentUncurtail (map tg_DeviceIdentifier (map (cell (rs_mem s)) l)))) s.
Proof.
  intros Hl Hne. unfold send. set (ds := map _ _).
  assert (Hd : Owes set s → owed e (rs_trace s) ds).
  { intros [_ Hset]. split; [by destruct l|]. subst ds. rewrite map_map.
    intros d (p & -> & Hp)%list_elem_of_fmap. rewrite Forall_forall in Hset.
    destruct (Hset p (Hl p Hp)) as (t & k & Ht & Hk & Hc). exists k. rewrite (cell_lookup _ _ _ Ht). done. }
  destruct (keeps_take_rturn (Pass e ps) (pass_respects e ps) s) as [F P].
  assert (Ht : rs_trace (take_rturn s).2 = rs_trace s) by done.
  rewrite <- Ht in Hd. clearbody ds. unfold keeps_at. rewrite run_bind.
  destruct (take_rturn s) as [turn s1]. simpl in F, P, Hd. rewrite run_bind. cbn [fst snd].
  assert (Hend : ∀ A (m : Rec A) s', (∀ s, (m s).2 = s) → (m s').2 = s') by auto.
  rewrite Hend by (intros; by destruct (rt_error turn)).
  split; [eapply frame_trans; [done|apply log_frame]|]. intros HO. specialize (Hd HO). destruct HO as [HP Hset].
  split; [apply log_pass; [exact Hd|auto]|]. eapply claimed_set_frame; [|done].
  eapply frame_trans; [done|apply log_frame].
Qed.

Lemma owes_send_then {A} l set (f : result string (option CommandOutcome) → Rec A) :
  l ⊆ set → l ≠ [] → (∀ r, Keeps (Owes set) (f r)) →
  Keeps (Owes set) (devices ← devices_of l; r ← send (SentUncurtail devices); f r).
Proof. intros Hl Hne Hf s. eapply at_look; [reflexivity|]. apply keeps_at_then; [by apply owes_send|done]. Qed.

#[local] Hint Extern 5 (Keeps (Owes _) _) => apply owes_keeps : keeps.

Lemma prewrite_restore_claims claim set s :
  Prewritten e ps DsActive claim set s (prewrite_restore claim set s).1 (prewrite_restore claim set s).2.
Proof.
  revert set s. induction claim as [|p claim IH]; intros set s; cbn [prewrite_restore]; [apply prewritten_end|].
  rewrite !run_bind. cbn [read fst snd].
  destruct (writeTargetState _ _ s) as [[[]|err] s1] eqn:Ew; cbn [fst snd].
  - rewrite !run_bind. eapply prewritten_claim; [|exact Ew|apply IH]. done.
  - destruct err; [by eapply prewritten_lost|..]; rewrite !run_bind; (eapply prewritten_failed with (st := TgPending); [done|exact Ew|apply IH]).
Qed.

Lemma pass_park_returned id st ds : K (park_returned id st ds).
Proof. induction ds as [|d ds IH]; simpl; keep. Qed.
#[local] Hint Resolve pass_recordRestoreDispatchFailures pass_park_returned : keeps.

Lemma select_subset f l s : (select f l s).1 ⊆ l.
Proof. intros p Hp. simpl in Hp. by apply list_elem_of_In, filter_In, proj1, list_elem_of_In in Hp. Qed.

Lemma owes_restore_in_fence ev ms ts : ts ≠ [] → Keeps (Owes ts) (restore_in_fence ev ms ts).
Proof.
  intros Hne. unfold restore_in_fence. case_if; [apply owes_send_then; [done|done|keep]|].
  apply keep_bind; [eauto with keeps|]. intros back.
  apply (keeps_bind_post _ (λ l, l ⊆ ts)); [eauto with keeps|intros s; apply select_subset|]. intros gone Hgone.
  apply keep_bind; [eauto with keeps|]. intros returned. apply keep_bind; [eauto with keeps|]. intros before.
  apply keep_bind; [eauto with keeps|]. intros [[]|err]; [|keep].
  intros s. eapply at_look; [reflexivity|]. apply keeps_at_then; [|keep].
  destruct gone as [|p gone]; [apply keeps_at_ret|]. cbn [some]. apply keeps_at_then; [by apply owes_send|keep].
Qed.

Lemma owes_fenceRestore ts : ts ≠ [] → Keeps (Owes ts) (fenceTopologyRestoreDispatch ts).
Proof.
  intros Hne. pose proof (λ ev ms, owes_restore_in_fence ev ms ts Hne). unfold fenceTopologyRestoreDispatch. keep.
Qed.

Lemma pass_record_restore_dispatch now b p : K (record_restore_dispatch now b p).
Proof. unfold record_restore_dispatch. keep. Qed.
#[local] Hint Resolve pass_record_restore_dispatch : keeps.

Lemma pass_record_restores now r l : K (record_restores now r l).
Proof. induction l as [|p l IH]; simpl; keep. Qed.
#[local] Hint Resolve pass_record_restores : keeps.

Lemma pass_record_restore_result ts o : K (record_restore_result ts o).
Proof. unfold record_restore_result. keep. Qed.
#[local] Hint Resolve pass_record_restore_result : keeps.

Lemma owes_after_prewrites set : set ≠ [] → Keeps (Owes set)
  (alive ← eventStillDispatchable;
   if negb (alive : bool) then mret tt
   else
     fenced ← fenceTopologyRestoreDispatch set;
     match fenced with
     | RestoreFenceRaceLoss => mret tt
     | RestoreFenceFailed errMsg => for_each set (λ p, recordDispatchFailure p errMsg TgPending)
     | RestoreFenced [] _ => mret tt
     | RestoreFenced targets outcome => record_restore_result targets outcome
     | RestoreNotFenced =>
         devices ← devices_of set;
         r ← send (SentUncurtail devices);
         record_restore_result set (Some r)
     end).
Proof.
  intros Hne. pose proof (owes_fenceRestore set Hne).
  assert (Hrec : ∀ l o, Keeps (Owes set) (record_restore_result l o)) by eauto with keeps.
  pose proof (owes_send_then set set (λ r, record_restore_result set (Some r)) (reflexivity _) Hne (λ r, Hrec _ _)).
  assert (∀ msg, Keeps (Owes set) (for_each set (λ p, recordDispatchFailure p msg TgPending))).
  { intros msg. apply owes_keeps, pass_for_each. eauto with keeps. }
  keep; auto.
Qed.

Lemma pass_dispatchRestoreBatch claim : claim ⊆ ps → K (dispatchRestoreBatch claim).
Proof.
  intros Hsub. unfold dispatchRestoreBatch. apply keep_bind; [eauto with keeps|]. intros []; cbn [negb]; [|apply keep_ret].
  intros s. rewrite run_bind. destruct (prewrite_restore_claims claim [] s) as [F P].
  destruct (prewrite_restore claim [] s) as [[[|p set]|] s1]; cbn [fst snd] in *.
  1,3: split; [done|]; intros HP; by apply P.
  destruct (owes_after_prewrites (p :: set)) with (s := s1) as [F2 P2]; [done|].
  split; [by eapply frame_trans|]. intros HP. destruct (P HP Hsub (Forall_nil_2 _)) as [HP1 [Hset _]].
  by apply P2.
Qed.

Lemma at_confirm_restore p c s : KA (confirm_restore p c) s.
Proof.
  eapply at_look; [reflexivity|]. destruct c as [c|]; [|by apply pass_recordObservationFailure].
  eapply at_look; [reflexivity|]. cbv beta. set (t0 := cell (rs_mem s) p).
  destruct (isRestored _ _ _ _); cbn [negb].
  - apply at_write_mirror; [steady|]. intros HP t en Hl Hen _.
    apply (cell_lookup) in Hl. subst t0. rewrite Hl in Hen.
    destruct (write_entry_row _ _ _ _ _ _ HP Hen) as (r & Hr & Hs & Hd & _).
    specialize (Hd DsActive eq_refl). unfold backed; simpl. destruct (tg_DesiredState t); [done|].
    exists en, r. split_and!; [apply elem_of_snoc|done|by left|done].
  - case_if; [by apply pass_recordObservationFailure|apply keep_ret].
Qed.

Lemma pass_confirmOneRestore p c : K (confirmOneRestore p c).
Proof. unfold confirmOneRestore. keep. intros s. apply at_confirm_restore. Qed.
#[local] Hint Resolve pass_confirmOneRestore : keeps.

Lemma pass_confirmDispatchedRestores ts : K (confirmDispatchedRestores ts).
Proof. unfold confirmDispatchedRestores. keep. apply pass_for_each. keep. Qed.
#[local] Hint Resolve pass_confirmDispatchedRestores : keeps.

Lemma pass_maybeClaimRestoreBatch ts : ts ⊆ ps → K (maybeClaimRestoreBatch ts).
Proof.
  intros Hts. unfold maybeClaimRestoreBatch. do 3 (apply keep_bind; [eauto with keeps|intros ?]).
  do 3 (case_if; [apply keep_ret|]).
  assert (Hclaim : ∀ n l, l ⊆ ts → K (dispatchRestoreBatch (take n l))).
  { intros n l Hl. apply pass_dispatchRestoreBatch. intros p Hp. apply Hts, Hl. by eapply subseteq_take. }
  apply (keeps_bind_post _ (λ l, l ⊆ ts)); [eauto with keeps|intros s; apply select_subset|]. intros l Hl.
  case_if; [by apply Hclaim|].
  apply (keeps_bind_post _ (λ l, l ⊆ ts)); [eauto with keeps|intros s; apply select_subset|]. intros l' Hl'.
  case_if; [by apply Hclaim|apply keep_ret].
Qed.

Lemma pass_driveTopologyRestores ts : ts ⊆ ps → K (driveTopologyRestores ts).
Proof. intros Hts. pose proof (pass_maybeClaimRestoreBatch ts Hts). unfold driveTopologyRestores. keep. Qed.

End Restores.

#[export] Hint Resolve pass_confirmDispatchedRestores pass_maybeClaimRestoreBatch pass_driveTopologyRestores : keeps.
#[export] Hint Extern 1 (Keeps (Pass _ _) (update _ _)) =>
  apply pass_inert_update; [steady|intros; reflexivity] : keeps.

(** ** A running event *)

Section Running.
Context `{ReconcilerEnv} (e : CurtailmentEvent) (ps : list nat).
Context (running : expectedDesiredStateForEventState (ce_State e) = Some DsCurtailed).
Notation K := (Keeps (Pass e ps)).
Notation KA := (keeps_at (Pass e ps)).

Lemma pass_confirmOneDispatched p c st : inert st = true → K (confirmOneDispatched p c st).
Proof.
  intros Hst s. do 2 (eapply at_look; [reflexivity|]).
  destruct c as [c|]; [|by apply pass_recordObservationFailure].
  case_if; [by apply pass_recordObservationFailure|].
  eapply at_look; [reflexivity|]. cbv beta. set (t0 := cell (rs_mem s) p).
  destruct (isCurtailed _ _ _ _ _); cbn [negb].
  - apply at_write_mirror; [steady|]. intros HP t en Hl Hen _.
    apply cell_lookup in Hl. subst t0. rewrite Hl in Hen.
    destruct (write_entry_row _ _ _ _ _ _ HP Hen) as (r & Hr & Hs & Hd & Hc).
    specialize (Hd DsCurtailed running). unfold backed; simpl. destruct (tg_DesiredState t); [|done].
    exists en, r. split_and!; [apply elem_of_snoc|done..|]. by apply Hc.
  - case_if; [by apply pass_recordObservationFailure|apply keep_ret].
Qed.
#[local] Hint Resolve pass_confirmOneDispatched : keeps.

Lemma pass_confirmDispatched ts : K (confirmDispatched ts).
Proof. unfold confirmDispatched. keep. apply pass_for_each. keep. Qed.

Lemma prewrite_claims claim st set unsent s :
  inert st = true →
  Prewritten e ps DsCurtailed claim set s (fst <$> (prewrite_curtail claim st set unsent s).1)
    (prewrite_curtail claim st set unsent s).2.
Proof.
  intros Hst. assert (Hcl : claiming e DsCurtailed (to_state TgDispatching)) by done.
  revert set unsent s. induction claim as [|p claim IH]; intros set unsent s; cbn [prewrite_curtail].
  { apply prewritten_end. }
  rewrite !run_bind. cbn [read fst snd]. cbv zeta.
  set (u := if _ : bool then _ else _). clearbody u.
  destruct (writeTargetState _ (to_state TgDispatching) s) as [[[]|err] s1] eqn:Ew; cbn [fst snd].
  - rewrite !run_bind. eapply prewritten_claim; [exact Hcl|exact Ew|apply IH].
  - destruct err; [by eapply prewritten_lost|..]; rewrite !run_bind; (eapply prewritten_failed with (st := st); [done|exact Ew|apply IH]).
Qed.

(** *** Commands *)

(** The pass may send a Curtail to the devices. *)
Definition Ready (devices : list string) (s : RState) : Prop := Pass e ps s ∧ owned e (rs_trace s) devices.

Lemma ready_respects ds : respects (Ready ds).
Proof. intros s s' Ht He Hm [HP Ho]. split; [by eapply pass_respects|by rewrite Ht]. Qed.

Lemma owned_snoc tr en ds : ¬ is_write en → owned e tr ds → owned e (tr ++ [en]) ds.
Proof.
  intros Hen (Hne & Hb & tr1 & k & tr2 & -> & Hk & Hall & Hc). split_and!; [done..|].
  exists tr1, k, (tr2 ++ [en]). split_and!; [by rewrite <- app_assoc|done| |done].
  apply Forall_app. split; [done|]. by constructor.
Qed.

Lemma ready_log ds a : (neutral a = true ∨ a = SentCurtail ds) → Keeps (Ready ds) (log a).
Proof.
  intros Ha s. split; [apply log_frame|]. intros [HP Ho]. split.
  - apply log_pass; [|done]. destruct Ha as [Ha| ->]; [|exact Ho].
    apply plain_justified. destruct a as [| | | | | |[] ?| | | |]; done.
  - apply owned_snoc; [|done]. destruct Ha as [Ha| ->]; [|by intros []]. intros Hw. unfold is_write in Hw. simpl in Hw. by destruct a.
Qed.

Lemma ready_pass {A} ds (m : Rec A) s : Keeps (Ready ds) m → Ready ds s → Pass e ps (m s).2.
Proof. intros Hm Hs. by apply (proj2 (Hm s)). Qed.

#[local] Hint Resolve ready_respects : keeps.

Lemma ready_sent ds : Keeps (Ready ds) (log (SentCurtail ds)).
Proof. apply ready_log. by right. Qed.

Lemma ready_neutral ds a : neutral a = true → Keeps (Ready ds) (log a).
Proof. intros Ha. apply ready_log. by left. Qed.
#[local] Hint Resolve ready_neutral ready_sent : keeps.

Lemma ready_send_curtail set unsent s :
  Ready (map (tg_DeviceIdentifier ∘ cell (rs_mem s)) set) s →
  frame s (send_curtail set unsent s).2 ∧ Pass e ps (send_curtail set unsent s).2.
Proof.
  intros Hr. set (ds := map _ set) in Hr.
  assert (Hk : Keeps (Ready ds)
    (authorized ← authorizeTopologyCurtailDispatch ds unsent;
     match authorized with
     | Some outcome => mret outcome
     | None => alive ← eventStillDispatchable;
         if negb (alive : bool) then mret None else r ← send (SentCurtail ds); mret (Some r)
     end)).
  { pose proof (keeps_authorize (Ready ds) (ready_respects ds) (ready_neutral ds) ds unsent (ready_sent ds)).
    pose proof (keeps_send (Ready ds) (ready_respects ds) (SentCurtail ds) (ready_sent ds)). keep. }
  unfold send_curtail, devices_of, reads, mbind, Rec_bind in *. simpl. rewrite map_map.
  fold ds. specialize (Hk s). destruct Hk as [F P]. split; [apply F|]. by apply P.
Qed.

Lemma send_curtail_frame set unsent s : frame s (send_curtail set unsent s).2.
Proof.
  assert (Hl : ∀ a, Keeps (λ _, True) (log a)) by (intros a s'; split; [apply log_frame|done]).
  assert (Hr : respects (λ _, True)) by done.
  assert (Hk : Keeps (λ _, True) (send_curtail set unsent)); [|apply Hk].
  pose proof (λ ds, keeps_authorize (λ _, True) Hr (λ a _, Hl a) ds unsent (Hl _)).
  pose proof (λ a, keeps_send (λ _, True) Hr a (Hl a)).
  pose proof (keeps_eventStillDispatchable (λ _, True) Hr (λ a _, Hl a)). unfold send_curtail. keep.
Qed.

Lemma still_sees s s' :
  eventStillDispatchable s = (true, s') → Pass e ps s →
  rs_mem s' = rs_mem s ∧ ∃ en, rs_trace s' = rs_trace s ++ [en] ∧ sees e en.
Proof.
  unfold eventStillDispatchable, store_call, store_with, mbind, Rec_bind, get_event.
  destruct (take_rturn s) as [turn s1] eqn:Et.
  assert (Hs1 : rs_mem s1 = rs_mem s ∧ rs_event s1 = rs_event s ∧ rs_trace s1 = rs_trace s).
  { unfold take_rturn in Et. by injection Et as _ <-. }
  destruct Hs1 as (Hm & He & Ht). intros Hrun HP. destruct (pass_same _ _ _ HP) as (Hid & Hst & _).
  rewrite Hid, Hst in Hrun. destruct (rt_error turn); [done|]. unfold run_op, gets in Hrun.
  unfold GetEventByUUID in Hrun. destruct (db_events (rs_db s1) !! ce_ID e) as [ev|] eqn:Ev; [|done].
  destruct (ce_OrgID ev =? _); [|done]. simpl in Hrun.
  destruct (IsTerminal (ce_State ev) || (ce_State ev != ce_State e)) eqn:Eg; [done|].
  apply orb_false_iff in Eg as [_ Eg]. crush_bools. unfold mret, Rec_ret in Hrun. injection Hrun as <-. simpl.
  split; [done|]. eexists. split; [by rewrite Ht|]. split; [done|]. by exists ev.
Qed.

(** The claim is no larger than a batch of the event. *)
Definition fits (claim : list nat) : Prop :=
  ∀ n, ce_CurtailBatchSize e = Some n → 0 < n → Z.of_nat (length claim) <= n.

Lemma ready_from_claims s s' en set claim :
  set ≠ [] → fits claim → (length set <= length claim)%nat → Forall (claimed_cell e DsCurtailed s) set →
  Pass e ps s' → rs_mem s' = rs_mem s → rs_trace s' = rs_trace s ++ [en] → sees e en →
  Ready (map (tg_DeviceIdentifier ∘ cell (rs_mem s')) set) s'.
Proof.
  intros Hne Hfit Hlen Hset HP Hm Ht Hen. split; [done|]. split_and!.
  - intros Hnil. apply Hne. by apply map_eq_nil in Hnil.
  - intros n Hn Hpos. rewrite length_map. specialize (Hfit n Hn Hpos). lia.
  - exists (rs_trace s), en, []. split_and!; [done|done|constructor|].
    intros d (p & -> & Hp)%list_elem_of_fmap. rewrite Forall_forall in Hset.
    destruct (Hset p Hp) as (t & k & Hl & Hk & Hc). exists k. split; [done|].
    simpl. rewrite Hm. by rewrite (cell_lookup _ _ _ Hl).
Qed.

Lemma pass_record_curtail_dispatch st now r p : inert st = true → K (record_curtail_dispatch st now r p).
Proof. intros Hst. unfold record_curtail_dispatch. keep. Qed.
#[local] Hint Resolve pass_record_curtail_dispatch : keeps.

Lemma pass_record_curtail_result st set o : inert st = true → K (record_curtail_result st set o).
Proof. intros Hst. unfold record_curtail_result. keep; apply pass_for_each; keep. Qed.

Lemma pass_recordCurtailPendingDispatch now : K (recordCurtailPendingDispatch now).
Proof.
  unfold recordCurtailPendingDispatch. keep. apply pass_set_event. intros ev.
  exists (Some now), (ce_FanAirflowReopenedAt ev), (ce_FanLastError ev), (ce_FanOnSentAt ev). by destruct ev.
Qed.
#[local] Hint Resolve pass_recordCurtailPendingDispatch pass_record_curtail_result : keeps.

(** After the pre-writes: check, command, record. *)
Definition after_prewrites (st : TargetState) (claimed : option (list nat * list string)) : Rec bool :=
  match claimed with
  | None => mret false
  | Some ([], _) => mret true
  | Some (dispatchSet, unsent) =>
      alive ← eventStillDispatchable;
      if negb (alive : bool) then mret false
      else
        sent ← send_curtail dispatchSet unsent;
        match sent with
        | None => mret false
        | Some outcome => _ ← record_curtail_result st dispatchSet outcome; mret true
        end
  end.

Lemma pass_send_and_record st set unsent s :
  inert st = true →
  let m := sent ← send_curtail set unsent;
    match sent with None => mret false | Some o => _ ← record_curtail_result st set o; mret true end in
  frame s (m s).2 ∧ (Ready (map (tg_DeviceIdentifier ∘ cell (rs_mem s)) set) s → Pass e ps (m s).2).
Proof.
  intros Hst m. pose proof (send_curtail_frame set unsent s) as F. pose proof (ready_send_curtail set unsent s) as P.
  assert (Hk : ∀ o : option (result string (option CommandOutcome)),
    K (match o with None => mret false | Some o => _ ← record_curtail_result st set o; mret true end)) by keep.
  subst m. rewrite run_bind.
  destruct (send_curtail set unsent s) as [o s1]. destruct (Hk o s1) as [F' P'].
  split; [by eapply frame_trans|]. intros Hr. apply P'. by apply P.
Qed.

Lemma pass_curtail_claim claim st unsent :
  inert st = true → claim ⊆ ps → fits claim →
  K (claimed ← prewrite_curtail claim st [] unsent; after_prewrites st claimed).
Proof.
  intros Hst Hsub Hfit s. unfold mbind, Rec_bind.
  pose proof (prewrite_claims claim st [] unsent s Hst) as [F P].
  destruct (prewrite_curtail claim st [] unsent s) as [[[[|p set] u]|] s1]; simpl in F, P |- *.
  1,3: split; [done|]; intros HP; by apply P.
  destruct (keeps_eventStillDispatchable (Pass e ps) (pass_respects e ps) (pass_neutral e ps) s1) as [F2 P2].
  pose proof (still_sees s1) as Hsees. rewrite run_bind.
  destruct (eventStillDispatchable s1) as [[] s2]; cbn [negb]; simpl in F2, P2.
  - destruct (pass_send_and_record st (p :: set) u s2 Hst) as [F3 P3].
    split; [by do 2 (eapply frame_trans; [done|])|]. intros HP.
    destruct (P HP Hsub (Forall_nil_2 _)) as [HP1 [Hset Hlen]].
    destruct (Hsees s2 eq_refl HP1) as (Hm & en & Ht & Hen). apply P3. apply (ready_from_claims s1 s2 en _ claim); auto.
  - split; [by eapply frame_trans|]. intros HP. by apply P2, P.
Qed.

Lemma pass_dispatchCurtail claim st rec unsent :
  inert st = true → claim ⊆ ps → fits claim → K (dispatchCurtailBatchWithKnownUnsent claim st rec unsent).
Proof.
  intros Hst Hsub Hfit. pose proof (pass_curtail_claim claim st unsent Hst Hsub Hfit).
  unfold dispatchCurtailBatchWithKnownUnsent. unfold after_prewrites in *. keep.
Qed.

Lemma pass_dispatchOneCurtail p st : inert st = true → p ∈ ps → K (dispatchOneCurtail p st).
Proof.
  intros Hst Hp. apply keep_bind; [|keep]. apply pass_dispatchCurtail; [done| |].
  - by intros x ->%list_elem_of_singleton.
  - intros n _ Hn. simpl. lia.
Qed.

Lemma pass_dispatch_claim st rec claim :
  inert st = true → claim ⊆ ps → fits claim → K (dispatch_claim st rec claim).
Proof. intros Hst Hsub Hfit. unfold dispatch_claim. keep; by apply pass_dispatchCurtail. Qed.

(** A batch size that respects the one of the event. *)
Definition sized (b : Z) : Prop := ∀ n, ce_CurtailBatchSize e = Some n → 0 < n → b = n.

Lemma pass_dispatch_by_state b st single rec targets claim :
  inert st = true → sized b → targets ⊆ ps → claim ⊆ ps → (0 < b → Z.of_nat (length claim) < b) →
  K (dispatch_by_state b st single rec targets claim).
Proof.
  intros Hst Hb. revert claim. induction targets as [|p targets IH]; intros claim Ht Hc Hlen; cbn [dispatch_by_state].
  - case_if; [apply keep_ret|]. apply pass_dispatch_claim; [done..|].
    intros n Hn Hpos. rewrite (Hb n Hn Hpos) in Hlen. lia.
  - assert (Ht' : targets ⊆ ps) by (intros x Hx; apply Ht; by right).
    assert (Hc' : claim ++ [p] ⊆ ps).
    { intros x [Hx| ->%list_elem_of_singleton]%elem_of_app; [by apply Hc|]. apply Ht. by left. }
    apply keep_bind; [eauto with keeps|]. intros t. case_if; [by apply IH|]. cbv zeta.
    destruct (b <=? Z.of_nat (length (claim ++ [p]))) eqn:Eb.
    + apply keep_bind; [|keep].
      * apply pass_dispatch_claim; [done..|]. intros n Hn Hpos. rewrite (Hb n Hn Hpos) in Hlen.
        rewrite length_app. simpl. lia.
      * apply IH; [done|by intros x Hx%elem_of_nil|simpl; lia].
    + apply IH; [done|done|]. lia.
Qed.

Lemma sized_batch ev n : ce_CurtailBatchSize ev = ce_CurtailBatchSize e → sized (curtailBatchSizeForEvent ev n).
Proof.
  intros He m Hm Hpos. unfold curtailBatchSizeForEvent. rewrite He, Hm. case_if; [done|]. crush_bools. lia.
Qed.

(** [dispatchPendingCurtailBatches] once the event is read. *)
Definition dispatch_batches (b : Z) (intervalActive : bool) (targets : list nat) : Rec unit :=
  ok ← dispatch_by_state b TgDispatching intervalActive intervalActive targets [];
  if negb (ok : bool) then mret tt
  else
    e ← get_event;
    now ← clock;
    if intervalActive && negb (curtailBatchIntervalElapsed e now) then mret tt
    else _ ← dispatch_by_state b TgPending intervalActive true targets []; mret tt.

Lemma pass_dispatch_batches b ia targets : sized b → targets ⊆ ps → K (dispatch_batches b ia targets).
Proof.
  intros Hb Ht.
  assert (Hd : ∀ st single rec, inert st = true → K (dispatch_by_state b st single rec targets [])).
  { intros. apply pass_dispatch_by_state; try done. by intros x Hx%elem_of_nil. }
  unfold dispatch_batches. keep.
Qed.

End Running.

(** ** Batches of a running event *)

Section Batches.
Context `{ReconcilerEnv}.

Lemma dispatch_batches_frame b ia targets s : frame s (dispatch_batches b ia targets s).2.
Proof.
  set (e' := (rs_event s) <| ce_State := EvActive |> <| ce_CurtailBatchSize := None |>).
  assert (Hk : Keeps (Pass e' targets) (dispatch_batches b ia targets)); [|apply Hk].
  apply pass_dispatch_batches; [done| |done]. intros n Hn. by destruct (rs_event s).
Qed.

Context (e : CurtailmentEvent) (ps : list nat).
Context (running : expectedDesiredStateForEventState (ce_State e) = Some DsCurtailed).
Notation K := (Keeps (Pass e ps)).

Lemma pass_dispatchPendingCurtailBatches targets : targets ⊆ ps → K (dispatchPendingCurtailBatches targets).
Proof.
  intros Ht s. change (dispatchPendingCurtailBatches targets s) with
    (dispatch_batches (curtailBatchSizeForEvent (rs_event s) (Z.of_nat (length targets)))
       (curtailBatchIntervalActive (rs_event s)) targets s).
  split; [apply dispatch_batches_frame|]. intros HP. apply pass_dispatch_batches; try done.
  apply sized_batch. by destruct (pass_same _ _ _ HP) as (_ & _ & _ & ?).
Qed.

Lemma reconfirm_backed s t en at_ d params :
  Pass e ps s → backed e (rs_trace s) t → write_entry (rs_event s) d params en → d = tg_DeviceIdentifier t →
  up_State params = TgConfirmed → up_ConfirmedAt params = at_ → up_ExpectedDesiredState params = None →
  ∀ o w, backed e (rs_trace s ++ [en]) (t <| tg_ObservedAt := o |> <| tg_ConfirmedAt := coalesce at_ (tg_ConfirmedAt t) |>
                                         <| tg_ObservedPowerW := w |>).
Proof.
  intros HP Hb Hen -> Hst Hat Hex o w. destruct at_ as [at_|]; simpl.
  - destruct (write_entry_row _ _ _ _ _ _ HP Hen) as (r & Hr & Hs & Hd & Hc). rewrite Hex, running in Hd.
    specialize (Hd _ eq_refl). rewrite Hat in Hc. unfold backed in *; simpl.
    destruct (tg_DesiredState t), (tg_State t); try done; try (by apply seen_restored_app).
    exists en, r. split_and!; [apply elem_of_snoc|done|congruence|done|]. by apply Hc.
  - apply (backed_app _ _ [en]) in Hb. exact Hb.
Qed.

Lemma pass_checkDrift p c : p ∈ ps → K (checkDrift p c).
Proof.
  intros Hp s. do 2 (eapply at_look; [reflexivity|]). cbv beta.
  destruct c as [c|]; [|by apply pass_recordDispatchFailure].
  case_if; [by apply pass_recordDispatchFailure|].
  eapply at_look; [reflexivity|]. cbv beta. set (t0 := cell (rs_mem s) p).
  destruct (isCurtailed _ _ _ _ _); cbn [negb].
  - apply at_write_mirror; [steady|]. intros HP t en Hl Hen Hb.
    apply cell_lookup in Hl. subst t0. rewrite Hl in *. by eapply reconfirm_backed.
  - assert (Hk : K (dispatchOneCurtail p TgDrifted)) by (by apply pass_dispatchOneCurtail).
    match goal with |- keeps_at _ ?m _ => assert (Hm : K m); [keep|apply Hm] end.
Qed.

End Batches.
