(* ===== verification/CurtailmentSafety.v ===== *)
(** * Safety of a pass of the reconciler

    Whatever the script of a pass, it sends Curtail only to targets it claimed, after it
    saw the event unchanged, and it turns fans off only when every target of the event
    was seen confirmed for the delay of the event. *)

From S2P Require Import Prelude GoSort Float64 Errors RolloutBehavior AuthzPermissions CommandFilter.
From S2P Require Import CurtailmentModes CurtailmentSelector CurtailmentPreview CurtailmentEvents.
From S2P Require Import CurtailmentDecisions CurtailmentReconciler.
From S2P Require Import CurtailmentPasses CurtailmentTrace CurtailmentKeeps CurtailmentDispatch.
#[local] Open Scope string_scope.
#[local] Open Scope list_scope.
#[local] Open Scope Z_scope.
#[local] Open Scope go_scope.

(** ** Fans *)

(** The target needs no airflow. *)
Definition rests (t : Target) : Prop :=
  match tg_DesiredState t with
  | DsCurtailed => tg_State t = TgConfirmed
  | DsActive => tg_State t = TgResolved ∨ tg_State t = TgReleased
  end.

Lemma fan_confirm_fold ts n0 b0 n :
  fold_left fan_confirm_one ts (n0, b0) = (n, true) →
  b0 = true ∧ Forall rests ts ∧ (n ≠ n0 → Exists (λ t, tg_DesiredState t = DsCurtailed) ts).
Proof.
  revert n0 b0. induction ts as [|t ts IH]; intros n0 b0; simpl.
  { intros [= -> ->]. split_and!; [done|constructor|done]. }
  unfold rests at 1. destruct (tg_DesiredState t) eqn:Ed; intros Hf.
  - destruct (tg_State t != TgConfirmed) eqn:Es; apply IH in Hf as (Hb & Hall & Hex); [done|]. crush_bools.
    split_and!; [done|constructor; [by unfold rests; rewrite Ed|done]|]. intros _. by left.
  - apply IH in Hf as (Hb & Hall & Hex). split_and!.
    + by destruct (_ && _) in Hb.
    + constructor; [|done]. unfold rests. rewrite Ed. destruct (tg_State t); try done; by (left + right).
    + intros Hn. right. auto.
Qed.

Lemma latest_confirmation_bound re ts l0 l :
  latest_confirmation re ts l0 = Some (Some l) →
  (∀ l1, l0 = Some l1 → l1 <= l) ∧
  Forall (λ t, tg_DesiredState t = DsCurtailed → ∃ c, tg_ConfirmedAt t = Some c ∧ c <= l) ts.
Proof.
  revert l0. induction ts as [|t ts IH]; intros l0; simpl.
  { intros [= ->]. split; [intros ? [= ->]; lia|constructor]. }
  destruct (tg_DesiredState t) eqn:Ed.
  - destruct (tg_ConfirmedAt t) as [c|] eqn:Ec; [|done]. do 2 (case_if; [done|]).
    intros [Hl Hall]%IH. specialize (Hl _ eq_refl). split; [intros l1 ->; lia|].
    constructor; [|done]. intros _. exists c. split; [done|]. destruct l0; lia.
  - intros [Hl Hall]%IH. split; [done|]. constructor; [|done]. by rewrite Ed.
Qed.

Lemma desired_off ev ts now :
  desired_power ev ts now = Some PowerOff →
  Forall rests ts ∧ Exists (λ t, tg_DesiredState t = DsCurtailed) ts ∧
  (ce_FanOffSentAt ev = None ∨ ce_FanAirflowReopenedAt ev ≠ None → 0 < ce_FanOffDelaySec ev →
   Forall (λ t, tg_DesiredState t = DsCurtailed →
     ∃ c, tg_ConfirmedAt t = Some c ∧ c + ce_FanOffDelaySec ev * Second <= now) ts).
Proof.
  unfold desired_power. destruct (activeFanTargetConfirmation ts) as [n all] eqn:Ef.
  destruct all; cbn [negb orb]; [|by destruct (is_set _)].
  destruct (n =? 0) eqn:En; [by destruct (is_set _)|]. apply Z.eqb_neq in En.
  apply fan_confirm_fold in Ef as (_ & Hall & Hex). case_if; [done|]. intros _. split_and!; [done|auto|].
  intros Hdelay Hpos. assert (Hel : activeFanOffDelayElapsed ev ts now = true).
  { destruct (activeFanOffDelayElapsed ev ts now); [done|].
    destruct (ce_FanOffSentAt ev), (ce_FanAirflowReopenedAt ev); simpl in *; try done. by destruct Hdelay. }
  unfold activeFanOffDelayElapsed in Hel.
  destruct (ce_FanOffDelaySec ev <=? 0) eqn:E0; [apply Z.leb_le in E0; lia|].
  destruct (latest_confirmation _ ts None) as [[l|]|] eqn:El; [|done..].
  apply latest_confirmation_bound in El as [_ Hl]. eapply Forall_impl; [exact Hl|].
  intros t Ht Hd. destruct (Ht Hd) as (c & Hc & Hle). exists c. split; [done|].
  destruct (ce_FanAirflowReopenedAt ev); apply Z.leb_le in Hel; lia.
Qed.

Lemma cool_enough_mono e tr seg now now' :
  now <= now' → cool_enough e tr now → cool_enough e (tr ++ seg) now'.
Proof.
  intros Hn (load & Hin & Ha & (d & at_ & Hs) & Hcur & Hact). exists load. split_and!.
  - apply elem_of_app. by left.
  - done.
  - exists d, at_. by apply seen_confirmed_app.
  - intros d' r Hr Hd. destruct (Hcur d' r Hr Hd) as (a & Hsa & Hdel). exists a.
    split; [by apply seen_confirmed_app|]. intros H1 H2. destruct (Hdel H1 H2) as (c & -> & Hc). exists c.
    split; [done|lia].
  - intros d' r Hr Hd. apply seen_restored_app. by eapply Hact.
Qed.

Section Fans.
Context `{ReconcilerEnv} (e : CurtailmentEvent) (ps : list nat).
Context (unrestored : ce_State e ≠ EvRestoring).
Notation K := (Keeps (Pass e ps)).
Notation KA := (keeps_at (Pass e ps)).

(** The cells of the pass justify the command. *)
Lemma pass_cool_enough s :
  Pass e ps s → desired_power (rs_event s) (map (cell (rs_mem s)) ps) (rs_now s) = Some PowerOff →
  cool_enough e (rs_trace s) (rs_now s).
Proof.
  intros [(clk & re & err & on & Hev & Hre) M (load & Hin & Ha & L) V J] (Hall & Hex & Hdel)%desired_off.
  rewrite Hev in Hdel. simpl in Hdel.
  assert (Hcell : ∀ p t, p ∈ ps → rs_mem s !! p = Some t → t ∈ map (cell (rs_mem s)) ps).
  { intros p t Hp Hl. apply list_elem_of_fmap. exists p. by rewrite (cell_lookup _ _ _ Hl). }
  rewrite Forall_forall in Hall.
  assert (Hconf : ∀ p t, p ∈ ps → rs_mem s !! p = Some t → tg_DesiredState t = DsCurtailed →
    seen_confirmed e (rs_trace s) (tg_DeviceIdentifier t) (tg_ConfirmedAt t)).
  { intros p t Hp Hl Hd. specialize (Hall t (Hcell p t Hp Hl)). specialize (M p t Hl).
    unfold rests, backed in *. rewrite Hd in *. by rewrite Hall in M. }
  exists load. split_and!; [done..| | |].
  - apply Exists_exists in Hex as (t & Ht & Hd). apply list_elem_of_fmap in Ht as (p & -> & Hp).
    rewrite Forall_forall in V. destruct (V p Hp) as [t Hl]. rewrite (cell_lookup _ _ _ Hl) in Hd.
    eexists _, _. by eapply Hconf.
  - intros d r Hr Hd. destruct (L d r Hr) as (p & t & Hp & Hl & <- & Hds). exists (tg_ConfirmedAt t).
    split; [eapply Hconf; [done..|congruence]|]. intros Hoff Hpos.
    assert (Hoff' : ce_FanOffSentAt e = None ∨ re ≠ None) by (destruct Hoff; auto).
    specialize (Hdel Hoff' Hpos). rewrite Forall_forall in Hdel. apply (Hdel t); [by eapply Hcell|congruence].
  - intros d r Hr Hd. destruct (L d r Hr) as (p & t & Hp & Hl & <- & Hds).
    specialize (Hall t (Hcell p t Hp Hl)). specialize (M p t Hl). unfold rests, backed in *.
    rewrite Hds, Hd in *. by destruct Hall as [Hs|Hs]; rewrite Hs in M.
Qed.

(** Nothing the theorems speak of changed, but time passed. *)
Definition unseen (s s' : RState) : Prop :=
  rs_trace s' = rs_trace s ∧ rs_event s' = rs_event s ∧ rs_mem s' = rs_mem s ∧ rs_now s <= rs_now s'.

Lemma unseen_trans s1 s2 s3 : unseen s1 s2 → unseen s2 s3 → unseen s1 s3.
Proof. intros (? & ? & ? & ?) (? & ? & ? & ?). split_and!; [congruence..|lia]. Qed.

Lemma take_rturn_unseen s : unseen s (take_rturn s).2.
Proof. unfold unseen. simpl. split_and!; [done..|lia]. Qed.

Lemma store_call_unseen {A} (op : Z → COp A) s : unseen s (store_call op s).2.
Proof.
  unfold store_call, store_with. rewrite run_bind. eapply unseen_trans; [apply take_rturn_unseen|].
  destruct (rt_error _); [split_and!; done || lia|]. unfold run_op. destruct (op _ _). split_and!; done || lia.
Qed.

(** The lock of the event's row found it in the expected state, and keeps it there. *)
Lemma lock_found id st s s1 :
  store_call (λ _, LockEventForFanCommand id st) s = (Ok tt, s1) →
  ∃ ev, db_events (rs_db s1) !! id = Some ev ∧ ce_State ev = st.
Proof.
  unfold store_call, store_with. rewrite run_bind. destruct (rt_error _); [done|]. unfold run_op.
  set (s' := (take_rturn s).2). unfold LockEventForFanCommand.
  destruct (db_events (rs_db s') !! id) as [ev|] eqn:Ev; [|done].
  destruct (ce_State ev == st) eqn:Es; [|done]. simpl. intros [= <-]. exists ev. simpl. crush_bools. done.
Qed.

Lemma locked_turn id s :
  rs_lock s = Some id → db_events (rs_db (take_rturn s).2) !! id = db_events (rs_db s) !! id.
Proof.
  intros Hl. unfold take_rturn. simpl. rewrite Hl. unfold keep_event. simpl.
  destruct (db_events (rs_db s) !! id); [by rewrite lookup_insert_eq|by rewrite lookup_delete_eq].
Qed.

Lemma set_fans_trace power s :
  ∃ en, rs_trace (set_fans power s).2 = rs_trace s ++ [en] ∧ (∃ err, en_action en = CommandedFans power err) ∧
    rs_now s <= en_now en ∧ ∀ id, rs_lock s = Some id → event_at en id = db_events (rs_db s) !! id.
Proof.
  unfold set_fans. rewrite !run_bind.
  pose proof (take_rturn_unseen s) as (Ht & _ & _ & Hn). pose proof (λ id, locked_turn id s) as Hev.
  destruct (take_rturn s) as [turn s3]. simpl in Ht, Hn, Hev |- *. rewrite Ht.
  eexists. split_and!; [reflexivity|by eexists|done|]. intros id Hl. by apply Hev.
Qed.

(** The fans are turned off while the event is locked active. *)
Lemma fans_off_trace p s :
  fp_ExpectedEventState p = EvActive → ce_ID (rs_event s) = ce_ID e →
  rs_trace (commandAndPersistFanState p PowerOff s).2 = rs_trace s ∨
  ∃ en, rs_trace (commandAndPersistFanState p PowerOff s).2 = rs_trace s ++ [en] ∧
    (∃ err, en_action en = CommandedFans PowerOff err) ∧
    rs_now s <= en_now en ∧ ∃ ev, event_at en (ce_ID e) = Some ev ∧ ce_State ev = EvActive.
Proof.
  intros Hp Hid. unfold commandAndPersistFanState, CommandFanState. rewrite run_bind. cbv beta. simpl fst. simpl snd.
  rewrite Hp. cbn [IsTerminal]. rewrite Hid, run_bind.
  pose proof (store_call_unseen (λ _, LockEventForFanCommand (ce_ID e) EvActive) s) as (Ht1 & _ & _ & Hn1).
  pose proof (lock_found (ce_ID e) EvActive s) as Hlock.
  destruct (store_call _ s) as [[[]|err] s1]; simpl in Ht1, Hn1 |- *; [|by left].
  right. destruct (Hlock s1 eq_refl) as (ev & Hev & Hst).
  rewrite run_bind. cbn [set_lock fst snd]. set (s2 := s1 <| rs_lock := Some (ce_ID e) |>). rewrite run_bind.
  destruct (set_fans_trace PowerOff s2) as (en & Ht & Ha & Hn & Hev2).
  destruct (set_fans PowerOff s2) as [lastError s3]. simpl in Ht. cbn [fst snd]. rewrite run_bind.
  match goal with |- context [store_call ?op s3] => pose proof (store_call_unseen op s3) as (Ht4 & _);
    destruct (store_call op s3) as [r s4] end.
  exists en. split; [|split; [done|split; [simpl in Hn; lia|]]].
  - cbn [fst snd] in *. rewrite run_bind. simpl. destruct r; simpl; by rewrite Ht4, Ht, <- Ht1.
  - exists ev. by rewrite (Hev2 _ eq_refl).
Qed.

Lemma turn_fans_off_trace s :
  all_justified e (rs_trace s) → cool_enough e (rs_trace s) (rs_now s) → ce_ID (rs_event s) = ce_ID e →
  all_justified e (rs_trace (turn_fans_off s).2).
Proof.
  intros HJ Hc Hid. unfold turn_fans_off. rewrite run_bind. cbn [get_event fst snd]. cbv zeta. rewrite run_bind.
  match goal with |- context [commandAndPersistFanState ?p PowerOff s] =>
    pose proof (fans_off_trace p s eq_refl Hid) as Htr;
    destruct (commandAndPersistFanState p PowerOff s) as [r s1] end.
  cbn [fst snd] in *. match goal with |- all_justified e (rs_trace ?st) => assert (Hs : rs_trace st = rs_trace s1) by (by destruct r) end.
  rewrite Hs. clear Hs. destruct Htr as [->|(en & -> & (fe & Ha) & Hn & Hev)]; [done|].
  apply all_justified_snoc; [done|]. unfold justified. rewrite Ha. split; [done|].
  rewrite <- (app_nil_r (rs_trace s)). by eapply cool_enough_mono.
Qed.

Lemma announce_unseen now s :
  rs_trace (announce_fans_off now s).2 = rs_trace s ∧ rs_now s <= rs_now (announce_fans_off now s).2 ∧
  ce_ID (rs_event (announce_fans_off now s).2) = ce_ID (rs_event s).
Proof.
  unfold announce_fans_off. rewrite run_bind. cbn [get_event fst snd].
  case_if; [split_and!; done || lia|]. rewrite run_bind. unfold CommandFanState. rewrite run_bind. cbn [get_event fst snd].
  cbn [IsTerminal fp_ExpectedEventState fan_expecting]. simpl (IsTerminal _). cbv iota. rewrite run_bind.
  match goal with |- context [store_call ?op s] => pose proof (store_call_unseen op s) as (Ht1 & He1 & _ & Hn1);
    destruct (store_call op s) as [r1 s1] end.
  simpl in Ht1, He1, Hn1. destruct r1 as [[]|err]; cbn [fst snd]; [|simpl; rewrite Ht1, He1; split_and!; done || lia].
  rewrite run_bind. cbn [set_lock fst snd]. rewrite run_bind. rewrite !run_ret. cbn [fst snd].
  rewrite run_bind. set (s2 := s1 <| rs_lock := Some (ce_ID (rs_event s)) |>).
  match goal with |- context [store_call ?op s2] => pose proof (store_call_unseen op s2) as (Ht2 & He2 & _ & Hn2);
    destruct (store_call op s2) as [r2 s3] end.
  cbn [fst snd] in *. simpl in Hn2. rewrite run_bind. cbn [set_lock fst snd].
  destruct r2; simpl; rewrite ?Ht2, ?He2; simpl; rewrite ?Ht1, ?He1; split_and!; done || lia.
Qed.

(** The fans at the end of a pass. *)
Lemma reconcileActiveFans_trace s :
  Pass e ps s → all_justified e (rs_trace (reconcileActiveFans ps s).2).
Proof.
  intros HP. pose proof (pass_trace _ _ _ HP) as HJ. unfold reconcileActiveFans. rewrite run_bind. cbn [get_event fst snd].
  case_if; [done|]. rewrite run_bind. cbn [reads fst snd]. rewrite run_bind. cbn [clock fst snd].
  pose proof (pass_cool_enough s HP) as Hcool.
  destruct (desired_power _ _ _) as [[]|]; [|clear HJ|done].
  - by apply (pass_trace e ps), pass_reopen_fans.
  - specialize (Hcool eq_refl). destruct (announce_unseen (rs_now s) s) as (Ht & Hn & Hid).
    rewrite run_bind. destruct (announce_fans_off (rs_now s) s) as [[] s1]; simpl in Ht, Hn, Hid |- *.
    + apply turn_fans_off_trace; [rewrite Ht; by apply (pass_trace e ps)| |].
      * rewrite Ht, <- (app_nil_r (rs_trace s)). by eapply cool_enough_mono.
      * rewrite Hid. by apply (pass_same e ps).
    + rewrite Ht. by apply (pass_trace e ps).
Qed.

(** The fans when airflow is needed. *)
Lemma at_airflow targets s :
  activeFanTargetsNeedAirflow (rs_event s) (map (cell (rs_mem s)) targets) = true →
  KA (reconcileActiveFans targets) s.
Proof.
  intros Hn. unfold reconcileActiveFans. eapply at_look; [reflexivity|]. case_if; [apply keep_ret|].
  do 2 (eapply at_look; [reflexivity|]). unfold activeFanTargetsNeedAirflow in Hn. unfold desired_power.
  destruct (activeFanTargetConfirmation _) as [n all]. apply andb_true_iff in Hn as [Hoff Hn]. rewrite Hn, Hoff.
  apply pass_reopen_fans.
Qed.

End Fans.

(** ** Admission *)

Definition fresh_claim (t : Target) : Prop := tg_State t = TgDispatching ∧ tg_DesiredState t = DsCurtailed.

Lemma claim_fold now db id available rows0 cl0 rows claimed :
  fold_left (claim_one now db id (λ _, TgDispatching)) available (Some (rows0, cl0)) = Some (rows, claimed) →
  (∀ d, d ∈ cl0 → ∃ t, rows0 !! d = Some t ∧ fresh_claim t) →
  (∀ d, d ∈ claimed → ∃ t, rows !! d = Some t ∧ fresh_claim t) ∧
  (length claimed <= length cl0 + length available)%nat.
Proof.
  revert rows0 cl0. induction available as [|p av IH]; intros rows0 cl0; simpl.
  { intros [= -> ->] Hg. split; [done|lia]. }
  assert (Hins : ∀ d t, fresh_claim t → (∀ d, d ∈ cl0 → ∃ t, rows0 !! d = Some t ∧ fresh_claim t) →
    ∀ d', d' ∈ cl0 ++ [d] → ∃ t', <[d := t]> rows0 !! d' = Some t' ∧ fresh_claim t').
  { intros d t Ht Hg d' Hd'. destruct (decide (d' = d)) as [->|Hne]; [rewrite lookup_insert_eq; by exists t|].
    rewrite lookup_insert_ne by done. apply Hg. apply elem_of_app in Hd' as [?|?%list_elem_of_singleton]; done. }
  assert (Hnone : fold_left (claim_one now db id (λ _, TgDispatching)) av None = None) by (clear; by induction av).
  intros Hf Hg. revert Hf. destruct (target_rows db id !! it_DeviceIdentifier p) as [t|].
  - destruct (settled (tg_State t) && _); [destruct (device_free _ _ _)|]; intros Hf; [..|by rewrite Hnone in Hf|].
    + apply IH in Hf as [Hg' Hl]; [|by apply Hins]. split; [done|]. rewrite length_app in Hl. simpl in Hl. lia.
    + apply IH in Hf as [Hg' Hl]; [|done]. split; [done|lia].
  - case_match; intros Hf; apply IH in Hf as [Hg' Hl]; try done.
    + split; [done|]. rewrite length_app in Hl. simpl in Hl. lia.
    + by apply Hins.
    + split; [done|lia].
Qed.

Lemma omap_length_le {A B} (f : A → option B) l : (length (omap f l) <= length l)%nat.
Proof. induction l as [|x l IH]; csimpl; [lia|]. destruct (f x); simpl; lia. Qed.

Lemma claim_targets_ok now id cooldown available db ts db' :
  ClaimClosedLoopFullFleetTargets now id cooldown available db = (Ok ts, db') →
  Forall fresh_claim ts ∧ (length ts <= length available)%nat.
Proof.
  unfold ClaimClosedLoopFullFleetTargets, claim_targets.
  assert (Hnil : Forall fresh_claim [] ∧ (length (@nil Target) <= length available)%nat) by (split; [constructor|simpl; lia]).
  destruct (db_events db !! id); [|by intros [= <- _]]. case_if; [by intros [= <- _]|].
  destruct (fold_left _ _ _) as [[rows claimed]|] eqn:Ef; [|done]. case_if; [done|]. intros [= <- _].
  apply claim_fold in Ef as [Hg Hl]; [|by intros d Hd%elem_of_nil]. split.
  - apply Forall_forall. intros t (d & Hd & Ht)%list_elem_of_omap. destruct (Hg d Hd) as (r & Hr & Hfr).
    rewrite Hr in Ht. by simplify_eq/=.
  - etrans; [apply omap_length_le|]. exact Hl.
Qed.

Section Admission.
Context `{ReconcilerEnv} (e : CurtailmentEvent) (ps : list nat).
Notation K := (Keeps (Pass e ps)).

(** New cells of claimed targets join the pass. *)
Lemma pass_allocate ts s :
  Forall fresh_claim ts → Pass e ps s → Pass e (ps ++ (allocate ts s).1) (allocate ts s).2.
Proof.
  intros Hts [E M (load & Hin & Ha & L) V J]. split; simpl; try done.
  - intros p t [Hl|[_ Hl]]%lookup_app_Some; [by eapply M|]. apply list_elem_of_lookup_2 in Hl.
    rewrite Forall_forall in Hts. destruct (Hts t Hl) as [Hs Hd]. unfold backed. by rewrite Hs, Hd.
  - exists load. split_and!; [done..|]. intros d r Hr. destruct (L d r Hr) as (p & t & Hp & Hl & Hd & Hs).
    exists p, t. split_and!; try done; [by apply elem_of_app; left|by apply lookup_app_l_Some].
  - apply Forall_app. split.
    + eapply Forall_impl; [exact V|]. intros p [t Hl]. exists t. by apply lookup_app_l_Some.
    + apply Forall_forall. intros p [Hp1 Hp2]%elem_of_seq. apply lookup_lt_is_Some. rewrite length_app. lia.
Qed.

Lemma allocate_frame ts s : frame s (allocate ts s).2.
Proof.
  split; simpl; [exists []; by rewrite app_nil_r|apply event_frame_refl| |lia].
  intros p t Hl. exists t. by rewrite (lookup_app_l_Some _ _ _ _ Hl).
Qed.

(** A cell of a claimed target. *)
Definition fresh_cell (s : RState) (p : nat) : Prop := ∃ t, rs_mem s !! p = Some t ∧ fresh_claim t.

(** What an admission promises of its result. *)
Definition admits_at (m : Rec (list nat * bool)) (s : RState) : Prop :=
  frame s (m s).2 ∧
  (Pass e ps s → Pass e (ps ++ (m s).1.1) (m s).2 ∧ fits e (m s).1.1 ∧ Forall (fresh_cell (m s).2) (m s).1.1).
Definition Admits (m : Rec (list nat * bool)) : Prop := ∀ s, admits_at m s.

Lemma admits_none b : Admits (mret ([], b)).
Proof.
  intros s. split; [apply frame_refl|]. intros HP. simpl. rewrite app_nil_r. split_and!; [done| |constructor].
  intros n _ Hn. simpl. lia.
Qed.

Lemma admits_bind {A} (m : Rec A) f : K m → (∀ a, Admits (f a)) → Admits (m ≫= f).
Proof.
  intros Hm Hf s. unfold admits_at. rewrite run_bind. destruct (Hm s) as [F P]. destruct (Hf (m s).1 (m s).2) as [F' P'].
  split; [by eapply frame_trans|auto].
Qed.

Lemma fits_batch ev n (claimed : list nat) :
  ce_CurtailBatchSize ev = ce_CurtailBatchSize e →
  (length claimed <= Z.to_nat (curtailBatchSizeForEvent ev n))%nat → fits e claimed.
Proof. intros He Hl m Hm Hpos. rewrite (sized_batch e ev n He m Hm Hpos) in Hl. lia. Qed.

(** The claim of a batch, the event read. *)
Lemma admits_claim ev n (available : RTurn → list InsertTargetParams) s :
  rs_event s = ev →
  admits_at (r ← store_with (λ turn now, ClaimClosedLoopFullFleetTargets now (ce_ID ev) (rt_flag turn)
               (take (Z.to_nat (curtailBatchSizeForEvent ev n)) (available turn)));
             match r with
             | Err _ => mret ([], false)
             | Ok claimed => _ ← log ClaimedTargets; ps ← allocate claimed; mret (ps, false)
             end) s.
Proof.
  intros Hev. unfold admits_at. rewrite !run_bind.
  match goal with |- context [store_with ?op s] => set (o := op) end.
  pose proof (keeps_store_with (Pass e ps) (pass_respects e ps) o s) as [F P].
  assert (Hclaim : ∀ ts, (store_with o s).1 = Ok ts → Forall fresh_claim ts ∧
    (length ts <= Z.to_nat (curtailBatchSizeForEvent ev n))%nat).
  { intros ts. unfold store_with. rewrite run_bind. destruct (rt_error _); [done|]. unfold run_op, o.
    destruct (ClaimClosedLoopFullFleetTargets _ _ _ _ _) as [[ts'|] db'] eqn:Ec; [|done]. intros [= <-].
    apply claim_targets_ok in Ec as [Hf Hl]. split; [done|]. rewrite length_take in Hl. lia. }
  destruct (store_with o s) as [[ts|err] s1]; cbn [fst snd] in *.
  - rewrite !run_bind. destruct (Hclaim ts eq_refl) as [Hf Hl].
    destruct (pass_neutral e ps ClaimedTargets eq_refl s1) as [F1 P1]. cbn [fst snd].
    set (s2 := (log ClaimedTargets s1).2) in *. rewrite !run_ret. cbn [fst snd]. split.
    + do 2 (eapply frame_trans; [done|]). apply allocate_frame.
    + intros HP. split_and!; [by apply pass_allocate; auto| |].
      * eapply (fits_batch ev n); [subst ev; by apply (pass_same e ps)|]. simpl. by rewrite length_seq.
      * apply Forall_forall. intros p [Hp1 Hp2]%elem_of_seq. simpl.
        destruct (lookup_lt_is_Some_2 ts (p - length (rs_mem s1))) as [t Ht]; [simpl in *; lia|].
        exists t. split; [simpl; rewrite lookup_app_r by (simpl in *; lia); done|].
        rewrite Forall_lookup in Hf. by eapply Hf.
  - destruct (admits_none false s1) as [F1 P1]. split; [done|auto].
Qed.

Lemma admits_look {A} (m : Rec A) f a s : m s = (a, s) → admits_at (f a) s → admits_at (m ≫= f) s.
Proof. intros Hm. unfold admits_at. rewrite run_bind, Hm. done. Qed.

Lemma admits_full_fleet targets candidates topology : Admits (admit_full_fleet targets candidates topology).
Proof.
  unfold admit_full_fleet. cbv zeta.
  repeat first
    [ apply admits_none
    | match goal with
      | |- ∀ _, _ => intro
      | |- Admits (clock ≫= _) => fail 1
      | |- Admits (_ ≫= _) => apply admits_bind; [keep|]
      | |- Admits (match ?x with _ => _ end) => destruct x
      end ].
  all: intros s; eapply admits_look; [reflexivity|]; eapply admits_look; [reflexivity|]; cbv beta.
  all: case_if; [apply admits_none|by apply admits_claim].
Qed.

Lemma pass_claimAllPairedPolicyTargets targets cs params : K (claimAllPairedPolicyTargets targets cs params).
Proof. unfold claimAllPairedPolicyTargets. cbv zeta. keep. Qed.

Lemma admits_from_snapshot targets sn : Admits (claimClosedLoopFullFleetTargetsFromSnapshot targets sn).
Proof.
  apply admits_bind; [keep|]. intros ev. case_if; [apply admits_none|].
  apply admits_bind; [eauto with keeps|]. intros [[params cs]|ends]; [|apply admits_none].
  case_if; [|apply admits_full_fleet].
  apply admits_bind; [apply pass_claimAllPairedPolicyTargets|]. intros. apply admits_none.
Qed.

End Admission.
