(* ===== verification/CurtailmentPassSafety.v ===== *)
(** * The commands of every pass are justified

    The safety of [CurtailmentSafety] composed along dispatchPending, observeActive and
    observeRestoring, and the theorem on [processEvent]. *)

From S2P Require Import Prelude GoSort Float64 Errors RolloutBehavior AuthzPermissions CommandFilter.
From S2P Require Import CurtailmentModes CurtailmentSelector CurtailmentPreview CurtailmentEvents.
From S2P Require Import CurtailmentDecisions CurtailmentReconciler.
From S2P Require Import CurtailmentPasses CurtailmentTrace CurtailmentKeeps CurtailmentDispatch.
From S2P Require Import CurtailmentSafety.
#[local] Open Scope string_scope.
#[local] Open Scope list_scope.
#[local] Open Scope Z_scope.
#[local] Open Scope go_scope.

Section Passes.
Context `{ReconcilerEnv} (e : CurtailmentEvent) (ps : list nat).
Notation K := (Keeps (Pass e ps)).
Notation KA := (keeps_at (Pass e ps)).

(** The trace of the operation is justified. *)
Definition safe {A} (m : Rec A) (s : RState) : Prop := all_justified e (rs_trace (m s).2).

Lemma safe_keeps {A} (m : Rec A) s : K m → Pass e ps s → safe m s.
Proof. intros Hm HP. by apply (pass_trace e ps), (proj2 (Hm s)). Qed.

Lemma safe_bind {A B} (m : Rec A) (f : A → Rec B) s :
  K m → (∀ a s', Pass e ps s' → safe (f a) s') → Pass e ps s → safe (m ≫= f) s.
Proof. intros Hm Hf HP. unfold safe. rewrite run_bind. apply Hf. by apply (proj2 (Hm s)). Qed.

Lemma safe_ret {A} (a : A) s : Pass e ps s → safe (mret a) s.
Proof. apply (pass_trace e ps). Qed.

Lemma safe_fans s : ce_State e ≠ EvRestoring → Pass e ps s → safe (_ ← reconcileActiveFans ps; mret tt) s.
Proof. intros Hst HP. unfold safe. rewrite run_bind. by apply (reconcileActiveFans_trace e ps). Qed.

Section Running.
Context (running : expectedDesiredStateForEventState (ce_State e) = Some DsCurtailed).

(** *** Pending events *)

Lemma claimed_dispatch_subset claimed s :
  omap (λ pt : nat * Target, if (tg_State pt.2 == TgPending) || (tg_State pt.2 == TgDispatching)
    then Some pt.1 else None) (zip claimed (map (cell (rs_mem s)) claimed)) ⊆ claimed.
Proof.
  intros p ([q t] & Hin & Hp)%list_elem_of_omap. simpl in Hp. case_match; simplify_eq.
  by apply elem_of_zip_l in Hin.
Qed.

Lemma pass_dispatchClaimed claimed : claimed ⊆ ps → fits e claimed → K (dispatchClaimedCurtailTargets claimed).
Proof.
  intros Hsub Hfit s. eapply at_look; [reflexivity|]. cbv zeta.
  set (l := omap _ _). assert (Hl : l ⊆ claimed) by apply claimed_dispatch_subset.
  assert (Hlen : (length l <= length claimed)%nat).
  { etrans; [apply omap_length_le|]. rewrite length_zip_with, length_map. lia. }
  clearbody l. case_if; [apply keep_ret|]. apply keep_bind; [eauto with keeps|]. intros ds.
  apply keep_bind; [|keep]. apply pass_dispatchCurtail; try done.
  - by etrans.
  - intros n Hn Hpos. specialize (Hfit n Hn Hpos). lia.
Qed.

Lemma pass_refresh_pending ts : K (refresh_pending ts).
Proof. unfold refresh_pending. keep. Qed.

End Running.
End Passes.

Section PassTraces.
Context `{ReconcilerEnv} (e : CurtailmentEvent) (ps : list nat).
Context (running : expectedDesiredStateForEventState (ce_State e) = Some DsCurtailed).
Notation K := (Keeps (Pass e ps)).
Notation KA := (keeps_at (Pass e ps)).

Lemma unrestored : ce_State e ≠ EvRestoring.
Proof. intros Hst. by rewrite Hst in running. Qed.
#[local] Hint Resolve unrestored : core.

(** An admission, and what follows it on the larger set of targets. *)
Lemma safe_admit {A} m (f : list nat * bool → Rec A) s :
  Admits e ps m →
  (∀ claimed ends s', Pass e (ps ++ claimed) s' → fits e claimed → Forall (fresh_cell s') claimed →
     safe e (f (claimed, ends)) s') →
  Pass e ps s → safe e (m ≫= f) s.
Proof.
  intros Hm Hf HP. unfold safe. rewrite run_bind. destruct (Hm s) as [_ Hp]. specialize (Hp HP).
  destruct (m s) as [[claimed ends] s']. simpl in *. destruct Hp as (HP' & Hfit & Hfresh). by apply Hf.
Qed.

Lemma safe_dispatchClaimed claimed s :
  Pass e (ps ++ claimed) s → fits e claimed → safe e (dispatchClaimedCurtailTargets claimed) s.
Proof.
  intros HP Hfit. eapply safe_keeps; [|exact HP]. apply pass_dispatchClaimed; [done| |done].
  intros p Hp. apply elem_of_app. by right.
Qed.

Lemma safe_dispatch_pending_targets sn s : Pass e ps s → safe e (dispatch_pending_targets ps sn) s.
Proof.
  pose proof (pass_refresh_pending e ps). pose proof (pass_confirmDispatched e ps running).
  pose proof (λ ts, pass_dispatchPendingCurtailBatches e ps running ts).
  unfold dispatch_pending_targets. apply safe_bind; [keep|]. intros ev s1 HP1. case_if.
  { eapply safe_keeps; [keep|done]. }
  revert s1 HP1. intros s1. apply safe_bind; [eauto with keeps|]. intros [] s2 HP2; cbn [negb]; [|by eapply safe_ret].
  revert s2 HP2. intros s2. repeat (apply safe_bind; [eauto with keeps|intros ??]).
  case_if; [|by eapply safe_ret]. apply safe_admit; [apply admits_from_snapshot|].
  intros claimed ends s3 HP3 Hfit _. destruct ends; [by eapply safe_ret|by apply safe_dispatchClaimed].
Qed.

(** *** Active events *)

Lemma pass_observe_target cs p re def : p ∈ ps → K (observe_target cs p re def).
Proof.
  intros Hp. pose proof (λ c, pass_checkDrift e ps running p c Hp).
  pose proof (λ c, pass_confirmOneDispatched e ps running p c TgDispatched eq_refl).
  pose proof (pass_dispatchOneCurtail e ps running p TgDrifted eq_refl Hp).
  unfold observe_target. cbv zeta. keep.
Qed.

(** The targets put off are targets. *)
Definition keeps_deferred {A} (m : Rec (option (A * list nat))) : Prop :=
  ∀ s, match (m s).1 with Some (_, def) => def ⊆ ps | None => True end.

Lemma deferred_bind {A B} (m : Rec A) (f : A → Rec (option (B * list nat))) :
  (∀ a, keeps_deferred (f a)) → keeps_deferred (m ≫= f).
Proof. intros Hf s. rewrite run_bind. apply Hf. Qed.

Lemma observe_target_deferred cs p re def : p ∈ ps → def ⊆ ps → keeps_deferred (observe_target cs p re def).
Proof.
  intros Hp Hdef. assert (Hdef' : def ++ [p] ⊆ ps).
  { intros x [Hx| ->%list_elem_of_singleton]%elem_of_app; [by apply Hdef|done]. }
  unfold observe_target. cbv zeta.
  repeat match goal with
    | |- ∀ _, _ => intro
    | |- keeps_deferred (_ ≫= _) => apply deferred_bind
    | |- keeps_deferred (match ?x with _ => _ end) => destruct x
    | |- keeps_deferred (mret _) => intros ?; simpl; try done; case_if; done
    end.
Qed.

Lemma pass_observe_targets cs l re def : l ⊆ ps → K (observe_targets cs l re def).
Proof.
  revert re def. induction l as [|p l IH]; intros re def Hl; cbn [observe_targets]; [apply keep_ret|].
  assert (Hl' : l ⊆ ps) by (intros x Hx; apply Hl; by right).
  apply keep_bind; [apply pass_observe_target, Hl; by left|]. intros [[re' def']|]; [by apply IH|apply keep_ret].
Qed.

Lemma observe_targets_deferred cs l re def : l ⊆ ps → def ⊆ ps → keeps_deferred (observe_targets cs l re def).
Proof.
  revert re def. induction l as [|p l IH]; intros re def Hl Hdef; cbn [observe_targets]; [by intros s|].
  assert (Hl' : l ⊆ ps) by (intros x Hx; apply Hl; by right).
  intros s. rewrite run_bind. assert (Hp : p ∈ ps) by (apply Hl; by left).
  pose proof (observe_target_deferred cs p re def Hp Hdef s) as Hd.
  destruct (observe_target cs p re def s).1 as [[re' def']|]; [by apply IH|done].
Qed.

(** The fans between the observation and the dispatches. *)
Lemma pass_airflow_then {A} (re : bool) (f : option bool → Rec A) :
  (∀ a, K (f a)) →
  K (e ← get_event; ts ← reads ps;
     airflow ← (if activeFanTargetsNeedAirflow e ts then
         ok ← reconcileActiveFans ps; mret (if (ok : bool) then Some true else None)
       else mret (Some re));
     f airflow).
Proof.
  intros Hf s. do 2 (eapply at_look; [reflexivity|]). apply keeps_at_then; [|done].
  destruct (activeFanTargetsNeedAirflow _ _) eqn:En; [|apply keeps_at_ret].
  apply keeps_at_then; [by apply at_airflow|]. intros. apply keep_ret.
Qed.

Lemma pass_observe_active_targets : K (observe_active_targets ps).
Proof.
  assert (Hone : ∀ p, p ∈ ps → K (dispatchOneCurtail p TgDrifted)).
  { intros p Hp. by apply pass_dispatchOneCurtail. }
  pose proof (pass_dispatchPendingCurtailBatches e ps running ps) as Hbatch.
  unfold observe_active_targets. apply keep_bind; [keep|]. intros ev. apply keep_bind; [eauto with keeps|]. intros ds.
  case_if; [apply keep_ret|]. apply keep_bind; [eauto with keeps|]. intros [cs|err]; [|keep].
  apply keep_bind; [keep|]. intros _.
  apply (keeps_bind_post _ (λ o : option (bool * list nat), match o with Some (_, def) => def ⊆ ps | None => True end)).
  - by apply pass_observe_targets.
  - intros s. by apply observe_targets_deferred; [|intros x Hx%elem_of_nil].
  - intros [[re def]|] Hdef; [|apply keep_ret]. apply pass_airflow_then. intros [re'|]; [|apply keep_ret].
    apply keep_bind; [|keep; by apply Hbatch]. apply keeps_for_each. intros p Hp. apply Hone. by apply Hdef.
Qed.

(** New claims need airflow. *)
Lemma fresh_need_airflow ev claimed l s :
  claimed ≠ [] → Forall (fresh_cell s) claimed → fanAirflowNeedsReopen ev = true →
  activeFanTargetsNeedAirflow ev (map (cell (rs_mem s)) (l ++ claimed)) = true.
Proof.
  intros Hne Hfresh Hr. unfold fanAirflowNeedsReopen in Hr. unfold activeFanTargetsNeedAirflow.
  apply andb_true_iff in Hr as [-> _]. simpl.
  destruct (activeFanTargetConfirmation _) as [n [|]] eqn:Ef; [|done].
  apply fan_confirm_fold in Ef as (_ & Hall & _). destruct claimed as [|p claimed]; [done|].
  apply Forall_cons in Hfresh as [(t & Hl & Hs & Hd) _]. rewrite Forall_forall in Hall. exfalso.
  assert (Hin : cell (rs_mem s) p ∈ map (cell (rs_mem s)) (l ++ p :: claimed)).
  { apply list_elem_of_fmap. exists p. split; [done|]. apply elem_of_app. right. by left. }
  apply Hall in Hin. unfold rests in Hin. by rewrite (cell_lookup _ _ _ Hl), Hd, Hs in Hin.
Qed.

Lemma safe_cool targets claimed (re : bool) s :
  claimed ⊆ targets → fits e claimed → Pass e targets s →
  safe e (_ ← dispatchClaimedCurtailTargets claimed;
          if re then mret tt else _ ← reconcileActiveFans targets; mret tt) s.
Proof.
  intros Hsub Hfit. apply safe_bind; [by apply pass_dispatchClaimed|].
  intros _ s' HP. destruct re; [by eapply safe_ret|by apply safe_fans].
Qed.

Lemma safe_admit_and_cool sn re s : Pass e ps s → safe e (admit_and_cool ps sn re) s.
Proof.
  apply safe_admit; [apply admits_from_snapshot|]. intros claimed ends s1 HP Hfit Hfresh.
  destruct ends; [by eapply safe_ret|]. unfold safe. rewrite run_bind. cbn [get_event fst snd].
  assert (Hsub : claimed ⊆ ps ++ claimed) by (intros p Hp; apply elem_of_app; by right).
  destruct (some claimed && negb re && fanAirflowNeedsReopen (rs_event s1)) eqn:Eg.
  - apply andb_true_iff in Eg as [[Hne _]%andb_true_iff Hr].
    assert (Hair : keeps_at (Pass e (ps ++ claimed)) (reconcileActiveFans (ps ++ claimed)) s1).
    { apply at_airflow, fresh_need_airflow; try done. by destruct claimed. }
    destruct Hair as [_ HP2]. specialize (HP2 HP). rewrite !run_bind.
    destruct (reconcileActiveFans (ps ++ claimed) s1) as [[] s2]; cbn [fst snd] in *; rewrite !run_ret; cbn [fst snd].
    + by apply (safe_cool (ps ++ claimed) claimed true s2).
    + by apply (pass_trace e (ps ++ claimed)).
  - rewrite run_bind, run_ret. cbn [fst snd]. by apply (safe_cool (ps ++ claimed) claimed re s1).
Qed.

End PassTraces.

(** ** The load *)

Lemma loaded_target_rows `{ReconcilerEnv} e db t :
  t ∈ ListTargetsByEvent collate (ce_OrgID e) (ce_ID e) db →
  ∃ r, target_rows db (ce_ID e) !! tg_DeviceIdentifier t = Some r ∧ tg_State t = tg_State r ∧
    tg_DesiredState t = tg_DesiredState r ∧ tg_ConfirmedAt t = tg_ConfirmedAt r.
Proof.
  unfold ListTargetsByEvent. destruct (db_events db !! ce_ID e) as [ev|]; [|by intros ?%elem_of_nil].
  case_if; [|by intros ?%elem_of_nil].
  rewrite (stable_sort_perm _ _). intros ([d r] & -> & Hr%elem_of_map_to_list)%list_elem_of_fmap. by exists r.
Qed.

Lemma loaded_all `{ReconcilerEnv} e db ev d r :
  db_events db !! ce_ID e = Some ev → ce_OrgID ev = ce_OrgID e → target_rows db (ce_ID e) !! d = Some r →
  loaded d r ∈ ListTargetsByEvent collate (ce_OrgID e) (ce_ID e) db.
Proof.
  intros Hev Horg Hr. unfold ListTargetsByEvent. rewrite Hev, Horg, Z.eqb_refl.
  rewrite (stable_sort_perm _ _). apply list_elem_of_fmap. exists (d, r). split; [done|]. by apply elem_of_map_to_list.
Qed.

Lemma load_pass `{ReconcilerEnv} e s :
  rs_event s = e → rs_mem s = [] → rs_trace s = [] →
  match ListTargets s with
  | (Ok ps, s') => Pass e ps s'
  | (Err _, s') => rs_trace s' = []
  end.
Proof.
  intros He Hm Ht. unfold ListTargets, store_call, store_with, mbind, Rec_bind, get_event.
  destruct (take_rturn s) as [turn s1] eqn:Et.
  assert (Hs1 : rs_mem s1 = [] ∧ rs_event s1 = e ∧ rs_trace s1 = []) by (by injection Et as _ <-).
  destruct Hs1 as (Hm1 & He1 & Ht1). destruct (rt_error turn); [done|]. unfold run_op, gets.
  set (ts := ListTargetsByEvent _ _ _ _). simpl. rewrite Hm1, Ht1. simpl. subst e.
  set (en := {| en_action := LoadedTargets; en_now := rs_now s1; en_db := rs_db s1 |}).
  split; simpl; rewrite ?He1.
  - apply event_frame_refl.
  - intros p t Hl%list_elem_of_lookup_2. destruct (loaded_target_rows _ _ _ Hl) as (r & Hr & Hs & Hd & Hc).
    unfold backed. destruct (tg_DesiredState t), (tg_State t); try done;
      exists en, r; split_and!; try done; try (by left); try (by right); congruence.
  - exists en. split_and!; [by left|done|]. intros d r [Hr (ev & Hev & Horg)].
    pose proof (loaded_all (rs_event s) (rs_db s1) ev d r Hev Horg Hr) as Hin.
    apply list_elem_of_lookup_1 in Hin as [p Hp]. exists p, (loaded d r). split_and!; try done.
    apply elem_of_seq. apply lookup_lt_Some in Hp. fold ts in Hp. lia.
  - apply Forall_forall. intros p [_ Hp]%elem_of_seq. by apply lookup_lt_is_Some.
  - intros i en' Hi. destruct i as [|i]; [|by destruct i]. by injection Hi as <-.
Qed.

(** ** Passes *)

Section Whole.
Context `{ReconcilerEnv} (e : CurtailmentEvent).

(** What follows the load is safe, so is the pass. *)
Lemma safe_after_load (f : list nat → Rec unit) s :
  rs_event s = e → rs_mem s = [] → rs_trace s = [] →
  (∀ ps s', Pass e ps s' → safe e (f ps) s') →
  safe e (loaded ← ListTargets; match loaded with Err _ => mret tt | Ok ps => f ps end) s.
Proof.
  intros He Hm Ht Hf. unfold safe. rewrite run_bind. pose proof (load_pass e s He Hm Ht) as Hl.
  destruct (ListTargets s) as [[ps|err] s']; simpl; [by apply Hf|]. rewrite Hl. apply all_justified_nil.
Qed.

Lemma safe_dispatchPending s :
  ce_State e = EvPending → rs_event s = e → rs_mem s = [] → rs_trace s = [] → safe e dispatchPending s.
Proof.
  intros Hst He Hm Ht. apply safe_after_load; try done. clear s He Hm Ht. intros ps s.
  apply safe_bind; [eauto with keeps|]. intros ready s1 HP1. case_if; [by eapply safe_ret|]. revert s1 HP1. intros s1.
  apply safe_bind; [eauto with keeps|]. intros restoring s2.
  apply safe_bind; [eauto with keeps|]. intros [sn stop] s3 HP3. case_if; [by eapply safe_ret|].
  apply safe_dispatch_pending_targets; [by rewrite Hst|done].
Qed.

Lemma safe_observeActive s :
  ce_State e = EvActive → rs_event s = e → rs_mem s = [] → rs_trace s = [] → safe e observeActive s.
Proof.
  intros Hst He Hm Ht. assert (Hrun : expectedDesiredStateForEventState (ce_State e) = Some DsCurtailed) by (by rewrite Hst).
  apply safe_after_load; try done. clear s He Hm Ht. intros ps s.
  apply safe_bind; [eauto with keeps|]. intros [] s1; [by eapply safe_ret|].
  apply safe_bind; [eauto with keeps|]. intros restoring s2.
  apply safe_bind; [eauto with keeps|]. intros [sn []] s3; [by eapply safe_ret|].
  apply safe_bind; [eauto with keeps|]. intros [] s4; cbn [negb]; [|by eapply safe_ret].
  apply safe_bind; [by apply pass_observe_active_targets|]. intros [re|] s5 HP; [|by eapply safe_ret].
  destruct restoring; [destruct re; [by eapply safe_ret|apply safe_fans; [by rewrite Hst|done]]|by apply safe_admit_and_cool].
Qed.

(** A restoring event: the fans go on, and their mark may be cleared. *)
Lemma restoring_fans_pass ps s :
  ce_State e = EvRestoring → Pass e ps s → Pass e ps (reconcileRestoringFans s).2.
Proof.
  intros Hst HP. unfold reconcileRestoringFans. rewrite run_bind. cbn [get_event fst snd].
  case_if; [done|]. rewrite run_bind. cbn [clock fst snd]. cbv zeta. rewrite run_bind.
  match goal with |- context [commandAndPersistFanState ?p PowerOn s] =>
    destruct (pass_command_on e ps p s) as [_ HP1]; destruct (commandAndPersistFanState p PowerOn s) as [r s1] end.
  specialize (HP1 HP). cbn [fst snd] in *. destruct r as [lastError|err]; [|done].
  apply set_event_pass; [|done]. destruct (pass_same _ _ _ HP1) as (_ & Hs & _). rewrite Hst in Hs.
  match goal with |- event_frame ?a ?b => exists (ce_LastCurtailPendingDispatchAt a), (ce_FanAirflowReopenedAt b),
    (ce_FanLastError b), (ce_FanOnSentAt b) end.
  split; [|intros Hne; by destruct Hne]. destruct (rs_event s1). simpl in Hs. subst.
  destruct lastError; simpl; repeat case_match; done.
Qed.

Lemma safe_observeRestoring s :
  ce_State e = EvRestoring → rs_event s = e → rs_mem s = [] → rs_trace s = [] → safe e observeRestoring s.
Proof.
  intros Hst He Hm Ht. apply safe_after_load; try done. clear s He Hm Ht. intros ps s HP.
  unfold safe. rewrite run_bind. apply (safe_keeps e ps); [|by apply restoring_fans_pass]. keep.
Qed.

(** C5: Whatever others do to the tables, however calls fail and whatever telemetry and commands
    answer, a pass of the curtailment reconciler over an event sends a Curtail only to a non-empty
    batch, within the event's batch size, of targets that the pass itself claimed to be curtailed,
    having seen the event unchanged after the last claim; an Uncurtail only to targets that it
    claimed to be restored; and it turns the facility fans off only when the event is active,
    every target to be curtailed was seen confirmed (for the whole delay, unless the fans were off
    already) and every other was seen restored. *)
Theorem pass_commands_are_justified turns now db lock rejects :
  all_justified e (rs_trace (processEvent e {| rs_db := db; rs_turns := turns; rs_now := now; rs_trace := [];
    rs_event := e; rs_mem := []; rs_lock := lock; rs_rejects := rejects |}).2).
Proof.
  set (s := {| rs_db := db |}). unfold processEvent. change (s <| rs_event := e |> <| rs_mem := [] |>) with s.
  destruct (ce_State e) eqn:Hst; try apply all_justified_nil.
  - by apply safe_dispatchPending.
  - by apply safe_observeActive.
  - by apply safe_observeRestoring.
Qed.

End Whole.
