(* ===== verification/CurtailmentPacing.v ===== *)
(** * Pacing of restores

    A pass restores at most one batch of miners: when no restore is in flight, the
    interval since the last one is over and the airflow has been back for its delay. *)

From S2P Require Import Prelude GoSort Float64 Errors RolloutBehavior AuthzPermissions CommandFilter.
From S2P Require Import CurtailmentModes CurtailmentSelector CurtailmentPreview CurtailmentEvents.
From S2P Require Import CurtailmentDecisions CurtailmentReconciler.
From S2P Require Import CurtailmentPasses CurtailmentTrace CurtailmentKeeps CurtailmentDispatch.
#[local] Open Scope string_scope.
#[local] Open Scope list_scope.
#[local] Open Scope Z_scope.
#[local] Open Scope go_scope.

(** The Uncurtail commands of a trace, in order. *)
Definition uncurtails (tr : list Entry) : list (list string) :=
  omap (λ en, match en_action en with SentUncurtail ds => Some ds | _ => None end) tr.

Lemma uncurtails_snoc tr en :
  uncurtails (tr ++ [en]) = uncurtails tr ++ match en_action en with SentUncurtail ds => [ds] | _ => [] end.
Proof. unfold uncurtails. rewrite omap_app. simpl. by destruct (en_action en). Qed.

(** So far these Uncurtails were sent. *)
Definition sent_so_far (us : list (list string)) (s : RState) : Prop := uncurtails (rs_trace s) = us.

Section Silent.
Context `{ReconcilerEnv} (us : list (list string)).
Notation K := (Keeps (sent_so_far us)).

Lemma silent_respects : respects (sent_so_far us).
Proof. intros s s' Ht _ _. unfold sent_so_far. by rewrite Ht. Qed.

Lemma silent_log a : (∀ ds, a ≠ SentUncurtail ds) → K (log a).
Proof.
  intros Ha s. split; [apply log_frame|]. unfold sent_so_far. simpl. rewrite uncurtails_snoc. simpl.
  intros <-. destruct a; by rewrite ?app_nil_r || destruct (Ha devices).
Qed.

Lemma silent_neutral a : neutral a = true → K (log a).
Proof. intros Ha. apply silent_log. by intros ds ->. Qed.
#[local] Hint Resolve silent_respects silent_neutral : keeps.
#[local] Hint Extern 1 (Keeps (sent_so_far us) (log _)) => apply silent_log; done : keeps.

Lemma silent_update p f : steady f → K (update p f).
Proof. intros Hf s. split; [by apply update_frame|done]. Qed.
#[local] Hint Extern 1 (Keeps (sent_so_far us) (update _ _)) => apply silent_update; steady : keeps.

Lemma silent_for_each {A} (l : list A) body : (∀ x, K (body x)) → K (for_each l body).
Proof. intros Hb. apply keeps_for_each. auto. Qed.

Lemma silent_writeTargetState d p : K (writeTargetState d p).
Proof. unfold writeTargetState. keep. Qed.
#[local] Hint Resolve silent_writeTargetState : keeps.

Lemma silent_recordFailureGuarded p msg st g : K (recordDispatchFailureGuarded p msg st g).
Proof. unfold recordDispatchFailureGuarded. keep. Qed.
Lemma silent_recordFailure p msg st : K (recordDispatchFailure p msg st).
Proof. apply silent_recordFailureGuarded. Qed.
#[local] Hint Resolve silent_recordFailureGuarded silent_recordFailure : keeps.

Lemma silent_park p c : K (parkUncommandableTopologyRestore p c).
Proof. unfold parkUncommandableTopologyRestore. keep. Qed.
#[local] Hint Resolve silent_park : keeps.
Lemma silent_park_failures cs l : K (park_failures cs l).
Proof. induction l as [|[p why] l IH]; simpl; keep. Qed.
#[local] Hint Resolve silent_park_failures : keeps.
Lemma silent_recordRestoreDispatchFailures l : K (recordRestoreDispatchFailures l).
Proof. unfold recordRestoreDispatchFailures. keep. apply silent_for_each. keep. Qed.
Lemma silent_prewrite_restore claim set : K (prewrite_restore claim set).
Proof. revert set. induction claim as [|p claim IH]; simpl; intros set; keep. Qed.
Lemma silent_park_returned id st ds : K (park_returned id st ds).
Proof. induction ds as [|d ds IH]; simpl; keep. Qed.
Lemma silent_record_restore_dispatch now b p : K (record_restore_dispatch now b p).
Proof. unfold record_restore_dispatch. keep. Qed.
#[local] Hint Resolve silent_recordRestoreDispatchFailures silent_prewrite_restore silent_park_returned
  silent_record_restore_dispatch : keeps.
Lemma silent_record_restores now r l : K (record_restores now r l).
Proof. induction l as [|p l IH]; simpl; keep. Qed.
#[local] Hint Resolve silent_record_restores : keeps.
Lemma silent_record_restore_result ts o : K (record_restore_result ts o).
Proof. unfold record_restore_result. keep. Qed.

End Silent.

#[export] Hint Resolve silent_respects silent_neutral silent_recordFailure silent_prewrite_restore
  silent_park_returned silent_record_restore_result : keeps.

(** ** At most one command *)

Section One.
Context `{ReconcilerEnv} (n : nat).

Definition Silent {A} (m : Rec A) : Prop := ∀ us, Keeps (sent_so_far us) m.

(** The operation sends no Uncurtail, or one to at most [n] devices. *)
Definition sends_one {A} (m : Rec A) : Prop :=
  ∀ s, uncurtails (rs_trace (m s).2) = uncurtails (rs_trace s) ∨
    ∃ ds, uncurtails (rs_trace (m s).2) = uncurtails (rs_trace s) ++ [ds] ∧ ds ≠ [] ∧ (length ds <= n)%nat.

Lemma silent_same {A} (m : Rec A) s : Silent m → uncurtails (rs_trace (m s).2) = uncurtails (rs_trace s).
Proof. intros Hm. by apply (proj2 (Hm (uncurtails (rs_trace s)) s)). Qed.

Lemma one_silent {A} (m : Rec A) : Silent m → sends_one m.
Proof. intros Hm s. left. by apply silent_same. Qed.

Lemma one_after {A B} (m : Rec A) (f : A → Rec B) : Silent m → (∀ a, sends_one (f a)) → sends_one (m ≫= f).
Proof. intros Hm Hf s. rewrite run_bind. rewrite <- (silent_same m s Hm). apply Hf. Qed.

Lemma one_before {A B} (m : Rec A) (f : A → Rec B) : sends_one m → (∀ a, Silent (f a)) → sends_one (m ≫= f).
Proof. intros Hm Hf s. rewrite run_bind. rewrite (silent_same _ _ (Hf _)). apply Hm. Qed.

Lemma one_send ds : ds ≠ [] → (length ds <= n)%nat → sends_one (send (SentUncurtail ds)).
Proof.
  intros Hne Hl s. right. exists ds. split_and!; try done. unfold send. rewrite !run_bind. simpl.
  destruct (rt_error _); simpl; by rewrite uncurtails_snoc.
Qed.

(** The command to the targets of a set that is small enough. *)
Lemma one_send_to {A} l (f : result string (option CommandOutcome) → Rec A) :
  l ≠ [] → (length l <= n)%nat → (∀ r, Silent (f r)) →
  sends_one (devices ← devices_of l; r ← send (SentUncurtail devices); f r).
Proof.
  intros Hne Hl Hf s. rewrite run_bind. cbn [devices_of fst snd]. apply one_before; [|done].
  apply one_send; simpl.
  - intros Hnil. apply Hne. by repeat apply map_eq_nil in Hnil.
  - by rewrite !length_map.
Qed.

Lemma prewrite_restore_length claim set s :
  match (prewrite_restore claim set s).1 with
  | Some set' => (length set' <= length set + length claim)%nat | None => True end.
Proof.
  revert set s. induction claim as [|p claim IH]; intros set s; cbn [prewrite_restore]; [simpl; lia|].
  assert (Hnext : ∀ set0 s0, (length set0 <= S (length set))%nat →
    match (prewrite_restore claim set0 s0).1 with
    | Some set' => (length set' <= length set + length (p :: claim))%nat | None => True end).
  { intros set0 s0 Hl. specialize (IH set0 s0). destruct (prewrite_restore claim set0 s0).1; [simpl; lia|done]. }
  rewrite !run_bind. cbn [read fst snd].
  destruct (writeTargetState _ _ s) as [[[]|[]] s1]; cbn [fst snd]; rewrite ?run_bind; try done;
    apply Hnext; rewrite ?length_app; simpl; lia.
Qed.

(** [Silent] of the operations the library of invariants knows. *)
Ltac silent := repeat (match goal with |- ∀ _, _ => intro end); unfold Silent; intros ?; keep.

Lemma one_restore_in_fence ev ms ts :
  ts ≠ [] → (length ts <= n)%nat → sends_one (restore_in_fence ev ms ts).
Proof.
  intros Hne Hl. unfold restore_in_fence. case_if; [apply one_send_to; [done|done|silent]|].
  apply one_after; [silent|]. intros back. intros s. rewrite run_bind. cbn [select fst snd].
  set (gone := List.filter _ ts). assert (Hg : (length gone <= n)%nat).
  { subst gone. pose proof (filter_length_le (λ p, negb (bool_decide (tg_DeviceIdentifier (cell (rs_mem s) p) ∈ ms))) ts). lia. }
  clearbody gone. revert s. do 3 (apply one_after; [silent|intros ?]).
  case_match; [|apply one_silent; silent].
  destruct gone as [|p gone]; [change (some (@nil nat)) with false; cbv iota; apply one_silent; silent|].
  change (some (p :: gone)) with true. cbv iota. intros s. rewrite run_bind. apply one_before; [|silent]. apply one_before; [|silent]. apply one_send; [done|].
  simpl in *. by rewrite !length_map.
Qed.

Lemma one_fence ts : ts ≠ [] → (length ts <= n)%nat → sends_one (fenceTopologyRestoreDispatch ts).
Proof.
  intros Hne Hl. unfold fenceTopologyRestoreDispatch. apply one_after; [silent|]. intros ev.
  case_if; [apply one_silent; silent|]. case_match; [|apply one_silent; silent].
  case_match; [|apply one_silent; silent]. case_if; [apply one_silent; silent|].
  apply one_after; [silent|]. intros locked. destruct locked as [[latest|]|]; [|apply one_silent; silent..].
  do 2 (case_if; [apply one_silent; silent|]). do 2 (apply one_after; [silent|intros ?]).
  apply one_before; [|silent]. case_match; [by apply one_restore_in_fence|apply one_silent; silent].
Qed.

(** Every result of an operation satisfies [Q]. *)
Definition yields {A} (Q : A → Prop) (m : Rec A) : Prop := ∀ s, Q (m s).1.

Lemma yields_bind {A B} (Q : B → Prop) (m : Rec A) (f : A → Rec B) : (∀ a, yields Q (f a)) → yields Q (m ≫= f).
Proof. intros Hf s. rewrite run_bind. apply Hf. Qed.

Lemma fence_not_fenced ts s :
  (fenceTopologyRestoreDispatch ts s).1 = RestoreNotFenced →
  uncurtails (rs_trace (fenceTopologyRestoreDispatch ts s).2) = uncurtails (rs_trace s).
Proof.
  unfold fenceTopologyRestoreDispatch. rewrite run_bind. cbn [get_event fst snd].
  case_if; [done|]. case_match; [|done]. case_match; [|done]. case_if; [done|].
  assert (Hin : ∀ ev ms, yields (λ o, o ≠ RestoreNotFenced) (restore_in_fence ev ms ts)).
  { intros ev ms. unfold restore_in_fence. case_if;
      repeat (apply yields_bind; intros ?); try (by intros ?). case_match; repeat (apply yields_bind; intros ?); by intros ?. }
  match goal with |- (?m s).1 = _ → _ => assert (Hy : yields (λ o, o ≠ RestoreNotFenced) m) end.
  { apply yields_bind. intros [[latest|]|]; [|by intros ?..]. do 2 (case_if; [by intros ?|]).
    do 2 (apply yields_bind; intros ?). intros s'. rewrite run_bind, run_bind. simpl.
    case_match; [apply Hin|done]. }
  intros Hn. by destruct (Hy s).
Qed.

Lemma one_dispatchRestoreBatch claim : (length claim <= n)%nat → sends_one (dispatchRestoreBatch claim).
Proof.
  intros Hl. unfold dispatchRestoreBatch. apply one_after; [silent|]. intros alive.
  case_if; [apply one_silent; silent|]. intros s. rewrite run_bind.
  rewrite <- (silent_same (prewrite_restore claim []) s) by silent.
  pose proof (prewrite_restore_length claim [] s) as Hp.
  destruct (prewrite_restore claim [] s) as [[[|p set]|] s1]; cbn [fst snd] in *; [by left| |by left].
  revert s1. simpl in Hp. assert (Hset : (length (p :: set) <= n)%nat) by (simpl; lia). set (l := p :: set) in *.
  assert (Hne : l ≠ []) by done. clearbody l. apply one_after; [silent|]. intros alive'.
  case_if; [apply one_silent; silent|]. intros s1. rewrite run_bind.
  pose proof (one_fence l Hne Hset s1) as Hone. pose proof (fence_not_fenced l s1) as Hnot.
  destruct (fenceTopologyRestoreDispatch l s1) as [o s2]; cbn [fst snd] in *. destruct o as [| |msg|ts o].
  - rewrite <- (Hnot eq_refl). apply one_send_to; [done|done|silent].
  - done.
  - rewrite (silent_same (for_each l _) s2); [done|]. intros us. apply silent_for_each. keep.
  - destruct ts as [|q ts]; [done|]. rewrite (silent_same (record_restore_result _ _) s2); [done|silent].
Qed.

End One.

(** ** The theorem *)

Section Paced.
Context `{ReconcilerEnv}.

Lemma claim_batch_positive e : 0 < restoreClaimBatchSize e.
Proof.
  unfold restoreClaimBatchSize, batchSizeForEvent. case_if; [done|]. destruct (ce_EffectiveBatchSize e); [|done].
  case_if; crush_bools; lia.
Qed.


End Paced.
