(* ===== verification/CurtailmentRestoration.v ===== *)
(** * A restoring event ends

    A world for the reconciler in which nobody else writes the tables and the store
    answers, while telemetry and the results of commands are anything. Every pass over
    an event that is restoring then either completes it or uses up some of what its
    targets have left: a dispatch, or an attempt of the retry budget. *)

From S2P Require Import Prelude GoSort Float64 Errors RolloutBehavior AuthzPermissions CommandFilter.
From S2P Require Import CurtailmentModes CurtailmentSelector CurtailmentPreview CurtailmentEvents.
From S2P Require Import CurtailmentDecisions CurtailmentReconciler.
From S2P Require Import CurtailmentPasses CurtailmentTrace CurtailmentPacing.
#[local] Open Scope string_scope.
#[local] Open Scope list_scope.
#[local] Open Scope Z_scope.
#[local] Open Scope go_scope.

(** Nobody interferes, no deadline passes and nothing fails; what is answered is free. *)
Definition calm_turn (turn : RTurn) : Prop :=
  ((∀ db, rt_others turn db = db) ∧ rt_flag turn = false) ∧ rt_error turn = None.

Section Restoration.
Context `{ReconcilerEnv} (e : CurtailmentEvent).
Context (events : gmap Z CurtailmentEvent) (stored : events !! ce_ID e = Some e) (devices : gset string).
Context (restoring : ce_State e = EvRestoring) (no_fans : ce_FacilityFanDeviceIDs e = []).
Context (no_topology : ce_ScopeType e ≠ ScopeTypeMixed).
Context (budget : 0 < cfg_MaxRetries cfg < 2 ^ 31 - 1).

(** The time after which a dispatch has timed out and the next batch may go. *)
Definition patience : Z :=
  Z.max (cfg_RestoreDispatchTimeoutSec cfg * Second + 1) (ce_RestoreBatchIntervalSec e * Second).
Context (timeout : 0 < cfg_RestoreDispatchTimeoutSec cfg) (reachable : patience <= maxDuration).

Definition rows (s : RState) : gmap string Target := target_rows (rs_db s) (ce_ID e).

Record World (s : RState) : Prop := {
  w_calm : Forall calm_turn (rs_turns s);
  w_lock : rs_lock s = None;
  w_event : rs_event s = e;
  w_events : db_events (rs_db s) = events;
  w_free : ∀ d r, rows s !! d = Some r → settled (tg_State r) = false → device_free (rs_db s) (ce_ID e) d = true;
  w_devices : dom (rows s) = devices
}.

Lemma w_stored s : World s → db_events (rs_db s) !! ce_ID e = Some e.
Proof. intros HW. by rewrite (w_events _ HW). Qed.

(** Only time passed. *)
Definition idle (s s' : RState) : Prop :=
  World s' ∧ rows s' = rows s ∧ rs_mem s' = rs_mem s ∧ rs_now s <= rs_now s'.

Lemma idle_refl s : World s → idle s s.
Proof. intros HW. split_and!; done || lia. Qed.

Lemma idle_trans s1 s2 s3 : idle s1 s2 → idle s2 s3 → idle s1 s3.
Proof. intros (W1 & R1 & M1 & N1) (W2 & R2 & M2 & N2). split_and!; [done|congruence..|lia]. Qed.

Lemma take_calm s : World s → calm_turn (take_rturn s).1 ∧ idle s (take_rturn s).2.
Proof.
  intros [C L E S F]. assert (Ht : calm_turn (default quiet_rturn (head (rs_turns s)))).
  { destruct C; [|done]. by split. }
  split; [done|]. unfold take_rturn. simpl. rewrite L. destruct Ht as [[Ho _] _].
  assert (Hdb : rs_db s = rt_others (default quiet_rturn (head (rs_turns s))) (rs_db s)) by (by rewrite Ho).
  unfold idle, rows. simpl. rewrite <- Hdb. split_and!; [|done..|lia].
  split; simpl; rewrite <- ?Hdb; try done. by destruct C.
Qed.

Lemma log_idle a s : World s → idle s (log a s).2.
Proof. intros [C L E S F]. split_and!; [by split|done..|simpl; lia]. Qed.

Lemma ask_idle {A} (f : RTurn → A) s : World s → ∃ v, (ask f s).1 = Ok v ∧ idle s (ask f s).2.
Proof.
  intros HW. unfold ask. rewrite !run_bind. destruct (take_calm s HW) as [[_ Herr] Hi].
  destruct (take_rturn s) as [turn s1]. simpl in *. rewrite Herr. by eexists.
Qed.

(** A read of the tables. *)
Lemma get_idle {A} (q : CurtailDB → A) s :
  World s → ∃ s', store_call (λ _, gets q) s = (Ok (q (rs_db s')), s') ∧ idle s s' ∧ rs_trace s' = rs_trace s.
Proof.
  intros HW. unfold store_call, store_with. rewrite run_bind. destruct (take_calm s HW) as [[_ Herr] Hi].
  assert (Ht : rs_trace (take_rturn s).2 = rs_trace s) by done.
  destruct (take_rturn s) as [turn s1]. simpl in *. rewrite Herr. unfold run_op, gets. simpl.
  exists s1. split_and!; [|done..]. by destruct s1.
Qed.

Lemma alive_idle s : World s → (eventStillDispatchable s).1 = true ∧ idle s (eventStillDispatchable s).2.
Proof.
  intros HW. unfold eventStillDispatchable. rewrite run_bind. cbn [get_event fst snd]. rewrite run_bind.
  destruct (get_idle (GetEventByUUID (ce_OrgID (rs_event s)) (ce_ID (rs_event s))) s HW) as (s1 & -> & Hi & _).
  cbn [fst snd]. destruct Hi as (HW1 & Hrest). unfold GetEventByUUID. rewrite (w_event _ HW), (w_stored _ HW1), Z.eqb_refl.
  cbn [fst snd]. rewrite restoring. split; [done|].
  eapply idle_trans; [split; [exact HW1|exact Hrest]|]. by apply (log_idle SawEvent).
Qed.

(** ** Writes *)

(** What a patch makes of a row. *)
Definition patched (p : UpdateTargetParams) (r r' : Target) : Prop :=
  tg_State r' = up_State p ∧ tg_DesiredState r' = tg_DesiredState r ∧
  tg_RetryCount r' = default (tg_RetryCount r) (up_RetryCount p) ∧
  tg_LastDispatchedAt r' = coalesce (up_LastDispatchedAt p) (tg_LastDispatchedAt r).

Lemma patch_patched now p r : patched p r (patch_target now p r).
Proof. unfold patched, patch_target. by destruct (tg_DesiredState r) eqn:E; simpl. Qed.

Lemma device_free_put db id rows d : device_free (put_rows id rows db) id d = device_free db id d.
Proof.
  apply eq_true_iff_eq. unfold device_free, put_rows. simpl. rewrite !forallb_forall.
  split; intros Hall [k m] Hin%list_elem_of_In%elem_of_map_to_list; destruct (decide (k = id)) as [->|Hne];
    simpl; rewrite ?Z.eqb_refl; try done.
  - apply (Hall (k, m)). apply list_elem_of_In, elem_of_map_to_list. by rewrite lookup_insert_ne.
  - rewrite lookup_insert_ne in Hin by done. apply (Hall (k, m)). by apply list_elem_of_In, elem_of_map_to_list.
Qed.

Lemma world_put s rows' db turns now tr :
  World s → Forall calm_turn turns → db = put_rows (ce_ID e) rows' (rs_db s) →
  dom rows' = dom (rows s) →
  (∀ d r, rows' !! d = Some r → settled (tg_State r) = false → ∃ r0, rows s !! d = Some r0 ∧ settled (tg_State r0) = false) →
  World (s <| rs_db := db |> <| rs_turns := turns |> <| rs_now := now |> <| rs_trace := tr |>).
Proof.
  intros [C L E S F D] Ht -> Hsame Hdom. split; simpl; try done; unfold rows; simpl; rewrite target_rows_put; [|by rewrite Hsame].
  intros d r Hd Hs. rewrite device_free_put.
  destruct (Hdom d r Hd Hs) as (r0 & Hr0 & Hs0). by eapply F.
Qed.

(** A write whose guards hold is done. *)
Lemma calm_write d p s r :
  World s → rows s !! d = Some r → settled (tg_State r) = false →
  matches (up_ExpectedEventState p) EvRestoring = true →
  tg_DesiredState r = DsActive → matches (up_ExpectedDesiredState p) DsActive = true →
  matches (up_ExpectedState p) (tg_State r) = true →
  (∀ b, up_ExpectedDispatchBatchUUID p = Some b → phase_batch r = Some b) →
  ∃ s' r', writeTargetState d p s = (Ok tt, s') ∧ World s' ∧ patched p r r' ∧
    rows s' = <[d := r']> (rows s) ∧ rs_mem s' = rs_mem s ∧ rs_now s <= rs_now s'.
Proof.
  intros HW Hr Hns Hes Hact Hds Hst Hb. unfold writeTargetState. rewrite run_bind. cbn [get_event fst snd].
  rewrite (w_event _ HW), restoring. simpl (expectedDesiredStateForEventState _).
  set (p' := p <| up_ExpectedEventState := _ |> <| up_ExpectedDesiredState := _ |>).
  rewrite run_bind. unfold store_call, store_with. rewrite run_bind.
  destruct (take_calm s HW) as [[_ Herr] (HW1 & Hrows & Hm & Hn)].
  destruct (take_rturn s) as [turn s1]. cbn [fst snd] in *. rewrite Herr.
  assert (Hw : ∀ now, UpdateTargetState now (ce_ID e) d p' (rs_db s1) =
    (Ok tt, put_rows (ce_ID e) (<[d := patch_target now p' r]> (rows s1)) (rs_db s1))).
  { intros now. unfold UpdateTargetState. rewrite (w_stored _ HW1).
    change (target_rows (rs_db s1) (ce_ID e)) with (rows s1). rewrite Hrows, Hr.
    assert (Hp : patch_allowed p' e r = true).
    { unfold patch_allowed, p'. simpl. rewrite restoring, Hact, Hst. simpl.
      assert (He' : matches (coalesce (up_ExpectedEventState p) (Some EvRestoring)) EvRestoring = true)
        by (by destruct (up_ExpectedEventState p)).
      assert (Hd' : matches (coalesce (up_ExpectedDesiredState p) (Some DsActive)) DsActive = true)
        by (by destruct (up_ExpectedDesiredState p)).
      rewrite He', Hd'. simpl. destruct (up_ExpectedDispatchBatchUUID p) as [b|]; [|done].
      apply bool_decide_true. by apply Hb. }
    rewrite Hp. rewrite (w_free _ HW1 d r) by (by rewrite ?Hrows). by rewrite andb_false_r. }
  unfold run_op. rewrite Hw. simpl.
  eexists _, (patch_target (rs_now s1) p' r). split; [reflexivity|]. split_and!.
  - match goal with |- World ?st => change st with (s1 <| rs_db := put_rows (ce_ID e) (<[d := patch_target (rs_now s1) p' r]> (rows s1)) (rs_db s1) |>
      <| rs_turns := rs_turns s1 |> <| rs_now := rs_now s1 |> <| rs_trace := rs_trace st |>) end.
    eapply world_put; [done|apply HW1|reflexivity|apply dom_insert_lookup_L; exists r; by rewrite Hrows|]. intros d' r0 Hd' Hs0. destruct (decide (d' = d)) as [->|Hne].
    + exists r. by rewrite Hrows.
    + rewrite lookup_insert_ne in Hd' by done. by exists r0.
  - apply (patch_patched (rs_now s1) p' r).
  - unfold rows at 1. simpl. rewrite target_rows_put. by rewrite Hrows.
  - done.
  - done.
Qed.

(** ** Targets left to restore *)

(** What a target has left: two for each attempt of its budget, and one while it waits
    for a dispatch. *)
Definition left_of (r : Target) : Z :=
  if settled (tg_State r) then 0
  else 2 * (cfg_MaxRetries cfg - tg_RetryCount r) + (if tg_State r == TgDispatched then 0 else 1).

(** The row of a target that is being restored, or is settled. *)
Definition sound (r : Target) : Prop :=
  settled (tg_State r) = true ∨
  tg_DesiredState r = DsActive ∧ 0 <= tg_RetryCount r < cfg_MaxRetries cfg ∧
  (tg_State r = TgPending ∨ tg_State r = TgDispatching ∨
   tg_State r = TgDispatched ∧ is_Some (tg_LastDispatchedAt r)).

(** No dispatch of it is later than [T]. *)
Definition by_time (T : Z) (r : Target) : Prop := ∀ at_, tg_LastDispatchedAt r = Some at_ → at_ <= T.

(** The copy in memory has what the restore reads of the row. *)
Definition mirrors (t r : Target) : Prop :=
  tg_State t = tg_State r ∧ tg_DesiredState t = tg_DesiredState r ∧ tg_RetryCount t = tg_RetryCount r ∧
  tg_LastDispatchedAt t = tg_LastDispatchedAt r.

Definition linked (s : RState) (p : nat) (t r : Target) : Prop :=
  rs_mem s !! p = Some t ∧ rows s !! tg_DeviceIdentifier t = Some r ∧ mirrors t r.

(** One target moved on: its row and its copy, with at least [k] less left. *)
Record moves (T k : Z) (N : Target → Prop) (p : nat) (s s' : RState) : Prop := {
  mv_world : World s';
  mv_now : rs_now s <= rs_now s';
  mv_row : ∃ t r t' r', linked s p t r ∧ rs_mem s' !! p = Some t' ∧ tg_DeviceIdentifier t' = tg_DeviceIdentifier t ∧
    mirrors t' r' ∧ rows s' = <[tg_DeviceIdentifier t := r']> (rows s) ∧ sound r' ∧ left_of r' + k <= left_of r ∧ N r' ∧
    by_time T r';
  mv_others : ∀ q, q ≠ p → rs_mem s' !! q = rs_mem s !! q
}.

Lemma update_world p f s : World s → World (update p f s).2.
Proof. intros [C L E S F]. by split. Qed.

(** A write of a row that is mirrored. *)
Lemma write_moves T k N p params f s t r :
  World s → linked s p t r → settled (tg_State r) = false → steady f →
  matches (up_ExpectedEventState params) EvRestoring = true →
  tg_DesiredState r = DsActive → matches (up_ExpectedDesiredState params) DsActive = true →
  matches (up_ExpectedState params) (tg_State r) = true →
  (∀ b, up_ExpectedDispatchBatchUUID params = Some b → phase_batch r = Some b) →
  (∀ r', patched params r r' → mirrors (f t) r' ∧ sound r' ∧ left_of r' + k <= left_of r ∧ N r' ∧ by_time T r') →
  ∃ s1, writeTargetState (tg_DeviceIdentifier t) params s = (Ok tt, s1) ∧ moves T k N p s (update p f s1).2.
Proof.
  intros HW (Hl & Hr & Hm) Hns Hf Hes Hact Hds Hst Hb Hnew.
  destruct (calm_write _ _ _ _ HW Hr Hns Hes Hact Hds Hst Hb) as (s1 & r' & Hw & HW1 & Hp & Hrows & Hmem & Hnow).
  exists s1. split; [done|]. destruct (Hnew r' Hp) as (Hm' & Hs' & Hl' & HN' & HT').
  split; [by apply update_world|simpl; lia| |].
  - exists t, r, (f t), r'. split_and!; try done; simpl.
    + by rewrite list_lookup_alter_eq, Hmem, Hl.
    + apply Hf.
  - intros q Hq. simpl. by rewrite list_lookup_alter_ne, Hmem.
Qed.

(** A failed attempt. *)
Definition waits (r : Target) : Prop := tg_State r = TgPending ∨ tg_State r = TgRestoreFailed.

Lemma failure_moves T p msg s t r b :
  World s → linked s p t r → sound r → settled (tg_State r) = false → by_time T r →
  (b = None ∨ b = phase_batch r) →
  moves T 1 waits p s (recordDispatchFailureGuarded p msg TgPending (Some (tg_State r, b)) s).2.
Proof.
  intros HW Hlk Hsound Hns HT Hb. destruct Hsound as [?|(Hact & Hretry & Hstate)]; [congruence|].
  pose proof Hlk as (Hl & Hr & Hms & Hmd & Hmr & Hma).
  unfold recordDispatchFailureGuarded. rewrite run_bind. cbn [get_event fst snd]. rewrite run_bind. cbn [read fst snd].
  assert (Hc : cell (rs_mem s) p = t) by (unfold cell; by rewrite Hl). rewrite Hc. cbv zeta.
  assert (Hn : int32 (tg_RetryCount t + 1) = tg_RetryCount r + 1).
  { rewrite Hmr. apply int32_id. unfold fits32. lia. }
  rewrite Hn. rewrite run_bind.
  assert (Hterm : retryBudgetTerminalizes cfg t (tg_RetryCount r + 1) = (cfg_MaxRetries cfg <=? tg_RetryCount r + 1)).
  { unfold retryBudgetTerminalizes, maxRetriesForTarget, isCurtailRetryTarget. by rewrite Hmd, Hact. }
  rewrite Hterm. set (st := if cfg_MaxRetries cfg <=? tg_RetryCount r + 1 then TgRestoreFailed else TgPending).
  match goal with |- context [writeTargetState _ ?ps s] => set (params := ps) end.
  edestruct (write_moves T 1 waits p params (λ t0, t0 <| tg_State := st |> <| tg_RetryCount := tg_RetryCount r + 1 |>
    <| tg_LastError := Some msg |>) s t r HW Hlk) as (s1 & Hw & Hmv); try done.
  - subst params. simpl. by rewrite Hmd, Hact.
  - subst params. simpl. by destruct (tg_State r).
  - subst params. simpl. intros b' Hb'. destruct Hb as [->| ->]; [done|]. by rewrite Hb'.
  - intros r' (Hs' & Hd' & Hr' & Ha'). simpl in *. unfold mirrors, sound, left_of, waits, by_time. simpl.
    rewrite Hs', Hd', Hr', Ha', Hns. subst st.
    destruct (cfg_MaxRetries cfg <=? tg_RetryCount r + 1) eqn:Ec; simpl.
    + split_and!; try done; [by left| |by right]. destruct (tg_State r == TgDispatched); lia.
    + apply Z.leb_gt in Ec. split_and!; try done; [right; split_and!; [done|lia|lia|by left]| |by left].
      destruct (tg_State r == TgDispatched); lia.
  - rewrite Hw. exact Hmv.
Qed.

(** ** All targets *)

Definition total_left (m : gmap string Target) : Z :=
  map_fold (λ _ r n, left_of r + n) 0 m.

Lemma total_left_delete m d r : m !! d = Some r → total_left m = left_of r + total_left (delete d m).
Proof. intros Hd. unfold total_left. apply (map_fold_delete_L (λ _ r n, left_of r + n)); [intros; lia|done]. Qed.

Lemma total_left_insert m d r r' :
  m !! d = Some r → total_left (<[d := r']> m) = total_left m - left_of r + left_of r'.
Proof.
  intros Hd. rewrite (total_left_delete m d r Hd).
  rewrite (total_left_delete (<[d := r']> m) d r') by apply lookup_insert_eq.
  rewrite delete_insert_eq. lia.
Qed.

Lemma left_of_bound r : sound r → 0 <= left_of r <= 2 * cfg_MaxRetries cfg + 1.
Proof.
  intros Hs. unfold left_of. destruct (settled (tg_State r)) eqn:E; [lia|].
  destruct Hs as [?|(_ & Hr & _)]; [congruence|]. destruct (_ == _); lia.
Qed.

(** The pass over its targets [ps]: rows and copies agree. *)
Record Restores (T : Z) (ps : list nat) (s : RState) : Prop := {
  rp_world : World s;
  rp_linked : ∀ p, p ∈ ps → ∃ t r, linked s p t r;
  rp_distinct : ∀ p q t u, p ∈ ps → q ∈ ps → rs_mem s !! p = Some t → rs_mem s !! q = Some u →
    tg_DeviceIdentifier t = tg_DeviceIdentifier u → p = q;
  rp_sound : ∀ d r, rows s !! d = Some r → sound r ∧ by_time T r;
  rp_all : ∀ d r, rows s !! d = Some r → ∃ p t, p ∈ ps ∧ rs_mem s !! p = Some t ∧ tg_DeviceIdentifier t = d
}.

(** What another target's move leaves. *)
Lemma moves_other T k N ps p q s s' t r :
  Restores T ps s → moves T k N p s s' → p ∈ ps → q ∈ ps → q ≠ p → linked s q t r → linked s' q t r.
Proof.
  intros HR [_ _ (tp & rp & t' & r' & (Hlp & _) & _ & _ & _ & Hrows & _) Hoth] Hp Hq Hne (Hl & Hr & Hm).
  split_and!; [by rewrite Hoth| |done]. rewrite Hrows, lookup_insert_ne; [done|].
  intros Hd. apply Hne. symmetry. by eapply (rp_distinct T ps s HR p q).
Qed.

Lemma moves_restores T k N ps p s s' :
  Restores T ps s → moves T k N p s s' → p ∈ ps →
  Restores T ps s' ∧ total_left (rows s') + k <= total_left (rows s).
Proof.
  intros HR Hmv Hp. pose proof Hmv as [HW' _ (tp & rp & t' & r' & (Hlp & Hrp & _) & Hlp' & Hdev & Hm' & Hrows & Hs' & Hlt & _ & HT) Hoth].
  split; [|rewrite Hrows, (total_left_insert _ _ _ _ Hrp); lia]. split; [done|..].
  - intros q Hq. destruct (decide (q = p)) as [->|Hne].
    + exists t', r'. split_and!; [done| |done]. rewrite Hrows, Hdev. by rewrite lookup_insert_eq.
    + destruct (rp_linked T ps s HR q Hq) as (t & r & Hlk). exists t, r. by eapply moves_other.
  - assert (Hsame : ∀ q t, rs_mem s' !! q = Some t → ∃ u, rs_mem s !! q = Some u ∧ tg_DeviceIdentifier u = tg_DeviceIdentifier t).
    { intros q t Hq. destruct (decide (q = p)) as [->|Hne]; [|rewrite Hoth in Hq by done; by exists t].
      exists tp. split; [done|]. congruence. }
    intros q1 q2 t u Hq1 Hq2 Ht Hu Hd. destruct (Hsame q1 t Ht) as (t0 & Ht0 & Hd1). destruct (Hsame q2 u Hu) as (u0 & Hu0 & Hd2).
    eapply (rp_distinct T ps s HR q1 q2); eauto. congruence.
  - intros d r Hr. rewrite Hrows in Hr. destruct (decide (d = tg_DeviceIdentifier tp)) as [->|Hne].
    + rewrite lookup_insert_eq in Hr. by simplify_eq.
    + rewrite lookup_insert_ne in Hr by done. by eapply (rp_sound T ps s HR).
  - intros d r Hr. rewrite Hrows in Hr. destruct (decide (d = tg_DeviceIdentifier tp)) as [->|Hne]; [by exists p, t'|].
    rewrite lookup_insert_ne in Hr by done. destruct (rp_all T ps s HR d r Hr) as (q & t & Hq & Ht & Hd).
    exists q, t. split_and!; try done. rewrite Hoth; [done|]. intros ->. congruence.
Qed.

(** Idle steps leave everything. *)
Lemma idle_restores T ps s s' : idle s s' → Restores T ps s → Restores T ps s'.
Proof.
  intros (HW & Hr & Hm & _) [_ L D S A]. split; try done; unfold linked in *; rewrite ?Hr, ?Hm; done.
Qed.

(** ** Confirmation *)

Lemma timed_out T t now at_ :
  tg_LastDispatchedAt t = Some at_ → at_ <= T → T + patience <= now →
  dispatch_timed_out (cfg_RestoreDispatchTimeoutSec cfg) t now = true.
Proof.
  intros Hat HT Hnow. unfold dispatch_timed_out. rewrite Hat. unfold patience in *.
  rewrite int64_id by (unfold fits64, maxDuration, Second in *; lia).
  unfold time_Sub, minDuration. apply andb_true_iff. split; apply Z.ltb_lt; [done|].
  unfold maxDuration in *. lia.
Qed.

(** The copy is the row. *)
Definition exact (s : RState) (p : nat) : Prop :=
  ∃ t r, rs_mem s !! p = Some t ∧ rows s !! tg_DeviceIdentifier t = Some r ∧ t = loaded (tg_DeviceIdentifier t) r.

Lemma exact_linked s p t r : rs_mem s !! p = Some t → rows s !! tg_DeviceIdentifier t = Some r →
  t = loaded (tg_DeviceIdentifier t) r → linked s p t r ∧ phase_batch t = phase_batch r.
Proof. intros Hl Hr Ht. split; [split_and!; try done|]; rewrite Ht; [by split_and!|done]. Qed.

Definition not_sent (r : Target) : Prop := tg_State r ≠ TgDispatched.

Lemma moves_weaken T k (N N' : Target → Prop) p s s' : (∀ r, N r → N' r) → moves T k N p s s' → moves T k N' p s s'.
Proof.
  intros HN [W Nw (t & r & t' & r' & ? & ? & ? & ? & ? & ? & ? & ? & ?) O]. split; try done.
  exists t, r, t', r'. split_and!; auto.
Qed.

Lemma waits_not_sent r : waits r → not_sent r.
Proof. unfold waits, not_sent. intros [->| ->]; done. Qed.

(** A dispatched target leaves its state: restored, or an attempt is used up. *)
Lemma confirm_restore_moves T ps p c s t r :
  Restores T ps s → T + patience <= rs_now s → p ∈ ps →
  rs_mem s !! p = Some t → rows s !! tg_DeviceIdentifier t = Some r → t = loaded (tg_DeviceIdentifier t) r →
  tg_State t = TgDispatched → moves T 1 not_sent p s (confirm_restore p c s).2.
Proof.
  intros HR Hnow Hp Hl Hr Hex Hst. destruct (exact_linked s p t r Hl Hr Hex) as [Hlk Hbatch].
  pose proof Hlk as (_ & _ & Hms & Hmd & Hmr & Hma). pose proof (rp_world _ _ _ HR) as HW.
  destruct (rp_sound _ _ _ HR _ _ Hr) as [Hsound HT].
  assert (Hrst : tg_State r = TgDispatched) by congruence.
  assert (Hns : settled (tg_State r) = false) by (by rewrite Hrst).
  pose proof Hsound as [?|(Hact & Hretry & [?|[?|[_ [at_ Hat]]]])]; try congruence.
  assert (Hc : cell (rs_mem s) p = t) by (unfold cell; by rewrite Hl).
  assert (Hfail : ∀ msg, moves T 1 not_sent p s (recordDispatchedObservationFailure p msg TgPending s).2).
  { intros msg. unfold recordDispatchedObservationFailure. rewrite run_bind. cbn [read fst snd]. rewrite Hc.
    eapply moves_weaken; [apply waits_not_sent|]. unfold loadedDispatchBatchUUID. rewrite Hbatch, <- Hrst.
    by apply (failure_moves T p msg s t r (phase_batch r)); auto. }
  unfold confirm_restore. rewrite run_bind. cbn [read fst snd]. rewrite Hc. destruct c as [c|]; [|apply Hfail].
  rewrite run_bind. cbn [clock fst snd]. destruct (isRestored _ _ _ _); cbn [negb].
  - rewrite run_bind.
    match goal with |- context [writeTargetState _ ?ps s] => set (params := ps) end.
    match goal with |- context [update p ?g] => set (f := g) end.
    edestruct (write_moves T 1 not_sent p params f s t r HW Hlk) as (s1 & Hw & Hmv); try done.
    + subst params. simpl. by rewrite Hrst.
    + subst params. simpl. intros b Hb. unfold loadedDispatchBatchUUID in Hb. congruence.
    + intros r' (Hs' & Hd' & Hr' & Ha'). simpl in *. unfold mirrors, sound, left_of, not_sent, by_time. simpl.
      rewrite Hs', Hd', Hr', Ha', Hns, Hrst. simpl. split_and!; try done; [by left|lia].
    + rewrite Hw. exact Hmv.
  - rewrite (timed_out T t (rs_now s) at_); [apply Hfail|congruence|by apply HT|done].
Qed.

Lemma plain_scope : isAllPairedTopologyPolicyEvent e = false.
Proof.
  unfold isAllPairedTopologyPolicyEvent, isClosedLoopTopologyEvent, listCandidatesParamsForEventScope.
  repeat case_if; rewrite ?andb_false_r; try done.
  destruct (ce_ScopeSiteID e) as [site|]; simpl; [|by rewrite !andb_false_r].
  case_if; by rewrite !andb_false_r.
Qed.

Definition waiting (t : Target) : bool := (tg_DesiredState t == DsActive) && (tg_State t == TgDispatched).

Definition confirm_step (cands : list MinerCandidate) (p : nat) : Rec unit :=
  t ← read p;
  if negb (waiting t) then mret tt else confirmOneRestore p (candidate_of cands (tg_DeviceIdentifier t)).

(** How far the pass got with the targets [l]: at least [k] less is left, and nothing
    else changed. *)
Record onward (T k : Z) (ps l : list nat) (s s' : RState) : Prop := {
  on_restores : Restores T ps s';
  on_less : total_left (rows s') + k <= total_left (rows s);
  on_now : rs_now s <= rs_now s';
  on_rest : ∀ q, q ∉ l → rs_mem s' !! q = rs_mem s !! q;
  on_rows : ∀ q t, q ∈ ps → q ∉ l → rs_mem s !! q = Some t →
    rows s' !! tg_DeviceIdentifier t = rows s !! tg_DeviceIdentifier t
}.

Lemma onward_idle T ps l s s' : Restores T ps s → idle s s' → onward T 0 ps l s s'.
Proof.
  intros HR Hi. pose proof (idle_restores _ _ _ _ Hi HR) as HR'. destruct Hi as (_ & Hr & Hm & Hn).
  split; try done; rewrite ?Hr, ?Hm; done || lia.
Qed.

Lemma onward_trans T k k' ps l l' s1 s2 s3 :
  onward T k ps l s1 s2 → onward T k' ps l' s2 s3 → onward T (k + k') ps (l ++ l') s1 s3.
Proof.
  intros [R1 L1 N1 M1 W1] [R2 L2 N2 M2 W2]. split; try done; [lia|lia|..].
  - intros q [Hq1 Hq2]%not_elem_of_app. by rewrite M2, M1.
  - intros q t Hq [Hq1 Hq2]%not_elem_of_app Ht. rewrite (W2 q t), (W1 q t); try done. by rewrite M1.
Qed.

Lemma onward_weaken T k k' ps l l' s s' : k' <= k → l ⊆ l' → onward T k ps l s s' → onward T k' ps l' s s'.
Proof.
  intros Hk Hl [R L N M W]. split; try done; [lia|..].
  - intros q Hq. apply M. intros Hin. by apply Hq, Hl.
  - intros q t Hq Hn. apply W; [done|]. intros Hin. by apply Hn, Hl.
Qed.

Lemma onward_move T k N ps p s s' : Restores T ps s → p ∈ ps → moves T k N p s s' → onward T k ps [p] s s'.
Proof.
  intros HR Hp Hmv. destruct (moves_restores T k N ps p s s' HR Hmv Hp) as [HR' Hlt].
  split; [done|lia|apply Hmv| |].
  - intros q Hq. apply (mv_others _ _ _ _ _ _ Hmv). intros ->. apply Hq. by left.
  - intros q t Hq Hn Ht. destruct Hmv as [_ _ (tp & rp & t' & r' & (Hlp & _) & _ & _ & _ & Hrows & _) _].
    rewrite Hrows, lookup_insert_ne; [done|]. intros Hd. apply Hn. apply list_elem_of_singleton. symmetry.
    by eapply (rp_distinct _ _ _ HR p q).
Qed.

(** Targets that were not touched keep their link. *)
Lemma linked_kept T k ps l s s' q t r :
  onward T k ps l s s' → q ∈ ps → q ∉ l → linked s q t r → linked s' q t r.
Proof.
  intros Hon Hq Hn (Hl & Hr & Hm). split_and!; [by rewrite (on_rest _ _ _ _ _ _ Hon)| |done].
  by rewrite (on_rows _ _ _ _ _ _ Hon q t).
Qed.

(** A loop whose steps each get [k] further with their target. *)
Lemma for_each_onward {A} T k ps (Q : RState → nat → Prop) (N : Target → Prop) (key : A → nat) body (l : list A) s :
  (∀ s s' p q, Q s q → Restores T ps s → onward T k ps [p] s s' → q ∈ ps → q ≠ p → Q s' q) →
  (∀ s x, Restores T ps s → key x ∈ ps → Q s (key x) →
     onward T k ps [key x] s (body x s).2 ∧ ∀ t, rs_mem (body x s).2 !! key x = Some t → N t) →
  Restores T ps s → NoDup (map key l) → map key l ⊆ ps → (∀ x, x ∈ l → Q s (key x)) →
  onward T (k * Z.of_nat (length l)) ps (map key l) s (for_each l body s).2 ∧
  ∀ x t, x ∈ l → rs_mem (for_each l body s).2 !! key x = Some t → N t.
Proof.
  intros HQ Hbody. revert s. induction l as [|x l IH]; intros s HR Hnd Hsub Hall; cbn [for_each].
  { split; [|by intros p t Hp%elem_of_nil]. eapply onward_weaken; [|done|apply onward_idle; [done|apply idle_refl, HR]].
    simpl. lia. }
  rewrite run_bind. simpl in Hnd. apply NoDup_cons in Hnd as [Hp Hnd].
  assert (Hpp : key x ∈ ps) by (apply Hsub; by left).
  destruct (Hbody s x HR Hpp) as [Hon HN]; [apply Hall; by left|].
  set (s1 := (body x s).2) in *. destruct (IH s1) as [Hon2 HN2]; [apply Hon|done|intros y Hy; apply Hsub; by right| |].
  { intros y Hy. assert (Hky : key y ∈ map key l) by (by apply list_elem_of_fmap_2).
    apply (HQ s s1 (key x) (key y)); try done; [apply Hall; by right|apply Hsub; by right|]. intros Heq. by rewrite Heq in Hky. }
  split.
  - eapply onward_weaken; [|reflexivity|by eapply (onward_trans T k (k * Z.of_nat (length l)) ps [key x] (map key l))].
    simpl. lia.
  - intros y t [->|Hy]%elem_of_cons Ht; [|by eapply HN2]. apply HN. rewrite <- (on_rest _ _ _ _ _ _ Hon2); done.
Qed.

Definition ready_to_confirm (T : Z) (s : RState) (p : nat) : Prop := exact s p ∧ T + patience <= rs_now s.

Lemma ready_kept T ps s s' p q :
  ready_to_confirm T s q → Restores T ps s → onward T 0 ps [p] s s' → q ∈ ps → q ≠ p → ready_to_confirm T s' q.
Proof.
  intros [(t & r & Hl & Hr & Hex) Hnow] HR Hon Hq Hne. split; [|pose proof (on_now _ _ _ _ _ _ Hon); lia].
  assert (Hq' : q ∉ [p]) by (by intros ?%list_elem_of_singleton).
  exists t, r. split_and!; [by rewrite (on_rest _ _ _ _ _ _ Hon)|by rewrite (on_rows _ _ _ _ _ _ Hon q t)|done].
Qed.

Lemma confirm_step_onward T ps cands s p :
  Restores T ps s → p ∈ ps → ready_to_confirm T s p →
  onward T 0 ps [p] s (confirm_step cands p s).2 ∧
  ∀ t, rs_mem (confirm_step cands p s).2 !! p = Some t → not_sent t.
Proof.
  intros HR Hp [(t & r & Hl & Hr & Hex) Hnow]. unfold confirm_step. rewrite run_bind. cbn [read fst snd].
  assert (Hc : cell (rs_mem s) p = t) by (unfold cell; by rewrite Hl). rewrite Hc.
  destruct (exact_linked s p t r Hl Hr Hex) as [(_ & _ & Hms & Hmd & _) _].
  destruct (waiting t) eqn:Ew; cbn [negb].
  - unfold waiting in Ew. crush_bools. unfold confirmOneRestore. rewrite run_bind. cbn [get_event fst snd].
    rewrite (w_event _ (rp_world _ _ _ HR)), plain_scope, run_bind. cbn [fst snd]. rewrite run_ret. cbn [fst snd].
    assert (Hmv : moves T 1 not_sent p s (confirm_restore p (candidate_of cands (tg_DeviceIdentifier t)) s).2)
      by (by eapply confirm_restore_moves).
    split; [eapply onward_weaken; [|reflexivity|by eapply onward_move]; lia|]. intros t1 Ht1.
    destruct Hmv as [_ _ (t0 & r0 & t' & r' & _ & Hl' & _ & (Hs' & _) & _ & _ & _ & HN & _) _].
    unfold not_sent in *. congruence.
  - split; [apply onward_idle; [done|apply idle_refl, HR]|]. simpl. intros t1 Ht1 Hs1. simplify_eq.
    destruct (rp_sound _ _ _ HR _ _ Hr) as [[Hset|(Hact & _)] _].
    + rewrite <- Hms, Hs1 in Hset. done.
    + unfold waiting in Ew. rewrite Hmd, Hact, Hs1 in Ew. done.
Qed.

Lemma candidates_idle ds s :
  World s → ∃ cands, (candidates_of_devices ds s).1 = Ok cands ∧ idle s (candidates_of_devices ds s).2.
Proof.
  intros HW. unfold candidates_of_devices, ListCandidatesCall. rewrite run_bind. cbn [get_event fst snd]. rewrite run_bind.
  destruct (ask_idle rt_candidates s HW) as (cands & Hv & Hi). destruct (ask rt_candidates s) as [v s1].
  simpl in Hv, Hi |- *. rewrite Hv. exists cands. split; [done|]. eapply idle_trans; [done|].
  apply (log_idle (ReadCandidates _ cands)). apply Hi.
Qed.

(** After the confirmations no restore is in flight. *)
Lemma confirmations_onward T ps s :
  Restores T ps s → T + patience <= rs_now s → NoDup ps → (∀ p, p ∈ ps → exact s p) →
  onward T 0 ps ps s (confirmDispatchedRestores ps s).2 ∧
  ∀ p t, p ∈ ps → rs_mem (confirmDispatchedRestores ps s).2 !! p = Some t → not_sent t.
Proof.
  intros HR Hnow Hnd Hex. unfold confirmDispatchedRestores. rewrite run_bind. cbn [select fst snd].
  rewrite run_bind. cbn [devices_of fst snd].
  set (w := List.filter _ ps). change ((devices_of w s).2) with s. destruct (some w) eqn:Esome; cbn [negb].
  - rewrite run_bind.
    match goal with |- context [candidates_of_devices ?ds ?st] =>
      destruct (candidates_idle ds st (rp_world _ _ _ HR)) as (cands & Hc & Hi); destruct (candidates_of_devices ds st) as [v s1] end.
    cbn [fst snd] in *. rewrite Hc. change (onward T 0 ps ps s (for_each ps (confirm_step cands) s1).2 ∧
      ∀ p t, p ∈ ps → rs_mem (for_each ps (confirm_step cands) s1).2 !! p = Some t → not_sent t).
    pose proof (idle_restores _ _ _ _ Hi HR) as HR1. destruct Hi as (HW1 & Hrows & Hmem & Hn).
    destruct (for_each_onward T 0 ps (ready_to_confirm T) not_sent (λ p, p) (confirm_step cands) ps s1) as [Hon HN]; try done.
    + intros. by eapply ready_kept.
    + intros s2 p HR2 Hp Hq. by apply confirm_step_onward.
    + by rewrite map_id.
    + by rewrite map_id.
    + intros p Hp. destruct (Hex p Hp) as (t & r & Hl & Hr & Ht). split; [|lia]. exists t, r. by rewrite Hmem, Hrows.
    + rewrite map_id in Hon. split; [|done]. destruct Hon as [R L N M W]. rewrite Hrows in L, W. rewrite Hmem in M, W.
      split; try done; lia.
  - split; [apply onward_idle; [done|apply idle_refl, HR]|]. intros p t Hp Hl Hs. simpl in Hl.
    destruct (Hex p Hp) as (t0 & r & Hl0 & Hr & Ht0). simplify_eq.
    destruct (exact_linked s p t r Hl Hr Ht0) as [(_ & _ & Hms & Hmd & _) _].
    destruct (rp_sound _ _ _ HR _ _ Hr) as [[Hset|(Hact & _)] _].
    { rewrite <- Hms, Hs in Hset. done. }
    assert (Hin : p ∈ w).
    { apply list_elem_of_In, filter_In. split; [by apply list_elem_of_In|]. unfold cell. rewrite Hl. simpl.
      by rewrite Hmd, Hact, Hs. }
    destruct w; [by apply elem_of_nil in Hin|done].
Qed.

(** ** Completion *)

(** The event is over, and the reconciler still undisturbed. *)
Definition ended (s : RState) : Prop :=
  Forall calm_turn (rs_turns s) ∧ rs_lock s = None ∧
  ∃ ev, db_events (rs_db s) = <[ce_ID e := ev]> events ∧ IsTerminal (ce_State ev) = true.

Lemma complete_spec T ps s :
  Restores T ps s →
  let all := forallb (λ p, settled (tg_State (cell (rs_mem s) p))) ps in
  (maybeCompleteRestoring ps s).1 = all ∧
  if all then ended (maybeCompleteRestoring ps s).2 ∧ rows (maybeCompleteRestoring ps s).2 = rows s
  else (maybeCompleteRestoring ps s).2 = s.
Proof.
  intros HR all. pose proof (rp_world _ _ _ HR) as HW. unfold maybeCompleteRestoring.
  rewrite run_bind. cbn [get_event fst snd]. rewrite run_bind. cbn [reads fst snd]. rewrite run_bind. cbn [clock fst snd].
  rewrite (w_event _ HW). unfold restoring_outcome. rewrite no_fans. cbn [some length]. simpl (_ && _). cbv iota.
  assert (Hall : forallb (λ t, settled (tg_State t)) (map (cell (rs_mem s)) ps) = all).
  { subst all. clear. induction ps as [|p l IH]; simpl; [done|]. by rewrite IH. }
  rewrite Hall. destruct all; cbn [negb]; [|done].
  assert (Hend : ∀ st, IsTerminal st = true →
    let m := _ ← move_event st None (Some (rs_now s)); mret true in
    (m s).1 = true ∧ ended (m s).2 ∧ rows (m s).2 = rows s).
  { intros st Hst m. unfold m, move_event. rewrite !run_bind. cbn [get_event fst snd].
    unfold store_call, store_with. rewrite !run_bind. destruct (take_calm s HW) as [[_ Herr] (HW1 & Hrows & _)].
    destruct (take_rturn s) as [turn s1]. cbn [fst snd] in *. rewrite Herr. unfold run_op, UpdateEventState.
    rewrite (w_event _ HW), (w_stored _ HW1), restoring. simpl. split_and!; [done| |by rewrite <- Hrows].
    split_and!; [apply HW1|apply HW1|]. eexists. simpl. by rewrite (w_events _ HW1). }
  case_if; by apply Hend.
Qed.

(** ** Dispatch of a batch *)

Definition startable (s : RState) (p : nat) : Prop :=
  ∃ t r, linked s p t r ∧ (tg_State t = TgPending ∨ tg_State t = TgDispatching).
Definition in_hand (s : RState) (p : nat) : Prop := ∃ t r, linked s p t r ∧ tg_State t = TgDispatching.

Lemma startable_sound T ps s t r p :
  Restores T ps s → linked s p t r → (tg_State t = TgPending ∨ tg_State t = TgDispatching) →
  settled (tg_State r) = false ∧ tg_DesiredState r = DsActive ∧ 0 <= tg_RetryCount r < cfg_MaxRetries cfg ∧
  (tg_State r == TgDispatched) = false ∧ by_time T r ∧ sound r.
Proof.
  intros HR (Hl & Hr & Hms & _) Hst. destruct (rp_sound _ _ _ HR _ _ Hr) as [Hsd HT]. rewrite Hms in Hst.
  pose proof Hsd as [Hset|(Hact & Hretry & _)]; [by destruct Hst as [Hs|Hs]; rewrite Hs in Hset|].
  split_and!; try done; try lia; by destruct Hst as [-> | ->].
Qed.

Lemma moves_new T k N ps p s s' : Restores T ps s' → moves T k N p s s' → ∃ t r, linked s' p t r ∧ N r.
Proof.
  intros HR [_ _ (t & r & t' & r' & _ & Hl' & Hd & Hm' & Hrows & _ & _ & HN & _) _]. exists t', r'.
  split; [|done]. split_and!; [done| |done]. rewrite Hrows, Hd. by rewrite lookup_insert_eq.
Qed.

Lemma prewrite_moves T ps p s t r :
  Restores T ps s → linked s p t r → (tg_State t = TgPending ∨ tg_State t = TgDispatching) →
  ∃ s1, writeTargetState (tg_DeviceIdentifier t) ((to_state TgDispatching)
          <| up_ExpectedDesiredState := Some DsActive |> <| up_ExpectedState := Some (tg_State t) |>) s = (Ok tt, s1) ∧
    moves T 0 (λ r', tg_State r' = TgDispatching) p s (update p (λ t, t <| tg_State := TgDispatching |>) s1).2.
Proof.
  intros HR Hlk Hst. destruct (startable_sound _ _ _ _ _ _ HR Hlk Hst) as (Hns & Hact & Hretry & Hnd & HT & _).
  pose proof Hlk as (_ & _ & Hms & Hmd & Hmr & Hma).
  eapply (write_moves T 0); try done; [apply HR|simpl; rewrite Hms; by destruct (tg_State r)|].
  intros r' (Hs' & Hd' & Hr' & Ha'). simpl in *. unfold mirrors, sound, left_of, by_time. simpl.
  rewrite Hs', Hd', Hr', Ha', Hns, Hnd. simpl. split_and!; try done; [|lia]. right. split_and!; try done; [lia..|].
  right. by left.
Qed.

Lemma prewrite_all T ps l set s :
  Restores T ps s → NoDup l → l ⊆ ps → (∀ p, p ∈ l → startable s p) →
  (prewrite_restore l set s).1 = Some (set ++ l) ∧
  onward T 0 ps l s (prewrite_restore l set s).2 ∧ ∀ p, p ∈ l → in_hand (prewrite_restore l set s).2 p.
Proof.
  revert set s. induction l as [|p l IH]; intros set s HR Hnd Hsub Hall; cbn [prewrite_restore].
  { rewrite app_nil_r. split_and!; [done|apply onward_idle; [done|apply idle_refl, HR]|by intros p Hp%elem_of_nil]. }
  apply NoDup_cons in Hnd as [Hp Hnd]. assert (Hpp : p ∈ ps) by (apply Hsub; by left).
  destruct (Hall p) as (t & r & Hlk & Hst); [by left|].
  destruct (prewrite_moves T ps p s t r HR Hlk Hst) as (s1 & Hw & Hmv).
  rewrite run_bind. cbn [read fst snd]. assert (Hc : cell (rs_mem s) p = t) by (unfold cell; by rewrite (proj1 Hlk)).
  rewrite Hc, run_bind, Hw. cbn [fst snd]. rewrite run_bind. set (s2 := (update _ _ s1).2) in *.
  pose proof (onward_move T 0 _ ps p s s2 HR Hpp Hmv) as Hon.
  destruct (IH (set ++ [p]) s2) as (Hres & Hon2 & Hhand); [apply Hon|done|intros x Hx; apply Hsub; by right| |].
  { intros q Hq. assert (Hne : q ∉ [p]) by (intros ->%list_elem_of_singleton; done).
    destruct (Hall q) as (tq & rq & Hlq & Hsq); [by right|]. exists tq, rq. split; [|done].
    eapply linked_kept; [exact Hon| |done|done]. apply Hsub. by right. }
  split_and!.
  - by rewrite Hres, <- app_assoc.
  - by eapply (onward_trans T 0 0 ps [p] l).
  - intros q [->|Hq]%elem_of_cons; [|by apply Hhand].
    destruct (moves_new _ _ _ ps p s s2 (on_restores _ _ _ _ _ _ Hon) Hmv) as (t' & r' & Hlk' & Hs').
    exists t', r'. split; [by eapply linked_kept|]. destruct Hlk' as (_ & _ & Hms' & _). congruence.
Qed.

(** A failed dispatch. *)
Lemma in_hand_failure T ps p msg s :
  Restores T ps s → p ∈ ps → in_hand s p →
  onward T 1 ps [p] s (recordDispatchFailureGuarded p msg TgPending (Some (TgDispatching, None)) s).2.
Proof.
  intros HR Hp (t & r & Hlk & Hst).
  destruct (startable_sound _ _ _ _ _ _ HR Hlk (or_intror Hst)) as (Hns & _ & _ & _ & HT & Hsd).
  eapply onward_move; [done|done|]. replace TgDispatching with (tg_State r) by (destruct Hlk as (_ & _ & Hms & _); congruence).
  eapply failure_moves; try done; [apply HR|by left].
Qed.

Lemma in_hand_kept T k ps s s' p q :
  in_hand s q → Restores T ps s → onward T k ps [p] s s' → q ∈ ps → q ≠ p → in_hand s' q.
Proof.
  intros (t & r & Hlk & Hst) HR Hon Hq Hne. exists t, r. split; [|done].
  eapply linked_kept; try done. by intros ->%list_elem_of_singleton.
Qed.

Lemma failures_onward T ps fl s :
  Restores T ps s → NoDup (map fst fl) → map fst fl ⊆ ps → (∀ f, f ∈ fl → in_hand s f.1) →
  onward T (Z.of_nat (length fl)) ps (map fst fl) s (recordRestoreDispatchFailures fl s).2.
Proof.
  intros HR Hnd Hsub Hall. unfold recordRestoreDispatchFailures. destruct fl as [|f0 fl]; [apply onward_idle; [done|apply idle_refl, HR]|].
  change (some (f0 :: fl)) with true. cbn [negb]. rewrite run_bind. cbn [get_event fst snd].
  rewrite (w_event _ (rp_world _ _ _ HR)), plain_scope, run_bind, run_ret. cbn [fst snd].
  destruct (for_each_onward T 1 ps in_hand (λ _, True) fst
    (λ f : nat * string, t ← read f.1;
      if bool_decide (tg_DeviceIdentifier t ∈ []) then mret tt
      else recordDispatchFailureGuarded f.1 f.2 TgPending (Some (TgDispatching, None))) (f0 :: fl) s) as [Hon _]; try done.
  - intros s1 s2 p q. apply in_hand_kept.
  - intros s1 f HR1 Hf Hh. rewrite run_bind. cbn [read fst snd].
    rewrite bool_decide_false by (by intros ?%elem_of_nil). split; [|done]. by apply in_hand_failure.
Qed.

(** A dispatch that was accepted. *)
Lemma dispatched_moves T ps p now batch s :
  Restores T ps s → p ∈ ps → in_hand s p → T = now →
  onward T 1 ps [p] s (record_restore_dispatch now batch p s).2.
Proof.
  intros HR Hp (t & r & Hlk & Hst) HT.
  destruct (startable_sound _ _ _ _ _ _ HR Hlk (or_intror Hst)) as (Hns & Hact & Hretry & Hnd & _ & _).
  pose proof Hlk as (_ & _ & Hms & Hmd & Hmr & Hma).
  unfold record_restore_dispatch. rewrite run_bind. cbn [read fst snd].
  assert (Hc : cell (rs_mem s) p = t) by (unfold cell; by rewrite (proj1 Hlk)). rewrite Hc, run_bind.
  match goal with |- context [writeTargetState _ ?ps s] => set (params := ps) end.
  match goal with |- context [update p ?g] => set (f := g) end.
  destruct (write_moves T 1 (λ _, True) p params f s t r) as (s1 & Hw & Hmv); try done; [apply HR| |].
  - intros r' (Hs' & Hd' & Hr' & Ha'). simpl in *. unfold mirrors, sound, left_of, by_time. simpl.
    rewrite Hs', Hd', Hr', Ha', Hns, Hnd. simpl. split_and!; try done; [right|lia|].
    + split_and!; try done; [lia..|]. right. right. split; [done|by eexists].
    + intros at_ [= <-]. lia.
  - rewrite Hw. by eapply onward_move.
Qed.

Lemma record_restores_onward T ps now r l s :
  Restores T ps s → T = now → NoDup l → l ⊆ ps → (∀ p, p ∈ l → in_hand s p) →
  let res := record_restores now r l s in
  ∃ done_, onward T (Z.of_nat (length done_)) ps done_ s res.2 ∧ done_ ++ map fst res.1 ≡ₚ l ∧
    ∀ f, f ∈ res.1 → in_hand res.2 f.1.
Proof.
  intros HR HT. revert s HR. induction l as [|p l IH]; intros s HR Hnd Hsub Hall; cbn [record_restores].
  { exists []. split_and!; [apply onward_idle; [done|apply idle_refl, HR]|done|by intros f Hf%elem_of_nil]. }
  apply NoDup_cons in Hnd as [Hp Hnd]. assert (Hpp : p ∈ ps) by (apply Hsub; by left).
  assert (Hsub' : l ⊆ ps) by (intros x Hx; apply Hsub; by right).
  cbv zeta. rewrite run_bind. cbn [read fst snd].
  destruct (not_dispatched r _ _) as [why|].
  - rewrite run_bind. destruct (IH s HR Hnd Hsub') as (dn & Hon & Hperm & Hh); [intros q Hq; apply Hall; by right|].
    destruct (record_restores now r l s) as [fl s']. cbn [fst snd] in *. rewrite run_ret. cbn [fst snd map].
    exists dn. split_and!; [done|rewrite <- Permutation_middle; by rewrite Hperm|].
    intros f [->|Hf]%elem_of_cons; [|by apply Hh]. simpl.
    assert (Hpd : p ∉ dn).
    { intros Hin. apply Hp. rewrite <- Hperm. apply elem_of_app. by left. }
    destruct (Hall p) as (t & rr & Hlk & Hst); [by left|]. exists t, rr. split; [|done]. by eapply linked_kept.
  - rewrite run_bind. set (s1 := (record_restore_dispatch now (cr_BatchIdentifier r) p s).2).
    assert (Hon : onward T 1 ps [p] s s1) by (apply dispatched_moves; try done; apply Hall; by left).
    destruct (IH s1) as (dn & Hon2 & Hperm & Hh); [apply Hon|done|done| |].
    { intros q Hq. eapply in_hand_kept; [apply Hall; by right|exact HR|exact Hon|by apply Hsub'|]. intros ->. done. }
    exists (p :: dn). split_and!; [|by apply perm_skip|done].
    eapply onward_weaken; [|reflexivity|by eapply (onward_trans T 1 _ ps [p] dn)]. simpl length. lia.
Qed.

Lemma restores_later T T' ps s : T <= T' → Restores T ps s → Restores T' ps s.
Proof.
  intros Hle [W L D S A]. split; try done. intros d r Hr. destruct (S d r Hr) as [Hsd HT]. split; [done|].
  intros at_ Hat. specialize (HT at_ Hat). lia.
Qed.

(** What a command returned is recorded of every target of the batch. *)
Lemma result_onward T ps l o s :
  Restores T ps s → T <= rs_now s → NoDup l → l ⊆ ps → (∀ p, p ∈ l → in_hand s p) →
  ∃ T', T' <= rs_now (record_restore_result l (Some (Ok o)) s).2 ∧
    Restores T' ps (record_restore_result l (Some (Ok o)) s).2 ∧
    total_left (rows (record_restore_result l (Some (Ok o)) s).2) + Z.of_nat (length l) <= total_left (rows s).
Proof.
  intros HR HT Hnd Hsub Hall.
  assert (Hfail : ∀ why, ∃ T', T' <= rs_now (recordRestoreDispatchFailures (restoreDispatchFailures l why) s).2 ∧
    Restores T' ps (recordRestoreDispatchFailures (restoreDispatchFailures l why) s).2 ∧
    total_left (rows (recordRestoreDispatchFailures (restoreDispatchFailures l why) s).2) + Z.of_nat (length l)
      <= total_left (rows s)).
  { intros why. unfold restoreDispatchFailures. set (fl := map (λ p, (p, why)) l).
    assert (Hfl : map fst fl = l) by (subst fl; rewrite map_map; apply map_id).
    pose proof (failures_onward T ps fl s HR) as Hon. rewrite Hfl in Hon.
    assert (Hon' : onward T (Z.of_nat (length fl)) ps l s (recordRestoreDispatchFailures fl s).2).
    { apply Hon; try done. intros f (p & -> & Hp)%list_elem_of_fmap. by apply Hall. }
    exists T. subst fl. rewrite length_map in Hon'. destruct Hon' as [R L N _ _]. split_and!; [lia|done|done]. }
  unfold record_restore_result. destruct o as [r|]; [|apply Hfail]. case_if; [apply Hfail|].
  rewrite run_bind. cbn [clock fst snd]. rewrite run_bind.
  destruct (record_restores_onward (rs_now s) ps (rs_now s) r l s) as (dn & Hon & Hperm & Hh); try done.
  { by eapply restores_later. }
  destruct (record_restores (rs_now s) r l s) as [fl s1]. cbn [fst snd] in *.
  assert (Hnd' : NoDup (dn ++ map fst fl)) by (by rewrite Hperm).
  apply NoDup_app in Hnd' as (_ & _ & Hndf).
  assert (Hon2 : onward (rs_now s) (Z.of_nat (length fl)) ps (map fst fl) s1 (recordRestoreDispatchFailures fl s1).2).
  { apply failures_onward; try done; [apply Hon|]. intros x Hx. apply Hsub. rewrite <- Hperm. apply elem_of_app. by right. }
  exists (rs_now s). destruct Hon as [_ L1 N1 _ _], Hon2 as [R2 L2 N2 _ _].
  split_and!; [lia|done|]. apply Permutation_length in Hperm. rewrite length_app, length_map in Hperm. lia.
Qed.

(** The command, and what it does to the batch. *)
Lemma send_idle a s : World s → ∃ o, (send a s).1 = Ok o ∧ idle s (send a s).2.
Proof.
  intros HW. unfold send. rewrite !run_bind. destruct (take_calm s HW) as [[_ Herr] Hi].
  destruct (take_rturn s) as [turn s1]. cbn [fst snd] in *. rewrite Herr. exists (rt_result turn).
  split; [done|]. eapply idle_trans; [exact Hi|]. apply (log_idle a). apply Hi.
Qed.

Lemma fence_skipped l s : World s → fenceTopologyRestoreDispatch l s = (RestoreNotFenced, s).
Proof.
  intros HW. unfold fenceTopologyRestoreDispatch. rewrite run_bind. cbn [get_event fst snd].
  rewrite (w_event _ HW). by rewrite (bool_decide_false _ no_topology).
Qed.

Lemma startable_idle s s' p : idle s s' → startable s p → startable s' p.
Proof. intros (_ & Hr & Hm & _) (t & r & (Hl & Hrow & Hmir) & Hst). exists t, r. unfold linked. by rewrite Hr, Hm. Qed.

Lemma in_hand_idle s s' p : idle s s' → in_hand s p → in_hand s' p.
Proof. intros (_ & Hr & Hm & _) (t & r & (Hl & Hrow & Hmir) & Hst). exists t, r. unfold linked. by rewrite Hr, Hm. Qed.

Lemma batch_onward T ps l s :
  Restores T ps s → T <= rs_now s → NoDup l → l ⊆ ps → l ≠ [] → (∀ p, p ∈ l → startable s p) →
  let s' := (dispatchRestoreBatch l s).2 in
  ∃ T', T' <= rs_now s' ∧ Restores T' ps s' ∧ total_left (rows s') < total_left (rows s).
Proof.
  intros HR HT Hnd Hsub Hne Hall s'. unfold s', dispatchRestoreBatch. rewrite run_bind.
  destruct (alive_idle s (rp_world _ _ _ HR)) as [-> Hi1]. cbn [negb].
  set (s1 := (eventStillDispatchable s).2) in *. pose proof (idle_restores _ _ _ _ Hi1 HR) as HR1.
  rewrite run_bind. destruct (prewrite_all T ps l [] s1 HR1 Hnd Hsub) as (Hres & Hon & Hhand).
  { intros p Hp. by eapply startable_idle, Hall. }
  destruct (prewrite_restore l [] s1) as [claimed s2]. cbn [fst snd] in *. subst claimed. cbn [app].
  destruct l as [|p0 l]; [done|]. set (l' := p0 :: l) in *. clearbody l'.
  rewrite run_bind. destruct (alive_idle s2 (rp_world _ _ _ (on_restores _ _ _ _ _ _ Hon))) as [-> Hi3]. cbn [negb].
  set (s3 := (eventStillDispatchable s2).2) in *. rewrite run_bind, fence_skipped by apply Hi3. cbn [fst snd].
  rewrite run_bind. cbn [devices_of fst snd]. rewrite run_bind.
  match goal with |- context [send ?a ?st] => change st with s3; destruct (send_idle a s3) as (o & Ho & Hi4); [apply Hi3|];
    destruct (send a s3) as [r s4] end.
  cbn [fst snd] in *. subst r. pose proof (idle_trans _ _ _ Hi3 Hi4) as Hi.
  destruct Hi1 as (_ & Hr1 & _ & Hn1). destruct (result_onward T ps l' o s4) as (T' & HT' & HR' & Hlt); try done.
  - eapply idle_restores; [exact Hi|]. apply Hon.
  - destruct Hi as (_ & _ & _ & Hn). pose proof (on_now _ _ _ _ _ _ Hon). lia.
  - intros p Hp. by eapply in_hand_idle, Hhand.
  - exists T'. split_and!; try done. destruct Hi as (_ & Hr & _). rewrite Hr in Hlt.
    pose proof (on_less _ _ _ _ _ _ Hon) as Hless. rewrite Hr1 in Hless.
    assert (0 < Z.of_nat (length l')) by (destruct l'; [done|simpl; lia]). lia.
Qed.

(** ** The next batch *)

Definition idle_or_waiting (t : Target) : Prop :=
  settled (tg_State t) = true ∨ tg_DesiredState t = DsActive ∧ (tg_State t = TgPending ∨ tg_State t = TgDispatching).

Lemma cell_linked s p t r : linked s p t r → cell (rs_mem s) p = t.
Proof. intros [Hl _]. unfold cell. by rewrite Hl. Qed.

(** Without a dispatch in flight every target is settled or waits for one. *)
Lemma cells_wait T ps s p :
  Restores T ps s → (∀ p t, p ∈ ps → rs_mem s !! p = Some t → not_sent t) → p ∈ ps →
  idle_or_waiting (cell (rs_mem s) p) ∧ by_time T (cell (rs_mem s) p).
Proof.
  intros HR Hns Hp. destruct (rp_linked _ _ _ HR p Hp) as (t & r & Hlk). rewrite (cell_linked _ _ _ _ Hlk).
  destruct Hlk as (Hl & Hr & Hms & Hmd & _ & Hma). destruct (rp_sound _ _ _ HR _ _ Hr) as [Hsd HT].
  specialize (Hns p t Hp Hl). unfold not_sent, idle_or_waiting, by_time in *. rewrite Hms, Hmd, Hma in *. split; [|done].
  destruct Hsd as [?|(? & _ & [?|[?|[? _]]])]; auto.
Qed.

Lemma newest_by_time T ts at_ : Forall (by_time T) ts → newest_restore_dispatch ts = Some at_ → at_ <= T.
Proof.
  intros Hall. unfold newest_restore_dispatch.
  assert (Hgen : ∀ n, (∀ a, n = Some a → a <= T) → ∀ a, fold_left (λ newest t,
    match tg_DesiredState t, tg_LastDispatchedAt t with
    | DsActive, Some at_ => Some (match newest with Some n => Z.max n at_ | None => at_ end)
    | _, _ => newest end) ts n = Some a → a <= T).
  { induction Hall as [|t ts Ht _ IH]; simpl; intros n Hn a Ha; [by apply Hn|]. eapply IH; [|exact Ha].
    intros b Hb. destruct (tg_DesiredState t); [by apply Hn|]. destruct (tg_LastDispatchedAt t) as [at0|] eqn:E; [|by apply Hn].
    specialize (Ht at0 E). destruct n as [n|]; simplify_eq; [|done]. specialize (Hn n eq_refl). lia. }
  by apply Hgen.
Qed.

Lemma interval_over T ts now :
  Forall (by_time T) ts → T + patience <= now → restore_interval_elapsed e ts now = true.
Proof.
  intros Hall Hnow. unfold restore_interval_elapsed. case_if; [done|].
  destruct (newest_restore_dispatch ts) as [at_|] eqn:En; [|done].
  pose proof (newest_by_time T ts at_ Hall En). apply Z.leb_le. unfold time_Sub, minDuration, maxDuration, patience in *. lia.
Qed.

Lemma pick_startable T ps s (f : Target → bool) n :
  Restores T ps s → NoDup ps → (0 < n)%nat →
  (∀ t, f t = true → tg_State t = TgPending ∨ tg_State t = TgDispatching) →
  let l := List.filter (λ p, f (cell (rs_mem s) p)) ps in l ≠ [] →
  NoDup (take n l) ∧ take n l ⊆ ps ∧ take n l ≠ [] ∧ ∀ p, p ∈ take n l → startable s p.
Proof.
  intros HR Hnd Hn Hf l Hne.
  assert (Hin : ∀ p, p ∈ take n l → p ∈ ps ∧ f (cell (rs_mem s) p) = true).
  { intros p Hp%subseteq_take. apply list_elem_of_In, filter_In in Hp as [Hp Hfp]. by apply list_elem_of_In in Hp. }
  split_and!.
  - eapply sublist_NoDup; [|apply sublist_take]. apply NoDup_ListNoDup, List.NoDup_filter. by apply NoDup_ListNoDup.
  - intros p Hp. by apply Hin.
  - destruct l; [done|]. by destruct n; [lia|].
  - intros p Hp. destruct (Hin p Hp) as [Hps Hfp]. destruct (rp_linked _ _ _ HR p Hps) as (t & r & Hlk).
    exists t, r. split; [done|]. rewrite (cell_linked _ _ _ _ Hlk) in Hfp. by apply Hf.
Qed.

Definition all_settled (ps : list nat) (s : RState) : bool :=
  forallb (λ p, settled (tg_State (cell (rs_mem s) p))) ps.

Definition waits_in (st : TargetState) (t : Target) : bool := (tg_DesiredState t == DsActive) && (tg_State t == st).

Lemma waits_in_startable st t :
  (st = TgPending ∨ st = TgDispatching) → waits_in st t = true → tg_State t = TgPending ∨ tg_State t = TgDispatching.
Proof. unfold waits_in. intros Hst Ht. crush_bools. by subst. Qed.

Lemma none_in_flight ps s :
  (∀ p, p ∈ ps → idle_or_waiting (cell (rs_mem s) p)) → restore_in_flight (map (cell (rs_mem s)) ps) = false.
Proof.
  intros Hwait. apply not_true_iff_false. intros (t & Hin & Ht)%existsb_exists.
  apply list_elem_of_In in Hin as (p & -> & Hp)%list_elem_of_fmap. apply andb_prop in Ht as [_ Ht].
  destruct (Hwait p Hp) as [Hset|(_ & [Hst|Hst])]; [|by rewrite Hst in Ht..].
  by destruct (tg_State (cell (rs_mem s) p)).
Qed.

Lemma nobody_waits ps s :
  (∀ p, p ∈ ps → idle_or_waiting (cell (rs_mem s) p)) →
  (∀ st, st = TgPending ∨ st = TgDispatching → List.filter (λ p, waits_in st (cell (rs_mem s) p)) ps = []) →
  all_settled ps s = true.
Proof.
  intros Hwait Hnone. apply forallb_forall. intros p Hp%list_elem_of_In.
  destruct (Hwait p Hp) as [Hset|(Hd & Hst)]; [done|]. exfalso.
  assert (Hin : p ∈ List.filter (λ p, waits_in (tg_State (cell (rs_mem s) p)) (cell (rs_mem s) p)) ps).
  { apply list_elem_of_In, filter_In. split; [by apply list_elem_of_In|]. unfold waits_in. rewrite Hd.
    by rewrite !bool_decide_true. }
  specialize (Hnone _ Hst). apply (elem_of_nil p). rewrite <- Hnone. apply list_elem_of_In, filter_In.
  split; [by apply list_elem_of_In|]. unfold waits_in. rewrite Hd. by rewrite !bool_decide_true.
Qed.

Lemma claim_onward T ps s :
  Restores T ps s → T + patience <= rs_now s → NoDup ps →
  (∀ p t, p ∈ ps → rs_mem s !! p = Some t → not_sent t) → all_settled ps s = false →
  let s' := (maybeClaimRestoreBatch ps s).2 in
  ∃ T', T' <= rs_now s' ∧ Restores T' ps s' ∧ total_left (rows s') < total_left (rows s).
Proof.
  intros HR Hnow Hnd Hns Hopen s'. unfold s', maybeClaimRestoreBatch. rewrite run_bind. cbn [get_event fst snd].
  rewrite run_bind. cbn [reads fst snd]. rewrite run_bind. cbn [clock fst snd]. rewrite (w_event _ (rp_world _ _ _ HR)).
  assert (Hair : restore_airflow_ready e (rs_now s) = true) by (unfold restore_airflow_ready; by rewrite no_fans).
  assert (Hwait := λ p, cells_wait T ps s p HR Hns).
  assert (Hint : restore_interval_elapsed e (map (cell (rs_mem s)) ps) (rs_now s) = true).
  { apply (interval_over T); [|done]. apply Forall_forall. intros t (p & -> & Hp)%list_elem_of_fmap. by apply Hwait. }
  rewrite Hair, none_in_flight, Hint by (intros p Hp; by apply Hwait). cbn [negb]. cbv zeta.
  assert (HT : T <= rs_now s) by (unfold patience, Second in *; lia).
  set (n := Z.to_nat (restoreClaimBatchSize e)).
  assert (Hn : (0 < n)%nat) by (pose proof (claim_batch_positive e); lia).
  assert (Hgo : ∀ st, (st = TgPending ∨ st = TgDispatching) →
    let l := List.filter (λ p, waits_in st (cell (rs_mem s) p)) ps in l ≠ [] →
    ∃ T', T' <= rs_now (dispatchRestoreBatch (take n l) s).2 ∧ Restores T' ps (dispatchRestoreBatch (take n l) s).2 ∧
      total_left (rows (dispatchRestoreBatch (take n l) s).2) < total_left (rows s)).
  { intros st Hst l Hne. destruct (pick_startable T ps s (waits_in st) n HR Hnd Hn) as (H1 & H2 & H3 & H4); try done.
    - intros t. by apply waits_in_startable.
    - by eapply batch_onward. }
  pose proof (Hgo TgDispatching (or_intror eq_refl)) as Hgo1. pose proof (Hgo TgPending (or_introl eq_refl)) as Hgo2.
  rewrite run_bind.
  change (select _ ps s) with (List.filter (λ p, waits_in TgDispatching (cell (rs_mem s) p)) ps, s). cbn [fst snd].
  destruct (List.filter (λ p, waits_in TgDispatching (cell (rs_mem s) p)) ps) as [|p1 l1] eqn:E1 in *; [|by apply Hgo1].
  change (some []) with false. cbv iota. rewrite run_bind.
  change (select _ ps s) with (List.filter (λ p, waits_in TgPending (cell (rs_mem s) p)) ps, s). cbn [fst snd].
  destruct (List.filter (λ p, waits_in TgPending (cell (rs_mem s) p)) ps) as [|p2 l2] eqn:E2 in *; [|by apply Hgo2].
  rewrite nobody_waits in Hopen; [done|intros p Hp; by apply Hwait|]. by intros st [->| ->].
Qed.

(** ** The pass *)

(** What the pass finds: targets that are being restored, none of them sent after [T]. *)
Record Stopped (T : Z) (s : RState) : Prop := {
  st_world : World s;
  st_rows : ∀ d r, rows s !! d = Some r → sound r ∧ by_time T r
}.

Lemma listed_targets s :
  World s →
  let ts := ListTargetsByEvent collate (ce_OrgID e) (ce_ID e) (rs_db s) in
  NoDup (map tg_DeviceIdentifier ts) ∧
  ∀ t, t ∈ ts ↔ ∃ d r, rows s !! d = Some r ∧ t = loaded d r.
Proof.
  intros HW ts. subst ts. unfold ListTargetsByEvent. rewrite (w_stored _ HW), Z.eqb_refl. fold (rows s). split.
  - rewrite stable_sort_perm, map_map. apply (NoDup_fst_map_to_list (rows s)).
  - intros t. rewrite stable_sort_elem, list_elem_of_fmap. split.
    + intros ([d r] & -> & Hin). exists d, r. by apply elem_of_map_to_list in Hin.
    + intros (d & r & Hr & ->). exists (d, r). by rewrite elem_of_map_to_list.
Qed.

Lemma load_targets T s :
  Stopped T s → rs_mem s = [] →
  ∃ ps s', ListTargets s = (Ok ps, s') ∧ Restores T ps s' ∧ NoDup ps ∧ (∀ p, p ∈ ps → exact s' p) ∧
    rows s' = rows s ∧ rs_now s <= rs_now s'.
Proof.
  intros [HW Hsd] Hmem. unfold ListTargets. rewrite run_bind. cbn [get_event fst snd]. rewrite run_bind.
  destruct (get_idle (ListTargetsByEvent collate (ce_OrgID (rs_event s)) (ce_ID (rs_event s))) s HW)
    as (s1 & -> & (HW1 & Hrows & Hm & Hn) & _). cbn [fst snd]. rewrite (w_event _ HW).
  destruct (listed_targets s1 HW1) as [Hnd Hin]. set (ts := ListTargetsByEvent _ _ _ _) in *. clearbody ts.
  rewrite run_bind. set (s2 := (log LoadedTargets s1).2). rewrite run_bind.
  destruct (log_idle LoadedTargets s1 HW1) as (HW2 & Hrows2 & Hm2 & Hn2). fold s2 in HW2, Hrows2, Hm2, Hn2.
  assert (Hm0 : rs_mem s2 = []) by congruence. unfold allocate. cbn [fst snd]. rewrite run_ret.
  exists (seq 0 (length ts)), (s2 <| rs_mem := ts |>). rewrite Hm0. split; [done|].
  assert (Hex : ∀ p, p ∈ seq 0 (length ts) → exact (s2 <| rs_mem := ts |>) p).
  { intros p Hp%elem_of_seq. destruct (lookup_lt_is_Some_2 ts p) as [t Ht]; [lia|].
    destruct (proj1 (Hin t)) as (d & r & Hr & Htr); [by eapply list_elem_of_lookup_2|].
    exists t, r. subst t. split_and!; try done. }
  split_and!; [|apply NoDup_seq|done|unfold rows in *; simpl; congruence|simpl in *; lia].
  split; [by destruct HW2|..].
  - intros p Hp. destruct (Hex p Hp) as (t & r & Hl & Hr & Ht). exists t, r. by apply exact_linked.
  - intros p q t u _ _ Ht Hu Hd. simpl in Ht, Hu. eapply (NoDup_lookup (map tg_DeviceIdentifier ts)); [done| |].
    + rewrite list_lookup_fmap, Ht. done.
    + rewrite list_lookup_fmap, Hu. simpl. by rewrite Hd.
  - intros d r Hr. apply (Hsd d). unfold rows in *. simpl in Hr. congruence.
  - intros d r Hr. assert (Ht : loaded d r ∈ ts) by (apply Hin; exists d, r; split; [unfold rows in *; simpl in Hr; congruence|done]).
    apply list_elem_of_lookup in Ht as [p Hp]. exists p, (loaded d r). split_and!; try done.
    apply elem_of_seq. apply lookup_lt_Some in Hp. lia.
Qed.

Lemma observe_onward T s :
  Stopped T s → rs_mem s = [] → T + patience <= rs_now s →
  let s' := (observeRestoring s).2 in
  (ended s' ∧ dom (rows s') = devices ∧ ∀ d r, rows s' !! d = Some r → settled (tg_State r) = true) ∨
  ∃ T', T' <= rs_now s' ∧ Stopped T' s' ∧ total_left (rows s') < total_left (rows s).
Proof.
  intros HS Hmem Hnow s'. unfold s', observeRestoring. rewrite run_bind.
  destruct (load_targets T s HS Hmem) as (ps & s1 & -> & HR & Hnd & Hex & Hrows & Hn). cbn [fst snd].
  rewrite run_bind. assert (Hfans : reconcileRestoringFans s1 = (tt, s1)).
  { unfold reconcileRestoringFans. rewrite run_bind. cbn [get_event fst snd]. unfold fans_wired.
    rewrite (w_event _ (rp_world _ _ _ HR)), no_fans. by rewrite andb_false_r. }
  rewrite Hfans. cbn [fst snd]. rewrite run_bind.
  assert (Hready : refreshAllPairedTopologyRestoreTargets ps s1 = (true, s1)).
  { unfold refreshAllPairedTopologyRestoreTargets. rewrite run_bind. cbn [get_event fst snd].
    by rewrite (w_event _ (rp_world _ _ _ HR)), plain_scope. }
  rewrite Hready. cbn [fst snd negb]. rewrite run_bind.
  destruct (confirmations_onward T ps s1) as [Hon Hns]; try done; [lia|].
  set (s2 := (confirmDispatchedRestores ps s1).2) in *. pose proof (on_restores _ _ _ _ _ _ Hon) as HR2.
  rewrite run_bind. destruct (complete_spec T ps s2 HR2) as [Hc Hres]. fold (all_settled ps s2) in Hc, Hres.
  destruct (maybeCompleteRestoring ps s2) as [b s3]. cbn [fst snd] in *. subst b.
  destruct (all_settled ps s2) eqn:Eall.
  - left. destruct Hres as [Hend Hr3]. split; [exact Hend|]. simpl. rewrite Hr3. split; [apply HR2|]. intros d r Hr.
    destruct (rp_all _ _ _ HR2 d r Hr) as (p & t & Hp & Hl & <-).
    destruct (rp_linked _ _ _ HR2 p Hp) as (t' & r' & Hlk). pose proof (cell_linked _ _ _ _ Hlk) as Hcell.
    destruct Hlk as (Hl' & Hr' & Hms & _). simplify_eq. rewrite <- Hms.
    unfold all_settled in Eall. rewrite forallb_forall in Eall. apply Eall. by apply list_elem_of_In.
  - right. subst s3. destruct (claim_onward T ps s2) as (T' & HT' & HR' & Hlt); try done.
    { pose proof (on_now _ _ _ _ _ _ Hon). lia. }
    exists T'. split_and!; [done|by split; apply HR'|]. pose proof (on_less _ _ _ _ _ _ Hon). rewrite Hrows in *. lia.
Qed.

End Restoration.
