(* ===== verification/CurtailmentLiveness.v ===== *)
(** * Stopping an event ends it

    The ticks of the reconciler after a stop. While nobody disturbs it, whatever the
    commands return and telemetry shows, the event ends within a number of ticks that
    its targets and the retry budget bound, and then no target is left in between. *)

From S2P Require Import Prelude GoSort Float64 Errors RolloutBehavior AuthzPermissions CommandFilter.
From S2P Require Import CurtailmentModes CurtailmentSelector CurtailmentPreview CurtailmentEvents.
From S2P Require Import CurtailmentDecisions CurtailmentReconciler.
From S2P Require Import CurtailmentPasses CurtailmentTrace CurtailmentRestoration.
#[local] Open Scope string_scope.
#[local] Open Scope list_scope.
#[local] Open Scope Z_scope.
#[local] Open Scope go_scope.

(** The ticks of the reconciler, [gaps] apart. *)
Definition wait (gap : Z) (s : RState) : RState := s <| rs_now := rs_now s + gap |>.

Fixpoint ticks `{ReconcilerEnv} (gaps : list Z) (s : RState) : RState :=
  match gaps with [] => s | gap :: rest => ticks rest (runTick (wait gap s)).2 end.

(** ** The events a tick finds *)

Lemma none_live db :
  (∀ k ev, db_events db !! k = Some ev → IsTerminal (ce_State ev) = true) → ListNonTerminalEvents db = [].
Proof.
  intros Hall. unfold ListNonTerminalEvents.
  assert (Hnil : List.filter (λ e, negb (IsTerminal (ce_State e))) (map snd (map_to_list (db_events db))) = []).
  { apply elem_of_nil_inv. intros ev Hin. apply list_elem_of_In, filter_In in Hin as [Hin Hlive].
    apply list_elem_of_In, list_elem_of_fmap in Hin as ([k ev'] & -> & Hin). apply elem_of_map_to_list in Hin.
    simpl in Hlive. by rewrite (Hall k ev' Hin) in Hlive. }
  by rewrite Hnil.
Qed.

Lemma filter_permutation {A} (f : A → bool) (l l' : list A) : l ≡ₚ l' → List.filter f l ≡ₚ List.filter f l'.
Proof.
  induction 1 as [|x l l' _ IH|x y l|]; simpl; [done| | |by etrans].
  - destruct (f x); [by apply perm_skip|done].
  - destruct (f x), (f y); done || apply perm_swap.
Qed.

(** The only event that is not over. *)
Lemma one_live db e :
  db_events db !! ce_ID e = Some e → IsTerminal (ce_State e) = false →
  (∀ k ev, db_events db !! k = Some ev → IsTerminal (ce_State ev) = false → k = ce_ID e) →
  ListNonTerminalEvents db = [e].
Proof.
  intros Hst Hlive Honly. unfold ListNonTerminalEvents.
  assert (Hp : List.filter (λ e, negb (IsTerminal (ce_State e))) (map snd (map_to_list (db_events db))) ≡ₚ [e]).
  { rewrite <- (insert_delete_id (db_events db) (ce_ID e) e Hst).
    etrans; [apply filter_permutation, Permutation_map, map_to_list_insert, lookup_delete_eq|]. simpl. rewrite Hlive. simpl.
    apply perm_skip. apply Permutation_nil_r. apply elem_of_nil_inv. intros ev Hin.
    apply list_elem_of_In, filter_In in Hin as [Hin Hev].
    apply list_elem_of_In, list_elem_of_fmap in Hin as ([k ev'] & -> & Hin). apply elem_of_map_to_list in Hin.
    apply lookup_delete_Some in Hin as [Hne Hin]. apply Hne. symmetry. apply (Honly k ev' Hin). by apply negb_true_iff. }
  apply Permutation_singleton_r. by rewrite stable_sort_perm.
Qed.

Section Liveness.
Context `{ReconcilerEnv} (e : CurtailmentEvent).
Context (events : gmap Z CurtailmentEvent) (stored : events !! ce_ID e = Some e) (devices : gset string).
Context (only : ∀ k ev, events !! k = Some ev → IsTerminal (ce_State ev) = false → k = ce_ID e).
Context (restoring : ce_State e = EvRestoring) (no_fans : ce_FacilityFanDeviceIDs e = []).
Context (no_topology : ce_ScopeType e ≠ ScopeTypeMixed).
Context (budget : 0 < cfg_MaxRetries cfg < 2 ^ 31 - 1).
Context (timeout : 0 < cfg_RestoreDispatchTimeoutSec cfg) (reachable : patience e <= maxDuration).
Notation World := (World e events devices).
Notation Stopped := (Stopped e events devices).
Notation ended := (ended e events).
Notation rows := (rows e).

(** The targets are those of the event, and each is settled. *)
Definition all_rows_settled (s : RState) : Prop :=
  dom (rows s) = devices ∧ ∀ d r, rows s !! d = Some r → settled (tg_State r) = true.

Lemma stopped_idle T s s' : idle e events devices s s' → Stopped T s → Stopped T s'.
Proof. intros (HW & Hr & _) [_ Hs]. split; [done|]. by rewrite Hr. Qed.

Lemma stopped_wait T s gap : Stopped T s → Stopped T (wait gap s).
Proof. intros [[C L E S F D] Hs]. split; [by split|done]. Qed.

(** Asking whether the deadline of the tick has passed. *)
Lemma deadline_idle s : World s → (ask rt_flag s).1 = Ok false ∧ idle e events devices s (ask rt_flag s).2.
Proof.
  intros HW. unfold ask. rewrite !run_bind. destruct (take_calm e events devices s HW) as [[[_ Hflag] Herr] Hi].
  destruct (take_rturn s) as [turn s1]. cbn [fst snd] in *. rewrite Herr. by rewrite run_ret, Hflag.
Qed.

Lemma tick_onward T s :
  Stopped T s → T + patience e <= rs_now s →
  let s' := (runTick s).2 in
  (ended s' ∧ all_rows_settled s') ∨
  ∃ T', T' <= rs_now s' ∧ Stopped T' s' ∧ total_left (rows s') < total_left (rows s).
Proof.
  intros HS Hnow s'. unfold s', runTick. rewrite run_bind.
  destruct (get_idle e events devices ListNonTerminalEvents s (st_world _ _ _ _ _ HS)) as (s1 & -> & Hi1 & _). cbn [fst snd].
  pose proof (stopped_idle _ _ _ Hi1 HS) as [HW1 _].
  rewrite (one_live (rs_db s1) e); [|by apply (w_stored e events stored devices)|by rewrite restoring|rewrite (w_events _ _ _ _ HW1); exact only].
  rewrite run_bind. cbn [process_events]. rewrite run_bind. destruct (deadline_idle s1 HW1) as [Hd Hi2].
  destruct (ask rt_flag s1) as [fl s2]. cbn [fst snd] in *. subst fl. rewrite run_bind.
  pose proof (idle_trans _ _ _ _ _ _ Hi1 Hi2) as Hi. pose proof (stopped_idle _ _ _ Hi HS) as [[C L E S F D] Hs2].
  unfold processEvent. rewrite restoring. set (s3 := s2 <| rs_event := e |> <| rs_mem := [] |>).
  destruct Hi as (_ & Hr & _ & Hn).
  assert (HS3 : Stopped T s3) by (split; [by split|done]).
  destruct (observe_onward e events stored devices restoring no_fans no_topology budget timeout reachable T s3 HS3)
    as [[Hend Hset]|(T' & HT' & HS' & Hlt)]; [done|simpl; lia|left|right].
  - by split.
  - change (rows s3) with (rows s2) in Hlt. rewrite Hr in Hlt. exists T'. split_and!; [done| |done].
    eapply stopped_idle; [|exact HS']. apply (log_idle e events devices (Heartbeat _)), HS'.
Qed.

(** After the end a tick finds nothing to do. *)
Lemma tick_ended s : ended s → all_rows_settled s → ended (runTick s).2 ∧ all_rows_settled (runTick s).2.
Proof.
  intros (C & L & ev & Hev & Hterm) Hset. unfold runTick. rewrite run_bind. unfold store_call, store_with. rewrite run_bind.
  assert (Ht : calm_turn (default quiet_rturn (head (rs_turns s)))) by (destruct C; [by split|done]).
  destruct Ht as [[Ho _] Herr]. unfold take_rturn. rewrite L. cbv zeta. cbn [fst snd]. rewrite Herr, Ho. unfold run_op, gets.
  assert (Hnone : ListNonTerminalEvents (rs_db s) = []).
  { apply none_live. rewrite Hev. intros k ev' Hk. destruct (decide (k = ce_ID e)) as [->|Hne].
    - rewrite lookup_insert_eq in Hk. by simplify_eq.
    - rewrite lookup_insert_ne in Hk by done. destruct (IsTerminal (ce_State ev')) eqn:El; [done|]. destruct Hne. by apply (only k ev'). }
  cbn. rewrite Hnone. split; [|exact Hset]. split_and!; simpl; [by destruct C|done|by exists ev].
Qed.

Lemma ticks_ended gaps s : ended s → all_rows_settled s → ended (ticks gaps s) ∧ all_rows_settled (ticks gaps s).
Proof.
  revert s. induction gaps as [|gap gaps IH]; intros s He Hs; [done|]. simpl.
  destruct (tick_ended (wait gap s)) as [He' Hs']; [done..|]. by apply IH.
Qed.

Lemma total_left_bound (m : gmap string Target) :
  (∀ d r, m !! d = Some r → sound r) → 0 <= total_left m <= Z.of_nat (size m) * (2 * cfg_MaxRetries cfg + 1).
Proof.
  induction m as [|d r m Hd IH] using map_ind; intros Hs; [by rewrite map_size_empty|].
  rewrite (total_left_delete _ d r) by apply lookup_insert_eq. rewrite delete_insert_id, map_size_insert_None by done.
  assert (Hr : sound r) by (apply (Hs d); by rewrite lookup_insert_eq). pose proof (left_of_bound budget r Hr).
  assert (0 <= total_left m <= Z.of_nat (size m) * (2 * cfg_MaxRetries cfg + 1)); [|lia].
  apply IH. intros d' r' Hd'. apply (Hs d'). rewrite lookup_insert_ne; [done|congruence].
Qed.

Lemma ticks_onward gaps T s :
  Stopped T s → T <= rs_now s → Forall (λ gap, patience e <= gap) gaps →
  total_left (rows s) < Z.of_nat (length gaps) → ended (ticks gaps s) ∧ all_rows_settled (ticks gaps s).
Proof.
  revert T s. induction gaps as [|gap gaps IH]; intros T s HS HT Hgaps Hlen.
  { destruct (total_left_bound (rows s)); [|simpl in Hlen; lia]. intros d r Hr. by apply HS in Hr as [? _]. }
  apply Forall_cons in Hgaps as [Hgap Hgaps]. simpl length in Hlen. cbn [ticks].
  destruct (tick_onward T (wait gap s)) as [[He Hset]|(T' & HT' & HS' & Hlt)].
  - by apply stopped_wait.
  - simpl. lia.
  - by apply ticks_ended.
  - apply (IH T'); try done. change (rows (wait gap s)) with (rows s) in Hlt. lia.
Qed.

End Liveness.

(** ** The stop *)

(** The reconciler at a moment, before its next tick. *)
Definition reconciler_at (now : Z) (db : CurtailDB) (turns : list RTurn) (e : CurtailmentEvent) : RState :=
  {| rs_db := db; rs_turns := turns; rs_now := now; rs_trace := []; rs_event := e; rs_mem := []; rs_lock := None;
     rs_rejects := ∅ |}.

(** The tables when [id] is stopped: it is the only event that is not over, the dispatches
    of its targets are in the past and the index of live targets holds for them. *)
Record Stoppable (now id : Z) (db : CurtailDB) : Prop := {
  sp_event : ∃ e, db_events db !! id = Some e ∧ ce_ID e = id ∧ IsTerminal (ce_State e) = false ∧ ce_State e ≠ EvRestoring;
  sp_only : ∀ k ev, db_events db !! k = Some ev → IsTerminal (ce_State ev) = false → k = id;
  sp_past : ∀ d r, target_rows db id !! d = Some r → by_time now r;
  sp_index : ∀ d r, target_rows db id !! d = Some r → settled (tg_State r) = false → device_free db id d = true
}.

Section Stop.
Context `{ReconcilerEnv}.
Context (budget : 0 < cfg_MaxRetries cfg < 2 ^ 31 - 1) (timeout : 0 < cfg_RestoreDispatchTimeoutSec cfg).

(** A target after the stop: as it was when it was settled, or about to be restored. *)
Lemma stopped_rows now id known db d r :
  target_rows (ResetCurtailmentTargetsForRestore now id (ReleaseUndispatchedTargetsForRestore now id known db)) id !! d = Some r →
  ∃ r0, target_rows db id !! d = Some r0 ∧
    (settled (tg_State r) = true ∧ tg_LastDispatchedAt r = tg_LastDispatchedAt r0 ∨
     settled (tg_State r0) = false ∧ tg_State r = TgPending ∧ tg_DesiredState r = DsActive ∧ tg_RetryCount r = 0 ∧
     tg_LastDispatchedAt r = None).
Proof.
  unfold ResetCurtailmentTargetsForRestore. rewrite target_rows_put, lookup_fmap.
  unfold ReleaseUndispatchedTargetsForRestore. rewrite target_rows_put, map_lookup_imap.
  destruct (target_rows db id !! d) as [r0|]; [|done]. cbn [mbind option_bind fmap option_fmap option_map]. intros [= <-].
  exists r0. split; [done|]. destruct (releasable known d r0); [by left|].
  destruct (settled (tg_State r0)) eqn:Es; [by left|by right].
Qed.

Lemma stopped_left now id known db :
  let db' := ResetCurtailmentTargetsForRestore now id (ReleaseUndispatchedTargetsForRestore now id known db) in
  dom (target_rows db' id) = dom (target_rows db id) ∧ db_events db' = db_events db ∧
  ∀ d, device_free db' id d = device_free db id d.
Proof.
  split_and!; [|done|].
  - unfold ResetCurtailmentTargetsForRestore, ReleaseUndispatchedTargetsForRestore. rewrite !target_rows_put.
    rewrite dom_fmap_L. apply dom_imap_L. intros d. rewrite elem_of_dom. unfold is_Some. naive_solver.
  - intros d. unfold ResetCurtailmentTargetsForRestore, ReleaseUndispatchedTargetsForRestore. by rewrite !device_free_put.
Qed.

Lemma over_now now id db turns gaps e e0 :
  Stoppable now id db → db_events db !! id = Some e0 → ce_ID e = id → IsTerminal (ce_State e) = true →
  target_rows db id = ∅ → Forall calm_turn turns →
  let s := ticks gaps (reconciler_at now (put_event id e db) turns e) in
  ended e (db_events db) s ∧ all_rows_settled e (dom (target_rows db id)) s.
Proof.
  intros HS He0 Hid Hterm Hrows Hcalm s. subst id. apply ticks_ended.
  - apply (sp_only _ _ _ HS).
  - split_and!; [done|done|]. by exists e.
  - unfold all_rows_settled, rows. simpl. rewrite target_rows_put_event. split; [done|]. rewrite Hrows.
    intros d r Hd. by rewrite lookup_empty in Hd.
Qed.

Lemma restoring_stopped now id known db turns e :
  Stoppable now id db → ce_ID e = id → Forall calm_turn turns →
  let db1 := put_event id e db in
  let db' := ResetCurtailmentTargetsForRestore now id (ReleaseUndispatchedTargetsForRestore now id known db1) in
  Stopped e (<[id := e]> (db_events db)) (dom (target_rows db id)) now (reconciler_at now db' turns e).
Proof.
  intros HS Hid Hcalm db1 db'. subst id. destruct (stopped_left now (ce_ID e) known db1) as (Hdom & Hev & Hfree).
  split; [split; try done; simpl|]; unfold rows; simpl.
  - intros d r Hr Hns. destruct (stopped_rows now (ce_ID e) known db1 d r Hr) as (r0 & Hr0 & [[Hset _]|(Hs0 & _)]); [congruence|].
    subst db'. rewrite Hfree. by apply (sp_index _ _ _ HS d r0).
  - intros d r Hr. destruct (stopped_rows now (ce_ID e) known db1 d r Hr) as (r0 & Hr0 & Hcase).
    pose proof (sp_past _ _ _ HS d r0 Hr0) as Hpast. unfold by_time in *. destruct Hcase as [[Hset Hat]|(_ & Hst & Hd & Hn & Hat)].
    + rewrite Hat. split; [by left|done].
    + rewrite Hat. split; [|done]. right. rewrite Hn. split_and!; [done|lia|lia|by left].
Qed.

(** What a stop does: an event without targets is over, any other is restoring. *)
Lemma begin_restore_cases now org id demand known db e db' e0 :
  BeginRestoreTransition now org id demand known db = (Ok e, db') →
  db_events db !! id = Some e0 → IsTerminal (ce_State e0) = false → ce_State e0 ≠ EvRestoring →
  ce_ID e = ce_ID e0 ∧
  (target_rows db id = ∅ ∧ IsTerminal (ce_State e) = true ∧ db' = put_event id e db ∨
   ce_State e = EvRestoring ∧ db' = ResetCurtailmentTargetsForRestore now id
     (ReleaseUndispatchedTargetsForRestore now id known (put_event id e db))).
Proof.
  intros Hb He0 Hlive Hnr. unfold BeginRestoreTransition, GetEventByUUID in Hb. rewrite He0 in Hb.
  destruct (ce_OrgID e0 =? org); [|done]. rewrite (bool_decide_false _ Hnr), Hlive in Hb. destruct demand; [|done].
  destruct (_ && _) eqn:Eempty.
  - crush_bools. assert (He : e = e0 <| ce_State := EvCompleted |> <| ce_EndedAt := Some now |>) by congruence.
    split; [by subst e|]. left. split_and!; [done|by subst e|congruence].
  - assert (He : e = e0 <| ce_State := EvRestoring |>) by congruence. split; [by subst e|]. right. split; [by subst e|congruence].
Qed.


End Stop.
