(* ===== verification/CurtailmentService.v ===== *)
(** * Operators and curtailment events

    Stop, Recurtail, Update, AdminTerminate and ForceRelease of
    [internal/domain/curtailment/service.go], with the transactions of
    [stores/sqlstores/curtailment.go] they run. A handler first reads the event, and
    others may write before its transaction. The audit trail is not modelled.

    Then histories of such requests and of every statement the reconciler runs: a miner
    never has two live targets, and an event that is over stays as it ended. *)

From S2P Require Import Prelude GoSort Float64 Errors RolloutBehavior AuthzPermissions AuthzStore AuthzService.
From S2P Require Import CommandFilter CurtailmentModes CurtailmentSelector CurtailmentPreview CurtailmentEvents.
From S2P Require Import CurtailmentDecisions CurtailmentReconciler.
#[local] Open Scope string_scope.
#[local] Open Scope list_scope.
#[local] Open Scope Z_scope.
#[local] Open Scope go_scope.

(** What a request meets: the time, what others do before each of its transactions, what
    tables outside the two answer (does an automation still demand the event, do the
    fences of a recurtail hold, the organization's default duration, are the fans where
    they were), and what the fans answer to ON, [None] when it succeeds. *)
Record Answers := {
  an_now : Z;
  an_others : CurtailDB → CurtailDB;
  an_demand : result FleetError unit;
  an_fences : result FleetError unit;
  an_config : result FleetError Z;
  an_fan_locks : result FleetError unit;
  an_fan : option string
}.

Definition invalid {A} : COp A := op_fail NewInvalidArgumentError.
Definition check (ok : bool) : COp unit := if ok then mret tt else invalid.

(** A read outside a transaction, and others before the next one. *)
Definition read_event (org id : Z) : COp CurtailmentEvent := λ db,
  match GetEventByUUID org id db with
  | Some e => (Ok e, db)
  | None => (Err (ErrStore NewNotFoundError), db)
  end.

Definition meanwhile (a : Answers) : COp unit := λ db, (Ok tt, an_others a db).

(** The identifier of a request: an organization, and a UUID that is not nil. *)
Definition identified (org id : Z) : bool := (0 <? org) && negb (id =? 0).

(** ** Stop *)

Record StopRequest := {
  sr_OrgID : Z;
  sr_EventUUID : Z;
  sr_Force : bool;
  sr_AutomationRestore : bool
}.

Definition automationExternalSource := "curtailment_automation".
Definition SourceActorAutomation := "automation".

Definition isAutomationOwnedEvent (e : CurtailmentEvent) : bool :=
  (ce_SourceActorType e == SourceActorAutomation)
  && match ce_ExternalSource e with Some src => src == automationExternalSource | None => false end.

(** Whether the transaction asks if the automation still demands the event. *)
Definition automationDemandGuardForStop (e : CurtailmentEvent) (req : StopRequest) : bool :=
  negb (sr_Force req) && negb (sr_AutomationRestore req) && isAutomationOwnedEvent e.

(** The state column, as the gate of the duration compares it. *)
Definition state_column (s : EventState) : string :=
  match s with
  | EvPending => EventStatePending | EvActive => EventStateActive | EvRestoring => "restoring"
  | EvCompleted => EventStateCompleted | EvCompletedWithFailures => "completed_with_failures"
  | EvCancelled => "cancelled" | EvFailed => "failed"
  end.

Definition Stop (a : Answers) (req : StopRequest) : COp CurtailmentEvent :=
  _ ← check (identified (sr_OrgID req) (sr_EventUUID req));
  event ← read_event (sr_OrgID req) (sr_EventUUID req);
  if IsTerminal (ce_State event) then op_fail NewFailedPreconditionError
  else if ce_State event == EvRestoring then mret event
  else if negb (min_duration_elapsed (state_column (ce_State event)) (ce_MinCurtailedDurationSec event)
                  (ce_StartedAt event) (sr_Force req) (an_now a)) then op_fail NewFailedPreconditionError
  else
    _ ← meanwhile a;
    BeginRestoreTransition (an_now a) (sr_OrgID req) (sr_EventUUID req)
      (if automationDemandGuardForStop event req then an_demand a else Ok tt) [].

(** ** Recurtail *)

Record RecurtailRequest := {
  cq_OrgID : Z;
  cq_EventUUID : Z;
  cq_ResponseProfileID : Z;
  cq_ResponseProfileRevision : Z;
  cq_AutomationRuleID : Z;
  cq_AutomationMQTTSourceID : Z;
  cq_AutomationServiceUserID : Z
}.

Definition valid_recurtail (req : RecurtailRequest) : bool :=
  let rule := 0 <? cq_AutomationRuleID req in
  identified (cq_OrgID req) (cq_EventUUID req)
  && eqb (0 <? cq_ResponseProfileID req) (negb (cq_ResponseProfileRevision req =? 0))
  && (0 <=? cq_ResponseProfileID req)
  && (0 <=? cq_AutomationRuleID req) && (0 <=? cq_AutomationMQTTSourceID req)
  && (0 <=? cq_AutomationServiceUserID req)
  && eqb rule (0 <? cq_AutomationMQTTSourceID req) && eqb rule (0 <? cq_AutomationServiceUserID req)
  && negb (rule && (cq_ResponseProfileID req =? 0)).

Definition Recurtail (a : Answers) (req : RecurtailRequest) : COp CurtailmentEvent :=
  _ ← check (valid_recurtail req);
  BeginRecurtailTransition (cq_OrgID req) (cq_EventUUID req) (an_fences a).

(** ** Update *)

Record UpdateRequest := {
  ur_OrgID : Z;
  ur_EventUUID : Z;
  ur_Reason : option string;
  ur_RestoreBatchSize : option Z;
  ur_RestoreBatchIntervalSec : option Z;
  ur_MaxDurationSeconds : option Z;
  ur_CanUseAdminControls : bool
}.

Definition startTextFieldMaxLen : Z := 256.
Definition maxFiniteDurationSeconds : Z := 7 * 24 * 60 * 60.
Definition restoreBatchIntervalUpperBoundSec : Z := 60 * 60.

(** A field that is set satisfies its bound. *)
Definition when_set {A} (f : A → bool) (v : option A) : bool := match v with Some x => f x | None => true end.

Definition valid_reason (reason : string) : bool :=
  (TrimSpace reason != "") && (RuneCountInString reason <=? startTextFieldMaxLen).

Definition validateUpdateRequest (req : UpdateRequest) : bool :=
  (is_set (ur_Reason req) || is_set (ur_RestoreBatchSize req) || is_set (ur_RestoreBatchIntervalSec req)
   || is_set (ur_MaxDurationSeconds req))
  && when_set valid_reason (ur_Reason req)
  && when_set (λ v, (0 <=? v) && (v <=? RestoreBatchSizeMax)) (ur_RestoreBatchSize req)
  && when_set (λ v, (0 <=? v) && (v <=? restoreBatchIntervalUpperBoundSec)) (ur_RestoreBatchIntervalSec req)
  && when_set (λ v, (0 <? v) && (v <=? maxFiniteDurationSeconds)) (ur_MaxDurationSeconds req).

(** The fields that differ from the event's. *)
Record UpdatePatch := {
  pa_Reason : option string;
  pa_RestoreBatchIntervalSec : option Z;
  pa_MaxDurationSeconds : option Z
}.

Definition effectiveUpdatePatch (e : CurtailmentEvent) (req : UpdateRequest) : UpdatePatch :=
  {| pa_Reason := v ← ur_Reason req; if v != ce_Reason e then Some v else None;
     pa_RestoreBatchIntervalSec :=
       v ← ur_RestoreBatchIntervalSec req; if v =? ce_RestoreBatchIntervalSec e then None else Some v;
     pa_MaxDurationSeconds :=
       v ← ur_MaxDurationSeconds req; if bool_decide (ce_MaxDurationSeconds e = Some v) then None else Some v |}.

(** Durations above the organization's default are for administrators. *)
Definition duration_gate (a : Answers) (admin : bool) (v : option Z) : COp unit :=
  match v with
  | Some v =>
      if admin then mret tt
      else match an_config a with
      | Err err => op_fail err
      | Ok default => if (0 <? default) && (default <? v) then op_fail NewForbiddenError else mret tt
      end
  | None => mret tt
  end.

(** The sentinels a handler turns into a failed precondition. *)
Definition race_is_precondition {A} (m : COp A) : COp A := λ db,
  match m db with
  | (Err ErrEventStateRaceLoss, db') => (Err (ErrStore NewFailedPreconditionError), db')
  | r => r
  end.

Definition conflict_is_precondition {A} (m : COp A) : COp A := λ db,
  match m db with
  | (Err ErrAdminTerminateStateConflict, db') | (Err ErrAdminTerminateActiveEvent, db') =>
      (Err (ErrStore NewFailedPreconditionError), db')
  | r => r
  end.

Definition UpdateEvent (a : Answers) (req : UpdateRequest) : COp CurtailmentEvent :=
  _ ← check (identified (ur_OrgID req) (ur_EventUUID req));
  _ ← check (validateUpdateRequest req);
  event ← read_event (ur_OrgID req) (ur_EventUUID req);
  if negb ((ce_State event == EvPending) || (ce_State event == EvActive)) then op_fail NewFailedPreconditionError
  else if negb (when_set (λ v, v =? ce_RestoreBatchSize event) (ur_RestoreBatchSize req)) then invalid
  else
    let patch := effectiveUpdatePatch event req in
    if negb (is_set (pa_Reason patch)) && negb (is_set (pa_RestoreBatchIntervalSec patch))
       && negb (is_set (pa_MaxDurationSeconds patch)) then mret event
    else
      _ ← duration_gate a (ur_CanUseAdminControls req) (pa_MaxDurationSeconds patch);
      if negb (ur_CanUseAdminControls req)
         && negb (when_set (λ v, v <=? nonAdminRestoreBatchIntervalMax) (pa_RestoreBatchIntervalSec patch)) then
        op_fail NewForbiddenError
      else
        _ ← meanwhile a;
        race_is_precondition (UpdateOperatorFields (ur_OrgID req) (ce_ID event) (pa_Reason patch) None
          (pa_RestoreBatchIntervalSec patch) (pa_MaxDurationSeconds patch)).

(** ** Termination by an administrator *)

(** [commandFanStateWithQueries], the fans answering [fan]. *)
Definition command_fan_state (id : Z) (p : FanStateParams) (fan : option string) : COp unit :=
  _ ← LockEventForFanCommand id (fp_ExpectedEventState p);
  UpdateEventFanState id fan p.

(** ON for the recovery of an operator; a first attempt is stamped. *)
Definition recovery_params (state : EventState) (e : CurtailmentEvent) (now : Z) : FanStateParams :=
  (fan_expecting state) <| fp_FanOnSentAt := if is_set (ce_FanOnSentAt e) then None else Some now |>.

(** A transaction: a failure undoes it. *)
Definition in_tx {A} (m : COp A) : COp A := λ db,
  match m db with (Ok a, db') => (Ok a, db') | (Err err, _) => (Err err, db) end.

(** [AdminTerminateEventWithFanRecovery]: the row is locked, the fans are turned on, and
    the statements of [AdminTerminateEvent] follow. *)
Definition AdminTerminateEventWithFanRecovery (a : Answers) (org id : Z) (target : EventState) (reason : string)
    : COp (CurtailmentEvent * bool) := in_tx (
  current ← read_event org id;
  db ← gets (λ db, db);
  if ce_State current == target then mret (current, false)
  else if IsTerminal (ce_State current) then fail ErrAdminTerminateStateConflict
  else if has_in_flight id db || (ce_State current == EvActive) then fail ErrAdminTerminateActiveEvent
  else
    _ ← when (some (ce_FacilityFanDeviceIDs current))
          (command_fan_state (ce_ID current) (recovery_params (ce_State current) current (an_now a)) (an_fan a));
    AdminTerminateEvent (an_now a) org id target reason).

Record AdminTerminateRequest := {
  at_OrgID : Z;
  at_EventUUID : Z;
  at_TargetState : EventState;
  at_Reason : string
}.

(** [s.fans != nil]: facility fans are wired. *)
Definition AdminTerminate (fans : bool) (a : Answers) (req : AdminTerminateRequest) : COp CurtailmentEvent :=
  _ ← check (identified (at_OrgID req) (at_EventUUID req));
  _ ← check ((at_TargetState req == EvCancelled) || (at_TargetState req == EvFailed));
  _ ← check (valid_reason (at_Reason req));
  r ← conflict_is_precondition
        (if fans then AdminTerminateEventWithFanRecovery a (at_OrgID req) (at_EventUUID req) (at_TargetState req)
                        (at_Reason req)
         else AdminTerminateEvent (an_now a) (at_OrgID req) (at_EventUUID req) (at_TargetState req) (at_Reason req));
  mret r.1.

(** ** Release by force *)

(** [CountConflictingCurtailmentFanClaims]. *)
Definition fan_claims (org excluded : Z) (fans : list Z) (db : CurtailDB) : Z :=
  Z.of_nat (length (List.filter (λ ke : Z * CurtailmentEvent,
    (ce_OrgID ke.2 =? org) && negb (ke.1 =? excluded)
    && (negb (IsTerminal (ce_State ke.2)) || is_set (ce_FanLastError ke.2))
    && existsb (λ f, bool_decide (f ∈ fans)) (ce_FacilityFanDeviceIDs ke.2))
    (map_to_list (db_events db)))).

(** The arguments of a recovery: positive distinct fans, each with a site. *)
Definition recoverable_fans (fans sites : list Z) : bool :=
  some (uniquePositiveInt64s fans) && (length (uniquePositiveInt64s fans) =? length fans)%nat
  && (length sites =? length fans)%nat && forallb (λ s, 0 <? s) sites.

Definition from_outside (r : result FleetError unit) : COp unit :=
  match r with Ok _ => mret tt | Err err => op_fail err end.

(** No newer event claims the fans. *)
Definition unclaimed_fans (org id : Z) (fans : list Z) : COp unit :=
  db ← gets (λ db, db);
  if 0 <? fan_claims org id fans db then op_fail NewFailedPreconditionError else mret tt.

Definition ForceReleaseEventWithFanRecovery (a : Answers) (org id : Z) (reason : string) (recovery : CurtailmentEvent)
    : COp (CurtailmentEvent * bool) := in_tx (
  let fans := ce_FacilityFanDeviceIDs recovery in
  let params := recovery_params EvCancelled recovery (an_now a) in
  _ ← check (recoverable_fans fans (ce_FacilityFanSiteIDs recovery));
  _ ← from_outside (an_fan_locks a);
  r ← ForceReleaseEvent (an_now a) org id reason;
  _ ← (if r.2 : bool then mret tt
       else if negb (IsTerminal (ce_State r.1)) || negb (ce_ID r.1 =? ce_ID recovery) then fail ErrEventStateRaceLoss
       else unclaimed_fans org (ce_ID recovery) fans);
  let params := if r.2 : bool then params else params <| fp_ExpectedEventState := ce_State r.1 |> in
  _ ← command_fan_state (ce_ID recovery) params (an_fan a);
  mret (r.1 <| ce_FanOnSentAt := coalesce (fp_FanOnSentAt params) (ce_FanOnSentAt r.1) |>
            <| ce_FanLastError := an_fan a |>, r.2)).

(** [RecoverTerminalFanState]. *)
Definition RecoverTerminalFanState (a : Answers) (e : CurtailmentEvent) (params : FanStateParams) : COp unit := in_tx (
  _ ← check (IsTerminal (fp_ExpectedEventState params));
  _ ← check (recoverable_fans (ce_FacilityFanDeviceIDs e) (ce_FacilityFanSiteIDs e));
  _ ← from_outside (an_fan_locks a);
  _ ← unclaimed_fans (ce_OrgID e) (ce_ID e) (ce_FacilityFanDeviceIDs e);
  UpdateEventFanState (ce_ID e) (an_fan a) params).

(** [restoreFansForOperatorRecovery] of an event that is over, with the event in memory
    after it. *)
Definition restoreFansForOperatorRecovery (a : Answers) (e : CurtailmentEvent) : COp CurtailmentEvent :=
  if negb (some (ce_FacilityFanDeviceIDs e)) then mret e
  else if negb (is_set (ce_FanOffSentAt e)) && negb (is_set (ce_FanOnSentAt e) && is_set (ce_FanLastError e)) then mret e
  else if negb (is_set (ce_FanLastError e)) then mret e
  else
    let params := recovery_params (ce_State e) e (an_now a) in
    _ ← meanwhile a;
    _ ← RecoverTerminalFanState a e params;
    mret (e <| ce_FanOnSentAt := coalesce (fp_FanOnSentAt params) (ce_FanOnSentAt e) |> <| ce_FanLastError := an_fan a |>).

Record ForceReleaseRequest := { fq_OrgID : Z; fq_EventUUID : Z; fq_Reason : string }.

(** The event, and whether ownership was released now. *)
Definition ForceRelease (fans : bool) (a : Answers) (req : ForceReleaseRequest) : COp (CurtailmentEvent * bool) :=
  let release := _ ← meanwhile a; ForceReleaseEvent (an_now a) (fq_OrgID req) (fq_EventUUID req) (fq_Reason req) in
  let filled (recovery : CurtailmentEvent) (r : CurtailmentEvent * bool) :=
    (r.1 <| ce_FanOnSentAt := coalesce (ce_FanOnSentAt r.1) (ce_FanOnSentAt recovery) |>, r.2) in
  _ ← check (identified (fq_OrgID req) (fq_EventUUID req));
  _ ← check (valid_reason (fq_Reason req));
  if negb fans then release
  else
    recovery ← read_event (fq_OrgID req) (fq_EventUUID req);
    if IsTerminal (ce_State recovery) then
      recovery ← restoreFansForOperatorRecovery a recovery;
      r ← release;
      mret (filled recovery r)
    else if negb (some (ce_FacilityFanDeviceIDs recovery)) then r ← release; mret (filled recovery r)
    else
      _ ← meanwhile a;
      r ← ForceReleaseEventWithFanRecovery a (fq_OrgID req) (fq_EventUUID req) (fq_Reason req) recovery;
      mret (filled recovery r).

(** ** Histories *)

Inductive Request :=
| RqStop (req : StopRequest)
| RqRecurtail (req : RecurtailRequest)
| RqUpdate (req : UpdateRequest)
| RqAdminTerminate (fans : bool) (req : AdminTerminateRequest)
| RqForceRelease (fans : bool) (req : ForceReleaseRequest).

(** The statements and transactions of the reconciler. *)
Inductive Statement :=
| StTarget (now id : Z) (device : string) (p : UpdateTargetParams)
| StRetry (id : Z) (device : string)
| StEvent (id : Z) (expected new : EventState) (startedAt endedAt : option Z)
| StPendingDispatch (id : Z) (expected : EventState) (at_ : Z)
| StFans (id : Z) (lastError : option string) (p : FanStateParams)
| StRestore (now org id : Z) (demand : result FleetError unit) (known_unsent : list string)
| StDepart (now id : Z) (expected : EventState) (departed : list string)
| StReadiness (now org id : Z) (expected : EventState) (available : list string)
    (updates : list AllPairedReadinessUpdate)
| StConfirm (owned paired : string → Z → bool) (id : Z) (expected : EventState) (updates : list ConfirmationUpdate)
| StClaim (now id : Z) (cooldown : bool) (available : list InsertTargetParams)
| StClaimAllPaired (now id : Z) (available : list InsertTargetParams).

(** A step of a history: a statement, or a request with what others do before each of its
    transactions. *)
Inductive Move :=
| MvStatement (st : Statement)
| MvRequest (others : list Move) (a : Answers) (rq : Request).

Definition run_statement (st : Statement) (db : CurtailDB) : CurtailDB :=
  match st with
  | StTarget now id device p => (UpdateTargetState now id device p db).2
  | StRetry id device => (BumpTargetRetry id device db).2
  | StEvent id expected new startedAt endedAt => (UpdateEventState id expected new startedAt endedAt db).2
  | StPendingDispatch id expected at_ => (RecordCurtailPendingDispatch id expected at_ db).2
  | StFans id lastError p => (UpdateEventFanState id lastError p db).2
  | StRestore now org id demand known => (BeginRestoreTransition now org id demand known db).2
  | StDepart now id expected departed => (BeginCurtailmentTopologyTargetRestore now id expected departed db).2
  | StReadiness now org id expected available us =>
      (BulkRefreshAllPairedTargetReadiness now org id expected available us db).2
  | StConfirm owned paired id expected us => (BulkConfirmTargets owned paired id expected us db).2
  | StClaim now id cooldown ps => (ClaimClosedLoopFullFleetTargets now id cooldown ps db).2
  | StClaimAllPaired now id ps => (ClaimAllPairedPolicyTargets now id ps db).2
  end.

Definition run_request (a : Answers) (rq : Request) (db : CurtailDB) : CurtailDB :=
  match rq with
  | RqStop req => (Stop a req db).2
  | RqRecurtail req => (Recurtail a req db).2
  | RqUpdate req => (UpdateEvent a req db).2
  | RqAdminTerminate fans req => (AdminTerminate fans a req db).2
  | RqForceRelease fans req => (ForceRelease fans a req db).2
  end.

Definition with_others (others : CurtailDB → CurtailDB) (a : Answers) : Answers :=
  {| an_now := an_now a; an_others := others; an_demand := an_demand a; an_fences := an_fences a;
     an_config := an_config a; an_fan_locks := an_fan_locks a; an_fan := an_fan a |}.

Fixpoint run_move (db : CurtailDB) (m : Move) {struct m} : CurtailDB :=
  match m with
  | MvStatement st => run_statement st db
  | MvRequest others a rq => run_request (with_others (λ db, fold_left run_move others db) a) rq db
  end.

Definition run_moves (history : list Move) (db : CurtailDB) : CurtailDB := fold_left run_move history db.

(** ** Sound moves of the tables *)

(** A live target: the restore of the miner is still owed, or its curtailment under way. *)
Definition live_target (db : CurtailDB) (id : Z) (d : string) : Prop :=
  ∃ r, target_rows db id !! d = Some r ∧ settled (tg_State r) = false.

(** A miner has a live target in at most one event. *)
Definition exclusive (db : CurtailDB) : Prop :=
  ∀ d id id', live_target db id d → live_target db id' d → id = id'.

(** The event is the same. *)
Definition same_event (e e' : CurtailmentEvent) : Prop :=
  ce_ID e' = ce_ID e ∧ ce_OrgID e' = ce_OrgID e ∧ ce_Mode e' = ce_Mode e ∧ ce_LoopType e' = ce_LoopType e ∧
  ce_ScopeType e' = ce_ScopeType e ∧ ce_Scope e' = ce_Scope e ∧ ce_FacilityFanDeviceIDs e' = ce_FacilityFanDeviceIDs e ∧
  ce_CreatedByUserID e' = ce_CreatedByUserID e.

(** Its life is over, and only what was recorded of the fans may change. *)
Definition same_end (e e' : CurtailmentEvent) : Prop :=
  ce_State e' = ce_State e ∧ ce_StartedAt e' = ce_StartedAt e ∧ ce_EndedAt e' = ce_EndedAt e ∧ ce_Reason e' = ce_Reason e.

(** Events and targets are kept, and those of an event that is over as they are. *)
Definition kept (db db' : CurtailDB) : Prop :=
  ∀ id e, db_events db !! id = Some e →
  ∃ e', db_events db' !! id = Some e' ∧ same_event e e' ∧ dom (target_rows db id) ⊆ dom (target_rows db' id) ∧
    (IsTerminal (ce_State e) = true → same_end e e' ∧ target_rows db' id = target_rows db id).

(** What every transaction does. *)
Record sound_move (db db' : CurtailDB) : Prop := {
  sm_exclusive : exclusive db → exclusive db';
  sm_kept : kept db db'
}.

Lemma same_event_refl e : same_event e e.
Proof. by split_and!. Qed.
Lemma same_end_refl e : same_end e e.
Proof. by split_and!. Qed.

Lemma move_refl db : sound_move db db.
Proof.
  split; [done|]. intros id e He. exists e.
  split_and!; [done|apply same_event_refl|done|]. intros _. split; [apply same_end_refl|done].
Qed.

Lemma move_trans db1 db2 db3 : sound_move db1 db2 → sound_move db2 db3 → sound_move db1 db3.
Proof.
  intros [X1 K1] [X2 K2]. split; [auto|]. intros id e He. destruct (K1 id e He) as (e2 & He2 & S1 & D1 & T1).
  destruct (K2 id e2 He2) as (e3 & He3 & S2 & D2 & T2). exists e3. split_and!; [done| |by etrans|].
  - unfold same_event in *. intuition congruence.
  - intros Ht. destruct (T1 Ht) as [(Hs & H1) Hr1]. destruct T2 as [H2 Hr2]; [by rewrite Hs|].
    split; [|congruence]. unfold same_end in *. intuition congruence.
Qed.

(** The header of an event. *)
Lemma move_event_row id e e' db :
  db_events db !! id = Some e → same_event e e' → (IsTerminal (ce_State e) = true → same_end e e') →
  sound_move db (put_event id e' db).
Proof.
  intros He Hs Ht. split; [done|]. intros k ek Hk. unfold put_event. simpl. destruct (decide (k = id)) as [->|Hne].
  - simplify_eq. rewrite lookup_insert_eq. exists e'. split_and!; [done|done|done|]. intros Hterm. split; [auto|done].
  - rewrite lookup_insert_ne by done. exists ek.
    split_and!; [done|apply same_event_refl|done|]. intros _. split; [apply same_end_refl|done].
Qed.

Lemma device_free_elsewhere db id d id' : device_free db id d = true → live_target db id' d → id' = id.
Proof.
  unfold device_free, live_target, target_rows. rewrite forallb_forall. intros Hf (r & Hr & Hl).
  destruct (db_targets db !! id') as [rows|] eqn:Er; [|simpl in Hr; by rewrite lookup_empty in Hr]. simpl in Hr.
  specialize (Hf (id', rows)). simpl in Hf. rewrite Hr, Hl in Hf. rewrite orb_false_r in Hf.
  apply Z.eqb_eq, Hf. apply list_elem_of_In. by apply elem_of_map_to_list.
Qed.

(** The targets of an event that is not over: none disappears, and one comes alive only
    where the index lets it. *)
Lemma move_rows id rows' db :
  (∀ e, db_events db !! id = Some e → IsTerminal (ce_State e) = false) →
  dom (target_rows db id) ⊆ dom rows' →
  (∀ d r, rows' !! d = Some r → settled (tg_State r) = false → live_target db id d ∨ device_free db id d = true) →
  sound_move db (put_rows id rows' db).
Proof.
  intros Hlive Hdom Hnew. split.
  - intros HX d.
    assert (Hin : ∀ k, live_target (put_rows id rows' db) k d → live_target db k d ∨ k = id ∧ device_free db id d = true).
    { intros k (r & Hr & Hs). destruct (decide (k = id)) as [->|Hne].
      - rewrite target_rows_put in Hr. destruct (Hnew d r Hr Hs); [by left|by right].
      - rewrite target_rows_put_ne in Hr by done. left. by exists r. }
    intros k k' Hk Hk'. destruct (Hin k Hk) as [H1|[-> F1]], (Hin k' Hk') as [H2|[-> F2]]; [by eapply HX|..|done].
    + by eapply device_free_elsewhere.
    + symmetry. by eapply device_free_elsewhere.
  - intros k e He. exists e. split_and!; [done|apply same_event_refl|..].
    + destruct (decide (k = id)) as [->|Hne]; [by rewrite target_rows_put|by rewrite target_rows_put_ne].
    + intros Ht. split; [apply same_end_refl|]. destruct (decide (k = id)) as [->|Hne]; [|by rewrite target_rows_put_ne].
      by rewrite (Hlive e He) in Ht.
Qed.

(** Row by row: a target stays, and a settled one is only taken up where the index lets it. *)
Definition row_move (db : CurtailDB) (id : Z) (d : string) (before after : option Target) : Prop :=
  match before, after with
  | Some t, Some t' => settled (tg_State t') = true ∨ settled (tg_State t) = false ∨ device_free db id d = true
  | None, Some t' => settled (tg_State t') = true ∨ device_free db id d = true
  | None, None => True
  | Some _, None => False
  end.

Lemma row_move_refl db id d o : row_move db id d o o.
Proof. destruct o as [t|]; simpl; [|done]. destruct (settled (tg_State t)); auto. Qed.

Lemma move_pointwise id rows' db :
  (∀ e, db_events db !! id = Some e → IsTerminal (ce_State e) = false) →
  (∀ d, row_move db id d (target_rows db id !! d) (rows' !! d)) →
  sound_move db (put_rows id rows' db).
Proof.
  intros Hlive Hrow. apply move_rows; [done|..].
  - intros d. rewrite !elem_of_dom. intros [t Ht]. specialize (Hrow d). rewrite Ht in Hrow.
    by destruct (rows' !! d).
  - intros d r Hr Hs. specialize (Hrow d). rewrite Hr in Hrow. unfold live_target.
    destruct (target_rows db id !! d) as [t|]; simpl in Hrow; [|destruct Hrow; [congruence|auto]].
    destruct Hrow as [?|[?|?]]; [congruence|left; by exists t|by right].
Qed.

(** One row. *)
Lemma move_insert id d t' db :
  (∀ e, db_events db !! id = Some e → IsTerminal (ce_State e) = false) →
  row_move db id d (target_rows db id !! d) (Some t') →
  sound_move db (put_rows id (<[d := t']> (target_rows db id)) db).
Proof.
  intros Hlive Hrow. apply move_pointwise; [done|]. intros d'. destruct (decide (d' = d)) as [->|Hne].
  - by rewrite lookup_insert_eq.
  - rewrite lookup_insert_ne by done. apply row_move_refl.
Qed.

Lemma fold_alter_lookup {U} (key : U → string) (f : U → Target → Target) us (rows : gmap string Target) d :
  (fold_left (λ rows u, alter (f u) (key u) rows) us rows !! d = rows !! d) ∨ d ∈ map key us ∧
  (is_Some (fold_left (λ rows u, alter (f u) (key u) rows) us rows !! d) ↔ is_Some (rows !! d)).
Proof.
  revert rows. induction us as [|u us IH]; intros rows; simpl; [by left|].
  destruct (IH (alter (f u) (key u) rows)) as [Heq|[Hin Hiff]].
  - rewrite Heq. destruct (decide (key u = d)) as [->|Hne].
    + right. split; [by left|]. rewrite lookup_alter_eq. by rewrite fmap_is_Some.
    + left. by rewrite lookup_alter_ne.
  - right. split; [by right|]. rewrite Hiff. destruct (decide (key u = d)) as [->|Hne].
    + rewrite lookup_alter_eq. by rewrite fmap_is_Some.
    + by rewrite lookup_alter_ne.
Qed.

(** Updates of rows that are live or may come alive. *)
Lemma move_alters {U} (key : U → string) (f : U → Target → Target) us id db :
  (∀ e, db_events db !! id = Some e → IsTerminal (ce_State e) = false) →
  (∀ u, u ∈ us → live_target db id (key u) ∨ device_free db id (key u) = true) →
  sound_move db (put_rows id (fold_left (λ rows u, alter (f u) (key u) rows) us (target_rows db id)) db).
Proof.
  intros Hlive Hus. apply move_pointwise; [done|]. intros d.
  destruct (fold_alter_lookup key f us (target_rows db id) d) as [->|[Hin Hiff]]; [apply row_move_refl|].
  apply list_elem_of_fmap in Hin as (u & -> & Hu). destruct (fold_left _ us _ !! key u) as [t'|].
  - destruct (proj1 Hiff) as [t Ht]; [done|]. rewrite Ht. simpl.
    destruct (Hus u Hu) as [(t0 & Ht0 & Hl)|Hf]; [simplify_eq; auto|auto].
  - destruct (target_rows db id !! key u) as [t|] eqn:Et; [|done]. by destruct (proj2 Hiff).
Qed.

(** ** Every statement is a sound move *)

Definition sound_op {A} (m : COp A) : Prop := ∀ db, sound_move db (m db).2.

Lemma sound_ret {A} (a : A) : sound_op (mret a).
Proof. intros db. apply move_refl. Qed.
Lemma sound_fail {A} (err : StoreError) : sound_op (fail err : COp A).
Proof. intros db. apply move_refl. Qed.
Lemma sound_bind {A B} (m : COp A) (f : A → COp B) : sound_op m → (∀ a, sound_op (f a)) → sound_op (m ≫= f).
Proof.
  intros Hm Hf db. specialize (Hm db). unfold mbind, M_bind. destruct (m db) as [[a|err] db1]; [|done].
  eapply move_trans; [exact Hm|apply Hf].
Qed.
Lemma sound_in_tx {A} (m : COp A) : sound_op m → sound_op (in_tx m).
Proof. intros Hm db. specialize (Hm db). unfold in_tx. destruct (m db) as [[a|err] db']; [done|apply move_refl]. Qed.
Lemma sound_gets {A} (f : CurtailDB → A) : sound_op (gets f).
Proof. intros db. apply move_refl. Qed.
Lemma sound_read org id : sound_op (read_event org id).
Proof. intros db. unfold read_event. destruct (GetEventByUUID org id db); apply move_refl. Qed.
Create HintDb sound.
#[local] Hint Resolve sound_ret sound_fail sound_gets sound_read move_refl : sound.

Lemma sound_UpdateTargetState now id d p : sound_op (UpdateTargetState now id d p).
Proof.
  intros db. unfold UpdateTargetState. destruct (db_events db !! id) as [e|] eqn:He; [|apply move_refl].
  destruct (target_rows db id !! d) as [t|] eqn:Ht; [|apply move_refl].
  destruct (patch_allowed p e t) eqn:Hp; cbn [negb]; [|apply move_refl].
  destruct (negb (settled (up_State p)) && _) eqn:Hf; [apply move_refl|]. simpl. apply move_insert.
  - intros e' [= <-]%(eq_trans (eq_sym He)). unfold patch_allowed in Hp. crush_bools. done.
  - rewrite Ht. simpl. rewrite patch_target_state. apply andb_false_iff in Hf as [Hf|Hf]; apply negb_false_iff in Hf; auto.
Qed.

Lemma sound_BumpTargetRetry id d : sound_op (BumpTargetRetry id d).
Proof.
  intros db. unfold BumpTargetRetry. destruct (db_events db !! id) as [e|] eqn:He; [|apply move_refl].
  destruct (target_rows db id !! d) as [t|] eqn:Ht; [|apply move_refl].
  destruct (IsTerminal (ce_State e)) eqn:Hl; [apply move_refl|]. simpl. apply move_insert.
  - intros e' [= <-]%(eq_trans (eq_sym He)). done.
  - rewrite Ht. assert (Hs : tg_State (bump_retry t) = tg_State t) by (unfold bump_retry; by destruct (tg_DesiredState t)).
    simpl. rewrite Hs. destruct (settled (tg_State t)); auto.
Qed.

(** Statements on the header of an event. *)
Ltac header_move He := simpl; eapply move_event_row; [exact He|by split_and!|].

Lemma sound_UpdateEventState id expected new st en : sound_op (UpdateEventState id expected new st en).
Proof.
  intros db. unfold UpdateEventState. destruct (db_events db !! id) as [e|] eqn:He; [|apply move_refl].
  destruct ((ce_State e == expected) && _) eqn:Hg; [|apply move_refl]. header_move He. crush_bools. congruence.
Qed.

Lemma sound_RecordCurtailPendingDispatch id expected at_ : sound_op (RecordCurtailPendingDispatch id expected at_).
Proof.
  intros db. unfold RecordCurtailPendingDispatch. destruct (db_events db !! id) as [e|] eqn:He; [|apply move_refl].
  destruct ((ce_State e == expected) && _) eqn:Hg; [|apply move_refl]. header_move He. intros _. by split_and!.
Qed.

Lemma sound_LockEventForFanCommand id expected : sound_op (LockEventForFanCommand id expected).
Proof.
  intros db. unfold LockEventForFanCommand. destruct (db_events db !! id); [|apply move_refl]. case_if; apply move_refl.
Qed.

Lemma sound_UpdateEventFanState id fan p : sound_op (UpdateEventFanState id fan p).
Proof.
  intros db. unfold UpdateEventFanState. destruct (db_events db !! id) as [e|] eqn:He; [|apply move_refl].
  case_if; [|apply move_refl]. header_move He. intros _. by split_and!.
Qed.

Lemma GetEventByUUID_Some org id db e : GetEventByUUID org id db = Some e → db_events db !! id = Some e.
Proof. unfold GetEventByUUID. destruct (db_events db !! id) as [e'|]; [|done]. case_if; congruence. Qed.

Lemma sound_UpdateOperatorFields org id reason size interval dur : sound_op (UpdateOperatorFields org id reason size interval dur).
Proof.
  intros db. unfold UpdateOperatorFields. destruct (GetEventByUUID org id db) as [e|] eqn:He; [|apply move_refl].
  apply GetEventByUUID_Some in He. destruct ((ce_State e == EvPending) || _) eqn:Hg; [|apply move_refl].
  header_move He. intros Ht. exfalso. destruct (ce_State e); done.
Qed.

(** The row of an event is written, and then its targets, while the event goes on. *)
Lemma move_both id e e' rows' db :
  db_events db !! id = Some e → same_event e e' → IsTerminal (ce_State e) = false →
  (∀ d, row_move db id d (target_rows db id !! d) (rows' !! d)) →
  sound_move db (put_event id e' (put_rows id rows' db)).
Proof.
  intros He Hs Hlive Hrow. eapply move_trans.
  - apply (move_pointwise id rows'); [|done]. intros e0 He0. congruence.
  - eapply move_event_row; [exact He|done|]. congruence.
Qed.

Lemma sound_BeginRestoreTransition now org id demand known : sound_op (BeginRestoreTransition now org id demand known).
Proof.
  intros db. unfold BeginRestoreTransition. destruct (GetEventByUUID org id db) as [e|] eqn:He; [|apply move_refl].
  apply GetEventByUUID_Some in He. destruct (ce_State e == EvRestoring); [apply move_refl|].
  destruct (IsTerminal (ce_State e)) eqn:Hl; [apply move_refl|]. destruct demand; [|apply move_refl].
  destruct (_ && _); [header_move He; congruence|]. cbv zeta. cbn [snd].
  set (e' := e <| ce_State := EvRestoring |>).
  set (rows' := target_rows (ResetCurtailmentTargetsForRestore now id
    (ReleaseUndispatchedTargetsForRestore now id known (put_event id e' db))) id).
  assert (Heq : ResetCurtailmentTargetsForRestore now id (ReleaseUndispatchedTargetsForRestore now id known (put_event id e' db))
    = put_event id e' (put_rows id rows' db)).
  { subst rows'. unfold ResetCurtailmentTargetsForRestore, ReleaseUndispatchedTargetsForRestore. rewrite !target_rows_put.
    unfold put_rows, put_event. simpl. by rewrite insert_insert_eq. }
  rewrite Heq. apply (move_both id e); [done|by split_and!|done|]. intros d. subst rows'.
  unfold ResetCurtailmentTargetsForRestore, ReleaseUndispatchedTargetsForRestore.
  rewrite !target_rows_put, lookup_fmap, map_lookup_imap, target_rows_put_event.
  destruct (target_rows db id !! d) as [t|]; simpl; [|done]. destruct (settled (tg_State t)) eqn:Es; [|auto].
  left. by destruct (releasable known d t); simpl; rewrite ?Es.
Qed.

Lemma sound_BeginRecurtailTransition org id fences : sound_op (BeginRecurtailTransition org id fences).
Proof.
  intros db. unfold BeginRecurtailTransition. destruct (GetEventByUUID org id db) as [e|] eqn:He; [|apply move_refl].
  apply GetEventByUUID_Some in He. destruct (IsTerminal (ce_State e)) eqn:Hl; [apply move_refl|].
  destruct (_ != _); [apply move_refl|]. destruct fences; [|apply move_refl].
  destruct (forallb _ _) eqn:Hf; [|apply move_refl]. rewrite forallb_forall in Hf.
  change (sound_move db (put_event id (resume_from_restoring e) (put_rows id
    ((λ t, if recurtail_candidate t then reset_for_recurtail t else t) <$> target_rows db id) db))).
  apply (move_both id e); [done|by split_and!|done|]. intros d. rewrite lookup_fmap.
  destruct (target_rows db id !! d) as [t|] eqn:Ht; simpl; [|done].
  destruct (recurtail_candidate t) eqn:Hc; [|destruct (settled (tg_State t)); auto]. right. right.
  apply (Hf (d, t)). apply filter_In. split; [|done]. apply list_elem_of_In. by apply elem_of_map_to_list.
Qed.

Lemma sound_BeginCurtailmentTopologyTargetRestore now id expected departed :
  sound_op (BeginCurtailmentTopologyTargetRestore now id expected departed).
Proof.
  intros db. unfold BeginCurtailmentTopologyTargetRestore. destruct (db_events db !! id) as [e|] eqn:He; [|apply move_refl].
  destruct ((ce_State e == expected) && _) eqn:Hg; [|apply move_refl]. cbv zeta. cbn [snd]. apply move_pointwise.
  - intros e' [= <-]%(eq_trans (eq_sym He)). apply andb_prop in Hg as [_ Hg]. by destruct (ce_State e).
  - intros d. rewrite map_lookup_imap. destruct (target_rows db id !! d) as [t|]; simpl; [|done].
    destruct (settled (tg_State t)) eqn:Es; [|auto]. rewrite andb_false_r. rewrite Es. auto.
Qed.

Lemma sound_refresh_rows now id expected us : sound_op (refresh_rows now id expected us).
Proof.
  intros db. unfold refresh_rows. destruct (db_events db !! id) as [e|] eqn:He; [|apply move_refl].
  destruct (negb _ && _) eqn:Hg; [|apply move_refl]. cbv zeta. destruct (forallb _ _) eqn:Hf; [|apply move_refl].
  rewrite forallb_forall in Hf. cbn [snd]. apply (move_alters ru_DeviceIdentifier (refresh_target now)).
  - intros e' [= <-]%(eq_trans (eq_sym He)). by crush_bools.
  - intros u Hu. right. apply Hf. by apply list_elem_of_In.
Qed.

Lemma sound_BulkRefresh now org id expected available us :
  sound_op (BulkRefreshAllPairedTargetReadiness now org id expected available us).
Proof.
  intros db. unfold BulkRefreshAllPairedTargetReadiness. cbv zeta. case_if; [apply sound_refresh_rows|].
  destruct (admission_event org id db) as [[]|]; [apply sound_refresh_rows|apply move_refl..].
Qed.

Lemma sound_BulkConfirmTargets owned paired id expected us : sound_op (BulkConfirmTargets owned paired id expected us).
Proof.
  intros db. unfold BulkConfirmTargets. destruct (db_events db !! id) as [e|] eqn:He; [|apply move_refl].
  destruct (negb _ && _) eqn:Hg; [|apply move_refl]. cbv zeta. cbn [snd].
  apply (move_alters cu_DeviceIdentifier confirm_target).
  - intros e' [= <-]%(eq_trans (eq_sym He)). by crush_bools.
  - intros u Hu. left. apply list_elem_of_In, filter_In in Hu as [_ Hu].
    destruct (target_rows db id !! cu_DeviceIdentifier u) as [t|] eqn:Ht; [|done]. exists t. split; [done|].
    unfold confirm_allowed in Hu. crush_bools. by destruct (tg_State t).
Qed.

(** Claims: the rows so far against those of the table. *)
Lemma claim_fold_sound now db id enters ps rows claimed rows' claimed' :
  fold_left (claim_one now db id enters) ps (Some (rows, claimed)) = Some (rows', claimed') →
  (∀ d, row_move db id d (target_rows db id !! d) (rows !! d)) →
  ∀ d, row_move db id d (target_rows db id !! d) (rows' !! d).
Proof.
  revert rows claimed. induction ps as [|p ps IH]; intros rows claimed Hf Hrow; simpl in Hf; [by simplify_eq|].
  assert (Hput : ∀ t, device_free db id (it_DeviceIdentifier p) = true →
    ∀ d, row_move db id d (target_rows db id !! d) (<[it_DeviceIdentifier p := t]> rows !! d)).
  { intros t Hfree d. destruct (decide (d = it_DeviceIdentifier p)) as [->|Hne]; [|by rewrite lookup_insert_ne].
    rewrite lookup_insert_eq. destruct (target_rows db id !! it_DeviceIdentifier p); simpl; auto. }
  assert (Hnone : ∀ ps, fold_left (claim_one now db id enters) ps None = None) by (clear; induction ps; done).
  destruct (target_rows db id !! it_DeviceIdentifier p) as [t|] eqn:Ht.
  - destruct (settled (tg_State t) && _); [|by eapply IH]. destruct (device_free db id _) eqn:Hd; [|by rewrite Hnone in Hf].
    eapply IH; [exact Hf|]. by apply Hput.
  - destruct (device_free db id _ && _) eqn:Hd; [|by eapply IH]. crush_bools. eapply IH; [exact Hf|]. by apply Hput.
Qed.

Lemma sound_claim_targets now id enters ps db e :
  db_events db !! id = Some e → IsTerminal (ce_State e) = false → sound_move db (claim_targets now id enters ps db).2.
Proof.
  intros He Hl. unfold claim_targets. destruct (fold_left _ ps _) as [[rows claimed]|] eqn:Hf; [|apply move_refl].
  simpl. apply move_pointwise; [intros e' He'; congruence|]. eapply claim_fold_sound; [exact Hf|]. intros d. apply row_move_refl.
Qed.

Lemma admits_live all e : CurtailmentEvents.admits all e = true → IsTerminal (ce_State e) = false.
Proof. unfold admits. intros Ha. crush_bools. by destruct (ce_State e). Qed.

Lemma sound_ClaimClosedLoop now id cooldown ps : sound_op (ClaimClosedLoopFullFleetTargets now id cooldown ps).
Proof.
  intros db. unfold ClaimClosedLoopFullFleetTargets. destruct (db_events db !! id) as [e|] eqn:He; [|apply move_refl].
  destruct (CurtailmentEvents.admits false e) eqn:Ha; cbn [negb]; [|apply move_refl].
  pose proof (sound_claim_targets now id (λ _, TgDispatching) ps db e He (admits_live _ _ Ha)) as Hc.
  destruct (claim_targets _ _ _ ps db) as [[c|err] db']; [|apply move_refl]. destruct cooldown; [apply move_refl|done].
Qed.

Lemma sound_ClaimAllPaired now id ps : sound_op (ClaimAllPairedPolicyTargets now id ps).
Proof.
  intros db. unfold ClaimAllPairedPolicyTargets. destruct (db_events db !! id) as [e|] eqn:He; [|apply move_refl].
  destruct (CurtailmentEvents.admits true e) eqn:Ha; cbn [negb]; [|apply move_refl].
  pose proof (sound_claim_targets now id (λ p, policy_state (it_State p)) ps db e He (admits_live _ _ Ha)) as Hc.
  by destruct (claim_targets _ _ _ ps db) as [[c|err] db']; [|apply move_refl].
Qed.

(** Sweeps settle what was live. *)
Lemma sound_sweep f id e e' db :
  db_events db !! id = Some e → IsTerminal (ce_State e) = false → same_event e e' →
  (∀ t, settled (tg_State (f t)) = true) → sound_move db (CurtailmentEvents.sweep f id (put_event id e' db)).
Proof.
  intros He Hl Hs Hf. change (sound_move db (put_event id e' (put_rows id
    ((λ t, if settled (tg_State t) then t else f t) <$> target_rows db id) db))).
  apply (move_both id e); [done..|]. intros d. rewrite lookup_fmap.
  destruct (target_rows db id !! d) as [t|]; simpl; [|done]. destruct (settled (tg_State t)) eqn:Es; auto.
Qed.

Lemma sound_AdminTerminateEvent now org id target reason : sound_op (AdminTerminateEvent now org id target reason).
Proof.
  intros db. unfold AdminTerminateEvent. destruct (GetEventByUUID org id db) as [e|] eqn:He; [|apply move_refl].
  apply GetEventByUUID_Some in He. case_if; [apply move_refl|].
  destruct (IsTerminal (ce_State e)) eqn:Hl; [apply move_refl|]. do 2 (case_if; [apply move_refl|]).
  apply (sound_sweep _ id e); [done|done|by split_and!|]. intros t. unfold sweep_to_restore_failed. by destruct (tg_DesiredState t).
Qed.

Lemma sound_ForceReleaseEvent now org id reason : sound_op (ForceReleaseEvent now org id reason).
Proof.
  intros db. unfold ForceReleaseEvent. destruct (GetEventByUUID org id db) as [e|] eqn:He; [|apply move_refl].
  apply GetEventByUUID_Some in He. destruct (IsTerminal (ce_State e)) eqn:Hl; [apply move_refl|].
  apply (sound_sweep _ id e); [done|done|by split_and!|]. intros t. unfold sweep_to_released. by destruct (tg_DesiredState t).
Qed.

(** ** Requests *)

#[local] Hint Resolve sound_UpdateTargetState sound_BumpTargetRetry sound_UpdateEventState
  sound_RecordCurtailPendingDispatch sound_LockEventForFanCommand sound_UpdateEventFanState
  sound_UpdateOperatorFields sound_BeginRestoreTransition sound_BeginRecurtailTransition
  sound_BeginCurtailmentTopologyTargetRestore sound_BulkRefresh sound_BulkConfirmTargets
  sound_ClaimClosedLoop sound_ClaimAllPaired sound_AdminTerminateEvent sound_ForceReleaseEvent : sound.

(** A program of sound operations is sound. *)
Ltac sound_program :=
  repeat (match goal with
  | |- sound_op (_ ≫= _) => apply sound_bind; [|intros ?]
  | |- sound_op (in_tx _) => apply sound_in_tx
  | |- sound_op (if ?b then _ else _) => destruct b
  | |- sound_op (match ?o with _ => _ end) => destruct o
  | |- sound_op (let _ := _ in _) => cbv zeta
  | |- sound_op (when _ _) => unfold when
  | |- sound_op (check _) => unfold check, invalid, op_fail
  | |- sound_op invalid => unfold invalid, op_fail
  | |- sound_op (op_fail _) => unfold op_fail
  | |- _ => solve [auto 2 with sound nocore]
  end).

Lemma sound_race {A} (m : COp A) : sound_op m → sound_op (race_is_precondition m).
Proof. intros Hm db. specialize (Hm db). unfold race_is_precondition. by destruct (m db) as [[a|[]] db']. Qed.
Lemma sound_conflict {A} (m : COp A) : sound_op m → sound_op (conflict_is_precondition m).
Proof. intros Hm db. specialize (Hm db). unfold conflict_is_precondition. by destruct (m db) as [[a|[]] db']. Qed.

Section Requests.
Context (fans : bool) (a : Answers) (others_sound : ∀ db, sound_move db (an_others a db)).

Lemma sound_meanwhile : sound_op (meanwhile a).
Proof. exact others_sound. Qed.
#[local] Hint Resolve sound_meanwhile : sound.

Lemma sound_Stop req : sound_op (Stop a req).
Proof. unfold Stop. sound_program. Qed.

Lemma sound_Recurtail req : sound_op (Recurtail a req).
Proof. unfold Recurtail. sound_program. Qed.

Lemma sound_UpdateEvent req : sound_op (UpdateEvent a req).
Proof. unfold UpdateEvent, duration_gate. sound_program. apply sound_race. sound_program. Qed.

Lemma sound_command_fan_state id p fan : sound_op (command_fan_state id p fan).
Proof. unfold command_fan_state. sound_program. Qed.
#[local] Hint Resolve sound_command_fan_state : sound.

Lemma sound_AdminTerminate req : sound_op (AdminTerminate fans a req).
Proof.
  unfold AdminTerminate. sound_program. apply sound_conflict. unfold AdminTerminateEventWithFanRecovery. sound_program.
Qed.

Lemma sound_from_outside r : sound_op (from_outside r).
Proof. unfold from_outside. sound_program. Qed.
Lemma sound_unclaimed_fans org id l : sound_op (unclaimed_fans org id l).
Proof. unfold unclaimed_fans. sound_program. Qed.
#[local] Hint Resolve sound_from_outside sound_unclaimed_fans : sound.

Lemma sound_ForceReleaseEventWithFanRecovery org id reason recovery :
  sound_op (ForceReleaseEventWithFanRecovery a org id reason recovery).
Proof. unfold ForceReleaseEventWithFanRecovery. sound_program. Qed.

Lemma sound_restoreFans e : sound_op (restoreFansForOperatorRecovery a e).
Proof. unfold restoreFansForOperatorRecovery, RecoverTerminalFanState. sound_program. Qed.
#[local] Hint Resolve sound_ForceReleaseEventWithFanRecovery sound_restoreFans : sound.

Lemma sound_ForceRelease req : sound_op (ForceRelease fans a req).
Proof. unfold ForceRelease. sound_program. Qed.

End Requests.

(** ** The theorem *)

Lemma sound_statement st db : sound_move db (run_statement st db).
Proof.
  assert (Hop : ∀ A (m : COp A), sound_op m → sound_move db (m db).2) by (intros A m Hm; apply Hm).
  destruct st; cbn [run_statement]; apply Hop; auto 2 with sound nocore.
Qed.

Lemma sound_request a rq db :
  (∀ db, sound_move db (an_others a db)) → sound_move db (run_request a rq db).
Proof.
  intros Ho. destruct rq; simpl.
  - by apply sound_Stop.
  - by apply sound_Recurtail.
  - by apply sound_UpdateEvent.
  - by apply sound_AdminTerminate.
  - by apply sound_ForceRelease.
Qed.

Lemma sound_run_move : ∀ m db, sound_move db (run_move db m).
Proof.
  fix IH 1. intros [st|others a rq] db; [apply sound_statement|]. simpl. apply sound_request. clear db rq. simpl.
  induction others as [|m others IHo]; intros db; simpl; [apply move_refl|]. eapply move_trans; [apply IH|apply IHo].
Qed.

Lemma sound_run_moves history db : sound_move db (run_moves history db).
Proof.
  revert db. induction history as [|m history IH]; intros db; [apply move_refl|].
  eapply move_trans; [apply sound_run_move|apply IH].
Qed.

(** C21: Along any history of stops, recurtails, updates, terminations and forced releases, others
    writing between a request's read and its transactions, and of every statement of the
    reconciler, a miner has a live target in at most one event, no event or target is lost, and an
    event that is over keeps its state, times, reason and all its targets as they ended. *)
Theorem curtailment_tables_stay_sound history db :
  exclusive db → exclusive (run_moves history db) ∧ kept db (run_moves history db).
Proof. intros HX. destruct (sound_run_moves history db) as [Hx Hk]. auto. Qed.
