(* ===== verification/CurtailmentExamples.v ===== *)
(** * A concrete fleet to curtail

    A store with six miners (two that hash, one offline, one held by an active
    event, one that lost its credentials, one idle) and the requests at which the
    theorems on previews apply. *)

From Stdlib Require Import Sorting.Sorted.
From S2P Require Import Prelude GoSort Float64 Errors RolloutBehavior CurtailmentModes.
From S2P Require Import CurtailmentSelector CurtailmentPreview CurtailmentFacts.
From S2P Require Import CurtailmentPlanFacts.
#[local] Open Scope string_scope.
#[local] Open Scope list_scope.
#[local] Open Scope Z_scope.
#[local] Open Scope go_scope.

Definition miner (id status pairing : string) (power hash efficiency : Z) : MinerCandidate :=
  {| mc_DeviceIdentifier := id; mc_DriverName := Some "proto"; mc_Model := "Rig"; mc_DeviceStatus := status;
     mc_PairingStatus := pairing; mc_LatestMetricsAt := Some 0; mc_LatestPowerW := Some (F64.of_Z power);
     mc_LatestHashRateHS := Some (F64.of_Z hash); mc_AvgEfficiencyJH := Some (F64.of_Z efficiency) |}.

Definition fleet : list MinerCandidate :=
  [miner "a" "ACTIVE" "PAIRED" 1500 100 20; miner "b" "ACTIVE" "PAIRED" 1600 90 30;
   miner "c" "OFFLINE" "PAIRED" 0 0 20; miner "d" "ACTIVE" "PAIRED" 1500 100 40;
   miner "e" "ACTIVE" "AUTHENTICATION_NEEDED" 1500 100 20; miner "f" "ACTIVE" "PAIRED" 5 0 20].

#[export] Instance example_store : CurtailmentStore := {
  OrgCandidateMinPowerW _ := Ok 100;
  ListActiveCurtailedDevices _ := Ok ["d"];
  ListCandidates _ := Ok fleet;
  ListRecentlyResolvedCurtailedDevices _ _ _ := Ok [];
  SiteBelongsToOrg _ _ := Ok true;
  ResolveCurtailmentTopologyScope := None
}.

Definition site_scope : CurtailmentScope :=
  {| cs_SchemaVersion := 1; cs_Type := ScopeTypeSite; cs_SiteID := 7; cs_SiteIDs := []; cs_BuildingIDs := [];
     cs_RackIDs := []; cs_GroupIDs := []; cs_DeviceIdentifiers := [] |}.

Definition request (mode : string) (target : Z) (all_paired : bool) : PreviewRequest :=
  {| pr_OrgID := 1; pr_Scope := site_scope; pr_Mode := mode; pr_Strategy := ""; pr_Level := "";
     pr_Priority := ""; pr_TargetKW := F64.of_Z target; pr_ToleranceKW := F64.zero;
     pr_IncludeMaintenance := false; pr_ForceIncludeMaintenance := false;
     pr_ForceIncludeAllPairedMiners := all_paired; pr_CandidateMinPowerWOverride := None;
     pr_PostEventCooldownSec := 600 |}.

Definition plan_of (req : PreviewRequest) : Plan :=
  match Preview req with Ok plan => plan | Err _ => BuildAllPairedPolicyPlan [] ∅ false end.

Definition one_kw : PreviewRequest := request ModeFixedKw 1 false.
Definition ten_kw : PreviewRequest := request ModeFixedKw 10 false.
Definition all_paired : PreviewRequest := request ModeFullFleet 0 true.

(** One kilowatt takes the least efficient free miner and spares the other. *)
Example one_kw_takes_b : map sd_DeviceIdentifier (pn_Selected (plan_of one_kw)) = ["b"].
Proof. vm_compute. reflexivity. Qed.

Example ten_kw_is_rejected :
  map sk_DeviceIdentifier (pn_Skipped (plan_of ten_kw)) = ["c"; "d"; "e"; "f"].
Proof. vm_compute. reflexivity. Qed.

Lemma preview_accounts_for_every_miner_witness :
  ∃ rd reserve, answered one_kw rd
    ∧ map sd_DeviceIdentifier (pn_Selected (plan_of one_kw)) ++ reserve
        ++ map sk_DeviceIdentifier (pn_Skipped (plan_of one_kw))
      ≡ₚ map mc_DeviceIdentifier (rd_candidates rd)
    ∧ (pr_Mode one_kw = ModeFullFleet → reserve = []).
Proof. refine (preview_accounts_for_every_miner one_kw (plan_of one_kw) _). vm_compute. reflexivity. Defined.

Lemma fixed_kw_preview_is_safe_witness :
  ∃ rd, answered one_kw rd
    ∧ ∀ s, s ∈ pn_Selected (plan_of one_kw) →
        ∃ c, c ∈ rd_candidates rd ∧ shown s = shows c ∧ may_curtail one_kw rd c.
Proof.
  refine (fixed_kw_preview_is_safe one_kw (plan_of one_kw) _ _).
  - vm_compute. reflexivity.
  - done.
Defined.

Lemma preview_takes_least_efficient_first_witness :
  ∃ rd order n, answered one_kw rd
    ∧ order ≡ₚ curtailable one_kw (rd_opts one_kw rd) (rd_candidates rd)
    ∧ map shown (pn_Selected (plan_of one_kw)) = map shows (take n order)
    ∧ StronglySorted (λ a b, goes_before b a = false) order
    ∧ (∀ chosen spared, chosen ∈ take n order → spared ∈ drop n order → goes_before spared chosen = false)
    ∧ ∀ same, (∀ a b, same a = true → same b = true → goes_before a b = false) →
        List.filter same order = List.filter same (curtailable one_kw (rd_opts one_kw rd) (rd_candidates rd)).
Proof.
  refine (preview_takes_least_efficient_first one_kw (plan_of one_kw) _ _).
  - vm_compute. reflexivity.
  - reflexivity.
Defined.

Lemma rejection_counts_every_exclusion_witness :
  pn_Selected (plan_of ten_kw) = []
  ∧ ∃ d, pn_InsufficientLoadDetail (plan_of ten_kw) = Some d
    ∧ RequestedKW d = pr_TargetKW ten_kw ∧ ToleranceKW d = pr_ToleranceKW ten_kw
    ∧ Forall (λ s, sk_Reason s ∈ prefilter_reasons ++ dual_reasons) (pn_Skipped (plan_of ten_kw))
    ∧ ∀ why, why ∈ prefilter_reasons ++ dual_reasons →
        counter_of why d = reported why (pn_Skipped (plan_of ten_kw)).
Proof.
  refine (rejection_counts_every_exclusion ten_kw (plan_of ten_kw) _ _).
  - vm_compute. reflexivity.
  - vm_compute. reflexivity.
Defined.

Lemma all_paired_policy_owns_every_paired_miner_witness :
  ∃ rd, answered all_paired rd
    ∧ let owned := List.filter (policy_owns (list_to_set (rd_active rd))) (rd_candidates rd) in
      map sd_DeviceIdentifier (pn_Selected (plan_of all_paired)) = map mc_DeviceIdentifier owned
      ∧ pn_UnavailableTargetCount (plan_of all_paired)
        = Z.of_nat (length (List.filter is_unavailable (pn_Selected (plan_of all_paired))))
      ∧ pn_PolicyTargetCount (plan_of all_paired) = Z.of_nat (length owned)
      ∧ Forall2 (λ s c, if is_unavailable s then sd_LastError s ≠ "" ∧ sd_PowerW s = F64.zero
           else sd_TargetState s = TargetStatePending ∧ sd_LastError s = ""
             ∧ may_command (pr_ForceIncludeMaintenance all_paired) c) (pn_Selected (plan_of all_paired)) owned.
Proof.
  refine (all_paired_policy_owns_every_paired_miner all_paired (plan_of all_paired) _ _).
  - vm_compute. reflexivity.
  - reflexivity.
Defined.

Lemma preview_reads_the_requested_scope_witness :
  ∃ rd, answered one_kw rd
    ∧ exact_filter (pr_Scope one_kw) (rd_filter rd) ∧ lc_OrgID (rd_filter rd) = pr_OrgID one_kw
    ∧ Forall (λ site, SiteBelongsToOrg (pr_OrgID one_kw) site = Ok true) (lc_SiteIDs (rd_filter rd))
    ∧ ∀ id, id ∈ cs_DeviceIdentifiers (pr_Scope one_kw) → id ≠ "" →
        id ∈ map mc_DeviceIdentifier (rd_candidates rd).
Proof. refine (preview_reads_the_requested_scope one_kw (plan_of one_kw) _). vm_compute. reflexivity. Defined.

(** * Curtailment events at work

    Concrete passes of the reconciler: the hypotheses of its theorems hold for them, and
    the commands the theorems speak of are sent. *)

From S2P Require Import AuthzPermissions CommandFilter CurtailmentEvents CurtailmentDecisions.
From S2P Require Import CurtailmentReconciler CurtailmentPasses CurtailmentTrace.
From S2P Require Import CurtailmentPacing CurtailmentRestoration CurtailmentLiveness CurtailmentService.

Definition demo_env : ReconcilerEnv := {|
  cfg := withDefaults {| cfg_TickInterval := 0; cfg_MaxRetries := 2; cfg_CurtailMaxRetries := 0;
           cfg_DriftThresholdFactor := F64.zero; cfg_CurtailDispatchTimeoutSec := 0;
           cfg_RestoreDispatchTimeoutSec := 60 |};
  wiring := {| w_fans := true; w_permissions := true |};
  collate := String.ltb;
  store_message := λ _, "store error" |}.

Definition demo_event : CurtailmentEvent := {|
  ce_ID := 7; ce_OrgID := 1; ce_State := EvActive; ce_Reason := ""; ce_Mode := ModeFullFleet; ce_LoopType := "open";
  ce_ScopeType := ScopeTypeWholeOrg; ce_Scope := Ok None; ce_ScopeSiteID := None; ce_Envelope := None;
  ce_SnapshotMinPowerW := None; ce_SnapshotCooldownSec := None; ce_SnapshotRequiresAdmin := Ok false;
  ce_CurtailBatchSize := None; ce_CurtailBatchIntervalSec := 0; ce_LastCurtailPendingDispatchAt := None;
  ce_RestoreBatchSize := 1; ce_RestoreBatchIntervalSec := 30; ce_EffectiveBatchSize := Some 1;
  ce_MinCurtailedDurationSec := 0; ce_MaxDurationSeconds := None; ce_AllowUnbounded := true; ce_IncludeMaintenance := false;
  ce_ForceIncludeMaintenance := false; ce_ForceIncludeAllPairedMiners := false;
  ce_FacilityFanDeviceIDs := []; ce_FacilityFanSiteIDs := []; ce_FanOffDelaySec := 60; ce_FanRestoreDelaySec := 30; ce_FanOffSentAt := None;
  ce_FanOnSentAt := None; ce_FanAirflowReopenedAt := None; ce_FanLastError := None; ce_StartedAt := Some 0;
  ce_EndedAt := None; ce_SourceActorType := "user"; ce_ExternalSource := None; ce_CreatedByUserID := 3 |}.

(** A miner confirmed curtailed, and one that was never sent a Curtail. *)
Definition confirmed_row : Target := no_target <| tg_State := TgConfirmed |> <| tg_LastDispatchedAt := Some 10 |>
  <| tg_ConfirmedAt := Some 20 |> <| tg_ObservedAt := Some 20 |> <| tg_BaselinePowerW := Some (F64.of_Z 3000) |>.

Definition demo_db : CurtailDB := {|
  db_events := {[ 7 := demo_event ]};
  db_targets := {[ 7 := {[ "a" := confirmed_row; "b" := no_target; "c" := confirmed_row ]} ]} |}.

(** Every call takes a second, telemetry reports a power and commands are accepted. *)
Definition miner_at (power : Z) (device : string) : MinerCandidate :=
  {| mc_DeviceIdentifier := device; mc_DriverName := Some "proto"; mc_Model := "R2"; mc_DeviceStatus := "ACTIVE";
     mc_PairingStatus := "PAIRED"; mc_LatestMetricsAt := Some 0; mc_LatestPowerW := Some (F64.of_Z power);
     mc_LatestHashRateHS := Some (F64.of_Z power); mc_AvgEfficiencyJH := None |}.

Definition turn_at (power : Z) : RTurn :=
  {| rt_others := λ db, db; rt_elapsed := Second; rt_error := None; rt_message := "";
     rt_candidates := map (miner_at power) ["a"; "b"; "c"]; rt_devices := [];
     rt_result := Some {| cr_BatchIdentifier := "batch"; cr_DispatchedCount := 3; cr_Skipped := [];
       cr_DispatchedDeviceIdentifiers := ["a"; "b"; "c"] |};
     rt_fan := None; rt_coverage := rt_coverage quiet_rturn; rt_effective := None; rt_role := "";
     rt_minPowerW := 0; rt_maxDuration := 0; rt_flag := false |}.

Definition good_turn : RTurn := turn_at 3000.

(** The actions of a pass, in order. *)
Definition actions_of (s : RState) : list Action := map en_action (rs_trace s).
Definition curtails (s : RState) : list (list string) :=
  omap (λ a, match a with SentCurtail ds => Some ds | _ => None end) (actions_of s).
Definition fan_commands (s : RState) : list PowerMode :=
  omap (λ a, match a with CommandedFans p _ => Some p | _ => None end) (actions_of s).

#[local] Existing Instance demo_env.

(** ** A stop *)

Definition stop_time : Z := 100 * Second.
Definition stopped : result StoreError CurtailmentEvent * CurtailDB :=
  BeginRestoreTransition stop_time 1 7 (Ok tt) [] demo_db.
Definition stopped_event : CurtailmentEvent := demo_event <| ce_State := EvRestoring |>.
Definition minutes (n : nat) : list Z := repeat (61 * Second) n.

(** Miners are restored one batch after the other, the one that was never curtailed is
    released, and the event completes. *)
Example stop_restores_in_batches :
  let s := ticks (minutes 3) (reconciler_at stop_time stopped.2 (repeat good_turn 100) stopped_event) in
  uncurtails (rs_trace s) = [["a"]; ["c"]] ∧
  tg_State <$> target_rows (rs_db s) 7 = {[ "a" := TgResolved; "b" := TgReleased; "c" := TgResolved ]} ∧
  ce_State <$> db_events (rs_db s) !! 7 = Some EvCompleted.
Proof. vm_compute. split_and!; reflexivity. Qed.

(** When no command is accepted the retries run out, and the event ends too. *)
Example stop_gives_up :
  let s := ticks (minutes 16) (reconciler_at stop_time stopped.2 [] stopped_event) in
  tg_State <$> target_rows (rs_db s) 7 = {[ "a" := TgRestoreFailed; "b" := TgReleased; "c" := TgRestoreFailed ]} ∧
  ce_State <$> db_events (rs_db s) !! 7 = Some EvCompletedWithFailures.
Proof. vm_compute. split_and!; reflexivity. Qed.


(** ** Commands of a pass *)

(** A pending event: both miners are sent a Curtail. *)
Example pending_pass_curtails :
  let e := demo_event <| ce_State := EvPending |> in
  let db := {| db_events := {[ 7 := e ]}; db_targets := {[ 7 := {[ "a" := no_target; "b" := no_target ]} ]} |} in
  curtails (processEvent e (reconciler_at stop_time db (repeat good_turn 20) e)).2 = [["a"; "b"]].
Proof. vm_compute. reflexivity. Qed.

(** An active event whose miners are all confirmed curtailed, its delay over: the fans
    are turned off. *)
Example active_pass_stops_fans :
  let e := demo_event <| ce_FacilityFanDeviceIDs := [1] |> in
  let db := {| db_events := {[ 7 := e ]}; db_targets := {[ 7 := {[ "a" := confirmed_row ]} ]} |} in
  fan_commands (processEvent e (reconciler_at stop_time db (repeat (turn_at 0) 20) e)).2 = [PowerOff].
Proof. vm_compute. reflexivity. Qed.

(** ** Readiness of a restoring event *)

(** A miner whose restore failed and that cannot be commanded is among the updates: none
    of the updates is applied, while the event restores. *)
Lemma failed_restore_blocks_readiness now org id available updates u e db :
  db_events db !! id = Some e → ce_State e = EvRestoring → u ∈ updates → ru_ExpectedState u = TgRestoreFailed →
  BulkRefreshAllPairedTargetReadiness now org id EvRestoring available updates db = (Ok [], db).
Proof.
  intros He Hst Hu Hf. unfold BulkRefreshAllPairedTargetReadiness.
  assert (Hex : existsb (λ u, ru_ExpectedState u == TgRestoreFailed) updates = true).
  { apply existsb_exists. exists u. split; [by apply list_elem_of_In|]. by apply bool_decide_true. }
  rewrite Hex. unfold admission_event. by rewrite He, Hst.
Qed.

(** ** Histories of requests *)

(** The active event, and one that restored the same miner before. *)
Definition restored_row : Target := confirmed_row <| tg_State := TgResolved |> <| tg_DesiredState := DsActive |>.
Definition older_event : CurtailmentEvent := demo_event <| ce_ID := 6 |> <| ce_State := EvRestoring |>.
Definition two_events : CurtailDB := {|
  db_events := {[ 6 := older_event; 7 := demo_event ]};
  db_targets := {[ 6 := {[ "a" := restored_row ]}; 7 := {[ "a" := confirmed_row; "b" := no_target ]} ]} |}.

Definition calm_answers : Answers :=
  {| an_now := stop_time; an_others := λ db, db; an_demand := Ok tt; an_fences := Ok tt; an_config := Ok 0;
     an_fan_locks := Ok tt; an_fan := None |}.
Definition recurtail_older : Request := RqRecurtail
  {| cq_OrgID := 1; cq_EventUUID := 6; cq_ResponseProfileID := 0; cq_ResponseProfileRevision := 0;
     cq_AutomationRuleID := 0; cq_AutomationMQTTSourceID := 0; cq_AutomationServiceUserID := 0 |}.
Definition stop_newer : Request :=
  RqStop {| sr_OrgID := 1; sr_EventUUID := 7; sr_Force := false; sr_AutomationRestore := false |}.
Definition release_newer : Request :=
  RqForceRelease true {| fq_OrgID := 1; fq_EventUUID := 7; fq_Reason := "maintenance" |}.

(** The older event cannot take the miner back while the newer one holds it, and can
    afterwards. *)
Example recurtail_waits_for_the_miner :
  run_moves [MvRequest [] calm_answers recurtail_older] two_events = two_events ∧
  tg_State <$> target_rows (run_moves [MvRequest [] calm_answers release_newer;
    MvRequest [] calm_answers recurtail_older] two_events) 6 = {[ "a" := TgPending ]}.
Proof. vm_compute. split; reflexivity. Qed.

(** A stop whose event is released by force before its transaction changes nothing more. *)
Definition crossing : list Move :=
  [MvRequest [MvRequest [] calm_answers release_newer] calm_answers stop_newer;
   MvRequest [] calm_answers recurtail_older].

Lemma two_events_exclusive : exclusive two_events.
Proof.
  assert (Hown : ∀ id d, live_target two_events id d → id = 7).
  { intros id d (r & Hr & Hl). unfold target_rows in Hr. destruct (db_targets two_events !! id) as [rows|] eqn:Er; [|done].
    change (db_targets two_events) with ({[ 6 := {[ "a" := restored_row ]}; 7 := {[ "a" := confirmed_row; "b" := no_target ]} ]}
      : gmap Z (gmap string Target)) in Er.
    apply lookup_insert_Some in Er as [[<- <-]|[_ Er]]; [|by apply lookup_singleton_Some in Er as [<- _]].
    simpl in Hr. apply lookup_singleton_Some in Hr as [_ <-]. done. }
  intros d id id' H1 H2. rewrite (Hown _ _ H1). symmetry. by eapply Hown.
Qed.

Lemma curtailment_tables_stay_sound_witness :
  exclusive (run_moves crossing two_events) ∧ kept two_events (run_moves crossing two_events).
Proof. apply (curtailment_tables_stay_sound crossing two_events). exact two_events_exclusive. Defined.
